(* ===== verification/_CoqProject ===== *)
-Q . S2P
Prelude.v
Errors.v
GoStrings.v
Base64.v
GoFloat.v
ParseFloat.v
FormatFloat.v
GoDuration.v
LoadProfile.v
Shard.v
Run.v
Taurus.v
Scenario.v
Execution.v
Rbac.v
Auth.v
Criteria.v
Compile.v
Histogram.v
Report.v
Verdicts.v
ReportFacts.v
Progress.v
Sidecar.v
Delivery.v
Reservation.v
Quota.v
Campaign.v
RunTable.v
Schedule.v
Calibration.v
Capacity.v
Directory.v
Store.v
TenantApp.v
AuthApp.v
Threshold.v
Recs.v
Cluster.v
ExecutionApp.v
ScenarioApp.v
CalibrationApp.v
CampaignApp.v
ScheduleApp.v
Lifecycle.v
Deploy.v
DeployFacts.v
LifecycleFacts.v
AdminApp.v
Reconciliation.v
MetricsApp.v
MetricsFacts.v
Series.v
Export.v
MysqlProgress.v
MysqlFacts.v
CampaignVerdict.v
Slo.v
Webhook.v
Config.v
Digest.v
ClusterApp.v
Kube.v
KubeFacts.v
KubeRouter.v
ProjectApp.v
Daemon.v
Http.v
HttpAdmin.v
HttpExec.v
HttpScen.v
HttpCampaign.v
HttpRouter.v
HttpFacts.v
HttpAccess.v
HttpFlows.v
Upkeep.v
System.v
