(* ===== verification/Prelude.v ===== *)
(** * Honryu: a verification development

    Honryu is a load-testing platform: a control plane that keeps projects,
    scenarios and executions, reserves engine capacity for tenants, deploys
    engine pods on clusters, opens and closes runs, and turns what a sidecar in
    each pod pushes into a run's report.  The code is hexagonal: a pure domain
    ([src/internal/domain]), use-cases ([src/internal/app]) written against
    ports ([src/internal/ports]), an in-memory implementation of every port
    ([src/internal/ports/fake], held to the same conformance suites as the real
    adapters), adapters, and the programs of [src/cmd].  This development models
    the domain, the use-cases, the in-memory ports, the HTTP API, the Kubernetes
    scheduler, the MySQL working state, the identity providers, the
    configuration and the background processes, and proves what holds of each
    and of their composition.

    ** The files, in dependency order

    Language: [Prelude] (int64 with wrap-around, times and durations, the
    result type and the state-and-error monad [M] with the [Keeps] automation
    for invariants of handlers, bounded loops, lists and maps), [Errors] (the
    sentinel errors), [GoStrings], [Base64], [GoFloat], [ParseFloat],
    [FormatFloat], [GoDuration] (the parts of Go's libraries the sources use).

    Domain: [LoadProfile] (domain/loadprofile, domain/loadmode), [Shard]
    (domain/shard), [Run] (domain/run), [Taurus] (domain/taurus), [Scenario]
    (domain/project, domain/scenario), [Execution] (domain/execution), [Rbac]
    (domain/rbac, domain/account, domain/tenant), [Criteria], [Compile]
    (domain/compile, domain/telemetry), [Histogram] (domain/metrics), [Report],
    [Verdicts] (domain/report), [Reservation] (domain/reservation), [Campaign]
    (domain/campaign), [Schedule] (domain/schedule), [Calibration]
    (domain/calibration), [Capacity] (domain/capacityprofile).  The files of an
    aggregate that has a table of its own also model that table of the
    in-memory repository: [Reservation] the ledger, [Campaign] the campaigns,
    [Schedule] the schedules and occurrences, [Calibration] the job ledger,
    [Capacity] the profiles, [RunTable] the runs, running scenarios and orphaned
    completions, [Directory] tenants and grants, [Progress] the working state of
    a run.

    Ports: [Store] (the shared store, made of those tables and the catalogue),
    [Cluster] (the scheduler port as the class [Scheduler] with its laws, its
    in-memory instance, the object store, and [World], all of the state a
    service acts on, with the lifting of each part's methods to it).

    Use-cases: [Quota] (app/quotaapp), [TenantApp], [AuthApp] (app/tenantapp,
    app/authapp), [Threshold] (app/thresholdapp and domain/threshold), [Recs]
    (app/recsapp, app/usageapp), [ExecutionApp], [ScenarioApp],
    [CalibrationApp], [CampaignApp] with [CampaignVerdict], [ScheduleApp],
    [ProjectApp], [AdminApp], [ClusterApp], [Slo], [Webhook] and [Digest] (the
    packages of those names, with their domains and tables), [Lifecycle] and
    [Deploy] (app/lifecycleapp), [MetricsApp] (app/metricsapp), [Series]
    (app/reportapp and the error history), [Sidecar] (internal/sidecar),
    [Config] (internal/config), [Daemon] (the loops of cmd/scheduler and
    cmd/calibrator and the sweep of cmd/api).  The theorems of the larger ones
    are in [ReportFacts], [Delivery], [DeployFacts], [LifecycleFacts],
    [Reconciliation] and [MetricsFacts].

    Adapters: [Auth] (adapters/auth), [Kube], [KubeFacts], [KubeRouter]
    (adapters/scheduler/k8s), [MysqlProgress], [MysqlFacts]
    (adapters/repo/mysql/report_progress.go and interval_repository.go),
    [Export] (the CSV and PDF downloads), [Http], [HttpAdmin], [HttpExec],
    [HttpScen], [HttpCampaign] (the handlers of adapters/httpapi), [HttpRouter]
    (its routes, each with the permission it demands).

    Whole system: [HttpFacts], [HttpAccess], [HttpFlows] (what the API
    guarantees), [Upkeep] (what every operation keeps), [System] (histories of
    requests, pushes and ticks of the background processes).

    ** How the parts interact

    Services reach each other through the interfaces the source has, as type
    classes with laws: [QuotaRepo] and [Stopper] (what the quota service needs;
    the ledger and the lifecycle service's [Stop] discharge them), [Scheduler]
    (discharged by the in-memory scheduler, by the Kubernetes adapter over a
    class of typed clients, and by the router over registered clusters),
    [Metrics] (what the lifecycle service needs of the metrics service;
    [metrics_service_laws] discharges it), [ThresholdEvaluator],
    [AuthProvider] (each identity provider is an instance), [ClusterRegistry]
    and [CredentialStore].  Client theorems are proved against the interface.
    The state of the HTTP API ([Api]) is that of all services; a handler lifts
    a service's method to it, and a route is a permission and a handler.
    A record's field has its Go name, prefixed where two records share it
    ([res_], [occ_], [rep_], ...); a method keeps its name, prefixed with its
    type where two types share it.

    ** What the theorems show

    - The system ([System], [Upkeep]): over every history of requests, pushes
      and background ticks, quotas hold, an execution has at most one open run
      and the tables stay well formed.
    - Access ([HttpAccess], [AuthApp], [Auth]): a request is served only to a
      caller whose grants include what its route demands, a tenant's data is
      reached by that tenant's members only, and decisions are those of the
      assignment table.
    - Capacity ([Quota], [LifecycleFacts]): an admitted reservation fits its
      tenant's ceiling; what fits is admitted and what does not is refused
      without a trace; over every interleaving of triggers, stops, purges,
      reaping, reconciliation, scheduling and claims no tenant is ever
      oversubscribed and no execution has two open runs.
    - Deploying ([Compile], [DeployFacts], [KubeFacts], [KubeRouter]): the
      documents say what was asked for, the pods together carry the load, the
      reservation covers the time they run, a shard's document reaches its pod,
      and readiness counts pods of this deploy only.
    - Runs ([RunTable], [LifecycleFacts], [Reconciliation], [HttpFlows]): a
      trigger that succeeds was entitled to and opens one run; it is answered in
      bounded time; stop, purge, reaping, the kill switch and both
      reconciliation passes close exactly what they should.
    - Measurements ([Sidecar], [Histogram], [Progress], [ReportFacts],
      [Delivery], [MetricsFacts], [Series], [MysqlFacts], [Export]): however
      pushes are lost, repeated or delayed, a report counts every measurement
      once; it depends neither on order nor on restarts; percentiles are nearest
      ranks; the last shard to finish closes the run; the first report stands;
      the chart drawn from the stored rows is the one of the measurements; the
      MySQL working state refines the in-memory one; a downloaded CSV reads back
      to the figures it was written from.
    - Configurations and scenarios ([ExecutionApp], [ScenarioApp], [Config]):
      what is stored is valid, a restore can be undone, a configuration that
      loads satisfies every rule it is checked against.
    - Campaigns, schedules, digests ([CampaignApp], [CampaignVerdict],
      [Schedule], [ScheduleApp], [Daemon], [Digest], [Slo]): what is frozen,
      which occurrences exist and who claims them, what is drained, that digests
      tile time without gap or overlap, what a verdict is made of.
    - The capacity search ([Calibration], [CalibrationApp]) ends within its
      budget with a verdict its steps justify, and the service refines it.
    - Clusters ([ClusterApp], [KubeRouter]): registration is all or nothing, a
      deploy goes to the cluster it names.
    A theorem that shows the code to differ from what it means to do is stated
    as such.

    ** Conventions

    - [int] and [int64] are [Z] with wrap-around written out ([+w], [*w]); row
      ids a store hands out and counts of its rows are not wrapped.  [float64]
      is [SpecFloat] binary64, rounded after every operation (no fused
      multiply-add); histogram keys are not NaN and have one zero.
    - A wrapped error is its sentinel; joined errors are their number and hold
      no sentinel.
    - A map is a [gmap]; iterating over one follows [map_to_list], and
      [sort.Slice] and its kind are [merge_sort] by the source's order.
    - A handler runs atomically and reads one instant [now] (the wait for ready
      engines reads the clock once a turn); interleaving is explicit, as
      sequences of steps.  A SQL transaction is one step.  Goroutines that write
      to distinct keys run in loop order; other writers between two calls of one
      operation to the Kubernetes API are not modelled.  [AddDate(0,0,7)] is
      seven times 24 hours (UTC).
    - Where a loop is not structural it has fuel that suffices: the cron walk
      has more than one unit per instant of its window and each fire time is
      later than the last; the capacity search one per step of its budget
      (proved enough); a wait one turn per nanosecond of its timeout
      ([loop_upto_total]); [ParseDuration] one per byte ([sum_parts_fuel]);
      [FormatFloat] seventeen digits, which tell any two floats apart; other
      string scans one per byte.
    - [ToLower] lowers ASCII letters, which is what the lists it is matched
      against consist of; where any letter counts the Unicode tables are the
      class [Unicode].

    ** Parameters

    Code that is not in the repository, and encodings, are arguments of the
    definitions that use them, with what is relied on as classes of laws: the
    cron parser ([CronLaws]), the Kubernetes quantity parser and typed clients,
    the kubeconfig loader, the client constructor and the prober's answers; the
    YAML codec of documents, the image resolver, the source of trace ids; HMAC,
    SHA-256, RSA verification, the cipher, token draws and the cookie codec; the
    URL and date parsers; the JSON of the sidecar's stream, request bodies,
    events, digests and configuration lists; the network's answers to webhooks
    and mail; the clock and the sleep of waits; the collation of MySQL's text
    columns.

    ** What is not modelled, and why

    The other statements of the MySQL adapter (SQL text a server runs; the
    services are modelled over the in-memory implementations of the same ports);
    the object-store, event-bus, audit, metrics and cipher clients (they only
    talk to other systems); the XML of JMeter scripts with the import that reads
    it; process start, wiring and logging; the routes for health, metrics, node
    pools, the event stream, the flat scenario list, the JMeter import and
    request validation; the login redirects and key fetching of OIDC; the
    sidecar's file tailing; the web interface (TypeScript).  JSON answers are
    trees, not text, except for the downloads. *)
From stdpp Require Export base gmap strings pretty sorting numbers list.

#[export] Set Default Proof Using "Type".
Open Scope Z_scope.

(** ** Machine integers

    Go's [int] and [int64] are 64-bit two's complement.  They are modelled as
    [Z]; [wrap64] is the value an arithmetic result has after wrap-around, and
    the operators of [go_scope] wrap. *)
Definition int64_min : Z := - 2 ^ 63.
Definition int64_max : Z := 2 ^ 63 - 1.
Definition wrap64 (z : Z) : Z := (z + 2 ^ 63) mod 2 ^ 64 - 2 ^ 63.
Definition in_int64 (z : Z) : Prop := int64_min <= z <= int64_max.

Declare Scope go_scope.
Delimit Scope go_scope with go.
Notation "x +w y" := (wrap64 (x + y)) (at level 50, left associativity) : go_scope.
Notation "x -w y" := (wrap64 (x - y)) (at level 50, left associativity) : go_scope.
Notation "x *w y" := (wrap64 (x * y)) (at level 40, left associativity) : go_scope.
Open Scope go_scope.

#[global] Instance in_int64_dec z : Decision (in_int64 z).
Proof. unfold in_int64. apply _. Defined.

Lemma wrap64_small z : in_int64 z → wrap64 z = z.
Proof.
  unfold in_int64, wrap64, int64_min, int64_max. intros H.
  rewrite Z.mod_small; lia.
Qed.

Lemma wrap64_in_int64 z : in_int64 (wrap64 z).
Proof.
  unfold in_int64, wrap64, int64_min, int64_max.
  pose proof (Z.mod_pos_bound (z + 2 ^ 63) (2 ^ 64)). lia.
Qed.

Lemma wrap64_add_l a b : wrap64 (wrap64 a + b) = wrap64 (a + b).
Proof.
  unfold wrap64.
  replace ((a + 2 ^ 63) mod 2 ^ 64 - 2 ^ 63 + b + 2 ^ 63)
    with ((a + 2 ^ 63) mod 2 ^ 64 + b) by lia.
  rewrite Zplus_mod_idemp_l. f_equal. f_equal. lia.
Qed.

Lemma wrap64_add_r a b : wrap64 (a + wrap64 b) = wrap64 (a + b).
Proof. rewrite Z.add_comm, wrap64_add_l. f_equal. lia. Qed.

(** Go's [/] and [%] truncate toward zero. *)
Definition go_div (a b : Z) : Z := wrap64 (Z.quot a b).
Definition go_rem (a b : Z) : Z := Z.rem a b.

(** ** Sums

    [sumZ f l] is the mathematical sum, [sum64 f l] the value of the Go loop
    [for _, x := range l { acc += f(x) }]. *)
Definition sumZ {A} (f : A → Z) (l : list A) : Z := foldr (λ x acc, f x + acc) 0 l.
Definition sum64 {A} (f : A → Z) (l : list A) : Z :=
  fold_left (λ acc x, acc +w f x) l 0.

Section sums.
Context {A : Type} (f : A → Z).

Lemma sumZ_app l k : sumZ f (l ++ k) = sumZ f l + sumZ f k.
Proof. induction l as [|x l IH]; csimpl; [done|]. rewrite IH. lia. Qed.

#[global] Instance sumZ_perm : Proper ((≡ₚ) ==> (=)) (sumZ f).
Proof. induction 1; simpl in *; lia. Qed.

Lemma sumZ_nonneg l : (∀ x, x ∈ l → 0 <= f x) → 0 <= sumZ f l.
Proof.
  induction l as [|x l IH]; intros H; simpl; [lia|].
  pose proof (H x ltac:(left)).
  assert (0 <= sumZ f l) by (apply IH; intros; apply H; by right). lia.
Qed.

Lemma sumZ_filter_le (P : A → Prop) `{∀ x, Decision (P x)} l :
  (∀ x, x ∈ l → 0 <= f x) → sumZ f (filter P l) <= sumZ f l.
Proof.
  induction l as [|x l IH]; intros H1; [done|].
  rewrite filter_cons. pose proof (H1 x ltac:(left)).
  assert (sumZ f (filter P l) <= sumZ f l) by (apply IH; intros; apply H1; by right).
  case_decide; simpl; lia.
Qed.

Lemma sumZ_filter_mono (P Q : A → Prop)
    `{∀ x, Decision (P x)} `{∀ x, Decision (Q x)} l :
  (∀ x, x ∈ l → 0 <= f x) → (∀ x, x ∈ l → P x → Q x) →
  sumZ f (filter P l) <= sumZ f (filter Q l).
Proof.
  induction l as [|x l IH]; intros Hnn Himp; [done|].
  rewrite !filter_cons. pose proof (Hnn x ltac:(left)).
  assert (sumZ f (filter P l) <= sumZ f (filter Q l))
    by (apply IH; intros; [apply Hnn|apply Himp]; try done; by right).
  destruct (decide (P x)); destruct (decide (Q x)); simpl; try lia.
  exfalso. eauto using list_elem_of_here.
Qed.

Lemma sumZ_submseteq l k :
  (∀ x, x ∈ k → 0 <= f x) → l ⊆+ k → sumZ f l <= sumZ f k.
Proof.
  intros Hnn [k' Hk]%submseteq_Permutation.
  rewrite Hk, sumZ_app. enough (0 <= sumZ f k') by lia.
  apply sumZ_nonneg. intros x Hx. apply Hnn. rewrite Hk, elem_of_app. by right.
Qed.

Lemma sum64_acc l a :
  fold_left (λ acc x, acc +w f x) l (wrap64 a) = wrap64 (a + sumZ f l).
Proof.
  revert a. induction l as [|x l IH]; intros a; simpl.
  - f_equal. lia.
  - rewrite wrap64_add_l, IH. f_equal. lia.
Qed.

(** A wrapping loop computes the mathematical sum modulo [2^64]. *)
Lemma sum64_wrap l : sum64 f l = wrap64 (sumZ f l).
Proof.
  unfold sum64. change 0 with (wrap64 0) at 1. by rewrite sum64_acc.
Qed.

Lemma sum64_small l : in_int64 (sumZ f l) → sum64 f l = sumZ f l.
Proof. intros. by rewrite sum64_wrap, wrap64_small. Qed.
End sums.

Lemma sumZ_ext {A} (f g : A → Z) l :
  (∀ x, x ∈ l → f x = g x) → sumZ f l = sumZ g l.
Proof.
  induction l as [|x l IH]; intros H; simpl; [done|].
  rewrite (H x ltac:(left)), IH; [done|]. intros. apply H. by right.
Qed.

Lemma sumZ_fmap {A B} (g : B → A) (f : A → Z) l : sumZ f (g <$> l) = sumZ (f ∘ g) l.
Proof. induction l as [|x l IH]; csimpl; [done|]. by rewrite IH. Qed.

Lemma filter_fmap {A B} (g : A → B) (P : B → Prop) `{!∀ x, Decision (P x)} (l : list A) :
  filter P (g <$> l) = g <$> filter (λ x, P (g x)) l.
Proof.
  induction l as [|x l IH]; csimpl; [done|]. rewrite !filter_cons, IH. by case_decide.
Qed.

Lemma filter_all {A} (P : A → Prop) `{!∀ x, Decision (P x)} (l : list A) :
  (∀ x, x ∈ l → P x) → filter P l = l.
Proof.
  induction l as [|x l IH]; intros HP; [done|].
  rewrite filter_cons_True by (apply HP; left). rewrite IH; [done|]. intros. apply HP. by right.
Qed.
Lemma filter_none {A} (P : A → Prop) `{!∀ x, Decision (P x)} (l : list A) :
  (∀ x, x ∈ l → ¬ P x) → filter P l = [].
Proof.
  induction l as [|x l IH]; intros HP; [done|].
  rewrite filter_cons_False by (apply HP; left). apply IH. intros. apply HP. by right.
Qed.

Lemma length_omap {A B} (f : A → option B) l : (length (omap f l) <= length l)%nat.
Proof. induction l as [|x l IH]; cbn; [done|]. destruct (f x); cbn; lia. Qed.

(** A left fold whose steps can be swapped does not see the order. *)
Lemma fold_left_perm {A B} (f : A → B → A) (l k : list B) a :
  (∀ a x y, f (f a x) y = f (f a y) x) → l ≡ₚ k → fold_left f l a = fold_left f k a.
Proof.
  intros Hf Hp. revert a. induction Hp as [|x l k _ IH|x y l|l k m _ IH1 _ IH2]; intros a; simpl.
  - done.
  - apply IH.
  - by rewrite Hf.
  - by rewrite IH1.
Qed.

(** Inserting the entries of a map one by one, in any order, gives the map. *)
Lemma fold_insert_map {K A B} `{Countable K} (key : B → K) (val : B → A) (m : gmap K A) l :
  ((λ x, (key x, val x)) <$> l) ≡ₚ map_to_list m →
  fold_left (λ m x, <[key x := val x]> m) l ∅ = m.
Proof.
  intros Hl. assert (∀ l (m0 : gmap K A), fold_left (λ m x, <[key x := val x]> m) l m0 =
    fold_left (λ m (kv : K * A), <[kv.1 := kv.2]> m) ((λ x, (key x, val x)) <$> l) m0) as ->.
  { clear. induction l as [|x l IH]; intros m0; csimpl; [done|]. apply IH. }
  set (es := (λ x, (key x, val x)) <$> l) in *.
  assert (NoDup es.*1) as Hnd by (rewrite Hl; apply NoDup_fst_map_to_list).
  rewrite <- (list_to_map_to_list m), <- (list_to_map_proper _ _ Hnd Hl).
  clear Hl. clearbody es.
  assert (∀ m0 : gmap K A, fold_left (λ m (kv : K * A), <[kv.1 := kv.2]> m) es m0 =
    list_to_map es ∪ m0) as Hg; [|by rewrite Hg, map_union_empty].
  induction es as [|[k v] es IH]; intros m0; cbn; [by rewrite map_empty_union|].
  apply NoDup_cons in Hnd as [Hk Hnd]. rewrite IH by done. cbn.
  rewrite <- insert_union_l, insert_union_r; [done|]. by apply not_elem_of_list_to_map_1.
Qed.

(** ** Sorted lists *)
Lemma sorted_snoc (l : list Z) x :
  StronglySorted (<) l → (∀ y, y ∈ l → y < x) → StronglySorted (<) (l ++ [x]).
Proof.
  induction 1 as [|y l Hl IH Hy]; intros Hx; simpl; [repeat constructor|].
  constructor; [apply IH; set_solver|].
  apply Forall_app; split; [done|]. apply Forall_singleton. apply Hx. by left.
Qed.

Lemma sorted_NoDup (l : list Z) : StronglySorted (<) l → NoDup l.
Proof.
  induction 1 as [|y l Hl IH Hy]; constructor; [|done].
  rewrite Forall_forall in Hy. intros Hin%Hy. lia.
Qed.

(** The last element of a sorted list is above all of them. *)
Lemma sorted_last {A} (R : A → A → Prop) `{!Reflexive R} l x :
  StronglySorted R l → last l = Some x → ∀ y, y ∈ l → R y x.
Proof.
  induction 1 as [|z l Hl IH Hz]; [done|]. intros Hlast y Hy.
  rewrite Forall_forall in Hz. destruct l as [|z' l].
  - injection Hlast as ->. by apply list_elem_of_singleton in Hy as ->.
  - change (last (z :: z' :: l)) with (last (z' :: l)) in Hlast.
    apply elem_of_cons in Hy as [->|Hy]; [|by apply IH].
    apply Hz. by apply last_Some_elem_of.
Qed.

(** ** Time

    [time.Time] is an instant in nanoseconds counted from Go's zero time, so
    the zero value is [0]; [time.Duration] is an [int64] of nanoseconds. *)
Definition time := Z.
Definition duration := Z.
Definition time_zero : time := 0.
Definition Before (a b : time) : bool := bool_decide (a < b).
Definition After (a b : time) : bool := bool_decide (b < a).
Definition IsZero (t : time) : bool := bool_decide (t = time_zero).
Definition nanosecond : duration := 1.
Definition second : duration := 1000000000.
Definition time_Add (t : time) (d : duration) : time := t + d.
(** [Sub] saturates at the limits of [Duration]. *)
Definition time_Sub (a b : time) : duration := Z.max int64_min (Z.min int64_max (a - b)).

(** ** Results and effects

    A Go function with an [error] result returns a value or an error.  A method
    that mutates shared state keeps its mutations when it returns an error, so
    the monad threads the state through both outcomes. *)
Inductive result (E A : Type) : Type :=
| Ok (a : A)
| Err (e : E).
Arguments Ok {E A} a.
Arguments Err {E A} e.

#[global] Instance result_eq_dec {E A} `{EqDecision E, EqDecision A} :
  EqDecision (result E A).
Proof. solve_decision. Defined.

#[global] Instance result_ret {E} : MRet (result E) := λ A a, Ok a.
#[global] Instance result_bind {E} : MBind (result E) :=
  λ A B k m, match m with Ok a => k a | Err e => Err e end.

Definition is_Ok {E A} (r : result E A) : bool :=
  match r with Ok _ => true | Err _ => false end.

Definition M (S E A : Type) : Type := S → result E A * S.

#[global] Instance M_ret {S E} : MRet (M S E) := λ A a s, (Ok a, s).
#[global] Instance M_bind {S E} : MBind (M S E) :=
  λ A B k m s, match m s with
               | (Ok a, s') => k a s'
               | (Err e, s') => (Err e, s')
               end.

Section effects.
Context {S E : Type}.

Definition throw {A} (e : E) : M S E A := λ s, (Err e, s).
Definition gets {A} (f : S → A) : M S E A := λ s, (Ok (f s), s).
Definition modify (f : S → S) : M S E unit := λ s, (Ok tt, f s).
Definition lift {A} (r : result E A) : M S E A := λ s, (r, s).
(** A method that reads and can fail. *)
Definition ask {A} (f : S → result E A) : M S E A := λ s, (f s, s).
(** [if cond { return err }]. *)
Definition guard (b : bool) (e : E) : M S E unit :=
  if b then throw e else mret tt.
(** [_ = f()]: the error is discarded, the state change is kept. *)
Definition ignore {A} (m : M S E A) : M S E unit := λ s, (Ok tt, (m s).2).
(** [v, err := f()]: the error is a value the caller inspects. *)
Definition attempt {A} (m : M S E A) : M S E (result E A) :=
  λ s, let '(r, s') := m s in (Ok r, s').
(** [for _, x := range l { body(x) }], leaving the loop on an error. *)
Fixpoint for_each {A} (l : list A) (body : A → M S E unit) : M S E unit :=
  match l with
  | [] => mret tt
  | x :: l' => body x ≫= λ _, for_each l' body
  end.

Lemma bind_Ok {A B} (m : M S E A) (k : A → M S E B) s b s'' :
  (m ≫= k) s = (Ok b, s'') ↔ ∃ a s', m s = (Ok a, s') ∧ k a s' = (Ok b, s'').
Proof.
  unfold mbind, M_bind. destruct (m s) as [[a|e] s']; naive_solver.
Qed.

Lemma lift_Ok {A} (r : result E A) s a s' : lift r s = (Ok a, s') → r = Ok a ∧ s' = s.
Proof. by intros [= -> <-]. Qed.
Lemma bind_Err {A B} (m : M S E A) (k : A → M S E B) s e s'' :
  (m ≫= k) s = (Err e, s'') ↔
  m s = (Err e, s'') ∨ ∃ a s', m s = (Ok a, s') ∧ k a s' = (Err e, s'').
Proof.
  unfold mbind, M_bind. destruct (m s) as [[a|e'] s']; naive_solver.
Qed.

(** A loop whose body preserves a relation on states preserves it. *)
Lemma for_each_preserves {A} (R : S → S → Prop) `{!PreOrder R}
    (l : list A) (body : A → M S E unit) s :
  (∀ x s0, x ∈ l → R s0 (body x s0).2) → R s (for_each l body s).2.
Proof.
  revert s. induction l as [|x l IH]; intros s H; simpl; [reflexivity|].
  unfold mbind, M_bind. pose proof (H x s ltac:(left)) as Hx.
  destruct (body x s) as [[u|e] s']; simpl in *; [|done].
  etrans; [exact Hx|]. apply IH. intros. apply H. by right.
Qed.

(** A loop whose body always succeeds always succeeds. *)
Lemma for_each_total {A} (l : list A) (body : A → M S E unit) s :
  (∀ x s0, ∃ s1, body x s0 = (Ok tt, s1)) → ∃ s', for_each l body s = (Ok tt, s').
Proof.
  intros H. revert s. induction l as [|x l IH]; intros s; simpl; [by eexists|].
  unfold mbind, M_bind. destruct (H x s) as [s1 ->]. apply IH.
Qed.
End effects.

(** A handler keeps a relation between states when it relates every state to
    the one it leaves, whether it succeeds or fails.  This is compositional, so
    it is a class whose instances follow the structure of the code. *)
Class Keeps {S E A : Type} (R : relation S) (m : M S E A) : Prop :=
  keeps : ∀ s, R s (m s).2.

Section keeps.
Context {S E : Type} (R : relation S) `{!PreOrder R}.

#[global] Instance keeps_bind {A B} (m : M S E A) (k : A → M S E B) :
  Keeps R m → (∀ a, Keeps R (k a)) → Keeps R (m ≫= k).
Proof using PreOrder0.
  intros Hm Hk s. unfold mbind, M_bind. pose proof (Hm s) as H1.
  destruct (m s) as [[a|e] s1]; simpl in *; [|done]. etrans; [done|apply Hk].
Qed.
#[global] Instance keeps_ret {A} (a : A) : Keeps (E := E) R (mret a).
Proof using PreOrder0. intros s. reflexivity. Qed.
#[global] Instance keeps_throw {A} (e : E) : Keeps (A := A) R (throw e).
Proof using PreOrder0. intros s. reflexivity. Qed.
#[global] Instance keeps_lift {A} (r : result E A) : Keeps R (lift r).
Proof using PreOrder0. intros s. reflexivity. Qed.
#[global] Instance keeps_gets {A} (f : S → A) : Keeps (E := E) R (gets f).
Proof using PreOrder0. intros s. reflexivity. Qed.
#[global] Instance keeps_ask {A} (f : S → result E A) : Keeps R (ask f).
Proof using PreOrder0. intros s. reflexivity. Qed.
#[global] Instance keeps_guard b (e : E) : Keeps R (guard b e).
Proof using PreOrder0. destruct b; apply _. Qed.
#[global] Instance keeps_attempt {A} (m : M S E A) : Keeps R m → Keeps R (attempt m).
Proof using. intros Hm s. unfold attempt. pose proof (Hm s). by destruct (m s). Qed.
#[global] Instance keeps_ignore {A} (m : M S E A) : Keeps R m → Keeps R (ignore m).
Proof using. intros Hm s. apply Hm. Qed.
#[global] Instance keeps_for_each {A} (l : list A) (f : A → M S E unit) :
  (∀ x, Keeps R (f x)) → Keeps R (for_each l f).
Proof using PreOrder0. intros Hf s. apply for_each_preserves; [done|]. intros x s0 _. apply Hf. Qed.
End keeps.

(** Splits the data a handler branches on and composes the instances. *)
Ltac solve_keeps :=
  repeat first
    [ progress (intros; cbv zeta)
    | apply _
    | match goal with
      | |- Keeps _ (_ ≫= _) => apply keeps_bind; [apply _| |]
      | |- Keeps _ (for_each _ _) => apply keeps_for_each; [apply _|]
      | |- Keeps _ (attempt _) => apply keeps_attempt
      | |- Keeps _ (ignore _) => apply keeps_ignore
      | |- Keeps _ (match ?x with _ => _ end) => destruct x
      | |- Keeps _ (let '(_, _) := ?x in _) => destruct x
      end ].

(** ** Loops

    [for { ... }] with an exit inside the body: [loop_upto step p s] runs the
    body at most [p] times; [inl s'] is the state after a body that did not
    leave the loop, [inr r] the value it was left with.  The fuel is binary, so
    a bound of any size is cheap; [loop_upto_total] is how a client shows its
    bound is never reached. *)
Fixpoint loop_upto {S R : Type} (step : S → S + R) (p : positive) (s : S) : S + R :=
  match p with
  | xH => step s
  | xO p' =>
      match loop_upto step p' s with
      | inl s' => loop_upto step p' s'
      | inr r => inr r
      end
  | xI p' =>
      match step s with
      | inl s' =>
          match loop_upto step p' s' with
          | inl s'' => loop_upto step p' s''
          | inr r => inr r
          end
      | inr r => inr r
      end
  end.

Section loops.
Context {S R : Type} (step : S → S + R).
Context (P : S → Prop) (Q : R → Prop) (m : S → Z).
Context (Hstep : ∀ s, P s →
  match step s with inl s' => P s' ∧ m s' < m s | inr r => Q r end).

Lemma loop_upto_measure p s :
  P s →
  match loop_upto step p s with
  | inl s' => P s' ∧ m s' + Z.pos p <= m s
  | inr r => Q r
  end.
Proof using Hstep.
  revert s. induction p as [p IH|p IH|]; intros s Hs; simpl.
  - pose proof (Hstep s Hs) as H. destruct (step s) as [s1|]; [|done].
    destruct H as [H1 Hm1]. pose proof (IH s1 H1) as H. destruct (loop_upto step p s1) as [s2|];
      [|done]. destruct H as [H2 Hm2]. pose proof (IH s2 H2) as H.
    destruct (loop_upto step p s2); [|done]. destruct H. split; [done|lia].
  - pose proof (IH s Hs) as H. destruct (loop_upto step p s) as [s1|]; [|done].
    destruct H as [H1 Hm1]. pose proof (IH s1 H1) as H.
    destruct (loop_upto step p s1); [|done]. destruct H. split; [done|lia].
  - pose proof (Hstep s Hs) as H. destruct (step s); [|done]. destruct H. split; [done|lia].
Qed.

(** A loop whose measure stays positive and falls leaves by itself. *)
Lemma loop_upto_total p s :
  (∀ s, P s → 0 <= m s) → P s → m s < Z.pos p →
  ∃ r, loop_upto step p s = inr r ∧ Q r.
Proof using Hstep.
  intros Hnn Hs Hp. pose proof (loop_upto_measure p s Hs) as H.
  destruct (loop_upto step p s) as [s'|r]; [|eauto].
  destruct H as [H' ?]. pose proof (Hnn _ H'). lia.
Qed.
End loops.

(** A loop whose body relates what it starts from to what it leaves does so too. *)
Lemma loop_upto_relates {S R T : Type} (rel : relation T) `{!PreOrder rel} (step : S → S + R)
    (f : S → T) (g : R → T) :
  (∀ x, match step x with inl x' => rel (f x) (f x') | inr r => rel (f x) (g r) end) →
  ∀ p x, match loop_upto step p x with inl x' => rel (f x) (f x') | inr r => rel (f x) (g r) end.
Proof.
  intros Hstep. induction p as [p IH|p IH|]; intros x; cbn [loop_upto]; [| |apply Hstep].
  - pose proof (Hstep x) as H0. destruct (step x) as [x1|]; [|done].
    pose proof (IH x1) as H1. destruct (loop_upto step p x1) as [x2|]; [|by etrans].
    pose proof (IH x2) as H2. destruct (loop_upto step p x2); (etrans; [|exact H2]); by etrans.
  - pose proof (IH x) as H1. destruct (loop_upto step p x) as [x1|]; [|done].
    pose proof (IH x1) as H2. destruct (loop_upto step p x1); by etrans.
Qed.

(** ** Automation *)
Create HintDb honryu.
#[export] Hint Resolve wrap64_small wrap64_in_int64 : honryu.
#[export] Hint Unfold in_int64 int64_min int64_max : honryu.

(** Splits the outermost boolean tests and matches of a goal or hypothesis. *)
Ltac go_case :=
  repeat match goal with
  | |- context [if bool_decide ?P then _ else _] => destruct (bool_decide_reflect P)
  | |- context [if ?b then _ else _] => destruct b eqn:?
  | H : context [if bool_decide ?P then _ else _] |- _ => destruct (bool_decide_reflect P)
  | H : context [if ?b then _ else _] |- _ => destruct b eqn:?
  end.

(** Reflects boolean comparisons in hypotheses and the goal. *)
Ltac to_prop :=
  repeat match goal with
  | H : (_ && _) = true |- _ => apply andb_true_iff in H as [? ?]
  | H : (_ || _) = false |- _ => apply orb_false_iff in H as [? ?]
  | H : negb _ = true |- _ => apply negb_true_iff in H
  | H : negb _ = false |- _ => apply negb_false_iff in H
  | H : bool_decide _ = true |- _ => apply bool_decide_eq_true in H
  | H : bool_decide _ = false |- _ => apply bool_decide_eq_false in H
  | H : (_ =? _) = true |- _ => apply Z.eqb_eq in H
  | H : (_ =? _) = false |- _ => apply Z.eqb_neq in H
  | H : (_ <? _) = true |- _ => apply Z.ltb_lt in H
  | H : (_ <? _) = false |- _ => apply Z.ltb_ge in H
  | H : (_ <=? _) = true |- _ => apply Z.leb_le in H
  | H : (_ <=? _) = false |- _ => apply Z.leb_gt in H
  end.
