(* ===== verification/Errors.v ===== *)
(** * The sentinel errors the modelled packages return

    One constructor per Go sentinel ([errors.New]) or typed error.  A wrapped
    error ([fmt.Errorf] with [%w]) is modelled by the sentinel it wraps, which
    is what callers compare with [errors.Is]; the message text is dropped.  Of
    joined errors ([errors.Join]) the number is kept. *)
From S2P Require Import Prelude.

Inductive error : Type :=
(* ports *)
| ErrNotFound
| ErrRunActive
| ErrEnginesUnreachable
| ErrObjectNotFound
| ErrFileExists
| ErrLaunchActive
(* internal/domain/run *)
| ErrNoScenarios
| ErrNotDeployed
| ErrEnginesNotReady
| ErrAlreadyRunning
| ErrNotRunning
(* internal/domain/loadprofile *)
| ErrLPScenarioRequired
| ErrLPEnginesInvalid
| ErrLPConcurrencyInvalid
| ErrLPDurationInvalid
| ErrLPThroughputInvalid
| ErrLPNoScenarios
| ErrLPModeInvalid
| ErrLPModeThroughput
| ErrLPStepsInvalid
| ErrLPStaircaseDuration
(* internal/domain/loadmode *)
| ErrModeInvalid
(* internal/domain/shard *)
| ErrShardsInvalid
| ErrShardConcurrencyInvalid
(* internal/domain/execution *)
| ErrExecNameRequired
| ErrExecNameTooLong
| ErrExecProjectRequired
| ErrExecEngineUnknown
| ErrExecKindUnknown
| ErrFanOutTargetDuplicate
(* internal/domain/reservation *)
| ErrResEngineCountInvalid
| ErrResWindowInvalid
(* internal/domain/schedule *)
| ErrSchedExecutionRequired
| ErrSchedKindInvalid
| ErrFireAtRequired
| ErrRecurrenceRequired
| ErrRecurrenceInvalid
| ErrSchedWindowInvalid
(* internal/domain/campaign *)
| ErrCampNameRequired
| ErrCampWindowInvalid
| ErrServicesRequired
| ErrDuplicateService
| ErrCampProjectRequired
| ErrServiceExecutionInvalid
(* internal/domain/project *)
| ErrProjNameRequired
| ErrProjNameTooLong
| ErrProjOwnerRequired
| ErrProjOwnerTooLong
| ErrSIDInvalid
| ErrSIDTooLong
(* internal/domain/scenario *)
| ErrScenNameRequired
| ErrScenNameTooLong
| ErrScenProjectRequired
| ErrScenKindUnknown
| ErrScenEngineUnknown
| ErrPortableEnginePinned
| ErrNativeEngineRequired
| ErrTemplateNameRequired
| ErrTemplateNameTooLong
| ErrEngineNeedsScript
| ErrEnginePinned
(* internal/domain/calibration *)
| ErrCriterionRequired
| ErrPodSizeRequired
| ErrSeedQPSInvalid
| ErrMaxQPSInvalid
| ErrMaxStepsInvalid
| ErrHoldInvalid
| ErrCriterionInvalid
(* internal/domain/threshold *)
| ErrMetricUnknown
| ErrComparisonUnknown
| ErrValueNotPositive
| ErrValueOutOfRange
| ErrThresholdScenarioRequired
(* internal/domain/taurus *)
| ErrNoExecution
| ErrExecutorRequired
| ErrTaurusConcurrencyInvalid
| ErrTaurusScenarioRequired
| ErrScenarioUndefined
| ErrScenarioEmpty
| ErrDurationRequired
(* internal/domain/compile *)
| ErrNoEntries
| ErrEngineRequired
| ErrScenarioMissing
| ErrScriptRequired
| ErrRequestsRequired
(* ports: run progress *)
| ErrUnsequencedBatch
| ErrProgressRunRequired
| ErrProgressScenarioRequired
(* internal/domain/report *)
| ErrRepExecutionRequired
| ErrRepRunRequired
(* internal/app/metricsapp *)
| ErrNoActiveRun
| ErrStaleRun
(* internal/app/campaignapp *)
| ErrServiceExecutionMismatch
| ErrServiceProjectTenantMismatch
| ErrCampaignStarted
(* internal/domain/tenant *)
| ErrTenantNameRequired
| ErrTenantNameTooLong
| ErrTenantNameInvalid
| ErrDisplayNameRequired
| ErrStatusInvalid
(* internal/app/tenantapp, authapp, adminapp *)
| ErrUnknownRole
| ErrGlobalRoleScoped
| ErrCeilingInvalid
| ErrUnauthenticated
| ErrUnknownProfile
| ErrScopeInvalid
(* internal/app/projectapp, executionapp, scenarioapp *)
| ErrProjectHasScenarios
| ErrProjectHasExecutions
| ErrExecInvalidFilename
| ErrExecutionMismatch
| ErrScenarioNotInProject
| ErrEngineLimit
| ErrModeResolutionUnavailable
| ModeResolutionError (status : string) (scenarioID : Z) (engine cpu memory : string)
| ErrScenarioInUse
| ErrScenInvalidFilename
| ErrRequestsInvalid
| ErrScenarioNotPortable
| ErrScenarioNotTemplate
| ErrVersioningUnavailable
| ErrScenarioVersionNotFound
(* internal/app/calibrationapp *)
| ErrExecutionNotCalibration
| ErrCalibrationEngineRequired
| ErrSourceScenarioNotBound
| ErrNoCalibrationExecution
| ErrEnvironmentImpaired
| ErrNotConfiguredForAdvance
| ErrFingerprintNotConfigured
| ErrScenarioNotConfigured
| ErrRequestedQPSInvalid
| ErrStepRunNotStarted
(* internal/domain/webhook, internal/app/webhookapp *)
| ErrHookProjectRequired
| ErrURLRequired
| ErrURLNotHTTPS
| ErrURLTooLong
| ErrSecretTooLong
| ErrReceiverAnswered (status : Z)
| ErrDigestUnparsed
| ErrNoSTARTTLS
(* internal/domain/digest *)
| ErrPeriodInvalid
(* internal/domain/slo, internal/app/sloapp *)
| ErrSLOProjectRequired
| ErrSLONameRequired
| ErrSLONameTooLong
| ErrNoTargets
| ErrP95NotPositive
| ErrErrorRateRange
| ErrSuccessRatioRange
| ErrWindowInvalid
| ErrDuplicateName
(* internal/domain/clusterregistry, internal/app/clusterapp *)
| ErrClusterNameRequired
| ErrOriginUnknown
| ErrSecretRefRequired
| ErrNamespaceRequired
| ErrIngestURLRequired
| ErrSidecarImageRequired
| ErrLabelTooLong
| ErrLabelControl
| ErrKubeconfigInvalid
| ErrClusterInUse
| ErrClusterExists
(* ports: cluster probing *)
| ProbeError (kind : string)
(* internal/adapters/scheduler/k8s: credentials, and what the API server answers *)
| ErrCredentialSecretNotFound
| ErrCredentialIncomplete
| ErrNoCredential
| ErrKubeNotFound
| ErrKubeAlreadyExists
| ErrKubeUnauthorized
| ErrKubeForbidden
| ErrKube (code : Z)
| ErrKubeconfigParse
| ErrNoCurrentContext
| ErrContextIncomplete
| ErrExecAuthUnsupported
| ErrAuthProviderUnsupported
| ErrExternalFileReference
| ErrNoServer
| ErrNoCA
(* internal/adapters/storage *)
| ErrStorage (what : string)
(* internal/domain/jmx *)
| ErrMalformed
| ErrNotJMX
| ErrNoTestPlan
(* internal/adapters/httpapi *)
| errForbidden
(* internal/app/quotaapp *)
| OverQuotaError (tenantID : Z) (cluster : string) (requested used ceiling : Z)
                 (zeroCeiling : bool)
| ErrNoStopper
(* internal/app/lifecycleapp *)
| ErrNoTestFile
| ErrCampaignFrozen (campaignName : string)
| EnginesFinishedError (orphaned : Z)
| ErrTrigger (joined : nat)
| ErrEnginesFinished
| ErrJoined (count : nat)
| ErrParseQuantity
| ErrYAML
| ErrJSON
| ErrInjected (tag : string).

(** Decidable equality through a numbering of the constructors: the number,
    the integer arguments and the string arguments.  (Deciding equality
    constructor by constructor is quadratic in their number.) *)
Definition error_encode (e : error) : N * list Z * list string :=
  match e with
  | ErrNotFound => (1%N, [], [])
  | ErrRunActive => (2%N, [], [])
  | ErrEnginesUnreachable => (3%N, [], [])
  | ErrObjectNotFound => (4%N, [], [])
  | ErrFileExists => (5%N, [], [])
  | ErrLaunchActive => (6%N, [], [])
  | ErrNoScenarios => (7%N, [], [])
  | ErrNotDeployed => (8%N, [], [])
  | ErrEnginesNotReady => (9%N, [], [])
  | ErrAlreadyRunning => (10%N, [], [])
  | ErrNotRunning => (11%N, [], [])
  | ErrLPScenarioRequired => (12%N, [], [])
  | ErrLPEnginesInvalid => (13%N, [], [])
  | ErrLPConcurrencyInvalid => (14%N, [], [])
  | ErrLPDurationInvalid => (15%N, [], [])
  | ErrLPThroughputInvalid => (16%N, [], [])
  | ErrLPNoScenarios => (17%N, [], [])
  | ErrLPModeInvalid => (18%N, [], [])
  | ErrLPModeThroughput => (19%N, [], [])
  | ErrLPStepsInvalid => (20%N, [], [])
  | ErrLPStaircaseDuration => (21%N, [], [])
  | ErrModeInvalid => (22%N, [], [])
  | ErrShardsInvalid => (23%N, [], [])
  | ErrShardConcurrencyInvalid => (24%N, [], [])
  | ErrExecNameRequired => (25%N, [], [])
  | ErrExecNameTooLong => (26%N, [], [])
  | ErrExecProjectRequired => (27%N, [], [])
  | ErrExecEngineUnknown => (28%N, [], [])
  | ErrExecKindUnknown => (29%N, [], [])
  | ErrFanOutTargetDuplicate => (30%N, [], [])
  | ErrResEngineCountInvalid => (31%N, [], [])
  | ErrResWindowInvalid => (32%N, [], [])
  | ErrSchedExecutionRequired => (33%N, [], [])
  | ErrSchedKindInvalid => (34%N, [], [])
  | ErrFireAtRequired => (35%N, [], [])
  | ErrRecurrenceRequired => (36%N, [], [])
  | ErrRecurrenceInvalid => (37%N, [], [])
  | ErrSchedWindowInvalid => (38%N, [], [])
  | ErrCampNameRequired => (39%N, [], [])
  | ErrCampWindowInvalid => (40%N, [], [])
  | ErrServicesRequired => (41%N, [], [])
  | ErrDuplicateService => (42%N, [], [])
  | ErrCampProjectRequired => (43%N, [], [])
  | ErrServiceExecutionInvalid => (44%N, [], [])
  | ErrProjNameRequired => (45%N, [], [])
  | ErrProjNameTooLong => (46%N, [], [])
  | ErrProjOwnerRequired => (47%N, [], [])
  | ErrProjOwnerTooLong => (48%N, [], [])
  | ErrSIDInvalid => (49%N, [], [])
  | ErrSIDTooLong => (50%N, [], [])
  | ErrScenNameRequired => (51%N, [], [])
  | ErrScenNameTooLong => (52%N, [], [])
  | ErrScenProjectRequired => (53%N, [], [])
  | ErrScenKindUnknown => (54%N, [], [])
  | ErrScenEngineUnknown => (55%N, [], [])
  | ErrPortableEnginePinned => (56%N, [], [])
  | ErrNativeEngineRequired => (57%N, [], [])
  | ErrTemplateNameRequired => (58%N, [], [])
  | ErrTemplateNameTooLong => (59%N, [], [])
  | ErrEngineNeedsScript => (60%N, [], [])
  | ErrEnginePinned => (61%N, [], [])
  | ErrCriterionRequired => (62%N, [], [])
  | ErrPodSizeRequired => (63%N, [], [])
  | ErrSeedQPSInvalid => (64%N, [], [])
  | ErrMaxQPSInvalid => (65%N, [], [])
  | ErrMaxStepsInvalid => (66%N, [], [])
  | ErrHoldInvalid => (67%N, [], [])
  | ErrCriterionInvalid => (68%N, [], [])
  | ErrMetricUnknown => (69%N, [], [])
  | ErrComparisonUnknown => (70%N, [], [])
  | ErrValueNotPositive => (71%N, [], [])
  | ErrValueOutOfRange => (72%N, [], [])
  | ErrThresholdScenarioRequired => (73%N, [], [])
  | ErrNoExecution => (74%N, [], [])
  | ErrExecutorRequired => (75%N, [], [])
  | ErrTaurusConcurrencyInvalid => (76%N, [], [])
  | ErrTaurusScenarioRequired => (77%N, [], [])
  | ErrScenarioUndefined => (78%N, [], [])
  | ErrScenarioEmpty => (79%N, [], [])
  | ErrDurationRequired => (80%N, [], [])
  | ErrNoEntries => (81%N, [], [])
  | ErrEngineRequired => (82%N, [], [])
  | ErrScenarioMissing => (83%N, [], [])
  | ErrScriptRequired => (84%N, [], [])
  | ErrRequestsRequired => (85%N, [], [])
  | ErrUnsequencedBatch => (86%N, [], [])
  | ErrProgressRunRequired => (87%N, [], [])
  | ErrProgressScenarioRequired => (88%N, [], [])
  | ErrRepExecutionRequired => (89%N, [], [])
  | ErrRepRunRequired => (90%N, [], [])
  | ErrNoActiveRun => (91%N, [], [])
  | ErrStaleRun => (92%N, [], [])
  | ErrServiceExecutionMismatch => (93%N, [], [])
  | ErrServiceProjectTenantMismatch => (94%N, [], [])
  | ErrCampaignStarted => (95%N, [], [])
  | ErrTenantNameRequired => (96%N, [], [])
  | ErrTenantNameTooLong => (97%N, [], [])
  | ErrTenantNameInvalid => (98%N, [], [])
  | ErrDisplayNameRequired => (99%N, [], [])
  | ErrStatusInvalid => (100%N, [], [])
  | ErrUnknownRole => (101%N, [], [])
  | ErrGlobalRoleScoped => (102%N, [], [])
  | ErrCeilingInvalid => (103%N, [], [])
  | ErrUnauthenticated => (104%N, [], [])
  | ErrUnknownProfile => (105%N, [], [])
  | ErrScopeInvalid => (106%N, [], [])
  | ErrProjectHasScenarios => (107%N, [], [])
  | ErrProjectHasExecutions => (108%N, [], [])
  | ErrExecInvalidFilename => (109%N, [], [])
  | ErrExecutionMismatch => (110%N, [], [])
  | ErrScenarioNotInProject => (111%N, [], [])
  | ErrEngineLimit => (112%N, [], [])
  | ErrModeResolutionUnavailable => (113%N, [], [])
  | ModeResolutionError status scenarioID engine cpu memory => (114%N, [scenarioID], [status; engine; cpu; memory])
  | ErrScenarioInUse => (115%N, [], [])
  | ErrScenInvalidFilename => (116%N, [], [])
  | ErrRequestsInvalid => (117%N, [], [])
  | ErrScenarioNotPortable => (118%N, [], [])
  | ErrScenarioNotTemplate => (119%N, [], [])
  | ErrVersioningUnavailable => (120%N, [], [])
  | ErrScenarioVersionNotFound => (121%N, [], [])
  | ErrExecutionNotCalibration => (122%N, [], [])
  | ErrCalibrationEngineRequired => (123%N, [], [])
  | ErrSourceScenarioNotBound => (124%N, [], [])
  | ErrNoCalibrationExecution => (125%N, [], [])
  | ErrEnvironmentImpaired => (126%N, [], [])
  | ErrNotConfiguredForAdvance => (127%N, [], [])
  | ErrFingerprintNotConfigured => (128%N, [], [])
  | ErrScenarioNotConfigured => (129%N, [], [])
  | ErrRequestedQPSInvalid => (130%N, [], [])
  | ErrStepRunNotStarted => (131%N, [], [])
  | ErrHookProjectRequired => (132%N, [], [])
  | ErrURLRequired => (133%N, [], [])
  | ErrURLNotHTTPS => (134%N, [], [])
  | ErrURLTooLong => (135%N, [], [])
  | ErrSecretTooLong => (136%N, [], [])
  | ErrReceiverAnswered status => (137%N, [status], [])
  | ErrDigestUnparsed => (138%N, [], [])
  | ErrNoSTARTTLS => (139%N, [], [])
  | ErrPeriodInvalid => (140%N, [], [])
  | ErrSLOProjectRequired => (141%N, [], [])
  | ErrSLONameRequired => (142%N, [], [])
  | ErrSLONameTooLong => (143%N, [], [])
  | ErrNoTargets => (144%N, [], [])
  | ErrP95NotPositive => (145%N, [], [])
  | ErrErrorRateRange => (146%N, [], [])
  | ErrSuccessRatioRange => (147%N, [], [])
  | ErrWindowInvalid => (148%N, [], [])
  | ErrDuplicateName => (149%N, [], [])
  | ErrClusterNameRequired => (150%N, [], [])
  | ErrOriginUnknown => (151%N, [], [])
  | ErrSecretRefRequired => (152%N, [], [])
  | ErrNamespaceRequired => (153%N, [], [])
  | ErrIngestURLRequired => (154%N, [], [])
  | ErrSidecarImageRequired => (155%N, [], [])
  | ErrLabelTooLong => (156%N, [], [])
  | ErrLabelControl => (157%N, [], [])
  | ErrKubeconfigInvalid => (158%N, [], [])
  | ErrClusterInUse => (159%N, [], [])
  | ErrClusterExists => (160%N, [], [])
  | ProbeError kind => (161%N, [], [kind])
  | ErrCredentialSecretNotFound => (162%N, [], [])
  | ErrCredentialIncomplete => (163%N, [], [])
  | ErrNoCredential => (164%N, [], [])
  | ErrKubeNotFound => (165%N, [], [])
  | ErrKubeAlreadyExists => (166%N, [], [])
  | ErrKubeUnauthorized => (167%N, [], [])
  | ErrKubeForbidden => (168%N, [], [])
  | ErrKube code => (169%N, [code], [])
  | ErrKubeconfigParse => (170%N, [], [])
  | ErrNoCurrentContext => (171%N, [], [])
  | ErrContextIncomplete => (172%N, [], [])
  | ErrExecAuthUnsupported => (173%N, [], [])
  | ErrAuthProviderUnsupported => (174%N, [], [])
  | ErrExternalFileReference => (175%N, [], [])
  | ErrNoServer => (176%N, [], [])
  | ErrNoCA => (177%N, [], [])
  | ErrStorage what => (178%N, [], [what])
  | ErrMalformed => (179%N, [], [])
  | ErrNotJMX => (180%N, [], [])
  | ErrNoTestPlan => (181%N, [], [])
  | errForbidden => (182%N, [], [])
  | OverQuotaError tenantID cluster requested used ceiling zeroCeiling => (183%N, [tenantID; requested; used; ceiling; Z.b2z zeroCeiling], [cluster])
  | ErrNoStopper => (184%N, [], [])
  | ErrNoTestFile => (185%N, [], [])
  | ErrCampaignFrozen campaignName => (186%N, [], [campaignName])
  | EnginesFinishedError orphaned => (187%N, [orphaned], [])
  | ErrTrigger joined => (188%N, [Z.of_nat joined], [])
  | ErrEnginesFinished => (189%N, [], [])
  | ErrJoined count => (190%N, [Z.of_nat count], [])
  | ErrParseQuantity => (191%N, [], [])
  | ErrYAML => (192%N, [], [])
  | ErrJSON => (193%N, [], [])
  | ErrInjected tag => (194%N, [], [tag])
  end.

Definition error_decode (c : N * list Z * list string) : option error :=
  match c with
  | (1%N, [], []) => Some ErrNotFound
  | (2%N, [], []) => Some ErrRunActive
  | (3%N, [], []) => Some ErrEnginesUnreachable
  | (4%N, [], []) => Some ErrObjectNotFound
  | (5%N, [], []) => Some ErrFileExists
  | (6%N, [], []) => Some ErrLaunchActive
  | (7%N, [], []) => Some ErrNoScenarios
  | (8%N, [], []) => Some ErrNotDeployed
  | (9%N, [], []) => Some ErrEnginesNotReady
  | (10%N, [], []) => Some ErrAlreadyRunning
  | (11%N, [], []) => Some ErrNotRunning
  | (12%N, [], []) => Some ErrLPScenarioRequired
  | (13%N, [], []) => Some ErrLPEnginesInvalid
  | (14%N, [], []) => Some ErrLPConcurrencyInvalid
  | (15%N, [], []) => Some ErrLPDurationInvalid
  | (16%N, [], []) => Some ErrLPThroughputInvalid
  | (17%N, [], []) => Some ErrLPNoScenarios
  | (18%N, [], []) => Some ErrLPModeInvalid
  | (19%N, [], []) => Some ErrLPModeThroughput
  | (20%N, [], []) => Some ErrLPStepsInvalid
  | (21%N, [], []) => Some ErrLPStaircaseDuration
  | (22%N, [], []) => Some ErrModeInvalid
  | (23%N, [], []) => Some ErrShardsInvalid
  | (24%N, [], []) => Some ErrShardConcurrencyInvalid
  | (25%N, [], []) => Some ErrExecNameRequired
  | (26%N, [], []) => Some ErrExecNameTooLong
  | (27%N, [], []) => Some ErrExecProjectRequired
  | (28%N, [], []) => Some ErrExecEngineUnknown
  | (29%N, [], []) => Some ErrExecKindUnknown
  | (30%N, [], []) => Some ErrFanOutTargetDuplicate
  | (31%N, [], []) => Some ErrResEngineCountInvalid
  | (32%N, [], []) => Some ErrResWindowInvalid
  | (33%N, [], []) => Some ErrSchedExecutionRequired
  | (34%N, [], []) => Some ErrSchedKindInvalid
  | (35%N, [], []) => Some ErrFireAtRequired
  | (36%N, [], []) => Some ErrRecurrenceRequired
  | (37%N, [], []) => Some ErrRecurrenceInvalid
  | (38%N, [], []) => Some ErrSchedWindowInvalid
  | (39%N, [], []) => Some ErrCampNameRequired
  | (40%N, [], []) => Some ErrCampWindowInvalid
  | (41%N, [], []) => Some ErrServicesRequired
  | (42%N, [], []) => Some ErrDuplicateService
  | (43%N, [], []) => Some ErrCampProjectRequired
  | (44%N, [], []) => Some ErrServiceExecutionInvalid
  | (45%N, [], []) => Some ErrProjNameRequired
  | (46%N, [], []) => Some ErrProjNameTooLong
  | (47%N, [], []) => Some ErrProjOwnerRequired
  | (48%N, [], []) => Some ErrProjOwnerTooLong
  | (49%N, [], []) => Some ErrSIDInvalid
  | (50%N, [], []) => Some ErrSIDTooLong
  | (51%N, [], []) => Some ErrScenNameRequired
  | (52%N, [], []) => Some ErrScenNameTooLong
  | (53%N, [], []) => Some ErrScenProjectRequired
  | (54%N, [], []) => Some ErrScenKindUnknown
  | (55%N, [], []) => Some ErrScenEngineUnknown
  | (56%N, [], []) => Some ErrPortableEnginePinned
  | (57%N, [], []) => Some ErrNativeEngineRequired
  | (58%N, [], []) => Some ErrTemplateNameRequired
  | (59%N, [], []) => Some ErrTemplateNameTooLong
  | (60%N, [], []) => Some ErrEngineNeedsScript
  | (61%N, [], []) => Some ErrEnginePinned
  | (62%N, [], []) => Some ErrCriterionRequired
  | (63%N, [], []) => Some ErrPodSizeRequired
  | (64%N, [], []) => Some ErrSeedQPSInvalid
  | (65%N, [], []) => Some ErrMaxQPSInvalid
  | (66%N, [], []) => Some ErrMaxStepsInvalid
  | (67%N, [], []) => Some ErrHoldInvalid
  | (68%N, [], []) => Some ErrCriterionInvalid
  | (69%N, [], []) => Some ErrMetricUnknown
  | (70%N, [], []) => Some ErrComparisonUnknown
  | (71%N, [], []) => Some ErrValueNotPositive
  | (72%N, [], []) => Some ErrValueOutOfRange
  | (73%N, [], []) => Some ErrThresholdScenarioRequired
  | (74%N, [], []) => Some ErrNoExecution
  | (75%N, [], []) => Some ErrExecutorRequired
  | (76%N, [], []) => Some ErrTaurusConcurrencyInvalid
  | (77%N, [], []) => Some ErrTaurusScenarioRequired
  | (78%N, [], []) => Some ErrScenarioUndefined
  | (79%N, [], []) => Some ErrScenarioEmpty
  | (80%N, [], []) => Some ErrDurationRequired
  | (81%N, [], []) => Some ErrNoEntries
  | (82%N, [], []) => Some ErrEngineRequired
  | (83%N, [], []) => Some ErrScenarioMissing
  | (84%N, [], []) => Some ErrScriptRequired
  | (85%N, [], []) => Some ErrRequestsRequired
  | (86%N, [], []) => Some ErrUnsequencedBatch
  | (87%N, [], []) => Some ErrProgressRunRequired
  | (88%N, [], []) => Some ErrProgressScenarioRequired
  | (89%N, [], []) => Some ErrRepExecutionRequired
  | (90%N, [], []) => Some ErrRepRunRequired
  | (91%N, [], []) => Some ErrNoActiveRun
  | (92%N, [], []) => Some ErrStaleRun
  | (93%N, [], []) => Some ErrServiceExecutionMismatch
  | (94%N, [], []) => Some ErrServiceProjectTenantMismatch
  | (95%N, [], []) => Some ErrCampaignStarted
  | (96%N, [], []) => Some ErrTenantNameRequired
  | (97%N, [], []) => Some ErrTenantNameTooLong
  | (98%N, [], []) => Some ErrTenantNameInvalid
  | (99%N, [], []) => Some ErrDisplayNameRequired
  | (100%N, [], []) => Some ErrStatusInvalid
  | (101%N, [], []) => Some ErrUnknownRole
  | (102%N, [], []) => Some ErrGlobalRoleScoped
  | (103%N, [], []) => Some ErrCeilingInvalid
  | (104%N, [], []) => Some ErrUnauthenticated
  | (105%N, [], []) => Some ErrUnknownProfile
  | (106%N, [], []) => Some ErrScopeInvalid
  | (107%N, [], []) => Some ErrProjectHasScenarios
  | (108%N, [], []) => Some ErrProjectHasExecutions
  | (109%N, [], []) => Some ErrExecInvalidFilename
  | (110%N, [], []) => Some ErrExecutionMismatch
  | (111%N, [], []) => Some ErrScenarioNotInProject
  | (112%N, [], []) => Some ErrEngineLimit
  | (113%N, [], []) => Some ErrModeResolutionUnavailable
  | (114%N, [scenarioID], [status; engine; cpu; memory]) => Some (ModeResolutionError status scenarioID engine cpu memory)
  | (115%N, [], []) => Some ErrScenarioInUse
  | (116%N, [], []) => Some ErrScenInvalidFilename
  | (117%N, [], []) => Some ErrRequestsInvalid
  | (118%N, [], []) => Some ErrScenarioNotPortable
  | (119%N, [], []) => Some ErrScenarioNotTemplate
  | (120%N, [], []) => Some ErrVersioningUnavailable
  | (121%N, [], []) => Some ErrScenarioVersionNotFound
  | (122%N, [], []) => Some ErrExecutionNotCalibration
  | (123%N, [], []) => Some ErrCalibrationEngineRequired
  | (124%N, [], []) => Some ErrSourceScenarioNotBound
  | (125%N, [], []) => Some ErrNoCalibrationExecution
  | (126%N, [], []) => Some ErrEnvironmentImpaired
  | (127%N, [], []) => Some ErrNotConfiguredForAdvance
  | (128%N, [], []) => Some ErrFingerprintNotConfigured
  | (129%N, [], []) => Some ErrScenarioNotConfigured
  | (130%N, [], []) => Some ErrRequestedQPSInvalid
  | (131%N, [], []) => Some ErrStepRunNotStarted
  | (132%N, [], []) => Some ErrHookProjectRequired
  | (133%N, [], []) => Some ErrURLRequired
  | (134%N, [], []) => Some ErrURLNotHTTPS
  | (135%N, [], []) => Some ErrURLTooLong
  | (136%N, [], []) => Some ErrSecretTooLong
  | (137%N, [status], []) => Some (ErrReceiverAnswered status)
  | (138%N, [], []) => Some ErrDigestUnparsed
  | (139%N, [], []) => Some ErrNoSTARTTLS
  | (140%N, [], []) => Some ErrPeriodInvalid
  | (141%N, [], []) => Some ErrSLOProjectRequired
  | (142%N, [], []) => Some ErrSLONameRequired
  | (143%N, [], []) => Some ErrSLONameTooLong
  | (144%N, [], []) => Some ErrNoTargets
  | (145%N, [], []) => Some ErrP95NotPositive
  | (146%N, [], []) => Some ErrErrorRateRange
  | (147%N, [], []) => Some ErrSuccessRatioRange
  | (148%N, [], []) => Some ErrWindowInvalid
  | (149%N, [], []) => Some ErrDuplicateName
  | (150%N, [], []) => Some ErrClusterNameRequired
  | (151%N, [], []) => Some ErrOriginUnknown
  | (152%N, [], []) => Some ErrSecretRefRequired
  | (153%N, [], []) => Some ErrNamespaceRequired
  | (154%N, [], []) => Some ErrIngestURLRequired
  | (155%N, [], []) => Some ErrSidecarImageRequired
  | (156%N, [], []) => Some ErrLabelTooLong
  | (157%N, [], []) => Some ErrLabelControl
  | (158%N, [], []) => Some ErrKubeconfigInvalid
  | (159%N, [], []) => Some ErrClusterInUse
  | (160%N, [], []) => Some ErrClusterExists
  | (161%N, [], [kind]) => Some (ProbeError kind)
  | (162%N, [], []) => Some ErrCredentialSecretNotFound
  | (163%N, [], []) => Some ErrCredentialIncomplete
  | (164%N, [], []) => Some ErrNoCredential
  | (165%N, [], []) => Some ErrKubeNotFound
  | (166%N, [], []) => Some ErrKubeAlreadyExists
  | (167%N, [], []) => Some ErrKubeUnauthorized
  | (168%N, [], []) => Some ErrKubeForbidden
  | (169%N, [code], []) => Some (ErrKube code)
  | (170%N, [], []) => Some ErrKubeconfigParse
  | (171%N, [], []) => Some ErrNoCurrentContext
  | (172%N, [], []) => Some ErrContextIncomplete
  | (173%N, [], []) => Some ErrExecAuthUnsupported
  | (174%N, [], []) => Some ErrAuthProviderUnsupported
  | (175%N, [], []) => Some ErrExternalFileReference
  | (176%N, [], []) => Some ErrNoServer
  | (177%N, [], []) => Some ErrNoCA
  | (178%N, [], [what]) => Some (ErrStorage what)
  | (179%N, [], []) => Some ErrMalformed
  | (180%N, [], []) => Some ErrNotJMX
  | (181%N, [], []) => Some ErrNoTestPlan
  | (182%N, [], []) => Some errForbidden
  | (183%N, [tenantID; requested; used; ceiling; zeroCeiling], [cluster]) => Some (OverQuotaError tenantID cluster requested used ceiling (Z.odd zeroCeiling))
  | (184%N, [], []) => Some ErrNoStopper
  | (185%N, [], []) => Some ErrNoTestFile
  | (186%N, [], [campaignName]) => Some (ErrCampaignFrozen campaignName)
  | (187%N, [orphaned], []) => Some (EnginesFinishedError orphaned)
  | (188%N, [joined], []) => Some (ErrTrigger (Z.to_nat joined))
  | (189%N, [], []) => Some ErrEnginesFinished
  | (190%N, [count], []) => Some (ErrJoined (Z.to_nat count))
  | (191%N, [], []) => Some ErrParseQuantity
  | (192%N, [], []) => Some ErrYAML
  | (193%N, [], []) => Some ErrJSON
  | (194%N, [], [tag]) => Some (ErrInjected tag)
  | _ => None
  end.

Lemma error_decode_encode e : error_decode (error_encode e) = Some e.
Proof. destruct e; cbn; rewrite ?Nat2Z.id; try reflexivity; by destruct zeroCeiling. Qed.

#[global] Instance error_eq_dec : EqDecision error.
Proof.
  intros a b. destruct (decide (error_encode a = error_encode b)) as [E|E].
  - left. apply (inj Some). by rewrite <-!error_decode_encode, E.
  - right. by intros ->.
Defined.
