(* ===== verification/GoStrings.v ===== *)
(** * The parts of Go's [strings] package the sources use

    A Go string is a byte sequence, as is Rocq's [string]; [len] counts bytes.
    [TrimSpace] removes leading and trailing runes of [unicode.IsSpace], here
    matched by their UTF-8 encodings of one, two or three bytes. *)
From Stdlib Require Import Ascii.
From Stdlib Require Strings.String.
From S2P Require Import Prelude.

Definition go_len (s : string) : Z := Z.of_nat (String.length s).

Definition byte_of (c : ascii) : N := N_of_ascii c.

(** Tab, newline, vertical tab, form feed, carriage return, space. *)
Definition space1 (c : ascii) : bool :=
  let n := byte_of c in
  bool_decide ((9 <= n ∧ n <= 13) ∨ n = 32)%N.
(** U+0085 and U+00A0. *)
Definition space2 (c1 c2 : ascii) : bool :=
  bool_decide (byte_of c1 = 194 ∧ (byte_of c2 = 133 ∨ byte_of c2 = 160))%N.
(** U+1680, U+2000 to U+200A, U+2028, U+2029, U+202F, U+205F and U+3000. *)
Definition space3 (c1 c2 c3 : ascii) : bool :=
  let '(n1, n2, n3) := (byte_of c1, byte_of c2, byte_of c3) in
  bool_decide
    ((n1 = 225 ∧ n2 = 154 ∧ n3 = 128) ∨
     (n1 = 226 ∧ n2 = 128 ∧ ((128 <= n3 ∧ n3 <= 138) ∨ n3 = 168 ∨ n3 = 169 ∨ n3 = 175)) ∨
     (n1 = 226 ∧ n2 = 129 ∧ n3 = 159) ∨
     (n1 = 227 ∧ n2 = 128 ∧ n3 = 128))%N.

(** The number of bytes of the whitespace rune a byte list starts with; the
    predicates are swapped when the list is read from its end. *)
Definition lead (p2 : ascii → ascii → bool) (p3 : ascii → ascii → ascii → bool)
    (l : list ascii) : option nat :=
  match l with
  | a :: l1 =>
      if space1 a then Some 1%nat
      else match l1 with
           | b :: l2 =>
               if p2 a b then Some 2%nat
               else match l2 with
                    | c :: _ => if p3 a b c then Some 3%nat else None
                    | [] => None
                    end
           | [] => None
           end
  | [] => None
  end.

Fixpoint trim_lead (fuel : nat) p2 p3 (l : list ascii) : list ascii :=
  match fuel with
  | O => l
  | S fuel' =>
      match lead p2 p3 l with
      | Some n => trim_lead fuel' p2 p3 (drop n l)
      | None => l
      end
  end.

Definition bytes_of (s : string) : list ascii := Stdlib.Strings.String.list_ascii_of_string s.
Definition of_bytes (l : list ascii) : string := Stdlib.Strings.String.string_of_list_ascii l.

Definition trim_left (l : list ascii) : list ascii :=
  trim_lead (length l) space2 space3 l.
Definition trim_right (l : list ascii) : list ascii :=
  reverse (trim_lead (length l) (λ a b, space2 b a) (λ a b c, space3 c b a) (reverse l)).

Definition TrimSpace (s : string) : string :=
  of_bytes (trim_right (trim_left (bytes_of s))).

Section trim.
Context (p2 : ascii → ascii → bool) (p3 : ascii → ascii → ascii → bool).

Lemma lead_bounds l n : lead p2 p3 l = Some n → (1 <= n <= length l)%nat.
Proof.
  unfold lead. destruct l as [|a [|b [|c l]]]; simpl; intros; repeat case_match;
    simplify_eq; lia.
Qed.

Lemma lead_nil_drop l : ∃ n, trim_lead (length l) p2 p3 l = drop n l.
Proof.
  assert (∀ fuel l, ∃ n, trim_lead fuel p2 p3 l = drop n l) as H; [|apply H].
  induction fuel as [|f IH]; intros l0; simpl; [by exists 0%nat|].
  destruct (lead p2 p3 l0) as [n|]; [|by exists 0%nat].
  destruct (IH (drop n l0)) as [m ->]. exists (n + m)%nat. by rewrite drop_drop.
Qed.

(** The fuel, the length of the list, is enough: nothing is left to trim. *)
Lemma lead_trimmed fuel l :
  (length l <= fuel)%nat → lead p2 p3 (trim_lead fuel p2 p3 l) = None.
Proof.
  revert l. induction fuel as [|f IH]; intros l Hl; simpl.
  - by destruct l; simpl in *; [|lia].
  - destruct (lead p2 p3 l) as [n|] eqn:E; [|done].
    apply IH. apply lead_bounds in E. rewrite length_drop. lia.
Qed.

Lemma trim_lead_id fuel l : lead p2 p3 l = None → trim_lead fuel p2 p3 l = l.
Proof. destruct fuel; simpl; [done|]. by intros ->. Qed.

(** A prefix of a list with no leading whitespace rune has none either. *)
Lemma lead_prefix l k : lead p2 p3 (l ++ k) = None → lead p2 p3 l = None.
Proof.
  destruct l as [|a [|b [|c l]]]; simpl; try done;
    destruct k as [|x [|y k]]; simpl; repeat case_match; done.
Qed.
End trim.

Lemma trim_left_lead l : lead space2 space3 (trim_left l) = None.
Proof. by apply lead_trimmed. Qed.

Lemma trim_right_prefix l : ∃ k, l = trim_right l ++ k.
Proof.
  unfold trim_right. rewrite <- (length_reverse l).
  destruct (lead_nil_drop (λ a b, space2 b a) (λ a b c, space3 c b a) (reverse l)) as [n ->].
  exists (reverse (take n (reverse l))).
  rewrite <- reverse_app, take_drop. by rewrite reverse_involutive.
Qed.

Lemma trim_right_idemp l : trim_right (trim_right l) = trim_right l.
Proof.
  unfold trim_right at 1.
  rewrite trim_lead_id; [by rewrite reverse_involutive|].
  unfold trim_right. rewrite reverse_involutive. apply lead_trimmed.
  by rewrite length_reverse.
Qed.

Lemma trim_left_id l : lead space2 space3 l = None → trim_left l = l.
Proof. intros. by apply trim_lead_id. Qed.

Lemma bytes_of_of l : bytes_of (of_bytes l) = l.
Proof. apply Stdlib.Strings.String.list_ascii_of_string_of_list_ascii. Qed.

Lemma TrimSpace_idemp s : TrimSpace (TrimSpace s) = TrimSpace s.
Proof.
  unfold TrimSpace. rewrite bytes_of_of. f_equal.
  set (l := trim_left (bytes_of s)).
  destruct (trim_right_prefix l) as [k Hk].
  rewrite (trim_left_id (trim_right l)); [apply trim_right_idemp|].
  apply (lead_prefix _ _ _ k). rewrite <- Hk. apply trim_left_lead.
Qed.

Lemma TrimSpace_nonspace s :
  lead space2 space3 (bytes_of (TrimSpace s)) = None.
Proof.
  unfold TrimSpace. rewrite bytes_of_of.
  set (l := trim_left (bytes_of s)).
  destruct (trim_right_prefix l) as [k Hk].
  apply (lead_prefix _ _ _ k). rewrite <- Hk. apply trim_left_lead.
Qed.

(** ** Searching, lower-casing, parsing and truncating *)

(** [strings.Contains]. *)
Fixpoint has_prefix (p l : list ascii) : bool :=
  match p, l with
  | [], _ => true
  | a :: p', b :: l' => bool_decide (a = b) && has_prefix p' l'
  | _ :: _, [] => false
  end.
Fixpoint contains (l p : list ascii) : bool :=
  has_prefix p l || match l with [] => false | _ :: l' => contains l' p end.
Definition Contains (s sub : string) : bool := contains (bytes_of s) (bytes_of sub).

(** [strings.ToLower] as far as the ASCII letters of its result go: apart from
    the ASCII capitals, only the Kelvin sign and the dotted capital I have an
    ASCII lower case. *)
Fixpoint to_lower (l : list ascii) : list ascii :=
  match l with
  | [] => []
  | a :: l1 =>
      let n := byte_of a in
      if bool_decide (65 <= n ∧ n <= 90)%N then ascii_of_N (n + 32) :: to_lower l1
      else
        match l1 with
        | b :: l2 =>
            if bool_decide (n = 196 ∧ byte_of b = 176)%N then ascii_of_N 105 :: to_lower l2
            else
              match l2 with
              | c :: l3 =>
                  if bool_decide (n = 226 ∧ byte_of b = 132 ∧ byte_of c = 170)%N
                  then ascii_of_N 107 :: to_lower l3 else a :: to_lower l1
              | [] => a :: to_lower l1
              end
        | [] => a :: to_lower l1
        end
  end.
Definition ToLower (s : string) : string := of_bytes (to_lower (bytes_of s)).

(** [strconv.Atoi]: an optional sign and decimal digits, within [int64]. *)
Fixpoint digits_value (l : list ascii) (acc : Z) : option Z :=
  match l with
  | [] => Some acc
  | a :: l' =>
      let n := byte_of a in
      if bool_decide (48 <= n ∧ n <= 57)%N then digits_value l' (acc * 10 + Z.of_N (n - 48))
      else None
  end.
Definition Atoi (s : string) : option Z :=
  let '(neg, digits) :=
    match bytes_of s with
    | a :: l => if bool_decide (byte_of a = 45)%N then (true, l)
                else if bool_decide (byte_of a = 43)%N then (false, l) else (false, a :: l)
    | [] => (false, [])
    end in
  match digits with
  | [] => None
  | _ =>
      match digits_value digits 0 with
      | Some v => let v := if (neg : bool) then - v else v in
                  if bool_decide (in_int64 v) then Some v else None
      | None => None
      end
  end.

(** [[]rune(s)]: the UTF-8 encoding of each rune, and the bytes it takes; a byte
    that starts no valid encoding reads as U+FFFD. *)
Definition in_range (lo hi : N) (a : ascii) : bool := bool_decide (lo <= byte_of a ∧ byte_of a <= hi)%N.
Definition rune_error : list ascii := ascii_of_N <$> [239; 191; 189]%N.
Definition next_rune (l : list ascii) : list ascii * nat :=
  match l with
  | [] => ([], 0%nat)
  | a :: l1 =>
      if in_range 0 127 a then ([a], 1%nat)
      else
        match l1 with
        | b :: l2 =>
            if in_range 194 223 a && in_range 128 191 b then ([a; b], 2%nat)
            else
              match l2 with
              | c :: l3 =>
                  if ((in_range 224 224 a && in_range 160 191 b) ||
                      ((in_range 225 236 a || in_range 238 239 a) && in_range 128 191 b) ||
                      (in_range 237 237 a && in_range 128 159 b)) && in_range 128 191 c
                  then ([a; b; c], 3%nat)
                  else
                    match l3 with
                    | d :: _ =>
                        if ((in_range 240 240 a && in_range 144 191 b) ||
                            (in_range 241 243 a && in_range 128 191 b) ||
                            (in_range 244 244 a && in_range 128 143 b)) &&
                           in_range 128 191 c && in_range 128 191 d
                        then ([a; b; c; d], 4%nat) else (rune_error, 1%nat)
                    | [] => (rune_error, 1%nat)
                    end
              | [] => (rune_error, 1%nat)
              end
        | [] => (rune_error, 1%nat)
        end
  end.
Fixpoint runes_from (fuel : nat) (l : list ascii) : list (list ascii) :=
  match fuel, l with
  | O, _ | _, [] => []
  | S fuel', _ => let '(r, n) := next_rune l in r :: runes_from fuel' (drop n l)
  end.
Definition runes (s : string) : list (list ascii) :=
  runes_from (String.length s) (bytes_of s).
Definition of_runes (rs : list (list ascii)) : string := of_bytes (concat rs).

(** ** Unicode

    The tables of package [unicode] beyond ASCII: which runes are letters or
    digits and what the lower case of a rune is.  A rune is its UTF-8
    encoding. *)
Class Unicode := {
  letter_or_digit : list ascii → bool;
  lower_rune : list ascii → list ascii;
  ascii_letters : ∀ a, in_range 0 127 a = true →
    letter_or_digit [a] = in_range 48 57 a || in_range 65 90 a || in_range 97 122 a;
  ascii_lower : ∀ a, in_range 0 127 a = true →
    lower_rune [a] = [if in_range 65 90 a then ascii_of_N (byte_of a + 32) else a]
}.

(** The tables of a text that has no letter outside ASCII. *)
#[global] Instance ascii_tables : Unicode.
Proof.
  refine {|
    letter_or_digit r :=
      match r with
      | [a] => in_range 48 57 a || in_range 65 90 a || in_range 97 122 a
      | _ => false
      end;
    lower_rune r :=
      match r with
      | [a] => [if in_range 65 90 a then ascii_of_N (byte_of a + 32) else a]
      | _ => r
      end |}; done.
Defined.
(** [strings.ToLower] of any text. *)
Definition ToLowerRunes `{!Unicode} (s : string) : string := of_runes (lower_rune <$> runes s).

(** [strings.Split] by a one-byte separator, and [strings.Cut] and
    [strings.CutPrefix]. *)
Fixpoint split_bytes (sep : ascii) (l : list ascii) : list (list ascii) :=
  match l with
  | [] => [[]]
  | a :: l' =>
      if bool_decide (a = sep) then [] :: split_bytes sep l'
      else match split_bytes sep l' with
           | part :: parts => (a :: part) :: parts
           | [] => [[a]]
           end
  end.
Definition SplitBy (s : string) (sep : ascii) : list string := of_bytes <$> split_bytes sep (bytes_of s).
Fixpoint cut_bytes (sep : ascii) (l : list ascii) : option (list ascii * list ascii) :=
  match l with
  | [] => None
  | a :: l' =>
      if bool_decide (a = sep) then Some ([], l')
      else match cut_bytes sep l' with
           | Some (before, after) => Some (a :: before, after)
           | None => None
           end
  end.
Definition CutBy (s : string) (sep : ascii) : option (string * string) :=
  match cut_bytes sep (bytes_of s) with
  | Some (before, after) => Some (of_bytes before, of_bytes after)
  | None => None
  end.
Definition CutPrefix (s prefix : string) : option string :=
  if has_prefix (bytes_of prefix) (bytes_of s)
  then Some (of_bytes (drop (String.length prefix) (bytes_of s))) else None.

Lemma cut_bytes_app sep l k : Forall (λ a, a ≠ sep) l → cut_bytes sep (l ++ sep :: k) = Some (l, k).
Proof.
  induction 1 as [|a l Ha _ IH]; cbn [app cut_bytes].
  - by rewrite bool_decide_eq_true_2.
  - by rewrite bool_decide_eq_false_2, IH.
Qed.

(** Byte order, the order of [sort.Strings]. *)
Definition str_le (a b : string) : Prop := Stdlib.Strings.String.leb a b = true.
#[global] Instance str_le_dec a b : Decision (str_le a b).
Proof. unfold str_le. apply _. Defined.

Example atoi_examples : Atoi "404" = Some 404 ∧ Atoi "-7" = Some (-7) ∧ Atoi "4x" = None ∧ Atoi "" = None.
Proof. vm_compute. done. Qed.
Example lower_contains : Contains (ToLower "java.net.SocketException: Too Many Open Files") "too many open files" = true.
Proof. vm_compute. done. Qed.
Example runes_mixed : length (runes "né→x") = 4%nat ∧ of_runes (runes "né→x") = "né→x".
Proof. vm_compute. done. Qed.

(** ** Printed integers *)
Lemma bytes_of_app s t : bytes_of (s +:+ t) = bytes_of s ++ bytes_of t.
Proof. induction s as [|a s IH]; simpl; [done|]. by f_equal. Qed.
Lemma of_bytes_of s : of_bytes (bytes_of s) = s.
Proof. apply Stdlib.Strings.String.string_of_list_ascii_of_string. Qed.
#[global] Instance bytes_of_inj : Inj (=) (=) bytes_of.
Proof. intros s t H. by rewrite <- (of_bytes_of s), <- (of_bytes_of t), H. Qed.

Lemma pretty_char_digit d : (d < 10)%N → in_range 48 57 (pretty_N_char d) = true.
Proof.
  destruct d as [|p]; [done|]. intros Hp.
  repeat (destruct p as [p|p|]; try (simpl in Hp; lia); [..|done]); done.
Qed.
Lemma pretty_N_go_digits x s :
  Forall (λ a, in_range 48 57 a = true) (bytes_of s) →
  Forall (λ a, in_range 48 57 a = true) (bytes_of (pretty_N_go x s)).
Proof.
  revert s. induction (N.lt_wf_0 x) as [x _ IH]; intros s Hs.
  assert (x = 0 ∨ 0 < x)%N as [->|Hx] by lia; [by rewrite pretty_N_go_0|].
  rewrite pretty_N_go_step by done. apply IH; [by apply N.div_lt|].
  constructor; [|done]. apply pretty_char_digit. by apply N.mod_upper_bound.
Qed.
Lemma pretty_digits (n : Z) :
  0 <= n → Forall (λ a, in_range 48 57 a = true) (bytes_of (pretty n)).
Proof.
  intros Hn. destruct n as [|p|p]; [by repeat constructor| |lia].
  change (pretty (Z.pos p)) with (pretty_N_go (N.pos p) ""). apply pretty_N_go_digits. constructor.
Qed.
Lemma pretty_avoids (n : Z) (a : ascii) :
  0 <= n → in_range 48 57 a = false → a ∉ bytes_of (pretty n).
Proof. intros Hn Ha Hin. eapply Forall_forall in Hin; [|by apply pretty_digits]. simpl in Hin. congruence. Qed.

(** A printed number, read back. *)
Lemma digits_value_pretty_N x s :
  digits_value (bytes_of (pretty_N_go x s)) 0 = digits_value (bytes_of s) (Z.of_N x).
Proof.
  revert s. induction (N.lt_wf_0 x) as [x _ IH]; intros s.
  assert (x = 0 ∨ 0 < x)%N as [->|Hx] by lia; [by rewrite pretty_N_go_0|].
  rewrite pretty_N_go_step by done. rewrite IH by (by apply N.div_lt).
  cbn [bytes_of Stdlib.Strings.String.list_ascii_of_string digits_value].
  assert (byte_of (pretty_N_char (x `mod` 10)) = 48 + x `mod` 10)%N as ->.
  { assert (x `mod` 10 < 10)%N as Hm by (by apply N.mod_upper_bound). revert Hm. generalize (x `mod` 10)%N.
    intros d Hd. assert (d ∈ N.of_nat <$> seq 0 10) as Hin.
    { apply list_elem_of_fmap. exists (N.to_nat d). rewrite N2Nat.id. split; [done|]. apply elem_of_seq. lia. }
    repeat (apply elem_of_cons in Hin as [->|Hin]; [done|]). by apply elem_of_nil in Hin. }
  assert (x `mod` 10 < 10)%N as Hm by (by apply N.mod_upper_bound).
  pose proof (N.div_mod x 10 ltac:(done)) as Hdm. generalize dependent (x `mod` 10)%N.
  generalize (x `div` 10)%N. intros q d Hd Hdm. rewrite bool_decide_true by lia.
  unfold bytes_of. f_equal. lia.
Qed.
Lemma pretty_value n : 0 <= n → digits_value (bytes_of (pretty n)) 0 = Some n.
Proof.
  intros Hn. destruct n as [|p|p]; [done| |lia]. change (pretty (Z.pos p)) with (pretty_N_go (N.pos p) "").
  by rewrite digits_value_pretty_N.
Qed.
Lemma pretty_nonempty (n : Z) : bytes_of (pretty n) ≠ [].
Proof.
  intros Hn. destruct (decide (0 <= n)) as [Hp|Hp].
  - apply pretty_value in Hp as Hv. rewrite Hn in Hv. injection Hv as <-. done.
  - destruct n as [|p|p]; [lia..|]. done.
Qed.
Lemma length_bytes_of s : length (bytes_of s) = String.length s.
Proof. induction s as [|a s IH]; [done|]. cbn. by f_equal. Qed.

(** Two texts that end in a separator and a part without it are equal only if
    both parts are. *)
Lemma last_part_inj {A} (h : A) l1 l2 d1 d2 :
  l1 ++ h :: d1 = l2 ++ h :: d2 → h ∉ d1 → h ∉ d2 → l1 = l2 ∧ d1 = d2.
Proof.
  revert l2. induction l1 as [|a l1 IH]; intros [|b l2]; simpl; intros Heq H1 H2; simplify_eq; try done.
  - destruct H1. apply elem_of_app. right. left.
  - destruct H2. apply elem_of_app. right. left.
  - destruct (IH l2) as [-> ->]; done.
Qed.
(** The same from the front. *)
Lemma first_part_inj {A} (h : A) l1 l2 d1 d2 :
  d1 ++ h :: l1 = d2 ++ h :: l2 → h ∉ d1 → h ∉ d2 → d1 = d2 ∧ l1 = l2.
Proof.
  revert d2. induction d1 as [|a d1 IH]; intros [|b d2]; simpl; intros Heq H1 H2; simplify_eq; try done.
  - destruct H2. left.
  - destruct H1. left.
  - destruct (IH d2) as [-> ->]; try done; intros ?; [destruct H1|destruct H2]; by right.
Qed.
