(* ===== verification/Base64.v ===== *)
(** * Unpadded URL-safe base64 ([encoding/base64.RawURLEncoding])

    Encoding works on groups of three bytes; decoding skips line breaks, refuses
    bytes outside the alphabet and a lone last digit, and does not look at the
    unused bits of a short last group. *)
From Stdlib Require Import Ascii.
From S2P Require Import Prelude GoStrings.

Definition enc_char (n : N) : ascii :=
  ascii_of_N (if n <? 26 then 65 + n else if n <? 52 then 71 + n
              else if n <? 62 then n - 4 else if n =? 62 then 45 else 95)%N.
Definition dec_char (a : ascii) : option N :=
  let n := byte_of a in
  if in_range 65 90 a then Some (n - 65)%N
  else if in_range 97 122 a then Some (n - 71)%N
  else if in_range 48 57 a then Some (n + 4)%N
  else if (n =? 45)%N then Some 62%N
  else if (n =? 95)%N then Some 63%N else None.

Fixpoint b64_encode (l : list ascii) : list ascii :=
  match l with
  | a :: b :: c :: rest =>
      let v := (byte_of a * 65536 + byte_of b * 256 + byte_of c)%N in
      enc_char (v / 262144) :: enc_char (v / 4096 mod 64) :: enc_char (v / 64 mod 64)
        :: enc_char (v mod 64) :: b64_encode rest
  | [a; b] =>
      let v := (byte_of a * 65536 + byte_of b * 256)%N in
      [enc_char (v / 262144); enc_char (v / 4096 mod 64); enc_char (v / 64 mod 64)]
  | [a] =>
      let v := (byte_of a * 65536)%N in
      [enc_char (v / 262144); enc_char (v / 4096 mod 64)]
  | [] => []
  end.

Fixpoint decode_digits (l : list N) : option (list ascii) :=
  match l with
  | d0 :: d1 :: d2 :: d3 :: rest =>
      let v := (d0 * 262144 + d1 * 4096 + d2 * 64 + d3)%N in
      tail ← decode_digits rest;
      Some (ascii_of_N (v / 65536) :: ascii_of_N (v / 256 mod 256) :: ascii_of_N (v mod 256) :: tail)
  | [d0; d1; d2] =>
      let v := (d0 * 262144 + d1 * 4096 + d2 * 64)%N in
      Some [ascii_of_N (v / 65536); ascii_of_N (v / 256 mod 256)]
  | [d0; d1] =>
      let v := (d0 * 262144 + d1 * 4096)%N in
      Some [ascii_of_N (v / 65536)]
  | [_] => None
  | [] => Some []
  end.
Definition line_break (a : ascii) : Prop := byte_of a = 10%N ∨ byte_of a = 13%N.
#[global] Instance line_break_dec a : Decision (line_break a).
Proof. unfold line_break. apply _. Defined.
Definition b64_decode (l : list ascii) : option (list ascii) :=
  digits ← mapM dec_char (filter (λ a, ¬ line_break a) l);
  decode_digits digits.

Definition EncodeToString (s : string) : string := of_bytes (b64_encode (bytes_of s)).
Definition DecodeString (s : string) : option string := of_bytes <$> b64_decode (bytes_of s).

(** ** The round trip *)
Definition digit_ok (n : N) : bool :=
  bool_decide (dec_char (enc_char n) = Some n) && negb (bool_decide (line_break (enc_char n))) &&
  negb (byte_of (enc_char n) =? 46)%N.
Lemma digits_ok n : (n < 64)%N → digit_ok n = true.
Proof.
  intros Hn. assert (forallb digit_ok (N.of_nat <$> seq 0 64) = true) as H by (vm_compute; reflexivity).
  rewrite forallb_forall in H. apply H. rewrite <- list_elem_of_In. apply list_elem_of_fmap.
  exists (N.to_nat n). split; [lia|]. apply elem_of_seq. lia.
Qed.
Lemma enc_char_ok n :
  (n < 64)%N → dec_char (enc_char n) = Some n ∧ ¬ line_break (enc_char n) ∧ byte_of (enc_char n) ≠ 46%N.
Proof. intros H%digits_ok. unfold digit_ok in H. to_prop. rewrite N.eqb_neq in *. done. Qed.

Lemma byte_of_bound a : (byte_of a < 256)%N.
Proof. apply N_ascii_bounded. Qed.
Lemma byte_of_inv a n : n = byte_of a → ascii_of_N n = a.
Proof. intros ->. apply ascii_N_embedding. Qed.

(** Three steps of induction at once. *)
Lemma list_ind3 {A} (P : list A → Prop) :
  P [] → (∀ a, P [a]) → (∀ a b, P [a; b]) → (∀ a b c l, P l → P (a :: b :: c :: l)) → ∀ l, P l.
Proof.
  intros H0 H1 H2 H3 l. assert (P l ∧ (∀ a, P (a :: l)) ∧ ∀ a b, P (a :: b :: l)) as [? _]; [|done].
  induction l as [|x l (IH0 & IH1 & IH2)]; [by auto|]. split; [done|]. split; [done|]. intros a b. by apply H3.
Qed.

Ltac bytes_lia :=
  repeat match goal with a : ascii |- _ =>
    pose proof (byte_of_bound a); generalize dependent (byte_of a); clear a; intros end;
  zify; Z.to_euclidean_division_equations; lia.

Lemma b64_digits l :
  ∃ digits, b64_encode l = enc_char <$> digits ∧ Forall (λ n, n < 64)%N digits ∧
    decode_digits digits = Some l.
Proof.
  induction l as [|a|a b|a b c l (ds & He & Hs & Hd)] using list_ind3; cbn [b64_encode].
  - by exists [].
  - set (v := (byte_of a * 65536)%N). exists [v / 262144; v / 4096 mod 64]%N. split; [done|]. split.
    { repeat constructor; unfold v; bytes_lia. }
    cbn [decode_digits]. do 2 f_equal. apply byte_of_inv. unfold v. bytes_lia.
  - set (v := (byte_of a * 65536 + byte_of b * 256)%N).
    exists [v / 262144; v / 4096 mod 64; v / 64 mod 64]%N. split; [done|]. split.
    { repeat constructor; unfold v; bytes_lia. }
    cbn [decode_digits]. do 2 f_equal; [|f_equal]; apply byte_of_inv; unfold v; bytes_lia.
  - set (v := (byte_of a * 65536 + byte_of b * 256 + byte_of c)%N).
    exists (v / 262144 :: v / 4096 mod 64 :: v / 64 mod 64 :: v mod 64 :: ds)%N.
    split; [by rewrite He|]. split; [repeat (constructor; [unfold v; bytes_lia|]); done|].
    cbn [decode_digits]. rewrite Hd. cbn [mbind option_bind].
    do 2 f_equal; [|f_equal; [|f_equal]]; apply byte_of_inv; unfold v; bytes_lia.
Qed.

Lemma b64_roundtrip l : b64_decode (b64_encode l) = Some l.
Proof.
  destruct (b64_digits l) as (ds & -> & Hs & Hd). unfold b64_decode.
  rewrite filter_all.
  2:{ intros x (n & -> & Hn)%list_elem_of_fmap. rewrite Forall_forall in Hs.
      by destruct (enc_char_ok n (Hs n Hn)) as (_ & ? & _). }
  assert (mapM dec_char (enc_char <$> ds) = Some ds) as ->; [|done].
  apply mapM_Some. rewrite Forall2_fmap_l. apply Forall_Forall2_diag.
  eapply Forall_impl; [exact Hs|]. intros n Hn. by destruct (enc_char_ok n Hn) as (? & _ & _).
Qed.
Lemma b64_no_dot l : Forall (λ a, byte_of a ≠ 46%N) (b64_encode l).
Proof.
  destruct (b64_digits l) as (ds & -> & Hs & _). rewrite Forall_fmap.
  eapply Forall_impl; [exact Hs|]. intros n Hn. by destruct (enc_char_ok n Hn) as (_ & _ & ?).
Qed.

Lemma DecodeString_EncodeToString s : DecodeString (EncodeToString s) = Some s.
Proof.
  unfold DecodeString, EncodeToString. rewrite bytes_of_of, b64_roundtrip. cbn. by rewrite of_bytes_of.
Qed.
