(* ===== verification/GoFloat.v ===== *)
(** * Go's [float64]

    IEEE 754 binary64 with rounding to nearest even, as the operations of the
    Standard Library's [SpecFloat] at precision 53 and maximal exponent 1024:
    they evaluate, and rest on no axiom.  NaN payloads are not distinguished. *)
From Stdlib Require Export SpecFloat.
From S2P Require Import Prelude.

Abbreviation float64 := spec_float.
Definition fadd : float64 → float64 → float64 := SFadd 53 1024.
Definition fsub : float64 → float64 → float64 := SFsub 53 1024.
Definition fmul : float64 → float64 → float64 := SFmul 53 1024.
Definition fdiv : float64 → float64 → float64 := SFdiv 53 1024.
Definition flt (x y : float64) : bool := SFltb x y.
Definition fle (x y : float64) : bool := SFleb x y.
Definition fgt (x y : float64) : bool := SFltb y x.

(** [float64(n)] for an integer [n]. *)
Definition of_int (n : Z) : float64 := binary_normalize 53 1024 n 0 false.
Definition fzero : float64 := S754_zero false.

(** [math.Ceil]. *)
Definition fceil (x : float64) : float64 :=
  match x with
  | S754_finite s m e =>
      if 0 <=? e then x
      else
        let d := 2 ^ (- e) in
        if s then
          match Z.pos m / d with
          | Z0 => S754_zero true
          | q => binary_normalize 53 1024 (- q) 0 true
          end
        else binary_normalize 53 1024 ((Z.pos m + d - 1) / d) 0 false
  | _ => x
  end.

(** [math.Round]: half away from zero. *)
Definition fround (x : float64) : float64 :=
  match x with
  | S754_finite s m e =>
      if 0 <=? e then x
      else
        let d := 2 ^ (- e) in
        match (2 * Z.pos m + d) / (2 * d) with
        | Z0 => S754_zero s
        | q => binary_normalize 53 1024 (if s then - q else q) 0 s
        end
  | _ => x
  end.

(** [int(x)]: truncation toward zero.  A value outside the range of [int64]
    gives the implementation-specific value amd64 gives, the minimal one. *)
Definition to_int (x : float64) : Z :=
  match x with
  | S754_finite s m e =>
      let v := if 0 <=? e then Z.pos m * 2 ^ e else Z.pos m / 2 ^ (- e) in
      let v := if s then - v else v in
      if bool_decide (in_int64 v) then v else int64_min
  | S754_zero _ => 0
  | _ => int64_min
  end.

#[global] Instance spec_float_eq_dec : EqDecision spec_float.
Proof. solve_decision. Defined.

#[global] Instance spec_float_countable : Countable spec_float.
Proof.
  refine (inj_countable'
    (λ x, match x with
          | S754_zero s => inl (inl s)
          | S754_infinity s => inl (inr s)
          | S754_nan => inr (inl tt)
          | S754_finite s m e => inr (inr (s, m, e))
          end : (bool + bool) + (unit + bool * positive * Z))
    (λ y, match y with
          | inl (inl s) => S754_zero s
          | inl (inr s) => S754_infinity s
          | inr (inl tt) => S754_nan
          | inr (inr (s, m, e)) => S754_finite s m e
          end) _).
  by intros [].
Defined.

Example of_int_3 : of_int 3 = S754_finite false 6755399441055744 (-51).
Proof. vm_compute. reflexivity. Qed.
Example fceil_div : to_int (fceil (fdiv (of_int 1001) (of_int 500))) = 3.
Proof. vm_compute. reflexivity. Qed.

(** [math.Max] and [math.Min]. *)
Definition is_nan (x : float64) : bool :=
  match x with S754_nan => true | _ => false end.
Definition fmax (x y : float64) : float64 :=
  match x, y with
  | S754_infinity false, _ | _, S754_infinity false => S754_infinity false
  | S754_nan, _ | _, S754_nan => S754_nan
  | S754_zero s, S754_zero _ => if s then y else x
  | _, _ => if fgt x y then x else y
  end.
Definition fmin (x y : float64) : float64 :=
  match x, y with
  | S754_infinity true, _ | _, S754_infinity true => S754_infinity true
  | S754_nan, _ | _, S754_nan => S754_nan
  | S754_zero s, S754_zero _ => if s then x else y
  | _, _ => if flt x y then x else y
  end.

(** ** The order [sort.Float64s] sorts by: NaN first, then [<=]. *)
Definition sort_le (x y : float64) : Prop := is_nan x = true ∨ fle x y = true.
#[global] Instance sort_le_dec x y : Decision (sort_le x y).
Proof. unfold sort_le. apply _. Defined.

(** A float's place in the order: its sign and kind, then exponent and
    mantissa, compared lexicographically. *)
Definition place (x : float64) : Z * Z * Z :=
  match x with
  | S754_nan => (-3, 0, 0)
  | S754_infinity true => (-2, 0, 0)
  | S754_finite true m e => (-1, - e, - Z.pos m)
  | S754_zero _ => (0, 0, 0)
  | S754_finite false m e => (1, e, Z.pos m)
  | S754_infinity false => (2, 0, 0)
  end.
Definition place_le (a b : Z * Z * Z) : Prop :=
  a.1.1 < b.1.1 ∨ a.1.1 = b.1.1 ∧ (a.1.2 < b.1.2 ∨ a.1.2 = b.1.2 ∧ a.2 <= b.2).

Lemma pos_compare_cont m1 m2 : Pos.compare_cont Eq m1 m2 = (m1 ?= m2)%positive.
Proof. done. Qed.

Lemma sort_le_place x y : sort_le x y ↔ place_le (place x) (place y).
Proof.
  unfold sort_le, fle, SFleb, place_le.
  destruct x as [[]|[]| |[] m1 e1], y as [[]|[]| |[] m2 e2]; simpl;
    rewrite ?pos_compare_cont;
    try (destruct (Z.compare_spec e1 e2), (Pos.compare_spec m1 m2); simpl);
    (split; [intros [?|?]; try done; lia|intros ?; first [by left|by right|lia]]).
Qed.

#[global] Instance sort_le_trans : Transitive sort_le.
Proof. intros x y z. rewrite !sort_le_place. unfold place_le. lia. Qed.
#[global] Instance sort_le_total : Total sort_le.
Proof. intros x y. rewrite !sort_le_place. unfold place_le. lia. Qed.

(** Only the two zeros share a place. *)
Lemma sort_le_antisym x y :
  sort_le x y → sort_le y x → x ≠ S754_zero true → y ≠ S754_zero true → x = y.
Proof.
  rewrite !sort_le_place. intros H1 H2 Hx Hy.
  assert (place x = place y) as E.
  { unfold place_le in *. destruct (place x) as [[a b] c], (place y) as [[a' b'] c']; simpl in *.
    repeat f_equal; lia. }
  destruct x as [[]|[]| |[] m e], y as [[]|[]| |[] m' e']; simplify_eq/=; try done.
  f_equal; lia.
Qed.
