(* ===== verification/ParseFloat.v ===== *)
(** * [strconv.ParseFloat]

    Decimal and hexadecimal numbers with optional underscores, and the names of
    infinities and NaN.  The value is the float nearest to the number written;
    one that rounds beyond the largest float is an error, as any text that is
    not a number. *)
From Stdlib Require Import Ascii.
From S2P Require Import Prelude GoStrings GoFloat.

(** The float nearest to [n / 10 ^ k]: the quotient to at least 64 bits, with a
    last bit that says whether anything was left over, and one rounding. *)
Definition nearest_quotient (n d : positive) : float64 :=
  let s := Z.max 0 (66 + Z.log2 (Z.pos d) - Z.log2 (Z.pos n)) in
  let '(q, r) := Z.div_eucl (Z.pos n * 2 ^ s) (Z.pos d) in
  binary_normalize 53 1024 (2 * q + (if r =? 0 then 0 else 1)) (- s - 1) false.
Definition of_decimal (n : Z) (e : Z) : float64 :=
  match n with
  | Z.pos p =>
      if 0 <=? e then binary_normalize 53 1024 (n * 10 ^ e) 0 false
      else nearest_quotient p (Z.to_pos (10 ^ (- e)))
  | _ => fzero
  end.

Definition digit (a : ascii) : option Z :=
  if in_range 48 57 a then Some (Z.of_N (byte_of a) - 48) else None.
Definition hex_digit (a : ascii) : option Z :=
  if in_range 97 102 a then Some (Z.of_N (byte_of a) - 87)
  else if in_range 65 70 a then Some (Z.of_N (byte_of a) - 55) else digit a.
Definition is_char (n : N) (a : ascii) : bool := bool_decide (byte_of a = n).

(** The digits before the exponent: the number they write, how many follow the
    point, whether there were any, and what is left. *)
Record Mantissa := mkMantissa {
  mn_value : Z; mn_after : Z; mn_dot : bool; mn_any : bool
}.
Fixpoint scan_mantissa (base : Z) (dig : ascii → option Z) (m : Mantissa) (l : list ascii) :
    Mantissa * list ascii :=
  match l with
  | [] => (m, [])
  | a :: l' =>
      if is_char 95 a then scan_mantissa base dig m l'
      else if is_char 46 a then
        if mn_dot m then (m, l)
        else scan_mantissa base dig (mkMantissa (mn_value m) (mn_after m) true (mn_any m)) l'
      else match dig a with
           | Some d =>
               scan_mantissa base dig
                 (mkMantissa (mn_value m * base + d)
                    (if mn_dot m then mn_after m + 1 else mn_after m) (mn_dot m) true) l'
           | None => (m, l)
           end
  end.
(** The digits of the exponent; it stops growing at 10000. *)
Fixpoint scan_exponent (e : Z) (l : list ascii) : Z * list ascii :=
  match l with
  | a :: l' =>
      if is_char 95 a then scan_exponent e l'
      else match digit a with
           | Some d => scan_exponent (if e <? 10000 then e * 10 + d else e) l'
           | None => (e, l)
           end
  | [] => (e, [])
  end.

Definition sign (l : list ascii) : bool * list ascii :=
  match l with
  | a :: l' => if is_char 45 a then (true, l') else if is_char 43 a then (false, l') else (false, l)
  | [] => (false, [])
  end.
Definition hex_prefix (l : list ascii) : option (list ascii) :=
  match l with
  | a :: b :: c :: l' =>
      if is_char 48 a && (is_char 120 b || is_char 88 b) then Some (c :: l') else None
  | _ => None
  end.

(** [underscoreOK]: an underscore stands between digits, or between a base
    prefix and a digit.  The state is what was seen last: a digit, an
    underscore, or something else. *)
Inductive Seen := SeenDigit | SeenUnderscore | SeenOther.
Fixpoint underscores_ok (hex : bool) (seen : Seen) (l : list ascii) : bool :=
  match l with
  | [] => match seen with SeenUnderscore => false | _ => true end
  | a :: l' =>
      if in_range 48 57 a || (hex && (in_range 97 102 a || in_range 65 70 a))
      then underscores_ok hex SeenDigit l'
      else if is_char 95 a then
        match seen with SeenDigit => underscores_ok hex SeenUnderscore l' | _ => false end
      else match seen with SeenUnderscore => false | _ => underscores_ok hex SeenOther l' end
  end.
Definition underscoreOK (l : list ascii) : bool :=
  let l := (sign l).2 in
  match l with
  | a :: b :: l' =>
      if is_char 48 a && (is_char 98 b || is_char 66 b || is_char 111 b || is_char 79 b)
      then underscores_ok false SeenDigit l'
      else if is_char 48 a && (is_char 120 b || is_char 88 b)
      then underscores_ok true SeenDigit l'
      else underscores_ok false SeenOther l
  | _ => underscores_ok false SeenOther l
  end.

(** [special]. *)
Definition special (s : string) : option float64 :=
  let t := ToLower s in
  if bool_decide (t = "nan") then Some S754_nan
  else if bool_decide (t ∈ ["inf"; "+inf"; "infinity"; "+infinity"]) then Some (S754_infinity false)
  else if bool_decide (t ∈ ["-inf"; "-infinity"]) then Some (S754_infinity true) else None.

Definition finite_or_none (neg : bool) (x : float64) : option float64 :=
  match x with
  | S754_infinity _ | S754_nan => None
  | S754_zero _ => Some (S754_zero neg)
  | S754_finite _ m e => Some (S754_finite neg m e)
  end.

Definition ParseFloat (s : string) : option float64 :=
  match special s with
  | Some x => Some x
  | None =>
      let '(neg, l) := sign (bytes_of s) in
      let hex := hex_prefix l in
      let '(m, rest) :=
        match hex with
        | Some l' => scan_mantissa 16 hex_digit (mkMantissa 0 0 false false) l'
        | None => scan_mantissa 10 digit (mkMantissa 0 0 false false) l
        end in
      if negb (mn_any m) then None
      else
        let is_exp a := match hex with Some _ => is_char 112 a || is_char 80 a
                                     | None => is_char 101 a || is_char 69 a end in
        let exponent :=
          match rest with
          | a :: l' =>
              if is_exp a then
                let '(eneg, l'') := sign l' in
                match l'' with
                | d :: _ => if in_range 48 57 d
                            then let '(e, end_) := scan_exponent 0 l'' in
                                 Some ((if (eneg : bool) then - e else e), end_)
                            else None
                | [] => None
                end
              else match hex with Some _ => None | None => Some (0, rest) end
          | [] => match hex with Some _ => None | None => Some (0, []) end
          end in
        match exponent with
        | Some (e, []) =>
            if existsb (is_char 95) (bytes_of s) && negb (underscoreOK (bytes_of s)) then None
            else match hex with
                 | Some _ => finite_or_none neg
                               (binary_normalize 53 1024 (mn_value m) (e - 4 * mn_after m) false)
                 | None => finite_or_none neg (of_decimal (mn_value m) (e - mn_after m))
                 end
        | _ => None
        end
  end.

Example parse_examples :
  ParseFloat "95" = Some (of_int 95) ∧ ParseFloat "0.5" = Some (fdiv (of_int 1) (of_int 2)) ∧
  ParseFloat "9_5" = Some (of_int 95) ∧ ParseFloat "_95" = None ∧ ParseFloat "950e-1" = Some (of_int 95) ∧
  ParseFloat "0x5fp0" = Some (of_int 95) ∧ ParseFloat "1.2.3" = None ∧ ParseFloat "" = None ∧
  ParseFloat "0.1" = Some (fdiv (of_int 1) (of_int 10)) ∧ ParseFloat "1e400" = None.
Proof. vm_compute. done. Qed.
(** Halfway cases go to the even neighbour, and a remainder breaks the tie. *)
Example parse_rounding :
  ParseFloat "9007199254740993" = Some (of_int 9007199254740992) ∧
  ParseFloat "9007199254740993.0000000001" = Some (of_int 9007199254740994) ∧
  ParseFloat "4.9e-324" = Some (S754_finite false 1 (-1074)).
Proof. vm_compute. done. Qed.
