(* ===== verification/FormatFloat.v ===== *)
(** * [strconv.FormatFloat(v, 'g', -1, 64)]

    The shortest decimal that reads back as the float, the nearest of these when
    there are two, in plain notation for exponents from -4 to 5 and in
    scientific notation otherwise. *)
From Stdlib Require Import Ascii.
From S2P Require Import Prelude GoStrings GoFloat ParseFloat.

(** ** The digits *)

(** A positive finite float as a quotient. *)
Definition quotient (m : positive) (e : Z) : Z * Z :=
  if 0 <=? e then (Z.pos m * 2 ^ e, 1) else (Z.pos m, 2 ^ (- e)).
(** The [dp] with [10 ^ (dp - 1) <= n / d < 10 ^ dp]. *)
Definition dec_point (n d : Z) : Z :=
  if d <=? n then go_len (pretty (n / d)) else 1 - go_len (pretty ((d + n - 1) / n - 1)).

(** A decimal [c * 10 ^ p] is written as the pair. *)
Definition reads_as (m : positive) (e : Z) (c p : Z) : bool :=
  bool_decide (of_decimal c p = S754_finite false m e).
Definition with_digits (m : positive) (e : Z) (k : Z) : option (Z * Z) :=
  let '(n, d) := quotient m e in
  let p := dec_point n d - k in
  let '(num, den) := if 0 <=? p then (n, d * 10 ^ p) else (n * 10 ^ (- p), d) in
  let lo := num / den in
  let r := num mod den in
  let up := lo + 1 in
  let pick := if 2 * r <? den then lo else if den <? 2 * r then up else if Z.even lo then lo else up in
  if r =? 0 then if reads_as m e lo p then Some (lo, p) else None
  else
    match reads_as m e lo p, reads_as m e up p with
    | true, true => Some (pick, p)
    | true, false => Some (lo, p)
    | false, true => Some (up, p)
    | false, false => None
    end.
Fixpoint fewest_digits (fuel : nat) (m : positive) (e : Z) (k : Z) : option (Z * Z) :=
  match fuel with
  | O => None
  | S fuel =>
      match with_digits m e k with
      | Some cp => Some cp
      | None => fewest_digits fuel m e (k + 1)
      end
  end.
(** Seventeen digits tell any two floats apart. *)
Definition shortest (m : positive) (e : Z) : option (Z * Z) := fewest_digits 17 m e 1.
(** The number in full. *)
Definition in_full (m : positive) (e : Z) : Z * Z :=
  if 0 <=? e then (Z.pos m * 2 ^ e, 0) else (Z.pos m * 5 ^ (- e), e).

(** ** The text *)
Definition zero_digits (n : Z) : list ascii := replicate (Z.to_nat n) "0"%char.
(** [%e]: at least two digits of exponent. *)
Definition fmtE (digs : list ascii) (exp : Z) : list ascii :=
  take 1 digs ++ (if bool_decide (length digs = 1%nat) then [] else "."%char :: drop 1 digs) ++
  ["e"%char; if exp <? 0 then "-"%char else "+"%char] ++
  (if Z.abs exp <? 10 then ["0"%char] else []) ++ bytes_of (pretty (Z.abs exp)).
(** [%f] with the digits there are. *)
Definition fmtF (digs : list ascii) (dp : Z) : list ascii :=
  let nd := Z.of_nat (length digs) in
  if dp <=? 0 then ["0"; "."]%char ++ zero_digits (- dp) ++ digs
  else if dp <? nd then take (Z.to_nat dp) digs ++ "."%char :: drop (Z.to_nat dp) digs
  else digs ++ zero_digits (dp - nd).
Definition formatDigits (digs : list ascii) (dp : Z) : list ascii :=
  let exp := dp - 1 in
  if (exp <? -4) || (6 <=? exp) then fmtE digs exp else fmtF digs dp.
Definition FormatFloat (x : float64) : string :=
  match x with
  | S754_nan => "NaN"
  | S754_infinity s => if s then "-Inf" else "+Inf"
  | S754_zero s => if s then "-0" else "0"
  | S754_finite s m e =>
      let '(c, p) := default (in_full m e) (shortest m e) in
      let digs := bytes_of (pretty c) in
      of_bytes ((if s then ["-"%char] else []) ++ formatDigits digs (Z.of_nat (length digs) + p))
  end.

Example format_examples :
  FormatFloat (of_int 95) = "95" ∧ FormatFloat (fdiv (of_int 1) (of_int 10)) = "0.1" ∧
  FormatFloat (of_int 1234567) = "1.234567e+06" ∧ FormatFloat (of_int 123456) = "123456" ∧
  FormatFloat (of_int 100000) = "100000" ∧
  FormatFloat (fdiv (of_int 1) (of_int 3)) = "0.3333333333333333" ∧
  FormatFloat (fdiv (of_int 2) (of_int 3)) = "0.6666666666666666" ∧
  FormatFloat (fdiv (of_int (-5)) (of_int 100000)) = "-5e-05" ∧
  FormatFloat (fdiv (of_int 5) (of_int 10000)) = "0.0005" ∧
  FormatFloat (S754_finite false 1 (-1074)) = "5e-324" ∧
  FormatFloat (fadd (fdiv (of_int 1) (of_int 10)) (fdiv (of_int 2) (of_int 10))) = "0.30000000000000004".
Proof. vm_compute. done. Qed.

(** ** Reading the text back *)
#[local] Abbreviation digits l := (Forall (λ a, in_range 48 57 a = true) l).

Lemma digit_char a : in_range 48 57 a = true →
  is_char 95 a = false ∧ is_char 46 a = false ∧ is_char 43 a = false ∧ is_char 45 a = false ∧
  is_char 101 a = false ∧ is_char 120 a = false ∧ is_char 88 a = false ∧
  digit a = Some (Z.of_N (byte_of a) - 48).
Proof.
  unfold digit. intros Ha. rewrite Ha. unfold in_range, is_char in *.
  apply bool_decide_eq_true in Ha. repeat split; apply bool_decide_eq_false; lia.
Qed.
Lemma digits_value_cons a l acc : in_range 48 57 a = true →
  digits_value (a :: l) acc = digits_value l (acc * 10 + (Z.of_N (byte_of a) - 48)).
Proof.
  intros Ha. cbn [digits_value]. fold (byte_of a). unfold in_range in Ha. rewrite Ha.
  apply bool_decide_eq_true in Ha. f_equal. lia.
Qed.
Lemma digits_value_app l k acc v :
  digits l → digits_value l acc = Some v → digits_value (l ++ k) acc = digits_value k v.
Proof.
  intros Hl. revert acc. induction Hl as [|a l Ha Hl IH]; intros acc.
  - cbn. congruence.
  - cbn [app]. rewrite !digits_value_cons by done. apply IH.
Qed.
Lemma zero_digits_ok n : digits (zero_digits n).
Proof. apply Forall_replicate. done. Qed.
Lemma digits_value_zeros n acc : 0 <= n → digits_value (zero_digits n) acc = Some (acc * 10 ^ n).
Proof.
  intros Hn. unfold zero_digits. rewrite <- (Z2Nat.id n Hn) at 2. generalize (Z.to_nat n) as k. clear n Hn.
  intros k. revert acc. induction k as [|k IH]; intros acc; cbn [replicate].
  - cbn. f_equal. lia.
  - rewrite digits_value_cons by done. rewrite IH. f_equal. rewrite Nat2Z.inj_succ, Z.pow_succ_r by lia.
    change (Z.of_N (byte_of "0")) with 48. lia.
Qed.

Lemma scan_mantissa_digits l m rest v :
  digits l → digits_value l (mn_value m) = Some v →
  scan_mantissa 10 digit m (l ++ rest) =
  scan_mantissa 10 digit
    (mkMantissa v (if mn_dot m then mn_after m + Z.of_nat (length l) else mn_after m) (mn_dot m)
       (mn_any m || negb (bool_decide (l = [])))) rest.
Proof.
  intros Hl. revert m. induction Hl as [|a l Ha Hl IH]; intros [x y dot any] Hv;
    cbn [mn_value mn_after mn_dot mn_any] in *.
  - cbn in *. simplify_eq. rewrite orb_false_r. destruct dot; by rewrite ?Z.add_0_r.
  - rewrite digits_value_cons in Hv by done.
    cbn [app scan_mantissa]. destruct (digit_char a Ha) as (-> & -> & _ & _ & _ & _ & _ & ->).
    rewrite IH by done. cbn [length mn_value mn_after mn_dot mn_any]. rewrite !bool_decide_false with (P:= _ :: _ = []) by done. rewrite orb_true_r.
    destruct dot; f_equal; f_equal; lia.
Qed.
Lemma scan_exponent_digits l e v :
  digits l → digits_value l e = Some v → 0 <= e → v < 100000 → scan_exponent e l = (v, []).
Proof.
  intros Hl. revert e. induction Hl as [|a l Ha Hl IH]; intros e Hv He Hlt; cbn [scan_exponent].
  - cbn in Hv. congruence.
  - rewrite digits_value_cons in Hv by done.
    destruct (digit_char a Ha) as (-> & _ & _ & _ & _ & _ & _ & ->).
    assert (Hd : 0 <= Z.of_N (byte_of a) - 48 <= 9)
      by (unfold in_range in Ha; apply bool_decide_eq_true in Ha; lia).
    assert (Hge : ∀ x w, digits_value l x = Some w → 0 <= x → x <= w).
    { clear - Hl. induction Hl as [|b l Hb Hl IH]; intros x w Hw Hx.
      - cbn in Hw. simplify_eq. done.
      - rewrite digits_value_cons in Hw by done. unfold in_range in Hb.
        apply bool_decide_eq_true in Hb. apply IH in Hw; lia. }
    pose proof (Hge _ _ Hv ltac:(lia)). destruct (Z.ltb_spec e 10000); [|lia].
    apply IH; [done|lia|done].
Qed.

(** The printed number of a value has at most as many digits as it has bits. *)
Lemma pretty_length n : 0 < n → go_len (pretty n) <= Z.log2 n + 1.
Proof.
  destruct n as [|n|n]; [done| |done]. intros _. change (pretty (Z.pos n)) with (pretty_N_go (N.pos n) "").
  assert (H : ∀ x s, (0 < x)%N →
    go_len (pretty_N_go x s) <= Z.log2 (Z.of_N x) + 1 + go_len s).
  { intros x. induction (N.lt_wf_0 x) as [x _ IH]; intros s Hx. rewrite pretty_N_go_step by done.
    destruct (N.eq_0_gt_0_cases (x `div` 10)) as [H0|Hq].
    - rewrite H0, pretty_N_go_0. unfold go_len. cbn [String.length]. pose proof (Z.log2_nonneg (Z.of_N x)). lia.
    - etransitivity; [apply IH; [by apply N.div_lt|done]|].
      assert (Z.log2 (Z.of_N (x `div` 10)) < Z.log2 (Z.of_N x)).
      { apply Z.log2_lt_pow2; [by apply (N2Z.inj_lt 0)|]. assert (Z.of_N x < 2 ^ (Z.log2 (Z.of_N x) + 1))
          by (apply Z.log2_spec; lia). rewrite Z.pow_add_r in * by (try apply Z.log2_nonneg; lia).
        rewrite N2Z.inj_div. change (Z.of_N 10) with 10. apply Z.div_lt_upper_bound; lia. }
      unfold go_len in *. cbn [String.length] in *. lia. }
  pose proof (H (N.pos n) "" ltac:(lia)) as Hn. cbn [Z.of_N] in Hn. unfold go_len in *. cbn in *. lia.
Qed.

Lemma to_lower_low a l : (byte_of a < 65)%N → to_lower (a :: l) = a :: to_lower l.
Proof.
  intros Ha. cbn [to_lower]. rewrite bool_decide_false by lia. destruct l as [|b l]; [done|].
  rewrite bool_decide_false by lia. destruct l as [|c l]; [done|]. by rewrite bool_decide_false by lia.
Qed.
Definition sign_text (neg : bool) : list ascii := if neg then ["-"%char] else [].
Lemma special_number neg a l :
  in_range 48 57 a = true → special (of_bytes (sign_text neg ++ a :: l)) = None.
Proof.
  intros Ha. unfold special, ToLower. rewrite bytes_of_of.
  assert (Hlow : (byte_of a < 65)%N) by (unfold in_range in Ha; apply bool_decide_eq_true in Ha; lia).
  assert (to_lower (sign_text neg ++ a :: l) = sign_text neg ++ a :: to_lower l) as ->.
  { destruct neg; cbn [sign_text app]; rewrite ?(to_lower_low "-") by done; by rewrite to_lower_low. }
  set (t := of_bytes _).
  assert (Hne : ∀ u, t = u → bytes_of u = sign_text neg ++ a :: to_lower l)
    by (intros u <-; apply bytes_of_of).
  assert (H1 : t ≠ "nan") by (intros E%Hne; destruct neg; cbn in E; by simplify_eq).
  assert (H2 : t ∉ ["inf"; "+inf"; "infinity"; "+infinity"]).
  { intros Hin. repeat (apply elem_of_cons in Hin as [E%Hne|Hin]; [destruct neg; cbn in E; by simplify_eq|]).
    by apply elem_of_nil in Hin. }
  assert (H3 : t ∉ ["-inf"; "-infinity"]).
  { intros Hin. repeat (apply elem_of_cons in Hin as [E%Hne|Hin]; [destruct neg; cbn in E; by simplify_eq|]).
    by apply elem_of_nil in Hin. }
  by rewrite !bool_decide_false by done.
Qed.

(** A number as text: digits, then digits after a point, then an exponent. *)
Definition exponent_text (ex : option Z) : list ascii :=
  match ex with
  | None => []
  | Some exp =>
      ["e"%char; if exp <? 0 then "-"%char else "+"%char] ++
      (if Z.abs exp <? 10 then ["0"%char] else []) ++ bytes_of (pretty (Z.abs exp))
  end.
Definition number_text (ip fp : list ascii) (ex : option Z) : list ascii :=
  ip ++ (if bool_decide (fp = []) then [] else "."%char :: fp) ++ exponent_text ex.

Lemma exponent_digits exp :
  let l := (if Z.abs exp <? 10 then ["0"%char] else []) ++ bytes_of (pretty (Z.abs exp)) in
  digits l ∧ digits_value l 0 = Some (Z.abs exp) ∧ l ≠ [].
Proof.
  intros l. pose proof (pretty_digits (Z.abs exp) ltac:(lia)) as Hd.
  pose proof (pretty_value (Z.abs exp) ltac:(lia)) as Hv.
  pose proof (pretty_nonempty (Z.abs exp)) as Hne. subst l.
  destruct (Z.abs exp <? 10); cbn [app]; [|done]. split; [by constructor|]. split; [|done].
  by rewrite digits_value_cons.
Qed.
Lemma number_no_underscore ip fp ex :
  digits ip → digits fp → existsb (is_char 95) (number_text ip fp ex) = false.
Proof.
  intros Hip Hfp.
  assert (Hd : ∀ l, digits l → existsb (is_char 95) l = false).
  { intros l. induction 1 as [|a l Ha _ IH]; [done|]. cbn. destruct (digit_char a Ha) as (-> & _). done. }
  unfold number_text. rewrite !existsb_app, (Hd ip) by done. cbn [orb].
  assert (existsb (is_char 95) (if bool_decide (fp = []) then [] else "."%char :: fp) = false) as ->.
  { case_bool_decide; [done|]. cbn. by apply Hd. }
  destruct ex as [exp|]; [|done]. unfold exponent_text. destruct (exponent_digits exp) as (He & _).
  rewrite existsb_app, (Hd _ He). by destruct (exp <? 0).
Qed.

Lemma scan_mantissa_stop m ex : scan_mantissa 10 digit m (exponent_text ex) = (m, exponent_text ex).
Proof. by destruct ex as [exp|]. Qed.
Lemma scan_number ip fp ex v :
  ip ≠ [] → digits ip → digits fp → digits_value (ip ++ fp) 0 = Some v →
  ∃ dot, scan_mantissa 10 digit (mkMantissa 0 0 false false) (number_text ip fp ex) =
  (mkMantissa v (Z.of_nat (length fp)) dot true, exponent_text ex).
Proof.
  intros Hne Hip Hfp Hv.
  assert (is_Some (digits_value ip 0)) as [w Hw].
  { clear - Hip. generalize 0. induction Hip as [|a l Ha _ IH]; intros z; [done|].
    rewrite digits_value_cons by done. apply IH. }
  rewrite (digits_value_app _ _ _ w) in Hv by done.
  unfold number_text. rewrite (scan_mantissa_digits ip _ _ w) by done. cbn [mn_value mn_after mn_dot mn_any orb].
  rewrite (bool_decide_false (ip = [])) by done. cbn [negb].
  case_bool_decide as Hf.
  - subst fp. cbn in Hv. simplify_eq. cbn [app]. rewrite scan_mantissa_stop. by exists false.
  - cbn [app scan_mantissa]. change (is_char 95 ".") with false. change (is_char 46 ".") with true. cbn [mn_dot].
    rewrite (scan_mantissa_digits fp _ _ v) by done. cbn [mn_value mn_after mn_dot mn_any orb].
    rewrite scan_mantissa_stop. by exists true.
Qed.
Lemma number_head ip fp ex :
  ip ≠ [] → digits ip → ∃ a l, number_text ip fp ex = a :: l ∧ in_range 48 57 a = true ∧
  hex_prefix (number_text ip fp ex) = None.
Proof.
  intros Hne Hip. destruct ip as [|a ip]; [done|]. apply Forall_cons in Hip as [Ha Hip].
  eexists a, _. split; [done|]. split; [done|]. unfold number_text, hex_prefix. cbn [app].
  assert (Hx : ∀ b l, ip ++ (if bool_decide (fp = []) then [] else "."%char :: fp) ++ exponent_text ex = b :: l →
    is_char 120 b = false ∧ is_char 88 b = false).
  { intros b l E. destruct ip as [|b' ip]; cbn [app] in E.
    - case_bool_decide; cbn [app] in E; [|by injection E as <- _]. destruct ex as [exp|]; [|done].
      cbn [exponent_text app] in E. by injection E as <- _.
    - simplify_eq. apply Forall_cons in Hip as [Hb _]. destruct (digit_char b Hb) as (_ & _ & _ & _ & _ & -> & -> & _). done. }
  destruct (ip ++ _) as [|b [|c l]]; [done..|]. destruct (Hx b _ eq_refl) as [-> ->]. by rewrite andb_false_r.
Qed.

(** Reading a number written as text. *)
Lemma ParseFloat_number neg ip fp ex v :
  ip ≠ [] → digits ip → digits fp → digits_value (ip ++ fp) 0 = Some v →
  Z.abs (default 0 ex) < 100000 →
  ParseFloat (of_bytes (sign_text neg ++ number_text ip fp ex)) =
  finite_or_none neg (of_decimal v (default 0 ex - Z.of_nat (length fp))).
Proof.
  intros Hne Hip Hfp Hv Hex. destruct (number_head ip fp ex Hne Hip) as (a & l & Htext & Ha & Hhex).
  unfold ParseFloat. rewrite Htext at 1. rewrite special_number by done. rewrite bytes_of_of.
  assert (sign (sign_text neg ++ number_text ip fp ex) = (neg, number_text ip fp ex)) as ->.
  { destruct neg; [done|]. cbn [sign_text app]. rewrite Htext. unfold sign.
    destruct (digit_char a Ha) as (_ & _ & -> & -> & _). done. }
  rewrite Hhex. destruct (scan_number ip fp ex v Hne Hip Hfp Hv) as [dot ->].
  cbn [mn_any mn_value mn_after negb].
  assert (existsb (is_char 95) (sign_text neg ++ number_text ip fp ex) = false) as ->.
  { rewrite existsb_app, number_no_underscore by done. by destruct neg. }
  cbn [andb]. destruct ex as [exp|]; cbn [exponent_text default app]; [|done].
  change (is_char 101 "e" || is_char 69 "e") with true. cbv iota.
  assert (∀ k, sign ((if exp <? 0 then "-"%char else "+"%char) :: k) = (exp <? 0, k)) as Hsign
    by (intros k; by destruct (exp <? 0)).
  rewrite Hsign. destruct (exponent_digits exp) as (Hd & Hval & Hn).
  destruct ((if Z.abs exp <? 10 then _ else _) ++ _) as [|d k]; [done|].
  apply Forall_cons in Hd as Hd'. destruct Hd' as [-> _].
  rewrite (scan_exponent_digits _ _ _ Hd Hval); [|lia|done].
  f_equal. f_equal. unfold id. destruct (Z.ltb_spec exp 0); lia.
Qed.

(** ** The digits are few *)
Definition in_format (x : float64) : Prop :=
  match x with
  | S754_finite _ m e => Z.pos m < 2 ^ 53 ∧ -1074 <= e <= 971
  | _ => True
  end.

Lemma pretty_bounds n k : 0 < n → Z.log2 n <= k → 0 <= go_len (pretty n) <= k + 1.
Proof. intros Hn Hk. pose proof (pretty_length n Hn). unfold go_len in *. lia. Qed.
Lemma log2_pow10 p : 0 <= p → 0 < 10 ^ p ∧ Z.log2 (10 ^ p) <= 4 * p.
Proof.
  intros Hp. split; [apply Z.pow_pos_nonneg; lia|]. rewrite <- (Z.log2_pow2 (4 * p)) by lia.
  apply Z.log2_le_mono. rewrite Z.pow_mul_r by lia. apply Z.pow_le_mono_l. lia.
Qed.

Section bounds.
Context (m : positive) (e : Z) (Hx : Z.pos m < 2 ^ 53 ∧ -1074 <= e <= 971).

Lemma quotient_bounds : let '(n, d) := quotient m e in
  0 < n ∧ 0 < d ∧ Z.log2 n <= 1023 ∧ Z.log2 d <= 1074.
Proof using Hx.
  assert (Hm : Z.log2 (Z.pos m) < 53) by (apply Z.log2_lt_pow2; lia).
  unfold quotient. destruct (Z.leb_spec 0 e).
  - assert (0 < 2 ^ e) by (apply Z.pow_pos_nonneg; lia). rewrite Z.log2_mul_pow2 by lia. change (Z.log2 1) with 0. nia.
  - assert (0 < 2 ^ (- e)) by (apply Z.pow_pos_nonneg; lia). rewrite Z.log2_pow2 by lia. lia.
Qed.
Lemma dec_point_bounds : let '(n, d) := quotient m e in -1075 <= dec_point n d <= 1025.
Proof using Hx.
  pose proof quotient_bounds as Hq. destruct (quotient m e) as [n d]. destruct Hq as (Hn & Hd & Hln & Hld).
  unfold dec_point. destruct (Z.leb_spec d n).
  - assert (0 < n / d) by (apply Z.div_str_pos; lia).
    assert (n / d <= n) by (apply Z.div_le_upper_bound; nia).
    assert (Z.log2 (n / d) <= Z.log2 n) by (by apply Z.log2_le_mono).
    pose proof (pretty_bounds (n / d) 1023 ltac:(done) ltac:(lia)). lia.
  - assert (1 < (d + n - 1) / n) by (apply (Z.lt_le_trans _ 2); [lia|]; apply Z.div_le_lower_bound; lia).
    assert ((d + n - 1) / n <= d) by (apply Z.div_le_upper_bound; nia).
    assert (Z.log2 ((d + n - 1) / n - 1) <= Z.log2 d) by (apply Z.log2_le_mono; lia).
    pose proof (pretty_bounds ((d + n - 1) / n - 1) 1074 ltac:(lia) ltac:(lia)). lia.
Qed.

Lemma with_digits_spec k c p :
  1 <= k <= 17 → with_digits m e k = Some (c, p) →
  of_decimal c p = S754_finite false m e ∧ -1092 <= p <= 1024 ∧ Z.log2 c <= 5400.
Proof using Hx.
  intros Hk. unfold with_digits, reads_as.
  pose proof quotient_bounds as Hq. pose proof dec_point_bounds as Hdp.
  destruct (quotient m e) as [n d]. destruct Hq as (Hn & Hd & Hln & _).
  set (p' := dec_point n d - k).
  set (nd := if 0 <=? p' then (n, d * 10 ^ p') else (n * 10 ^ (- p'), d)).
  assert (Hnum : 0 < nd.1 ∧ Z.log2 nd.1 <= 5399 ∧ 0 < nd.2).
  { subst nd. destruct (Z.leb_spec 0 p'); cbn [fst snd].
    - destruct (log2_pow10 p' ltac:(done)). nia.
    - destruct (log2_pow10 (- p') ltac:(lia)).
      pose proof (Z.log2_mul_above n (10 ^ (- p')) ltac:(lia) ltac:(lia)). nia. }
  destruct nd as [num den]. cbn [fst snd] in *. destruct Hnum as (Hnum & Hlog & Hden).
  assert (num / den <= num) by (apply Z.div_le_upper_bound; nia).
  assert (Hlo : Z.log2 (num / den) <= Z.log2 num) by (by apply Z.log2_le_mono).
  assert (Hup : Z.log2 (num / den + 1) <= 5400).
  { pose proof (Z.log2_succ_le (num / den)). unfold Z.succ in *. lia. }
  clear - Hdp Hlo Hup Hlog Hk. intros E. split; [|split].
  - repeat case_bool_decide; repeat case_match; simplify_eq; done.
  - assert (p = p') as -> by (repeat case_match; simplify_eq; done). lia.
  - repeat case_match; simplify_eq; lia.
Qed.
Lemma shortest_spec c p :
  shortest m e = Some (c, p) →
  of_decimal c p = S754_finite false m e ∧ -1092 <= p <= 1024 ∧ Z.log2 c <= 5400.
Proof using Hx.
  unfold shortest. assert (Hk : 1 <= 1 ∧ 1 + Z.of_nat 17 <= 18) by lia. revert Hk.
  generalize 17%nat as fuel. generalize 1 at 2 3 4 as k. intros k fuel. revert k.
  induction fuel as [|fuel IH]; intros k Hk; cbn [fewest_digits]; [done|].
  destruct (with_digits m e k) as [[c' p']|] eqn:Ek; intros E.
  - simplify_eq. by apply (with_digits_spec k); [lia|].
  - apply (IH (k + 1)); [lia|done].
Qed.
End bounds.

Lemma of_decimal_positive c p m e : of_decimal c p = S754_finite false m e → 0 < c.
Proof. destruct c; [done|lia|done]. Qed.
Lemma of_decimal_shift c z : 0 < c → 0 <= z → of_decimal (c * 10 ^ z) 0 = of_decimal c z.
Proof.
  intros Hc Hz. pose proof (Z.pow_pos_nonneg 10 z ltac:(lia) Hz).
  unfold of_decimal at 2. destruct (Z.leb_spec 0 z); [|lia]. destruct c as [|c|c]; [lia| |lia].
  destruct (Z.pos c * 10 ^ z) as [|q|q] eqn:E; [lia| |lia]. unfold of_decimal. by rewrite Z.mul_1_r.
Qed.

(** The text of a number is that of its digits with the point moved. *)
Lemma formatDigits_number c p (digs := bytes_of (pretty c)) :
  0 < c → ∃ ip fp ex v, formatDigits digs (Z.of_nat (length digs) + p) = number_text ip fp ex ∧
    ip ≠ [] ∧ digits ip ∧ digits fp ∧ digits_value (ip ++ fp) 0 = Some v ∧
    default 0 ex ∈ [0; Z.of_nat (length digs) + p - 1] ∧
    of_decimal v (default 0 ex - Z.of_nat (length fp)) = of_decimal c p.
Proof.
  intros Hc. pose proof (pretty_digits c ltac:(lia)) as Hd. pose proof (pretty_value c ltac:(lia)) as Hv.
  pose proof (pretty_nonempty c) as Hne. fold digs in Hd, Hv, Hne.
  set (nd := Z.of_nat (length digs)). assert (0 < nd) by (destruct digs; [done|cbn in nd; lia]).
  set (dp := nd + p). unfold formatDigits. destruct ((dp - 1 <? -4) || (6 <=? dp - 1)).
  - exists (take 1 digs), (drop 1 digs), (Some (dp - 1)), c.
    rewrite take_drop. split_and!; [|destruct digs; [done|]; done|by apply Forall_take|by apply Forall_drop|done|set_solver|].
    + unfold fmtE, number_text. f_equal. destruct digs as [|a [|b l]]; [done..|].
      rewrite !bool_decide_false by done. done.
    + cbn [default]. f_equal. rewrite length_drop. unfold id, dp, nd. lia.
  - unfold fmtF. fold nd. destruct (Z.leb_spec dp 0); [|destruct (Z.ltb_spec dp nd)].
    + exists ["0"%char], (zero_digits (- dp) ++ digs), None, c. split_and!; [|done|by repeat constructor| | |set_solver|].
      * unfold number_text. rewrite bool_decide_false, app_nil_r; [done|]. intros [_ E]%app_eq_nil. done.
      * apply Forall_app. split; [apply zero_digits_ok|done].
      * cbn [app]. rewrite digits_value_cons by done.
        rewrite (digits_value_app _ _ _ 0); [done|apply zero_digits_ok|]. by rewrite digits_value_zeros by lia.
      * cbn [default]. f_equal. rewrite length_app. unfold zero_digits. rewrite length_replicate. lia.
    + exists (take (Z.to_nat dp) digs), (drop (Z.to_nat dp) digs), None, c.
      rewrite take_drop. split_and!; [| |by apply Forall_take|by apply Forall_drop|done|set_solver|].
      * unfold number_text. rewrite bool_decide_false, app_nil_r; [done|].
        intros E%(f_equal length). rewrite length_drop in E. cbn in E. lia.
      * intros E%(f_equal length). rewrite length_take in E. cbn in E. lia.
      * cbn [default]. f_equal. rewrite length_drop. lia.
    + exists (digs ++ zero_digits (dp - nd)), [], None, (c * 10 ^ p).
      split_and!; [|by destruct digs| |done| |set_solver|].
      * unfold number_text. by rewrite app_nil_r.
      * apply Forall_app. split; [done|apply zero_digits_ok].
      * rewrite app_nil_r, (digits_value_app _ _ _ c) by done. rewrite digits_value_zeros by lia.
        f_equal. f_equal. f_equal. lia.
      * cbn [default length]. rewrite Z.sub_0_r. apply of_decimal_shift; lia.
Qed.

(** What the float formatter prints reads back as the very float: for every
    float the shortest search settles on, and for zeros, infinities and NaN. *)
Theorem format_reads_back x :
  in_format x → (∀ s m e, x = S754_finite s m e → is_Some (shortest m e)) →
  ParseFloat (FormatFloat x) = Some x.
Proof.
  intros Hx Hs. destruct x as [s|s| |s m e]; [by destruct s..|done|].
  destruct (Hs s m e eq_refl) as [[c p] E]. unfold FormatFloat. rewrite E. cbn [default from_option id].
  cbv beta iota zeta. destruct (shortest_spec m e Hx c p E) as (Hdec & Hp & Hlog).
  pose proof (of_decimal_positive _ _ _ _ Hdec) as Hc.
  destruct (formatDigits_number c p Hc) as (ip & fp & ex & v & -> & H1 & H2 & H3 & H4 & H5 & H6).
  fold (sign_text s). pose proof (pretty_bounds c 5400 Hc Hlog) as Hb.
  rewrite length_bytes_of in H5. fold (go_len (pretty c)) in H5.
  rewrite (ParseFloat_number s ip fp ex v); [by rewrite H6, Hdec|done..|].
  repeat (apply elem_of_cons in H5 as [->|H5]; [lia|]). by apply elem_of_nil in H5.
Qed.
