(* ===== verification/GoDuration.v ===== *)
(** * [time.ParseDuration] and [strconv.ParseBool]

    A duration is a sign and a sequence of decimal numbers, each with an
    optional fraction and a unit; sums beyond [int64] nanoseconds are errors. *)
From Stdlib Require Import Ascii.
From S2P Require Import Prelude GoStrings GoFloat ParseFloat.

Definition ParseBool (s : string) : option bool :=
  if bool_decide (s ∈ ["1"; "t"; "T"; "TRUE"; "true"; "True"]) then Some true
  else if bool_decide (s ∈ ["0"; "f"; "F"; "FALSE"; "false"; "False"]) then Some false
  else None.

(** The digits at the front, as an integer; [None] past [1<<63]. *)
Fixpoint leadingInt (x : Z) (l : list ascii) : option (Z * list ascii) :=
  match l with
  | a :: l' =>
      match digit a with
      | Some d =>
          if 2 ^ 63 / 10 <? x then None
          else let x := x * 10 + d in if 2 ^ 63 <? x then None else leadingInt x l'
      | None => Some (x, l)
      end
  | [] => Some (x, [])
  end.
(** The digits of a fraction, with the power of ten they are over; digits past
    the precision are read and dropped. *)
Fixpoint leadingFraction (x : Z) (scale : float64) (overflow : bool) (l : list ascii) : Z * float64 * list ascii :=
  match l with
  | a :: l' =>
      match digit a with
      | Some d =>
          if overflow then leadingFraction x scale true l'
          else if (2 ^ 63 - 1) / 10 <? x then leadingFraction x scale true l'
          else let y := x * 10 + d in
               if 2 ^ 63 <? y then leadingFraction x scale true l'
               else leadingFraction y (fmul scale (of_int 10)) false l'
      | None => (x, scale, l)
      end
  | [] => (x, scale, [])
  end.
Fixpoint take_unit (l : list ascii) : list ascii * list ascii :=
  match l with
  | a :: l' =>
      if is_char 46 a || in_range 48 57 a then ([], l)
      else let '(u, rest) := take_unit l' in (a :: u, rest)
  | [] => ([], [])
  end.

Definition unitMap (u : string) : option Z :=
  if bool_decide (u = "ns") then Some 1
  else if bool_decide (u = "us") || bool_decide (u = of_bytes (ascii_of_N <$> [194; 181; 115]%N)) ||
          bool_decide (u = of_bytes (ascii_of_N <$> [206; 188; 115]%N)) then Some 1000
  else if bool_decide (u = "ms") then Some 1000000
  else if bool_decide (u = "s") then Some second
  else if bool_decide (u = "m") then Some (60 * second)
  else if bool_decide (u = "h") then Some (3600 * second)
  else None.

(** One number with its unit: the nanoseconds it adds, and what is left. *)
Definition next_part (l : list ascii) : option (Z * list ascii) :=
  match l with
  | [] => None
  | a :: _ =>
      if negb (is_char 46 a || in_range 48 57 a) then None
      else
        match leadingInt 0 l with
        | None => None
        | Some (v, l1) =>
            let pre := negb (bool_decide (length l1 = length l)) in
            let '(f, scale, l2, post) :=
              match l1 with
              | b :: l1' =>
                  if is_char 46 b then
                    let '(f, scale, l2) := leadingFraction 0 (of_int 1) false l1' in
                    (f, scale, l2, negb (bool_decide (length l2 = length l1')))
                  else (0, of_int 1, l1, false)
              | [] => (0, of_int 1, l1, false)
              end in
            if negb pre && negb post then None
            else
              let '(u, rest) := take_unit l2 in
              match u, unitMap (of_bytes u) with
              | _ :: _, Some unit_ =>
                  if 2 ^ 63 / unit_ <? v then None
                  else
                    let v := v * unit_ in
                    let v := if 0 <? f then v + to_int (fmul (of_int f) (fdiv (of_int unit_) scale)) else v in
                    if (0 <? f) && (2 ^ 63 <? v) then None else Some (v, rest)
              | _, _ => None
              end
        end
  end.
(** The loop; every turn reads at least one byte. *)
Fixpoint sum_parts (fuel : nat) (d : Z) (l : list ascii) : option Z :=
  match l, fuel with
  | [], _ => Some d
  | _, O => None
  | _, S fuel =>
      match next_part l with
      | None => None
      | Some (v, rest) => if 2 ^ 63 <? d + v then None else sum_parts fuel (d + v) rest
      end
  end.
Definition ParseDuration (s : string) : option duration :=
  let '(neg, l) :=
    match bytes_of s with
    | a :: l => if is_char 45 a then (true, l) else if is_char 43 a then (false, l) else (false, a :: l)
    | [] => (false, [])
    end in
  if bool_decide (l = bytes_of "0") then Some 0
  else if bool_decide (l = []) then None
  else
    match sum_parts (length l) 0 l with
    | None => None
    | Some d =>
        if (neg : bool) then Some (- d) else if 2 ^ 63 - 1 <? d then None else Some d
    end.

Example duration_mixed : ParseDuration "-1h1.5s" = Some (- 3601500000000).
Proof. vm_compute. reflexivity. Qed.
Example duration_bounds :
  ParseDuration "9223372036854775807ns" = Some int64_max ∧ ParseDuration "9223372036854775808ns" = None ∧
  ParseDuration "-9223372036854775808ns" = Some int64_min ∧ ParseDuration "3" = None ∧ ParseDuration ".s" = None.
Proof. vm_compute. done. Qed.

(** ** The loop ends *)
Lemma leadingInt_suffix x l v r : leadingInt x l = Some (v, r) → r `suffix_of` l.
Proof.
  revert x. induction l as [|a l IH]; intros x; cbn [leadingInt]; [by intros [= _ <-]|].
  destruct (digit a); [|by intros [= _ <-]]. destruct (_ <? x); [done|]. destruct (_ <? _); [done|].
  intros Hs%IH. by apply suffix_cons_r.
Qed.
Lemma leadingFraction_suffix x s o l : (leadingFraction x s o l).2 `suffix_of` l.
Proof.
  revert x s o. induction l as [|a l IH]; intros x s o; cbn [leadingFraction]; [done|].
  destruct (digit a); [|done]. destruct o; [by apply suffix_cons_r|].
  destruct (_ <? x); [by apply suffix_cons_r|]. destruct (_ <? _); by apply suffix_cons_r.
Qed.
Lemma take_unit_app l : l = (take_unit l).1 ++ (take_unit l).2.
Proof.
  induction l as [|a l IH]; cbn [take_unit]; [done|]. destruct (_ || _); [done|].
  destruct (take_unit l); cbn in *. by f_equal.
Qed.
Lemma next_part_shorter l v rest : next_part l = Some (v, rest) → (length rest < length l)%nat.
Proof.
  unfold next_part. destruct l as [|a l]; [done|]. destruct (negb _); [done|].
  destruct (leadingInt 0 (a :: l)) as [[x l1]|] eqn:H1; [|done]. apply leadingInt_suffix, suffix_length in H1.
  set (fr := match l1 with [] => _ | b :: l1' => _ end).
  assert (length fr.1.2 <= length l1)%nat as Hfr.
  { unfold fr. destruct l1 as [|b l1']; [done|]. destruct (is_char 46 b); [|done].
    pose proof (leadingFraction_suffix 0 (of_int 1) false l1') as Hs%suffix_length.
    destruct (leadingFraction _ _ _ l1') as [[f s] l2]. cbn in *. lia. }
  destruct fr as [[[f scale] l2] post]. cbn in Hfr. destruct (negb _ && _); [done|].
  pose proof (take_unit_app l2) as Hu. destruct (take_unit l2) as [u r]. cbn in Hu.
  apply (f_equal length) in Hu. rewrite length_app in Hu.
  destruct u as [|b u]; [done|]. destruct (unitMap _); [|done]. destruct (_ <? x); [done|].
  destruct (_ && _); [done|]. intros [= _ <-]. cbn in *. lia.
Qed.
(** One turn per byte is fuel enough: more changes nothing. *)
Lemma sum_parts_fuel n m d l :
  (length l <= n)%nat → (length l <= m)%nat → sum_parts n d l = sum_parts m d l.
Proof.
  revert m d l. induction n as [|n IH]; intros m d l Hn Hm; (destruct l as [|a l]; [by destruct m|]); cbn [length] in *; [lia|].
  destruct m as [|m]; [lia|]. cbn [sum_parts]. destruct (next_part (a :: l)) as [[v rest]|] eqn:E; [|done].
  apply next_part_shorter in E. cbn in E. destruct (_ <? _); [done|]. apply IH; lia.
Qed.
