(* ===== verification/LoadProfile.v ===== *)
(** * Load profiles and simplified modes

    [internal/domain/loadprofile] and the mode table of
    [internal/domain/loadmode]: one scenario's load (an [Entry]), the set of
    entries an execution runs (a [Profile]), their validation, and the totals
    quota and lifecycle read off them. *)
From S2P Require Import Prelude Errors GoFloat.

(** ** Modes ([internal/domain/loadmode]) *)
Module Loadmode.
Definition Mode := string.
Definition ModeBurst : Mode := "burst".
Definition ModeRamp : Mode := "ramp".
Definition ModeSoak : Mode := "soak".
Definition ModeStaircase : Mode := "staircase".

Definition rampWindowDivisor : Z := 5.
Definition rampMinSeconds : Z := 60.
Definition rampMaxSeconds : Z := 600.
Definition soakWarmupSeconds : Z := 60.
Definition StaircaseStepsDefault : Z := 5.
Definition StaircaseStepsMin : Z := 2.
Definition StaircaseStepsMax : Z := 10.
Definition StaircaseMinDurationSeconds : Z := 60.

Definition Valid (m : Mode) : bool :=
  bool_decide (m = ModeBurst) || bool_decide (m = ModeRamp) ||
  bool_decide (m = ModeSoak) || bool_decide (m = ModeStaircase).

Definition ParseMode (s : string) : result error Mode :=
  if negb (Valid s) then Err ErrModeInvalid else Ok s.

Definition RampupSeconds (m : Mode) (durationSeconds : Z) : Z :=
  if bool_decide (m = ModeBurst) then 0
  else if bool_decide (m = ModeSoak) then soakWarmupSeconds
  else if bool_decide (m = ModeStaircase) then 0
  else if bool_decide (m = ModeRamp) then
    let r := go_div durationSeconds rampWindowDivisor in
    if r <? rampMinSeconds then rampMinSeconds
    else if rampMaxSeconds <? r then rampMaxSeconds
    else r
  else 0.

(** *** The step table of a staircase *)
Record StaircaseStep := mkStaircaseStep {
  stp_Index : Z; stp_Throughput : Z; stp_Concurrency : Z
}.

Definition staircase_step (concurrency throughput steps i : Z) : StaircaseStep :=
  let share := fdiv (of_int (i +w 1)) (of_int steps) in
  let rate := to_int (fround (fmul (of_int throughput) share)) in
  let conc := to_int (fceil (fmul (of_int concurrency) share)) in
  mkStaircaseStep i (if rate <? 1 then 1 else rate) (if conc <? 1 then 1 else conc).

Definition StaircaseSteps (concurrency throughput steps : Z) : list StaircaseStep :=
  if steps <? StaircaseStepsMin then []
  else
    ((λ i, staircase_step concurrency throughput steps (Z.of_nat i)) <$>
       seq 0 (Z.to_nat (steps - 1))) ++
    [mkStaircaseStep (steps - 1) throughput concurrency].
End Loadmode.

(** ** Entries *)
Record Entry := mkEntry {
  Name : string;
  ScenarioID : Z;
  Concurrency : Z;
  Rampup : Z;
  Engines : Z;
  Throughput : Z;
  Duration : Z;
  CSVSplit : bool;
  Mode : string;
  Steps : Z
}.

#[global] Instance Entry_eq_dec : EqDecision Entry.
Proof. solve_decision. Defined.

Definition isStaircase (ep : Entry) : bool :=
  bool_decide (Mode ep = Loadmode.ModeStaircase).

(** [Entry.Validate]: the first failing case of the switch decides the error. *)
Definition Entry_Validate (ep : Entry) : result error unit :=
  if ScenarioID ep <=? 0 then Err ErrLPScenarioRequired
  else if Engines ep <=? 0 then Err ErrLPEnginesInvalid
  else if Concurrency ep <=? 0 then Err ErrLPConcurrencyInvalid
  else if Duration ep <=? 0 then Err ErrLPDurationInvalid
  else if Throughput ep <? 0 then Err ErrLPThroughputInvalid
  else if bool_decide (Mode ep ≠ "") && negb (Loadmode.Valid (Mode ep))
    then Err ErrLPModeInvalid
  else if bool_decide (Mode ep ≠ "") && (Throughput ep <=? 0)
    then Err ErrLPModeThroughput
  else if negb (isStaircase ep) && negb (Steps ep =? 0) then Err ErrLPStepsInvalid
  else if isStaircase ep &&
          ((Steps ep <? Loadmode.StaircaseStepsMin) || (Loadmode.StaircaseStepsMax <? Steps ep))
    then Err ErrLPStepsInvalid
  else if isStaircase ep && (Duration ep <? Loadmode.StaircaseMinDurationSeconds)
    then Err ErrLPStaircaseDuration
  else Ok tt.

(** ** Profiles *)
Record Profile := mkProfile {
  ProfileName : string;
  ProfileProjectID : Z;
  ProfileExecutionID : Z;
  Tests : list Entry;
  ProfileCSVSplit : bool;
  Criteria : list string
}.

(** The composite literal [loadprofile.Profile{Tests: ...}]. *)
Definition profile_of (tests : list Entry) : Profile :=
  mkProfile "" 0 0 tests false [].

Fixpoint validate_entries (l : list Entry) : result error unit :=
  match l with
  | [] => Ok tt
  | ep :: l' => _ ← Entry_Validate ep; validate_entries l'
  end.

Definition Profile_Validate (ec : Profile) : result error unit :=
  match Tests ec with
  | [] => Err ErrLPNoScenarios
  | _ => validate_entries (Tests ec)
  end.

Definition TotalEngines (ec : Profile) : Z := sum64 Engines (Tests ec).

Definition entrySeconds (ep : Entry) : Z :=
  if 1 <? Steps ep then Rampup ep +w (Duration ep *w Steps ep)
  else Rampup ep +w Duration ep.

Definition LongestDurationSeconds (ec : Profile) : Z :=
  fold_left (λ longest ep, if longest <? entrySeconds ep then entrySeconds ep else longest)
            (Tests ec) 0.

(** ** Properties *)

(** What a validated entry satisfies. *)
Definition entry_ok (ep : Entry) : Prop :=
  0 < ScenarioID ep ∧ 0 < Engines ep ∧ 0 < Concurrency ep ∧ 0 < Duration ep ∧
  0 <= Throughput ep ∧
  (Mode ep = "" ∧ Steps ep = 0 ∨
   Loadmode.Valid (Mode ep) = true ∧ 0 < Throughput ep ∧
   (Mode ep ≠ Loadmode.ModeStaircase ∧ Steps ep = 0 ∨
    Mode ep = Loadmode.ModeStaircase ∧ 2 <= Steps ep <= 10 ∧ 60 <= Duration ep)).

Lemma staircase_not_empty : Loadmode.ModeStaircase ≠ "".
Proof. done. Qed.

Lemma Entry_Validate_ok ep : Entry_Validate ep = Ok tt ↔ entry_ok ep.
Proof.
  unfold Entry_Validate, entry_ok, isStaircase,
    Loadmode.StaircaseStepsMin, Loadmode.StaircaseStepsMax,
    Loadmode.StaircaseMinDurationSeconds.
  pose proof staircase_not_empty.
  split.
  - intros Hv.
    repeat match type of Hv with
    | context [if ?b then _ else _] => destruct b eqn:?; [discriminate Hv|]
    end.
    repeat match goal with
    | H : (_ <=? _) = false |- _ => apply Z.leb_gt in H
    | H : (_ <? _) = false |- _ => apply Z.ltb_ge in H
    end.
    repeat split; try lia.
    destruct (bool_decide_reflect (Mode ep = "")) as [E|E].
    + left. split; [done|].
      rewrite bool_decide_eq_false_2 in * by congruence. simpl in *.
      to_prop. lia.
    + right. rewrite bool_decide_eq_true_2 in * by done. simpl in *. to_prop.
      repeat split; [done|lia|].
      destruct (bool_decide_reflect (Mode ep = Loadmode.ModeStaircase)); simpl in *; to_prop.
      * right. repeat split; try done; lia.
      * left. split; [done|lia].
  - intros (? & ? & ? & ? & ? & Hm).
    rewrite !(proj2 (Z.leb_gt _ 0)) by lia.
    rewrite (proj2 (Z.ltb_ge _ 0)) by lia.
    destruct Hm as [[-> ->]|(HV & Ht & Hm)].
    + done.
    + rewrite HV, (proj2 (Z.leb_gt _ 0) Ht), !andb_false_r.
      destruct Hm as [[Hn ->]|(-> & [? ?] & ?)].
      * by rewrite bool_decide_eq_false_2.
      * rewrite bool_decide_eq_true_2 by done. simpl.
        rewrite !(proj2 (Z.ltb_ge _ _)) by lia. done.
Qed.

Lemma validate_entries_ok l : validate_entries l = Ok tt ↔ Forall entry_ok l.
Proof.
  induction l as [|ep l IH]; simpl; [split; [constructor|done]|].
  rewrite List.Forall_cons_iff, <- IH, <- Entry_Validate_ok.
  unfold mbind, result_bind. destruct (Entry_Validate ep) as [[]|]; naive_solver.
Qed.

(** Validation succeeds exactly on the non-empty profiles of valid entries. *)
Lemma Profile_Validate_ok ec :
  Profile_Validate ec = Ok tt ↔ Tests ec ≠ [] ∧ Forall entry_ok (Tests ec).
Proof.
  unfold Profile_Validate. destruct (Tests ec) as [|ep l] eqn:E; [naive_solver|].
  rewrite validate_entries_ok. naive_solver.
Qed.

Lemma TotalEngines_sum ec :
  in_int64 (sumZ Engines (Tests ec)) → TotalEngines ec = sumZ Engines (Tests ec).
Proof. apply sum64_small. Qed.

(** The longest entry bounds every entry and is attained, or is zero. *)
Lemma LongestDurationSeconds_spec ec :
  0 <= LongestDurationSeconds ec ∧
  (∀ ep, ep ∈ Tests ec → entrySeconds ep <= LongestDurationSeconds ec) ∧
  (LongestDurationSeconds ec = 0 ∨
   ∃ ep, ep ∈ Tests ec ∧ LongestDurationSeconds ec = entrySeconds ep).
Proof.
  unfold LongestDurationSeconds.
  assert (∀ l a, let r := fold_left (λ longest ep,
      if longest <? entrySeconds ep then entrySeconds ep else longest) l a in
      a <= r ∧ (∀ ep, ep ∈ l → entrySeconds ep <= r) ∧
      (r = a ∨ ∃ ep, ep ∈ l ∧ r = entrySeconds ep)) as H; [|apply (H (Tests ec) 0)].
  induction l as [|ep l IH]; intros a; simpl.
  - split; [lia|]. split; [by intros ? ?%elem_of_nil|by left].
  - destruct (Z.ltb_spec a (entrySeconds ep)) as [Hlt|Hge].
    + destruct (IH (entrySeconds ep)) as (? & Hall & Hex). repeat split; [lia| |].
      * intros ep' [->|?]%elem_of_cons; [done|auto].
      * right. destruct Hex as [->|(ep' & ? & ->)]; [exists ep; by repeat constructor|].
        exists ep'. split; [by right|done].
    + destruct (IH a) as (? & Hall & Hex). repeat split; [lia| |].
      * intros ep' [->|?]%elem_of_cons; [lia|auto].
      * destruct Hex as [->|(ep' & ? & ->)]; [by left|].
        right. exists ep'. split; [by right|done].
Qed.

(** A ramp takes a fifth of the window, clamped to [60s, 600s]. *)
Lemma RampupSeconds_ramp d :
  in_int64 d →
  Loadmode.RampupSeconds Loadmode.ModeRamp d = Z.max 60 (Z.min 600 (Z.quot d 5)).
Proof.
  unfold in_int64, int64_min, int64_max. intros Hd.
  unfold Loadmode.RampupSeconds, go_div, Loadmode.rampMinSeconds, Loadmode.rampMaxSeconds,
    Loadmode.rampWindowDivisor. simpl.
  rewrite wrap64_small by (unfold in_int64, int64_min, int64_max; Z.to_euclidean_division_equations; lia).
  destruct (Z.ltb_spec (Z.quot d 5) 60); [lia|].
  destruct (Z.ltb_spec 600 (Z.quot d 5)); lia.
Qed.
