(* ===== verification/Shard.v ===== *)
(** * Sharding a load across engine pods ([internal/domain/shard])

    [Plan] divides an entry's virtual users and request rate across pods;
    [Split] is the division each share is taken from. *)
From S2P Require Import Prelude Errors LoadProfile.

Record Shard := mkShard {
  Index : Z;
  ShardConcurrency : Z;
  ShardThroughput : Z;
  RampupSeconds : Z;
  DurationSeconds : Z
}.

(** Go's [/] and [%] panic on a zero divisor; [Plan] never passes one. *)
Definition Split (total n i : Z) : Z :=
  let base := go_div total n in
  let extra := go_rem total n in
  if i <? extra then base +w 1 else base.

(** The body of [Plan]'s loop for shard [i] of [n]. *)
Definition planShard (e : Entry) (n : Z) (i : nat) : Shard :=
  mkShard (Z.of_nat i) (Split (Concurrency e) n (Z.of_nat i))
          (Split (Throughput e) n (Z.of_nat i)) (Rampup e) (Duration e).

Definition Plan (e : Entry) (n : Z) : result error (list Shard) :=
  if n <=? 0 then Err ErrShardsInvalid
  else if Concurrency e <=? 0 then Err ErrShardConcurrencyInvalid
  else
    let n := if Concurrency e <? n then Concurrency e else n in
    Ok (planShard e n <$> seq 0 (Z.to_nat n)).

Definition Total (shards : list Shard) : Z * Z :=
  (sum64 ShardConcurrency shards, sum64 ShardThroughput shards).

(** ** Shares *)
Section split.
Context (total n : Z) (Htotal : 0 <= total <= int64_max) (Hn : 0 < n).

Lemma Split_value i :
  0 <= i → Split total n i = total / n + (if i <? total mod n then 1 else 0).
Proof using Htotal Hn.
  intros Hi. unfold Split, go_div, go_rem. unfold int64_max in *.
  rewrite Z.rem_mod_nonneg, Z.quot_div_nonneg by lia.
  pose proof (Z.div_pos total n ltac:(lia) Hn).
  assert (total / n <= total) by (apply Z.div_le_upper_bound; nia).
  rewrite (wrap64_small (total / n)) by (unfold in_int64, int64_min, int64_max; lia).
  destruct (Z.ltb_spec i (total mod n)); [|lia].
  apply wrap64_small. unfold in_int64, int64_min, int64_max.
  assert (1 < n) by (destruct (decide (n = 1)) as [->|]; [rewrite Z.mod_1_r in *|]; lia).
  assert (0 < total) by (destruct (decide (total = 0)) as [->|]; [rewrite Z.mod_0_l in *|]; lia).
  pose proof (Z.div_lt total n). lia.
Qed.

(** The first [k] shares add up to [k] bases and the remainders they take. *)
Lemma Split_prefix_sum k :
  sumZ (λ i, Split total n (Z.of_nat i)) (seq 0 k) =
  Z.of_nat k * (total / n) + Z.min (Z.of_nat k) (total mod n).
Proof using Htotal Hn.
  pose proof (Z.mod_pos_bound total n Hn).
  induction k as [|k IH]; [simpl; lia|].
  rewrite seq_S, sumZ_app, IH. simpl. rewrite Split_value by lia.
  destruct (Z.ltb_spec (Z.of_nat k) (total mod n)); lia.
Qed.

Lemma Split_sum :
  sumZ (λ i, Split total n (Z.of_nat i)) (seq 0 (Z.to_nat n)) = total.
Proof using Htotal Hn.
  rewrite Split_prefix_sum, Z2Nat.id by lia.
  pose proof (Z.mod_pos_bound total n Hn).
  pose proof (Z.div_mod total n). lia.
Qed.

Lemma Split_antitone i j : 0 <= i <= j → Split total n j <= Split total n i.
Proof using Htotal Hn.
  intros. rewrite !Split_value by lia.
  destruct (Z.ltb_spec i (total mod n)), (Z.ltb_spec j (total mod n)); lia.
Qed.

Lemma Split_balanced i j : 0 <= i → 0 <= j → Split total n i <= Split total n j + 1.
Proof using Htotal Hn. intros. rewrite !Split_value by lia. go_case; lia. Qed.

Lemma Split_bounds i : 0 <= i → 0 <= Split total n i <= total.
Proof using Htotal Hn.
  intros Hi. rewrite Split_value by done.
  pose proof (Z.div_pos total n ltac:(lia) Hn).
  pose proof (Z.mod_pos_bound total n Hn). pose proof (Z.div_mod total n).
  destruct (Z.ltb_spec i (total mod n)); nia.
Qed.

Lemma Split_pos i : 0 <= i → n <= total → 0 < Split total n i.
Proof using Htotal Hn.
  intros Hi Hle. rewrite Split_value by done.
  assert (1 <= total / n) by (apply Z.div_le_lower_bound; lia). go_case; lia.
Qed.

(** Shares past the total are zero: there is nothing left to hand out. *)
Lemma Split_zero i : total <= i → total < n → Split total n i = 0.
Proof using Htotal Hn.
  intros ? ?. rewrite Split_value, Z.div_small, Z.mod_small by lia.
  destruct (Z.ltb_spec i total); lia.
Qed.
End split.

(** ** Plans *)
Definition pods (e : Entry) (n : Z) : Z := Z.min n (Concurrency e).

Lemma Plan_ok_inv e n shards :
  Plan e n = Ok shards →
  0 < n ∧ 0 < Concurrency e ∧ shards = planShard e (pods e n) <$> seq 0 (Z.to_nat (pods e n)).
Proof.
  unfold Plan, pods. intros H. go_case; to_prop; simplify_eq.
  - rewrite Z.min_r by lia. repeat split; lia.
  - rewrite Z.min_l by lia. repeat split; lia.
Qed.

Lemma Plan_total e n :
  0 < n → 0 < Concurrency e →
  Plan e n = Ok (planShard e (pods e n) <$> seq 0 (Z.to_nat (pods e n))).
Proof.
  intros. unfold Plan, pods. rewrite !(proj2 (Z.leb_gt _ 0)) by lia.
  destruct (Z.ltb_spec (Concurrency e) n).
  - by rewrite Z.min_r by lia.
  - by rewrite Z.min_l by lia.
Qed.

Lemma Plan_length e n shards :
  Plan e n = Ok shards → Z.of_nat (length shards) = Z.min n (Concurrency e).
Proof.
  intros (? & ? & ->)%Plan_ok_inv. unfold pods.
  rewrite length_fmap, length_seq, Z2Nat.id; lia.
Qed.

Lemma Plan_lookup e n shards i sh :
  Plan e n = Ok shards → shards !! i = Some sh →
  sh = planShard e (pods e n) i ∧ Z.of_nat i < pods e n.
Proof.
  intros (? & ? & ->)%Plan_ok_inv. rewrite list_lookup_fmap, fmap_Some.
  intros (j & [-> Hj]%lookup_seq & ->). split; [done|lia].
Qed.

Lemma Plan_elem e n shards sh :
  Plan e n = Ok shards → sh ∈ shards → ∃ i, sh = planShard e (pods e n) i ∧ Z.of_nat i < pods e n.
Proof. intros HP [i Hi]%list_elem_of_lookup. exists i. by eapply Plan_lookup. Qed.

Lemma pods_pos e n shards : Plan e n = Ok shards → 0 < pods e n <= Concurrency e.
Proof. intros (? & ? & _)%Plan_ok_inv. unfold pods. lia. Qed.

Lemma Plan_share_sum e n shards (g : Shard → Z) v :
  Plan e n = Ok shards → 0 <= v <= int64_max →
  (∀ i, g (planShard e (pods e n) i) = Split v (pods e n) (Z.of_nat i)) →
  sum64 g shards = v.
Proof.
  intros HP Hv Hg. pose proof (pods_pos _ _ _ HP).
  destruct (Plan_ok_inv _ _ _ HP) as (_ & _ & ->).
  assert (sumZ g (planShard e (pods e n) <$> seq 0 (Z.to_nat (pods e n))) = v) as Hs.
  { rewrite sumZ_fmap, (sumZ_ext _ (λ i, Split v (pods e n) (Z.of_nat i))).
    - apply Split_sum; lia.
    - intros i _. apply Hg. }
  rewrite sum64_small; rewrite Hs; [done|].
  unfold in_int64, int64_min, int64_max in *. lia.
Qed.

(** Sharding loses no load: whatever number of pods is asked for, a plan's
    virtual users add up to the entry's, its request rates to the entry's rate,
    and it has one pod per requested shard or per virtual user, whichever is
    fewer. *)
Theorem plan_preserves_load e n shards :
  Plan e n = Ok shards →
  Concurrency e <= int64_max → 0 <= Throughput e <= int64_max →
  Total shards = (Concurrency e, Throughput e) ∧
  Z.of_nat (length shards) = Z.min n (Concurrency e).
Proof.
  intros HP Hc Ht. split; [|by eapply Plan_length]. unfold Total.
  pose proof (pods_pos _ _ _ HP).
  f_equal; eapply Plan_share_sum; eauto; lia.
Qed.

Definition entry_10_over_4 : Entry := mkEntry "checkout" 7 10 5 4 6 60 false "" 0.

Lemma plan_preserves_load_witness :
  ∃ shards, Plan entry_10_over_4 4 = Ok shards ∧ Total shards = (10, 6).
Proof.
  eexists. split; [reflexivity|].
  refine (proj1 (plan_preserves_load entry_10_over_4 4 _ eq_refl _ _));
    vm_compute; intuition discriminate.
Defined.

(** Every pod of a plan gets at least one virtual user, no pod carries more
    than one user above any other, earlier pods never carry less than later
    ones, and each keeps its position and the entry's ramp-up and duration. *)
Theorem plan_balanced e n shards i j si sj :
  Plan e n = Ok shards → Concurrency e <= int64_max →
  shards !! i = Some si → shards !! j = Some sj →
  Index si = Z.of_nat i ∧ 0 < ShardConcurrency si ∧
  ShardConcurrency si <= ShardConcurrency sj + 1 ∧
  ((i <= j)%nat → ShardConcurrency sj <= ShardConcurrency si) ∧
  RampupSeconds si = Rampup e ∧ DurationSeconds si = Duration e.
Proof.
  intros HP Hc Hi Hj. pose proof (pods_pos _ _ _ HP).
  destruct (Plan_lookup _ _ _ _ _ HP Hi) as [-> _].
  destruct (Plan_lookup _ _ _ _ _ HP Hj) as [-> _]. simpl.
  repeat split.
  - apply Split_pos; lia.
  - apply Split_balanced; lia.
  - intros. apply Split_antitone; lia.
Qed.

Lemma plan_balanced_witness :
  ∃ shards si sj, Plan entry_10_over_4 4 = Ok shards ∧
    shards !! 0%nat = Some si ∧ shards !! 3%nat = Some sj ∧
    ShardConcurrency si <= ShardConcurrency sj + 1.
Proof.
  do 3 eexists. split; [reflexivity|]. split; [reflexivity|]. split; [reflexivity|].
  refine (proj1 (proj2 (proj2
    (plan_balanced entry_10_over_4 4 _ 0 3 _ _ eq_refl _ eq_refl eq_refl))));
    vm_compute; intuition discriminate.
Defined.

(** A rate smaller than the pod count leaves pods with a throughput of
    zero, which a load profile defines as unlimited: a plan of [n] pods for a
    positive rate below [n] has a pod whose rate is not limited at all. *)
Theorem plan_leaves_unlimited_pod e n :
  0 < n <= Concurrency e → Concurrency e <= int64_max →
  0 < Throughput e < n →
  ∃ shards sh, Plan e n = Ok shards ∧ sh ∈ shards ∧
    Index sh = n - 1 ∧ ShardThroughput sh = 0.
Proof.
  intros Hn Hc Ht. rewrite Plan_total by lia.
  assert (pods e n = n) as -> by (unfold pods; lia).
  eexists _, (planShard e n (Z.to_nat (n - 1))). split; [done|]. split.
  - apply list_elem_of_fmap_2, elem_of_seq. lia.
  - simpl. rewrite Z2Nat.id by lia. split; [done|]. apply Split_zero; lia.
Qed.

Definition entry_rate_3_over_5 : Entry := mkEntry "search" 9 10 0 5 3 60 false "" 0.

Lemma plan_leaves_unlimited_pod_witness :
  Entry_Validate entry_rate_3_over_5 = Ok tt ∧
  ∃ shards sh, Plan entry_rate_3_over_5 5 = Ok shards ∧ sh ∈ shards ∧
    Index sh = 4 ∧ ShardThroughput sh = 0.
Proof.
  split; [reflexivity|].
  refine (plan_leaves_unlimited_pod entry_rate_3_over_5 5 _ _ _);
    vm_compute; intuition discriminate.
Defined.
