(* ===== verification/Run.v ===== *)
(** * The run lifecycle ([internal/domain/run])

    The phase of an execution's engines, derived from what is deployed and
    whether a run is open, and the guards each lifecycle request passes. *)
From S2P Require Import Prelude Errors LoadProfile Shard.

Inductive Phase := PhaseIdle | PhaseDeployed | PhaseRunning.

#[global] Instance Phase_eq_dec : EqDecision Phase.
Proof. solve_decision. Defined.

Record Run := mkRun {
  RunID : Z;
  RunExecutionID : Z;
  StartedAt : time;
  EndedAt : option time
}.

Definition Finished (r : Run) : bool := bool_decide (is_Some (EndedAt r)).

Definition Elapsed (r : Run) (now : time) : duration :=
  match EndedAt r with
  | Some e => time_Sub e (StartedAt r)
  | None => time_Sub now (StartedAt r)
  end.

Definition DerivePhase (enginesDeployed : Z) (running : bool) : Phase :=
  if running then PhaseRunning
  else if 0 <? enginesDeployed then PhaseDeployed
  else PhaseIdle.

Definition CanDeploy (phase : Phase) : result error unit :=
  if bool_decide (phase = PhaseRunning) then Err ErrAlreadyRunning else Ok tt.

Definition CanTrigger (phase : Phase) (ec : Profile) (enginesReady : Z) : result error unit :=
  match Tests ec with
  | [] => Err ErrNoScenarios
  | _ =>
      match phase with
      | PhaseIdle => Err ErrNotDeployed
      | PhaseRunning => Err ErrAlreadyRunning
      | PhaseDeployed =>
          if enginesReady <? TotalEngines ec then Err ErrEnginesNotReady else Ok tt
      end
  end.

Definition CanStop (phase : Phase) : result error unit :=
  if bool_decide (phase ≠ PhaseRunning) then Err ErrNotRunning else Ok tt.

Definition VirtualUsers (ec : Profile) : Z :=
  sum64 (λ ep, Engines ep *w Concurrency ep) (Tests ec).

(** ** Properties *)

Lemma DerivePhase_running n b : DerivePhase n b = PhaseRunning ↔ b = true.
Proof. unfold DerivePhase. destruct b; [done|]. destruct (0 <? n); naive_solver. Qed.

Lemma CanDeploy_ok n b : CanDeploy (DerivePhase n b) = Ok tt ↔ b = false.
Proof.
  unfold CanDeploy. destruct b; [done|]. rewrite bool_decide_eq_false_2; [done|].
  by rewrite DerivePhase_running.
Qed.

Lemma CanStop_ok n b : CanStop (DerivePhase n b) = Ok tt ↔ b = true.
Proof.
  unfold CanStop. destruct b; [by rewrite bool_decide_eq_false_2 by naive_solver|].
  rewrite bool_decide_eq_true_2; [naive_solver|]. rewrite DerivePhase_running. done.
Qed.

(** A trigger passes its guard exactly when the profile names a scenario, no
    run is open, some engine is deployed and the pool covers the profile. *)
Lemma CanTrigger_ok pool running ec :
  CanTrigger (DerivePhase pool running) ec pool = Ok tt ↔
  Tests ec ≠ [] ∧ running = false ∧ 0 < pool ∧ TotalEngines ec <= pool.
Proof.
  unfold CanTrigger, DerivePhase.
  destruct (Tests ec); [naive_solver|]. destruct running; [naive_solver|].
  destruct (Z.ltb_spec 0 pool); [|naive_solver lia].
  destruct (Z.ltb_spec pool (TotalEngines ec)); naive_solver lia.
Qed.

(** The usage figure counts every user once per pod: for an entry whose
    plan starts [users] virtual users in all, it is [Engines] times that, not
    [users], since the planner divides the entry's concurrency among its pods. *)
Theorem usage_counts_users_per_pod e shards ec :
  Plan e (Engines e) = Ok shards → Tests ec = [e] →
  0 <= Throughput e <= int64_max → Engines e * Concurrency e <= int64_max →
  VirtualUsers ec = Engines e * (Total shards).1.
Proof.
  intros HP Hec Ht Hfit. destruct (Plan_ok_inv _ _ _ HP) as (Hn & Hc & _).
  assert (Concurrency e <= int64_max) by nia.
  assert (in_int64 (Engines e * Concurrency e)) by (unfold in_int64, int64_min; nia).
  unfold VirtualUsers, Total. rewrite Hec. cbn [fst].
  rewrite (Plan_share_sum _ _ _ ShardConcurrency (Concurrency e) HP) by (done || lia).
  unfold sum64. cbn [fold_left].
  rewrite Z.add_0_l, wrap64_small by apply wrap64_in_int64. by apply wrap64_small.
Qed.

Lemma usage_counts_users_per_pod_witness :
  VirtualUsers (mkProfile "" 3 4 [entry_10_over_4] false []) = 40.
Proof.
  exact (usage_counts_users_per_pod entry_10_over_4 _ (mkProfile "" 3 4 [entry_10_over_4] false [])
    eq_refl eq_refl
    ltac:(vm_compute; split; discriminate) ltac:(vm_compute; discriminate)).
Defined.
