(* ===== verification/Taurus.v ===== *)
(** * Engines and run outcomes ([internal/domain/taurus])

    The executor table and how the exit codes of a run's shards roll up into
    one outcome. *)
From S2P Require Import Prelude.

(** ** Executors *)
Definition Executor := string.
Definition ExecutorJMeter : Executor := "jmeter".
Definition ExecutorK6 : Executor := "k6".
Definition ExecutorGatling : Executor := "gatling".
Definition ExecutorLocust : Executor := "locust".
Definition ExecutorApiritif : Executor := "apiritif".
Definition ExecutorAB : Executor := "ab".
Definition ExecutorSiege : Executor := "siege".

Definition declarativeSupport : gmap Executor bool :=
  list_to_map [ (ExecutorJMeter, true); (ExecutorGatling, true); (ExecutorLocust, true);
                (ExecutorApiritif, true); (ExecutorAB, true); (ExecutorSiege, true);
                (ExecutorK6, false) ].

Definition Known (e : Executor) : bool := bool_decide (is_Some (declarativeSupport !! e)).

(** A missing key reads as Go's zero value. *)
Definition AcceptsDeclarativeRequests (e : Executor) : bool :=
  default false (declarativeSupport !! e).

(** The executors that run a portable scenario, sorted by name. *)
Definition DeclarativeExecutors : list Executor :=
  merge_sort String.le
    (filter (λ kv : Executor * bool, kv.2 = true) (map_to_list declarativeSupport)).*1.

(** ** Outcomes *)
Inductive Outcome := OutcomePassed | OutcomeFailed | OutcomeAborted | OutcomeError.
(** The name an outcome has on the wire. *)
Definition outcome_str (o : Outcome) : string :=
  match o with OutcomePassed => "passed" | OutcomeFailed => "failed" | OutcomeAborted => "aborted"
  | OutcomeError => "error" end.

#[global] Instance Outcome_eq_dec : EqDecision Outcome.
Proof. solve_decision. Defined.

Definition exitNormal : Z := 0.
Definition exitManual : Z := 2.
Definition exitAutomated : Z := 3.

Definition OutcomeFromExitCode (code : Z) : Outcome :=
  if code =? exitNormal then OutcomePassed
  else if code =? exitManual then OutcomeAborted
  else if code =? exitAutomated then OutcomeFailed
  else OutcomeError.

(** [seen] is the set of outcomes that occur; the switch takes the first. *)
Definition WorstOutcome (outcomes : list Outcome) : Outcome :=
  let seen o := bool_decide (o ∈ outcomes) in
  if seen OutcomeError then OutcomeError
  else if seen OutcomeFailed then OutcomeFailed
  else if seen OutcomeAborted then OutcomeAborted
  else OutcomePassed.

Definition CombineOutcomes (codes : list Z) : Outcome :=
  match codes with
  | [] => OutcomeError
  | _ => WorstOutcome (OutcomeFromExitCode <$> codes)
  end.

Definition CountsTowardVerdict (o : Outcome) : bool :=
  bool_decide (o = OutcomePassed) || bool_decide (o = OutcomeFailed).

Definition Command (configPath artifactsDir : string) : list string :=
  let argv := ["bzt"; configPath; "-o"; "settings.check-updates=false"] in
  if bool_decide (artifactsDir ≠ "")
  then argv ++ ["-o"; "settings.artifacts-dir=" +:+ artifactsDir]
  else argv.

(** ** The severity order outcomes are combined by *)
Definition severity (o : Outcome) : Z :=
  match o with
  | OutcomePassed => 0 | OutcomeAborted => 1 | OutcomeFailed => 2 | OutcomeError => 3
  end.

Lemma severity_inj o1 o2 : severity o1 = severity o2 → o1 = o2.
Proof. by destruct o1, o2. Qed.

Lemma WorstOutcome_upper os o : o ∈ os → severity o <= severity (WorstOutcome os).
Proof. intros Ho. unfold WorstOutcome. go_case; destruct o; simpl; try lia; by to_prop. Qed.

Lemma WorstOutcome_attained os : os ≠ [] → WorstOutcome os ∈ os.
Proof.
  intros Hne. unfold WorstOutcome. go_case; to_prop; [done..|].
  destruct os as [|[] os]; [done|by left|..]; exfalso;
    match goal with H : ?o ∉ ?o :: _ |- _ => apply H; by left end.
Qed.

Lemma OutcomeFromExitCode_passed c : OutcomeFromExitCode c = OutcomePassed ↔ c = 0.
Proof. unfold OutcomeFromExitCode. go_case; to_prop; naive_solver. Qed.

Lemma CombineOutcomes_upper codes c :
  c ∈ codes → severity (OutcomeFromExitCode c) <= severity (CombineOutcomes codes).
Proof.
  intros Hc. destruct codes as [|c0 codes]; [by apply elem_of_nil in Hc|].
  apply WorstOutcome_upper. by apply list_elem_of_fmap_2.
Qed.

Lemma CombineOutcomes_attained codes :
  codes ≠ [] → ∃ c, c ∈ codes ∧ CombineOutcomes codes = OutcomeFromExitCode c.
Proof.
  intros Hne. destruct codes as [|c0 codes]; [done|].
  destruct (list_elem_of_fmap_1 OutcomeFromExitCode (c0 :: codes)
    (CombineOutcomes (c0 :: codes))) as (c & -> & ?); [|by exists c].
  by apply WorstOutcome_attained.
Qed.

Lemma CombineOutcomes_passed codes :
  CombineOutcomes codes = OutcomePassed ↔ codes ≠ [] ∧ Forall (λ c, c = 0) codes.
Proof.
  rewrite Forall_forall. split.
  - intros Hp. split; [by intros ->|]. intros c Hc%CombineOutcomes_upper.
    rewrite Hp in Hc. apply OutcomeFromExitCode_passed, severity_inj.
    destruct (OutcomeFromExitCode c); simpl in *; lia.
  - intros [Hne Hall]. destruct (CombineOutcomes_attained codes Hne) as (c & Hc & ->).
    by apply OutcomeFromExitCode_passed, Hall.
Qed.

(** A sharded run's outcome is the most severe of its shards' outcomes in
    the order passed < aborted < failed < error, and no evidence is an error:
    a run passes exactly when it has shards and every one of them exited
    normally. *)
Theorem combine_outcomes_worst codes :
  (codes = [] ↔ ¬ ∃ c, c ∈ codes ∧ CombineOutcomes codes = OutcomeFromExitCode c) ∧
  (∀ c, c ∈ codes → severity (OutcomeFromExitCode c) <= severity (CombineOutcomes codes)) ∧
  (CombineOutcomes codes = OutcomePassed ↔ codes ≠ [] ∧ Forall (λ c, c = 0) codes).
Proof.
  split; [|split].
  - split; [by intros -> (c & ?%elem_of_nil & _)|].
    destruct (decide (codes = [])); [done|]. by destruct 1; apply CombineOutcomes_attained.
  - apply CombineOutcomes_upper.
  - apply CombineOutcomes_passed.
Qed.

Lemma elem_of_DeclarativeExecutors e :
  e ∈ DeclarativeExecutors ↔ AcceptsDeclarativeRequests e = true.
Proof.
  unfold DeclarativeExecutors, AcceptsDeclarativeRequests.
  rewrite merge_sort_Permutation, list_elem_of_fmap. split.
  - intros ([e' b] & Heq & [Hb Hin]%list_elem_of_filter). cbn [fst snd] in *. subst e' b.
    apply elem_of_map_to_list in Hin. unfold Executor in *. by rewrite Hin.
  - destruct (declarativeSupport !! e) as [b|] eqn:He; simpl; [|done]. intros ->.
    exists (e, true). split; [done|]. apply list_elem_of_filter. split; [done|].
    by apply elem_of_map_to_list.
Qed.

Lemma declarative_known e : AcceptsDeclarativeRequests e = true → Known e = true.
Proof.
  unfold AcceptsDeclarativeRequests, Known. intros H. apply bool_decide_eq_true_2.
  by destruct (declarativeSupport !! e).
Qed.
