(* ===== verification/Scenario.v ===== *)
(** * Projects and scenarios ([internal/domain/project], [internal/domain/scenario])

    The two aggregates an execution points at: who owns it, and what traffic it
    sends and which engines can run that traffic. *)
From S2P Require Import Prelude Errors GoStrings Taurus.

Module Project.
Definition MaxNameLen : Z := 100.
Definition MaxOwnerLen : Z := 50.
Definition MaxSIDLen : Z := 25.

Record Project := mkProject {
  prj_ID : Z;
  prj_Name : string;
  prj_Owner : string;
  prj_SID : string;
  prj_TenantID : option Z;
  prj_CreatedBy : string;
  prj_UpdatedBy : string;
  prj_CreatedTime : time
}.

(** Ranging over runes or over bytes accepts the same strings: a digit is one
    byte, and no byte of a longer encoding is a digit. *)
Definition isDigits (s : string) : bool :=
  forallb (λ c, bool_decide (48 <= Z.of_N (byte_of c) <= 57)) (bytes_of s).

Definition Validate (p : Project) : result error unit :=
  if bool_decide (prj_Name p = "") then Err ErrProjNameRequired
  else if MaxNameLen <? go_len (prj_Name p) then Err ErrProjNameTooLong
  else if bool_decide (prj_Owner p = "") then Err ErrProjOwnerRequired
  else if MaxOwnerLen <? go_len (prj_Owner p) then Err ErrProjOwnerTooLong
  else if bool_decide (prj_SID p = "") then Ok tt
  else if MaxSIDLen <? go_len (prj_SID p) then Err ErrSIDTooLong
  else if negb (isDigits (prj_SID p)) then Err ErrSIDInvalid
  else Ok tt.

Definition New (name owner sid : string) : result error Project :=
  let p := mkProject 0 (TrimSpace name) (TrimSpace owner) (TrimSpace sid) None "" "" time_zero in
  match Validate p with
  | Err e => Err e
  | Ok _ => Ok p
  end.
End Project.

Module Scenario.
Definition MaxNameLen : Z := 100.
Definition MaxTemplateNameLen : Z := 128.

Definition Kind := string.
Definition KindPortable : Kind := "portable".
Definition KindNative : Kind := "native".

Record Scenario := mkScenario {
  scn_ID : Z;
  scn_Name : string;
  scn_ProjectID : Z;
  scn_Kind : Kind;
  scn_Engine : Executor;
  scn_TenantID : option Z;
  scn_CreatedBy : string;
  scn_UpdatedBy : string;
  scn_CreatedTime : time;
  scn_IsTemplate : bool;
  scn_TemplateName : string
}.

Definition Validate (s : Scenario) : result error unit :=
  if bool_decide (scn_Name s = "") then Err ErrScenNameRequired
  else if MaxNameLen <? go_len (scn_Name s) then Err ErrScenNameTooLong
  else if scn_IsTemplate s && bool_decide (scn_TemplateName s = "")
    then Err ErrTemplateNameRequired
  else if scn_IsTemplate s && (MaxTemplateNameLen <? go_len (scn_TemplateName s))
    then Err ErrTemplateNameTooLong
  else if negb (scn_IsTemplate s) && bool_decide (scn_TemplateName s ≠ "")
    then Err ErrTemplateNameRequired
  else if (scn_ProjectID s <=? 0) && negb (scn_IsTemplate s) then Err ErrScenProjectRequired
  else if bool_decide (scn_Kind s = KindPortable) then
    if bool_decide (scn_Engine s ≠ "") then Err ErrPortableEnginePinned else Ok tt
  else if bool_decide (scn_Kind s = KindNative) then
    if bool_decide (scn_Engine s = "") then Err ErrNativeEngineRequired
    else if negb (Known (scn_Engine s)) then Err ErrScenEngineUnknown
    else Ok tt
  else Err ErrScenKindUnknown.

Definition validated (s : Scenario) : result error Scenario :=
  match Validate s with
  | Err e => Err e
  | Ok _ => Ok s
  end.

Definition New (name : string) (projectID : Z) : result error Scenario :=
  validated (mkScenario 0 (TrimSpace name) projectID KindPortable "" None "" "" time_zero false "").

Definition NewNative (name : string) (projectID : Z) (engine : Executor) : result error Scenario :=
  validated (mkScenario 0 (TrimSpace name) projectID KindNative engine None "" "" time_zero
               false "").

Definition NewTemplate (name templateName : string) : result error Scenario :=
  validated (mkScenario 0 (TrimSpace name) 0 KindPortable "" None "" "" time_zero true
               (TrimSpace templateName)).

Definition SupportedEngines (s : Scenario) : list Executor :=
  if bool_decide (scn_Kind s = KindNative) then [scn_Engine s]
  else if bool_decide (scn_Kind s = KindPortable) then DeclarativeExecutors
  else [].

Definition CanRunOn (s : Scenario) (engine : Executor) : result error unit :=
  if negb (Known engine) then Err ErrScenEngineUnknown
  else if bool_decide (scn_Kind s = KindNative) then
    if bool_decide (engine ≠ scn_Engine s) then Err ErrEnginePinned else Ok tt
  else if bool_decide (scn_Kind s = KindPortable) then
    if negb (AcceptsDeclarativeRequests engine) then Err ErrEngineNeedsScript else Ok tt
  else Err ErrScenKindUnknown.

Lemma Validate_engine s :
  Validate s = Ok tt →
  scn_Kind s = KindPortable ∧ scn_Engine s = "" ∨
  scn_Kind s = KindNative ∧ Known (scn_Engine s) = true.
Proof.
  unfold Validate. go_case; try done; intros _.
  - left. split; [done|]. by destruct (decide (scn_Engine s = "")).
  - right. split; [done|]. by apply negb_false_iff.
Qed.

(** The engines a valid scenario lists are exactly the engines it can run
    on: a native scenario its own engine only, a portable one every engine that
    takes declarative requests, and there is always at least one. *)
Theorem supported_engines_exact s :
  Validate s = Ok tt →
  SupportedEngines s ≠ [] ∧
  ∀ engine, engine ∈ SupportedEngines s ↔ CanRunOn s engine = Ok tt.
Proof.
  intros [[Hk _]|[Hk Hkn]]%Validate_engine; unfold SupportedEngines, CanRunOn; rewrite Hk.
  - rewrite bool_decide_eq_false_2, bool_decide_eq_true_2 by done. split; [by vm_compute|].
    intros e. rewrite elem_of_DeclarativeExecutors. split.
    + intros He. by rewrite (declarative_known e He), He.
    + destruct (Known e), (AcceptsDeclarativeRequests e); done.
  - rewrite bool_decide_eq_true_2 by done. split; [done|].
    intros e. rewrite list_elem_of_singleton. split.
    + intros ->. rewrite Hkn. simpl. by rewrite bool_decide_eq_false_2 by tauto.
    + destruct (Known e); simpl; [|done].
      destruct (bool_decide_reflect (e ≠ scn_Engine s)) as [|Hn]; [done|]. intros _.
      destruct (decide (e = scn_Engine s)); [done|by destruct Hn].
Qed.

Lemma supported_engines_exact_witness :
  ∃ s, NewNative " checkout " 4 ExecutorGatling = Ok s ∧ scn_Name s = "checkout" ∧
    SupportedEngines s ≠ [] ∧
    ∀ engine, engine ∈ SupportedEngines s ↔ CanRunOn s engine = Ok tt.
Proof.
  eexists. split; [vm_compute; reflexivity|]. split; [reflexivity|].
  apply supported_engines_exact. vm_compute. reflexivity.
Defined.
End Scenario.
