(* ===== verification/Execution.v ===== *)
(** * Executions ([internal/domain/execution])

    The runnable unit: its validation, its kind, and the clusters its engines
    run on (one cluster, or every fan-out target). *)
From S2P Require Import Prelude Errors GoStrings Taurus.

Definition MaxNameLen : Z := 100.

Definition Kind := string.
Definition KindNormal : Kind := "normal".
Definition KindCalibrateEngine : Kind := "calibrate_engine".
Definition knownKinds : gset Kind := {[ KindNormal; KindCalibrateEngine ]}.
Definition Kind_Known (k : Kind) : bool := bool_decide (k ∈ knownKinds).

Record Execution := mkExecution {
  exe_ID : Z;
  exe_Name : string;
  exe_ProjectID : Z;
  exe_Engine : Executor;
  exe_Kind : Kind;
  exe_CPU : string;
  exe_Memory : string;
  exe_Cluster : string;
  exe_FanOutTargets : list string;
  exe_CSVSplit : bool;
  exe_TenantID : option Z;
  exe_CreatedBy : string;
  exe_UpdatedBy : string;
  exe_CreatedTime : time
}.

(** The loop of [NormalizeFanOutTargets]: [seen] and [out] are its variables. *)
Fixpoint normalize_loop (seen : gset string) (out : list string) (targets : list string) :
    result error (list string) :=
  match targets with
  | [] => Ok out
  | t :: ts =>
      let t := TrimSpace t in
      if bool_decide (t = "") then normalize_loop seen out ts
      else if bool_decide (t ∈ seen) then Err ErrFanOutTargetDuplicate
      else normalize_loop ({[t]} ∪ seen) (out ++ [t]) ts
  end.

(** The final [len(out) == 0] case returns a nil slice, the same empty list. *)
Definition NormalizeFanOutTargets (targets : list string) : result error (list string) :=
  normalize_loop ∅ [] targets.

Definition Execution_Validate (c : Execution) : result error unit :=
  if bool_decide (exe_Name c = "") then Err ErrExecNameRequired
  else if MaxNameLen <? go_len (exe_Name c) then Err ErrExecNameTooLong
  else if exe_ProjectID c <=? 0 then Err ErrExecProjectRequired
  else if bool_decide (exe_Engine c ≠ "") && negb (Known (exe_Engine c))
    then Err ErrExecEngineUnknown
  else if bool_decide (exe_Kind c ≠ "") && negb (Kind_Known (exe_Kind c))
    then Err ErrExecKindUnknown
  else match NormalizeFanOutTargets (exe_FanOutTargets c) with
       | Err e => Err e
       | Ok _ => Ok tt
       end.

Definition New (name : string) (projectID : Z) : result error Execution :=
  let c := mkExecution 0 (TrimSpace name) projectID "" KindNormal "" "" "" [] false None
             "" "" time_zero in
  match Execution_Validate c with
  | Err e => Err e
  | Ok _ => Ok c
  end.

Definition IsFanOut (c : Execution) : bool :=
  bool_decide (0 < Z.of_nat (length (exe_FanOutTargets c))).

Definition Clusters (c : Execution) : list string :=
  if IsFanOut c then exe_FanOutTargets c else [exe_Cluster c].

(** ** Properties *)

(** The targets a list names: trimmed, blanks dropped, in order. *)
Definition named_targets (targets : list string) : list string :=
  filter (λ t, t ≠ "") (TrimSpace <$> targets).

Lemma normalize_loop_spec seen out targets :
  (∀ t, t ∈ seen ↔ t ∈ out) → NoDup out →
  normalize_loop seen out targets =
    if decide (NoDup (out ++ named_targets targets))
    then Ok (out ++ named_targets targets) else Err ErrFanOutTargetDuplicate.
Proof.
  unfold named_targets.
  revert seen out. induction targets as [|t ts IH]; intros seen out Hseen Hnd; csimpl.
  - rewrite app_nil_r. by rewrite decide_True.
  - rewrite filter_cons.
    destruct (bool_decide_reflect (TrimSpace t = "")) as [E|E].
    + rewrite (decide_False (P := TrimSpace t ≠ "")) by (intros H; by apply H). by apply IH.
    + rewrite (decide_True (P := TrimSpace t ≠ "")) by done.
      destruct (bool_decide_reflect (TrimSpace t ∈ seen)) as [Hin|Hout].
      * rewrite decide_False; [done|]. apply Hseen in Hin.
        intros (_ & Hx & _)%NoDup_app. apply (Hx (TrimSpace t)); [done|by left].
      * assert (TrimSpace t ∉ out) by (by rewrite <- Hseen).
        rewrite IH; [by rewrite <- app_assoc|set_solver|].
        apply NoDup_app. split; [done|]. split; [|apply NoDup_singleton]. set_solver.
Qed.

Lemma NormalizeFanOutTargets_spec targets :
  NormalizeFanOutTargets targets =
    if decide (NoDup (named_targets targets))
    then Ok (named_targets targets) else Err ErrFanOutTargetDuplicate.
Proof.
  unfold NormalizeFanOutTargets. rewrite normalize_loop_spec; [done|set_solver|constructor].
Qed.

Lemma named_targets_trimmed targets t :
  t ∈ named_targets targets → t ≠ "" ∧ TrimSpace t = t.
Proof.
  unfold named_targets. rewrite list_elem_of_filter, list_elem_of_fmap.
  intros (? & s & -> & _). split; [done|apply TrimSpace_idemp].
Qed.

Lemma named_targets_id l :
  (∀ t, t ∈ l → t ≠ "" ∧ TrimSpace t = t) → named_targets l = l.
Proof.
  unfold named_targets. induction l as [|t l IH]; intros H; [done|]. csimpl.
  destruct (H t ltac:(left)) as [Hne ->]. rewrite filter_cons, decide_True by done.
  f_equal. apply IH. intros. apply H. by right.
Qed.

Lemma named_targets_idemp targets :
  named_targets (named_targets targets) = named_targets targets.
Proof. apply named_targets_id, named_targets_trimmed. Qed.

(** Normalising fan-out targets yields exactly the trimmed, non-blank names
    in their order, with no name twice, and refuses the list exactly when a
    name repeats; normalising an accepted list again changes nothing. *)
Theorem normalize_fan_out_targets_ok targets out :
  NormalizeFanOutTargets targets = Ok out ↔
  out = named_targets targets ∧ NoDup out ∧ ("" ∉ out) ∧
  NormalizeFanOutTargets out = Ok out.
Proof.
  rewrite (NormalizeFanOutTargets_spec targets). split.
  - case_decide as Hnd; [|done]. intros [= <-]. repeat split; try done.
    + intros Hin%named_targets_trimmed. naive_solver.
    + by rewrite NormalizeFanOutTargets_spec, named_targets_idemp, decide_True.
  - intros (-> & Hnd & _). by rewrite decide_True.
Qed.

(** An execution's clusters are never empty. *)
Lemma Clusters_nonempty c : Clusters c ≠ [].
Proof.
  unfold Clusters, IsFanOut. destruct (exe_FanOutTargets c); [done|].
  rewrite bool_decide_eq_true_2; [done|simpl; lia].
Qed.
