(* ===== verification/Rbac.v ===== *)
(** * Accounts, roles and tenants

    [internal/domain/account], [internal/domain/rbac] and
    [internal/domain/tenant]: who a caller is, what a role allows, whether a
    request is authorised, and when a tenant is well formed. *)
From Stdlib Require Import Ascii.
From S2P Require Import Prelude Errors GoStrings.

(** ** Accounts ([account.go]) *)
Module Account.
(** [Tenants] is a Go map: [None] is the nil map, which reads as empty. *)
Record Account := mkAccount {
  Subject : string;
  Email : string;
  Name : string;
  Global : list string;
  Tenants : option (gmap Z (list string))
}.
Definition zero_account : Account := mkAccount "" "" "" [] None.

Definition IsZero (a : Account) : bool := bool_decide (Subject a = "").
Definition HasGlobalRole (a : Account) (name : string) : bool :=
  existsb (λ r, bool_decide (r = name)) (Global a).
Definition tenant_map (a : Account) : gmap Z (list string) := default ∅ (Tenants a).
Definition RolesInTenant (a : Account) (tenantID : Z) : list string :=
  default [] (tenant_map a !! tenantID).
Definition HasTenantAccess (a : Account) (tenantID : Z) : bool :=
  bool_decide (0 < length (RolesInTenant a tenantID))%nat.
Definition TenantIDs (a : Account) : list Z :=
  merge_sort Z.le
    (filter (λ kv : Z * list string, 0 < length kv.2)%nat (map_to_list (tenant_map a))).*1.
End Account.
Import Account.

(** ** Roles and decisions ([rbac.go]) *)
Definition Action := string.
Definition ActionCreate : Action := "create".
Definition ActionRead : Action := "read".
Definition ActionUpdate : Action := "update".
Definition ActionDelete : Action := "delete".
Definition ActionList : Action := "list".
Definition ActionAdmin : Action := "admin".

Definition ResourceProject : string := "project".
Definition ResourceExecution : string := "execution".
Definition ResourceScenario : string := "scenario".
Definition ResourceRun : string := "run".
Definition ResourceTenant : string := "tenant".
Definition ResourceSystem : string := "system".
Definition ResourceCampaign : string := "campaign".
Definition ResourceSchedule : string := "schedule".
Definition ResourceReport : string := "report".
Definition Wildcard : string := "*".

Definition RoleServiceProviderAdmin : string := "service_provider_admin".
Definition RoleTenantAdmin : string := "tenant_admin".
Definition RoleTenantEditor : string := "tenant_editor".
Definition RoleTenantViewer : string := "tenant_viewer".
Definition RoleCampaignManager : string := "campaign_manager".

Record Permission := mkPermission { Resource : string; Actions : list Action }.
Definition Allows (p : Permission) (resource : string) (action : Action) : bool :=
  if negb (bool_decide (Resource p = Wildcard)) && negb (bool_decide (Resource p = resource))
  then false
  else existsb (λ a, bool_decide (a = Wildcard) || bool_decide (a = action)) (Actions p).

Record Role := mkRole { role_Name : string; Permissions : list Permission; TenantScoped : bool }.
Definition Can (r : Role) (resource : string) (action : Action) : bool :=
  existsb (λ p, Allows p resource action) (Permissions r).

Record Request := mkRequest { req_Resource : string; req_Action : Action; req_TenantID : option Z }.
Record Decision_ := mkDecision { Allowed : bool; Reason : string; Rule : string }.
Abbreviation RoleCatalog := (gmap string Role).

(** The loops over role names: the first one whose role covers the request. *)
Fixpoint first_granting (catalog : RoleCatalog) (req : Request) (names : list string) :
    option string :=
  match names with
  | [] => None
  | name :: rest =>
      match catalog !! name with
      | Some role => if Can role (req_Resource req) (req_Action req) then Some name
                     else first_granting catalog req rest
      | None => first_granting catalog req rest
      end
  end.

Definition Authorize (acct : Account) (catalog : RoleCatalog) (req : Request) : Decision_ :=
  match first_granting catalog req (Global acct) with
  | Some name => mkDecision true "granted by global role" name
  | None =>
      let tenant :=
        match req_TenantID req with
        | Some t => first_granting catalog req (RolesInTenant acct t)
        | None => None
        end in
      match tenant with
      | Some name => mkDecision true "granted by tenant role" name
      | None => mkDecision false "no role grants this action" ""
      end
  end.

Definition all_actions : list Action :=
  [ActionCreate; ActionRead; ActionUpdate; ActionDelete; ActionList; ActionAdmin].
Definition write_actions : list Action :=
  [ActionCreate; ActionRead; ActionUpdate; ActionDelete; ActionList].
Definition read_actions : list Action := [ActionRead; ActionList].

Definition DefaultCatalog : RoleCatalog :=
  list_to_map
    [(RoleServiceProviderAdmin,
      mkRole RoleServiceProviderAdmin [mkPermission Wildcard [Wildcard]] false);
     (RoleTenantAdmin,
      mkRole RoleTenantAdmin
        [mkPermission ResourceProject all_actions; mkPermission ResourceExecution all_actions;
         mkPermission ResourceScenario all_actions; mkPermission ResourceRun all_actions;
         mkPermission ResourceSchedule all_actions; mkPermission ResourceReport all_actions;
         mkPermission ResourceTenant [ActionAdmin]] true);
     (RoleTenantEditor,
      mkRole RoleTenantEditor
        [mkPermission ResourceProject write_actions; mkPermission ResourceExecution write_actions;
         mkPermission ResourceScenario write_actions; mkPermission ResourceRun write_actions;
         mkPermission ResourceSchedule write_actions; mkPermission ResourceReport read_actions]
        true);
     (RoleTenantViewer,
      mkRole RoleTenantViewer
        [mkPermission ResourceProject read_actions; mkPermission ResourceExecution read_actions;
         mkPermission ResourceScenario read_actions; mkPermission ResourceRun read_actions;
         mkPermission ResourceSchedule read_actions; mkPermission ResourceReport read_actions]
        true);
     (RoleCampaignManager,
      mkRole RoleCampaignManager
        [mkPermission ResourceCampaign all_actions; mkPermission ResourceProject read_actions;
         mkPermission ResourceExecution read_actions; mkPermission ResourceSchedule read_actions;
         mkPermission ResourceReport read_actions] true)].

(** ** Tenants ([tenant.go]) *)
Module Tenant.
Definition MaxNameLen : Z := 50.
Definition StatusActive : string := "ACTIVE".
Definition StatusSuspended : string := "SUSPENDED".

Record Tenant := mkTenant {
  ID : Z;
  Name : string;
  DisplayName : string;
  Status : string;
  CreatedTime : time
}.

Definition validStatus (s : string) : bool :=
  bool_decide (s = StatusActive) || bool_decide (s = StatusSuspended).
Definition name_byte (a : ascii) : bool :=
  in_range 97 122 a || in_range 48 57 a || bool_decide (byte_of a = 45)%N.
(** The source ranges over runes; no rune outside ASCII is in a range, and no
    byte of one either. *)
Definition validName (name : string) : bool :=
  if bool_decide (go_len name < 3) then false else forallb name_byte (bytes_of name).

Definition Validate (t : Tenant) : result error unit :=
  if bool_decide (Name t = "") then Err ErrTenantNameRequired
  else if bool_decide (MaxNameLen < go_len (Name t)) then Err ErrTenantNameTooLong
  else if negb (validName (Name t)) then Err ErrTenantNameInvalid
  else if bool_decide (DisplayName t = "") then Err ErrDisplayNameRequired
  else if negb (validStatus (Status t)) then Err ErrStatusInvalid
  else Ok tt.

Definition New `{!Unicode} (name displayName : string) : result error Tenant :=
  let t := mkTenant 0 (ToLowerRunes (TrimSpace name)) (TrimSpace displayName) StatusActive
             time_zero in
  _ ← Validate t; Ok t.

Definition Active (t : Tenant) : bool := bool_decide (Status t = StatusActive).
End Tenant.

(** ** What a role covers *)
Definition covers (r : Role) (resource : string) (action : Action) : Prop :=
  ∃ p, p ∈ Permissions r ∧ (Resource p = Wildcard ∨ Resource p = resource) ∧
    (Wildcard ∈ Actions p ∨ action ∈ Actions p).

(** The roles of an account that count for a request: its global ones, and
    those of the request's own tenant. *)
Definition granted (acct : Account) (tenantID : option Z) (name : string) : Prop :=
  name ∈ Global acct ∨ ∃ t, tenantID = Some t ∧ name ∈ RolesInTenant acct t.
Definition entitled (acct : Account) (catalog : RoleCatalog) (req : Request) (name : string) : Prop :=
  granted acct (req_TenantID req) name ∧
  ∃ role, catalog !! name = Some role ∧ covers role (req_Resource req) (req_Action req).

Lemma existsb_elem {A} (f : A → bool) l : existsb f l = true ↔ ∃ x, x ∈ l ∧ f x = true.
Proof. rewrite existsb_exists. by setoid_rewrite list_elem_of_In. Qed.

Lemma Allows_iff p resource action :
  Allows p resource action = true ↔
  (Resource p = Wildcard ∨ Resource p = resource) ∧ (Wildcard ∈ Actions p ∨ action ∈ Actions p).
Proof.
  assert (existsb (λ a, bool_decide (a = Wildcard) || bool_decide (a = action)) (Actions p) = true ↔
    (Wildcard ∈ Actions p ∨ action ∈ Actions p)) as Ha.
  { rewrite existsb_elem. setoid_rewrite orb_true_iff. setoid_rewrite bool_decide_eq_true.
    naive_solver. }
  unfold Allows. repeat case_bool_decide; cbn [negb andb]; rewrite ?Ha; naive_solver.
Qed.
Lemma Can_iff r resource action : Can r resource action = true ↔ covers r resource action.
Proof. unfold Can, covers. rewrite existsb_elem. by setoid_rewrite Allows_iff. Qed.

Lemma first_granting_Some catalog req names name :
  first_granting catalog req names = Some name →
  name ∈ names ∧ ∃ role, catalog !! name = Some role ∧ covers role (req_Resource req) (req_Action req).
Proof.
  induction names as [|n names IH]; cbn [first_granting]; [done|].
  destruct (catalog !! n) as [role|] eqn:E; [destruct (Can role _ _) eqn:Hc|].
  - intros [= ->]. split; [left|]. exists role. by rewrite <- Can_iff.
  - intros [??]%IH. split; [by right|done].
  - intros [??]%IH. split; [by right|done].
Qed.
Lemma first_granting_None catalog req names name role :
  first_granting catalog req names = None → name ∈ names → catalog !! name = Some role →
  ¬ covers role (req_Resource req) (req_Action req).
Proof.
  induction names as [|n names IH]; cbn [first_granting]; [set_solver|].
  intros Hf Hin Hrole Hcov. apply Can_iff in Hcov.
  apply elem_of_cons in Hin as [->|Hin]; [by rewrite Hrole, Hcov in Hf|].
  apply Can_iff in Hcov. revert Hcov. apply IH; [|done..].
  destruct (catalog !! n); [|done]. by destruct (Can _ _ _).
Qed.

(** A request is allowed exactly when a role that counts for it covers it, and
    the decision names such a role. *)
Lemma Authorize_spec acct catalog req :
  if Allowed (Authorize acct catalog req)
  then entitled acct catalog req (Rule (Authorize acct catalog req))
  else ∀ name, ¬ entitled acct catalog req name.
Proof.
  unfold Authorize. destruct (first_granting catalog req (Global acct)) as [n|] eqn:Hg; cbn.
  { apply first_granting_Some in Hg as [??]. split; [by left|done]. }
  destruct (req_TenantID req) as [t|] eqn:Ht; cbn.
  - destruct (first_granting catalog req (RolesInTenant acct t)) as [n|] eqn:Htn; cbn.
    + apply first_granting_Some in Htn as [??]. split; [|done]. right. by exists t.
    + intros n [[Hn|(t' & Ht' & Hn)] (role & Hr & Hc)].
      * by apply (first_granting_None _ _ _ _ _ Hg Hn Hr).
      * rewrite Ht in Ht'. injection Ht' as <-. by apply (first_granting_None _ _ _ _ _ Htn Hn Hr).
  - intros n [[Hn|(t' & Ht' & Hn)] (role & Hr & Hc)]; [|congruence].
    by apply (first_granting_None _ _ _ _ _ Hg Hn Hr).
Qed.

Lemma Authorize_iff acct catalog req :
  Allowed (Authorize acct catalog req) = true ↔ ∃ name, entitled acct catalog req name.
Proof.
  pose proof (Authorize_spec acct catalog req) as H. destruct (Allowed _); [naive_solver|].
  split; [done|]. intros [n Hn]. by destruct (H n).
Qed.

(** With the built-in roles, the tenant-scoped ones reach nothing of the whole
    installation and nothing of other tenants; of them only the tenant admin
    administers its tenant, only the campaign manager touches campaigns, and
    whoever changes a project, an execution, a scenario, a run or a schedule is
    an admin or an editor. *)
Definition changes (action : Action) : Prop :=
  action ∈ [ActionCreate; ActionUpdate; ActionDelete].

Lemma catalog_roles name role :
  DefaultCatalog !! name = Some role →
  (name, role) ∈ map_to_list DefaultCatalog.
Proof. by rewrite elem_of_map_to_list. Qed.

Ltac catalog_cases H :=
  apply catalog_roles in H; vm_compute in H;
  repeat (apply elem_of_cons in H as [H|H]; [injection H as -> ->|]);
  [..|by apply not_elem_of_nil in H].

Lemma scoped_covers name role resource action :
  DefaultCatalog !! name = Some role → TenantScoped role = true → covers role resource action →
  resource ≠ ResourceSystem ∧
  (resource = ResourceTenant → name = RoleTenantAdmin) ∧
  (resource = ResourceCampaign → name = RoleCampaignManager) ∧
  (changes action → resource ≠ ResourceCampaign → name = RoleTenantAdmin ∨ name = RoleTenantEditor).
Proof.
  intros Hr Hs (p & Hp & Hres & Hact). catalog_cases Hr; cbn in Hs, Hp; try done.
  all: repeat (apply elem_of_cons in Hp as [->|Hp];
    [cbn in Hres, Hact; destruct Hres as [Hres|<-]; [done|];
     repeat split; try done; unfold changes; set_solver|]).
  all: by apply not_elem_of_nil in Hp.
Qed.
