(* ===== verification/Auth.v ===== *)
(** * Authentication providers ([internal/adapters/auth])

    What each provider makes of a request: the fixed account of [noauth], the
    static bearer tokens of [token], the ID tokens of [oidc] and the signed
    cookies of [session]. *)
From Stdlib Require Import Ascii.
From S2P Require Import Prelude Errors GoStrings Base64 Rbac.
Import Account.

(** What a provider reads of a request. *)
Record HttpRequest := mkHttpRequest { Authorization : string; SessionCookie : option string }.

(** [ports.AuthProvider].  An account carries a reference to its tenant map, and
    the caller may write through it: [p_write r m p] is the provider's state
    after the map of the account it returned for [r] has become [m]. *)
Class AuthProvider (P : Type) := {
  p_authenticate : time → HttpRequest → P → result error Account;
  p_write : HttpRequest → gmap Z (list string) → P → P
}.
(** A provider that keeps no reference to the accounts it returns. *)
Class Unshared (P : Type) `{!AuthProvider P} : Prop :=
  unshared : ∀ r m p, p_write r m p = p.

(** [bearer], the same function in [token] and [oidc]. *)
Definition bearer (r : HttpRequest) : string :=
  match CutPrefix (Authorization r) "Bearer " with
  | Some after => TrimSpace after
  | None => ""
  end.

(** ** [noauth] *)
Record NoAuth := mkNoAuth { na_acct : Account }.
Definition NoAuth_New (subject : string) (globalRoles : list string) : NoAuth :=
  let subject := if bool_decide (subject = "") then "honryu" else subject in
  let globalRoles := match globalRoles with [] => [RoleServiceProviderAdmin] | _ => globalRoles end in
  mkNoAuth (mkAccount subject "" subject globalRoles None).
Definition NoAuth_Authenticate (_ : time) (_ : HttpRequest) (p : NoAuth) : result error Account :=
  Ok (na_acct p).
(** Its account has no tenant map to share. *)
#[global] Instance noauth_provider : AuthProvider NoAuth :=
  { p_authenticate := NoAuth_Authenticate; p_write _ _ p := p }.
#[global] Instance noauth_unshared : Unshared NoAuth.
Proof. done. Qed.

(** ** [token] *)
Record TokenProvider := mkTokens { accounts : gmap string Account }.
Definition Token_New : TokenProvider := mkTokens ∅.
Definition Register (token : string) (acct : Account) (p : TokenProvider) : TokenProvider :=
  mkTokens (<[token := acct]> (accounts p)).
Definition Token_Authenticate (_ : time) (r : HttpRequest) (p : TokenProvider) :
    result error Account :=
  let token := bearer r in
  if bool_decide (token = "") then Err ErrUnauthenticated
  else match accounts p !! token with
       | Some acct => Ok acct
       | None => Err ErrUnauthenticated
       end.
(** The account it returns shares its map with the registered one. *)
Definition with_tenants (m : gmap Z (list string)) (a : Account) : Account :=
  mkAccount (Subject a) (Email a) (Name a) (Global a) (Some m).
#[global] Instance token_provider : AuthProvider TokenProvider := {
  p_authenticate := Token_Authenticate;
  p_write r m p := mkTokens (alter (with_tenants m) (bearer r) (accounts p))
}.

(** ** [oidc]

    The JSON decoding of the two token parts and the RSA check are
    arguments. *)
Section oidc.
Context {Key : Type}.
Record header := mkHeader { Alg : string; Kid : string }.
Record claims := mkClaims {
  Iss : string; Sub : string; cl_Email : string; cl_Name : string; Exp : Z; Aud : list string
}.
Context (json_header : string → option header) (json_claims : string → option claims).
Context (VerifyPKCS1v15 : Key → string → string → bool).

Record OidcProvider := mkOidc { keys : gmap string Key; issuer : string; audience : string }.

Definition decodeSegment {A} (json : string → option A) (seg : string) : option A :=
  DecodeString seg ≫= json.
Definition aud_contains (a : list string) (v : string) : bool :=
  existsb (λ s, bool_decide (s = v)) a.
Definition unix_epoch_s : Z := 62135596800.
Definition time_Unix (sec : Z) : time := (sec +w unix_epoch_s) * second.

Definition oidc_validate (now : time) (p : OidcProvider) (cl : claims) : result error unit :=
  if bool_decide (Sub cl = "") then Err ErrUnauthenticated
  else if negb (bool_decide (issuer p = "")) && negb (bool_decide (Iss cl = issuer p))
  then Err ErrUnauthenticated
  else if negb (bool_decide (audience p = "")) && negb (aud_contains (Aud cl) (audience p))
  then Err ErrUnauthenticated
  else if negb (Exp cl =? 0) && After now (time_Unix (Exp cl)) then Err ErrUnauthenticated
  else Ok tt.

Definition Oidc_Authenticate (now : time) (r : HttpRequest) (p : OidcProvider) :
    result error Account :=
  let raw := bearer r in
  if bool_decide (raw = "") then Err ErrUnauthenticated
  else match SplitBy raw "."%char with
       | [h; c; s] =>
           match decodeSegment json_header h with
           | None => Err ErrUnauthenticated
           | Some hdr =>
               if negb (bool_decide (Alg hdr = "RS256")) then Err ErrUnauthenticated
               else match keys p !! Kid hdr with
                    | None => Err ErrUnauthenticated
                    | Some key =>
                        match DecodeString s with
                        | None => Err ErrUnauthenticated
                        | Some sig =>
                            if negb (VerifyPKCS1v15 key (h +:+ "." +:+ c) sig)
                            then Err ErrUnauthenticated
                            else match decodeSegment json_claims c with
                                 | None => Err ErrUnauthenticated
                                 | Some cl =>
                                     _ ← oidc_validate now p cl;
                                     Ok (mkAccount (Sub cl) (cl_Email cl) (cl_Name cl) [] None)
                                 end
                        end
                    end
           end
       | _ => Err ErrUnauthenticated
       end.
Definition oidc_provider : AuthProvider OidcProvider :=
  {| p_authenticate := Oidc_Authenticate; p_write _ _ p := p |}.
Lemma oidc_unshared : @Unshared _ oidc_provider.
Proof using. done. Qed.
End oidc.

(** ** [session]

    [mac secret text] is the HMAC-SHA256 of a text; the JSON encoding of the
    cookie body is an argument. *)
Definition TTL : duration := 8 * 3600 * second.

Record Profile := mkProfile {
  prof_ID : string;
  prof_Name : string;
  prof_Subject : string;
  prof_Email : string;
  prof_Global : list string;
  prof_Tenants : option (gmap Z (list string))
}.
Definition Profile_Account (p : Profile) : Account :=
  mkAccount (prof_Subject p) (prof_Email p) (prof_Name p) (prof_Global p) (prof_Tenants p).

Record payload := mkPayload {
  pl_Subject : string;
  pl_Name : string;
  pl_Email : string;
  pl_Global : list string;
  pl_Tenants : option (gmap Z (list string));
  pl_Expires : time
}.

Record SessionProvider := mkSession {
  secret : string;
  profiles : gmap string Profile;
  order : list string
}.

Definition with_default_subject (prof : Profile) : Profile :=
  if bool_decide (prof_Subject prof = "")
  then mkProfile (prof_ID prof) (prof_Name prof) (prof_ID prof) (prof_Email prof)
         (prof_Global prof) (prof_Tenants prof)
  else prof.
Fixpoint add_profiles (profs : list Profile) (p : SessionProvider) : option SessionProvider :=
  match profs with
  | [] => Some p
  | prof :: rest =>
      if bool_decide (prof_ID prof = "") then None
      else match profiles p !! prof_ID prof with
           | Some _ => None
           | None =>
               let prof := with_default_subject prof in
               add_profiles rest
                 (mkSession (secret p) (<[prof_ID prof := prof]> (profiles p))
                    (order p ++ [prof_ID prof]))
           end
  end.
Definition Session_New (key : string) (profs : list Profile) : option SessionProvider :=
  if bool_decide (key = "") then None
  else match profs with
       | [] => None
       | _ => add_profiles profs (mkSession key ∅ [])
       end.
(** A profile that is listed is always configured. *)
Definition Profiles (p : SessionProvider) : list Profile :=
  omap (λ id, profiles p !! id) (order p).

Section session.
Context (mac : string → string → string).
Context (Marshal : payload → option string) (Unmarshal : string → option payload).

Definition sign (p : SessionProvider) (body : string) : string :=
  let enc := EncodeToString body in
  enc +:+ "." +:+ EncodeToString (mac (secret p) enc).

Definition Issue (now : time) (profileID : string) (p : SessionProvider) : result error string :=
  match profiles p !! profileID with
  | None => Err ErrUnknownProfile
  | Some prof =>
      let acct := Profile_Account prof in
      match Marshal (mkPayload (Subject acct) (Name acct) (Email acct) (Global acct)
                       (Tenants acct) (time_Add now TTL)) with
      | None => Err ErrJSON
      | Some body => Ok (sign p body)
      end
  end.

Definition Session_Authenticate (now : time) (r : HttpRequest) (p : SessionProvider) :
    result error Account :=
  match SessionCookie r with
  | None => Err ErrUnauthenticated
  | Some value =>
      match CutBy value "."%char with
      | None => Err ErrUnauthenticated
      | Some (enc, sig) =>
          let want := EncodeToString (mac (secret p) enc) in
          if negb (bool_decide (want = sig)) then Err ErrUnauthenticated
          else match DecodeString enc with
               | None => Err ErrUnauthenticated
               | Some body =>
                   match Unmarshal body with
                   | None => Err ErrUnauthenticated
                   | Some pl =>
                       if bool_decide (pl_Subject pl = "") || negb (Before now (pl_Expires pl))
                       then Err ErrUnauthenticated
                       else Ok (mkAccount (pl_Subject pl) (pl_Email pl) (pl_Name pl)
                                  (pl_Global pl) (pl_Tenants pl))
                   end
               end
      end
  end.
Definition session_provider : AuthProvider SessionProvider :=
  {| p_authenticate := Session_Authenticate; p_write _ _ p := p |}.
Lemma session_unshared : @Unshared _ session_provider.
Proof using. done. Qed.
End session.

(** ** Cookies that are issued and read back

    What JSON keeps of a body: text that is valid UTF-8 and a time whose year
    has four digits; an empty list and an empty map come back as nil ones. *)
Definition utf8 (s : string) : Prop := of_runes (runes s) = s.
Definition year_10000 : time := 315537897600 * second.
Definition json_text (p : payload) : Prop :=
  utf8 (pl_Subject p) ∧ utf8 (pl_Name p) ∧ utf8 (pl_Email p) ∧ Forall utf8 (pl_Global p) ∧
  (∀ t roles, default ∅ (pl_Tenants p) !! t = Some roles → Forall utf8 roles) ∧
  0 <= pl_Expires p < year_10000.
Definition same_account (a b : Account) : Prop :=
  Subject a = Subject b ∧ Email a = Email b ∧ Name a = Name b ∧ Global a = Global b ∧
  tenant_map a = tenant_map b.
Definition payload_account (p : payload) : Account :=
  mkAccount (pl_Subject p) (pl_Email p) (pl_Name p) (pl_Global p) (pl_Tenants p).
Class CookieCodec (Marshal : payload → option string) (Unmarshal : string → option payload) : Prop :=
  codec_roundtrip : ∀ p, json_text p →
    ∃ body p', Marshal p = Some body ∧ Unmarshal body = Some p' ∧
      same_account (payload_account p') (payload_account p) ∧ pl_Expires p' = pl_Expires p.

Lemma add_profiles_ok profs p p' :
  add_profiles profs p = Some p' →
  (∀ id prof, profiles p !! id = Some prof → prof_Subject prof ≠ "") →
  secret p' = secret p ∧ ∀ id prof, profiles p' !! id = Some prof → prof_Subject prof ≠ "".
Proof.
  revert p. induction profs as [|prof profs IH]; intros p; cbn [add_profiles]; [by intros [= <-]|].
  case_bool_decide as Hid; [done|]. destruct (profiles p !! prof_ID prof); [done|].
  intros Hadd Hall. apply IH in Hadd; [exact Hadd|]. cbn [profiles]. intros id q.
  rewrite lookup_insert_Some. intros [[_ <-]|[_ ?]]; [|by eapply Hall].
  unfold with_default_subject. case_bool_decide; done.
Qed.
Lemma Session_New_ok key profs p :
  Session_New key profs = Some p →
  secret p = key ∧ ∀ id prof, profiles p !! id = Some prof → prof_Subject prof ≠ "".
Proof.
  unfold Session_New. case_bool_decide; [done|]. destruct profs as [|q profs]; [done|].
  intros H1%add_profiles_ok; [exact H1|]. cbn. intros ??. by rewrite lookup_empty.
Qed.

Lemma CutBy_dot enc sig :
  Forall (λ a, byte_of a ≠ 46%N) (bytes_of enc) → CutBy (enc +:+ "." +:+ sig) "."%char = Some (enc, sig).
Proof.
  intros H. unfold CutBy. rewrite !bytes_of_app. change (bytes_of ".") with ["."%char]. cbn [app].
  rewrite cut_bytes_app; [by rewrite !of_bytes_of|].
  eapply Forall_impl; [exact H|]. intros a Ha ->. by apply Ha.
Qed.

Section cookies.
Context (mac : string → string → string).
Context (Marshal : payload → option string) (Unmarshal : string → option payload).
Context `{!CookieCodec Marshal Unmarshal}.

Lemma cookie_read now p body :
  Session_Authenticate mac Unmarshal now (mkHttpRequest "" (Some (sign mac p body))) p =
  match Unmarshal body with
  | None => Err ErrUnauthenticated
  | Some pl =>
      if bool_decide (pl_Subject pl = "") || negb (Before now (pl_Expires pl))
      then Err ErrUnauthenticated else Ok (payload_account pl)
  end.
Proof using.
  unfold Session_Authenticate, sign. cbn [SessionCookie].
  rewrite CutBy_dot.
  - rewrite bool_decide_eq_true_2 by done. cbn [negb]. by rewrite DecodeString_EncodeToString.
  - unfold EncodeToString. rewrite bytes_of_of. apply b64_no_dot.
Qed.

(** A cookie issued for a configured persona authenticates as that persona
    until exactly eight hours later and never afterwards, and no cookie is
    accepted whose second part is not the signature of its first under the
    provider's key. *)
Theorem cookie_stands_for_persona key profs p id prof now0 :
  Session_New key profs = Some p → profiles p !! id = Some prof →
  json_text (mkPayload (prof_Subject prof) (prof_Name prof) (prof_Email prof) (prof_Global prof)
               (prof_Tenants prof) (time_Add now0 TTL)) →
  (∃ v, Issue mac Marshal now0 id p = Ok v ∧
     ∀ now, let answer := Session_Authenticate mac Unmarshal now (mkHttpRequest "" (Some v)) p in
       if decide (now < now0 + TTL)
       then ∃ acct, answer = Ok acct ∧ same_account acct (Profile_Account prof)
       else answer = Err ErrUnauthenticated) ∧
  (∀ now r acct, Session_Authenticate mac Unmarshal now r p = Ok acct →
     ∃ value enc, SessionCookie r = Some value ∧
       CutBy value "."%char = Some (enc, EncodeToString (mac key enc))).
Proof using CookieCodec0.
  intros [Hkey Hsub]%Session_New_ok Hprof Hjson. split.
  - destruct (codec_roundtrip _ Hjson) as (body & pl & Hm & Hu & Hacct & Hexp).
    exists (sign mac p body). split.
    { unfold Issue. rewrite Hprof. cbn [Profile_Account Subject Email Name Global Tenants]. by rewrite Hm. }
    intros now. cbv zeta. rewrite cookie_read, Hu, Hexp. cbn [pl_Expires].
    assert (pl_Subject pl = prof_Subject prof) as Hs by (by destruct Hacct).
    rewrite bool_decide_eq_false_2 by (rewrite Hs; by eapply Hsub).
    unfold Before, time_Add. destruct (decide (now < now0 + TTL)).
    + rewrite bool_decide_eq_true_2 by done. by eexists.
    + by rewrite bool_decide_eq_false_2.
  - intros now r acct. unfold Session_Authenticate. destruct (SessionCookie r) as [value|]; [|done].
    destruct (CutBy value _) as [[enc sig]|] eqn:Hc; [|done].
    case_bool_decide as Hsig; [|done]. intros _. exists value, enc. by rewrite Hc, <- Hsig, <- Hkey.
Qed.
End cookies.

(** A codec for examples: the body as a string of binary digits. *)
#[global] Instance payload_eq_dec : EqDecision payload.
Proof. solve_decision. Defined.
#[global] Program Instance payload_countable : Countable payload :=
  inj_countable'
    (λ p, (pl_Subject p, pl_Name p, pl_Email p, pl_Global p, pl_Tenants p, pl_Expires p))
    (λ '(s, n, e, g, t, x), mkPayload s n e g t x) _.
Next Obligation. by intros []. Qed.
Fixpoint bits (p : positive) : string :=
  match p with
  | xH => ""
  | xO q => String "0" (bits q)
  | xI q => String "1" (bits q)
  end.
Fixpoint unbits (s : string) : positive :=
  match s with
  | EmptyString => xH
  | String a s' => if bool_decide (a = "0"%char) then xO (unbits s') else xI (unbits s')
  end.
Lemma unbits_bits p : unbits (bits p) = p.
Proof.
  induction p as [p IH|p IH|]; cbn [bits unbits]; [| |done].
  - by rewrite bool_decide_eq_false_2, IH.
  - by rewrite bool_decide_eq_true_2, IH.
Qed.
Definition bits_marshal (p : payload) : option string := Some (bits (encode p)).
Definition bits_unmarshal (s : string) : option payload := decode (unbits s).
#[global] Instance bits_codec : CookieCodec bits_marshal bits_unmarshal.
Proof.
  intros p _. exists (bits (encode p)), p. unfold bits_unmarshal. rewrite unbits_bits, decode_encode. done.
Qed.

Definition demo_profile : Profile :=
  mkProfile "pm" "Pia" "" "pia@example.org" [] (Some {[ 3 := [RoleCampaignManager] ]}).
Definition demo_session : SessionProvider :=
  mkSession "key" {[ "pm" := with_default_subject demo_profile ]} ["pm"].
Lemma cookie_stands_for_persona_witness :
  ∃ v, Session_New "key" [demo_profile] = Some demo_session ∧
    Issue (λ k t, k +:+ t) bits_marshal 5 "pm" demo_session = Ok v ∧
    Session_Authenticate (λ k t, k +:+ t) bits_unmarshal (5 + TTL) (mkHttpRequest "" (Some v))
      demo_session = Err ErrUnauthenticated.
Proof.
  assert (Session_New "key" [demo_profile] = Some demo_session) as Hnew by (vm_compute; reflexivity).
  destruct (cookie_stands_for_persona (λ k t, k +:+ t) bits_marshal bits_unmarshal "key"
    [demo_profile] demo_session "pm" (with_default_subject demo_profile) 5) as [(v & Hv & Hread) _].
  - exact Hnew.
  - vm_compute. reflexivity.
  - split; [vm_compute; reflexivity|]. split; [vm_compute; reflexivity|].
    split; [vm_compute; reflexivity|]. split; [constructor|].
    split; [|unfold time_Add, TTL, year_10000, second; cbn [pl_Expires]; lia].
    intros t roles. change (default ∅ _) with ({[3 := [RoleCampaignManager]]} : gmap Z (list string)).
    rewrite lookup_singleton_Some. intros [_ <-]. constructor; [vm_compute; reflexivity|constructor].
  - exists v. split; [exact Hnew|]. split; [exact Hv|]. exact (Hread (5 + TTL)).
Defined.
