(* ===== verification/Criteria.v ===== *)
(** * Pass/fail criteria ([internal/domain/compile/criteria_rewrite.go],
    [internal/domain/report/criteria.go])

    A criterion such as ["p95<800ms"] is written as what should hold; the engine
    reads criteria as what fails a run.  The rewrite between the two exists
    twice, once for the engine's configuration and once for the verdict served
    with a report. *)
From Stdlib Require Import Ascii.
From S2P Require Import Prelude GoStrings GoFloat.

(** ** The grammar

    The two regular expressions of the sources differ in the operators they
    list.  Each of their parts ends where the next one must begin, so a match
    is found by taking the longest of every part. *)
Definition is_ws (a : ascii) : bool :=
  let n := byte_of a in bool_decide (n = 9 ∨ n = 10 ∨ n = 12 ∨ n = 13 ∨ n = 32)%N.
Definition is_digit (a : ascii) : bool := in_range 48 57 a.
Definition is_word (a : ascii) : bool :=
  is_digit a || in_range 65 90 a || in_range 97 122 a || in_range 95 95 a || in_range 45 45 a.

Fixpoint span (p : ascii → bool) (l : list ascii) : list ascii * list ascii :=
  match l with
  | [] => ([], [])
  | a :: l' => if p a then let '(x, y) := span p l' in (a :: x, y) else ([], l)
  end.
Definition skip_ws (l : list ascii) : list ascii := (span is_ws l).2.

(** One of the alternatives, tried in order. *)
Fixpoint one_of (alts : list (list ascii)) (l : list ascii) : option (list ascii * list ascii) :=
  match alts with
  | [] => None
  | a :: alts' => if has_prefix a l then Some (a, drop (length a) l) else one_of alts' l
  end.
(** [[0-9]+(?:\.[0-9]+)?] *)
Definition number (l : list ascii) : option (list ascii * list ascii) :=
  match span is_digit l with
  | ([], _) => None
  | (ds, dot :: l') =>
      if in_range 46 46 dot then
        match span is_digit l' with
        | ([], _) => Some (ds, dot :: l')
        | (fs, rest) => Some (ds ++ dot :: fs, rest)
        end
      else Some (ds, dot :: l')
  | (ds, []) => Some (ds, [])
  end.
Definition units : list (list ascii) := bytes_of <$> ["%"; "ms"; "s"].

Record Match := mkMatch {
  mt_subject : list ascii; mt_op : list ascii; mt_threshold : list ascii; mt_unit : list ascii
}.
Definition match_criterion (ops : list (list ascii)) (l : list ascii) : option Match :=
  let '(subject, l) := span is_word (skip_ws l) in
  match subject with
  | [] => None
  | _ =>
      match one_of ops (skip_ws l) with
      | None => None
      | Some (op, l) =>
          match number (skip_ws l) with
          | None => None
          | Some (threshold, l) =>
              let '(unit, l) := default ([], skip_ws l) (one_of units (skip_ws l)) in
              match skip_ws l with
              | [] => Some (mkMatch subject op threshold unit)
              | _ => None
              end
          end
      end
  end.
Definition floorCriterion : string → option Match :=
  λ c, match_criterion (bytes_of <$> ["<="; "<"]) (bytes_of c).
Definition criterionPattern : string → option Match :=
  λ c, match_criterion (bytes_of <$> [">="; "<="; "=="; ">"; "<"; "="]) (bytes_of c).

(** ** The rewrite for the engine *)
Definition floorToViolation (c : string) : string :=
  match floorCriterion c with
  | None => c
  | Some m =>
      if bool_decide (mt_op m = bytes_of "<") then
        of_bytes (mt_subject m ++ bytes_of ">=" ++ mt_threshold m ++ mt_unit m)
      else if bool_decide (mt_op m = bytes_of "<=") then
        of_bytes (mt_subject m ++ bytes_of ">" ++ mt_threshold m ++ mt_unit m)
      else c
  end.
Definition FloorCriteriaToViolation (criteria : list string) : list string :=
  floorToViolation <$> criteria.

(** ** The rewrite and the comparison of the report *)
Definition floorsToViolations (criteria : list string) : list string :=
  (λ c, match floorCriterion c with
        | None => c
        | Some m =>
            let inverted := if bool_decide (mt_op m = bytes_of "<") then ">=" else ">" in
            of_bytes (mt_subject m ++ bytes_of inverted ++ mt_threshold m ++ mt_unit m)
        end) <$> criteria.

Definition feq (x y : float64) : bool := SFeqb x y.
Definition criterionTriggered (measured : float64) (op : string) (threshold : float64) : bool :=
  if bool_decide (op = ">") then fgt measured threshold
  else if bool_decide (op = ">=") then fle threshold measured
  else if bool_decide (op = "<") then flt measured threshold
  else if bool_decide (op = "<=") then fle measured threshold
  else if bool_decide (op = "=") || bool_decide (op = "==") then feq measured threshold
  else false.

Example floor_examples :
  FloorCriteriaToViolation ["p95<800ms"; " p95 <= 800.5 ms"; "failures<5%"; "failures>10%"; "p95<800ms for 10s"]
  = ["p95>=800ms"; "p95>800.5ms"; "failures>=5%"; "failures>10%"; "p95<800ms for 10s"].
Proof. vm_compute. reflexivity. Qed.

(** ** Matching *)
Definition stops (p : ascii → bool) (l : list ascii) : Prop :=
  match l with [] => True | a :: _ => p a = false end.
Definition all (p : ascii → bool) (l : list ascii) : Prop := Forall (λ a, p a = true) l.

Lemma span_spec p l x y : span p l = (x, y) → l = x ++ y ∧ all p x ∧ stops p y.
Proof.
  revert x y. induction l as [|a l IH]; intros x y; simpl.
  { intros [= <- <-]. split; [done|]. split; [constructor|done]. }
  destruct (p a) eqn:Ha; [|by intros [= <- <-]; split; [done|split; [constructor|]]].
  destruct (span p l) as [x' y']. intros [= <- <-]. destruct (IH x' y' eq_refl) as (-> & Hx & Hy).
  split; [done|]. split; [by constructor|done].
Qed.
Lemma span_app p x y : all p x → stops p y → span p (x ++ y) = (x, y).
Proof.
  induction 1 as [|a x Ha _ IH]; intros Hy; simpl.
  - destruct y as [|b y]; [done|]. simpl in *. by rewrite Hy.
  - by rewrite Ha, IH.
Qed.
Lemma skip_ws_stops l : stops is_ws l → skip_ws l = l.
Proof.
  intros Hl. unfold skip_ws. pose proof (span_app is_ws [] l ltac:(constructor) Hl) as E.
  simpl in E. by rewrite E.
Qed.

Lemma word_not_ws a : is_word a = true → is_ws a = false.
Proof. destruct a as [[] [] [] [] [] [] [] []]; vm_compute; done. Qed.
Lemma digit_not_ws a : is_digit a = true → is_ws a = false.
Proof. destruct a as [[] [] [] [] [] [] [] []]; vm_compute; done. Qed.

Lemma digit_not_eq a : is_digit a = true → "="%char ≠ a.
Proof. intros Ha <-. vm_compute in Ha. done. Qed.

(** A number is digits, perhaps a point and more digits. *)
Definition is_number (t : list ascii) : Prop :=
  ∃ ds fs, ds ≠ [] ∧ all is_digit ds ∧ all is_digit fs ∧
    t = ds ++ match fs with [] => [] | _ => ascii_of_N 46 :: fs end.

Lemma dot_byte a : in_range 46 46 a = true → a = ascii_of_N 46.
Proof.
  unfold in_range. intros H%bool_decide_eq_true_1. rewrite <- (ascii_N_embedding a). f_equal.
  unfold byte_of in H. lia.
Qed.

Lemma number_spec l t rest : number l = Some (t, rest) → is_number t.
Proof.
  unfold number. destruct (span is_digit l) as [ds l'] eqn:E.
  apply span_spec in E as (-> & Hds & _). destruct ds as [|d ds]; [done|].
  assert (∀ s, s = d :: ds → is_number s) as Hno.
  { intros s ->. exists (d :: ds), []. rewrite app_nil_r. split; [done|]. split; [done|].
    split; [constructor|done]. }
  destruct l' as [|dot l']; [intros [= <- <-]; by apply Hno|].
  destruct (in_range 46 46 dot) eqn:Hdot; [|intros [= <- <-]; by apply Hno].
  destruct (span is_digit l') as [fs rest'] eqn:E'. apply span_spec in E' as (-> & Hfs & _).
  destruct fs as [|f fs]; [intros [= <- <-]; by apply Hno|]. intros [= <- <-].
  exists (d :: ds), (f :: fs). apply dot_byte in Hdot as ->. split; [done|]. split; [done|]. by split.
Qed.

Lemma number_app t rest :
  is_number t → stops is_digit rest → stops (in_range 46 46) rest → number (t ++ rest) = Some (t, rest).
Proof.
  intros (ds & fs & Hne & Hds & Hfs & ->) Hr1 Hr2. unfold number. destruct fs as [|f fs].
  - rewrite app_nil_r, (span_app is_digit ds rest Hds Hr1). destruct ds as [|d ds]; [done|].
    destruct rest as [|a rest]; [done|]. simpl in Hr2. by rewrite Hr2.
  - rewrite <- app_assoc, (span_app is_digit ds) by done. destruct ds as [|d ds]; [done|].
    cbn [app]. replace (in_range 46 46 (ascii_of_N 46)) with true by done.
    change (f :: fs ++ rest) with ((f :: fs) ++ rest). rewrite (span_app is_digit (f :: fs)) by done. done.
Qed.

Lemma one_of_spec alts l x y : one_of alts l = Some (x, y) → x ∈ alts.
Proof.
  induction alts as [|a alts IH]; [done|]. simpl. destruct (has_prefix a l).
  - intros [= <- _]. left.
  - intros H. right. by apply IH.
Qed.

(** What a match consists of. *)
Record match_ok (ops : list (list ascii)) (m : Match) : Prop := {
  mo_subject : mt_subject m ≠ [] ∧ all is_word (mt_subject m);
  mo_op : mt_op m ∈ ops;
  mo_threshold : is_number (mt_threshold m);
  mo_unit : mt_unit m = [] ∨ mt_unit m ∈ units
}.
Lemma match_criterion_ok ops l m : match_criterion ops l = Some m → match_ok ops m.
Proof.
  unfold match_criterion. destruct (span is_word (skip_ws l)) as [subject l1] eqn:E1.
  apply span_spec in E1 as (_ & Hs & _). destruct subject as [|a subject]; [done|].
  destruct (one_of ops (skip_ws l1)) as [[op l2]|] eqn:E2; [|done]. apply one_of_spec in E2.
  destruct (number (skip_ws l2)) as [[t l3]|] eqn:E3; [|done]. apply number_spec in E3.
  destruct (default ([], skip_ws l3) (one_of units (skip_ws l3))) as [u l4] eqn:E4.
  destruct (skip_ws l4); [|done]. intros [= <-]. split; simpl; [by split|done|done|].
  destruct (one_of units (skip_ws l3)) as [[u' l5]|] eqn:E5; simpl in E4; simplify_eq; [|by left].
  right. by eapply one_of_spec.
Qed.

(** A criterion printed without blanks matches again, as what it was printed
    from, when the first alternative its operator text meets is that operator. *)
Lemma match_criterion_printed ops s op t u :
  s ≠ [] → all is_word s → is_number t → u = [] ∨ u ∈ units →
  stops is_word op → stops is_ws op → op ≠ [] →
  (∀ rest, stops (λ a, negb (is_digit a)) rest → one_of ops (op ++ rest) = Some (op, rest)) →
  match_criterion ops (s ++ op ++ t ++ u) = Some (mkMatch s op t u).
Proof.
  intros Hs Hsw Ht Hu Hopw Hops Hop Hone. unfold match_criterion.
  assert (stops is_word (op ++ t ++ u)) as Hst by (by destruct op).
  rewrite (skip_ws_stops (s ++ op ++ t ++ u)).
  2:{ destruct s as [|a s]; [done|]. apply Forall_inv in Hsw. simpl. by apply word_not_ws. }
  rewrite (span_app is_word s) by done. destruct s as [|a s]; [done|].
  rewrite (skip_ws_stops (op ++ t ++ u)) by (by destruct op).
  assert (∃ d t', t = d :: t' ∧ is_digit d = true) as (d & t' & Et & Hd).
  { destruct Ht as (ds & fs & Hne & Hds & _ & ->). destruct ds as [|d ds]; [done|].
    apply Forall_inv in Hds. by do 2 eexists. }
  rewrite Hone by (rewrite Et; simpl; by rewrite Hd).
  rewrite (skip_ws_stops (t ++ u)) by (rewrite Et; simpl; by apply digit_not_ws).
  assert (stops is_digit u ∧ stops (in_range 46 46) u ∧
    default ([], skip_ws u) (one_of units (skip_ws u)) = (u, [])) as (Hu1 & Hu2 & Hu3).
  { destruct Hu as [->|Hu]; [by vm_compute|].
    repeat (apply elem_of_cons in Hu as [->|Hu]; [vm_compute; by repeat split|]). by apply elem_of_nil in Hu. }
  rewrite number_app by done. by rewrite Hu3.
Qed.

(** ** The rewrite is negation *)
Lemma flt_negb_fle x y : is_nan x = false → is_nan y = false → flt x y = negb (fle y x).
Proof.
  unfold flt, fle, SFltb, SFleb.
  destruct x as [[]|[]| |[] m1 e1], y as [[]|[]| |[] m2 e2]; simpl; try done; intros _ _;
    rewrite (pos_compare_cont m1 m2), (pos_compare_cont m2 m1);
    destruct (Z.compare_spec e1 e2), (Z.compare_spec e2 e1); try lia; try done;
    destruct (Pos.compare_spec m1 m2), (Pos.compare_spec m2 m1); try lia; done.
Qed.

(** The operator that fails where [op] holds. *)
Definition inverse (op : list ascii) : list ascii :=
  if bool_decide (op = bytes_of "<") then bytes_of ">=" else bytes_of ">".

Lemma floor_rewritten c m :
  floorCriterion c = Some m →
  floorToViolation c = of_bytes (mt_subject m ++ inverse (mt_op m) ++ mt_threshold m ++ mt_unit m) ∧
  (mt_op m = bytes_of "<" ∨ mt_op m = bytes_of "<=").
Proof.
  intros Hm. pose proof (match_criterion_ok _ _ _ Hm) as [_ Hop _ _].
  unfold floorToViolation, inverse. rewrite Hm.
  apply elem_of_cons in Hop as [Hop|Hop%list_elem_of_singleton]; rewrite Hop; split; auto.
Qed.

Lemma printed_matches c m :
  floorCriterion c = Some m →
  criterionPattern (floorToViolation c) =
    Some (mkMatch (mt_subject m) (inverse (mt_op m)) (mt_threshold m) (mt_unit m)).
Proof.
  intros Hm. destruct (floor_rewritten c m Hm) as [-> Hop].
  destruct (match_criterion_ok _ _ _ Hm) as [[Hs Hsw] _ Ht Hu].
  unfold criterionPattern. rewrite bytes_of_of.
  assert (∀ rest, stops (λ a, negb (is_digit a)) rest →
    one_of (bytes_of <$> [">="; "<="; "=="; ">"; "<"; "="]) (bytes_of ">" ++ rest) =
      Some (bytes_of ">", rest)) as Hgt.
  { intros [|a rest] Hrest; [done|]. apply negb_false_iff, digit_not_eq in Hrest.
    simpl. by rewrite bool_decide_eq_false_2. }
  apply match_criterion_printed; auto; destruct Hop as [-> | ->]; done.
Qed.

Lemma printed_no_floor c m : floorCriterion c = Some m → floorCriterion (floorToViolation c) = None.
Proof.
  intros Hm. destruct (floor_rewritten c m Hm) as [-> Hop].
  destruct (match_criterion_ok _ _ _ Hm) as [[Hs Hsw] _ Ht Hu].
  unfold floorCriterion, match_criterion. rewrite bytes_of_of, (skip_ws_stops (_ ++ _)).
  2:{ destruct (mt_subject m) as [|a s]; [done|]. apply Forall_inv in Hsw. simpl. by apply word_not_ws. }
  rewrite (span_app is_word) by (try done; by destruct Hop as [-> | ->]).
  destruct (mt_subject m); [done|]. by destruct Hop as [-> | ->].
Qed.

(** The rewrite the engine is given turns a floor into its negation and
    nothing else: the result parses as the same subject, threshold and unit
    under an operator that holds of a measurement exactly when the floor does
    not; a criterion that is no floor is left as written; rewriting again
    changes nothing; and the copy the report judges by agrees. *)
Theorem floor_rewrite_negates criteria :
  FloorCriteriaToViolation criteria = floorsToViolations criteria ∧
  FloorCriteriaToViolation (FloorCriteriaToViolation criteria) = FloorCriteriaToViolation criteria ∧
  ∀ c, c ∈ criteria →
    match floorCriterion c with
    | None => floorToViolation c = c
    | Some m =>
        ∃ op', criterionPattern (floorToViolation c) =
                 Some (mkMatch (mt_subject m) (bytes_of op') (mt_threshold m) (mt_unit m)) ∧
          ∀ measured threshold, is_nan measured = false → is_nan threshold = false →
            criterionTriggered measured op' threshold =
              negb (criterionTriggered measured (of_bytes (mt_op m)) threshold)
    end.
Proof.
  assert (∀ c, floorToViolation (floorToViolation c) = floorToViolation c) as Hidem.
  { intros c. destruct (floorCriterion c) as [m|] eqn:Hm.
    - unfold floorToViolation at 1. by rewrite (printed_no_floor c m Hm).
    - assert (floorToViolation c = c) as E by (unfold floorToViolation; by rewrite Hm). by rewrite !E. }
  split; [|split].
  - unfold FloorCriteriaToViolation, floorsToViolations. apply list_fmap_ext. intros _ c _.
    destruct (floorCriterion c) as [m|] eqn:Hm; [|unfold floorToViolation; by rewrite Hm].
    destruct (floor_rewritten c m Hm) as [-> Hop]. unfold inverse. by destruct Hop as [-> | ->].
  - unfold FloorCriteriaToViolation. rewrite <- list_fmap_compose. apply list_fmap_ext. intros _ c _. apply Hidem.
  - intros c _. destruct (floorCriterion c) as [m|] eqn:Hm; [|unfold floorToViolation; by rewrite Hm].
    pose proof (printed_matches c m Hm) as Hp. destruct (floor_rewritten c m Hm) as [_ [Hop|Hop]];
      rewrite Hop in Hp |- *; [exists ">="|exists ">"]; (split; [exact Hp|]); intros x y Hx Hy;
      unfold criterionTriggered; simpl; unfold fgt; change (SFltb y x) with (flt y x);
      rewrite (flt_negb_fle) by done; by rewrite ?negb_involutive.
Qed.
