(* ===== verification/Compile.v ===== *)
(** * Compiling a Taurus configuration ([internal/domain/taurus/taurus.go],
    [internal/domain/telemetry], [internal/domain/compile])

    The configuration model, the trace-context headers a deploy's load carries,
    and the transformation of one execution's load into a configuration. *)
From Stdlib Require Import Ascii.
From S2P Require Import Prelude Errors GoStrings LoadProfile Taurus Scenario Execution Criteria.

(** ** The configuration model ([taurus.go])

    A YAML value of any type is carried through, never looked into; a pointer
    to a bool is an option. *)
Module Conf.
Inductive AnyValue :=
| AnyNil | AnyBool (b : bool) | AnyInt (n : Z) | AnyString (s : string)
| AnyList (l : list AnyValue) | AnyMap (m : list (string * AnyValue)).

Record Assertion := mkAssertion {
  as_Contains : list string; as_Subject : string; as_Regexp : option bool; as_Not : option bool
}.
Record Request := mkRequest {
  rq_URL : string; rq_Label : string; rq_Method : string; rq_Headers : gmap string string;
  rq_Body : AnyValue; rq_Assert : list Assertion
}.
Record DataSource := mkDataSource {
  dts_Path : string; dts_Delimiter : string; dts_Loop : option bool; dts_Quoted : option bool
}.
Record Scenario := mkScenario {
  ts_Script : string; ts_DefaultAddress : string; ts_Headers : gmap string string;
  ts_Requests : list Request; ts_DataSources : list DataSource; ts_Timeout : duration;
  ts_KeepAlive : option bool
}.
Record Execution := mkExecution {
  te_Executor : Executor; te_Concurrency : Z; te_RampUp : duration; te_HoldFor : duration;
  te_Iterations : Z; te_Throughput : Z; te_Scenario : string
}.
Record Reporter := mkReporter {
  rpt_Module : string; rpt_Criteria : list string; rpt_Filename : string; rpt_DumpCSV : string
}.
Record Module_ := mkModule {
  md_Class : string; md_Path : string; md_Sequential : option bool
}.
(** The services chain and the settings, which nothing compiled here sets, are
    left out. *)
Record Config := mkConfig {
  cf_Execution : list Execution;
  cf_Scenarios : gmap string Scenario;
  cf_Reporting : list Reporter;
  cf_Modules : gmap string Module_
}.

Definition Execution_validate (e : Execution) (scenarios : gmap string Scenario) :
    result error unit :=
  if bool_decide (te_Executor e = "") then Err ErrExecutorRequired
  else if te_Concurrency e <=? 0 then Err ErrTaurusConcurrencyInvalid
  else if bool_decide (te_Scenario e = "") then Err ErrTaurusScenarioRequired
  else match scenarios !! te_Scenario e with
       | None => Err ErrScenarioUndefined
       | Some _ =>
           if (te_HoldFor e =? 0) && (te_Iterations e =? 0) then Err ErrDurationRequired
           else Ok tt
       end.

(** The first execution that is refused, or nothing. *)
Fixpoint validate_executions (es : list Execution) (scenarios : gmap string Scenario) :
    result error unit :=
  match es with
  | [] => Ok tt
  | e :: es' => _ ← Execution_validate e scenarios; validate_executions es' scenarios
  end.

Definition scenario_empty (s : Scenario) : bool :=
  (go_len (ts_Script s) =? 0) && bool_decide (ts_Requests s = []).

(** Which of several empty scenarios is named depends on the order a map is
    walked in; the error is the same. *)
Definition Config_Validate (c : Config) : result error unit :=
  match cf_Execution c with
  | [] => Err ErrNoExecution
  | _ =>
      _ ← validate_executions (cf_Execution c) (cf_Scenarios c);
      if existsb (λ kv, scenario_empty kv.2) (map_to_list (cf_Scenarios c))
      then Err ErrScenarioEmpty else Ok tt
  end.

(** *** The text of a duration *)
Definition minute : duration := 60 * second.
Definition hour : duration := 60 * minute.
Definition Duration_text (d : duration) : string :=
  if d =? 0 then "0s"
  else if go_rem d hour =? 0 then pretty (go_div d hour) +:+ "h"
  else if go_rem d minute =? 0 then pretty (go_div d minute) +:+ "m"
  else if d <? second then "1s"
  else pretty (go_div d second) +:+ "s".
End Conf.

(** ** Trace context ([telemetry.go]) *)
Module Telemetry.
Record TraceContext := mkTraceContext { tc_TraceID : string; tc_ParentID : string }.
Record Identity := mkIdentity {
  tl_TenantID : option Z; tl_ProjectID : Z; tl_ExecutionID : Z; tl_RunCorrelationID : string
}.

Definition Baggage (id : Identity) : string :=
  let entries :=
    match tl_TenantID id with
    | Some t => ["honryu.tenant=" +:+ pretty t]
    | None => []
    end ++
    ["honryu.service=" +:+ pretty (tl_ProjectID id);
     "honryu.execution=" +:+ pretty (tl_ExecutionID id);
     "honryu.run=" +:+ tl_RunCorrelationID id] in
  String.concat "," entries.

Definition Headers (tc : TraceContext) (id : Identity) : gmap string string :=
  <["traceparent" := "00-" +:+ tc_TraceID tc +:+ "-" +:+ tc_ParentID tc +:+ "-00"]>
    {[ "baggage" := Baggage id ]}.
End Telemetry.

(** ** The compiler ([compile.go]) *)
Module Compiler.
Record ScenarioInput := mkScenarioInput {
  si_Scenario : Scenario.Scenario;
  si_ScriptPath : string;
  si_DefaultAddress : string;
  si_Requests : list Conf.Request;
  si_Headers : gmap string string;
  si_Timeout : duration;
  si_KeepAlive : option bool;
  si_DataPaths : list string
}.
(** The execution itself is carried by the source's [Input] and not read. *)
Record Input := mkInput {
  in_Tests : list Entry;
  in_Engine : Executor;
  in_Scenarios : gmap Z ScenarioInput;
  in_Headers : gmap string string;
  in_Criteria : list string;
  in_Sequential : bool
}.

Section compile.
Context `{!Unicode}.

Definition hyphen : ascii := "-"%char.

(** The loop of [slug] over the runes of the lower-cased text. *)
Fixpoint slug_loop (lastHyphen : bool) (rs : list (list ascii)) : list ascii :=
  match rs with
  | [] => []
  | r :: rs' =>
      if letter_or_digit r then r ++ slug_loop false rs'
      else if negb lastHyphen then hyphen :: slug_loop true rs'
      else slug_loop lastHyphen rs'
  end.

(** [strings.Trim(s, "-")]. *)
Fixpoint trim_hyphens (l : list ascii) : list ascii :=
  match l with
  | a :: l' => if bool_decide (a = hyphen) then trim_hyphens l' else l
  | [] => []
  end.
Definition slug_bytes (s : string) : list ascii :=
  reverse (trim_hyphens (reverse (trim_hyphens (slug_loop true (lower_rune <$> runes s))))).
Definition slug (s : string) : string := of_bytes (slug_bytes s).

Definition scenarioKey (s : Scenario.Scenario) : string :=
  slug (Scenario.scn_Name s) +:+ "-" +:+ pretty (Scenario.scn_ID s).

Definition requestLabel (s : Scenario.Scenario) (r : Conf.Request) (i : nat) : string :=
  let target := slug (Conf.rq_URL r) in
  if bool_decide (target ≠ "") then slug (Scenario.scn_Name s) +:+ "-" +:+ target
  else slug (Scenario.scn_Name s) +:+ "-" +:+ pretty (Z.of_nat i).

Definition dataSources (paths : list string) : list Conf.DataSource :=
  (λ p, Conf.mkDataSource p "" None None) <$> merge_sort str_le paths.

Definition with_label (s : Scenario.Scenario) (i : nat) (r : Conf.Request) : Conf.Request :=
  if bool_decide (Conf.rq_Label r = "") then
    Conf.mkRequest (Conf.rq_URL r) (requestLabel s r i) (Conf.rq_Method r) (Conf.rq_Headers r)
      (Conf.rq_Body r) (Conf.rq_Assert r)
  else r.

Definition compileScenario (si : ScenarioInput) (headers : gmap string string) :
    result error Conf.Scenario :=
  if bool_decide (Scenario.scn_Kind (si_Scenario si) = Scenario.KindNative) then
    if bool_decide (si_ScriptPath si = "") then Err ErrScriptRequired
    else Ok (Conf.mkScenario (si_ScriptPath si) "" headers [] (dataSources (si_DataPaths si)) 0 None)
  else
    match si_Requests si with
    | [] => Err ErrRequestsRequired
    | reqs =>
        Ok (Conf.mkScenario "" (si_DefaultAddress si) (headers ∪ si_Headers si)
              (imap (with_label (si_Scenario si)) reqs) (dataSources (si_DataPaths si))
              (si_Timeout si) (si_KeepAlive si))
    end.

(** [time.Duration(n) * time.Second]. *)
Definition seconds (n : Z) : duration := n *w second.

Definition compile_entry (in_ : Input) (entry : Entry) :
    result error (string * Conf.Scenario * Conf.Execution) :=
  match in_Scenarios in_ !! ScenarioID entry with
  | None => Err ErrScenarioMissing
  | Some si =>
      _ ← Scenario.CanRunOn (si_Scenario si) (in_Engine in_);
      let key := scenarioKey (si_Scenario si) in
      ts ← compileScenario si (in_Headers in_);
      Ok (key, ts,
          Conf.mkExecution (in_Engine in_) (Concurrency entry) (seconds (Rampup entry))
            (seconds (Duration entry)) 0 (Throughput entry) key)
  end.

(** The loop over the profile's entries, in order; the first error ends it. *)
Fixpoint compile_entries (in_ : Input) (tests : list Entry)
    (execs : list Conf.Execution) (scens : gmap string Conf.Scenario) :
    result error (list Conf.Execution * gmap string Conf.Scenario) :=
  match tests with
  | [] => Ok (execs, scens)
  | entry :: rest =>
      kte ← compile_entry in_ entry;
      let '(key, ts, ex) := (kte : string * Conf.Scenario * Conf.Execution) in
      compile_entries in_ rest (execs ++ [ex]) (<[key := ts]> scens)
  end.

Definition Taurus (in_ : Input) : result error Conf.Config :=
  if bool_decide (in_Engine in_ = "") then Err ErrEngineRequired
  else
    match in_Tests in_ with
    | [] => Err ErrNoEntries
    | tests =>
        es ← compile_entries in_ tests [] ∅;
        let '(execs, scens) := (es : list Conf.Execution * gmap string Conf.Scenario) in
        let reporting :=
          match in_Criteria in_ with
          | [] => []
          | cs => [Conf.mkReporter "passfail" (FloorCriteriaToViolation cs) "" ""]
          end in
        let modules :=
          if in_Sequential in_ && (1 <? Z.of_nat (length execs))
          then {[ "local" := Conf.mkModule "" "" (Some true) ]} else ∅ in
        let cfg := Conf.mkConfig execs scens reporting modules in
        _ ← Conf.Config_Validate cfg;
        Ok cfg
    end.
End compile.

(** ** What is compiled is what was asked for *)
Section faithful.
Context `{!Unicode}.

(** The id in a scenario's key tells scenarios apart whatever their names. *)
Lemma scenarioKey_id s t :
  0 <= Scenario.scn_ID s → 0 <= Scenario.scn_ID t →
  scenarioKey s = scenarioKey t → Scenario.scn_ID s = Scenario.scn_ID t.
Proof.
  intros Hs Ht Heq%(f_equal bytes_of). unfold scenarioKey in Heq. rewrite !bytes_of_app in Heq.
  apply (last_part_inj hyphen) in Heq as [_ Heq]; [|by apply pretty_avoids..].
  by apply (inj bytes_of), (inj pretty) in Heq.
Qed.

(** A scenario that has what its kind needs. *)
Definition supplied (si : ScenarioInput) : Prop :=
  if decide (Scenario.scn_Kind (si_Scenario si) = Scenario.KindNative)
  then si_ScriptPath si ≠ "" else si_Requests si ≠ [].

Definition entry_compiles (in_ : Input) (entry : Entry) : Prop :=
  ∃ si, in_Scenarios in_ !! ScenarioID entry = Some si ∧
    Scenario.scn_ID (si_Scenario si) = ScenarioID entry ∧ 0 <= ScenarioID entry ∧
    Scenario.CanRunOn (si_Scenario si) (in_Engine in_) = Ok tt ∧ supplied si ∧
    0 < Concurrency entry ∧ seconds (Duration entry) ≠ 0.

(** What one entry compiles to. *)
Definition compiles_to (in_ : Input) (scens : gmap string Conf.Scenario) (entry : Entry)
    (ex : Conf.Execution) : Prop :=
  ∃ si ts, in_Scenarios in_ !! ScenarioID entry = Some si ∧
    compileScenario si (in_Headers in_) = Ok ts ∧
    scens !! Conf.te_Scenario ex = Some ts ∧
    ex = Conf.mkExecution (in_Engine in_) (Concurrency entry) (seconds (Rampup entry))
           (seconds (Duration entry)) 0 (Throughput entry) (scenarioKey (si_Scenario si)).

Lemma supplied_compiles si headers :
  supplied si → ∃ ts, compileScenario si headers = Ok ts ∧ Conf.scenario_empty ts = false.
Proof.
  unfold supplied, compileScenario, Conf.scenario_empty. intros Hs. case_decide as Hk.
  - rewrite bool_decide_eq_true_2, bool_decide_eq_false_2 by done. eexists. split; [done|]. simpl.
    by destruct (si_ScriptPath si).
  - rewrite bool_decide_eq_false_2 by done. destruct (si_Requests si) as [|r rs]; [done|].
    eexists. by split.
Qed.

(** What any successful compilation carries over from its entries. *)
Definition carries (in_ : Input) (entry : Entry) (ex : Conf.Execution) : Prop :=
  Conf.te_Executor ex = in_Engine in_ ∧ Conf.te_Concurrency ex = Concurrency entry ∧
  Conf.te_Throughput ex = Throughput entry ∧ Conf.te_RampUp ex = seconds (Rampup entry) ∧
  Conf.te_HoldFor ex = seconds (Duration entry).

Lemma compile_entry_carries in_ entry key ts ex :
  compile_entry in_ entry = Ok (key, ts, ex) → carries in_ entry ex.
Proof.
  unfold compile_entry. destruct (_ !! _) as [si|]; [|done]. unfold mbind, result_bind.
  destruct (Scenario.CanRunOn _ _); [|done]. destruct (compileScenario _ _); [|done].
  by intros [= <- <- <-].
Qed.

Lemma compile_entries_carry in_ tests execs scens execs' scens' :
  compile_entries in_ tests execs scens = Ok (execs', scens') →
  ∃ new, execs' = execs ++ new ∧ Forall2 (carries in_) tests new.
Proof.
  revert execs scens. induction tests as [|entry tests IH]; intros execs scens; simpl.
  { intros [= <- <-]. exists []. by rewrite app_nil_r. }
  unfold mbind, result_bind. destruct (compile_entry in_ entry) as [[[key ts] ex]|] eqn:E; [|done].
  intros (new & -> & Hnew)%IH. exists (ex :: new). rewrite <- app_assoc. split; [done|].
  constructor; [|done]. by eapply compile_entry_carries.
Qed.

Lemma Taurus_carries in_ cfg :
  Taurus in_ = Ok cfg →
  Forall2 (carries in_) (in_Tests in_) (Conf.cf_Execution cfg) ∧
  (in_Sequential in_ = true → (1 < length (in_Tests in_))%nat →
   (Conf.cf_Modules cfg !! "local" ≫= Conf.md_Sequential) = Some true).
Proof.
  unfold Taurus. destruct (bool_decide _); [done|]. destruct (in_Tests in_) as [|e tests]; [done|].
  unfold mbind, result_bind.
  destruct (compile_entries in_ (e :: tests) [] ∅) as [[execs scens]|] eqn:E; [|done].
  apply compile_entries_carry in E as (new & -> & Hnew). rewrite app_nil_l.
  destruct (Conf.Config_Validate _); [|done]. intros [= <-]. split; [done|].
  intros -> Hlen. cbn [Conf.cf_Modules]. rewrite (Forall2_length _ _ _ Hnew) in Hlen.
  rewrite (proj2 (Z.ltb_lt _ _)) by lia. cbn [andb]. by rewrite lookup_singleton_eq.
Qed.

Section one_input.
Context (in_ : Input) (Hengine : in_Engine in_ ≠ "").

Lemma compile_entry_ok entry :
  entry_compiles in_ entry →
  ∃ si ts, in_Scenarios in_ !! ScenarioID entry = Some si ∧
    compileScenario si (in_Headers in_) = Ok ts ∧ Conf.scenario_empty ts = false ∧
    compile_entry in_ entry = Ok (scenarioKey (si_Scenario si), ts,
      Conf.mkExecution (in_Engine in_) (Concurrency entry) (seconds (Rampup entry))
        (seconds (Duration entry)) 0 (Throughput entry) (scenarioKey (si_Scenario si))).
Proof.
  intros (si & Hsi & _ & _ & Hrun & Hsup & _). unfold compile_entry. rewrite Hsi, Hrun.
  destruct (supplied_compiles si (in_Headers in_) Hsup) as (ts & Hts & Hne).
  exists si, ts. unfold mbind, result_bind. by rewrite Hts.
Qed.

(** Entries under one key have one scenario. *)
Lemma same_key entry entry' si si' :
  entry_compiles in_ entry → entry_compiles in_ entry' →
  in_Scenarios in_ !! ScenarioID entry = Some si → in_Scenarios in_ !! ScenarioID entry' = Some si' →
  scenarioKey (si_Scenario si) = scenarioKey (si_Scenario si') → si = si'.
Proof.
  intros (x & Hx & Hid & H0 & _) (x' & Hx' & Hid' & H0' & _) Hsi Hsi' Hkey. simplify_eq.
  apply scenarioKey_id in Hkey; [|congruence..]. congruence.
Qed.

Record loop_ok (done : list Entry) (execs : list Conf.Execution) (scens : gmap string Conf.Scenario) :
  Prop := {
  lo_entries : Forall (entry_compiles in_) done;
  lo_execs : Forall2 (compiles_to in_ scens) done execs;
  lo_full : map_Forall (λ _ ts, Conf.scenario_empty ts = false) scens
}.

Lemma loop_step done execs scens entry :
  loop_ok done execs scens → entry_compiles in_ entry →
  ∃ key ts ex, compile_entry in_ entry = Ok (key, ts, ex) ∧
    loop_ok (done ++ [entry]) (execs ++ [ex]) (<[key := ts]> scens).
Proof.
  intros [Hdone Hex Hfull] He. destruct (compile_entry_ok entry He) as (si & ts & Hsi & Hts & Hne & Hc).
  rewrite Hc. do 3 eexists. split; [done|]. split.
  - apply Forall_app. by split; [|apply Forall_singleton].
  - apply Forall2_app.
    + clear Hc. induction Hex as [|e ex done execs Hone Hrest IH]; constructor; [|apply IH; by inversion Hdone].
      inversion Hdone as [|? ? Hone' _]; subst. destruct Hone as (si' & ts' & Hsi' & Hts' & Hl & ->). simpl in Hl.
      exists si', ts'. split; [done|]. split; [done|]. split; [|done]. simpl.
      destruct (decide (scenarioKey (si_Scenario si) = scenarioKey (si_Scenario si'))) as [Hk|Hk].
      * assert (si = si') as -> by (by apply (same_key entry e)). rewrite lookup_insert_eq. congruence.
      * by rewrite lookup_insert_ne.
    + constructor; [|done]. exists si, ts. split; [done|]. split; [done|]. split; [|done]. simpl.
      by rewrite lookup_insert_eq.
  - by apply map_Forall_insert_2.
Qed.

Lemma compile_entries_ok tests done execs scens :
  loop_ok done execs scens → Forall (entry_compiles in_) tests →
  ∃ execs' scens', compile_entries in_ tests execs scens = Ok (execs', scens') ∧
    loop_ok (done ++ tests) execs' scens'.
Proof.
  revert done execs scens. induction tests as [|entry tests IH]; intros done execs scens Hok Hall; simpl.
  { do 2 eexists. split; [done|]. by rewrite app_nil_r. }
  inversion Hall as [|? ? He Hrest]; subst.
  destruct (loop_step done execs scens entry Hok He) as (key & ts & ex & -> & Hok').
  unfold mbind, result_bind. destruct (IH _ _ _ Hok' Hrest) as (execs' & scens' & -> & Hok'').
  exists execs', scens'. split; [done|]. by rewrite <- app_assoc in Hok''.
Qed.

Lemma executions_valid tests execs scens :
  loop_ok tests execs scens → Conf.validate_executions execs scens = Ok tt.
Proof using Hengine.
  intros [Hc Hex _]. induction Hex as [|e ex tests execs Hone _ IH]; simpl; [done|].
  inversion Hc as [|? ? He Hrest]; subst. destruct Hone as (si & ts & Hsi & Hts & Hl & ->).
  destruct He as (_ & _ & _ & _ & _ & _ & Hconc & Hdur). simpl in Hl.
  unfold Conf.Execution_validate. cbn [Conf.te_Executor Conf.te_Concurrency Conf.te_Scenario
    Conf.te_HoldFor Conf.te_Iterations].
  rewrite bool_decide_eq_false_2 by done. destruct (Z.leb_spec (Concurrency e) 0); [lia|].
  rewrite bool_decide_eq_false_2, Hl by (unfold scenarioKey; by destruct (slug _)).
  rewrite (proj2 (Z.eqb_neq _ _) Hdur). by apply IH.
Qed.
End one_input.

(** C18. An input whose entries each have a scenario that can run on the engine
    and has what it needs compiles, and to what was asked for: one execution
    per entry, in order, with the entry's users, rate, ramp-up and hold, which
    names the compiled form of that entry's own scenario even when scenarios
    share a name; the criteria are there, negated; and a run of several steps
    in sequence is marked as one. *)
Theorem compiled_config_faithful in_ :
  in_Engine in_ ≠ "" → in_Tests in_ ≠ [] → Forall (entry_compiles in_) (in_Tests in_) →
  ∃ cfg, Taurus in_ = Ok cfg ∧
    Forall2 (compiles_to in_ (Conf.cf_Scenarios cfg)) (in_Tests in_) (Conf.cf_Execution cfg) ∧
    (Conf.rpt_Criteria <$> Conf.cf_Reporting cfg) =
      match in_Criteria in_ with [] => [] | cs => [FloorCriteriaToViolation cs] end ∧
    (Conf.cf_Modules cfg !! "local" ≫= Conf.md_Sequential) =
      (if in_Sequential in_ && (1 <? Z.of_nat (length (in_Tests in_))) then Some true else None).
Proof.
  intros Heng Htests Hall.
  destruct (compile_entries_ok in_ (in_Tests in_) [] [] ∅) as (execs & scens & Hloop & Hok); [|done|].
  { split; [constructor|constructor|apply map_Forall_empty]. }
  simpl in Hok. unfold Taurus. rewrite bool_decide_eq_false_2 by done.
  destruct (in_Tests in_) as [|e0 rest] eqn:Et; [done|]. unfold mbind, result_bind. rewrite Hloop.
  unfold Conf.Config_Validate. cbn [Conf.cf_Execution Conf.cf_Scenarios].
  destruct execs as [|ex execs]; [by inversion Hok as [_ Hbad _]; inversion Hbad|].
  rewrite (executions_valid in_ Heng (e0 :: rest) _ scens Hok). unfold mbind, result_bind.
  destruct (existsb _ _) eqn:Hempty.
  { apply existsb_exists in Hempty as ([k ts] & Hin & Hbad). apply list_elem_of_In, elem_of_map_to_list in Hin.
    apply (lo_full _ _ _ _ Hok) in Hin. simpl in *. congruence. }
  eexists. split; [done|]. cbn [Conf.cf_Scenarios Conf.cf_Execution Conf.cf_Reporting Conf.cf_Modules].
  split; [by apply (lo_execs _ _ _ _ Hok)|]. split; [by destruct (in_Criteria in_)|].
  rewrite (Forall2_length _ _ _ (lo_execs _ _ _ _ Hok)).
  destruct (_ && _); [by rewrite lookup_singleton_eq|by rewrite lookup_empty].
Qed.
End faithful.
End Compiler.

(** Two scenarios of one name, told apart by their ids. *)
Definition named (id : Z) : Scenario.Scenario :=
  Scenario.mkScenario id "Check out!" 3 Scenario.KindPortable "" None "" "" 0 false "".
Definition one_request : Conf.Request := Conf.mkRequest "/cart" "" "GET" ∅ Conf.AnyNil [].
Definition two_scenarios : Compiler.Input :=
  Compiler.mkInput [mkEntry "" 2 10 5 2 0 60 false "" 0; mkEntry "" 12 4 0 1 7 30 false "" 0]
    ExecutorJMeter
    (<[2 := Compiler.mkScenarioInput (named 2) "" "https://a" [one_request] ∅ 0 None []]>
       {[12 := Compiler.mkScenarioInput (named 12) "" "https://b" [one_request] ∅ 0 None []]})
    ∅ ["p95<800ms"] false.

Lemma compiled_config_faithful_witness :
  ∃ cfg, Compiler.Taurus two_scenarios = Ok cfg ∧
    Forall2 (Compiler.compiles_to two_scenarios (Conf.cf_Scenarios cfg)) (Compiler.in_Tests two_scenarios)
      (Conf.cf_Execution cfg) ∧
    (Conf.rpt_Criteria <$> Conf.cf_Reporting cfg) = [["p95>=800ms"]].
Proof.
  destruct (Compiler.compiled_config_faithful two_scenarios) as (cfg & Hc & Hex & Hcr & _).
  - discriminate.
  - discriminate.
  - repeat constructor; eexists; (split; [vm_compute; reflexivity|]);
      (split; [reflexivity|]); (split; [vm_compute; discriminate|]); (split; [vm_compute; reflexivity|]);
      (split; [vm_compute; discriminate|]); (split; [reflexivity|]); vm_compute; discriminate.
  - exists cfg. split; [exact Hc|]. split; [exact Hex|]. rewrite Hcr. vm_compute. reflexivity.
Defined.
