(* ===== verification/Histogram.v ===== *)
(** * Response-time histograms and intervals ([internal/domain/metrics])

    A histogram is a map from response time to count.  The keys are floats
    other than NaN, and the two zeros are one key. *)
From S2P Require Import Prelude GoFloat.

Abbreviation Histogram := (gmap float64 Z).

(** ** Merging and counting ([histogram.go]) *)
Definition add_counts {K} `{Countable K} (m other : gmap K Z) : gmap K Z :=
  union_with (λ a b, Some (a +w b)) m other.

Definition Histogram_Merge (h other : Histogram) : Histogram := add_counts h other.

Definition Count (h : Histogram) : Z := sum64 snd (map_to_list h).

Definition clamp_percentile (p : float64) : float64 := fmin (fmax p fzero) (of_int 100).

Definition rank_of (total : Z) (p : float64) : Z :=
  let rank := to_int (fceil (fmul (fdiv (clamp_percentile p) (of_int 100)) (of_int total))) in
  if rank <? 1 then 1 else rank.

Definition buckets_of (h : Histogram) : list float64 := merge_sort sort_le (map_to_list h).*1.

Definition count_at (h : Histogram) (rt : float64) : Z := default 0 (h !! rt).

(** [buckets[len(buckets)-1]]. *)
Definition last_bucket (buckets : list float64) : float64 := List.last buckets fzero.

Fixpoint percentile_scan (h : Histogram) (rank : Z) (buckets : list float64) (seen : Z) :
    option float64 :=
  match buckets with
  | [] => None
  | rt :: rest =>
      let seen := seen +w count_at h rt in
      if rank <=? seen then Some rt else percentile_scan h rank rest seen
  end.

Definition Percentile (h : Histogram) (p : float64) : float64 :=
  let total := Count h in
  if total =? 0 then fzero
  else
    match percentile_scan h (rank_of total p) (buckets_of h) 0 with
    | Some rt => rt
    | None => last_bucket (buckets_of h)
    end.

(** [Percentiles]: the inner loop, from [sorted[idx]] on. *)
Fixpoint emit (total seen : Z) (rt : float64) (sorted : list float64)
    (out : gmap float64 float64) : list float64 * gmap float64 float64 :=
  match sorted with
  | [] => ([], out)
  | p :: rest =>
      if seen <? rank_of total p then (sorted, out)
      else emit total seen rt rest (<[p := rt]> out)
  end.

Fixpoint emit_all (h : Histogram) (total : Z) (buckets : list float64) (seen : Z)
    (sorted : list float64) (out : gmap float64 float64) : list float64 * gmap float64 float64 :=
  match buckets with
  | [] => (sorted, out)
  | rt :: rest =>
      let seen := seen +w count_at h rt in
      let '(sorted, out) := emit total seen rt sorted out in
      emit_all h total rest seen sorted out
  end.

Definition Percentiles (h : Histogram) (ps : list float64) : gmap float64 float64 :=
  let total := Count h in
  if total =? 0 then fold_left (λ out p, <[p := fzero]> out) ps ∅
  else
    let buckets := buckets_of h in
    let '(rest, out) := emit_all h total buckets 0 (merge_sort sort_le ps) ∅ in
    fold_left (λ out p, <[p := last_bucket buckets]> out) rest out.

(** ** Intervals ([interval.go]) *)
Record ErrorGroup := mkErrorGroup { eg_Message : string; eg_ResponseCode : string; eg_Count : Z }.
Record Interval := mkInterval {
  iv_Seq : Z;
  iv_Timestamp : Z;
  iv_Label : string;
  iv_Concurrency : Z;
  iv_Samples : Z;
  iv_Succeeded : Z;
  iv_Failed : Z;
  iv_Bytes : Z;
  iv_Latency : Histogram;
  iv_ResponseCodes : gmap string Z;
  iv_Errors : list ErrorGroup
}.
Record Batch := mkBatch {
  b_ExecutionID : Z;
  b_ScenarioID : Z;
  b_RunID : Z;
  b_ShardIndex : Z;
  b_StreamID : string;
  b_Intervals : list Interval;
  b_Cluster : string;
  b_Final : bool;
  b_ExitCode : option Z
}.

Fixpoint mergeError (e : ErrorGroup) (errors : list ErrorGroup) : list ErrorGroup :=
  match errors with
  | [] => [e]
  | x :: rest =>
      if bool_decide (eg_ResponseCode x = eg_ResponseCode e ∧ eg_Message x = eg_Message e)
      then mkErrorGroup (eg_Message x) (eg_ResponseCode x) (eg_Count x +w eg_Count e) :: rest
      else x :: mergeError e rest
  end.

Definition Interval_Merge (i other : Interval) : Interval :=
  mkInterval (iv_Seq i) (iv_Timestamp i) (iv_Label i)
    (iv_Concurrency i +w iv_Concurrency other) (iv_Samples i +w iv_Samples other)
    (iv_Succeeded i +w iv_Succeeded other) (iv_Failed i +w iv_Failed other)
    (iv_Bytes i +w iv_Bytes other) (Histogram_Merge (iv_Latency i) (iv_Latency other))
    (add_counts (iv_ResponseCodes i) (iv_ResponseCodes other))
    (fold_left (λ es e, mergeError e es) (iv_Errors other) (iv_Errors i)).

(** ** Properties *)

(** Counts are not negative, they add up within [int64], and the negative zero
    is not a key of its own. *)
Record hist_ok (h : Histogram) : Prop := {
  counts_nonneg : map_Forall (λ _ n, 0 <= n) h;
  counts_fit : sumZ snd (map_to_list h) <= int64_max;
  one_zero : h !! S754_zero true = None
}.

(** How many samples took at most [rt]. *)
Definition at_most (h : Histogram) (rt : float64) : Z :=
  sumZ snd (filter (λ kv, sort_le kv.1 rt) (map_to_list h)).

Section percentile_facts.
Context (h : Histogram).

Lemma elem_of_buckets rt : rt ∈ buckets_of h ↔ is_Some (h !! rt).
Proof.
  unfold buckets_of. rewrite merge_sort_Permutation, list_elem_of_fmap. split.
  - intros ([k n] & -> & Hk%elem_of_map_to_list). by exists n.
  - intros [n Hn]. exists (rt, n). split; [done|]. by apply elem_of_map_to_list.
Qed.

Lemma buckets_counts (P : float64 → Prop) `{!∀ x, Decision (P x)} :
  sumZ snd (filter (λ kv, P kv.1) (map_to_list h)) = sumZ (count_at h) (filter P (buckets_of h)).
Proof.
  assert (filter P (buckets_of h) ≡ₚ (filter (λ kv, P kv.1) (map_to_list h)).*1) as ->.
  { unfold buckets_of. by rewrite merge_sort_Permutation, filter_fmap. }
  rewrite sumZ_fmap. apply sumZ_ext. intros [k n] [_ Hk%elem_of_map_to_list]%list_elem_of_filter.
  unfold count_at. simpl. by rewrite Hk.
Qed.

Context (Hok : hist_ok h).

Lemma count_at_nonneg rt : 0 <= count_at h rt.
Proof using Hok.
  unfold count_at. destruct (h !! rt) as [n|] eqn:E; [|done]. by apply (counts_nonneg _ Hok _ _ E).
Qed.

Lemma sum_at_nonneg l : 0 <= sumZ (count_at h) l.
Proof using Hok. apply sumZ_nonneg. intros. apply count_at_nonneg. Qed.

Lemma sum_buckets : sumZ (count_at h) (buckets_of h) = sumZ snd (map_to_list h).
Proof.
  transitivity (sumZ (count_at h) (filter (λ _, True) (buckets_of h))).
  - by rewrite (filter_all (λ _, True)).
  - rewrite <- (buckets_counts (λ _, True)). by rewrite (filter_all (λ _, True)).
Qed.

Lemma Count_sum : Count h = sumZ (count_at h) (buckets_of h).
Proof using Hok.
  unfold Count. rewrite sum_buckets, sum64_small; [done|].
  pose proof (counts_fit _ Hok). pose proof (sum_at_nonneg (buckets_of h)) as Hn.
  rewrite sum_buckets in Hn. unfold in_int64, int64_min. lia.
Qed.

Lemma sum_prefix_fits l1 l2 : buckets_of h = l1 ++ l2 → in_int64 (sumZ (count_at h) l1).
Proof using Hok.
  intros E. pose proof (counts_fit _ Hok) as Hf. rewrite <- sum_buckets, E, sumZ_app in Hf.
  pose proof (sum_at_nonneg l1). pose proof (sum_at_nonneg l2).
  unfold in_int64, int64_min. lia.
Qed.

(** A bucket divides the others into those strictly before and strictly after. *)
Lemma buckets_split l1 rt l2 :
  buckets_of h = l1 ++ rt :: l2 →
  (∀ x, x ∈ l1 → sort_le x rt ∧ ¬ sort_le rt x) ∧ (∀ y, y ∈ l2 → ¬ sort_le y rt).
Proof using Hok.
  intros E.
  assert (StronglySorted sort_le (buckets_of h)) as Hs by (apply StronglySorted_merge_sort; apply _).
  assert (NoDup (buckets_of h)) as Hnd.
  { unfold buckets_of. rewrite merge_sort_Permutation. apply NoDup_fst_map_to_list. }
  assert (∀ x, x ∈ buckets_of h → x ≠ S754_zero true) as Hz.
  { intros x [n Hn]%elem_of_buckets ->. by rewrite (one_zero _ Hok) in Hn. }
  rewrite E in Hs, Hnd, Hz. apply StronglySorted_app in Hs as (Hcross & _ & Hs2).
  apply StronglySorted_cons in Hs2 as [Hall _].
  apply NoDup_app in Hnd as (_ & Hd & [Hrt _]%NoDup_cons).
  split.
  - intros x Hx. assert (sort_le x rt) as Hle by (apply Hcross; [done|by left]).
    split; [done|]. intros Hge. apply (Hd x Hx).
    rewrite (sort_le_antisym x rt); [by left|done|done|apply Hz..];
      rewrite elem_of_app; [by left|right; left].
  - intros y Hy Hle. rewrite Forall_forall in Hall. apply Hrt.
    rewrite (sort_le_antisym rt y); [done|by apply Hall|done|apply Hz..];
      rewrite elem_of_app; right; [left|by right].
Qed.

Lemma at_most_split l1 rt l2 :
  buckets_of h = l1 ++ rt :: l2 → at_most h rt = sumZ (count_at h) (l1 ++ [rt]).
Proof using Hok.
  intros E. destruct (buckets_split _ _ _ E) as [H1 H2].
  transitivity (sumZ (count_at h) (filter (λ x, sort_le x rt) (buckets_of h)));
    [exact (buckets_counts (λ x, sort_le x rt))|]. rewrite E. f_equal.
  rewrite filter_app, filter_cons, decide_True by (destruct (total sort_le rt rt); done).
  f_equal; [|f_equal].
  - apply filter_all. intros x Hx. by apply H1.
  - apply filter_none. intros y Hy. by apply H2.
Qed.

Lemma percentile_scan_spec rank pre rest :
  buckets_of h = pre ++ rest →
  match percentile_scan h rank rest (sumZ (count_at h) pre) with
  | Some rt => ∃ l1 l2, rest = l1 ++ rt :: l2 ∧
      rank <= sumZ (count_at h) (pre ++ l1 ++ [rt]) ∧
      (sumZ (count_at h) pre < rank → sumZ (count_at h) (pre ++ l1) < rank)
  | None => sumZ (count_at h) pre < rank → sumZ (count_at h) (pre ++ rest) < rank
  end.
Proof using Hok.
  revert pre. induction rest as [|rt rest IH]; intros pre E; simpl.
  { by rewrite app_nil_r. }
  assert (sumZ (count_at h) pre +w count_at h rt = sumZ (count_at h) (pre ++ [rt])) as ->.
  { rewrite sumZ_app, wrap64_small; simpl; [lia|].
    pose proof (sum_prefix_fits (pre ++ [rt]) rest) as Hf. rewrite sumZ_app in Hf. simpl in Hf.
    rewrite Z.add_0_r in Hf. apply Hf. by rewrite <- app_assoc. }
  destruct (Z.leb_spec rank (sumZ (count_at h) (pre ++ [rt]))).
  - exists [], rest. rewrite app_nil_r. done.
  - specialize (IH (pre ++ [rt]) ltac:(by rewrite <- app_assoc)).
    destruct (percentile_scan _ _ _ _) as [rt'|].
    + destruct IH as (l1 & l2 & -> & Hge & Hlt). exists (rt :: l1), l2.
      rewrite <- !app_assoc in *. simpl in *. naive_solver.
    + rewrite <- app_assoc in IH. simpl in IH. naive_solver.
Qed.
End percentile_facts.

Lemma rank_of_pos total p : 1 <= rank_of total p.
Proof. unfold rank_of. set (r := to_int _). destruct (Z.ltb_spec r 1); lia. Qed.

(** A percentile is the nearest-rank one: it is a recorded response time at
    or below which at least the rank's worth of samples (or all of them) fall,
    and below every smaller recorded time fewer do. *)
Theorem percentile_nearest_rank h p :
  hist_ok h → Count h ≠ 0 →
  is_Some (h !! Percentile h p) ∧
  Z.min (rank_of (Count h) p) (Count h) <= at_most h (Percentile h p) ∧
  ∀ rt, is_Some (h !! rt) → ¬ sort_le (Percentile h p) rt → at_most h rt < rank_of (Count h) p.
Proof.
  intros Hok Hc. unfold Percentile. rewrite (proj2 (Z.eqb_neq _ _) Hc).
  set (rank := rank_of (Count h) p). pose proof (rank_of_pos (Count h) p) as Hrank. fold rank in Hrank.
  pose proof (percentile_scan_spec h Hok rank [] (buckets_of h) eq_refl) as Hscan.
  assert (∀ l1 rt l2, buckets_of h = l1 ++ rt :: l2 →
    Z.min rank (Count h) <= sumZ (count_at h) (l1 ++ [rt]) → sumZ (count_at h) l1 < rank →
    is_Some (h !! rt) ∧ Z.min rank (Count h) <= at_most h rt ∧
    ∀ rt', is_Some (h !! rt') → ¬ sort_le rt rt' → at_most h rt' < rank) as Hcore.
  { intros l1 rt l2 E Hge Hlt. split; [apply elem_of_buckets; rewrite E; set_solver|].
    rewrite (at_most_split h Hok l1 rt l2 E). split; [done|].
    intros rt' Hin Hns. apply elem_of_buckets in Hin. rewrite E, elem_of_app, elem_of_cons in Hin.
    destruct Hin as [Hin|[->|Hin]]; [|by destruct (total sort_le rt rt)|].
    - apply list_elem_of_split in Hin as (k1 & k2 & ->).
      rewrite (at_most_split h Hok k1 rt' (k2 ++ rt :: l2)) by (by rewrite E, <- app_assoc).
      rewrite !sumZ_app in *. simpl in *. pose proof (sum_at_nonneg h Hok k2). lia.
    - destruct (buckets_split h Hok _ _ _ E) as [_ H2].
      by destruct (total sort_le rt rt'), (H2 rt' Hin). }
  change (sumZ (count_at h) []) with 0 in Hscan.
  destruct (percentile_scan _ _ _ _) as [rt|].
  - destruct Hscan as (l1 & l2 & E & Hge & Hlt). apply (Hcore l1 rt l2 E); simpl in *; lia.
  - specialize (Hscan ltac:(lia)). simpl in Hscan. rewrite <- (Count_sum h Hok) in Hscan.
    destruct (decide (buckets_of h = [])) as [E|E].
    { rewrite (Count_sum h Hok), E in Hc. done. }
    pose proof (app_removelast_last fzero E) as E'.
    apply (Hcore _ _ [] E'); rewrite <- ?E', <- ?(Count_sum h Hok); [lia|].
    pose proof (Count_sum h Hok) as Hs. rewrite E', sumZ_app in Hs. simpl in Hs.
    pose proof (count_at_nonneg h Hok (List.last (buckets_of h) fzero)). lia.
Qed.

(** *** Several percentiles in one pass *)
Section percentiles_facts.
Context (h : Histogram) (total : Z).
Local Abbreviation rank := (rank_of total).
Local Abbreviation by_rank := (StronglySorted (λ p q, rank p <= rank q)).

(** One bucket answers the percentiles whose rank it reaches, which are the
    first of those left. *)
Lemma emit_spec seen rt sorted out :
  by_rank sorted →
  let '(rest, out') := emit total seen rt sorted out in
  by_rank rest ∧
  (∀ p, p ∈ rest ↔ p ∈ sorted ∧ seen < rank p) ∧
  (∀ p, out' !! p = if decide (p ∈ sorted ∧ rank p <= seen) then Some rt else out !! p).
Proof.
  revert out. induction sorted as [|p rest IH]; intros out Hs; cbn [emit].
  { split_and!; [done|set_solver|]. intros q. rewrite decide_False; [done|set_solver]. }
  pose proof Hs as [Hall Hs']%StronglySorted_cons. rewrite Forall_forall in Hall.
  destruct (Z.ltb_spec seen (rank p)) as [Hlt|Hge].
  - assert (∀ q, q ∈ p :: rest → seen < rank q) as Hgt.
    { intros q [->|Hq]%elem_of_cons; [done|]. specialize (Hall q Hq). lia. }
    split_and!; [done|naive_solver|]. intros q. rewrite decide_False; [done|].
    intros [Hq ?]. specialize (Hgt q Hq). lia.
  - specialize (IH (<[p := rt]> out) Hs').
    destruct (emit total seen rt rest (<[p := rt]> out)) as [rest' out'].
    destruct IH as (Hr & Hin & Hout). split_and!; [done| |].
    + intros q. rewrite Hin, elem_of_cons. naive_solver lia.
    + intros q. rewrite Hout. destruct (decide (q = p)) as [->|Hne].
      * rewrite lookup_insert_eq. rewrite (decide_True _ _ (P := p ∈ p :: rest ∧ _))
          by (split; [left|lia]). by case_decide.
      * rewrite lookup_insert_ne by done. apply decide_ext. set_solver.
Qed.

Lemma emit_all_spec buckets seen sorted out :
  by_rank sorted →
  let '(rest, out') := emit_all h total buckets seen sorted out in
  (∀ p, p ∈ rest ↔ p ∈ sorted ∧ percentile_scan h (rank p) buckets seen = None) ∧
  (∀ p rt, p ∈ sorted → percentile_scan h (rank p) buckets seen = Some rt → out' !! p = Some rt) ∧
  (∀ p, p ∉ sorted → out' !! p = out !! p).
Proof.
  revert seen sorted out. induction buckets as [|rt buckets IH]; intros seen sorted out Hs;
    cbn [emit_all percentile_scan].
  { split_and!; [naive_solver|done|done]. }
  set (seen' := seen +w count_at h rt). pose proof (emit_spec seen' rt sorted out Hs) as He.
  destruct (emit total seen' rt sorted out) as [sorted' out1]. destruct He as (Hs' & Hin & Hout).
  specialize (IH seen' sorted' out1 Hs').
  destruct (emit_all h total buckets seen' sorted' out1) as [rest out2].
  destruct IH as (Hrest & Hfound & Hkeep). split_and!.
  - intros p. rewrite Hrest, Hin. destruct (Z.leb_spec (rank p) seen'); naive_solver lia.
  - intros p rt' Hp. destruct (Z.leb_spec (rank p) seen') as [Hle|Hgt].
    + intros [= <-]. rewrite Hkeep by (rewrite Hin; lia). rewrite Hout. by rewrite decide_True.
    + apply Hfound. by rewrite Hin.
  - intros p Hp. rewrite Hkeep by naive_solver. rewrite Hout, decide_False; naive_solver.
Qed.
End percentiles_facts.

Lemma fold_insert_lookup (v : float64) l (m : gmap float64 float64) p :
  fold_left (λ out q, <[q := v]> out) l m !! p = if decide (p ∈ l) then Some v else m !! p.
Proof.
  revert m. induction l as [|q l IH]; intros m; cbn [fold_left].
  { rewrite decide_False; [done|apply not_elem_of_nil]. }
  rewrite IH. destruct (decide (p = q)) as [->|Hne].
  - rewrite lookup_insert_eq, (decide_True _ _ (P := q ∈ q :: l)) by left. by case_decide.
  - rewrite lookup_insert_ne by done. apply decide_ext. rewrite elem_of_cons. naive_solver.
Qed.

(** The one-pass routine a report uses gives, for every percentile asked
    for, exactly the response time the reference routine gives, provided the
    ranks grow with the percentiles asked for. *)
Theorem percentiles_agree h ps p :
  StronglySorted (λ p q, rank_of (Count h) p <= rank_of (Count h) q) (merge_sort sort_le ps) →
  p ∈ ps → Percentiles h ps !! p = Some (Percentile h p).
Proof.
  intros Hs Hp. unfold Percentiles, Percentile.
  destruct (Z.eqb_spec (Count h) 0) as [|_].
  { rewrite fold_insert_lookup. by rewrite decide_True. }
  pose proof (emit_all_spec h (Count h) (buckets_of h) 0 _ ∅ Hs) as He.
  destruct (emit_all _ _ _ _ _ _) as [rest out]. destruct He as (Hrest & Hfound & _).
  rewrite fold_insert_lookup.
  assert (p ∈ merge_sort sort_le ps) as Hp' by (by rewrite merge_sort_Permutation).
  destruct (percentile_scan h (rank_of (Count h) p) (buckets_of h) 0) as [rt|] eqn:Hscan.
  - rewrite decide_False; [by apply Hfound|]. rewrite Hrest. naive_solver.
  - rewrite decide_True; [done|]. by rewrite Hrest.
Qed.

(** A histogram of 200 samples at 0.5s, 1s and 3s. *)
Definition half : float64 := fdiv (of_int 1) (of_int 2).
Definition three_buckets : Histogram := {[ half := 120; of_int 1 := 70; of_int 3 := 10 ]}.

Lemma percentile_nearest_rank_witness :
  is_Some (three_buckets !! Percentile three_buckets (of_int 95)) ∧
  at_most three_buckets half < rank_of (Count three_buckets) (of_int 95).
Proof.
  assert (hist_ok three_buckets) as Hok.
  { split; [|vm_compute; discriminate|vm_compute; reflexivity].
    refine (bool_decide_unpack _ _). vm_compute. exact I. }
  assert (Count three_buckets ≠ 0) as Hc by (vm_compute; discriminate).
  destruct (percentile_nearest_rank three_buckets (of_int 95) Hok Hc) as (H1 & _ & H2).
  split; [exact H1|]. apply H2; [exists 120; vm_compute; reflexivity|].
  intros [H|H]; vm_compute in H; discriminate.
Defined.

Lemma percentiles_agree_witness :
  Percentiles three_buckets (of_int <$> [99; 50; 95]) !! of_int 95 = Some (of_int 1).
Proof.
  rewrite (percentiles_agree three_buckets (of_int <$> [99; 50; 95]) (of_int 95)).
  - vm_compute. reflexivity.
  - assert (merge_sort sort_le (of_int <$> [99; 50; 95]) = [of_int 50; of_int 95; of_int 99]) as ->
      by (vm_compute; reflexivity).
    repeat first [apply SSorted_nil|apply SSorted_cons|apply Forall_nil_2|apply Forall_cons_2];
      vm_compute; discriminate.
  - right. right. left.
Defined.
