(* ===== verification/Report.v ===== *)
(** * Run reports ([internal/domain/report])

    What a run's measurements are reduced to while it is running (the
    accumulator), and the report made of them when it ends. *)
From S2P Require Import Prelude Errors GoStrings GoFloat LoadProfile Taurus Histogram.

Definition TotalLabel : string := "__total__".

(** ** Who a failure belongs to ([attribution.go]) *)
Inductive Side := SideTarget | SideEngine | SideUnknown.
#[global] Instance Side_eq_dec : EqDecision Side.
Proof. solve_decision. Defined.
#[global] Instance Side_countable : Countable Side.
Proof.
  refine (inj_countable'
    (λ s, match s with SideTarget => 0 | SideEngine => 1 | SideUnknown => 2 end : Z)
    (λ n, if n =? 0 then SideTarget else if n =? 1 then SideEngine else SideUnknown) _).
  by intros [].
Defined.
Definition side_string (s : Side) : string :=
  match s with SideTarget => "target" | SideEngine => "engine" | SideUnknown => "unknown" end.

Definition engineFaults : list string :=
  ["too many open files"; "cannot assign requested address"; "outofmemoryerror";
   "out of memory"; "cannot allocate memory"; "taurus internal exception"; "tool error";
   "no space left on device"].
Definition targetFaults : list string :=
  ["connection refused"; "connection reset"; "connection timed out"; "read timed out";
   "i/o timeout"; "timeout awaiting"; "no route to host"; "eofexception"; "unexpected eof";
   "remote end closed connection"; "connection aborted"].

Definition isResponseCode (code : string) : bool :=
  match Atoi (TrimSpace code) with
  | Some n => (100 <=? n) && (n <=? 599)
  | None => false
  end.

Definition AttributeError (e : ErrorGroup) : Side :=
  if isResponseCode (eg_ResponseCode e) then SideTarget
  else
    let msg := ToLower (eg_Message e) in
    if bool_decide (msg = "") then SideUnknown
    else if existsb (Contains msg) engineFaults then SideEngine
    else if existsb (Contains msg) targetFaults then SideTarget
    else SideUnknown.

Record Attribution := mkAttribution { at_Target : Z; at_Engine : Z; at_Unknown : Z }.
Definition Attribution_Total (a : Attribution) : Z := at_Target a +w at_Engine a +w at_Unknown a.

(** ** Error signatures ([signature.go]) *)
Definition MaxExemplars : Z := 3.
Definition MaxExemplarLen : Z := 300.

Record Signature := mkSignature { sg_Label : string; sg_ResponseCode : string; sg_Side : Side }.
#[global] Instance Signature_eq_dec : EqDecision Signature.
Proof. solve_decision. Defined.
#[global] Instance Signature_countable : Countable Signature.
Proof.
  refine (inj_countable' (λ s, (sg_Label s, sg_ResponseCode s, sg_Side s))
    (λ '(l, c, s), mkSignature l c s) _).
  by intros [].
Defined.

Definition NewSignature (label : string) (e : ErrorGroup) : Signature :=
  let code := TrimSpace (eg_ResponseCode e) in
  mkSignature label (if isResponseCode code then code else "") (AttributeError e).

Definition Signature_String (s : Signature) : string :=
  side_string (sg_Side s) +:+ "|" +:+ sg_ResponseCode s +:+ "|" +:+ sg_Label s.

Record ErrorSignature := mkErrorSignature {
  er_Signature : Signature; er_Count : Z; er_Exemplars : list string
}.

Definition addExemplar (msg : string) (exemplars : list string) : list string :=
  let msg := TrimSpace msg in
  if bool_decide (msg = "") || (MaxExemplars <=? Z.of_nat (length exemplars)) then exemplars
  else
    let rs := runes msg in
    let msg := if MaxExemplarLen <? Z.of_nat (length rs)
               then of_runes (take (Z.to_nat MaxExemplarLen) rs) else msg in
    if bool_decide (msg ∈ exemplars) then exemplars else exemplars ++ [msg].

Definition MergeExemplars (kept incoming : list string) : list string :=
  fold_left (λ l msg, addExemplar msg l) incoming (fold_left (λ l msg, addExemplar msg l) kept []).

(** ** The accumulator ([accumulate.go]) *)
Record labelState := mkLabelState {
  ls_codes : gmap string Z; ls_samples : Z; ls_failed : Z; ls_latency : Histogram
}.
Record LabelLatencyTally := mkTally { ll_Sum : float64; ll_Samples : Z }.
Record secondState := mkSecondState {
  sc_engine : Z;
  sc_labels : Z;
  sc_latSum : float64;
  sc_latSamples : Z;
  sc_labelLatency : gmap string LabelLatencyTally
}.
Record Accumulator := mkAccumulator {
  acc_labels : gmap string labelState;
  acc_seconds : gmap Z secondState;
  acc_signatures : gmap Signature ErrorSignature
}.

Definition NewAccumulator : Accumulator := mkAccumulator ∅ ∅ ∅.
Definition empty_second : secondState := mkSecondState 0 0 fzero 0 ∅.
Definition empty_label : labelState := mkLabelState ∅ 0 0 ∅.
Definition empty_tally : LabelLatencyTally := mkTally fzero 0.

(** The loop over an interval's response times, in increasing order: the
    second's own sum and count, and its label's. *)
Definition tally_step (h : Histogram) (st : float64 * Z * LabelLatencyTally) (rt : float64) :
    float64 * Z * LabelLatencyTally :=
  let '(latSum, latSamples, t) := st in
  let n := count_at h rt in
  let sum := fmul rt (of_int n) in
  (fadd latSum sum, latSamples +w n, mkTally (fadd (ll_Sum t) sum) (ll_Samples t +w n)).

Definition add_second (iv : Interval) (sec : secondState) : secondState :=
  if bool_decide (iv_Label iv = TotalLabel) then
    mkSecondState (sc_engine sec +w iv_Concurrency iv) (sc_labels sec) (sc_latSum sec)
      (sc_latSamples sec) (sc_labelLatency sec)
  else if bool_decide (iv_Latency iv = ∅) then
    mkSecondState (sc_engine sec) (sc_labels sec +w iv_Concurrency iv) (sc_latSum sec)
      (sc_latSamples sec) (sc_labelLatency sec)
  else
    let '(latSum, latSamples, t) :=
      fold_left (tally_step (iv_Latency iv)) (buckets_of (iv_Latency iv))
        (sc_latSum sec, sc_latSamples sec,
         default empty_tally (sc_labelLatency sec !! iv_Label iv)) in
    mkSecondState (sc_engine sec) (sc_labels sec +w iv_Concurrency iv) latSum latSamples
      (<[iv_Label iv := t]> (sc_labelLatency sec)).

Definition add_label (iv : Interval) (st : labelState) : labelState :=
  mkLabelState (add_counts (ls_codes st) (iv_ResponseCodes iv)) (ls_samples st +w iv_Samples iv)
    (ls_failed st +w iv_Failed iv) (Histogram_Merge (ls_latency st) (iv_Latency iv)).

Definition add_error (label : string) (sigs : gmap Signature ErrorSignature) (e : ErrorGroup) :
    gmap Signature ErrorSignature :=
  let sig := NewSignature label e in
  let existing := default (mkErrorSignature sig 0 []) (sigs !! sig) in
  <[sig := mkErrorSignature (er_Signature existing) (er_Count existing +w eg_Count e)
             (addExemplar (eg_Message e) (er_Exemplars existing))]> sigs.

Definition Add (iv : Interval) (a : Accumulator) : Accumulator :=
  let sec := default empty_second (acc_seconds a !! iv_Timestamp iv) in
  let seconds := <[iv_Timestamp iv := add_second iv sec]> (acc_seconds a) in
  if bool_decide (iv_Label iv = TotalLabel) then
    mkAccumulator (acc_labels a) seconds (acc_signatures a)
  else
    let st := default empty_label (acc_labels a !! iv_Label iv) in
    mkAccumulator (<[iv_Label iv := add_label iv st]> (acc_labels a)) seconds
      (fold_left (add_error (iv_Label iv)) (iv_Errors iv) (acc_signatures a)).

(** *** Writing the state down and reading it back *)
Record LabelProgress := mkLabelProgress {
  lp_Label : string; lp_Samples : Z; lp_Failed : Z; lp_Latency : Histogram;
  lp_Codes : gmap string Z
}.
Record SecondProgress := mkSecondProgress {
  sp_Second : Z; sp_Engine : Z; sp_Labels : Z; sp_LatencySum : float64;
  sp_LatencySamples : Z; sp_LabelLatency : gmap string LabelLatencyTally
}.
Record Snapshot := mkSnapshot {
  sn_Labels : list LabelProgress;
  sn_Seconds : list SecondProgress;
  sn_Signatures : list ErrorSignature
}.

Definition label_le (a b : LabelProgress) : Prop := str_le (lp_Label a) (lp_Label b).
#[global] Instance label_le_dec a b : Decision (label_le a b).
Proof. unfold label_le. apply _. Defined.
Definition second_le (a b : SecondProgress) : Prop := sp_Second a <= sp_Second b.
#[global] Instance second_le_dec a b : Decision (second_le a b).
Proof. unfold second_le. apply _. Defined.
Definition signature_le (a b : ErrorSignature) : Prop :=
  str_le (Signature_String (er_Signature a)) (Signature_String (er_Signature b)).
#[global] Instance signature_le_dec a b : Decision (signature_le a b).
Proof. unfold signature_le. apply _. Defined.

Definition label_progress (kv : string * labelState) : LabelProgress :=
  mkLabelProgress kv.1 (ls_samples kv.2) (ls_failed kv.2) (ls_latency kv.2) (ls_codes kv.2).
Definition second_progress (kv : Z * secondState) : SecondProgress :=
  mkSecondProgress kv.1 (sc_engine kv.2) (sc_labels kv.2) (sc_latSum kv.2) (sc_latSamples kv.2)
    (sc_labelLatency kv.2).

Definition Accumulator_Snapshot (a : Accumulator) : Snapshot :=
  mkSnapshot
    (merge_sort label_le (label_progress <$> map_to_list (acc_labels a)))
    (merge_sort second_le (second_progress <$> map_to_list (acc_seconds a)))
    (merge_sort signature_le (map_to_list (acc_signatures a)).*2).

Definition Restore (s : Snapshot) : Accumulator :=
  mkAccumulator
    (fold_left (λ m l,
       <[lp_Label l := mkLabelState (lp_Codes l) (lp_Samples l) (lp_Failed l)
                         (Histogram_Merge ∅ (lp_Latency l))]> m) (sn_Labels s) ∅)
    (fold_left (λ m sec,
       <[sp_Second sec := mkSecondState (sp_Engine sec) (sp_Labels sec) (sp_LatencySum sec)
                            (sp_LatencySamples sec) (sp_LabelLatency sec)]> m) (sn_Seconds s) ∅)
    (fold_left (λ m e, <[er_Signature e := e]> m) (sn_Signatures s) ∅).

(** ** Reports ([report.go], [soak.go]) *)
Definition reportedPercentiles : list float64 := of_int <$> [50; 90; 95; 99].

Record StepLoad := mkStepLoad {
  sl_Index : Z; sl_Throughput : float64; sl_Concurrency : Z; sl_DurationSeconds : Z
}.
Record Load := mkLoad {
  ld_Concurrency : Z; ld_Throughput : float64; ld_DurationSeconds : Z; ld_Steps : list StepLoad;
  ld_Samples : Z; ld_Failed : Z
}.
Record StatusLabel := mkStatusLabel { sta_Code : string; sta_Count : Z }.
Record LabelSummary := mkLabelSummary {
  lsm_Label : string; lsm_Samples : Z; lsm_Failed : Z; lsm_ErrorRate : float64;
  lsm_Latency : gmap float64 float64; lsm_Statuses : list StatusLabel
}.
Record LabelSoakTrend := mkLabelSoakTrend {
  lst_Label : string; lst_FirstHalfMs : float64; lst_SecondHalfMs : float64;
  lst_SlopeMsPerMin : float64; lst_LeakSuspected : bool
}.
Record SoakTrend := mkSoakTrend {
  so_FirstHalfMs : float64; so_SecondHalfMs : float64; so_SlopeMsPerMin : float64;
  so_LeakSuspected : bool; so_Labels : list LabelSoakTrend
}.
Record ClusterResult := mkClusterResult {
  cr_Cluster : string; cr_Outcome : option Outcome; cr_Samples : Z; cr_Failed : Z
}.
Record Meta := mkMeta {
  m_ExecutionID : Z; m_ScenarioID : Z; m_RunID : Z; m_Engine : Executor; m_Cluster : string;
  m_CorrelationID : string; m_StartedAt : time; m_EndedAt : time; m_Requested : Load;
  m_Outcome : Outcome
}.
Record Report := mkReport {
  rep_ExecutionID : Z;
  rep_ScenarioID : Z;
  rep_RunID : Z;
  rep_Engine : Executor;
  rep_Cluster : string;
  rep_CorrelationID : string;
  rep_StartedAt : time;
  rep_EndedAt : time;
  rep_Outcome : Outcome;
  rep_Requested : Load;
  rep_Achieved : Load;
  rep_ErrorRate : float64;
  rep_Latency : gmap float64 float64;
  rep_Attribution : Attribution;
  rep_Errors : list ErrorSignature;
  rep_Labels : list LabelSummary;
  rep_ClusterResults : list ClusterResult;
  rep_SoakTrend : option SoakTrend;
  rep_Starred : bool;
  rep_Note : string
}.

Definition rate (part whole : Z) : float64 :=
  if whole <=? 0 then fzero else fdiv (of_int part) (of_int whole).
Definition perSecond (samples seconds : Z) : float64 :=
  if seconds <=? 0 then fzero else fdiv (of_int samples) (of_int seconds).

(** [d.Round(time.Second).Seconds()] as an integer, for a positive [d]. *)
Definition rounded_seconds (d : duration) : Z :=
  let r := d mod second in
  let d' := if 2 * r <? second then d - r
            else let d1 := d +w (second - r) in if d <? d1 then d1 else int64_max in
  d' / second.

Definition Meta_achievedSeconds (m : Meta) : Z :=
  let secs := rounded_seconds (time_Sub (m_EndedAt m) (m_StartedAt m)) in
  if negb (IsZero (m_StartedAt m)) && After (m_EndedAt m) (m_StartedAt m) && (0 <? secs)
  then secs else ld_DurationSeconds (m_Requested m).

(** *** The accumulator's figures *)
Definition users (sec : secondState) : Z :=
  if sc_labels sec <? sc_engine sec then sc_engine sec else sc_labels sec.
Definition peak (a : Accumulator) : Z :=
  fold_left (λ p sec, if p <? users sec then users sec else p) (map_to_list (acc_seconds a)).*2 0.

Definition span_step (lh : option (Z * Z)) (ts : Z) : option (Z * Z) :=
  match lh with
  | None => Some (ts, ts)
  | Some (lo, hi) => Some (if ts <? lo then ts else lo, if hi <? ts then ts else hi)
  end.
Definition measuredSpanSeconds (a : Accumulator) : option Z :=
  match fold_left span_step (map_to_list (acc_seconds a)).*1 None with
  | None => None
  | Some (lo, hi) => Some (hi -w lo +w 1)
  end.
Definition achievedSeconds (m : Meta) (a : Accumulator) : Z :=
  match measuredSpanSeconds a with Some span => span | None => Meta_achievedSeconds m end.

Definition status_le (a b : StatusLabel) : Prop :=
  sta_Count b < sta_Count a ∨ sta_Count a = sta_Count b ∧ str_le (sta_Code a) (sta_Code b).
#[global] Instance status_le_dec a b : Decision (status_le a b).
Proof. unfold status_le. apply _. Defined.
Definition statusLabels (codes : gmap string Z) : list StatusLabel :=
  merge_sort status_le ((λ kv, mkStatusLabel kv.1 kv.2) <$> map_to_list codes).

Definition error_le (a b : ErrorSignature) : Prop :=
  er_Count b < er_Count a ∨ er_Count a = er_Count b ∧ signature_le a b.
#[global] Instance error_le_dec a b : Decision (error_le a b).
Proof. unfold error_le. apply _. Defined.

Definition attribute (attr : Attribution) (e : Side * Z) : Attribution :=
  match e.1 with
  | SideTarget => mkAttribution (at_Target attr +w e.2) (at_Engine attr) (at_Unknown attr)
  | SideEngine => mkAttribution (at_Target attr) (at_Engine attr +w e.2) (at_Unknown attr)
  | SideUnknown => mkAttribution (at_Target attr) (at_Engine attr) (at_Unknown attr +w e.2)
  end.
Definition errors (a : Accumulator) : list ErrorSignature * Attribution :=
  let es := (map_to_list (acc_signatures a)).*2 in
  (merge_sort error_le es,
   fold_left attribute ((λ e, (sg_Side (er_Signature e), er_Count e)) <$> es)
     (mkAttribution 0 0 0)).

(** *** Soak trends *)
Definition soakTrendMinSampledSeconds : Z := 120.
Definition soakLeakHalfGrowth : float64 := fdiv (of_int 3) (of_int 2).
Definition msPerSecond : float64 := of_int 1000.
Definition secondsPerMin : float64 := of_int 60.

Record secondMean := mkSecondMean { sm_ts : Z; sm_sum : float64; sm_samples : Z }.

Definition meanMs (sum : float64) (n : Z) : float64 :=
  if n <=? 0 then fzero else fmul (fdiv sum (of_int n)) msPerSecond.

Definition half_totals (l : list secondMean) : float64 * Z :=
  fold_left (λ sn m, (fadd sn.1 (sm_sum m), sn.2 +w sm_samples m)) l (fzero, 0).

Definition regress_step (base : Z) (acc : float64 * float64 * float64 * float64) (m : secondMean) :
    float64 * float64 * float64 * float64 :=
  let '(sumX, sumY, sumXY, sumXX) := acc in
  let x := of_int (sm_ts m -w base) in
  let y := fdiv (sm_sum m) (of_int (sm_samples m)) in
  (fadd sumX x, fadd sumY y, fadd sumXY (fmul x y), fadd sumXX (fmul x x)).

Definition slope_of (sampled : list secondMean) : float64 :=
  match sampled with
  | [] => fzero
  | m0 :: _ =>
      let '(sumX, sumY, sumXY, sumXX) :=
        fold_left (regress_step (sm_ts m0)) sampled (fzero, fzero, fzero, fzero) in
      let n := of_int (Z.of_nat (length sampled)) in
      let varX := fsub sumXX (fdiv (fmul sumX sumX) n) in
      if fgt varX fzero then
        fmul (fmul (fdiv (fsub sumXY (fdiv (fmul sumX sumY) n)) varX) msPerSecond) secondsPerMin
      else fzero
  end.

Definition soakFigures (sampled : list secondMean) : float64 * float64 * float64 * bool :=
  let half := (length sampled / 2)%nat in
  let '(firstSum, firstN) := half_totals (take half sampled) in
  let '(secondSum, secondN) := half_totals (drop half sampled) in
  let first := meanMs firstSum firstN in
  let second := meanMs secondSum secondN in
  let slope := slope_of sampled in
  (first, second, slope,
   fgt first fzero && fgt second (fmul soakLeakHalfGrowth first) && fgt slope fzero).

Definition mean_le (a b : secondMean) : Prop := sm_ts a <= sm_ts b.
#[global] Instance mean_le_dec a b : Decision (mean_le a b).
Proof. unfold mean_le. apply _. Defined.

Definition sampled_means (seconds : gmap Z secondState) : list secondMean :=
  merge_sort mean_le
    (map_to_list seconds ≫= λ kv,
       if 0 <? sc_latSamples kv.2 then [mkSecondMean kv.1 (sc_latSum kv.2) (sc_latSamples kv.2)]
       else []).

Definition soakTrend (seconds : gmap Z secondState) : option SoakTrend :=
  let means := sampled_means seconds in
  if Z.of_nat (length means) <? soakTrendMinSampledSeconds then None
  else
    let '(first, second, slope, leak) := soakFigures means in
    Some (mkSoakTrend first second slope leak []).

(** One label's seconds, in time order. *)
Definition label_means (name : string) (seconds : gmap Z secondState) : list secondMean :=
  merge_sort mean_le
    (map_to_list seconds ≫= λ kv,
       match sc_labelLatency kv.2 !! name with
       | Some t => if 0 <? ll_Samples t then [mkSecondMean kv.1 (ll_Sum t) (ll_Samples t)] else []
       | None => []
       end).
Definition sampled_labels (seconds : gmap Z secondState) : gset string :=
  list_to_set (map_to_list seconds ≫= λ kv,
    (filter (λ lt, 0 < ll_Samples lt.2) (map_to_list (sc_labelLatency kv.2))).*1).

Definition soakTrendLabels (seconds : gmap Z secondState) : list LabelSoakTrend :=
  merge_sort str_le (elements (sampled_labels seconds)) ≫= λ name,
    let pts := label_means name seconds in
    if Z.of_nat (length pts) <? soakTrendMinSampledSeconds then []
    else
      let '(first, second, slope, leak) := soakFigures pts in
      [mkLabelSoakTrend name first second slope leak].

(** *** The report *)
Definition label_summary (a : Accumulator) (name : string) : LabelSummary :=
  let st := default empty_label (acc_labels a !! name) in
  mkLabelSummary name (ls_samples st) (ls_failed st) (rate (ls_failed st) (ls_samples st))
    (Percentiles (ls_latency st) reportedPercentiles) (statusLabels (ls_codes st)).

Definition overall_latency (a : Accumulator) : Histogram :=
  fold_left (λ h st, Histogram_Merge h (ls_latency st)) (map_to_list (acc_labels a)).*2 ∅.

Definition Accumulator_Report (m : Meta) (a : Accumulator) : Report :=
  let states := (map_to_list (acc_labels a)).*2 in
  let samples := sum64 ls_samples states in
  let failed := sum64 ls_failed states in
  let secs := achievedSeconds m a in
  let '(errs, attr) := errors a in
  mkReport (m_ExecutionID m) (m_ScenarioID m) (m_RunID m) (m_Engine m) (m_Cluster m)
    (m_CorrelationID m) (m_StartedAt m) (m_EndedAt m) (m_Outcome m) (m_Requested m)
    (mkLoad (peak a) (perSecond samples secs) secs [] samples failed)
    (rate failed samples) (Percentiles (overall_latency a) reportedPercentiles) attr errs
    (label_summary a <$> merge_sort str_le (map_to_list (acc_labels a)).*1) []
    (match soakTrend (acc_seconds a) with
     | Some t => Some (mkSoakTrend (so_FirstHalfMs t) (so_SecondHalfMs t) (so_SlopeMsPerMin t)
                         (so_LeakSuspected t) (soakTrendLabels (acc_seconds a)))
     | None => None
     end) false "".

(** [Build]: every interval at once. *)
Definition Build (m : Meta) (intervals : list Interval) : Report :=
  Accumulator_Report m (fold_left (λ a iv, Add iv a) intervals NewAccumulator).

(** *** Verdict readings *)
Definition shortfallTolerance : float64 := fdiv (of_int 95) (of_int 100).
Definition meanRequestedRate (l : Load) : float64 :=
  match ld_Steps l with
  | [] => ld_Throughput l
  | steps =>
      let '(samples, secs) :=
        fold_left (λ ss s, (fadd ss.1 (fmul (sl_Throughput s) (of_int (sl_DurationSeconds s))),
                            ss.2 +w sl_DurationSeconds s)) steps (fzero, 0) in
      if secs <=? 0 then ld_Throughput l else fdiv samples (of_int secs)
  end.
Definition ShortOfRequest (r : Report) : bool :=
  if fle (ld_Throughput (rep_Requested r)) fzero then false
  else flt (ld_Throughput (rep_Achieved r))
         (fmul (meanRequestedRate (rep_Requested r)) shortfallTolerance).
Definition ShortOfVolume (r : Report) : bool :=
  if fle (ld_Throughput (rep_Requested r)) fzero then false
  else flt (of_int (ld_Samples (rep_Achieved r)))
         (fmul (fmul (meanRequestedRate (rep_Requested r))
                  (of_int (ld_DurationSeconds (rep_Requested r)))) shortfallTolerance).
Definition TargetErrorRate (r : Report) : float64 :=
  if ld_Samples (rep_Achieved r) <=? 0 then fzero
  else fdiv (of_int (at_Target (rep_Attribution r))) (of_int (ld_Samples (rep_Achieved r))).
Definition EngineImpaired (r : Report) : bool :=
  if at_Engine (rep_Attribution r) =? 0 then false
  else at_Target (rep_Attribution r) <? at_Engine (rep_Attribution r).

(** [Validate]; the outcomes are the four the type has. *)
Definition Report_Validate (r : Report) : result error unit :=
  if rep_ExecutionID r <=? 0 then Err ErrRepExecutionRequired
  else if rep_RunID r <=? 0 then Err ErrRepRunRequired
  else Ok tt.
