(* ===== verification/Verdicts.v ===== *)
(** * Judging a report against criteria

    [EvaluateCriteria] of [internal/domain/report/criteria.go], which the served
    verdict and the capacity search read a report with, and the criterion
    grammar a calibration is created with
    ([internal/domain/calibration/criterion.go]). *)
From Stdlib Require Import Ascii.
From S2P Require Import Prelude Errors GoStrings GoFloat ParseFloat Taurus Criteria Histogram Report.

(** ** The evaluator *)
Record FailedCriterion := mkFailed { fc_Criterion : string; fc_Unparsed : bool }.

(** The figure a criterion is about and its threshold in the same unit. *)
Definition reading (r : Report) (subject unit : string) (rawThreshold : float64) :
    option (float64 * float64) :=
  if bool_decide (subject = "failures") || bool_decide (subject = "fail") then
    if negb (bool_decide (unit = "%")) then None
    else Some (fmul (rep_ErrorRate r) (of_int 100), rawThreshold)
  else match bytes_of subject with
       | p :: rest =>
           if is_char 112 p then
             match ParseFloat (of_bytes rest) with
             | None => None
             | Some pct =>
                 match rep_Latency r !! pct with
                 | None => None
                 | Some latency =>
                     if bool_decide (unit = "ms") || bool_decide (unit = "") then
                       Some (latency, fdiv rawThreshold (of_int 1000))
                     else if bool_decide (unit = "s") then Some (latency, rawThreshold)
                     else None
                 end
             end
           else None
       | [] => None
       end.

Definition evaluateOne (r : Report) (c : string) : option FailedCriterion :=
  match criterionPattern c with
  | None => Some (mkFailed c true)
  | Some m =>
      match ParseFloat (of_bytes (mt_threshold m)) with
      | None => Some (mkFailed c true)
      | Some rawThreshold =>
          match reading r (ToLower (of_bytes (mt_subject m))) (of_bytes (mt_unit m)) rawThreshold with
          | None => Some (mkFailed c true)
          | Some (measured, threshold) =>
              if criterionTriggered measured (of_bytes (mt_op m)) threshold
              then Some (mkFailed c false) else None
          end
      end
  end.
Definition EvaluateCriteria (r : Report) (criteria : list string) : list FailedCriterion :=
  omap (evaluateOne r) (floorsToViolations criteria).

(** ** The criterion of a calibration *)

(** [strings.FieldsFunc] at commas and line breaks: the non-empty pieces. *)
Fixpoint fields (sep : ascii → bool) (cur : list ascii) (l : list ascii) : list (list ascii) :=
  let flush := match cur with [] => [] | _ => [reverse cur] end in
  match l with
  | [] => flush
  | a :: l' => if sep a then flush ++ fields sep [] l' else fields sep (a :: cur) l'
  end.
Definition SplitCriterion (raw : string) : list string :=
  filter (λ e, e ≠ "")
    (TrimSpace ∘ of_bytes <$> fields (λ a, is_char 44 a || is_char 10 a) [] (bytes_of raw)).

(** [^(failures|p95|p50|avg-rt|concurrency)\s*(>|<|>=|<=)\s*[0-9.]+(ms|s|%|)?$]:
    an operator that another one begins with is tried with what follows it. *)
Definition subjects : list (list ascii) := bytes_of <$> ["failures"; "p95"; "p50"; "avg-rt"; "concurrency"].
Definition is_digit_dot (a : ascii) : bool := is_digit a || is_char 46 a.
Definition after_operator (l : list ascii) : bool :=
  let '(num, rest) := span is_digit_dot (skip_ws l) in
  match num with
  | [] => false
  | _ => bool_decide (rest ∈ bytes_of <$> ["ms"; "s"; "%"; ""])
  end.
Definition criterionExpression (expr : string) : bool :=
  match one_of subjects (bytes_of expr) with
  | None => false
  | Some (_, l) =>
      existsb (λ op, match one_of [op] (skip_ws l) with
                     | Some (_, rest) => after_operator rest
                     | None => false
                     end) (bytes_of <$> [">"; "<"; ">="; "<="])
  end.

Definition ValidateCriterion (raw : string) : result error unit :=
  match SplitCriterion raw with
  | [] => Err ErrCriterionInvalid
  | exprs => if forallb criterionExpression exprs then Ok tt else Err ErrCriterionInvalid
  end.

Example criterion_examples :
  ValidateCriterion "failures>10%, p95 >= 500ms" = Ok tt ∧
  ValidateCriterion "error_rate < 0.01 AND p95 < 500ms" = Err ErrCriterionInvalid ∧
  ValidateCriterion " , " = Err ErrCriterionInvalid ∧ ValidateCriterion "failures>5" = Ok tt.
Proof. vm_compute. done. Qed.

(** ** Splitting and joining *)
Section fields.
Context (sep : ascii → bool).
Lemma fields_run cur a l :
  Forall (λ c, sep c = false) a → fields sep cur (a ++ l) = fields sep (reverse a ++ cur) l.
Proof.
  intros Ha. revert cur. induction Ha as [|c a Hc _ IH]; intros cur; [done|].
  cbn [app fields]. rewrite Hc, IH, reverse_cons, <- app_assoc. done.
Qed.
Lemma fields_piece cur l p :
  Forall (λ c, sep c = false) cur → p ∈ fields sep cur l → Forall (λ c, sep c = false) p ∧ p ≠ [].
Proof.
  revert cur. induction l as [|a l IH]; intros cur Hcur; cbn [fields].
  - destruct cur as [|c cur]; [by intros ?%elem_of_nil|]. intros ->%list_elem_of_singleton.
    split; [by apply Forall_reverse|]. intros Hn%(f_equal reverse). by rewrite reverse_involutive in Hn.
  - destruct (sep a) eqn:Ha; [|apply IH; by constructor]. rewrite elem_of_app. intros [Hp|Hp].
    + destruct cur as [|c cur]; [by apply elem_of_nil in Hp|]. apply list_elem_of_singleton in Hp as ->.
      split; [by apply Forall_reverse|]. intros Hn%(f_equal reverse). by rewrite reverse_involutive in Hn.
    + by apply (IH []).
Qed.
Lemma fields_whole a : Forall (λ c, sep c = false) a → a ≠ [] → fields sep [] a = [a].
Proof.
  intros Ha Hne. rewrite <- (app_nil_r a) at 1. rewrite fields_run by done. rewrite app_nil_r. cbn.
  destruct (reverse a) as [|c r] eqn:E.
  - apply (f_equal reverse) in E. by rewrite reverse_involutive in E.
  - rewrite <- E. by rewrite reverse_involutive.
Qed.
Lemma fields_cons a s l :
  Forall (λ c, sep c = false) a → a ≠ [] → sep s = true → fields sep [] (a ++ s :: l) = a :: fields sep [] l.
Proof.
  intros Ha Hne Hs. rewrite fields_run by done. rewrite app_nil_r. cbn [fields]. rewrite Hs.
  destruct (reverse a) as [|c r] eqn:E.
  - apply (f_equal reverse) in E. by rewrite reverse_involutive in E.
  - rewrite <- E. by rewrite reverse_involutive.
Qed.
End fields.

Lemma TrimSpace_sub s c : c ∈ bytes_of (TrimSpace s) → c ∈ bytes_of s.
Proof.
  unfold TrimSpace. rewrite bytes_of_of. set (l := trim_left (bytes_of s)). intros Hc.
  destruct (trim_right_prefix l) as [k Hk]. assert (c ∈ l) as Hl by (rewrite Hk; apply elem_of_app; by left).
  unfold l, trim_left in Hl. destruct (lead_nil_drop space2 space3 (bytes_of s)) as [n Hn]. rewrite Hn in Hl.
  rewrite <- (take_drop n (bytes_of s)). apply elem_of_app. by right.
Qed.
Lemma TrimSpace_space s : TrimSpace (" " +:+ s) = TrimSpace s.
Proof. unfold TrimSpace. f_equal. Qed.

(** A piece of a criterion: trimmed, not empty, without separators. *)
Definition criterion_sep (a : ascii) : bool := is_char 44 a || is_char 10 a.
Definition piece (e : string) : Prop :=
  e ≠ "" ∧ TrimSpace e = e ∧ Forall (λ c, criterion_sep c = false) (bytes_of e).
Lemma SplitCriterion_pieces raw : Forall piece (SplitCriterion raw).
Proof.
  apply List.Forall_forall. intros e He%list_elem_of_In. unfold SplitCriterion in He.
  apply list_elem_of_filter in He as [Hne He]. apply list_elem_of_fmap in He as (p & -> & Hp).
  apply fields_piece in Hp as [Hp _]; [|constructor]. split; [done|]. cbn. split; [apply TrimSpace_idemp|].
  apply Forall_forall. intros c Hc%TrimSpace_sub. rewrite bytes_of_of in Hc.
  by apply (proj1 (Forall_forall _ _) Hp).
Qed.

Lemma fields_joined lead_sp e rest :
  Forall piece (e :: rest) → (lead_sp = "" ∨ lead_sp = " ") →
  TrimSpace ∘ of_bytes <$> fields criterion_sep [] (bytes_of (lead_sp +:+ String.concat ", " (e :: rest))) = e :: rest.
Proof.
  revert lead_sp e. induction rest as [|e' rest IH]; intros lead_sp e Hall Hlead;
    apply Forall_cons in Hall as [(Hne & Htrim & Hsep) Hall].
  - cbn [String.concat]. rewrite fields_whole.
    + cbn. f_equal. rewrite <- Htrim at 2. destruct Hlead as [->| ->].
      * change ("" +:+ e) with e. f_equal. apply (inj bytes_of). apply bytes_of_of.
      * rewrite <- (TrimSpace_space e). f_equal. apply (inj bytes_of). apply bytes_of_of.
    + rewrite bytes_of_app. apply Forall_app. split; [|done]. destruct Hlead as [->| ->]; by repeat constructor.
    + rewrite bytes_of_app. intros Hn%app_eq_nil. destruct Hn as [_ Hn]. apply Hne. by apply (inj bytes_of).
  - change (String.concat ", " (e :: e' :: rest)) with (e +:+ ", " +:+ String.concat ", " (e' :: rest)).
    rewrite !bytes_of_app. rewrite (app_assoc (bytes_of lead_sp)).
    change (bytes_of ", ") with [ascii_of_N 44; ascii_of_N 32]. cbn [List.app].
    rewrite fields_cons.
    + rewrite fmap_cons. f_equal.
      * rewrite <- Htrim at 2. cbn. destruct Hlead as [->| ->].
        -- cbn [List.app]. f_equal. apply (inj bytes_of). apply bytes_of_of.
        -- rewrite <- (TrimSpace_space e). f_equal. apply (inj bytes_of). rewrite bytes_of_of, bytes_of_app. done.
      * specialize (IH " " e' Hall ltac:(by right)). rewrite bytes_of_app in IH. exact IH.
    + apply Forall_app. split; [|done]. destruct Hlead as [->| ->]; by repeat constructor.
    + intros Hn%app_eq_nil. destruct Hn as [_ Hn]. apply Hne. by apply (inj bytes_of).
    + done.
Qed.

(** The stored expressions, joined for display, split into themselves again. *)
Lemma SplitCriterion_join raw :
  SplitCriterion (String.concat ", " (SplitCriterion raw)) = SplitCriterion raw.
Proof.
  pose proof (SplitCriterion_pieces raw) as Hp. destruct (SplitCriterion raw) as [|e rest]; [done|].
  unfold SplitCriterion. change (λ a, is_char 44 a || is_char 10 a) with criterion_sep.
  pose proof (fields_joined "" e rest Hp ltac:(by left)) as Hj. change ("" +:+ ?s) with s in Hj. rewrite Hj.
  clear Hj. induction Hp as [|x l (Hx & _) _ IH]; [done|]. rewrite filter_cons, decide_True by done. by f_equal.
Qed.
