(* ===== verification/ReportFacts.v ===== *)
(** * What a run's report guarantees

    The accumulator's integer state is a sum: it does not depend on the order
    in which measurements arrive or on how they were divided among pods, it
    survives being written down and read back, and it counts every request. *)
From S2P Require Import Prelude Errors GoStrings GoFloat LoadProfile Taurus Histogram Report.

(** ** Sums of counters *)
Section joins.
Context {K A : Type} `{Countable K} (g : A → A → A).
Context (g_comm : ∀ x y, g x y = g y x) (g_assoc : ∀ x y z, g (g x y) z = g x (g y z)).
Local Abbreviation join := (union_with (M := gmap K A) (λ x y, Some (g x y))).

Lemma join_comm m n : join m n = join n m.
Proof using g_comm.
  apply map_eq. intros k. rewrite !lookup_union_with.
  destruct (m !! k), (n !! k); simpl; by rewrite 1?g_comm.
Qed.
Lemma join_assoc m n o : join (join m n) o = join m (join n o).
Proof using g_assoc.
  apply map_eq. intros k. rewrite !lookup_union_with.
  destruct (m !! k), (n !! k), (o !! k); simpl; by rewrite ?g_assoc.
Qed.
Lemma join_empty_r m : join m ∅ = m.
Proof using.
  apply map_eq. intros k. rewrite lookup_union_with, lookup_empty. by destruct (m !! k).
Qed.
Lemma join_empty_l m : join ∅ m = m.
Proof using.
  apply map_eq. intros k. rewrite lookup_union_with, lookup_empty. by destruct (m !! k).
Qed.
Lemma join_insert m k x :
  join m {[ k := x ]} = <[k := match m !! k with Some y => g y x | None => x end]> m.
Proof using.
  apply map_eq. intros k'. rewrite lookup_union_with. destruct (decide (k' = k)) as [->|Hne].
  - rewrite lookup_singleton_eq, lookup_insert_eq. by destruct (m !! k).
  - rewrite lookup_singleton_ne, lookup_insert_ne by done. by destruct (m !! k').
Qed.
End joins.

Lemma wadd_comm a b : a +w b = b +w a.
Proof. f_equal. lia. Qed.
Lemma wadd_assoc a b c : a +w b +w c = a +w (b +w c).
Proof. rewrite wrap64_add_l, wrap64_add_r. f_equal. lia. Qed.
Lemma wadd_zero a : in_int64 a → a +w 0 = a.
Proof. intros. rewrite Z.add_0_r. by apply wrap64_small. Qed.
#[global] Hint Resolve wadd_comm wadd_assoc wrap64_in_int64 : core.

Section add_counts.
Context {K : Type} `{Countable K}.
Implicit Types m n o : gmap K Z.
Lemma add_counts_comm m n : add_counts m n = add_counts n m.
Proof. by apply join_comm. Qed.
Lemma add_counts_assoc m n o : add_counts (add_counts m n) o = add_counts m (add_counts n o).
Proof. by apply join_assoc. Qed.
Lemma add_counts_empty_l m : add_counts ∅ m = m.
Proof. apply join_empty_l. Qed.
Lemma add_counts_empty_r m : add_counts m ∅ = m.
Proof. apply join_empty_r. Qed.
End add_counts.

(** ** The counters of an accumulator

    Everything but the floating-point sums and the example messages. *)
Definition SecondCounts : Type := Z * Z * Z * gmap string Z.
Record Counts := mkCounts {
  ct_labels : gmap string labelState;
  ct_seconds : gmap Z SecondCounts;
  ct_signatures : gmap Signature Z
}.

Definition second_counts (s : secondState) : SecondCounts :=
  (sc_engine s, sc_labels s, sc_latSamples s, ll_Samples <$> sc_labelLatency s).
Definition counts (a : Accumulator) : Counts :=
  mkCounts (acc_labels a) (second_counts <$> acc_seconds a) (er_Count <$> acc_signatures a).

Definition label_join (s t : labelState) : labelState :=
  mkLabelState (add_counts (ls_codes s) (ls_codes t)) (ls_samples s +w ls_samples t)
    (ls_failed s +w ls_failed t) (add_counts (ls_latency s) (ls_latency t)).
Definition second_join (s t : SecondCounts) : SecondCounts :=
  (s.1.1.1 +w t.1.1.1, s.1.1.2 +w t.1.1.2, s.1.2 +w t.1.2, add_counts s.2 t.2).
Definition counts_join (c d : Counts) : Counts :=
  mkCounts (union_with (λ x y, Some (label_join x y)) (ct_labels c) (ct_labels d))
    (union_with (λ x y, Some (second_join x y)) (ct_seconds c) (ct_seconds d))
    (add_counts (ct_signatures c) (ct_signatures d)).

Lemma label_join_comm s t : label_join s t = label_join t s.
Proof. unfold label_join. f_equal; auto using add_counts_comm. Qed.
Lemma label_join_assoc s t u : label_join (label_join s t) u = label_join s (label_join t u).
Proof. unfold label_join. simpl. f_equal; auto using add_counts_assoc. Qed.
Lemma second_join_comm s t : second_join s t = second_join t s.
Proof. unfold second_join. f_equal; [f_equal; [f_equal|]|]; auto using add_counts_comm. Qed.
Lemma second_join_assoc s t u : second_join (second_join s t) u = second_join s (second_join t u).
Proof.
  unfold second_join. simpl. f_equal; [f_equal; [f_equal|]|]; auto using add_counts_assoc.
Qed.

Lemma counts_join_comm c d : counts_join c d = counts_join d c.
Proof.
  unfold counts_join. f_equal;
    [apply join_comm, label_join_comm|apply join_comm, second_join_comm|apply add_counts_comm].
Qed.
Lemma counts_join_assoc c d e : counts_join (counts_join c d) e = counts_join c (counts_join d e).
Proof.
  unfold counts_join. simpl. f_equal;
    [apply join_assoc, label_join_assoc|apply join_assoc, second_join_assoc|apply add_counts_assoc].
Qed.
Lemma counts_join_empty c : counts_join (counts NewAccumulator) c = c.
Proof.
  destruct c as [l s g]. unfold counts_join, counts. simpl.
  rewrite !fmap_empty, add_counts_empty_l. f_equal; apply join_empty_l.
Qed.
Lemma counts_join_swap c d e :
  counts_join (counts_join c d) e = counts_join (counts_join c e) d.
Proof. rewrite !counts_join_assoc. f_equal. apply counts_join_comm. Qed.

(** ** Adding an interval adds its counters *)

(** Counters are machine integers, and signatures are filed under themselves. *)
Definition second_ok (s : secondState) : Prop :=
  in_int64 (sc_engine s) ∧ in_int64 (sc_labels s) ∧ in_int64 (sc_latSamples s).
Record acc_ok (a : Accumulator) : Prop := {
  seconds_ok : map_Forall (λ _ s, second_ok s) (acc_seconds a);
  signatures_ok : map_Forall (λ sig e, er_Signature e = sig) (acc_signatures a)
}.

Lemma in_int64_zero : in_int64 0.
Proof. unfold in_int64, int64_min, int64_max. lia. Qed.
Lemma empty_second_ok : second_ok empty_second.
Proof. split; [|split]; apply in_int64_zero. Qed.
Lemma NewAccumulator_ok : acc_ok NewAccumulator.
Proof. split; apply map_Forall_empty. Qed.

Lemma tally_ints (h : Histogram) l fs n t :
  l ≠ [] →
  let '(_, n', t') := fold_left (tally_step h) l (fs, n, t) in
  n' = wrap64 (n + sumZ (count_at h) l) ∧ ll_Samples t' = wrap64 (ll_Samples t + sumZ (count_at h) l).
Proof.
  revert fs n t. induction l as [|x l IH]; intros fs n t Hne; [done|].
  cbn [fold_left sumZ]. unfold tally_step at 2.
  destruct l as [|y l].
  { cbn [fold_left sumZ]. simpl. split; f_equal; lia. }
  match goal with |- context [fold_left _ _ (?a, ?b, ?c)] => specialize (IH a b c ltac:(done)) end.
  destruct (fold_left (tally_step h) (y :: l) _) as [[fs' n'] t']. destruct IH as [-> ->]. simpl.
  rewrite !wrap64_add_l. split; f_equal; lia.
Qed.

Lemma buckets_nonempty h : h ≠ ∅ → buckets_of h ≠ [].
Proof.
  intros Hne E. apply Hne, map_empty. intros rt. apply eq_None_not_Some.
  rewrite <- elem_of_buckets, E. apply not_elem_of_nil.
Qed.

Lemma add_second_ok iv s : second_ok s → second_ok (add_second iv s).
Proof.
  intros (He & Hl & Hn). unfold add_second. case_bool_decide; [by split; [|split]; simpl; auto|].
  case_bool_decide as Hlat; [by split; [|split]; simpl; auto|].
  pose proof (tally_ints (iv_Latency iv) (buckets_of (iv_Latency iv)) (sc_latSum s)
    (sc_latSamples s) (default empty_tally (sc_labelLatency s !! iv_Label iv))
    (buckets_nonempty _ Hlat)) as Ht.
  destruct (fold_left _ _ _) as [[fs n] t]. destruct Ht as [-> _].
  split; [|split]; simpl; auto.
Qed.

Lemma second_counts_add iv s :
  second_ok s →
  second_counts (add_second iv s) =
    second_join (second_counts s) (second_counts (add_second iv empty_second)).
Proof.
  intros (He & Hl & Hn). unfold add_second.
  case_bool_decide.
  { unfold second_counts, second_join. simpl. rewrite fmap_empty, add_counts_empty_r.
    rewrite wrap64_add_r, !wadd_zero by done. done. }
  case_bool_decide as Hlat.
  { unfold second_counts, second_join. simpl. rewrite fmap_empty, add_counts_empty_r.
    rewrite wrap64_add_r, !wadd_zero by done. done. }
  pose proof (buckets_nonempty _ Hlat) as Hb.
  pose proof (tally_ints (iv_Latency iv) _ (sc_latSum s) (sc_latSamples s)
    (default empty_tally (sc_labelLatency s !! iv_Label iv)) Hb) as Ht.
  pose proof (tally_ints (iv_Latency iv) _ (sc_latSum empty_second) (sc_latSamples empty_second)
    (default empty_tally (sc_labelLatency empty_second !! iv_Label iv)) Hb) as Ht0.
  destruct (fold_left _ _ (sc_latSum s, _, _)) as [[fs n] t].
  destruct (fold_left _ _ (sc_latSum empty_second, _, _)) as [[fs0 n0] t0].
  destruct Ht as [-> Ht], Ht0 as [-> Ht0].
  cbn [sc_labelLatency empty_second] in Ht0. rewrite lookup_empty in Ht0. cbn [default] in Ht0.
  unfold second_counts, second_join. simpl. rewrite !fmap_insert, fmap_empty, Ht, Ht0.
  rewrite !wrap64_add_r, wadd_zero by done. f_equal.
  unfold add_counts. rewrite insert_empty, join_insert, lookup_fmap.
  destruct (sc_labelLatency s !! iv_Label iv) as [t1|]; simpl; [|done].
  by rewrite wrap64_add_r.
Qed.

(** *** Error signatures *)
Definition error_counts (label : string) (es : list ErrorGroup) : gmap Signature Z :=
  fold_left (λ m e, add_counts m {[ NewSignature label e := wrap64 (eg_Count e) ]}) es ∅.

Lemma add_error_counts label sigs e :
  er_Count <$> add_error label sigs e =
    add_counts (er_Count <$> sigs) {[ NewSignature label e := wrap64 (eg_Count e) ]}.
Proof.
  unfold add_error, add_counts. rewrite fmap_insert, join_insert, lookup_fmap. simpl.
  destruct (sigs !! NewSignature label e); simpl; [by rewrite wrap64_add_r|done].
Qed.

Lemma errors_counts label es sigs :
  er_Count <$> fold_left (add_error label) es sigs =
    add_counts (er_Count <$> sigs) (error_counts label es).
Proof.
  unfold error_counts. revert sigs. induction es as [|e es IH]; intros sigs; cbn [fold_left].
  { by rewrite add_counts_empty_r. }
  rewrite IH, add_error_counts, add_counts_assoc, add_counts_empty_l. f_equal.
  generalize ({[ NewSignature label e := wrap64 (eg_Count e) ]} : gmap Signature Z). clear.
  assert (∀ m0 m : gmap Signature Z, add_counts m0 (fold_left (λ m e, add_counts m
    {[ NewSignature label e := wrap64 (eg_Count e) ]}) es m) =
    fold_left (λ m e, add_counts m {[ NewSignature label e := wrap64 (eg_Count e) ]}) es
      (add_counts m0 m)) as Hf.
  { induction es as [|e es IH]; intros m0 m; cbn [fold_left]; [done|].
    by rewrite IH, add_counts_assoc. }
  intros m. by rewrite Hf, add_counts_empty_r.
Qed.

Lemma add_errors_ok label es sigs :
  map_Forall (λ sig e, er_Signature e = sig) sigs →
  map_Forall (λ sig e, er_Signature e = sig) (fold_left (add_error label) es sigs).
Proof.
  revert sigs. induction es as [|e es IH]; intros sigs Hs; cbn [fold_left]; [done|].
  apply IH. unfold add_error. apply map_Forall_insert_2; [|done]. simpl.
  destruct (sigs !! NewSignature label e) as [x|] eqn:E; simpl; [|done]. by apply (Hs _ _ E).
Qed.

(** *** Whole intervals *)
Lemma Add_ok iv a : acc_ok a → acc_ok (Add iv a).
Proof.
  intros [Hs Hg]. unfold Add.
  assert (map_Forall (λ _ s, second_ok s) (<[iv_Timestamp iv :=
    add_second iv (default empty_second (acc_seconds a !! iv_Timestamp iv))]> (acc_seconds a))).
  { apply map_Forall_insert_2; [|done]. apply add_second_ok.
    destruct (acc_seconds a !! iv_Timestamp iv) eqn:E; [by apply (Hs _ _ E)|apply empty_second_ok]. }
  case_bool_decide; split; simpl; auto using add_errors_ok.
Qed.

Definition interval_counts (iv : Interval) : Counts := counts (Add iv NewAccumulator).

Lemma counts_Add iv a : acc_ok a → counts (Add iv a) = counts_join (counts a) (interval_counts iv).
Proof.
  intros [Hs Hg].
  assert (second_counts <$> <[iv_Timestamp iv :=
    add_second iv (default empty_second (acc_seconds a !! iv_Timestamp iv))]> (acc_seconds a) =
    union_with (λ x y, Some (second_join x y)) (second_counts <$> acc_seconds a)
      {[ iv_Timestamp iv := second_counts (add_second iv empty_second) ]}) as Hsec.
  { rewrite fmap_insert, join_insert, lookup_fmap.
    destruct (acc_seconds a !! iv_Timestamp iv) as [s|] eqn:E; simpl; [|done].
    by rewrite (second_counts_add iv s) by (apply (Hs _ _ E)). }
  unfold interval_counts, Add. case_bool_decide; unfold counts, counts_join; simpl; rewrite Hsec;
    rewrite ?lookup_empty, ?insert_empty, ?map_fmap_singleton; simpl; f_equal.
  - by rewrite join_empty_r.
  - by rewrite fmap_empty, add_counts_empty_r.
  - rewrite ?insert_empty, join_insert. f_equal.
    destruct (acc_labels a !! iv_Label iv) as [st|]; simpl; [|done].
    unfold add_label, label_join, Histogram_Merge. simpl. rewrite !add_counts_empty_l, !wrap64_add_r. done.
  - by rewrite !errors_counts, fmap_empty, add_counts_empty_l.
Qed.

(** ** Accumulators that count the same *)
Definition absorb_all (ivs : list Interval) (a : Accumulator) : Accumulator :=
  fold_left (λ a iv, Add iv a) ivs a.

Lemma absorb_all_ok ivs a : acc_ok a → acc_ok (absorb_all ivs a).
Proof.
  unfold absorb_all. revert a. induction ivs as [|iv ivs IH]; intros a Ha; simpl; [done|].
  by apply IH, Add_ok.
Qed.

Lemma counts_absorb_all ivs a :
  acc_ok a → counts (absorb_all ivs a) = fold_left counts_join (interval_counts <$> ivs) (counts a).
Proof.
  unfold absorb_all. revert a. induction ivs as [|iv ivs IH]; intros a Ha; csimpl; [done|].
  rewrite IH by (by apply Add_ok). by rewrite counts_Add.
Qed.

(** A partial equivalence: well-formed accumulators with equal counters. *)
Definition same_counts (a b : Accumulator) : Prop := acc_ok a ∧ acc_ok b ∧ counts a = counts b.
#[global] Instance same_counts_sym : Symmetric same_counts.
Proof. intros a b (? & ? & ?). split; [done|]. by split. Qed.
#[global] Instance same_counts_trans : Transitive same_counts.
Proof. intros a b c (? & ? & ?) (? & ? & ?). split; [done|]. split; [done|]. by etrans. Qed.

#[global] Instance Add_proper iv : Proper (same_counts ==> same_counts) (Add iv).
Proof.
  intros a b (Ha & Hb & E). split; [by apply Add_ok|]. split; [by apply Add_ok|].
  by rewrite !counts_Add, E.
Qed.

#[global] Instance absorb_all_proper :
  Proper ((≡ₚ) ==> same_counts ==> same_counts) absorb_all.
Proof.
  intros l k Hlk a b (Ha & Hb & E).
  split; [by apply absorb_all_ok|]. split; [by apply absorb_all_ok|].
  rewrite !counts_absorb_all, E by done.
  apply fold_left_perm; [apply counts_join_swap|by rewrite Hlk].
Qed.

(** *** What a report says of the counters *)
Record Figures := mkFigures {
  fg_Achieved : Load;
  fg_ErrorRate : float64;
  fg_Latency : gmap float64 float64;
  fg_Attribution : Attribution;
  fg_Labels : list LabelSummary
}.
Definition figures (r : Report) : Figures :=
  mkFigures (rep_Achieved r) (rep_ErrorRate r) (rep_Latency r) (rep_Attribution r) (rep_Labels r).

Lemma fmap_values {K A B} `{Countable K} (f : A → B) (m : gmap K A) :
  (map_to_list (f <$> m)).*2 ≡ₚ f <$> (map_to_list m).*2.
Proof.
  rewrite map_to_list_fmap, <- !list_fmap_compose. by apply Permutation_map.
Qed.
Lemma fmap_keys {K A B} `{Countable K} (f : A → B) (m : gmap K A) :
  (map_to_list (f <$> m)).*1 ≡ₚ (map_to_list m).*1.
Proof.
  rewrite map_to_list_fmap, <- list_fmap_compose. apply Permutation_refl'.
  apply list_fmap_ext. by intros ? [].
Qed.

Lemma peak_counts a :
  peak a = fold_left (λ p (c : SecondCounts), Z.max p (Z.max c.1.1.1 c.1.1.2))
             (map_to_list (ct_seconds (counts a))).*2 0.
Proof.
  unfold peak, counts. simpl.
  etransitivity; [|symmetry; apply fold_left_perm; [intros; lia|apply fmap_values]].
  generalize 0. generalize ((map_to_list (acc_seconds a)).*2).
  induction l as [|s l IH]; intros p; csimpl; [done|]. rewrite IH. f_equal.
  unfold users. simpl. destruct (Z.ltb_spec (sc_labels s) (sc_engine s));
    [destruct (Z.ltb_spec p (sc_engine s))|destruct (Z.ltb_spec p (sc_labels s))]; lia.
Qed.

Lemma span_step_swap lh x y : span_step (span_step lh x) y = span_step (span_step lh y) x.
Proof.
  assert (∀ lo ts, (if ts <? lo then ts else lo) = Z.min lo ts) as Hmin
    by (intros lo ts; destruct (Z.ltb_spec ts lo); lia).
  assert (∀ hi ts, (if hi <? ts then ts else hi) = Z.max hi ts) as Hmax
    by (intros hi ts; destruct (Z.ltb_spec hi ts); lia).
  destruct lh as [[lo hi]|]; simpl; rewrite !Hmin, !Hmax; do 2 f_equal; lia.
Qed.

Lemma span_counts a :
  measuredSpanSeconds a =
    match fold_left span_step (map_to_list (ct_seconds (counts a))).*1 None with
    | None => None
    | Some (lo, hi) => Some (hi -w lo +w 1)
    end.
Proof.
  unfold measuredSpanSeconds, counts. simpl.
  by rewrite (fold_left_perm span_step _ _ None span_step_swap (fmap_keys second_counts _)).
Qed.

Lemma attribution_counts a :
  acc_ok a →
  (errors a).2 = fold_left attribute
    ((λ kv, (sg_Side kv.1, kv.2)) <$> map_to_list (ct_signatures (counts a))) (mkAttribution 0 0 0).
Proof.
  intros [_ Hg]. unfold errors, counts. simpl.
  apply fold_left_perm.
  { intros [t e u] [[] x] [[] y]; unfold attribute; simpl; f_equal;
      by rewrite !wadd_assoc, (wadd_comm x y). }
  rewrite map_to_list_fmap, <- !list_fmap_compose. apply Permutation_refl'.
  apply list_fmap_ext. intros i [sig e] Hi%list_elem_of_lookup_2%elem_of_map_to_list.
  simpl. by rewrite (Hg _ _ Hi).
Qed.

(** The figures of a report depend on the counters only. *)
#[global] Instance figures_proper m :
  Proper (same_counts ==> (=)) (λ a, figures (Accumulator_Report m a)).
Proof.
  intros a b (Ha & Hb & E). unfold Accumulator_Report, achievedSeconds.
  pose proof (attribution_counts a Ha) as Hatt. rewrite E, <- attribution_counts in Hatt by done.
  destruct (errors a) as [ea aa], (errors b) as [eb ab]. simpl in Hatt. subst ab.
  unfold figures. simpl. rewrite (peak_counts a), (peak_counts b), (span_counts a), (span_counts b), E.
  assert (acc_labels a = acc_labels b) as HL by (by injection E).
  unfold overall_latency. rewrite HL. f_equal. apply list_fmap_ext. intros _ name _.
  unfold label_summary. by rewrite HL.
Qed.

(** C33. A report does not depend on the order its measurements arrived in:
    achieved load, error rate, percentiles, attribution and the summary of
    every label are the same for every reordering of the intervals, such as
    any interleaving of the pods' pushes. *)
Theorem report_order_independent m ivs ivs' :
  ivs ≡ₚ ivs' → figures (Build m ivs) = figures (Build m ivs').
Proof.
  intros Hp. apply (figures_proper m). apply absorb_all_proper; [done|].
  split; [apply NewAccumulator_ok|]. split; [apply NewAccumulator_ok|done].
Qed.

(** ** Nothing is lost *)
Section conserved.
Context (f : labelState → Z) (g : Interval → Z).
Context (f_empty : f empty_label = 0) (f_add : ∀ iv st, f (add_label iv st) = f st +w g iv).

Definition label_total (a : Accumulator) : Z := sum64 f (map_to_list (acc_labels a)).*2.
Definition requests_of (ivs : list Interval) : list Interval :=
  filter (λ iv, iv_Label iv ≠ TotalLabel) ivs.

Lemma label_total_insert (m : gmap string labelState) k iv :
  wrap64 (sumZ f (map_to_list (<[k := add_label iv (default empty_label (m !! k))]> m)).*2) =
  wrap64 (sumZ f (map_to_list m).*2 + g iv).
Proof using f_empty f_add.
  rewrite <- (insert_delete_eq m k), map_to_list_insert by apply lookup_delete_eq. cbn.
  rewrite f_add, wrap64_add_l. destruct (m !! k) as [st|] eqn:E; cbn.
  - rewrite <- (map_to_list_delete m k st E). cbn. f_equal. lia.
  - rewrite f_empty, delete_id by done. f_equal. unfold sumZ. lia.
Qed.

Lemma label_total_Add iv a :
  label_total (Add iv a) =
    wrap64 (label_total a + (if decide (iv_Label iv ≠ TotalLabel) then g iv else 0)).
Proof using f_empty f_add.
  unfold label_total. rewrite !sum64_wrap. unfold Add.
  case_bool_decide as Ht; simpl.
  - rewrite decide_False by tauto. by rewrite Z.add_0_r, (wrap64_small (wrap64 _)).
  - rewrite decide_True by done. by rewrite wrap64_add_l, label_total_insert.
Qed.

Lemma label_total_absorb ivs a :
  label_total (absorb_all ivs a) = wrap64 (label_total a + sumZ g (requests_of ivs)).
Proof using f_empty f_add.
  unfold absorb_all, requests_of. revert a. induction ivs as [|iv ivs IH]; intros a; cbn [fold_left].
  - cbn. rewrite Z.add_0_r. unfold label_total. by rewrite sum64_wrap, (wrap64_small (wrap64 _)).
  - rewrite IH, label_total_Add, wrap64_add_l, filter_cons.
    case_decide; f_equal; unfold sumZ; cbn; lia.
Qed.
End conserved.

(** A report counts every request exactly once: its samples and failures
    are the sums over the label rows of all intervals, the engine's own
    aggregate rows left out. *)
Theorem report_counts_every_request m ivs :
  ld_Samples (rep_Achieved (Build m ivs)) = wrap64 (sumZ iv_Samples (requests_of ivs)) ∧
  ld_Failed (rep_Achieved (Build m ivs)) = wrap64 (sumZ iv_Failed (requests_of ivs)).
Proof.
  pose proof (label_total_absorb ls_samples iv_Samples eq_refl (λ _ _, eq_refl) ivs NewAccumulator) as Hs.
  pose proof (label_total_absorb ls_failed iv_Failed eq_refl (λ _ _, eq_refl) ivs NewAccumulator) as Hf.
  unfold Build, Accumulator_Report. destruct (errors _) as [es at_]. simpl.
  change (fold_left (λ a iv, Add iv a) ivs NewAccumulator) with (absorb_all ivs NewAccumulator).
  split; [exact Hs|exact Hf].
Qed.

(** ** Writing the state down and reading it back *)

Lemma Restore_Snapshot a : acc_ok a → Restore (Accumulator_Snapshot a) = a.
Proof.
  intros [_ Hg]. destruct a as [labels seconds signatures]. unfold Restore. simpl in *. f_equal.
  - apply fold_insert_map. rewrite merge_sort_Permutation, <- list_fmap_compose.
    apply Permutation_refl'. etransitivity; [|apply list_fmap_id].
    apply list_fmap_ext. intros _ [k [codes s f h]] _. simpl. unfold Histogram_Merge.
    by rewrite add_counts_empty_l.
  - apply fold_insert_map. rewrite merge_sort_Permutation, <- list_fmap_compose.
    apply Permutation_refl'. etransitivity; [|apply list_fmap_id].
    apply list_fmap_ext. by intros _ [k []] _.
  - apply (fold_insert_map er_Signature id). rewrite merge_sort_Permutation, <- list_fmap_compose.
    apply Permutation_refl'. etransitivity; [|apply list_fmap_id].
    apply list_fmap_ext. intros i [k e] Hi%list_elem_of_lookup_2%elem_of_map_to_list.
    simpl. by rewrite (Hg _ _ Hi).
Qed.

(** C32. A restart loses nothing: if the process measuring a run writes its state
    down and another one reads it back and carries on, the state is the one an
    uninterrupted process would have, floating-point sums and example messages
    included. *)
Theorem restart_is_invisible ivs more :
  absorb_all more (Restore (Accumulator_Snapshot (absorb_all ivs NewAccumulator))) =
  absorb_all (ivs ++ more) NewAccumulator.
Proof.
  rewrite Restore_Snapshot by apply absorb_all_ok, NewAccumulator_ok.
  unfold absorb_all. by rewrite fold_left_app.
Qed.

(** *** One request row and the engine's own row of the same second *)
Definition checkout_row : Interval :=
  mkInterval 1 100 "checkout" 5 3 2 1 40 {[ of_int 1 := 3 ]} {[ "200" := 2; "503" := 1 ]}
    [mkErrorGroup "Service Unavailable" "503" 1].
Definition total_row : Interval := mkInterval 2 100 TotalLabel 7 3 2 1 40 ∅ ∅ [].
Definition quiet_load : Load := mkLoad 0 fzero 0 [] 0 0.
Definition some_meta : Meta := mkMeta 4 2 1 "" "" "" 0 0 quiet_load OutcomePassed.

Lemma report_order_independent_witness :
  figures (Build some_meta [checkout_row; total_row]) =
  figures (Build some_meta [total_row; checkout_row]).
Proof. apply (report_order_independent some_meta). apply perm_swap. Defined.

Example build_small :
  let r := Build some_meta [checkout_row; total_row] in
  ld_Samples (rep_Achieved r) = 3 ∧ ld_Concurrency (rep_Achieved r) = 7 ∧
  rep_Attribution r = mkAttribution 1 0 0 ∧ rep_Latency r !! of_int 95 = Some (of_int 1).
Proof. vm_compute. done. Qed.
