(* ===== verification/Progress.v ===== *)
(** * A run's working state ([internal/ports/reportprogress.go])

    What accumulates while a run is measured, and the in-memory store of it
    ([internal/ports/fake/reportprogress.go], [interval_repository.go]): each
    shard's position in its own stream, the accumulator, and the permanent
    per-second series. *)
From S2P Require Import Prelude Errors GoStrings GoFloat Histogram Report.

Record ProgressBatch := mkProgressBatch {
  pb_RunID : Z;
  pb_ScenarioID : Z;
  pb_ShardIndex : Z;
  pb_Cluster : string;
  pb_StreamID : string;
  pb_Final : bool;
  pb_ExitCode : option Z;
  pb_Intervals : list Interval
}.
Record ShardState := mkShardState {
  shs_ScenarioID : Z; shs_ShardIndex : Z; shs_Cluster : string; shs_Finished : bool;
  shs_ExitCode : option Z
}.

Definition ProgressBatch_Validate (b : ProgressBatch) : result error unit :=
  if pb_RunID b <=? 0 then Err ErrProgressRunRequired
  else if pb_ScenarioID b <=? 0 then Err ErrProgressScenarioRequired
  else if existsb (λ iv, iv_Seq iv <=? 0) (pb_Intervals b) then Err ErrUnsequencedBatch
  else Ok tt.

(** ** The store *)
Abbreviation shardKey := (Z * string * Z)%type.
Definition key_of (b : ProgressBatch) : shardKey := (pb_ScenarioID b, pb_Cluster b, pb_ShardIndex b).

Record shardStream := mkShardStream {
  str_streamID : string; str_seq : Z; str_finished : bool; str_exitCode : option Z
}.
Record progressRun := mkProgressRun {
  pr_acc : Accumulator;
  pr_shards : gmap (Z * string * Z) shardStream
}.
Record seriesSecond := mkSeriesSecond {
  srs_engine : Z; srs_labels : Z; srs_samples : Z; srs_failed : Z; srs_bytes : Z;
  srs_latency : Histogram
}.
Record ReportProgress := mkReportProgress {
  rp_runs : gmap Z progressRun;
  rp_series : gmap Z (gmap Z seriesSecond);
  AbsorbErr : option error;
  DiscardErr : option error
}.
Definition NewReportProgress : ReportProgress := mkReportProgress ∅ ∅ None None.

(** *** The per-second series ([second.go], [interval_repository.go]) *)
Definition empty_interval : Interval := mkInterval 0 0 "" 0 0 0 0 0 ∅ ∅ [].
Definition merge_row (st : Interval * Z) (row : Interval) : Interval * Z :=
  let '(m, engineConcurrency) := st in
  if bool_decide (iv_Label row = TotalLabel) then (m, engineConcurrency +w iv_Concurrency row)
  else
    (mkInterval (iv_Seq m) (iv_Timestamp m) (iv_Label m)
       (iv_Concurrency m +w iv_Concurrency row) (iv_Samples m +w iv_Samples row)
       (iv_Succeeded m +w iv_Succeeded row) (iv_Failed m +w iv_Failed row)
       (iv_Bytes m +w iv_Bytes row) (Histogram_Merge (iv_Latency m) (iv_Latency row))
       (iv_ResponseCodes m) (iv_Errors m), engineConcurrency).
Definition MergeSecond (rows : list Interval) : Interval * Z :=
  fold_left merge_row rows (empty_interval, 0).

Definition by_second (fresh : list Interval) : gmap Z (list Interval) :=
  fold_left (λ m iv, <[iv_Timestamp iv := default [] (m !! iv_Timestamp iv) ++ [iv]]> m) fresh ∅.
Definition empty_series : seriesSecond := mkSeriesSecond 0 0 0 0 0 ∅.
Definition absorb_second (seconds : gmap Z seriesSecond) (kv : Z * list Interval) :
    gmap Z seriesSecond :=
  let '(merged, engine) := MergeSecond kv.2 in
  let row := default empty_series (seconds !! kv.1) in
  <[kv.1 := mkSeriesSecond (srs_engine row +w engine) (srs_labels row +w iv_Concurrency merged)
              (srs_samples row +w iv_Samples merged) (srs_failed row +w iv_Failed merged)
              (srs_bytes row +w iv_Bytes merged)
              (Histogram_Merge (srs_latency row) (iv_Latency merged))]> seconds.
Definition absorbSeries (fresh : list Interval) (seconds : gmap Z seriesSecond) :
    gmap Z seriesSecond :=
  fold_left absorb_second (map_to_list (by_second fresh)) seconds.

Definition series_le (a b : Interval) : Prop := iv_Timestamp a <= iv_Timestamp b.
#[global] Instance series_le_dec a b : Decision (series_le a b).
Proof. unfold series_le. apply _. Defined.
Definition series_interval (kv : Z * seriesSecond) : Interval :=
  let row := kv.2 in
  mkInterval 0 kv.1 ""
    (if srs_labels row <? srs_engine row then srs_engine row else srs_labels row)
    (srs_samples row) 0 (srs_failed row) (srs_bytes row) (srs_latency row) ∅ [].
Definition ListIntervalsByRun (runID : Z) (p : ReportProgress) : list Interval :=
  merge_sort series_le (series_interval <$> map_to_list (default ∅ (rp_series p !! runID))).

(** *** Absorbing a batch *)

(** The loop: the accumulator, the watermark and the fresh intervals. *)
Definition absorb_step (st : Accumulator * Z * list Interval) (iv : Interval) :
    Accumulator * Z * list Interval :=
  let '(acc, seq, fresh) := st in
  if iv_Seq iv <=? seq then st else (Add iv acc, iv_Seq iv, fresh ++ [iv]).

Definition Absorb (b : ProgressBatch) (p : ReportProgress) : result error unit * ReportProgress :=
  match AbsorbErr p with
  | Some e => (Err e, p)
  | None =>
      match ProgressBatch_Validate b with
      | Err e => (Err e, p)
      | Ok _ =>
          let run := default (mkProgressRun NewAccumulator ∅) (rp_runs p !! pb_RunID b) in
          let shard := default (mkShardStream (pb_StreamID b) 0 false None)
                         (pr_shards run !! key_of b) in
          let seq0 := if bool_decide (str_streamID shard = pb_StreamID b) then str_seq shard else 0 in
          let '(acc, seq, fresh) :=
            fold_left absorb_step (pb_Intervals b) (pr_acc run, seq0, []) in
          let shard' :=
            mkShardStream (pb_StreamID b) seq (pb_Final b || str_finished shard)
              (match pb_ExitCode b with Some c => Some c | None => str_exitCode shard end) in
          let run' := mkProgressRun acc (<[key_of b := shard']> (pr_shards run)) in
          let series := absorbSeries fresh (default ∅ (rp_series p !! pb_RunID b)) in
          (Ok tt, mkReportProgress (<[pb_RunID b := run']> (rp_runs p))
                    (<[pb_RunID b := series]> (rp_series p)) (AbsorbErr p) (DiscardErr p))
      end
  end.

Definition Progress_Snapshot (runID : Z) (p : ReportProgress) : Snapshot :=
  match rp_runs p !! runID with
  | None => mkSnapshot [] [] []
  | Some run => Accumulator_Snapshot (pr_acc run)
  end.

Definition shard_state (kv : shardKey * shardStream) : ShardState :=
  let '((scenarioID, cluster, shardIndex), shard) := kv in
  mkShardState scenarioID shardIndex cluster (str_finished shard) (str_exitCode shard).
Definition shard_le (a b : ShardState) : Prop :=
  shs_ScenarioID a < shs_ScenarioID b ∨
  shs_ScenarioID a = shs_ScenarioID b ∧
    (shs_Cluster a ≠ shs_Cluster b ∧ str_le (shs_Cluster a) (shs_Cluster b) ∨
     shs_Cluster a = shs_Cluster b ∧ shs_ShardIndex a <= shs_ShardIndex b).
#[global] Instance shard_le_dec a b : Decision (shard_le a b).
Proof. unfold shard_le. apply _. Defined.
Definition ShardStates (runID : Z) (p : ReportProgress) : list ShardState :=
  match rp_runs p !! runID with
  | None => []
  | Some run => merge_sort shard_le (shard_state <$> map_to_list (pr_shards run))
  end.

Definition Discard (runID : Z) (p : ReportProgress) : result error unit * ReportProgress :=
  match DiscardErr p with
  | Some e => (Err e, p)
  | None => (Ok tt, mkReportProgress (delete runID (rp_runs p)) (rp_series p) (AbsorbErr p)
                      (DiscardErr p))
  end.
