(* ===== verification/Sidecar.v ===== *)
(** * The engine pod's sidecar ([internal/sidecar/sidecar.go])

    It reads the engine's measurement stream line by line, numbers the
    intervals, and pushes the pending ones; they stay pending until a push is
    acknowledged.  Reading files, timers and HTTP are not modelled: a step is
    given what was read, and how a push ended.  [parse] is the JSON decoder. *)
From Stdlib Require Import Ascii.
From S2P Require Import Prelude Errors GoStrings GoFloat Histogram Report ReportFacts Progress.

Record Identity := mkIdentity {
  id_ExecutionID : Z; id_ScenarioID : Z; id_RunID : Z; id_ShardIndex : Z
}.
Record Sidecar := mkSidecar {
  sid_pending : list Interval;
  sid_carry : list ascii;
  sid_sent : Z;
  sid_seq : Z;
  sid_streamID : string;
  sid_exitCode : option Z
}.
Definition NewSidecar (streamID : string) : Sidecar := mkSidecar [] [] 0 0 streamID None.

Definition with_label_seq (label : string) (seq : Z) (iv : Interval) : Interval :=
  mkInterval seq (iv_Timestamp iv) label (iv_Concurrency iv) (iv_Samples iv) (iv_Succeeded iv)
    (iv_Failed iv) (iv_Bytes iv) (iv_Latency iv) (iv_ResponseCodes iv) (iv_Errors iv).

Section sidecar.
Context (parse : list ascii → option Interval) (LabelMap : gmap string string) (id : Identity).

Definition relabel (label : string) : string := default label (LabelMap !! label).

(** An interval taken in: renamed, numbered, and made pending. *)
Definition collect (iv : Interval) (s : Sidecar) : Sidecar :=
  let seq := sid_seq s +w 1 in
  mkSidecar (sid_pending s ++ [with_label_seq (relabel (iv_Label iv)) seq iv]) (sid_carry s)
    (sid_sent s) seq (sid_streamID s) (sid_exitCode s).

Definition consume (line : list ascii) (s : Sidecar) : Sidecar :=
  let line := trim_right (trim_left line) in
  match line with
  | [] => s
  | _ => match parse line with Some iv => collect iv s | None => s end
  end.

Definition newline : ascii := ascii_of_N 10.
(** The complete lines of the buffer, and what is left after the last one. *)
Fixpoint split_lines (buf : list ascii) : list (list ascii) * list ascii :=
  match buf with
  | [] => ([], [])
  | c :: rest =>
      let '(lines, tail) := split_lines rest in
      if bool_decide (c = newline) then ([] :: lines, tail)
      else match lines with
           | [] => ([], c :: tail)
           | l :: ls => ((c :: l) :: ls, tail)
           end
  end.
Definition set_carry (c : list ascii) (s : Sidecar) : Sidecar :=
  mkSidecar (sid_pending s) c (sid_sent s) (sid_seq s) (sid_streamID s) (sid_exitCode s).
Definition consumeLines (s : Sidecar) : Sidecar :=
  let '(lines, rest) := split_lines (sid_carry s) in
  set_carry rest (fold_left (λ s l, consume l s) lines s).
(** What [drain] does with the bytes of one read. *)
Definition read_chunk (chunk : list ascii) (s : Sidecar) : Sidecar :=
  consumeLines (set_carry (sid_carry s ++ chunk) s).

(** [checkExitCode], given the exit-code file's content when it exists. *)
Definition checkExitCode (raw : option string) (s : Sidecar) : bool * Sidecar :=
  match raw with
  | None => (false, s)
  | Some raw =>
      match Atoi (TrimSpace raw) with
      | None => (false, s)
      | Some code => (true, mkSidecar (sid_pending s) (sid_carry s) (sid_sent s) (sid_seq s)
                              (sid_streamID s) (Some code))
      end
  end.

(** The batch [flush] pushes, if it pushes at all. *)
Definition flush_batch (final : bool) (s : Sidecar) : option Batch :=
  if bool_decide (sid_pending s = []) && negb final then None
  else Some (mkBatch (id_ExecutionID id) (id_ScenarioID id) (id_RunID id) (id_ShardIndex id)
               (sid_streamID s) (sid_pending s) "" final (sid_exitCode s)).
(** [flush] given whether the push was acknowledged. *)
Definition flush (final acked : bool) (s : Sidecar) : option Batch * Sidecar :=
  match flush_batch final s with
  | None => (None, s)
  | Some b =>
      (Some b,
       if (acked : bool) then
         mkSidecar (drop (length (b_Intervals b)) (sid_pending s)) (sid_carry s)
           (sid_sent s +w 1) (sid_seq s) (sid_streamID s) (sid_exitCode s)
       else s)
  end.
End sidecar.

(** ** Reads and lines *)
Lemma split_lines_app l k :
  split_lines (l ++ k) =
    let '(ls, rest) := split_lines l in
    let '(ks, rest') := split_lines (rest ++ k) in (ls ++ ks, rest').
Proof.
  induction l as [|c l IH]; simpl.
  { by destruct (split_lines k). }
  rewrite IH. destruct (split_lines l) as [ls rest]. simpl.
  destruct (bool_decide_reflect (c = newline)) as [->|Hc].
  - by destruct (split_lines (rest ++ k)) as [ks rest'].
  - destruct ls as [|l0 ls]; simpl.
    + destruct (split_lines (rest ++ k)) as [ks rest'].
      rewrite bool_decide_eq_false_2 by done. by destruct ks.
    + by destruct (split_lines (rest ++ k)) as [ks rest'].
Qed.

Lemma consume_carry parse lm line c s :
  consume parse lm line (set_carry c s) = set_carry c (consume parse lm line s).
Proof.
  unfold consume. destruct (trim_right _); [done|]. by destruct (parse _).
Qed.
Lemma consume_all_carry parse lm lines c s :
  fold_left (λ s l, consume parse lm l s) lines (set_carry c s) =
    set_carry c (fold_left (λ s l, consume parse lm l s) lines s).
Proof.
  revert s. induction lines as [|l lines IH]; intros s; simpl; [done|].
  by rewrite consume_carry, IH.
Qed.

(** Two reads are one read of both. *)
Lemma read_chunk_app parse lm c d s :
  read_chunk parse lm d (read_chunk parse lm c s) = read_chunk parse lm (c ++ d) s.
Proof.
  unfold read_chunk, consumeLines. simpl. rewrite app_assoc, (split_lines_app (sid_carry s ++ c)).
  destruct (split_lines (sid_carry s ++ c)) as [ls rest].
  rewrite !consume_all_carry. simpl. destruct (split_lines (rest ++ d)) as [ks rest'].
  rewrite fold_left_app, !consume_all_carry. done.
Qed.

(** The sidecar does not see where reads end: reading the stream in any
    pieces, lines cut in two included, collects the same intervals with the
    same numbers, and keeps the same unfinished line, as reading it at once. *)
Theorem reads_are_chunk_free parse lm chunks s :
  chunks ≠ [] →
  fold_left (λ s c, read_chunk parse lm c s) chunks s = read_chunk parse lm (concat chunks) s.
Proof.
  revert s. induction chunks as [|c chunks IH]; intros s Hne; [done|].
  cbn [fold_left concat]. destruct chunks as [|d chunks]; [by rewrite app_nil_r|].
  by rewrite IH, read_chunk_app.
Qed.

Definition parse_any (line : list ascii) : option Interval :=
  Some (mkInterval 0 (Z.of_nat (length line)) "x" 0 1 1 0 0 ∅ ∅ []).
Lemma reads_are_chunk_free_witness :
  let cut := [bytes_of "ab"; bytes_of "c" ++ [newline] ++ bytes_of "d"; [newline]] in
  fold_left (λ s c, read_chunk parse_any ∅ c s) cut (NewSidecar "s") =
    read_chunk parse_any ∅ (concat cut) (NewSidecar "s") ∧
  iv_Timestamp <$> sid_pending (read_chunk parse_any ∅ (concat cut) (NewSidecar "s")) = [3; 1].
Proof.
  split; [|vm_compute; reflexivity].
  apply (reads_are_chunk_free parse_any ∅
    [bytes_of "ab"; bytes_of "c" ++ [newline] ++ bytes_of "d"; [newline]]). discriminate.
Defined.
