(* ===== verification/Delivery.v ===== *)
(** * From the pods to the report: every measurement counted exactly once

    The sidecars of a run's pods, the network between them and the control
    plane, and the run's working state.  A push may be lost, may arrive and
    have its answer lost, and may arrive again later, in any order; pods are
    independent.  The run's report is nevertheless that of all the intervals
    the sidecars took in. *)
From S2P Require Import Prelude Errors GoFloat Taurus Histogram Report ReportFacts Progress Sidecar.

(** ** One shard's batches *)

(** Intervals numbered one after the other, the first one [n + 1]. *)
Fixpoint numbered (n : Z) (l : list Interval) : Prop :=
  match l with [] => True | iv :: l' => iv_Seq iv = n + 1 ∧ numbered (n + 1) l' end.

Lemma numbered_app n l k :
  numbered n (l ++ k) ↔ numbered n l ∧ numbered (n + Z.of_nat (length l)) k.
Proof.
  revert n. induction l as [|iv l IH]; intros n; simpl; [rewrite Z.add_0_r; tauto|].
  rewrite IH. replace (n + 1 + Z.of_nat (length l)) with (n + Z.of_nat (S (length l))) by lia. tauto.
Qed.

Lemma numbered_positive n l iv : 0 <= n → numbered n l → iv ∈ l → 0 < iv_Seq iv.
Proof.
  revert n. induction l as [|x l IH]; intros n Hn; simpl; [by intros _ ?%elem_of_nil|].
  intros [Hx Hl] [->|Hin]%elem_of_cons; [lia|]. apply (IH (n + 1)); [lia|done..].
Qed.

Lemma numbered_take n k l : numbered n l → numbered n (take k l).
Proof. rewrite <- (take_drop k l) at 1. by intros [? _]%numbered_app. Qed.
Lemma numbered_drop k l :
  numbered 0 l → (k <= length l)%nat → numbered (Z.of_nat k) (drop k l).
Proof.
  intros Hn Hk. rewrite <- (take_drop k l) in Hn. apply numbered_app in Hn as [_ Hd].
  by rewrite length_take, Nat.min_l, Z.add_0_l in Hd by lia.
Qed.

(** A batch that starts at or before the watermark adds exactly what lies
    beyond it. *)
Lemma absorb_numbered l n k acc fresh :
  numbered (Z.of_nat n) l → (n <= k)%nat →
  fold_left absorb_step l (acc, Z.of_nat k, fresh) =
    (absorb_all (drop (k - n) l) acc, Z.of_nat (Nat.max k (n + length l)),
     fresh ++ drop (k - n) l).
Proof.
  revert n k acc fresh. induction l as [|iv l IH]; intros n k acc fresh Hnum Hle; simpl.
  { rewrite drop_nil, app_nil_r. simpl. repeat f_equal. lia. }
  destruct Hnum as [Hseq Hnum]. replace (Z.of_nat n + 1) with (Z.of_nat (S n)) in Hnum by lia.
  destruct (Z.leb_spec (iv_Seq iv) (Z.of_nat k)).
  - rewrite (IH (S n) k) by (done || lia).
    replace (k - n)%nat with (S (k - S n)) by lia. simpl. repeat f_equal. lia.
  - assert (n = k) as -> by lia. replace (iv_Seq iv) with (Z.of_nat (S k)) by lia.
    rewrite (IH (S k) (S k)) by (done || lia). rewrite !Nat.sub_diag. simpl.
    rewrite <- app_assoc. simpl. repeat f_equal. lia.
Qed.

(** ** The system *)
Section delivery.
Context (lm : gmap string string) (runID : Z).

(** What the ingest endpoint makes of a pushed batch: the run it belongs to and
    the cluster of the token it came with. *)
Definition to_progress (cluster : string) (b : Batch) : ProgressBatch :=
  mkProgressBatch runID (b_ScenarioID b) (b_ShardIndex b) cluster (b_StreamID b) (b_Final b)
    (b_ExitCode b) (b_Intervals b).

(** A pod: its sidecar, and everything that sidecar has taken in. *)
Record Pod := mkPod { pod_sidecar : Sidecar; pod_taken : list Interval }.
Record Net := mkNet {
  net_pods : gmap (Z * string * Z) Pod;
  net_flight : list ProgressBatch;
  net_progress : ReportProgress
}.

Definition pod_batch (key : Z * string * Z) (final : bool) (s : Sidecar) : option ProgressBatch :=
  to_progress key.1.2 <$> flush_batch (mkIdentity 0 key.1.1 runID key.2) final s.

Inductive net_step : Net → Net → Prop :=
(** A sidecar takes an interval in. *)
| net_collect key pod iv w :
    net_pods w !! key = Some pod →
    sid_seq (pod_sidecar pod) < int64_max →
    net_step w (mkNet
      (<[key := let s := collect lm iv (pod_sidecar pod) in
                mkPod s (pod_taken pod ++
                  [with_label_seq (relabel lm (iv_Label iv)) (sid_seq s) iv])]> (net_pods w))
      (net_flight w) (net_progress w))
(** A push arrives; its answer arrives when [acked]. *)
| net_push key pod final acked b w :
    net_pods w !! key = Some pod → pod_batch key final (pod_sidecar pod) = Some b →
    (acked = true → (Absorb b (net_progress w)).1 = Ok tt) →
    net_step w (mkNet
      (<[key := mkPod (flush (mkIdentity 0 key.1.1 runID key.2) final acked (pod_sidecar pod)).2
                  (pod_taken pod)]> (net_pods w))
      (b :: net_flight w) (Absorb b (net_progress w)).2)
(** A push gets lost, or is held up. *)
| net_lose key pod final b w :
    net_pods w !! key = Some pod → pod_batch key final (pod_sidecar pod) = Some b →
    net_step w (mkNet (net_pods w) (b :: net_flight w) (net_progress w))
(** A push made earlier arrives (again). *)
| net_deliver b w :
    b ∈ net_flight w →
    net_step w (mkNet (net_pods w) (net_flight w) (Absorb b (net_progress w)).2).

Definition run_of (p : ReportProgress) : progressRun :=
  default (mkProgressRun NewAccumulator ∅) (rp_runs p !! runID).
Definition watermark (key : Z * string * Z) (p : ReportProgress) : Z :=
  match pr_shards (run_of p) !! key with Some sh => str_seq sh | None => 0 end.
Definition taken_by (key : Z * string * Z) (w : Net) : list Interval :=
  match net_pods w !! key with Some pod => pod_taken pod | None => [] end.

(** A batch of [pod]'s stream that leaves no gap after what was absorbed. *)
Record batch_fits (pod : Pod) (mark : nat) (b : ProgressBatch) : Prop := {
  bf_run : pb_RunID b = runID;
  bf_stream : pb_StreamID b = sid_streamID (pod_sidecar pod);
  bf_slice : ∃ from n, pb_Intervals b = take n (drop from (pod_taken pod)) ∧
    (from <= mark)%nat ∧ (from + n <= length (pod_taken pod))%nat
}.

Record pod_fits (key : Z * string * Z) (pod : Pod) (p : ReportProgress) (mark : nat) : Prop := {
  pf_numbered : numbered 0 (pod_taken pod);
  pf_seq : sid_seq (pod_sidecar pod) = Z.of_nat (length (pod_taken pod));
  pf_pending : ∃ acked, sid_pending (pod_sidecar pod) = drop acked (pod_taken pod) ∧
                 (acked <= mark)%nat;
  pf_mark : watermark key p = Z.of_nat mark ∧ (mark <= length (pod_taken pod))%nat;
  pf_stream : ∀ sh, pr_shards (run_of p) !! key = Some sh →
    str_streamID sh = sid_streamID (pod_sidecar pod)
}.

(** [log]: the intervals absorbed, with the shard each came from. *)
Record net_ok (marks : gmap (Z * string * Z) nat) (log : list ((Z * string * Z) * Interval))
    (w : Net) : Prop := {
  no_ids : 0 < runID ∧ ∀ key pod, net_pods w !! key = Some pod → 0 < key.1.1;
  no_errs : AbsorbErr (net_progress w) = None;
  no_pods : ∀ key pod, net_pods w !! key = Some pod →
    ∃ mark, marks !! key = Some mark ∧ pod_fits key pod (net_progress w) mark;
  no_flight : ∀ b, b ∈ net_flight w → ∃ pod mark, net_pods w !! key_of b = Some pod ∧
    marks !! key_of b = Some mark ∧ batch_fits pod mark b;
  no_acc : pr_acc (run_of (net_progress w)) = absorb_all log.*2 NewAccumulator;
  no_log : ∀ key, (filter (λ x, x.1 = key) log).*2 =
    take (default 0%nat (marks !! key)) (taken_by key w)
}.

(** *** Absorbing a fitting batch *)
Lemma take_upto {A} (l : list A) from n mark :
  (from <= mark <= length l)%nat →
  take mark l ++ drop (mark - from) (take n (drop from l)) =
    take (Nat.max mark (from + length (take n (drop from l)))) l.
Proof using.
  intros Hm. rewrite skipn_firstn_comm, drop_drop, length_take, length_drop.
  replace (from + (mark - from))%nat with mark by lia. rewrite take_take_drop.
  destruct (decide (from + n <= length l)%nat).
  - f_equal. lia.
  - rewrite !take_ge by lia. done.
Qed.

Lemma Absorb_fitting key pod mark b p :
  pod_fits key pod p mark → batch_fits pod mark b → key_of b = key → 0 < runID → 0 < key.1.1 →
  AbsorbErr p = None →
  ∃ p' mark' new, Absorb b p = (Ok tt, p') ∧ AbsorbErr p' = None ∧ (mark <= mark')%nat ∧
    pr_acc (run_of p') = absorb_all new (pr_acc (run_of p)) ∧
    take mark (pod_taken pod) ++ new = take mark' (pod_taken pod) ∧
    pod_fits key pod p' mark' ∧
    (∀ from, pb_Intervals b = drop from (pod_taken pod) → (from <= mark)%nat →
       (length (pod_taken pod) <= mark')%nat) ∧
    ∀ key', key' ≠ key → pr_shards (run_of p') !! key' = pr_shards (run_of p) !! key'.
Proof using.
  intros [Hnum Hseq Hpend [Hmark Hlen] Hstr] [Hrun Hbs (from & n & Hsl & Hfrom & _)] Hkey Hr Hk Herr.
  assert (numbered (Z.of_nat from) (pb_Intervals b)) as Hbn
    by (rewrite Hsl; apply numbered_take, numbered_drop; [done|lia]).
  unfold Absorb. rewrite Herr.
  assert (ProgressBatch_Validate b = Ok tt) as ->.
  { unfold ProgressBatch_Validate. rewrite Hrun. destruct (Z.leb_spec runID 0); [lia|].
    rewrite <- Hkey in Hk. simpl in Hk. destruct (Z.leb_spec (pb_ScenarioID b) 0); [lia|].
    destruct (existsb _ _) eqn:E; [|done].
    apply existsb_exists in E as (iv & Hin%list_elem_of_In & Hle%Z.leb_le).
    pose proof (numbered_positive _ _ iv (Nat2Z.is_nonneg from) Hbn Hin). lia. }
  rewrite Hrun, Hkey. fold (run_of p).
  set (shard := default (mkShardStream (pb_StreamID b) 0 false None) (pr_shards (run_of p) !! key)).
  assert ((if bool_decide (str_streamID shard = pb_StreamID b) then str_seq shard else 0) =
    Z.of_nat mark) as ->.
  { unfold shard, watermark in *. destruct (pr_shards (run_of p) !! key) as [sh|] eqn:E; simpl.
    - by rewrite bool_decide_eq_true_2 by (by rewrite (Hstr sh), Hbs).
    - by rewrite bool_decide_eq_true_2. }
  rewrite (absorb_numbered _ from mark) by done. cbv beta iota zeta.
  set (new := drop (mark - from) (pb_Intervals b)).
  set (mark' := Nat.max mark (from + length (pb_Intervals b))).
  set (p' := mkReportProgress _ _ _ _).
  assert (run_of p' = mkProgressRun (absorb_all new (pr_acc (run_of p)))
    (<[key := mkShardStream (pb_StreamID b) (Z.of_nat mark') (pb_Final b || str_finished shard)
       (match pb_ExitCode b with Some c => Some c | None => str_exitCode shard end)]>
       (pr_shards (run_of p)))) as Hrun'.
  { unfold run_of at 1. simpl. by rewrite lookup_insert_eq. }
  exists p', mark', new. rewrite Hrun'. simpl.
  assert ((mark' <= length (pod_taken pod))%nat) as Hle'.
  { unfold mark'. rewrite Hsl, length_take, length_drop. lia. }
  split_and!; [done|done|lia|done| | | |].
  - unfold new, mark'. rewrite Hsl. by apply take_upto.
  - split; [done|done| | |].
    + destruct Hpend as (a & ? & ?). exists a. split; [done|lia].
    + unfold watermark. rewrite Hrun'. simpl. by rewrite lookup_insert_eq.
    + rewrite Hrun'. simpl. intros sh. rewrite lookup_insert_eq. intros [= <-]. done.
  - intros from' Hsl' Hf'. unfold mark'.
    assert (numbered (Z.of_nat from') (pb_Intervals b)) as Hbn'
      by (rewrite Hsl'; apply numbered_drop; [done|lia]).
    assert (length (pb_Intervals b) = length (pod_taken pod) - from')%nat
      by (by rewrite Hsl', length_drop).
    destruct (pb_Intervals b); simpl in *; [lia|]. destruct Hbn as [? _], Hbn' as [? _]. lia.
  - intros key' Hne. by rewrite lookup_insert_ne.
Qed.

(** *** The invariant is kept *)
Lemma pod_fits_other key pod p p' mark :
  pr_shards (run_of p') !! key = pr_shards (run_of p) !! key →
  pod_fits key pod p mark → pod_fits key pod p' mark.
Proof using.
  intros E [H1 H2 H3 H4 H5]. split; [done..| |by rewrite E]. unfold watermark. by rewrite E.
Qed.

Lemma batch_fits_mono pod mark mark' b :
  (mark <= mark')%nat → batch_fits pod mark b → batch_fits pod mark' b.
Proof using.
  intros Hle [? ? (from & n & ? & ? & ?)]. split; [done..|]. exists from, n. split; [done|lia].
Qed.

(** A batch the pod at its key could have sent. *)
Definition sendable (marks : gmap (Z * string * Z) nat) (w : Net) (b : ProgressBatch) : Prop :=
  ∃ pod mark, net_pods w !! key_of b = Some pod ∧ marks !! key_of b = Some mark ∧
    batch_fits pod mark b.

Lemma net_deliver_ok marks log w b :
  net_ok marks log w → sendable marks w b →
  ∃ marks' log', net_ok marks' log' (mkNet (net_pods w) (net_flight w) (Absorb b (net_progress w)).2) ∧
    (∀ pod from, net_pods w !! key_of b = Some pod → pb_Intervals b = drop from (pod_taken pod) →
       (from <= default 0 (marks !! key_of b))%nat →
       (length (pod_taken pod) <= default 0 (marks' !! key_of b))%nat) ∧
    ∀ key mark, marks !! key = Some mark → ∃ mark', marks' !! key = Some mark' ∧ (mark <= mark')%nat.
Proof using.
  intros [[Hr Hk] Herr Hpods Hfl Hacc Hlog] (pod & mark & Hpod & Hmark & Hfit).
  destruct (Hpods _ _ Hpod) as (mark0 & Hm0 & Hpf). simplify_eq.
  destruct (Absorb_fitting (key_of b) pod mark b (net_progress w))
    as (p' & mark' & new & -> & Herr' & Hle & Hacc' & Htake & Hpf' & Hall & Hoth);
    [done|done|done|done|by eapply Hk|done|].
  exists (<[key_of b := mark']> marks), (log ++ (pair (key_of b) <$> new)). simpl.
  assert (∀ key m, marks !! key = Some m →
    ∃ m', <[key_of b := mark']> marks !! key = Some m' ∧ (m <= m')%nat) as Hmono.
  { intros key m Hm. destruct (decide (key = key_of b)) as [->|Hne].
    - rewrite lookup_insert_eq. eexists. split; [done|]. by simplify_eq.
    - rewrite lookup_insert_ne by done. eauto. }
  split; [|split; [|done]].
  - split; simpl; [done|done| | | |].
    + intros key pod' Hpod'. destruct (decide (key = key_of b)) as [->|Hne].
      * simplify_eq. exists mark'. by rewrite lookup_insert_eq.
      * destruct (Hpods _ _ Hpod') as (m & Hm & Hpf0). exists m.
        rewrite lookup_insert_ne by done. split; [done|].
        eapply pod_fits_other; [by apply Hoth|done].
    + intros b' Hb'. destruct (Hfl b' Hb') as (pod' & m & Hp & Hm & Hb).
      destruct (Hmono _ _ Hm) as (m' & ? & ?). exists pod', m'.
      split; [done|]. split; [done|]. by eapply batch_fits_mono.
    + rewrite Hacc', Hacc, fmap_app, <- list_fmap_compose. unfold absorb_all.
      rewrite fold_left_app. f_equal. symmetry. apply list_fmap_id.
    + intros key. rewrite filter_app, fmap_app, Hlog, filter_fmap. unfold taken_by. simpl.
      destruct (decide (key = key_of b)) as [->|Hne].
      * rewrite lookup_insert_eq, Hmark, Hpod. simpl.
        rewrite (filter_all (λ _, key_of b = key_of b)) by done.
        rewrite <- Htake. f_equal. rewrite <- list_fmap_compose. apply list_fmap_id.
      * rewrite lookup_insert_ne by done.
        rewrite (filter_none (λ _, key_of b = key)) by (intros; congruence).
        by rewrite app_nil_r.
  - intros pod' from Hpod' Hsl Hfrom. simplify_eq. rewrite Hmark in Hfrom. simpl in Hfrom.
    rewrite lookup_insert_eq. simpl. eauto.
Qed.

Lemma net_flight_ok marks log w b :
  net_ok marks log w → sendable marks w b →
  net_ok marks log (mkNet (net_pods w) (b :: net_flight w) (net_progress w)).
Proof using.
  intros [? ? ? Hfl ? ?] Hs. split; simpl; try done.
  intros b' [->|Hb']%elem_of_cons; [exact Hs|by apply Hfl].
Qed.

Lemma pod_batch_sendable marks log w key pod final b :
  net_ok marks log w → net_pods w !! key = Some pod →
  pod_batch key final (pod_sidecar pod) = Some b →
  sendable marks w b ∧ key_of b = key ∧ pb_Intervals b = sid_pending (pod_sidecar pod).
Proof using.
  intros Hok Hpod Hb. destruct (no_pods _ _ _ Hok _ _ Hpod) as (mark & Hm & Hpf).
  unfold pod_batch, flush_batch in Hb. destruct (_ && _); [done|]. injection Hb as <-.
  assert (key_of (to_progress key.1.2 (mkBatch 0 key.1.1 runID key.2 (sid_streamID (pod_sidecar pod))
    (sid_pending (pod_sidecar pod)) "" final (sid_exitCode (pod_sidecar pod)))) = key) as Hkey.
  { by destruct key as [[? ?] ?]. }
  split; [|done]. exists pod, mark. rewrite Hkey. split; [done|]. split; [done|].
  split; [done|done|]. destruct (pf_pending _ _ _ _ Hpf) as (a & Ha & Hle).
  destruct (pf_mark _ _ _ _ Hpf) as [_ Hlen].
  exists a, (length (pod_taken pod) - a)%nat. simpl. rewrite Ha. split; [|lia].
  symmetry. apply take_ge. rewrite length_drop. lia.
Qed.

(** A pod that has moved on without disturbing what was sent or absorbed. *)
Lemma net_pod_ok marks log w key pod pod' mark :
  net_ok marks log w → net_pods w !! key = Some pod → marks !! key = Some mark →
  pod_fits key pod' (net_progress w) mark →
  (∀ b, batch_fits pod mark b → batch_fits pod' mark b) →
  take mark (pod_taken pod') = take mark (pod_taken pod) →
  net_ok marks log (mkNet (<[key := pod']> (net_pods w)) (net_flight w) (net_progress w)).
Proof using.
  intros [[Hr Hk] Herr Hpods Hfl Hacc Hlog] Hpod Hm Hpf Hb Ht. split; simpl.
  - split; [done|]. intros k q [[<- _]|[_ Hq]]%lookup_insert_Some; eauto.
  - done.
  - intros k q [[<- <-]|[_ Hq]]%lookup_insert_Some; eauto.
  - intros b Hin. destruct (Hfl b Hin) as (q & m & Hq & Hm' & Hfit).
    destruct (decide (key = key_of b)) as [->|Hne].
    + simplify_eq. exists pod', mark. rewrite lookup_insert_eq. auto.
    + exists q, m. rewrite lookup_insert_ne by done. done.
  - done.
  - intros k. rewrite Hlog. unfold taken_by. simpl. destruct (decide (key = k)) as [<-|Hne].
    + rewrite lookup_insert_eq, Hpod, Hm. simpl. by rewrite Ht.
    + by rewrite lookup_insert_ne.
Qed.

Lemma collect_fits key pod p mark iv :
  pod_fits key pod p mark → sid_seq (pod_sidecar pod) < int64_max →
  let s := collect lm iv (pod_sidecar pod) in
  pod_fits key (mkPod s (pod_taken pod ++
    [with_label_seq (relabel lm (iv_Label iv)) (sid_seq s) iv])) p mark.
Proof using.
  intros [Hn Hs (a & Hp & Ha) [Hm Hl] Hst] Hmax. simpl.
  assert (sid_seq (pod_sidecar pod) +w 1 = Z.of_nat (length (pod_taken pod)) + 1) as Hseq.
  { rewrite Hs in *. apply wrap64_small. unfold in_int64, int64_min, int64_max in *. lia. }
  split; simpl; [| | | |done].
  - apply numbered_app. split; [done|]. simpl. by rewrite Hseq.
  - rewrite Hseq, length_app. simpl. lia.
  - exists a. split; [|done]. rewrite Hp, drop_app_le by lia. done.
  - split; [done|]. rewrite length_app. lia.
Qed.

Lemma net_step_ok marks log w w' :
  net_step w w' → net_ok marks log w → ∃ marks' log', net_ok marks' log' w'.
Proof using.
  intros Hstep Hok. destruct Hstep as [key pod iv w Hpod Hmax|key pod final acked b w Hpod Hb Hack
    |key pod final b w Hpod Hb|b w Hb].
  - destruct (no_pods _ _ _ Hok _ _ Hpod) as (mark & Hm & Hpf). exists marks, log.
    destruct (pf_mark _ _ _ _ Hpf) as [_ Hlen].
    eapply net_pod_ok; [done..|by apply collect_fits| |].
    + intros b [? ? (from & n & Hsl & ? & ?)]. split; simpl; [done|done|]. exists from, n.
      rewrite length_app. split; [|lia]. rewrite drop_app_le, take_app_le by (rewrite ?length_drop; lia).
      done.
    + simpl. by rewrite take_app_le by lia.
  - destruct (pod_batch_sendable _ _ _ _ _ _ _ Hok Hpod Hb) as (Hs & Hkey & Hpend).
    destruct (net_deliver_ok marks log (mkNet (net_pods w) (b :: net_flight w) (net_progress w)) b)
      as (marks' & log' & Hok' & Hall & Hmono); [by apply net_flight_ok|done|]. simpl in *.
    exists marks', log'. destruct (no_pods _ _ _ Hok' key pod Hpod) as (mark' & Hm' & Hpf').
    destruct (no_pods _ _ _ Hok key pod Hpod) as (mark & Hm & Hpf).
    refine (net_pod_ok marks' log' (mkNet _ _ _) key pod _ mark' Hok' Hpod Hm' _ _ _); simpl.
    + unfold flush. unfold pod_batch in Hb. destruct (flush_batch _ _ _) as [b0|] eqn:Hfb; [|done].
      destruct acked; [|by destruct pod]. simpl. injection Hb as <-.
      destruct Hpf' as [Hn' Hs' Hp' Hmk' Hst']. split; simpl; try done.
      exists (length (pod_taken pod)). simpl in Hpend. rewrite Hpend, !drop_ge by done.
      split; [done|].
      destruct (pf_pending _ _ _ _ Hpf) as (a & Ha & Hle). rewrite Ha in Hpend.
      rewrite Hkey in Hall. specialize (Hall pod a Hpod Hpend). rewrite Hm, Hm' in Hall. by apply Hall.
    + intros b' [? ? ?]. split; simpl; try done. unfold flush.
      destruct (flush_batch _ _ _); [|done]. by destruct acked.
    + done.
  - destruct (pod_batch_sendable _ _ _ _ _ _ _ Hok Hpod Hb) as (Hs & _). exists marks, log.
    by apply net_flight_ok.
  - destruct (no_flight _ _ _ Hok b Hb) as (pod & mark & ?).
    destruct (net_deliver_ok marks log w b) as (marks' & log' & ? & _); [done|by exists pod, mark|].
    eauto.
Qed.

(** A run that has not started, with the sidecars of its pods. *)
Definition net_start (w : Net) : Prop :=
  0 < runID ∧ net_flight w = [] ∧ AbsorbErr (net_progress w) = None ∧
  rp_runs (net_progress w) !! runID = None ∧
  map_Forall (λ key pod, 0 < key.1.1 ∧ pod_taken pod = [] ∧ ∃ stream,
    pod_sidecar pod = NewSidecar stream) (net_pods w).

Lemma net_start_ok w : net_start w → net_ok ((λ _, 0%nat) <$> net_pods w) [] w.
Proof using.
  intros (Hr & Hfl & He & Hrun & Hpods).
  assert (run_of (net_progress w) = mkProgressRun NewAccumulator ∅) as Hro
    by (unfold run_of; by rewrite Hrun).
  split.
  - split; [done|]. intros key pod Hpod. by destruct (Hpods _ _ Hpod).
  - done.
  - intros key pod Hpod. exists 0%nat. rewrite lookup_fmap, Hpod. split; [done|].
    destruct (Hpods _ _ Hpod) as (_ & Ht & stream & Hs). split; rewrite ?Ht, ?Hs; simpl; try done.
    + exists 0%nat. done.
    + unfold watermark. rewrite Hro. simpl. by rewrite lookup_empty.
    + rewrite Hro. simpl. intros sh. by rewrite lookup_empty.
  - rewrite Hfl. by intros b ?%elem_of_nil.
  - by rewrite Hro.
  - intros key. rewrite lookup_fmap. unfold taken_by. by destruct (net_pods w !! key).
Qed.

(** *** Everything absorbed *)
Lemma log_partition {K A} `{EqDecision K} (keys : list K) (log : list (K * A)) :
  NoDup keys → (∀ x, x ∈ log → x.1 ∈ keys) →
  log ≡ₚ keys ≫= λ k, filter (λ x, x.1 = k) log.
Proof using.
  revert log. induction keys as [|k keys IH]; intros log Hnd Hin.
  { destruct log as [|x log]; [done|]. exfalso. by apply (not_elem_of_nil x.1), Hin; left. }
  apply NoDup_cons in Hnd as [Hk Hnd]. cbn.
  rewrite <- (filter_app_complement (λ x : K * A, x.1 = k) log) at 1. apply Permutation_app_head.
  rewrite (IH (filter (λ x, ¬ x.1 = k) log)); [|done|].
  - apply Permutation_refl'. clear -Hk. induction keys as [|k' keys IH]; [done|]. cbn.
    apply not_elem_of_cons in Hk as [Hne Hk]. rewrite IH by done. f_equal.
    rewrite list_filter_filter. apply list_filter_iff. intros [k0 a]. simpl. naive_solver.
  - intros x [Hx Hl]%list_elem_of_filter. specialize (Hin x Hl). set_solver.
Qed.

(** C7. Every measurement reaches the report exactly once.  However pushes are
    lost, answered, not answered, held up and delivered again, across all the
    pods of a run and in whatever order, once no sidecar has anything pending
    the report's figures are those of a report built in one pass from all the
    intervals the sidecars took in. *)
Theorem every_measurement_counted_once m w w' :
  net_start w → rtc net_step w w' →
  (∀ key pod, net_pods w' !! key = Some pod → sid_pending (pod_sidecar pod) = []) →
  figures (Accumulator_Report m (pr_acc (run_of (net_progress w')))) =
  figures (Build m ((map_to_list (net_pods w')).*2 ≫= pod_taken)).
Proof using.
  intros Hstart Hsteps Hdone.
  assert (∃ marks log, net_ok marks log w') as (marks & log & Hok).
  { assert (∃ marks log, net_ok marks log w) as Hinit by eauto using net_start_ok.
    clear Hstart Hdone. induction Hsteps as [|a b c Hab _ IH]; [done|].
    apply IH. destruct Hinit as (mk & lg & Hi). eauto using net_step_ok. }
  rewrite (no_acc _ _ _ Hok). apply (figures_proper m), absorb_all_proper;
    [|split; [apply NewAccumulator_ok|]; by split; [apply NewAccumulator_ok|]].
  assert (∀ key, (filter (λ x, x.1 = key) log).*2 = taken_by key w') as Hall.
  { intros key. rewrite (no_log _ _ _ Hok). unfold taken_by.
    destruct (net_pods w' !! key) as [pod|] eqn:Hpod; [|by rewrite take_nil].
    destruct (no_pods _ _ _ Hok _ _ Hpod) as (mark & -> & Hpf). simpl. apply take_ge.
    destruct (pf_pending _ _ _ _ Hpf) as (a & Ha & Hle). rewrite (Hdone _ _ Hpod) in Ha.
    apply (f_equal length) in Ha. rewrite length_drop in Ha. simpl in Ha. lia. }
  rewrite (log_partition (map_to_list (net_pods w')).*1 log).
  - assert (((map_to_list (net_pods w')).*1 ≫= λ k, filter (λ x, x.1 = k) log).*2 =
      (map_to_list (net_pods w')).*2 ≫= pod_taken) as ->; [|done].
    assert (∀ kv, kv ∈ map_to_list (net_pods w') →
      (filter (λ x, x.1 = kv.1) log).*2 = pod_taken kv.2) as Hkv.
    { intros [key pod] Hin%elem_of_map_to_list. rewrite Hall. unfold taken_by. simpl. by rewrite Hin. }
    induction (map_to_list (net_pods w')) as [|kv l IH]; [done|].
    rewrite !fmap_cons, !bind_cons, fmap_app, Hkv by left. f_equal. apply IH. intros kv' Hin. apply Hkv. by right.
  - apply NoDup_fst_map_to_list.
  - intros x Hx. assert (x ∈ filter (λ y, y.1 = x.1) log) as Hf by (by apply list_elem_of_filter).
    assert (x.2 ∈ taken_by x.1 w') as Ht by (rewrite <- Hall; by apply list_elem_of_fmap_2).
    unfold taken_by in Ht. destruct (net_pods w' !! x.1) as [pod|] eqn:Hpod;
      [|by apply elem_of_nil in Ht].
    apply list_elem_of_fmap. exists (x.1, pod). split; [done|]. by apply elem_of_map_to_list.
Qed.
End delivery.

(** A run with one pod: an interval is taken in, the first push is held up, the
    second is answered, and then the first arrives after all. *)
Definition one_pod : Net :=
  mkNet {[ (2, "", 0) := mkPod (NewSidecar "s") [] ]} [] NewReportProgress.
Definition sent : ProgressBatch :=
  mkProgressBatch 1 2 0 "" "s" false None [with_label_seq "checkout" 1 checkout_row].
Definition after_push : ReportProgress := (Absorb sent NewReportProgress).2.
Definition one_pod_done : Net :=
  mkNet {[ (2, "", 0) := mkPod (mkSidecar [] [] 1 1 "s" None)
             [with_label_seq "checkout" 1 checkout_row] ]}
    [sent; sent] (Absorb sent after_push).2.

Lemma every_measurement_counted_once_witness :
  figures (Accumulator_Report some_meta (pr_acc (run_of 1 (net_progress one_pod_done)))) =
  figures (Build some_meta [with_label_seq "checkout" 1 checkout_row]).
Proof.
  refine (every_measurement_counted_once ∅ 1 some_meta one_pod one_pod_done _ _ _).
  - split; [reflexivity|]. split; [reflexivity|]. split; [reflexivity|]. split; [reflexivity|].
    apply map_Forall_singleton. split; [reflexivity|]. split; [reflexivity|]. exists "s". reflexivity.
  - eapply rtc_l; [apply (net_collect ∅ 1 (2, "", 0) (mkPod (NewSidecar "s") []) checkout_row);
      [apply lookup_singleton_eq|reflexivity]|].
    eapply rtc_l; [eapply (net_lose ∅ 1 (2, "", 0) _ false); [apply lookup_insert_eq|reflexivity]|].
    eapply rtc_l; [eapply (net_push ∅ 1 (2, "", 0) _ false true); [apply lookup_insert_eq|reflexivity|
      intros _; vm_compute; reflexivity]|].
    eapply rtc_l; [eapply (net_deliver ∅ 1 sent); simpl; left|].
    match goal with |- rtc _ ?x _ =>
      assert (x = one_pod_done) as -> by (vm_compute; reflexivity) end. apply rtc_refl.
  - intros key pod Hp. unfold one_pod_done in Hp. cbn [net_pods] in Hp.
    apply lookup_singleton_Some in Hp as [<- <-]. reflexivity.
Defined.

(** ** Batches that arrive again *)
Lemma absorb_fold_watermark l acc seq fresh :
  let '(_, seq', _) := fold_left absorb_step l (acc, seq, fresh) in
  seq <= seq' ∧ ∀ iv, iv ∈ l → iv_Seq iv <= seq'.
Proof.
  revert acc seq fresh. induction l as [|iv l IH]; intros acc seq fresh; simpl.
  { split; [lia|]. by intros iv ?%elem_of_nil. }
  destruct (Z.leb_spec (iv_Seq iv) seq);
    match goal with |- context [fold_left absorb_step l (?a, ?s, ?f)] =>
      specialize (IH a s f); destruct (fold_left absorb_step l (a, s, f)) as [[acc' seq'] fresh'] end;
    destruct IH as [Hle Hall]; (split; [lia|]); intros x [->|Hx]%elem_of_cons; auto; lia.
Qed.

Lemma absorb_fold_stale l acc seq fresh :
  (∀ iv, iv ∈ l → iv_Seq iv <= seq) → fold_left absorb_step l (acc, seq, fresh) = (acc, seq, fresh).
Proof.
  induction l as [|iv l IH]; intros Hl; simpl; [done|].
  rewrite (proj2 (Z.leb_le _ _)) by (apply Hl; left). apply IH. intros. apply Hl. by right.
Qed.

(** Absorbing the same batch twice in a row leaves the state absorbing it
    once left, series and shard positions included. *)
Theorem absorb_twice_is_once b p p' :
  Absorb b p = (Ok tt, p') → Absorb b p' = (Ok tt, p').
Proof.
  unfold Absorb. destruct (AbsorbErr p) eqn:Herr; [done|].
  destruct (ProgressBatch_Validate b); [|done].
  set (run := default _ (rp_runs p !! _)). set (shard := default _ (pr_shards run !! _)).
  set (seq0 := if bool_decide _ then _ else _).
  pose proof (absorb_fold_watermark (pb_Intervals b) (pr_acc run) seq0 []) as Hw.
  destruct (fold_left absorb_step (pb_Intervals b) (pr_acc run, seq0, [])) as [[acc seq] fresh].
  destruct Hw as [_ Hw]. intros [= <-]. cbn [AbsorbErr rp_runs rp_series DiscardErr].
  rewrite !lookup_insert_eq. cbn [default from_option id pr_shards pr_acc]. rewrite lookup_insert_eq.
  cbn [default from_option id str_streamID str_seq str_finished str_exitCode].
  rewrite bool_decide_eq_true_2 by done. rewrite absorb_fold_stale by done.
  unfold absorbSeries. cbn [by_second fold_left]. unfold by_second. cbn [fold_left].
  rewrite map_to_list_empty. cbn [fold_left]. rewrite !insert_insert_eq.
  destruct (pb_Final b), (pb_ExitCode b); done.
Qed.

Lemma absorb_twice_is_once_witness :
  Absorb sent after_push = (Ok tt, after_push).
Proof.
  apply (absorb_twice_is_once sent NewReportProgress after_push). vm_compute. reflexivity.
Defined.

(** A batch of a stream that is not the shard's current one is taken whole,
    whatever of it was absorbed before: a late delivery from a pod's previous
    sidecar counts all its intervals a second time. *)
Theorem late_batch_counts_again b1 b2 p n1 n2 :
  AbsorbErr p = None → pb_RunID b1 = pb_RunID b2 → key_of b1 = key_of b2 →
  pb_StreamID b1 ≠ pb_StreamID b2 → rp_runs p !! pb_RunID b1 = None →
  ProgressBatch_Validate b1 = Ok tt → ProgressBatch_Validate b2 = Ok tt →
  numbered n1 (pb_Intervals b1) → numbered n2 (pb_Intervals b2) → 0 <= n1 → 0 <= n2 →
  pr_acc (run_of (pb_RunID b1) (Absorb b1 (Absorb b2 (Absorb b1 p).2).2).2) =
    absorb_all (pb_Intervals b1 ++ pb_Intervals b2 ++ pb_Intervals b1) NewAccumulator.
Proof.
  intros Herr Hrun Hkey Hstr Hno Hv1 Hv2 Hn1 Hn2 Hp1 Hp2.
  assert (∀ l n acc fresh seq, numbered n l → seq <= n →
    ∃ seq', fold_left absorb_step l (acc, seq, fresh) = (absorb_all l acc, seq', fresh ++ l)) as Hfold.
  { induction l as [|iv l IH]; intros n acc fresh seq; simpl.
    - intros _ _. exists seq. by rewrite app_nil_r.
    - intros [Hs Hl] Hle. destruct (Z.leb_spec (iv_Seq iv) seq); [lia|].
      destruct (IH (n + 1) (Add iv acc) (fresh ++ [iv]) (iv_Seq iv) Hl ltac:(lia)) as (seq' & ->).
      exists seq'. by rewrite <- app_assoc. }
  assert (∀ b q n sh, AbsorbErr q = None → ProgressBatch_Validate b = Ok tt →
    numbered n (pb_Intervals b) → 0 <= n →
    pr_shards (run_of (pb_RunID b) q) !! key_of b = sh →
    match sh with Some s => str_streamID s ≠ pb_StreamID b | None => True end →
    ∃ q', (Absorb b q).2 = q' ∧ AbsorbErr q' = None ∧
      pr_acc (run_of (pb_RunID b) q') = absorb_all (pb_Intervals b) (pr_acc (run_of (pb_RunID b) q)) ∧
      ∃ s, pr_shards (run_of (pb_RunID b) q') !! key_of b = Some s ∧ str_streamID s = pb_StreamID b)
    as Hone.
  { intros b q n sh He Hv Hn H0 Hsh Hne. unfold Absorb. rewrite He, Hv. fold (run_of (pb_RunID b) q).
    rewrite Hsh. set (seq0 := if bool_decide _ then _ else 0).
    assert (seq0 = 0) as ->.
    { unfold seq0. destruct sh as [s|]; simpl; [by rewrite bool_decide_eq_false_2|].
      by rewrite bool_decide_eq_true_2. }
    destruct (Hfold (pb_Intervals b) n (pr_acc (run_of (pb_RunID b) q)) [] 0 Hn H0) as (seq' & ->).
    eexists. split; [done|]. split; [done|]. unfold run_of. cbn [rp_runs snd].
    rewrite !lookup_insert_eq. cbn [default from_option id pr_acc pr_shards].
    split; [done|]. rewrite lookup_insert_eq. eauto. }
  destruct (Hone b1 p n1 None) as (q1 & -> & He1 & Ha1 & s1 & Hs1 & Hst1); [done..| |done|].
  { unfold run_of. by rewrite Hno. }
  destruct (Hone b2 q1 n2 (Some s1)) as (q2 & -> & He2 & Ha2 & s2 & Hs2 & Hst2);
    [done..|by rewrite <- Hrun, <- Hkey|by rewrite Hst1|].
  destruct (Hone b1 q2 n1 (Some s2)) as (q3 & -> & _ & Ha3 & _);
    [done..|by rewrite Hrun, Hkey|by rewrite Hst2|].
  rewrite Ha3, Hrun, Ha2, <- Hrun, Ha1. unfold run_of. rewrite Hno. simpl.
  unfold absorb_all. by rewrite !fold_left_app.
Qed.

Definition restarted : ProgressBatch :=
  mkProgressBatch 1 2 0 "" "t" false None [with_label_seq "checkout" 1 checkout_row].
Lemma late_batch_counts_again_witness :
  pr_acc (run_of 1 (Absorb sent (Absorb restarted (Absorb sent NewReportProgress).2).2).2) =
    absorb_all (pb_Intervals sent ++ pb_Intervals restarted ++ pb_Intervals sent) NewAccumulator.
Proof.
  apply (late_batch_counts_again sent restarted NewReportProgress 0 0);
    try reflexivity; try discriminate; split; reflexivity || exact I.
Defined.
