(* ===== verification/Reservation.v ===== *)
(** * Reservations and their ledger

    [internal/domain/reservation]: a tenant's time-bounded claim on engine
    capacity.  [Ledger] and its operations are the reservation tables of the
    in-memory repository, [internal/ports/fake/reservation_repository.go]. *)
From S2P Require Import Prelude Errors.

(** ** The domain *)
Definition DefaultCeiling : Z := 10.

Record Reservation := mkReservation {
  res_ID : Z;
  res_TenantID : Z;
  res_Cluster : string;
  res_EngineCount : Z;
  res_Start : time;
  res_End : time;
  res_ExecutionID : Z
}.

#[global] Instance Reservation_eq_dec : EqDecision Reservation.
Proof. solve_decision. Defined.

Definition Validate (r : Reservation) : result error unit :=
  if res_EngineCount r <=? 0 then Err ErrResEngineCountInvalid
  else if negb (After (res_End r) (res_Start r)) then Err ErrResWindowInvalid
  else Ok tt.

Definition Overlaps (r other : Reservation) : bool :=
  Before (res_Start r) (res_End other) && Before (res_Start other) (res_End r).

Definition with_ID (r : Reservation) (id : Z) : Reservation :=
  mkReservation id (res_TenantID r) (res_Cluster r) (res_EngineCount r)
    (res_Start r) (res_End r) (res_ExecutionID r).

(** ** The ledger *)
Record Ledger := mkLedger {
  reservationSeq : Z;
  reservations : gmap Z Reservation;
  quotaCeilings : gmap (Z * string) Z
}.

Definition empty_ledger : Ledger := mkLedger 0 ∅ ∅.

Definition CreateReservation (r : Reservation) (l : Ledger) : Z * Ledger :=
  let id := reservationSeq l + 1 in
  (id, mkLedger id (<[id := with_ID r id]> (reservations l)) (quotaCeilings l)).

Definition DeleteReservation (id : Z) (l : Ledger) : result error unit * Ledger :=
  match reservations l !! id with
  | None => (Err ErrNotFound, l)
  | Some _ =>
      (Ok tt, mkLedger (reservationSeq l) (delete id (reservations l)) (quotaCeilings l))
  end.

Definition ReleaseReservationsForExecution (executionID : Z) (l : Ledger) : Ledger :=
  mkLedger (reservationSeq l)
    (filter (λ kv, res_ExecutionID kv.2 ≠ executionID) (reservations l))
    (quotaCeilings l).

(** The rows, in the order the map is traversed. *)
Definition rows (l : Ledger) : list Reservation := (map_to_list (reservations l)).*2.

Definition ReservationsForTenant (tenantID : Z) (cluster : string) (l : Ledger) :
    list Reservation :=
  filter (λ r, res_TenantID r = tenantID ∧ res_Cluster r = cluster) (rows l).

Definition window_probe (start end_ : time) : Reservation :=
  mkReservation 0 0 "" 0 start end_ 0.

Definition ReservationsInWindow (tenantID : Z) (cluster : string) (start end_ : time)
    (l : Ledger) : list Reservation :=
  filter (λ r, Overlaps (window_probe start end_) r = true)
    (ReservationsForTenant tenantID cluster l).

Record Quota := mkQuota { Ceiling : Z; Configured : bool }.

Definition GetQuota (tenantID : Z) (cluster : string) (l : Ledger) : Quota :=
  match quotaCeilings l !! (tenantID, cluster) with
  | Some c => mkQuota c true
  | None => mkQuota 0 false
  end.

Definition SetCeiling (tenantID : Z) (cluster : string) (ceiling : Z) (l : Ledger) : Ledger :=
  mkLedger (reservationSeq l) (reservations l)
    (<[(tenantID, cluster) := ceiling]> (quotaCeilings l)).

Record TenantQuota := mkTenantQuota { tq_TenantID : Z; tq_Ceiling : Z }.

Definition tenant_quota_le (a b : TenantQuota) : Prop := tq_TenantID a <= tq_TenantID b.
#[global] Instance tenant_quota_le_dec a b : Decision (tenant_quota_le a b).
Proof. unfold tenant_quota_le. apply _. Defined.

Definition ListClusterQuotas (cluster : string) (l : Ledger) : list TenantQuota :=
  merge_sort tenant_quota_le
    ((λ kv : (Z * string) * Z, mkTenantQuota kv.1.1 kv.2) <$>
       filter (λ kv, kv.1.2 = cluster) (map_to_list (quotaCeilings l))).

(** ** Windows *)

(** [t] lies in the half-open window of [r]. *)
Definition covers (r : Reservation) (t : time) : Prop := res_Start r <= t < res_End r.
#[global] Instance covers_dec r t : Decision (covers r t).
Proof. unfold covers. apply _. Defined.

Definition window_ok (r : Reservation) : Prop := 0 < res_EngineCount r ∧ res_Start r < res_End r.

Lemma Validate_ok r : Validate r = Ok tt ↔ window_ok r.
Proof.
  unfold Validate, window_ok, After. go_case; to_prop; split; try done; intros; lia.
Qed.

Lemma Overlaps_true r o :
  Overlaps r o = true ↔ res_Start r < res_End o ∧ res_Start o < res_End r.
Proof. unfold Overlaps, Before. rewrite andb_true_iff, !bool_decide_eq_true. done. Qed.

(** Two valid reservations overlap exactly when some instant lies in both
    half-open windows, so reservations that abut do not collide. *)
Theorem overlaps_shared_instant r o :
  window_ok r → window_ok o →
  Overlaps r o = true ↔ ∃ t, covers r t ∧ covers o t.
Proof.
  intros [_ Hr] [_ Ho]. rewrite Overlaps_true. unfold covers. split.
  - intros. exists (Z.max (res_Start r) (res_Start o)). lia.
  - intros (t & ? & ?). lia.
Qed.

Lemma overlaps_shared_instant_witness :
  let r := mkReservation 1 5 "eu" 2 0 10 1 in
  let abutting := mkReservation 2 5 "eu" 2 10 20 2 in
  window_ok r ∧ window_ok abutting ∧
  (Overlaps r abutting = true ↔ ∃ t, covers r t ∧ covers abutting t).
Proof.
  simpl. split; [by split|]. split; [by split|].
  apply (overlaps_shared_instant (mkReservation 1 5 "eu" 2 0 10 1)
           (mkReservation 2 5 "eu" 2 10 20 2)); by split.
Defined.

(** ** Ledger lemmas *)

(** Rows are valid and filed under their own id, at most the last one issued. *)
Definition ledger_ok (l : Ledger) : Prop :=
  map_Forall (λ id r, window_ok r ∧ res_ID r = id ∧ id <= reservationSeq l) (reservations l).

Lemma elem_of_rows l r : r ∈ rows l ↔ ∃ id, reservations l !! id = Some r.
Proof.
  unfold rows. rewrite list_elem_of_fmap. split.
  - intros ([id r'] & -> & H%elem_of_map_to_list). eauto.
  - intros [id H]. exists (id, r). by rewrite elem_of_map_to_list.
Qed.

Lemma ledger_ok_row l r : ledger_ok l → r ∈ rows l → window_ok r.
Proof. intros Hl [id Hid]%elem_of_rows. by destruct (Hl _ _ Hid). Qed.

Lemma ledger_fresh l : ledger_ok l → reservations l !! (reservationSeq l + 1) = None.
Proof.
  intros Hl. destruct (reservations l !! _) as [r|] eqn:E; [|done].
  destruct (Hl _ _ E) as (_ & _ & ?). lia.
Qed.

Lemma rows_create l r :
  ledger_ok l →
  rows (CreateReservation r l).2 ≡ₚ with_ID r (reservationSeq l + 1) :: rows l.
Proof.
  intros Hl. unfold rows. simpl. rewrite map_to_list_insert by by apply ledger_fresh.
  done.
Qed.

Lemma ledger_ok_create l r :
  ledger_ok l → window_ok r → ledger_ok (CreateReservation r l).2.
Proof.
  intros Hl Hr id r'. simpl. rewrite lookup_insert_Some.
  intros [[<- <-]|[? Hr']]; [by repeat split; try lia; apply Hr|].
  destruct (Hl _ _ Hr') as (? & ? & ?). repeat split; try done; [by apply H0..|lia].
Qed.

(** [l'] has no row [l] lacks and the same ceilings. *)
Definition ledger_sub (l' l : Ledger) : Prop :=
  reservations l' ⊆ reservations l ∧ quotaCeilings l' = quotaCeilings l ∧
  reservationSeq l' = reservationSeq l.

#[global] Instance ledger_sub_preorder : PreOrder ledger_sub.
Proof.
  split; [by intros l|]. intros l1 l2 l3 (? & ? & ?) (? & ? & ?).
  repeat split; [by etrans|congruence..].
Qed.

Lemma ledger_ok_sub l' l : ledger_sub l' l → ledger_ok l → ledger_ok l'.
Proof.
  intros (Hs & _ & Hq) Hl id r Hr. unfold ledger_ok in Hl. rewrite Hq.
  by apply Hl, (lookup_weaken _ _ _ _ Hr Hs).
Qed.

Lemma ledger_sub_release e l : ledger_sub (ReleaseReservationsForExecution e l) l.
Proof. repeat split. apply map_filter_subseteq. Qed.

Lemma ledger_sub_delete id l : ledger_sub (DeleteReservation id l).2 l.
Proof.
  unfold DeleteReservation. destruct (reservations l !! id); simpl; [|reflexivity].
  repeat split. apply delete_subseteq.
Qed.

Lemma rows_sub l' l : ledger_sub l' l → rows l' ⊆+ rows l.
Proof.
  intros (Hs & _). unfold rows. apply fmap_submseteq. by apply map_to_list_submseteq.
Qed.

Lemma rows_release_In e l r :
  r ∈ rows (ReleaseReservationsForExecution e l) ↔ r ∈ rows l ∧ res_ExecutionID r ≠ e.
Proof.
  rewrite !elem_of_rows. simpl. setoid_rewrite map_lookup_filter_Some. naive_solver.
Qed.

Lemma elem_of_in_window tenant cluster start end_ l r :
  r ∈ ReservationsInWindow tenant cluster start end_ l ↔
  r ∈ rows l ∧ res_TenantID r = tenant ∧ res_Cluster r = cluster ∧
  start < res_End r ∧ res_Start r < end_.
Proof.
  unfold ReservationsInWindow, ReservationsForTenant.
  rewrite !list_elem_of_filter, Overlaps_true. simpl. naive_solver.
Qed.
