(* ===== verification/Quota.v ===== *)
(** * Quota admission ([internal/app/quotaapp])

    The one place that decides whether a reservation fits a tenant's engine
    ceiling on a cluster.  The service is written against its two
    collaborators as the source is: a repository ([QuotaRepo], the Go interface
    [Repo]) and a [Stop] hook (the Go interface [Stopper]) that tears down the
    run of an execution that overran its window. *)
From S2P Require Import Prelude Errors Reservation.

(** ** Interfaces *)

(** What [quotaapp.Repo] reads and writes: the ledger and the open runs. *)
Class QuotaRepo (S : Type) := {
  q_ledger : S → Ledger;
  q_set_ledger : Ledger → S → S;
  q_current_run : Z → S → option Z
}.

Class QuotaRepoLaws (S : Type) `{!QuotaRepo S} := {
  q_ledger_set : ∀ l s, q_ledger (q_set_ledger l s) = l;
  q_run_set : ∀ e l s, q_current_run e (q_set_ledger l s) = q_current_run e s
}.

(** What a [Stopper] promises: it frees reservations and closes runs, never the
    converse, and a stop that succeeds leaves the execution no reservation. *)
Class StopperLaws {S : Type} `{!QuotaRepo S} (Stop : Z → M S error unit) := {
  stop_sub : ∀ e s, ledger_sub (q_ledger (Stop e s).2) (q_ledger s);
  stop_runs : ∀ e s e' x,
    q_current_run e' (Stop e s).2 = Some x → q_current_run e' s = Some x;
  stop_frees : ∀ e s s' r,
    Stop e s = (Ok tt, s') → r ∈ rows (q_ledger s') → res_ExecutionID r ≠ e
}.

(** [noopStopper]: nothing is wired to reclaim with. *)
Definition noopStopper {S : Type} (_ : Z) : M S error unit := throw ErrNoStopper.

#[global] Instance noopStopper_laws {S} `{!QuotaRepo S} :
  StopperLaws (S := S) noopStopper.
Proof. split; [reflexivity|done|done]. Qed.

(** ** The service *)
Section service.
Context {S : Type} `{!QuotaRepo S}.
(** The service's collaborators: its [Stopper] and its clock. *)
Context (Stop : Z → M S error unit) (now : time).

Definition effective_ceiling (tenantID : Z) (cluster : string) (l : Ledger) : Z :=
  let quota := GetQuota tenantID cluster l in
  if negb (Configured quota) then DefaultCeiling else Ceiling quota.

Definition is_overrun (s : S) (r : Reservation) : Prop :=
  res_End r < now ∧ is_Some (q_current_run (res_ExecutionID r) s).
#[global] Instance is_overrun_dec s r : Decision (is_overrun s r).
Proof. unfold is_overrun. apply _. Defined.

Definition overrunReservations (tenantID : Z) (cluster : string) (s : S) :
    list Reservation :=
  filter (is_overrun s) (ReservationsForTenant tenantID cluster (q_ledger s)).

(** The two loops share the accumulator [used]. *)
Definition usedCapacity (tenantID : Z) (cluster : string) (start end_ : time) (s : S) :
    Z * list Reservation :=
  let existing := ReservationsInWindow tenantID cluster start end_ (q_ledger s) in
  let overrun := overrunReservations tenantID cluster s in
  let add := fold_left (λ used r, used +w res_EngineCount r) in
  (add overrun (add existing 0), overrun).

Definition end_le (a b : Reservation) : Prop := res_End a <= res_End b.
#[global] Instance end_le_dec a b : Decision (end_le a b).
Proof. unfold end_le. apply _. Defined.

Fixpoint reclaim_loop (sorted : list Reservation) (freed needed : Z) : M S error Z :=
  match sorted with
  | [] => mret freed
  | r :: rest =>
      if needed <=? freed then mret freed
      else
        res ← attempt (Stop (res_ExecutionID r));
        match res with
        | Err ErrNoStopper => mret freed
        | Err e => throw e
        | Ok _ => reclaim_loop rest (freed +w res_EngineCount r) needed
        end
  end.

(** [sort.Slice] by declared end; ties are in no specified order. *)
Definition reclaimOverrun (overrun : list Reservation) (needed : Z) : M S error Z :=
  reclaim_loop (merge_sort end_le overrun) 0 needed.

(** The body runs under [WithTenantLock], so it is one atomic step. *)
Definition Reserve (tenantID : Z) (cluster : string) (engineCount : Z)
    (start end_ : time) (executionID : Z) : M S error Reservation :=
  let r := mkReservation 0 tenantID cluster engineCount start end_ executionID in
  _ ← lift (Validate r);
  ceiling ← gets (λ s, effective_ceiling tenantID cluster (q_ledger s));
  uo ← gets (usedCapacity tenantID cluster start end_);
  let '(used, overrun) := (uo : Z * list Reservation) in
  used ← (if (ceiling <? used +w engineCount) && negb (After start now) then
            freed ← reclaimOverrun overrun (used +w engineCount -w ceiling);
            mret (used -w freed)
          else mret used);
  if ceiling <? used +w engineCount then
    throw (OverQuotaError tenantID cluster engineCount used ceiling (ceiling =? 0))
  else
    id ← (λ s, let '(id, l) := CreateReservation r (q_ledger s) in
               (Ok id, q_set_ledger l s));
    mret (with_ID r id).

Definition Release (executionID : Z) : M S error unit :=
  modify (λ s, q_set_ledger (ReleaseReservationsForExecution executionID (q_ledger s)) s).

Definition ClusterCapacity (cluster : string) (s : S) : Z * Z :=
  fold_left (λ '(used, ceiling) q,
      (used +w (usedCapacity (tq_TenantID q) cluster now now s).1,
       ceiling +w tq_Ceiling q))
    (ListClusterQuotas cluster (q_ledger s)) (0, 0).
End service.

(** A relation between states that the stopper and a ledger write respect is
    respected by admission. *)
Section preserves.
Context {S : Type} `{!QuotaRepo S} (Stop : Z → M S error unit) (R : relation S) `{!PreOrder R}.
Context (Hset : ∀ r s, R s (q_set_ledger (CreateReservation r (q_ledger s)).2 s)).
Context (Hstop : ∀ e s, R s (Stop e s).2).

Lemma reclaim_loop_preserves l freed needed s : R s (reclaim_loop Stop l freed needed s).2.
Proof using PreOrder0 Hstop.
  revert freed s. induction l as [|r l IH]; intros freed s; simpl; [done|].
  destruct (needed <=? freed); [done|]. unfold mbind, M_bind, attempt.
  pose proof (Hstop (res_ExecutionID r) s) as Hf.
  destruct (Stop (res_ExecutionID r) s) as [[[]|e] s1]; simpl in *.
  - by etrans; [|apply IH].
  - by destruct e.
Qed.

Lemma Reserve_preserves now tenantID cluster engineCount start end_ executionID s :
  R s (Reserve Stop now tenantID cluster engineCount start end_ executionID s).2.
Proof using All.
  unfold Reserve, mbind, M_bind, lift, gets, throw, mret, M_ret, reclaimOverrun.
  destruct (Validate _); [|done]. destruct (usedCapacity _ _ _ _ _ _) as [used overrun].
  destruct (_ && _).
  - pose proof (reclaim_loop_preserves (merge_sort end_le overrun) 0
      (used +w engineCount -w effective_ceiling tenantID cluster (q_ledger s)) s) as Hr.
    destruct (reclaim_loop _ _ _ _ _) as [[freed|e] s1]; simpl in *; [|done].
    destruct (_ <? _); simpl; [done|]. etrans; [exact Hr|apply Hset].
  - simpl. destruct (_ <? _); simpl; [done|]. apply Hset.
Qed.

(** A successful admission ends by adding the request. *)
Lemma Reserve_creates now tenantID cluster engineCount start end_ executionID s r s' :
  let req := mkReservation 0 tenantID cluster engineCount start end_ executionID in
  Reserve Stop now tenantID cluster engineCount start end_ executionID s = (Ok r, s') →
  window_ok req ∧ ∃ s1, R s s1 ∧
    r = with_ID req (reservationSeq (q_ledger s1) + 1) ∧
    s' = q_set_ledger (CreateReservation req (q_ledger s1)).2 s1.
Proof using PreOrder0 Hstop.
  intros req. unfold Reserve, mbind, M_bind, lift, gets, throw, mret, M_ret, reclaimOverrun.
  fold req. destruct (Validate req) as [[]|] eqn:Hv; [|done]. apply Validate_ok in Hv.
  destruct (usedCapacity _ _ _ _ _ _) as [used overrun]. destruct (_ && _).
  - pose proof (reclaim_loop_preserves (merge_sort end_le overrun) 0
      (used +w engineCount -w effective_ceiling tenantID cluster (q_ledger s)) s) as Hr.
    destruct (reclaim_loop _ _ _ _ _) as [[freed|e] s1]; simpl in *; [|done].
    destruct (_ <? _); simpl; [done|]. intros [= <- <-]. split; [done|]. by exists s1.
  - simpl. destruct (_ <? _); simpl; [done|]. intros [= <- <-]. split; [done|]. by exists s.
Qed.
End preserves.

(** In particular, whatever they leave alone. *)
Lemma Reserve_frame {S X : Type} `{!QuotaRepo S} (Stop : Z → M S error unit) (f : S → X)
    (Hset : ∀ l s, f (q_set_ledger l s) = f s) (Hstop : ∀ e s, f (Stop e s).2 = f s)
    now tenantID cluster engineCount start end_ executionID s :
  f (Reserve Stop now tenantID cluster engineCount start end_ executionID s).2 = f s.
Proof.
  assert (PreOrder (λ s s', f s' = f s)).
  { split; [done|]. intros s1 s2 s3 ? ?. congruence. }
  apply (Reserve_preserves Stop (λ s s', f s' = f s)); [intros; apply Hset|done].
Qed.

(** ** Sums over the ledger *)
Definition ledger_total (l : Ledger) : Z := sumZ res_EngineCount (rows l).

(** The engine counts of the ledger and of one more request, each counted
    twice, stay inside Go's [int]. *)
Definition fits (l : Ledger) (engineCount : Z) : Prop :=
  2 * (ledger_total l + engineCount) <= int64_max.

Section ledger_facts.
Context (l : Ledger) (Hl : ledger_ok l).

Lemma row_count_nonneg r : r ∈ rows l → 0 <= res_EngineCount r.
Proof using Hl. intros [Hr _]%(ledger_ok_row _ _ Hl). lia. Qed.

Lemma rows_NoDup : NoDup (rows l).
Proof using Hl.
  unfold rows. apply NoDup_fmap_2_strong; [|apply NoDup_map_to_list].
  intros [i r] [j r'] Hi%elem_of_map_to_list Hj%elem_of_map_to_list. simpl. intros <-.
  destruct (Hl _ _ Hi) as (_ & <- & _). by destruct (Hl _ _ Hj) as (_ & <- & _).
Qed.

Lemma rows_sub_sum k : k ⊆+ rows l → 0 <= sumZ res_EngineCount k <= ledger_total l.
Proof using Hl.
  intros Hk. split; [|by apply sumZ_submseteq; [apply row_count_nonneg|]].
  apply sumZ_nonneg. intros r Hr. eapply row_count_nonneg, elem_of_submseteq; eauto.
Qed.

Lemma tenant_rows_sub tenant cluster : ReservationsForTenant tenant cluster l ⊆+ rows l.
Proof using. apply sublist_submseteq, sublist_filter. Qed.

Lemma window_rows_sub tenant cluster start end_ :
  ReservationsInWindow tenant cluster start end_ l ⊆+ rows l.
Proof using.
  etrans; [apply sublist_submseteq, sublist_filter|]. apply tenant_rows_sub.
Qed.
End ledger_facts.

Section facts.
Context {S : Type} `{!QuotaRepo S} `{!QuotaRepoLaws S}.
Context (Stop : Z → M S error unit) `{!StopperLaws Stop} (now : time).

Lemma elem_of_overrun tenant cluster s r :
  r ∈ overrunReservations now tenant cluster s ↔
  r ∈ rows (q_ledger s) ∧ res_TenantID r = tenant ∧ res_Cluster r = cluster ∧
  res_End r < now ∧ is_Some (q_current_run (res_ExecutionID r) s).
Proof.
  unfold overrunReservations, ReservationsForTenant, is_overrun.
  rewrite !list_elem_of_filter. naive_solver.
Qed.

Lemma overrun_rows_sub tenant cluster s :
  overrunReservations now tenant cluster s ⊆+ rows (q_ledger s).
Proof.
  etrans; [apply sublist_submseteq, sublist_filter|]. apply tenant_rows_sub.
Qed.

(** With no overflow the accumulator is the sum of the two lists. *)
Lemma usedCapacity_sum tenant cluster start end_ s :
  ledger_ok (q_ledger s) → 2 * ledger_total (q_ledger s) <= int64_max →
  (usedCapacity now tenant cluster start end_ s).1 =
  sumZ res_EngineCount (ReservationsInWindow tenant cluster start end_ (q_ledger s)) +
  sumZ res_EngineCount (overrunReservations now tenant cluster s).
Proof.
  intros Hok Hfit. unfold usedCapacity. simpl. rewrite <- fold_left_app.
  change (fold_left _ ?k 0) with (sum64 res_EngineCount k).
  rewrite sum64_small; rewrite sumZ_app; [done|].
  pose proof (rows_sub_sum _ Hok _ (window_rows_sub (q_ledger s) tenant cluster start end_)).
  pose proof (rows_sub_sum _ Hok _ (overrun_rows_sub tenant cluster s)).
  unfold in_int64, int64_min, int64_max in *. lia.
Qed.

Lemma usedCapacity_snd tenant cluster start end_ s :
  (usedCapacity now tenant cluster start end_ s).2 = overrunReservations now tenant cluster s.
Proof. done. Qed.

(** What a reclaim pass that returns has done: it stopped a prefix of the
    list, freed exactly its engines, and only shrank the ledger and the set
    of open runs. *)
Lemma reclaim_loop_ok l freed needed s fr s' :
  reclaim_loop Stop l freed needed s = (Ok fr, s') →
  ∃ stopped rest, l = stopped ++ rest ∧
    fr = fold_left (λ a r, a +w res_EngineCount r) stopped freed ∧
    ledger_sub (q_ledger s') (q_ledger s) ∧
    (∀ e x, q_current_run e s' = Some x → q_current_run e s = Some x) ∧
    (∀ r r', r ∈ stopped → r' ∈ rows (q_ledger s') → res_ExecutionID r' ≠ res_ExecutionID r).
Proof using All.
  revert freed s. induction l as [|r l IH]; intros freed s; simpl.
  { intros [= <- <-]. exists [], []. repeat split; [done..|set_solver]. }
  destruct (needed <=? freed).
  { intros [= <- <-]. exists [], (r :: l). repeat split; [done..|set_solver]. }
  unfold mbind, M_bind, attempt.
  destruct (Stop (res_ExecutionID r) s) as [[[]|e] s1] eqn:Hs.
  - intros (stopped & rest & -> & -> & Hsub & Hruns & Hgone)%IH.
    pose proof (stop_sub (res_ExecutionID r) s) as Hsub1. rewrite Hs in Hsub1.
    exists (r :: stopped), rest. repeat split; [by apply (transitivity Hsub Hsub1)..| |].
    + intros e x Hx%Hruns. apply (stop_runs (res_ExecutionID r)). by rewrite Hs.
    + intros r0 r' [->|Hin]%elem_of_cons Hr'; [|by eapply Hgone].
      eapply stop_frees; [exact Hs|]. eapply elem_of_submseteq; [exact Hr'|].
      by apply rows_sub.
  - pose proof (stop_sub (res_ExecutionID r) s) as Hsub1. rewrite Hs in Hsub1.
    destruct e; try done. intros [= <- <-].
    exists [], (r :: l). repeat split; [by apply Hsub1..| |set_solver].
    intros e x Hx. apply (stop_runs (res_ExecutionID r)). by rewrite Hs.
Qed.

(** Whatever a reclaim pass returns, it only shrank the ledger. *)
Lemma reclaim_loop_sub l freed needed s :
  ledger_sub (q_ledger (reclaim_loop Stop l freed needed s).2) (q_ledger s).
Proof using All.
  revert freed s. induction l as [|r l IH]; intros freed s; simpl; [reflexivity|].
  destruct (needed <=? freed); [reflexivity|].
  unfold mbind, M_bind, attempt.
  pose proof (stop_sub (res_ExecutionID r) s) as Hsub1.
  destruct (Stop (res_ExecutionID r) s) as [[[]|e] s1]; simpl in Hsub1.
  - by etrans; [apply IH|].
  - by destruct e.
Qed.

(** The capacity measured against a window only falls when the ledger and the
    set of open runs shrink, and falls by what was stopped. *)
Lemma window_sum_sub tenant cluster start end_ l' l :
  ledger_ok l → ledger_sub l' l →
  sumZ res_EngineCount (ReservationsInWindow tenant cluster start end_ l') <=
  sumZ res_EngineCount (ReservationsInWindow tenant cluster start end_ l).
Proof using.
  intros Hok Hsub. apply sumZ_submseteq.
  { intros r Hr. eapply row_count_nonneg, elem_of_submseteq; [done|done|].
    apply window_rows_sub. }
  apply NoDup_submseteq.
  { apply NoDup_filter, NoDup_filter, rows_NoDup. by eapply ledger_ok_sub. }
  intros r. rewrite !elem_of_in_window. intros (Hr & ?). split; [|done].
  eapply elem_of_submseteq; [done|]. by apply rows_sub.
Qed.

Lemma overrun_sum_stopped tenant cluster s s' stopped rest :
  ledger_ok (q_ledger s) → ledger_sub (q_ledger s') (q_ledger s) →
  (∀ e x, q_current_run e s' = Some x → q_current_run e s = Some x) →
  (∀ r r', r ∈ stopped → r' ∈ rows (q_ledger s') → res_ExecutionID r' ≠ res_ExecutionID r) →
  overrunReservations now tenant cluster s ≡ₚ stopped ++ rest →
  sumZ res_EngineCount (overrunReservations now tenant cluster s') <=
  sumZ res_EngineCount rest.
Proof using.
  intros Hok Hsub Hruns Hgone Hperm. apply sumZ_submseteq.
  { intros r Hr. eapply (row_count_nonneg _ Hok), elem_of_submseteq;
      [|apply (overrun_rows_sub tenant cluster s)].
    rewrite Hperm, elem_of_app. by right. }
  apply NoDup_submseteq.
  { apply NoDup_filter, NoDup_filter, rows_NoDup. by eapply ledger_ok_sub. }
  intros r Hr. pose proof Hr as (Hrow & ? & ? & ? & [x Hx])%elem_of_overrun.
  assert (r ∈ stopped ++ rest) as Hin.
  { rewrite <- Hperm. apply elem_of_overrun. repeat split; try done.
    - eapply elem_of_submseteq; [done|]. by apply rows_sub.
    - exists x. by apply Hruns. }
  apply elem_of_app in Hin as [Hst|?]; [|done].
  by destruct (Hgone r r Hst Hrow).
Qed.

Section reserve.
Context (tenant : Z) (cluster : string) (count : Z) (start end_ : time) (exec : Z).

Let request : Reservation := mkReservation 0 tenant cluster count start end_ exec.
Let window_sum (s : S) : Z :=
  sumZ res_EngineCount (ReservationsInWindow tenant cluster start end_ (q_ledger s)).
Let overrun_sum (s : S) : Z :=
  sumZ res_EngineCount (overrunReservations now tenant cluster s).

(** A successful reclaim leaves at most [used - freed] engines in use. *)
Lemma reclaim_capacity s needed freed s' :
  ledger_ok (q_ledger s) → 2 * ledger_total (q_ledger s) <= int64_max →
  reclaimOverrun Stop (overrunReservations now tenant cluster s) needed s = (Ok freed, s') →
  ledger_sub (q_ledger s') (q_ledger s) ∧ 0 <= freed <= overrun_sum s ∧
  window_sum s' + overrun_sum s' <= window_sum s + overrun_sum s - freed.
Proof using All.
  intros Hok Hfit. unfold reclaimOverrun.
  intros (stopped & rest & Hsplit & -> & Hsub & Hruns & Hgone)%reclaim_loop_ok.
  assert (overrunReservations now tenant cluster s ≡ₚ stopped ++ rest) as Hperm.
  { rewrite <- Hsplit. symmetry. apply merge_sort_Permutation. }
  assert (stopped ⊆+ rows (q_ledger s) ∧ rest ⊆+ rows (q_ledger s)) as [Hst Hre].
  { split; (etrans; [|apply (overrun_rows_sub tenant cluster s)]); rewrite Hperm;
      [apply submseteq_inserts_r|apply submseteq_inserts_l]; done. }
  pose proof (rows_sub_sum _ Hok _ Hst). pose proof (rows_sub_sum _ Hok _ Hre).
  change (fold_left _ stopped 0) with (sum64 res_EngineCount stopped).
  rewrite (sum64_small _ stopped)
    by (unfold in_int64, int64_min, int64_max in *; lia).
  pose proof (overrun_sum_stopped tenant cluster s s' stopped rest Hok Hsub Hruns Hgone Hperm).
  pose proof (window_sum_sub tenant cluster start end_ _ _ Hok Hsub).
  unfold overrun_sum, window_sum. rewrite Hperm, sumZ_app. repeat split; try apply Hsub; lia.
Qed.

(** What a successful admission did: from a state [s'] reached by stopping
    overrunning runs, with room for the request, it added the request. *)
Lemma Reserve_ok_inv s r s'' :
  ledger_ok (q_ledger s) → fits (q_ledger s) count →
  Reserve Stop now tenant cluster count start end_ exec s = (Ok r, s'') →
  window_ok request ∧
  ∃ s', ledger_sub (q_ledger s') (q_ledger s) ∧
    window_sum s' + overrun_sum s' + count <= effective_ceiling tenant cluster (q_ledger s) ∧
    r = with_ID request (reservationSeq (q_ledger s') + 1) ∧
    s'' = q_set_ledger (CreateReservation request (q_ledger s')).2 s'.
Proof using All.
  intros Hok Hfit. unfold fits in Hfit.
  unfold Reserve, mbind, M_bind, lift, gets, throw, mret, M_ret.
  destruct (Validate _) as [[]|] eqn:Hv; [|done]. apply Validate_ok in Hv.
  destruct Hv as [Hpos Hwin]. simpl in Hpos, Hwin.
  pose proof (usedCapacity_sum tenant cluster start end_ s Hok ltac:(lia)) as Hused.
  pose proof (usedCapacity_snd tenant cluster start end_ s) as Hover.
  fold (window_sum s) (overrun_sum s) in Hused.
  destruct (usedCapacity now tenant cluster start end_ s) as [used overrun].
  simpl in Hused, Hover. subst overrun.
  assert (0 <= window_sum s <= ledger_total (q_ledger s)).
  { apply rows_sub_sum; [done|apply window_rows_sub]. }
  assert (0 <= overrun_sum s <= ledger_total (q_ledger s)).
  { apply rows_sub_sum; [done|apply overrun_rows_sub]. }
  assert (∀ u, 0 <= u <= used → wrap64 (u + count) = u + count) as Hw.
  { intros. apply wrap64_small. unfold in_int64, int64_min, int64_max in *. lia. }
  intros Hrun. split; [by split|].
  destruct ((_ <? _) && _).
  - destruct (reclaimOverrun _ _ _ s) as [[freed|e] s'] eqn:Hre; [|done].
    destruct (reclaim_capacity _ _ _ _ Hok ltac:(lia) Hre) as (Hsub & ? & ?).
    rewrite (wrap64_small (used - freed)) in Hrun
      by (unfold in_int64, int64_min, int64_max in *; lia).
    rewrite Hw in Hrun by lia.
    destruct (Z.ltb_spec (effective_ceiling tenant cluster (q_ledger s)) (used - freed + count));
      simplify_eq/=.
    exists s'. repeat split; try done; [apply Hsub..|lia].
  - rewrite Hw in Hrun by lia.
    destruct (Z.ltb_spec (effective_ceiling tenant cluster (q_ledger s)) (used + count));
      simplify_eq/=.
    exists s. repeat split; try done; lia.
Qed.

(** Whatever admission returns, the only row it can add is the request. *)
Lemma Reserve_err_sub s e s'' :
  Reserve Stop now tenant cluster count start end_ exec s = (Err e, s'') →
  ledger_sub (q_ledger s'') (q_ledger s).
Proof using All.
  unfold Reserve, mbind, M_bind, lift, gets, throw, mret, M_ret.
  destruct (Validate _) as [[]|]; [|by intros [= _ <-]].
  destruct (usedCapacity now tenant cluster start end_ s) as [used overrun].
  destruct ((_ <? _) && _).
  - pose proof (reclaim_loop_sub (merge_sort end_le overrun) 0
      (used +w count -w effective_ceiling tenant cluster (q_ledger s)) s) as Hsub.
    unfold reclaimOverrun.
    destruct (reclaim_loop _ _ _ _ s) as [[freed|e'] s']; simpl in Hsub;
      [|by intros [= _ <-]].
    destruct (_ <? _); by intros [= ? <-].
  - destruct (_ <? _); by intros [= ? <-].
Qed.
End reserve.

Lemma tenant_rows_create tenant cluster r l :
  ledger_ok l → res_TenantID r = tenant → res_Cluster r = cluster →
  ReservationsForTenant tenant cluster (CreateReservation r l).2 ≡ₚ
  with_ID r (reservationSeq l + 1) :: ReservationsForTenant tenant cluster l.
Proof using.
  intros Hok Ht Hc. unfold ReservationsForTenant. rewrite rows_create by done.
  by rewrite filter_cons, decide_True.
Qed.

Lemma ReservationsForTenant_other tenant cluster r l :
  ledger_ok l → ¬ (res_TenantID r = tenant ∧ res_Cluster r = cluster) →
  ReservationsForTenant tenant cluster (CreateReservation r l).2 ≡ₚ
  ReservationsForTenant tenant cluster l.
Proof using.
  intros Hok Hne. unfold ReservationsForTenant. rewrite rows_create by done.
  by rewrite filter_cons, decide_False.
Qed.

Lemma window_sum_create tenant cluster count start end_ exec l :
  ledger_ok l → start < end_ →
  sumZ res_EngineCount (ReservationsInWindow tenant cluster start end_
    (CreateReservation (mkReservation 0 tenant cluster count start end_ exec) l).2) =
  count + sumZ res_EngineCount (ReservationsInWindow tenant cluster start end_ l).
Proof using.
  intros Hok Hw. unfold ReservationsInWindow. rewrite tenant_rows_create by done.
  rewrite filter_cons, decide_True; [done|]. by apply Overlaps_true.
Qed.

Lemma overrun_sum_create tenant cluster r s :
  ledger_ok (q_ledger s) → res_TenantID r = tenant → res_Cluster r = cluster →
  now <= res_End r →
  sumZ res_EngineCount (overrunReservations now tenant cluster
    (q_set_ledger (CreateReservation r (q_ledger s)).2 s)) =
  sumZ res_EngineCount (overrunReservations now tenant cluster s).
Proof using QuotaRepoLaws0.
  intros Hok Ht Hc Hend. unfold overrunReservations. rewrite q_ledger_set.
  rewrite tenant_rows_create, filter_cons, decide_False by (done || unfold is_overrun; simpl; lia).
  erewrite list_filter_iff; [done|].
  intros r'. unfold is_overrun. by rewrite q_run_set.
Qed.

Lemma effective_ceiling_sub tenant cluster l' l :
  ledger_sub l' l → effective_ceiling tenant cluster l' = effective_ceiling tenant cluster l.
Proof using. intros (_ & Hq & _). unfold effective_ceiling, GetQuota. by rewrite Hq. Qed.

Lemma ledger_total_sub l' l : ledger_ok l → ledger_sub l' l → ledger_total l' <= ledger_total l.
Proof using. intros Hok Hsub. by apply (rows_sub_sum l Hok), rows_sub. Qed.
End facts.

(** ** Guarantees *)
Section guarantees.
Context {S : Type} `{!QuotaRepo S} `{!QuotaRepoLaws S}.
Context (Stop : Z → M S error unit) `{!StopperLaws Stop} (now : time).

(** A reservation that is admitted fits: measured by the very sum
    admission uses (reservations overlapping the window, plus overrunning
    runs that still hold their engines), the capacity in use afterwards,
    the new reservation included, is at most the tenant's ceiling on the
    cluster. *)
Theorem reserve_within_ceiling tenant cluster count start end_ exec s r s' :
  ledger_ok (q_ledger s) → fits (q_ledger s) count → now <= end_ →
  Reserve Stop now tenant cluster count start end_ exec s = (Ok r, s') →
  (usedCapacity now tenant cluster start end_ s').1 <=
    effective_ceiling tenant cluster (q_ledger s') ∧
  effective_ceiling tenant cluster (q_ledger s') =
    effective_ceiling tenant cluster (q_ledger s) ∧
  r ∈ rows (q_ledger s').
Proof using All.
  intros Hok Hfit Hnow Hres.
  destruct (Reserve_ok_inv Stop now _ _ _ _ _ _ _ _ _ Hok Hfit Hres)
    as (Hw & s1 & Hsub & Hcap & -> & ->). clear Hres.
  set (req := mkReservation 0 tenant cluster count start end_ exec) in *.
  pose proof (ledger_ok_sub _ _ Hsub Hok) as Hok1.
  pose proof (ledger_ok_create _ req Hok1 Hw) as Hok2.
  pose proof (ledger_total_sub _ _ Hok Hsub) as Htot. unfold fits in Hfit.
  destruct Hw as [Hpos Hwin]. simpl in Hpos, Hwin.
  assert (sumZ res_EngineCount (rows (CreateReservation req (q_ledger s1)).2) =
          count + ledger_total (q_ledger s1)) as Hnew.
  { by rewrite rows_create. }
  assert (effective_ceiling tenant cluster (CreateReservation req (q_ledger s1)).2 =
          effective_ceiling tenant cluster (q_ledger s)) as Hceil
    by apply (effective_ceiling_sub tenant cluster _ _ Hsub).
  rewrite !q_ledger_set, Hceil. split; [|split; [done|]].
  - rewrite usedCapacity_sum; rewrite ?q_ledger_set; try done;
      [|unfold ledger_total; rewrite Hnew; lia].
    rewrite overrun_sum_create by done. unfold req. rewrite window_sum_create by done. lia.
  - rewrite rows_create by done. by left.
Qed.

(** The engines committed to a tenant on a cluster at instant [t]. *)
Definition committed (l : Ledger) (tenant : Z) (cluster : string) (t : time) : Z :=
  sumZ res_EngineCount
    (filter (λ r, covers r t) (ReservationsForTenant tenant cluster l)).

(** At no instant is more committed than the ceiling allows. *)
Definition within_quota (l : Ledger) : Prop :=
  ledger_ok l ∧ ∀ tenant cluster t,
    committed l tenant cluster t <= effective_ceiling tenant cluster l.

(** One step of the ledger's history: an admission attempt, a release, a
    deletion, or any other event (a run starting or ending) that does not
    touch the ledger. *)
Inductive ledger_step : S → S → Prop :=
| step_reserve tenant cluster count start end_ exec s :
    fits (q_ledger s) count →
    ledger_step s (Reserve Stop now tenant cluster count start end_ exec s).2
| step_release exec s : ledger_step s (Release exec s).2
| step_delete id s :
    ledger_step s (q_set_ledger (DeleteReservation id (q_ledger s)).2 s)
| step_other s s' : q_ledger s' = q_ledger s → ledger_step s s'.

Lemma within_quota_sub l' l : ledger_sub l' l → within_quota l → within_quota l'.
Proof using.
  intros Hsub [Hok Hq]. split; [by eapply ledger_ok_sub|]. intros tenant cluster t.
  rewrite (effective_ceiling_sub _ _ _ _ Hsub). etrans; [|apply Hq].
  apply sumZ_submseteq.
  { intros r [_ [_ Hr]%list_elem_of_filter]%list_elem_of_filter.
    by eapply row_count_nonneg. }
  apply NoDup_submseteq.
  { apply NoDup_filter, NoDup_filter, rows_NoDup. by eapply ledger_ok_sub. }
  unfold ReservationsForTenant. intros r. rewrite !list_elem_of_filter.
  intros (? & ? & Hr). split; [done|]. split; [done|].
  eapply elem_of_submseteq; [done|]. by apply rows_sub.
Qed.

(** An instant of the new window is covered only by reservations that overlap
    it, all of which admission counted. *)
Lemma committed_le_window tenant cluster start end_ t l :
  ledger_ok l → start <= t < end_ →
  committed l tenant cluster t <=
  sumZ res_EngineCount (ReservationsInWindow tenant cluster start end_ l).
Proof using.
  intros Hok Ht. apply sumZ_filter_mono.
  - intros r [_ Hr]%list_elem_of_filter. by eapply row_count_nonneg.
  - unfold covers. intros r _ Hr. apply Overlaps_true. simpl. lia.
Qed.

Lemma within_quota_create tenant cluster count start end_ exec s :
  let req := mkReservation 0 tenant cluster count start end_ exec in
  within_quota (q_ledger s) → window_ok req →
  sumZ res_EngineCount (ReservationsInWindow tenant cluster start end_ (q_ledger s)) + count
    <= effective_ceiling tenant cluster (q_ledger s) →
  within_quota (CreateReservation req (q_ledger s)).2.
Proof using.
  intros req [Hok Hq] Hw Hcap. split; [by apply ledger_ok_create|].
  intros tenant' cluster' t.
  assert (effective_ceiling tenant' cluster' (CreateReservation req (q_ledger s)).2 =
          effective_ceiling tenant' cluster' (q_ledger s)) as -> by done.
  unfold committed.
  destruct (decide (res_TenantID req = tenant' ∧ res_Cluster req = cluster')) as [[<- <-]|Hne].
  - rewrite tenant_rows_create by done. rewrite filter_cons.
    pose proof (Hq tenant cluster t) as Hqt. unfold committed in Hqt.
    destruct (decide (covers _ t)) as [Hc|_]; [|done]. simpl.
    pose proof (committed_le_window tenant cluster start end_ t (q_ledger s) Hok Hc) as Hle.
    unfold committed in Hle. lia.
  - rewrite ReservationsForTenant_other by done. apply Hq.
Qed.

(** Admission keeps the quota, and adds at most what was requested. *)
Lemma Reserve_within tenant cluster count start end_ exec s :
  let s' := (Reserve Stop now tenant cluster count start end_ exec s).2 in
  fits (q_ledger s) count → within_quota (q_ledger s) →
  within_quota (q_ledger s') ∧
  ledger_total (q_ledger s') <= ledger_total (q_ledger s) + Z.max 0 count.
Proof using All.
  intros s' Hfit Hq. unfold s'.
  destruct (Reserve Stop now tenant cluster count start end_ exec s) as [[r|e] s1] eqn:Hr.
  - destruct (Reserve_ok_inv Stop now _ _ _ _ _ _ _ _ _ (proj1 Hq) Hfit Hr)
      as (Hw & s2 & Hsub & Hcap & -> & ->). cbn [fst snd]. rewrite q_ledger_set.
    pose proof (within_quota_sub _ _ Hsub Hq) as Hq2. split.
    + apply within_quota_create; [done|done|].
      rewrite (effective_ceiling_sub _ _ _ _ Hsub).
      enough (0 <= sumZ res_EngineCount (overrunReservations now tenant cluster s2)) by lia.
      apply (rows_sub_sum _ (proj1 Hq2)), overrun_rows_sub.
    + unfold ledger_total at 1. rewrite rows_create by apply Hq2. simpl.
      pose proof (ledger_total_sub _ _ (proj1 Hq) Hsub). unfold ledger_total in *. lia.
  - simpl. pose proof (Reserve_err_sub Stop now _ _ _ _ _ _ _ _ _ Hr) as Hsub.
    split; [by eapply within_quota_sub|].
    pose proof (ledger_total_sub _ _ (proj1 Hq) Hsub). lia.
Qed.

Lemma ledger_step_within s s' :
  ledger_step s s' → within_quota (q_ledger s) → within_quota (q_ledger s').
Proof using All.
  intros [tenant cluster count start end_ exec s0 Hfit|exec s0|id s0|s0 s1 Heq] Hq.
  - by apply Reserve_within.
  - simpl. rewrite q_ledger_set. by eapply within_quota_sub; [apply ledger_sub_release|].
  - rewrite q_ledger_set. by eapply within_quota_sub; [apply ledger_sub_delete|].
  - by rewrite Heq.
Qed.

(** Quota is a guarantee: along every history of admissions, releases,
    deletions and run events, no instant, past or future, ever has more
    engines committed to a tenant on a cluster than its ceiling. *)
Theorem ledger_never_oversubscribed s s' tenant cluster t :
  within_quota (q_ledger s) → rtc ledger_step s s' →
  committed (q_ledger s') tenant cluster t <=
  effective_ceiling tenant cluster (q_ledger s').
Proof using All.
  intros Hq Hsteps. cut (within_quota (q_ledger s')); [intros [_ H]; apply H|].
  induction Hsteps; eauto using ledger_step_within.
Qed.

(** Admission is complete: a valid request that fits beside the capacity
    in use is admitted without stopping anything, under a fresh id, and
    nothing else in the ledger changes. *)
Theorem reserve_admits_what_fits tenant cluster count start end_ exec s :
  0 < count → start < end_ →
  ledger_ok (q_ledger s) → fits (q_ledger s) count →
  (usedCapacity now tenant cluster start end_ s).1 + count <=
    effective_ceiling tenant cluster (q_ledger s) →
  let req := mkReservation 0 tenant cluster count start end_ exec in
  let id := reservationSeq (q_ledger s) + 1 in
  Reserve Stop now tenant cluster count start end_ exec s =
    (Ok (with_ID req id), q_set_ledger (CreateReservation req (q_ledger s)).2 s) ∧
  reservations (q_ledger s) !! id = None.
Proof using.
  intros Hpos Hwin Hok Hfit Hle req id. split; [|by apply ledger_fresh].
  pose proof (usedCapacity_sum now tenant cluster start end_ s Hok
    ltac:(unfold fits in Hfit; lia)) as Hu.
  pose proof (rows_sub_sum _ Hok _ (window_rows_sub _ tenant cluster start end_)).
  pose proof (rows_sub_sum _ Hok _ (overrun_rows_sub now tenant cluster s)).
  unfold Reserve, mbind, M_bind, lift, gets, throw, mret, M_ret.
  fold req. rewrite (proj2 (Validate_ok req)) by done.
  destruct (usedCapacity now tenant cluster start end_ s) as [used overrun].
  cbn [fst] in Hu, Hle. unfold fits in Hfit.
  rewrite (wrap64_small (used + count)) by (unfold in_int64, int64_min, int64_max in *; lia).
  rewrite (proj2 (Z.ltb_ge _ _) Hle). cbn [andb].
  rewrite (wrap64_small (used + count)) by (unfold in_int64, int64_min, int64_max in *; lia).
  by rewrite (proj2 (Z.ltb_ge _ _) Hle).
Qed.

(** A future booking that does not fit is refused with the numbers the
    decision was made on, stops nothing and leaves the state as it was; the
    error says the ceiling is zero only when an administrator configured it
    so. *)
Theorem reserve_refuses_future_booking tenant cluster count start end_ exec s :
  0 < count → start < end_ → now < start →
  ledger_ok (q_ledger s) → fits (q_ledger s) count →
  let used := (usedCapacity now tenant cluster start end_ s).1 in
  let ceiling := effective_ceiling tenant cluster (q_ledger s) in
  ceiling < used + count →
  Reserve Stop now tenant cluster count start end_ exec s =
    (Err (OverQuotaError tenant cluster count used ceiling (ceiling =? 0)), s) ∧
  (ceiling = 0 → Configured (GetQuota tenant cluster (q_ledger s)) = true).
Proof using.
  intros Hpos Hwin Hfut Hok Hfit used ceiling Hlt. split.
  - pose proof (usedCapacity_sum now tenant cluster start end_ s Hok
      ltac:(unfold fits in Hfit; lia)) as Hu.
    pose proof (rows_sub_sum _ Hok _ (window_rows_sub _ tenant cluster start end_)).
    pose proof (rows_sub_sum _ Hok _ (overrun_rows_sub now tenant cluster s)).
    unfold Reserve, mbind, M_bind, lift, gets, throw, mret, M_ret.
    rewrite (proj2 (Validate_ok (mkReservation 0 tenant cluster count start end_ exec))) by done.
    unfold used, ceiling in *.
    destruct (usedCapacity now tenant cluster start end_ s) as [u overrun].
    cbn [fst] in *. unfold fits in Hfit.
    unfold After. rewrite (bool_decide_eq_true_2 (now < start)) by done.
    rewrite andb_false_r.
    rewrite (wrap64_small (u + count)) by (unfold in_int64, int64_min, int64_max in *; lia).
    by rewrite (proj2 (Z.ltb_lt _ _) Hlt).
  - unfold ceiling, effective_ceiling. by destruct (Configured _).
Qed.

(** A reservation is counted twice against a request, once by its window
    and once as an overrun, exactly when its run is still open and its end
    lies after the requested start but before the clock.  So the two counts
    are disjoint when the request starts now or later, and not otherwise. *)
Theorem counted_twice_iff tenant cluster start end_ s r :
  (r ∈ ReservationsInWindow tenant cluster start end_ (q_ledger s) ∧
   r ∈ overrunReservations now tenant cluster s) ↔
  r ∈ rows (q_ledger s) ∧ res_TenantID r = tenant ∧ res_Cluster r = cluster ∧
  is_Some (q_current_run (res_ExecutionID r) s) ∧
  start < res_End r < now ∧ res_Start r < end_.
Proof using. rewrite elem_of_in_window, elem_of_overrun. naive_solver. Qed.
End guarantees.

(** ** Witnesses

    The two tables admission reads, with a stop that releases the execution's
    reservations and closes its run. *)
Section witnesses.
#[local] Instance tables_repo : QuotaRepo (Ledger * gmap Z Z) := {|
  q_ledger := fst;
  q_set_ledger := λ l s, (l, s.2);
  q_current_run := λ e s, s.2 !! e
|}.
#[local] Instance tables_laws : QuotaRepoLaws (Ledger * gmap Z Z).
Proof. by split. Qed.

Definition tables_Stop (e : Z) : M (Ledger * gmap Z Z) error unit :=
  modify (λ s, (ReleaseReservationsForExecution e s.1, delete e s.2)).

#[local] Instance tables_stop_laws : StopperLaws tables_Stop.
Proof.
  split.
  - intros e s. apply ledger_sub_release.
  - intros e s e' x. simpl. by intros [_ ?]%lookup_delete_Some.
  - intros e s s' r [= <-] Hr. by apply rows_release_In in Hr as [_ ?].
Qed.

(** Tenant 5 has 4 of 10 engines on cluster eu, held by an overrunning run. *)
Definition tables : Ledger * gmap Z Z :=
  (mkLedger 1 {[ 1 := mkReservation 1 5 "eu" 4 0 95 7 ]} ∅, {[ 7 := 70 ]}).

Lemma tables_ok : ledger_ok (q_ledger tables).
Proof.
  intros id r. simpl. rewrite lookup_singleton_Some. intros [<- <-].
  by repeat split.
Qed.

Lemma tables_within : within_quota (q_ledger tables).
Proof.
  split; [apply tables_ok|]. intros tenant cluster t. unfold committed.
  unfold effective_ceiling, GetQuota. simpl.
  transitivity (sumZ res_EngineCount (rows (q_ledger tables))); [|vm_compute; discriminate].
  unfold ReservationsForTenant. etrans.
  - apply sumZ_filter_le. intros r [_ Hr]%list_elem_of_filter.
    eapply row_count_nonneg; [apply tables_ok|done].
  - apply sumZ_filter_le. intros r Hr. eapply row_count_nonneg; [apply tables_ok|done].
Qed.

(** Eight engines do not fit beside the overrunning four; it is stopped. *)
Lemma reserve_within_ceiling_witness :
  ∃ r s', Reserve tables_Stop 100 5 "eu" 8 100 200 9 tables = (Ok r, s') ∧
    (usedCapacity 100 5 "eu" 100 200 s').1 <= 10.
Proof.
  do 2 eexists. split; [vm_compute; reflexivity|].
  refine (proj1 (reserve_within_ceiling tables_Stop 100 5 "eu" 8 100 200 9 tables _ _
    tables_ok _ _ _)); vm_compute; first [discriminate|reflexivity].
Defined.

Lemma ledger_never_oversubscribed_witness :
  ∃ s', rtc (ledger_step tables_Stop 100) tables s' ∧
    committed (q_ledger s') 5 "eu" 150 <= effective_ceiling 5 "eu" (q_ledger s').
Proof.
  eexists. assert (rtc (ledger_step tables_Stop 100) tables
    (Reserve tables_Stop 100 5 "eu" 8 100 200 9 tables).2) as Hsteps.
  { eapply rtc_once, step_reserve. vm_compute. discriminate. }
  split; [exact Hsteps|].
  exact (ledger_never_oversubscribed tables_Stop 100 tables _ 5 "eu" 150 tables_within Hsteps).
Defined.

Lemma reserve_admits_what_fits_witness :
  Reserve tables_Stop 100 5 "eu" 6 100 200 9 tables =
    (Ok (mkReservation 2 5 "eu" 6 100 200 9),
     q_set_ledger (CreateReservation (mkReservation 0 5 "eu" 6 100 200 9) tables.1).2 tables).
Proof.
  refine (proj1 (reserve_admits_what_fits tables_Stop 100 5 "eu" 6 100 200 9 tables
    _ _ tables_ok _ _)); vm_compute; first [discriminate|reflexivity].
Defined.

Lemma reserve_refuses_future_booking_witness :
  Reserve tables_Stop 100 5 "eu" 7 150 200 9 tables =
    (Err (OverQuotaError 5 "eu" 7 4 10 false), tables).
Proof.
  refine (proj1 (reserve_refuses_future_booking tables_Stop 100 5 "eu" 7 150 200 9 tables
    _ _ _ tables_ok _ _)); vm_compute; first [discriminate|reflexivity].
Defined.

(** A request from instant 90 finds the four engines counted twice, and is
    refused although four and six fit the ceiling of ten. *)
Lemma counted_twice_refuses :
  (usedCapacity 100 5 "eu" 90 200 tables).1 = 8 ∧
  (Reserve noopStopper 100 5 "eu" 6 90 200 9 tables).1 =
    Err (OverQuotaError 5 "eu" 6 8 10 false).
Proof. split; vm_compute; reflexivity. Qed.
End witnesses.
