(* ===== verification/Campaign.v ===== *)
(** * Campaigns ([internal/domain/campaign])

    A readiness event: its window, its participating services, whether it is in
    force, and the comparison of two campaigns' signals.  [CampaignTable] is
    the campaign table of the in-memory repository,
    [internal/ports/fake/campaign_repository.go]. *)
From S2P Require Import Prelude Errors.

Record Window := mkWindow { win_Start : time; win_End : time }.
Record Service := mkService { svc_ProjectID : Z; svc_ExecutionID : Z }.
Record Campaign := mkCampaign {
  camp_ID : Z;
  camp_Name : string;
  camp_TenantID : Z;
  camp_Window : Window;
  camp_Services : list Service;
  camp_AbortedAt : option time
}.

(** The loop over services, with the set of projects it has seen. *)
Fixpoint validate_services (seen : gset Z) (l : list Service) : result error unit :=
  match l with
  | [] => Ok tt
  | svc :: l' =>
      if svc_ProjectID svc <=? 0 then Err ErrCampProjectRequired
      else if svc_ExecutionID svc <=? 0 then Err ErrServiceExecutionInvalid
      else if bool_decide (svc_ProjectID svc ∈ seen) then Err ErrDuplicateService
      else validate_services ({[svc_ProjectID svc]} ∪ seen) l'
  end.

Definition Campaign_Validate (c : Campaign) : result error unit :=
  if bool_decide (camp_Name c = "") then Err ErrCampNameRequired
  else if negb (After (win_End (camp_Window c)) (win_Start (camp_Window c)))
    then Err ErrCampWindowInvalid
  else match camp_Services c with
       | [] => Err ErrServicesRequired
       | _ => validate_services ∅ (camp_Services c)
       end.

Definition IsActive (c : Campaign) (now : time) : bool :=
  match camp_AbortedAt c with
  | Some _ => false
  | None =>
      negb (Before now (win_Start (camp_Window c))) && Before now (win_End (camp_Window c))
  end.

Fixpoint designated (projectID : Z) (l : list Service) : option Z :=
  match l with
  | [] => None
  | svc :: l' =>
      if svc_ProjectID svc =? projectID then Some (svc_ExecutionID svc)
      else designated projectID l'
  end.

Definition DesignatedExecution (c : Campaign) (projectID : Z) : option Z :=
  designated projectID (camp_Services c).

(** ** Comparison of two campaigns ([compare.go]) *)
Record ServiceSignal := mkSignal { sig_ProjectID : Z; sig_Go : bool }.

Inductive ComparisonStatus :=
| ComparisonImproved | ComparisonRegressed | ComparisonNewlyAtRisk
| ComparisonStillAtRisk | ComparisonSteady | ComparisonNew | ComparisonDropped.

Record ServiceComparison := mkComparison {
  cmp_ProjectID : Z;
  cmp_Status : ComparisonStatus;
  cmp_HasCurrent : bool;
  cmp_Go : bool;
  cmp_HasBaseline : bool;
  cmp_BaselineGo : bool
}.

Definition classify (hasCurr currGo hasBase baseGo : bool) : ComparisonStatus :=
  if negb hasCurr then ComparisonDropped
  else if negb hasBase then (if currGo then ComparisonNew else ComparisonNewlyAtRisk)
  else if currGo && negb baseGo then ComparisonImproved
  else if negb currGo && baseGo then ComparisonRegressed
  else if negb currGo && negb baseGo then ComparisonStillAtRisk
  else ComparisonSteady.

(** [curr[s.ProjectID] = s.Go] in list order: the last signal wins. *)
Definition signal_map (l : list ServiceSignal) : gmap Z bool :=
  fold_left (λ m s, <[sig_ProjectID s := sig_Go s]> m) l ∅.

Definition has (m : gmap Z bool) (id : Z) : bool := bool_decide (is_Some (m !! id)).
Definition go_of (m : gmap Z bool) (id : Z) : bool := default false (m !! id).

Definition compare_one (curr base : gmap Z bool) (id : Z) : ServiceComparison :=
  mkComparison id (classify (has curr id) (go_of curr id) (has base id) (go_of base id))
    (has curr id) (go_of curr id) (has base id) (go_of base id).

Definition Compare (current baseline : list ServiceSignal) : list ServiceComparison :=
  let curr := signal_map current in
  let base := signal_map baseline in
  let ids : gset Z := dom curr ∪ dom base in
  let sorted := merge_sort (≤) (elements ids) in
  compare_one curr base <$> sorted.

(** ** The campaign table *)
Record CampaignTable := mkCampaignTable {
  campaignSeq : Z;
  campaigns : gmap Z Campaign
}.

Definition camp_with_ID (c : Campaign) (id : Z) : Campaign :=
  mkCampaign id (camp_Name c) (camp_TenantID c) (camp_Window c) (camp_Services c)
    (camp_AbortedAt c).

Definition CreateCampaign (c : Campaign) (t : CampaignTable) : Z * CampaignTable :=
  let id := campaignSeq t + 1 in
  (id, mkCampaignTable id (<[id := camp_with_ID c id]> (campaigns t))).

Definition GetCampaign (id : Z) (t : CampaignTable) : result error Campaign :=
  match campaigns t !! id with Some c => Ok c | None => Err ErrNotFound end.

Definition all_campaigns (t : CampaignTable) : list Campaign := (map_to_list (campaigns t)).*2.

Definition camp_start_le (a b : Campaign) : Prop :=
  win_Start (camp_Window a) <= win_Start (camp_Window b).
#[global] Instance camp_start_le_dec a b : Decision (camp_start_le a b).
Proof. unfold camp_start_le. apply _. Defined.

Definition ListCampaignsByTenant (tenantID : Z) (t : CampaignTable) : list Campaign :=
  merge_sort camp_start_le (filter (λ c, camp_TenantID c = tenantID) (all_campaigns t)).

Definition ListAllCampaigns (t : CampaignTable) : list Campaign :=
  merge_sort camp_start_le (all_campaigns t).

Definition ListCampaignsByTenants (tenantIDs : list Z) (t : CampaignTable) : list Campaign :=
  merge_sort camp_start_le (filter (λ c, camp_TenantID c ∈ tenantIDs) (all_campaigns t)).

(** In map order: no order is specified. *)
Definition ListActiveCampaigns (now : time) (t : CampaignTable) : list Campaign :=
  filter (λ c, IsActive c now = true) (all_campaigns t).

Definition AbortCampaign (id : Z) (at_ : time) (t : CampaignTable) :
    result error unit * CampaignTable :=
  match campaigns t !! id with
  | None => (Err ErrNotFound, t)
  | Some c =>
      (Ok tt, mkCampaignTable (campaignSeq t)
        (<[id := mkCampaign (camp_ID c) (camp_Name c) (camp_TenantID c) (camp_Window c)
                   (camp_Services c) (Some at_)]> (campaigns t)))
  end.

Definition UpdateCampaign (c : Campaign) (t : CampaignTable) :
    result error unit * CampaignTable :=
  match campaigns t !! camp_ID c with
  | None => (Err ErrNotFound, t)
  | Some existing =>
      (Ok tt, mkCampaignTable (campaignSeq t)
        (<[camp_ID c := mkCampaign (camp_ID existing) (camp_Name c) (camp_TenantID existing)
                   (camp_Window c) (camp_Services c) (camp_AbortedAt existing)]> (campaigns t)))
  end.

(** ** Validation *)
Definition services_ok (l : list Service) : Prop :=
  Forall (λ svc, 0 < svc_ProjectID svc ∧ 0 < svc_ExecutionID svc) l ∧
  NoDup (svc_ProjectID <$> l).

Lemma validate_services_ok seen l :
  validate_services seen l = Ok tt ↔
  services_ok l ∧ (∀ svc, svc ∈ l → svc_ProjectID svc ∉ seen).
Proof.
  unfold services_ok. revert seen. induction l as [|svc l IH]; intros seen; csimpl.
  { split; [|done]. intros _. split; [split; constructor|]. by intros ? ?%elem_of_nil. }
  rewrite Forall_cons, NoDup_cons.
  destruct (Z.leb_spec (svc_ProjectID svc) 0); [split; [done|intros [[[? _] _] _]; lia]|].
  destruct (Z.leb_spec (svc_ExecutionID svc) 0); [split; [done|intros [[[? _] _] _]; lia]|].
  destruct (bool_decide_reflect (svc_ProjectID svc ∈ seen)).
  - split; [done|]. intros [_ H']. by destruct (H' svc ltac:(left)).
  - rewrite IH, list_elem_of_fmap. split.
    + intros [[Hf Hnd] Hs]. repeat split; try done; try lia.
      * intros (svc' & Heq & Hin). apply (Hs svc' Hin). rewrite Heq. set_solver.
      * intros svc' [->|Hin]%elem_of_cons; [done|]. pose proof (Hs _ Hin). set_solver.
    + intros [[[_ Hf] [Hni Hnd]] Hs]. split; [done|]. intros svc' Hin.
      assert (svc_ProjectID svc' ∉ seen) by (apply Hs; by right).
      assert (svc_ProjectID svc' ≠ svc_ProjectID svc) by (intros Heq; apply Hni; eauto).
      set_solver.
Qed.

Lemma Campaign_Validate_ok c :
  Campaign_Validate c = Ok tt ↔
  camp_Name c ≠ "" ∧ win_Start (camp_Window c) < win_End (camp_Window c) ∧
  camp_Services c ≠ [] ∧ services_ok (camp_Services c).
Proof.
  unfold Campaign_Validate, After.
  destruct (bool_decide_reflect (camp_Name c = "")); [naive_solver|].
  destruct (bool_decide_reflect (win_Start (camp_Window c) < win_End (camp_Window c)));
    simpl; [|naive_solver].
  destruct (camp_Services c) as [|svc svcs]; [naive_solver|].
  rewrite validate_services_ok. set_solver.
Qed.

Lemma designated_Some p l e :
  designated p l = Some e → mkService p e ∈ l.
Proof.
  induction l as [|[p' e'] l IH]; simpl; [done|].
  destruct (Z.eqb_spec p' p) as [->|]; [intros [= ->]; by left|]. right. auto.
Qed.

Lemma designated_None p l : designated p l = None ↔ p ∉ svc_ProjectID <$> l.
Proof.
  induction l as [|[p' e'] l IH]; csimpl; [set_solver|].
  destruct (Z.eqb_spec p' p) as [->|]; rewrite ?IH; set_solver.
Qed.

(** ** Comparison *)
Lemma signal_map_dom l id : id ∈ dom (signal_map l) ↔ id ∈ sig_ProjectID <$> l.
Proof.
  unfold signal_map. enough (∀ m : gmap Z bool, id ∈ dom (fold_left (λ m s,
      <[sig_ProjectID s := sig_Go s]> m) l m) ↔ id ∈ dom m ∨ id ∈ sig_ProjectID <$> l) as H.
  { rewrite H. set_solver. }
  induction l as [|s l IH]; intros m; csimpl; [set_solver|]. rewrite IH. set_solver.
Qed.

Lemma Compare_ids current baseline :
  cmp_ProjectID <$> Compare current baseline =
  merge_sort (≤) (elements (dom (signal_map current) ∪ dom (signal_map baseline))).
Proof. unfold Compare. rewrite <- list_fmap_compose. apply list_fmap_id. Qed.

Lemma Compare_sorted current baseline :
  StronglySorted (<) (cmp_ProjectID <$> Compare current baseline).
Proof.
  rewrite Compare_ids. set (ids := dom _ ∪ dom _).
  assert (StronglySorted (≤) (merge_sort (≤) (elements ids))) as Hs
    by (apply StronglySorted_merge_sort; apply _).
  assert (NoDup (merge_sort (≤) (elements ids))) as Hnd
    by (rewrite merge_sort_Permutation; apply NoDup_elements).
  induction Hs as [|x l Hs IH Hx]; constructor.
  - apply IH. by apply NoDup_cons in Hnd as [_ ?].
  - apply NoDup_cons in Hnd as [Hni _]. rewrite Forall_forall in Hx |- *.
    intros y Hy. specialize (Hx y Hy). destruct (decide (x = y)) as [->|]; [done|lia].
Qed.

(** Comparing two campaigns yields one line per project of either, in
    strictly increasing project order, and the line says dropped, new, newly
    at risk, improved, regressed, still at risk or steady according to the
    last signal of that project in each. *)
Theorem compare_classifies current baseline :
  StronglySorted (<) (cmp_ProjectID <$> Compare current baseline) ∧
  (∀ id, id ∈ cmp_ProjectID <$> Compare current baseline ↔
         id ∈ sig_ProjectID <$> current ∨ id ∈ sig_ProjectID <$> baseline) ∧
  (∀ c, c ∈ Compare current baseline →
     cmp_Status c =
       match signal_map current !! cmp_ProjectID c, signal_map baseline !! cmp_ProjectID c with
       | None, _ => ComparisonDropped
       | Some true, None => ComparisonNew
       | Some false, None => ComparisonNewlyAtRisk
       | Some true, Some false => ComparisonImproved
       | Some false, Some true => ComparisonRegressed
       | Some false, Some false => ComparisonStillAtRisk
       | Some true, Some true => ComparisonSteady
       end).
Proof.
  split; [apply Compare_sorted|]. split.
  - intros id. rewrite Compare_ids, merge_sort_Permutation, elem_of_elements, elem_of_union.
    by rewrite !signal_map_dom.
  - unfold Compare. intros c (id & -> & _)%list_elem_of_fmap. simpl. unfold has, go_of.
    destruct (signal_map current !! id) as [[]|], (signal_map baseline !! id) as [[]|]; done.
Qed.
