(* ===== verification/RunTable.v ===== *)
(** * Run state ([internal/ports/fake/run_repository.go], [orphan_repository.go])

    The run tables of the in-memory repository: the open run of each execution,
    the run history, the scenarios marked running, and the orphaned shard
    completions.  [now] is the store's clock. *)
From S2P Require Import Prelude Errors.

Record RunRecord := mkRunRecord {
  rr_RunID : Z;
  rr_ExecutionID : Z;
  rr_StartedTime : time;
  rr_EndTime : option time;
  rr_CorrelationID : string
}.

Record OpenRun := mkOpenRun { or_ExecutionID : Z; or_RunID : Z; or_StartedTime : time }.
Record RunningScenario := mkRunningScenario {
  rs_ExecutionID : Z; rs_ScenarioID : Z; rs_StartedTime : time
}.
Record OrphanCompletion := mkOrphan {
  oc_ExecutionID : Z;
  oc_ScenarioID : Z;
  oc_ShardIndex : Z;
  oc_ExitCode : option Z;
  oc_FinishedAt : time
}.

Record RunTables := mkRunTables {
  runSeq : Z;
  currentRun : gmap Z Z;
  runHistory : gmap Z RunRecord;
  running : gmap Z (gmap Z time);
  orphans : gmap Z (gmap (Z * Z) OrphanCompletion);
  MarkRunningErr : option error
}.

Definition empty_runs : RunTables := mkRunTables 0 ∅ ∅ ∅ ∅ None.

Definition set_running (m : gmap Z (gmap Z time)) (t : RunTables) : RunTables :=
  mkRunTables (runSeq t) (currentRun t) (runHistory t) m (orphans t) (MarkRunningErr t).
Definition set_orphans (m : gmap Z (gmap (Z * Z) OrphanCompletion)) (t : RunTables) : RunTables :=
  mkRunTables (runSeq t) (currentRun t) (runHistory t) (running t) m (MarkRunningErr t).

(** ** Runs *)
Definition StartRun (now : time) (executionID : Z) (correlationID : string) (t : RunTables) :
    result error Z * RunTables :=
  match currentRun t !! executionID with
  | Some _ => (Err ErrRunActive, t)
  | None =>
      let runID := runSeq t + 1 in
      (Ok runID,
       mkRunTables runID (<[executionID := runID]> (currentRun t))
         (<[runID := mkRunRecord runID executionID now None correlationID]> (runHistory t))
         (running t) (orphans t) (MarkRunningErr t))
  end.

Definition CurrentRun (executionID : Z) (t : RunTables) : option Z :=
  currentRun t !! executionID.

Definition open_run_of (t : RunTables) (kv : Z * Z) : OpenRun :=
  mkOpenRun kv.1 kv.2
    (match runHistory t !! kv.2 with Some rec => rr_StartedTime rec | None => time_zero end).

Definition open_run_le (a b : OpenRun) : Prop :=
  or_StartedTime a < or_StartedTime b ∨
  or_StartedTime a = or_StartedTime b ∧ or_RunID a <= or_RunID b.
#[global] Instance open_run_le_dec a b : Decision (open_run_le a b).
Proof. unfold open_run_le. apply _. Defined.

Definition OpenRuns (t : RunTables) : list OpenRun :=
  merge_sort open_run_le (open_run_of t <$> map_to_list (currentRun t)).

Definition end_record (now : time) (rec : RunRecord) : RunRecord :=
  match rr_EndTime rec with
  | None => mkRunRecord (rr_RunID rec) (rr_ExecutionID rec) (rr_StartedTime rec) (Some now)
              (rr_CorrelationID rec)
  | Some _ => rec
  end.

Definition StopRun (now : time) (executionID : Z) (t : RunTables) : RunTables :=
  match currentRun t !! executionID with
  | None => t
  | Some runID =>
      mkRunTables (runSeq t) (delete executionID (currentRun t))
        (alter (end_record now) runID (runHistory t))
        (running t) (orphans t) (MarkRunningErr t)
  end.

Definition RunHistory (runID : Z) (t : RunTables) : result error RunRecord :=
  match runHistory t !! runID with Some rec => Ok rec | None => Err ErrNotFound end.

(** The loop of [LastRun] over the history, in map order. *)
Definition later_run (latest : option RunRecord) (rec : RunRecord) : option RunRecord :=
  match latest with
  | None => Some rec
  | Some l =>
      if After (rr_StartedTime rec) (rr_StartedTime l) ||
         (bool_decide (rr_StartedTime rec = rr_StartedTime l) && (rr_RunID l <? rr_RunID rec))
      then Some rec else latest
  end.

Definition LastRun (executionID : Z) (t : RunTables) : result error RunRecord :=
  match fold_left later_run
          (filter (λ rec, rr_ExecutionID rec = executionID) (map_to_list (runHistory t)).*2) None
  with
  | Some rec => Ok rec
  | None => Err ErrNotFound
  end.

(** ** Scenarios marked running *)
Definition MarkScenarioRunning (now : time) (executionID scenarioID : Z) (t : RunTables) :
    result error unit * RunTables :=
  match MarkRunningErr t with
  | Some e => (Err e, t)
  | None =>
      let scenarios := default ∅ (running t !! executionID) in
      let scenarios' :=
        match scenarios !! scenarioID with
        | Some _ => scenarios
        | None => <[scenarioID := now]> scenarios
        end in
      (Ok tt, set_running (<[executionID := scenarios']> (running t)) t)
  end.

Definition ClearScenarioRunning (executionID scenarioID : Z) (t : RunTables) : RunTables :=
  let scenarios := delete scenarioID (default ∅ (running t !! executionID)) in
  set_running
    (if bool_decide (scenarios = ∅) then delete executionID (running t)
     else <[executionID := scenarios]> (running t)) t.

Definition running_le (a b : RunningScenario) : Prop :=
  rs_ExecutionID a < rs_ExecutionID b ∨
  rs_ExecutionID a = rs_ExecutionID b ∧ rs_ScenarioID a <= rs_ScenarioID b.
#[global] Instance running_le_dec a b : Decision (running_le a b).
Proof. unfold running_le. apply _. Defined.

Definition RunningScenariosByExecution (executionID : Z) (t : RunTables) :
    list RunningScenario :=
  merge_sort running_le
    ((λ kv : Z * time, mkRunningScenario executionID kv.1 kv.2) <$>
       map_to_list (default ∅ (running t !! executionID))).

Definition RunningScenarios (t : RunTables) : list RunningScenario :=
  merge_sort running_le
    (map_to_list (running t) ≫= λ ekv,
       (λ kv : Z * time, mkRunningScenario ekv.1 kv.1 kv.2) <$> map_to_list ekv.2).

(** ** Orphaned completions *)
Definition RecordOrphanCompletion (oc : OrphanCompletion) (t : RunTables) : RunTables :=
  let byShard := default ∅ (orphans t !! oc_ExecutionID oc) in
  set_orphans (<[oc_ExecutionID oc :=
    <[(oc_ScenarioID oc, oc_ShardIndex oc) := oc]> byShard]> (orphans t)) t.

Definition orphan_le (a b : OrphanCompletion) : Prop :=
  oc_ScenarioID a < oc_ScenarioID b ∨
  oc_ScenarioID a = oc_ScenarioID b ∧ oc_ShardIndex a <= oc_ShardIndex b.
#[global] Instance orphan_le_dec a b : Decision (orphan_le a b).
Proof. unfold orphan_le. apply _. Defined.

Definition OrphanCompletions (executionID : Z) (t : RunTables) : list OrphanCompletion :=
  merge_sort orphan_le (map_to_list (default ∅ (orphans t !! executionID))).*2.

Definition ClearOrphanCompletions (executionID : Z) (t : RunTables) : RunTables :=
  set_orphans (delete executionID (orphans t)) t.

(** ** The run invariant *)

(** Every open run has an open history row of its own execution, an open row is
    its execution's open run, and no row is newer than the last id issued. *)
Record runs_ok (t : RunTables) : Prop := {
  current_open : ∀ e r, currentRun t !! e = Some r →
    ∃ rec, runHistory t !! r = Some rec ∧ rr_ExecutionID rec = e ∧ rr_EndTime rec = None;
  open_current : ∀ r rec, runHistory t !! r = Some rec → rr_EndTime rec = None →
    currentRun t !! rr_ExecutionID rec = Some r;
  history_id : ∀ r rec, runHistory t !! r = Some rec → rr_RunID rec = r ∧ r <= runSeq t
}.

Lemma runs_ok_empty : runs_ok empty_runs.
Proof. split; intros *; simpl; by rewrite ?lookup_empty. Qed.

Lemma runs_fresh t : runs_ok t → runHistory t !! (runSeq t + 1) = None.
Proof.
  intros Hok. destruct (runHistory t !! _) as [rec|] eqn:E; [|done].
  destruct (history_id _ Hok _ _ E). lia.
Qed.

Lemma StartRun_ok now e cid t : runs_ok t → runs_ok (StartRun now e cid t).2.
Proof.
  intros Hok. unfold StartRun. destruct (currentRun t !! e) as [r0|] eqn:He; [done|].
  pose proof (runs_fresh t Hok) as Hfresh. destruct Hok as [Hcur Hopen Hid]. split; simpl.
  - intros e' r [[<- <-]|[Hne Hr]]%lookup_insert_Some; [eexists; by rewrite lookup_insert_eq|].
    destruct (Hcur _ _ Hr) as (rec & Hrec & ?). exists rec.
    rewrite lookup_insert_ne; [done|]. intros <-. congruence.
  - intros r rec [[<- <-]|[Hne Hr]]%lookup_insert_Some Hend; [by rewrite lookup_insert_eq|].
    rewrite lookup_insert_ne; [by apply Hopen|].
    intros ->. by rewrite (Hopen _ _ Hr Hend) in He.
  - intros r rec [[<- <-]|[Hne Hr]]%lookup_insert_Some; [done|].
    destruct (Hid _ _ Hr). split; [done|lia].
Qed.

Lemma StopRun_ok now e t : runs_ok t → runs_ok (StopRun now e t).
Proof.
  intros Hok. unfold StopRun. destruct (currentRun t !! e) as [r0|] eqn:He; [|done].
  destruct Hok as [Hcur Hopen Hid].
  destruct (Hcur _ _ He) as (rec0 & Hrec0 & He0 & Hend0). split; simpl.
  - intros e' r [Hne Hr]%lookup_delete_Some.
    destruct (Hcur _ _ Hr) as (rec & Hrec & Hre & ?). exists rec.
    rewrite lookup_alter_ne; [done|]. intros ->. rewrite Hrec in Hrec0. naive_solver.
  - intros r rec [(-> & x & Hx & ->)|[Hne Hr]]%lookup_alter_Some Hend.
    { unfold end_record in Hend. rewrite Hrec0 in Hx. injection Hx as <-.
      by rewrite Hend0 in Hend. }
    rewrite lookup_delete_ne; [by apply Hopen|].
    intros ->. rewrite (Hopen _ _ Hr Hend) in He. congruence.
  - intros r rec [(-> & x & Hx & ->)|[Hne Hr]]%lookup_alter_Some; [|by apply Hid].
    destruct (Hid _ _ Hx). unfold end_record. by destruct (rr_EndTime x).
Qed.

(** One event of the run tables; scenario markers and orphans come and go. *)
Inductive run_step : RunTables → RunTables → Prop :=
| run_start now e cid t : run_step t (StartRun now e cid t).2
| run_stop now e t : run_step t (StopRun now e t)
| run_mark now e sc t : run_step t (MarkScenarioRunning now e sc t).2
| run_clear e sc t : run_step t (ClearScenarioRunning e sc t)
| run_orphan oc t : run_step t (RecordOrphanCompletion oc t)
| run_clear_orphans e t : run_step t (ClearOrphanCompletions e t).

Lemma runs_ok_same_runs t t' :
  runSeq t' = runSeq t → currentRun t' = currentRun t → runHistory t' = runHistory t →
  runs_ok t → runs_ok t'.
Proof. intros Hs Hc Hh [? ? ?]. split; rewrite ?Hs, ?Hc, ?Hh; done. Qed.

Lemma run_step_ok t t' : run_step t t' → runs_ok t → runs_ok t'.
Proof.
  intros Hstep. destruct Hstep as [| |now e sc t0|e sc t0|oc t0|e t0];
    [apply StartRun_ok|apply StopRun_ok|apply runs_ok_same_runs..]; try done;
    unfold MarkScenarioRunning; by destruct (MarkRunningErr t0).
Qed.

(** From the empty store, whatever runs are started and stopped in whatever
    order, every execution has at most one open history row, and it is the
    execution's current run; run ids are never reused. *)
Theorem one_open_run_per_execution t r1 r2 rec1 rec2 :
  rtc run_step empty_runs t →
  runHistory t !! r1 = Some rec1 → runHistory t !! r2 = Some rec2 →
  rr_EndTime rec1 = None → rr_EndTime rec2 = None →
  rr_ExecutionID rec1 = rr_ExecutionID rec2 →
  r1 = r2 ∧ CurrentRun (rr_ExecutionID rec1) t = Some r1 ∧
  runHistory t !! (runSeq t + 1) = None.
Proof.
  intros Hsteps H1 H2 He1 He2 Heq.
  assert (runs_ok t) as Hok.
  { assert (∀ a, rtc run_step a t → runs_ok a → runs_ok t) as Hpres
      by (intros a Ha; induction Ha; eauto using run_step_ok).
    eapply Hpres; [exact Hsteps|apply runs_ok_empty]. }
  pose proof (open_current _ Hok _ _ H1 He1) as Hc1.
  pose proof (open_current _ Hok _ _ H2 He2) as Hc2.
  rewrite <- Heq, Hc1 in Hc2. repeat split; [congruence|done|by apply runs_fresh].
Qed.

Lemma one_open_run_per_execution_witness :
  let t := (StartRun 20 5 "b" (StopRun 15 5 (StartRun 10 5 "a" empty_runs).2)).2 in
  runHistory t !! 2 = Some (mkRunRecord 2 5 20 None "b") ∧ CurrentRun 5 t = Some 2.
Proof.
  split; [vm_compute; reflexivity|].
  refine (proj1 (proj2 (one_open_run_per_execution _ 2 2 (mkRunRecord 2 5 20 None "b")
    (mkRunRecord 2 5 20 None "b") _ _ _ eq_refl eq_refl eq_refl)));
    [|vm_compute; reflexivity|vm_compute; reflexivity].
  eapply rtc_l; [apply (run_start 10 5 "a")|].
  eapply rtc_l; [apply (run_stop 15 5)|]. apply rtc_once, (run_start 20 5 "b").
Defined.
