(* ===== verification/Schedule.v ===== *)
(** * Schedules ([internal/domain/schedule])

    A request to run an execution at a later time, once or on a cron
    expression, and the fire times it has inside a window.  [ScheduleTable] is
    the schedule and occurrence ledger of the in-memory repository,
    [internal/ports/fake/schedule_repository.go].

    The cron parser is [github.com/robfig/cron/v3], outside this repository: it
    is the parameter [ParseStandard], and [CronLaws] is what its documentation
    says of a parsed expression. *)
From S2P Require Import Prelude Errors.

Module Schedule.
(** [type Kind string]. *)
Definition Kind := string.
Definition KindOneShot : Kind := "one_shot".
Definition KindRecurring : Kind := "recurring".

Record Schedule := mkSchedule {
  sch_ID : Z;
  sch_ExecutionID : Z;
  sch_TenantID : Z;
  sch_Kind : Kind;
  sch_FireAt : option time;
  sch_Recurrence : string;
  sch_Active : bool
}.

(** [cron.Schedule] is an interface with one method, [Next]. *)
Definition CronSchedule := time → time.

(** A parsed expression has activation times [fires]; [Next] is the first of
    them strictly after its argument, or the zero time when there is none
    within five years. *)
Definition five_years : duration := 5 * 365 * 86400 * second.
Class CronLaws (fires : time → Prop) (Next : CronSchedule) := {
  next_later : ∀ t, Next t ≠ time_zero → t < Next t ∧ fires (Next t);
  next_first : ∀ t u, t < u → u <= t + five_years → fires u →
    Next t ≠ time_zero ∧ Next t <= u
}.

Section schedule.
Context (ParseStandard : string → option CronSchedule).

Definition Validate (s : Schedule) : result error unit :=
  if sch_ExecutionID s <=? 0 then Err ErrSchedExecutionRequired
  else if bool_decide (sch_Kind s = KindOneShot) then
    match sch_FireAt s with
    | None => Err ErrFireAtRequired
    | Some _ => Ok tt
    end
  else if bool_decide (sch_Kind s = KindRecurring) then
    if bool_decide (sch_Recurrence s = "") then Err ErrRecurrenceRequired
    else match ParseStandard (sch_Recurrence s) with
         | None => Err ErrRecurrenceInvalid
         | Some _ => Ok tt
         end
  else Err ErrSchedKindInvalid.

(** The loop of [Occurrences]: its state is [(t, out)]. *)
Definition occurrence_step (Next : CronSchedule) (to : time) (st : time * list time) :
    time * list time + list time :=
  let '(t, out) := st in
  let next := Next t in
  if IsZero next || negb (Before next to) then inr out
  else inl (next, out ++ [next]).

(** Every iteration moves [t] forward inside the window, so its length in
    nanoseconds bounds the iterations. *)
Definition walk (Next : CronSchedule) (from to : time) : list time :=
  match loop_upto (occurrence_step Next to) (Z.to_pos (to - from + 2))
          (time_Add from (- nanosecond), []) with
  | inl (_, out) => out
  | inr out => out
  end.

Definition Occurrences (s : Schedule) (from to : time) : result error (list time) :=
  if negb (After to from) then Err ErrSchedWindowInvalid
  else if bool_decide (sch_Kind s = KindOneShot) then
    match sch_FireAt s with
    | None => Err ErrFireAtRequired
    | Some fireAt =>
        if negb (Before fireAt from) && Before fireAt to then Ok [fireAt] else Ok []
    end
  else if bool_decide (sch_Kind s = KindRecurring) then
    match ParseStandard (sch_Recurrence s) with
    | None => Err ErrRecurrenceInvalid
    | Some sched => Ok (walk sched from to)
    end
  else Err ErrSchedKindInvalid.
End schedule.
End Schedule.
Import Schedule.

(** ** The schedule ledger *)
Inductive OccurrenceStatus :=
| OccurrenceReserved | OccurrenceRejected | OccurrenceFired | OccurrenceCompleted.
#[global] Instance OccurrenceStatus_eq_dec : EqDecision OccurrenceStatus.
Proof. solve_decision. Defined.

Record Occurrence := mkOccurrence {
  occ_ID : Z;
  occ_ScheduleID : Z;
  occ_FireTime : time;
  occ_Status : OccurrenceStatus;
  occ_ReservationID : option Z
}.

Record ScheduleTable := mkScheduleTable {
  scheduleSeq : Z;
  schedules : gmap Z Schedule;
  occurrenceSeq : Z;
  occurrences : gmap Z Occurrence;
  horizonRunAt : option time
}.

Definition empty_schedules : ScheduleTable := mkScheduleTable 0 ∅ 0 ∅ None.

Definition sch_with_ID (s : Schedule) (id : Z) : Schedule :=
  mkSchedule id (sch_ExecutionID s) (sch_TenantID s) (sch_Kind s) (sch_FireAt s)
    (sch_Recurrence s) (sch_Active s).
Definition occ_with_ID (o : Occurrence) (id : Z) : Occurrence :=
  mkOccurrence id (occ_ScheduleID o) (occ_FireTime o) (occ_Status o) (occ_ReservationID o).

Definition CreateSchedule (sc : Schedule) (t : ScheduleTable) : Z * ScheduleTable :=
  let id := scheduleSeq t + 1 in
  (id, mkScheduleTable id (<[id := sch_with_ID sc id]> (schedules t)) (occurrenceSeq t)
         (occurrences t) (horizonRunAt t)).

Definition GetSchedule (id : Z) (t : ScheduleTable) : result error Schedule :=
  match schedules t !! id with Some sc => Ok sc | None => Err ErrNotFound end.

Definition ListSchedulesByExecution (executionID : Z) (t : ScheduleTable) : list Schedule :=
  filter (λ sc, sch_ExecutionID sc = executionID) (map_to_list (schedules t)).*2.

Definition ListActiveRecurringSchedules (t : ScheduleTable) : list Schedule :=
  filter (λ sc, sch_Kind sc = KindRecurring ∧ sch_Active sc = true)
    (map_to_list (schedules t)).*2.

Definition DeleteSchedule (id : Z) (t : ScheduleTable) : result error unit * ScheduleTable :=
  match schedules t !! id with
  | None => (Err ErrNotFound, t)
  | Some _ =>
      (Ok tt, mkScheduleTable (scheduleSeq t) (delete id (schedules t)) (occurrenceSeq t)
                (filter (λ kv, occ_ScheduleID kv.2 ≠ id) (occurrences t)) (horizonRunAt t))
  end.

Definition CreateOccurrence (o : Occurrence) (t : ScheduleTable) : Z * ScheduleTable :=
  let id := occurrenceSeq t + 1 in
  (id, mkScheduleTable (scheduleSeq t) (schedules t) id
         (<[id := occ_with_ID o id]> (occurrences t)) (horizonRunAt t)).

Definition fire_le (a b : Occurrence) : Prop := occ_FireTime a <= occ_FireTime b.
#[global] Instance fire_le_dec a b : Decision (fire_le a b).
Proof. unfold fire_le. apply _. Defined.
#[global] Instance fire_le_total : Total fire_le.
Proof. intros a b. unfold fire_le. lia. Qed.

Definition schedule_occurrences (scheduleID : Z) (t : ScheduleTable) : list Occurrence :=
  filter (λ o, occ_ScheduleID o = scheduleID) (map_to_list (occurrences t)).*2.

Definition OccurrencesForSchedule (scheduleID : Z) (t : ScheduleTable) : list Occurrence :=
  merge_sort fire_le (schedule_occurrences scheduleID t).

(** The body of [ClaimDueOccurrence]'s loop; [claimed] is [None] until
    [found]. *)
Definition claim_step (now : time) (claimed : option Occurrence) (o : Occurrence) :
    option Occurrence :=
  if negb (bool_decide (occ_Status o = OccurrenceReserved)) || After (occ_FireTime o) now
  then claimed
  else match claimed with
       | None => Some o
       | Some c => if Before (occ_FireTime o) (occ_FireTime c) then Some o else claimed
       end.

Definition fired (o : Occurrence) : Occurrence :=
  mkOccurrence (occ_ID o) (occ_ScheduleID o) (occ_FireTime o) OccurrenceFired
    (occ_ReservationID o).

(** Held under the store's mutex, so it is one atomic step. *)
Definition ClaimDueOccurrence (now : time) (t : ScheduleTable) :
    option Occurrence * ScheduleTable :=
  match fold_left (claim_step now) (map_to_list (occurrences t)).*2 None with
  | None => (None, t)
  | Some o =>
      (Some (fired o),
       mkScheduleTable (scheduleSeq t) (schedules t) (occurrenceSeq t)
         (<[occ_ID o := fired o]> (occurrences t)) (horizonRunAt t))
  end.

Definition RecordHorizonExtension (at_ : time) (t : ScheduleTable) : ScheduleTable :=
  mkScheduleTable (scheduleSeq t) (schedules t) (occurrenceSeq t) (occurrences t) (Some at_).

Definition LastHorizonExtension (t : ScheduleTable) : option time := horizonRunAt t.

(** ** Fire times *)
Section walk.
Context (Next : CronSchedule) (fires : time → Prop) `{!CronLaws fires Next}.
Context (from to : time) (Hfrom : 0 < from) (Hto : from < to <= from + five_years).

(** Invariant of the walk: [out] is every fire time of [[from, t]]. *)
Definition walked (st : time * list time) : Prop :=
  from - 1 <= st.1 < to ∧ StronglySorted (<) st.2 ∧
  ∀ u, u ∈ st.2 ↔ from <= u <= st.1 ∧ fires u.

Lemma occurrence_step_ok st :
  walked st →
  match occurrence_step Next to st with
  | inl st' => walked st' ∧ to - st'.1 < to - st.1
  | inr out => StronglySorted (<) out ∧ ∀ u, u ∈ out ↔ from <= u < to ∧ fires u
  end.
Proof using All.
  destruct st as [t out]. intros (Ht & Hs & Hin). unfold occurrence_step, IsZero, Before.
  simpl in *. destruct (bool_decide_reflect (Next t = time_zero)) as [Hz|Hz]; simpl.
  - split; [done|]. intros u. rewrite Hin. split; [intros [??]; split; [lia|done]|].
    intros [??]. split; [|done]. destruct (decide (u <= t)); [lia|].
    destruct (next_first t u) as [? _]; try done; lia.
  - destruct (next_later t Hz) as [Hlt Hf].
    assert (∀ u, t < u < Next t → u <= t + five_years → ¬ fires u) as Hgap.
    { intros u Hu Hu5 Hfu. destruct (next_first t u); try done; lia. }
    destruct (bool_decide_reflect (Next t < to)) as [Hb|Hb]; simpl.
    + split; [|lia]. split; simpl; [lia|]. split.
      { apply sorted_snoc; [done|]. intros y [??]%Hin. lia. }
      intros u. rewrite elem_of_app, Hin, list_elem_of_singleton. split.
      * intros [[??]| ->]; split; try done; lia.
      * intros [??]. destruct (decide (u = Next t)); [by right|left]. split; [|done].
        destruct (decide (u <= t)); [lia|]. destruct (Hgap u); try done; lia.
    + split; [done|]. intros u. rewrite Hin. split; intros [??]; (split; [|done]); [lia|].
      destruct (decide (u <= t)); [lia|]. destruct (Hgap u); try done; lia.
Qed.

Lemma walk_exact :
  StronglySorted (<) (walk Next from to) ∧
  ∀ u, u ∈ walk Next from to ↔ from <= u < to ∧ fires u.
Proof using All.
  unfold walk. destruct (loop_upto_total (occurrence_step Next to) walked
    (λ out, StronglySorted (<) out ∧ ∀ u, u ∈ out ↔ from <= u < to ∧ fires u)
    (λ st, to - st.1)) with (p := Z.to_pos (to - from + 2))
    (s := (time_Add from (- nanosecond), [] : list time)) as (out & -> & ?); try done.
  - apply occurrence_step_ok.
  - intros [t out] [? _]. simpl in *. lia.
  - unfold time_Add, nanosecond. split; simpl; [lia|]. split; [constructor|].
    intros u. split; [by intros ?%elem_of_nil|]. intros [??]. lia.
  - unfold time_Add, nanosecond. simpl. rewrite Z2Pos.id; lia.
Qed.
End walk.

Section occurrences_facts.
Context (ParseStandard : string → option CronSchedule).

End occurrences_facts.

(** A cron expression that fires on every positive multiple of a period. *)
Definition every_period (p : Z) (t : time) : time := Z.max p ((t / p + 1) * p).

Lemma every_period_laws p :
  0 < p → CronLaws (λ u, 0 < u ∧ (p | u)) (every_period p).
Proof.
  intros Hp. split; unfold every_period, time_zero.
  - intros t _. pose proof (Z.div_mod t p ltac:(lia)) as Hdm.
    pose proof (Z.mod_pos_bound t p Hp).
    assert (t < (t / p + 1) * p) by nia. split; [lia|]. split; [lia|].
    destruct (Z.max_spec p ((t / p + 1) * p)) as [[_ ->]|[_ ->]];
      [apply Z.divide_factor_r|apply Z.divide_refl].
  - intros t u Htu _ [Hu0 [k ->]]. split; [lia|].
    assert (1 <= k) by nia. assert (t / p < k) by (apply Z.div_lt_upper_bound; lia).
    apply Z.max_lub; nia.
Qed.


Example occurrences_run :
  Occurrences (λ _, Some (every_period 86400000000000))
    (mkSchedule 1 1 1 KindRecurring None "x" true) 1 604800000000000 =
  Ok ((λ k, k * 86400000000000) <$> [1; 2; 3; 4; 5; 6]).
Proof. vm_compute. reflexivity. Qed.

(** ** Claiming *)
Definition due (now : time) (o : Occurrence) : Prop :=
  occ_Status o = OccurrenceReserved ∧ occ_FireTime o <= now.

Lemma claim_step_due now acc o :
  claim_step now acc o =
    if decide (due now o) then
      match acc with
      | None => Some o
      | Some c => if Before (occ_FireTime o) (occ_FireTime c) then Some o else acc
      end
    else acc.
Proof.
  unfold claim_step, due, After. destruct (decide (_ ∧ _)) as [[Hs Hf]|Hn].
  - rewrite bool_decide_eq_true_2, bool_decide_eq_false_2 by (done || lia). done.
  - destruct (bool_decide_reflect (occ_Status o = OccurrenceReserved)); simpl; [|done].
    rewrite bool_decide_eq_true_2; [done|]. apply Z.nle_gt. intros ?. by apply Hn.
Qed.

(** The fold keeps the earliest due occurrence it has seen. *)
Lemma claim_fold now l acc :
  match fold_left (claim_step now) l acc with
  | None => acc = None ∧ ∀ o, o ∈ l → ¬ due now o
  | Some c =>
      (acc = Some c ∨ c ∈ l ∧ due now c) ∧
      (∀ o, o ∈ l → due now o → occ_FireTime c <= occ_FireTime o) ∧
      (∀ a, acc = Some a → occ_FireTime c <= occ_FireTime a)
  end.
Proof.
  revert acc. induction l as [|o l IH]; intros acc; cbn [fold_left].
  { destruct acc; (split; [naive_solver|set_solver]) ||
      (split; [by left|split; [set_solver|naive_solver lia]]). }
  specialize (IH (claim_step now acc o)). rewrite claim_step_due in *.
  destruct (fold_left _ l _) as [c|].
  - destruct IH as (Hc & Hl & Ha). destruct (decide (due now o)) as [Hd|Hd].
    + destruct acc as [a|].
      * unfold Before in *.
        destruct (bool_decide_reflect (occ_FireTime o < occ_FireTime a)).
        -- pose proof (Ha o eq_refl). split; [set_solver|].
           split; [|intros ? [= <-]; lia].
           intros o' [->|Ho]%elem_of_cons; [lia|by apply Hl].
        -- pose proof (Ha a eq_refl). split; [set_solver|].
           split; [|intros ? [= <-]; lia].
           intros o' [->|Ho]%elem_of_cons; [lia|by apply Hl].
      * pose proof (Ha o eq_refl). split; [set_solver|]. split; [|done].
        intros o' [->|Ho]%elem_of_cons; [lia|by apply Hl].
    + split; [set_solver|]. split; [|done].
      intros o' [->|Ho]%elem_of_cons; [done|by apply Hl].
  - destruct IH as [Hacc Hl]. destruct (decide (due now o)) as [Hd|Hd].
    + destruct acc as [a|]; [by destruct (Before _ _)|done].
    + split; [done|]. intros o' [->|Ho]%elem_of_cons; [done|by apply Hl].
Qed.

(** Rows are stored under their id, and no id was issued beyond the sequence. *)
Definition schedules_ok (t : ScheduleTable) : Prop :=
  (∀ i sc, schedules t !! i = Some sc → sch_ID sc = i ∧ i <= scheduleSeq t) ∧
  (∀ i o, occurrences t !! i = Some o → occ_ID o = i ∧ i <= occurrenceSeq t).

Lemma elem_of_occurrences t o :
  schedules_ok t →
  o ∈ (map_to_list (occurrences t)).*2 ↔ occurrences t !! occ_ID o = Some o.
Proof.
  intros [_ Hok]. rewrite list_elem_of_fmap. split.
  - intros ([i o'] & -> & Hin%elem_of_map_to_list). simpl. by destruct (Hok _ _ Hin) as [-> _].
  - intros Ho. exists (occ_ID o, o). split; [done|]. by apply elem_of_map_to_list.
Qed.

(** What a claim does, in terms of the table's rows. *)
Lemma ClaimDueOccurrence_spec now t :
  schedules_ok t →
  match ClaimDueOccurrence now t with
  | (None, t') => t' = t ∧ ∀ i o, occurrences t !! i = Some o → ¬ due now o
  | (Some c, t') =>
      ∃ o, occurrences t !! occ_ID c = Some o ∧ due now o ∧ c = fired o ∧
        (∀ i o', occurrences t !! i = Some o' → due now o' → occ_FireTime o <= occ_FireTime o') ∧
        occurrences t' = <[occ_ID c := c]> (occurrences t) ∧
        schedules t' = schedules t ∧ scheduleSeq t' = scheduleSeq t ∧
        occurrenceSeq t' = occurrenceSeq t ∧ horizonRunAt t' = horizonRunAt t
  end.
Proof.
  intros Hok. unfold ClaimDueOccurrence.
  pose proof (claim_fold now (map_to_list (occurrences t)).*2 None) as Hf.
  assert (∀ i o, occurrences t !! i = Some o → o ∈ (map_to_list (occurrences t)).*2) as Hin.
  { intros i o Ho. apply elem_of_occurrences; [done|]. by destruct Hok as [_ Hok];
      destruct (Hok _ _ Ho) as [-> _]. }
  destruct (fold_left _ _ _) as [o|].
  - destruct Hf as ([?|[Ho Hd]] & Hmin & _); [done|].
    apply elem_of_occurrences in Ho; [|done]. exists o. simpl.
    repeat split; try done; [apply Hd|apply Hd|eauto].
  - destruct Hf as [_ Hn]. split; [done|]. eauto.
Qed.

Lemma ClaimDueOccurrence_ok now t :
  schedules_ok t → schedules_ok (ClaimDueOccurrence now t).2.
Proof.
  intros Hok. pose proof (ClaimDueOccurrence_spec now t Hok) as H.
  destruct (ClaimDueOccurrence now t) as [[c|] t']; simpl; [|by destruct H as [-> _]].
  destruct H as (o & Ho & _ & -> & _ & Hocc & Hs & Hseq & Hoseq & _). destruct Hok as [Hs1 Ho1].
  split; rewrite ?Hs, ?Hseq, ?Hocc, ?Hoseq; [done|].
  intros i o' [[<- <-]|[Hne Ho']]%lookup_insert_Some; [|by apply Ho1].
  split; [done|]. by destruct (Ho1 _ _ Ho).
Qed.

Lemma CreateOccurrence_ok o t : schedules_ok t → schedules_ok (CreateOccurrence o t).2.
Proof.
  intros [Hs Ho]. split; simpl; [done|].
  intros i o' [[<- <-]|[Hne Ho']]%lookup_insert_Some; [done|].
  destruct (Ho _ _ Ho'). split; [done|lia].
Qed.

Lemma CreateSchedule_ok sc t : schedules_ok t → schedules_ok (CreateSchedule sc t).2.
Proof.
  intros [Hs Ho]. split; simpl; [|done].
  intros i o' [[<- <-]|[Hne Ho']]%lookup_insert_Some; [done|].
  destruct (Hs _ _ Ho'). split; [done|lia].
Qed.

Lemma DeleteSchedule_ok id t : schedules_ok t → schedules_ok (DeleteSchedule id t).2.
Proof.
  intros [Hs Ho]. unfold DeleteSchedule. destruct (schedules t !! id); [|by split].
  split; simpl.
  - intros i sc [_ ?]%lookup_delete_Some. by apply Hs.
  - intros i o [? _]%map_lookup_filter_Some. by apply Ho.
Qed.

(** A history of the ledger, with the occurrences it handed out to be fired:
    any number of replicas, in any order. *)
Inductive schedule_history : ScheduleTable → list Z → ScheduleTable → Prop :=
| hist_nil t : schedule_history t [] t
| hist_create sc t cs t' :
    schedule_history (CreateSchedule sc t).2 cs t' → schedule_history t cs t'
| hist_delete id t cs t' :
    schedule_history (DeleteSchedule id t).2 cs t' → schedule_history t cs t'
| hist_occurrence o t cs t' :
    schedule_history (CreateOccurrence o t).2 cs t' → schedule_history t cs t'
| hist_horizon at_ t cs t' :
    schedule_history (RecordHorizonExtension at_ t) cs t' → schedule_history t cs t'
| hist_claim now c t cs t' :
    (ClaimDueOccurrence now t).1 = Some c →
    schedule_history (ClaimDueOccurrence now t).2 cs t' →
    schedule_history t (occ_ID c :: cs) t'
| hist_claim_none now t cs t' :
    (ClaimDueOccurrence now t).1 = None →
    schedule_history (ClaimDueOccurrence now t).2 cs t' → schedule_history t cs t'.

(** An occurrence that was handed out cannot become claimable again. *)
Definition spent (t : ScheduleTable) (i : Z) : Prop :=
  i <= occurrenceSeq t ∧
  ∀ o, occurrences t !! i = Some o → occ_Status o ≠ OccurrenceReserved.

Lemma spent_claim now t i :
  schedules_ok t → spent t i → spent (ClaimDueOccurrence now t).2 i.
Proof.
  intros Hok Hsp. pose proof (ClaimDueOccurrence_spec now t Hok) as H.
  destruct (ClaimDueOccurrence now t) as [[c|] t']; simpl; [|by destruct H as [-> _]].
  destruct H as (o & Ho & Hd & -> & _ & Hocc & _ & _ & Hseq & _). destruct Hsp as [Hle Hst].
  split; [by rewrite Hseq|]. rewrite Hocc.
  intros o' [[_ <-]|[_ ?]]%lookup_insert_Some; [done|by apply Hst].
Qed.

Lemma spent_delete id t i : spent t i → spent (DeleteSchedule id t).2 i.
Proof.
  unfold DeleteSchedule. destruct (schedules t !! id); [|done]. intros [Hle Hst].
  split; simpl; [done|]. intros o [? _]%map_lookup_filter_Some. by apply Hst.
Qed.

Lemma spent_occurrence o t i : spent t i → spent (CreateOccurrence o t).2 i.
Proof.
  intros [Hle Hst]. split; simpl; [lia|].
  intros o' [[<- _]|[_ ?]]%lookup_insert_Some; [lia|by apply Hst].
Qed.

Lemma history_spares_spent t cs t' i :
  schedule_history t cs t' → schedules_ok t → spent t i → i ∉ cs.
Proof.
  intros Hh. induction Hh as [| | | | |now c t cs t' Hc _ IH|now t cs t' Hc _ IH];
    intros Hok Hsp; [set_solver| | | | | |];
    try (apply IHHh; eauto using CreateSchedule_ok, DeleteSchedule_ok, CreateOccurrence_ok,
      spent_delete, spent_occurrence; fail).
  - apply not_elem_of_cons. split.
    + pose proof (ClaimDueOccurrence_spec now t Hok) as H.
      destruct (ClaimDueOccurrence now t) as [oc t1]. simpl in Hc. subst oc.
      destruct H as (o & Ho & [Hres _] & _). intros ->. by destruct (proj2 Hsp _ Ho).
    + apply IH; [by apply ClaimDueOccurrence_ok|by apply spent_claim].
  - apply IH; [by apply ClaimDueOccurrence_ok|by apply spent_claim].
Qed.

(** C35. However many scheduler replicas poll the ledger, and whatever is
    created, deleted or extended in between, no occurrence is ever handed out
    twice. *)
Theorem occurrences_fire_once t cs t' :
  schedules_ok t → schedule_history t cs t' → NoDup cs.
Proof.
  intros Hok Hh. induction Hh as [| | | | |now c t cs t' Hc Hh IH|now t cs t' Hc _ IH];
    eauto using NoDup_nil_2, CreateSchedule_ok, DeleteSchedule_ok, CreateOccurrence_ok,
      ClaimDueOccurrence_ok.
  apply NoDup_cons. split; [|by apply IH, ClaimDueOccurrence_ok].
  eapply history_spares_spent; [exact Hh|by apply ClaimDueOccurrence_ok|].
  pose proof (ClaimDueOccurrence_spec now t Hok) as H.
  destruct (ClaimDueOccurrence now t) as [oc t1]. simpl in Hc. subst oc. simpl.
  destruct H as (o & Ho & _ & -> & _ & Hocc & _ & _ & Hseq & _). split.
  - rewrite Hseq. by destruct (proj2 Hok _ _ Ho).
  - rewrite Hocc. intros o' [[_ <-]|[? _]]%lookup_insert_Some; [done|by simpl in *].
Qed.

Lemma schedules_ok_empty : schedules_ok empty_schedules.
Proof. split; intros *; simpl; by rewrite lookup_empty. Qed.

Lemma occurrences_fire_once_witness :
  let t := (CreateOccurrence (mkOccurrence 0 1 5 OccurrenceReserved None)
             (CreateOccurrence (mkOccurrence 0 1 9 OccurrenceReserved (Some 4))
                empty_schedules).2).2 in
  let t1 := (ClaimDueOccurrence 10 t).2 in
  let t2 := (ClaimDueOccurrence 10 t1).2 in
  schedule_history t [2; 1] t2 ∧ (ClaimDueOccurrence 10 t2).1 = None ∧ NoDup [2; 1].
Proof.
  intros t t1 t2. assert (schedule_history t [2; 1] t2) as Hh.
  { apply (hist_claim 10 (mkOccurrence 2 1 5 OccurrenceFired None)); [reflexivity|].
    apply (hist_claim 10 (mkOccurrence 1 1 9 OccurrenceFired (Some 4))); [reflexivity|].
    apply hist_nil. }
  split; [exact Hh|]. split; [reflexivity|]. eapply occurrences_fire_once; [|exact Hh].
  apply CreateOccurrence_ok, CreateOccurrence_ok, schedules_ok_empty.
Defined.

(** A claim takes the earliest due reserved occurrence, marks exactly that
    row fired, and finds nothing only when no reserved occurrence is due. *)
Theorem claim_takes_earliest now t :
  schedules_ok t →
  ((ClaimDueOccurrence now t).1 = None ↔
     ∀ i o, occurrences t !! i = Some o → ¬ due now o) ∧
  (∀ c, (ClaimDueOccurrence now t).1 = Some c →
     ∃ o, occurrences t !! occ_ID c = Some o ∧ due now o ∧
       (∀ i o', occurrences t !! i = Some o' → due now o' →
          occ_FireTime o <= occ_FireTime o') ∧
       occurrences (ClaimDueOccurrence now t).2 !! occ_ID c =
         Some (mkOccurrence (occ_ID o) (occ_ScheduleID o) (occ_FireTime o) OccurrenceFired
                 (occ_ReservationID o)) ∧
       ∀ i, i ≠ occ_ID c →
         occurrences (ClaimDueOccurrence now t).2 !! i = occurrences t !! i).
Proof.
  intros Hok. pose proof (ClaimDueOccurrence_spec now t Hok) as H.
  destruct (ClaimDueOccurrence now t) as [[c|] t']; simpl.
  - destruct H as (o & Ho & Hd & -> & Hmin & Hocc & _). split.
    { split; [done|]. intros Hn. by destruct (Hn _ _ Ho). }
    intros ? [= <-]. exists o. rewrite Hocc. repeat split; try done.
    + by destruct Hd.
    + by destruct Hd.
    + by rewrite lookup_insert_eq.
    + intros i Hi. by rewrite lookup_insert_ne.
  - destruct H as [-> Hn]. split; [done|]. intros c ?. done.
Qed.

Lemma claim_takes_earliest_witness :
  let t := (CreateOccurrence (mkOccurrence 0 1 5 OccurrenceReserved None)
             (CreateOccurrence (mkOccurrence 0 1 9 OccurrenceReserved (Some 4))
                empty_schedules).2).2 in
  (ClaimDueOccurrence 4 t).1 = None ∧ ∀ i o, occurrences t !! i = Some o → ¬ due 4 o.
Proof.
  split; [reflexivity|]. apply (claim_takes_earliest 4); [|reflexivity].
  apply CreateOccurrence_ok, CreateOccurrence_ok, schedules_ok_empty.
Defined.
