(* ===== verification/Calibration.v ===== *)
(** * The capacity search ([internal/domain/calibration])

    Bracketing then bisecting toward the rate one engine pod sustains.  The
    package is pure: [Start] and [Next] decide, a caller runs the steps.  The
    section at the end is the job ledger of the in-memory repository,
    [internal/ports/fake/calibration_repository.go]. *)
From S2P Require Import Prelude Errors GoFloat.

Definition DefaultSeedQPS : float64 := of_int 10.
Definition DefaultMaxQPS : float64 := of_int 10000.
Definition DefaultMaxSteps : Z := 20.
Definition DefaultHoldSeconds : Z := 30.
Definition BisectionToleranceQPS : float64 := of_int 1.

Record Spec := mkSpec {
  sp_Criterion : string;
  sp_CPU : string;
  sp_Memory : string;
  sp_SeedQPS : float64;
  sp_MaxQPS : float64;
  sp_MaxSteps : Z;
  sp_HoldSeconds : Z
}.

Definition WithDefaults (s : Spec) : Spec :=
  mkSpec (sp_Criterion s) (sp_CPU s) (sp_Memory s)
    (if fle (sp_SeedQPS s) fzero then DefaultSeedQPS else sp_SeedQPS s)
    (if fle (sp_MaxQPS s) fzero then DefaultMaxQPS else sp_MaxQPS s)
    (if sp_MaxSteps s <=? 0 then DefaultMaxSteps else sp_MaxSteps s)
    (if sp_HoldSeconds s <=? 0 then DefaultHoldSeconds else sp_HoldSeconds s).

Definition Spec_Validate (s : Spec) : result error unit :=
  if bool_decide (sp_Criterion s = "") then Err ErrCriterionRequired
  else if bool_decide (sp_CPU s = "") || bool_decide (sp_Memory s = "") then Err ErrPodSizeRequired
  else if fle (sp_SeedQPS s) fzero then Err ErrSeedQPSInvalid
  else if fle (sp_MaxQPS s) (sp_SeedQPS s) then Err ErrMaxQPSInvalid
  else if sp_MaxSteps s <=? 0 then Err ErrMaxStepsInvalid
  else if sp_HoldSeconds s <=? 0 then Err ErrHoldInvalid
  else Ok tt.

Inductive Classification :=
| ClassificationEngineSaturated | ClassificationTargetSaturated | ClassificationClean.
Inductive SaturatedBy := SaturatedByEngine | SaturatedByTarget | SaturatedByNeither.
Inductive Phase := PhasePending | PhaseBracketing | PhaseBisecting | PhaseDone | PhaseFailed.
#[global] Instance Classification_eq_dec : EqDecision Classification.
Proof. solve_decision. Defined.
#[global] Instance SaturatedBy_eq_dec : EqDecision SaturatedBy.
Proof. solve_decision. Defined.
#[global] Instance Phase_eq_dec : EqDecision Phase.
Proof. solve_decision. Defined.

Record Step := mkStep {
  stp_RequestedQPS : float64;
  stp_AchievedQPS : float64;
  stp_Classification : Classification
}.
Record Result := mkResult { rs_SaturatedBy : SaturatedBy; rs_PerPodQPS : float64 }.

Record Job := mkJob {
  job_Spec : Spec;
  job_Phase : Phase;
  job_StepCount : Z;
  job_BracketLoRequested : float64;
  job_BracketLoAchieved : float64;
  job_BracketHiRequested : float64;
  job_Result : option Result
}.

Record Action := mkAction { act_Done : bool; act_NextRequestedQPS : float64 }.
Definition done_action : Action := mkAction true fzero.

Definition Start (spec : Spec) : Job * Action :=
  (mkJob spec PhaseBracketing 0 fzero fzero fzero None, mkAction false (sp_SeedQPS spec)).

(** [job.Phase = PhaseDone; job.Result = &Result{...}]. *)
Definition finish (job : Job) (by_ : SaturatedBy) (qps : float64) : Job * Action :=
  (mkJob (job_Spec job) PhaseDone (job_StepCount job) (job_BracketLoRequested job)
     (job_BracketLoAchieved job) (job_BracketHiRequested job) (Some (mkResult by_ qps)),
   done_action).

Definition doubleOrFinish (job : Job) : Job * Action :=
  let next := fmul (job_BracketLoRequested job) (of_int 2) in
  if fgt next (sp_MaxQPS (job_Spec job)) || (sp_MaxSteps (job_Spec job) <=? job_StepCount job)
  then finish job SaturatedByNeither (job_BracketLoAchieved job)
  else (job, mkAction false next).

Definition bisectOrFinish (job : Job) : Job * Action :=
  let width := fsub (job_BracketHiRequested job) (job_BracketLoRequested job) in
  if fle width BisectionToleranceQPS || (sp_MaxSteps (job_Spec job) <=? job_StepCount job)
  then finish job SaturatedByEngine (job_BracketLoAchieved job)
  else (job, mkAction false (fadd (job_BracketLoRequested job) (fdiv width (of_int 2)))).

Definition Next (job : Job) (step : Step) : Job * Action :=
  let n := job_StepCount job +w 1 in
  match stp_Classification step with
  | ClassificationTargetSaturated =>
      finish (mkJob (job_Spec job) (job_Phase job) n (job_BracketLoRequested job)
                (job_BracketLoAchieved job) (job_BracketHiRequested job) (job_Result job))
        SaturatedByTarget (stp_AchievedQPS step)
  | ClassificationEngineSaturated =>
      let phase := if decide (job_Phase job = PhaseBracketing) then PhaseBisecting
                   else job_Phase job in
      bisectOrFinish (mkJob (job_Spec job) phase n (job_BracketLoRequested job)
                        (job_BracketLoAchieved job) (stp_RequestedQPS step) (job_Result job))
  | ClassificationClean =>
      let job' := mkJob (job_Spec job) (job_Phase job) n (stp_RequestedQPS step)
                    (stp_AchievedQPS step) (job_BracketHiRequested job) (job_Result job) in
      if decide (job_Phase job = PhaseBracketing) then doubleOrFinish job'
      else bisectOrFinish job'
  end.

(** ** The job ledger *)
Record CalibrationJob := mkCalibrationJob {
  cj_ID : Z;
  cj_ExecutionID : Z;
  cj_ScenarioID : Z;
  cj_Phase : Phase;
  cj_StepCount : Z;
  cj_BracketLoRequested : float64;
  cj_BracketLoAchieved : float64;
  cj_BracketHiRequested : float64;
  cj_NextRequestedQPS : float64;
  cj_Result : option Result;
  cj_FailureReason : string;
  cj_CreatedTime : time
}.

Record CalibrationTable := mkCalibrationTable {
  calibrationJobSeq : Z;
  calibrationJobs : gmap Z CalibrationJob;
  calibrationSteps : gmap Z (list Step);
  calibrationClaimedAt : gmap Z time
}.

Definition empty_calibrations : CalibrationTable := mkCalibrationTable 0 ∅ ∅ ∅.

Definition CreateCalibrationJob (now : time) (executionID scenarioID : Z) (t : CalibrationTable) :
    Z * CalibrationTable :=
  let id := calibrationJobSeq t + 1 in
  let job := mkCalibrationJob id executionID scenarioID PhasePending 0 fzero fzero fzero fzero
               None "" now in
  (id, mkCalibrationTable id (<[id := job]> (calibrationJobs t)) (calibrationSteps t)
         (calibrationClaimedAt t)).

Definition GetCalibrationJob (id : Z) (t : CalibrationTable) : result error CalibrationJob :=
  match calibrationJobs t !! id with Some job => Ok job | None => Err ErrNotFound end.

Definition job_id_ge (a b : CalibrationJob) : Prop := cj_ID b <= cj_ID a.
#[global] Instance job_id_ge_dec a b : Decision (job_id_ge a b).
Proof. unfold job_id_ge. apply _. Defined.

Definition ListCalibrationJobsByExecution (executionID : Z) (t : CalibrationTable) :
    list CalibrationJob :=
  merge_sort job_id_ge
    (filter (λ job, cj_ExecutionID job = executionID) (map_to_list (calibrationJobs t)).*2).

Definition terminal (p : Phase) : bool :=
  match p with
  | PhasePending | PhaseBracketing | PhaseBisecting => false
  | PhaseDone | PhaseFailed => true
  end.

(** A job whose phase is open and whose claim has expired or was cleared. *)
Definition claimable (now : time) (leaseFor : duration) (t : CalibrationTable)
    (job : CalibrationJob) : Prop :=
  terminal (cj_Phase job) = false ∧
  match calibrationClaimedAt t !! cj_ID job with
  | Some claimedAt => After claimedAt (time_Add now (- leaseFor)) = false
  | None => True
  end.
#[global] Instance claimable_dec now lease t job : Decision (claimable now lease t job).
Proof. unfold claimable. destruct (calibrationClaimedAt t !! cj_ID job); apply _. Defined.

Definition job_id_le (a b : CalibrationJob) : Prop := cj_ID a <= cj_ID b.
#[global] Instance job_id_le_dec a b : Decision (job_id_le a b).
Proof. unfold job_id_le. apply _. Defined.

Definition ClaimNextStep (now : time) (leaseFor : duration) (t : CalibrationTable) :
    option CalibrationJob * CalibrationTable :=
  let candidates := filter (claimable now leaseFor t) (map_to_list (calibrationJobs t)).*2 in
  match merge_sort job_id_le candidates with
  | [] => (None, t)
  | job :: _ =>
      (Some job, mkCalibrationTable (calibrationJobSeq t) (calibrationJobs t)
                   (calibrationSteps t) (<[cj_ID job := now]> (calibrationClaimedAt t)))
  end.

Definition cj_with_ID (j : CalibrationJob) (id : Z) : CalibrationJob :=
  mkCalibrationJob id (cj_ExecutionID j) (cj_ScenarioID j) (cj_Phase j) (cj_StepCount j)
    (cj_BracketLoRequested j) (cj_BracketLoAchieved j) (cj_BracketHiRequested j)
    (cj_NextRequestedQPS j) (cj_Result j) (cj_FailureReason j) (cj_CreatedTime j).

Definition RecordStep (jobID : Z) (step : Step) (updated : CalibrationJob) (t : CalibrationTable) :
    result error unit * CalibrationTable :=
  match calibrationJobs t !! jobID with
  | None => (Err ErrNotFound, t)
  | Some _ =>
      (Ok tt, mkCalibrationTable (calibrationJobSeq t)
                (<[jobID := cj_with_ID updated jobID]> (calibrationJobs t))
                (<[jobID := default [] (calibrationSteps t !! jobID) ++ [step]]>
                   (calibrationSteps t))
                (delete jobID (calibrationClaimedAt t)))
  end.

Definition StepsFor (jobID : Z) (t : CalibrationTable) : list Step :=
  default [] (calibrationSteps t !! jobID).

Definition MarkFailed (jobID : Z) (reason : string) (t : CalibrationTable) :
    result error unit * CalibrationTable :=
  match calibrationJobs t !! jobID with
  | None => (Err ErrNotFound, t)
  | Some j =>
      (Ok tt, mkCalibrationTable (calibrationJobSeq t)
                (<[jobID := mkCalibrationJob (cj_ID j) (cj_ExecutionID j) (cj_ScenarioID j)
                     PhaseFailed (cj_StepCount j) (cj_BracketLoRequested j)
                     (cj_BracketLoAchieved j) (cj_BracketHiRequested j) (cj_NextRequestedQPS j)
                     (cj_Result j) reason (cj_CreatedTime j)]> (calibrationJobs t))
                (calibrationSteps t) (delete jobID (calibrationClaimedAt t)))
  end.

(** ** Properties of the search *)

(** The caller's loop: run the prescribed step in an environment that
    classifies it, feed it to [Next]; the steps taken are returned in order. *)
Fixpoint search (env : list Step → float64 → float64 * Classification) (fuel : nat)
    (taken : list Step) (job : Job) (act : Action) : list Step * Job * Action :=
  match fuel with
  | O => (taken, job, act)
  | S fuel =>
      if act_Done act then (taken, job, act)
      else
        let qps := act_NextRequestedQPS act in
        let '(achieved, cls) := env taken qps in
        let step := mkStep qps achieved cls in
        let '(job', act') := Next job step in
        search env fuel (taken ++ [step]) job' act'
  end.

(** What the fields of a job say of the steps that led to it. *)
Definition last_clean (steps : list Step) : float64 :=
  default fzero (stp_AchievedQPS <$>
    last (filter (λ s, stp_Classification s = ClassificationClean) steps)).

Definition all_clean (steps : list Step) : Prop :=
  Forall (λ s, stp_Classification s = ClassificationClean) steps.

Inductive explained (steps : list Step) : option Result → Prop :=
| explained_open : explained steps None
| explained_target s init :
    steps = init ++ [s] → stp_Classification s = ClassificationTargetSaturated →
    explained steps (Some (mkResult SaturatedByTarget (stp_AchievedQPS s)))
| explained_engine s :
    s ∈ steps → stp_Classification s = ClassificationEngineSaturated →
    explained steps (Some (mkResult SaturatedByEngine (last_clean steps)))
| explained_neither :
    steps ≠ [] → all_clean steps →
    explained steps (Some (mkResult SaturatedByNeither (last_clean steps))).

(** The invariant of an open search after the steps [steps]. *)
Record searching (spec : Spec) (steps : list Step) (job : Job) : Prop := {
  srch_spec : job_Spec job = spec;
  srch_count : job_StepCount job = Z.of_nat (length steps) ∧ job_StepCount job < sp_MaxSteps spec;
  srch_lo : job_BracketLoAchieved job = last_clean steps;
  srch_result : job_Result job = None;
  srch_phase : job_Phase job = PhaseBracketing ∧ all_clean steps ∨
    job_Phase job = PhaseBisecting ∧
    ∃ s, s ∈ steps ∧ stp_Classification s = ClassificationEngineSaturated
}.

Lemma last_clean_snoc steps s :
  last_clean (steps ++ [s]) =
    if decide (stp_Classification s = ClassificationClean) then stp_AchievedQPS s
    else last_clean steps.
Proof.
  unfold last_clean. rewrite filter_app, filter_cons, filter_nil.
  case_decide; [by rewrite last_snoc|by rewrite app_nil_r].
Qed.

(** After a step the search is open within its budget, or done and explained. *)
Definition stepped (spec : Spec) (steps : list Step) (ja : Job * Action) : Prop :=
  let '(job, act) := ja in
  (act_Done act = false ∧ searching spec steps job) ∨
  (act_Done act = true ∧ job_Phase job = PhaseDone ∧ job_Result job ≠ None ∧
   explained steps (job_Result job)).

(** The step budget fits Go's [int]. *)
Definition budget_ok (spec : Spec) : Prop := 0 < sp_MaxSteps spec <= int64_max.

Section search_facts.
Context (spec : Spec).

Lemma double_stepped steps job :
  job_Spec job = spec → job_StepCount job = Z.of_nat (length steps) →
  job_BracketLoAchieved job = last_clean steps → job_Result job = None →
  job_Phase job = PhaseBracketing → all_clean steps → steps ≠ [] →
  stepped spec steps (doubleOrFinish job).
Proof using.
  intros <- Hc Hlo Hr Hp Hall Hne. unfold doubleOrFinish.
  destruct (fgt _ _ || _) eqn:E; simpl; [right|left].
  - repeat split; [done..|]. rewrite Hlo. by constructor.
  - apply orb_false_iff in E as [_ E%Z.leb_gt]. split; [done|]. split; auto.
Qed.

Lemma bisect_stepped steps job s :
  job_Spec job = spec → job_StepCount job = Z.of_nat (length steps) →
  job_BracketLoAchieved job = last_clean steps → job_Result job = None →
  job_Phase job = PhaseBisecting → s ∈ steps →
  stp_Classification s = ClassificationEngineSaturated →
  stepped spec steps (bisectOrFinish job).
Proof using.
  intros <- Hc Hlo Hr Hp Hin Hs. unfold bisectOrFinish.
  destruct (fle _ _ || _) eqn:E; simpl; [right|left].
  - repeat split; [done..|]. rewrite Hlo. by econstructor.
  - apply orb_false_iff in E as [_ E%Z.leb_gt]. split; [done|]. split; eauto.
Qed.

Context (Hbudget : budget_ok spec).

Lemma Next_stepped steps job s :
  searching spec steps job → stepped spec (steps ++ [s]) (Next job s).
Proof using Hbudget.
  intros [Hspec [Hc Hlt] Hlo Hr Hp]. unfold budget_ok, int64_max in Hbudget.
  assert (wrap64 (job_StepCount job + 1) = Z.of_nat (length (steps ++ [s]))) as Hn.
  { rewrite wrap64_small, length_app; simpl; [lia|].
    unfold in_int64, int64_min, int64_max. lia. }
  assert (s ∈ steps ++ [s]) as Hs by (apply elem_of_app; right; by left).
  unfold Next. destruct (stp_Classification s) eqn:Hcl.
  - eapply bisect_stepped; simpl; try done.
    + rewrite Hlo, last_clean_snoc, decide_False; [done|congruence].
    + destruct Hp as [[-> _]|[-> _]]; done.
  - right. repeat split; try done. simpl. by eapply explained_target.
  - assert (last_clean (steps ++ [s]) = stp_AchievedQPS s) as Hcs
      by (by rewrite last_clean_snoc, decide_True).
    destruct Hp as [[-> Hall]|[-> (s' & Hin & Hs')]].
    + rewrite decide_True by done. apply double_stepped; simpl; try done.
      * apply Forall_app. split; [done|]. by apply Forall_singleton.
      * by destruct steps.
    + rewrite decide_False by done. apply (bisect_stepped _ _ s'); simpl; try done.
      apply elem_of_app. by left.
Qed.

Lemma search_stepped env fuel taken job act :
  stepped spec taken (job, act) →
  let '(taken', job', act') := search env fuel taken job act in
  stepped spec taken' (job', act') ∧ taken `prefix_of` taken' ∧
  (act_Done act' = false → Z.of_nat (length taken') = Z.of_nat (length taken) + Z.of_nat fuel).
Proof using Hbudget.
  revert taken job act. induction fuel as [|fuel IH]; intros taken job act Hst; simpl.
  { split; [done|]. split; [done|lia]. }
  destruct (act_Done act) eqn:Hd.
  { split; [done|]. split; [done|]. rewrite Hd. done. }
  destruct Hst as [[_ Hst]|[Hd' _]]; [|congruence].
  destruct (env taken (act_NextRequestedQPS act)) as [ach cls].
  set (step := mkStep _ _ _). pose proof (Next_stepped taken job step Hst) as Hn.
  destruct (Next job step) as [job' act']. specialize (IH (taken ++ [step]) job' act' Hn).
  destruct (search env fuel (taken ++ [step]) job' act') as [[taken' job''] act''].
  destruct IH as (? & Hpre & Hlen). split; [done|]. split.
  - etrans; [|exact Hpre]. by apply prefix_app_r.
  - intros Hf. rewrite Hlen, length_app by done. simpl. lia.
Qed.
End search_facts.


(** An engine that sustains 40 requests per second. *)
Definition forty (_ : list Step) (qps : float64) : float64 * Classification :=
  if fle qps (of_int 40) then (qps, ClassificationClean)
  else (of_int 40, ClassificationEngineSaturated).
Definition default_spec : Spec := WithDefaults (mkSpec "failures>5%" "1" "1Gi" fzero fzero 0 0).

Lemma default_budget_ok : budget_ok default_spec.
Proof. split; reflexivity || (intros H; discriminate H). Qed.


(** ** Claims *)
#[global] Instance job_id_le_total : Total job_id_le.
Proof. intros a b. unfold job_id_le. lia. Qed.
#[global] Instance job_id_le_trans : Transitive job_id_le.
Proof. intros a b c. unfold job_id_le. lia. Qed.

Lemma ClaimNextStep_spec now lease t j t' :
  ClaimNextStep now lease t = (Some j, t') →
  j ∈ (map_to_list (calibrationJobs t)).*2 ∧ claimable now lease t j ∧
  (∀ k, k ∈ (map_to_list (calibrationJobs t)).*2 → claimable now lease t k → cj_ID j <= cj_ID k) ∧
  calibrationClaimedAt t' = <[cj_ID j := now]> (calibrationClaimedAt t) ∧
  calibrationJobs t' = calibrationJobs t ∧ calibrationSteps t' = calibrationSteps t.
Proof.
  unfold ClaimNextStep. destruct (merge_sort _ _) as [|j0 rest] eqn:E; [done|].
  intros [= -> <-].
  assert (∀ k, k ∈ j :: rest ↔ claimable now lease t k ∧
    k ∈ (map_to_list (calibrationJobs t)).*2) as Hin.
  { intros k. by rewrite <- E, merge_sort_Permutation, list_elem_of_filter. }
  assert (StronglySorted job_id_le (j :: rest)) as Hs
    by (rewrite <- E; apply StronglySorted_merge_sort; apply _).
  destruct (proj1 (Hin j) ltac:(left)) as [Hc Hj]. repeat split; try done.
  - apply Hc.
  - apply Hc.
  - intros k Hk Hkc. assert (k ∈ j :: rest) as Hkin by (by apply Hin).
    apply elem_of_cons in Hkin as [->|Hkin]; [done|].
    inversion Hs as [|? ? _ Hle]; subst. rewrite Forall_forall in Hle. by apply Hle.
Qed.

(** A calibration step is handed to one worker at a time: until the lease
    of a claim has run out, or its step was recorded or failed, no other claim
    returns that job; and a claim takes the open job with the smallest id. *)
Theorem calibration_claim_exclusive now lease t j t' now' j' t'' :
  ClaimNextStep now lease t = (Some j, t') →
  now' < now + lease →
  ClaimNextStep now' lease t' = (Some j', t'') →
  cj_ID j' ≠ cj_ID j ∧ terminal (cj_Phase j') = false ∧
  (∀ k, k ∈ (map_to_list (calibrationJobs t')).*2 → claimable now' lease t' k →
     cj_ID j' <= cj_ID k).
Proof.
  intros (_ & _ & _ & Hcl & _)%ClaimNextStep_spec Hnow (_ & [Hterm Hc] & Hmin & _)%ClaimNextStep_spec.
  repeat split; [|done|done]. intros Heq. rewrite Hcl, Heq, lookup_insert_eq in Hc.
  unfold After, time_Add in Hc. apply bool_decide_eq_false in Hc. lia.
Qed.

Lemma calibration_claim_exclusive_witness :
  let t := (CreateCalibrationJob 0 7 3 (CreateCalibrationJob 0 5 2 empty_calibrations).2).2 in
  let t1 := (ClaimNextStep 100 60 t).2 in
  (cj_ID <$> (ClaimNextStep 100 60 t).1) = Some 1 ∧
  (cj_ID <$> (ClaimNextStep 120 60 t1).1) = Some 2 ∧ (2 ≠ 1)%Z.
Proof.
  intros t t1. split; [vm_compute; reflexivity|]. split; [vm_compute; reflexivity|].
  pose (j i e s := mkCalibrationJob i e s PhasePending 0 fzero fzero fzero fzero None "" 0).
  refine (proj1 (calibration_claim_exclusive 100 60 t (j 1 5 2) t1 120 (j 2 7 3)
    (ClaimNextStep 120 60 t1).2 _ _ _)); [vm_compute; reflexivity|lia|vm_compute; reflexivity].
Defined.
