(* ===== verification/Capacity.v ===== *)
(** * Capacity profiles

    [internal/domain/capacityprofile]: what one engine pod of a given size
    sustains on a scenario, and how many pods a target rate needs.  With it
    the Little's-law sizing of [internal/domain/loadmode] and the in-memory
    tables of [internal/ports/fake/capacity_profile_repository.go] and of a
    calibration's search bounds. *)
From S2P Require Import Prelude Errors GoStrings GoFloat Taurus Calibration.

(** ** The domain *)
Record Key := mkKey { k_ScenarioID : Z; k_Engine : Executor; k_CPU : string; k_Memory : string }.
#[global] Instance Key_eq_dec : EqDecision Key.
Proof. solve_decision. Defined.
#[global] Instance Key_countable : Countable Key :=
  inj_countable' (λ k, (k_ScenarioID k, k_Engine k, k_CPU k, k_Memory k))
    (λ '(a, b, c, d), mkKey a b c d) (λ '(mkKey a b c d), eq_refl).

Record CapacityProfile := mkCapacityProfile {
  cp_Key : Key;
  cp_PerPodQPS : float64;
  cp_SaturatedBy : SaturatedBy;
  cp_ScenarioFingerprint : string;
  cp_CalibratedAt : time;
  cp_JobID : Z
}.

Inductive Status :=
| StatusOK | StatusTargetLimited | StatusInconclusive | StatusEngineFloor | StatusStale
| StatusNoProfile.
#[global] Instance Status_eq_dec : EqDecision Status.
Proof. solve_decision. Defined.
Definition status_string (s : Status) : string :=
  match s with
  | StatusOK => "ok" | StatusTargetLimited => "target_limited"
  | StatusInconclusive => "inconclusive" | StatusEngineFloor => "engine_floor"
  | StatusStale => "stale" | StatusNoProfile => "no_profile"
  end.
Record FanOutResult := mkFanOutResult { fr_Status : Status; fr_Engines : Z }.

Definition FanOut (profile : option CapacityProfile) (targetQPS : float64)
    (currentFingerprint : string) : FanOutResult :=
  match profile with
  | None => mkFanOutResult StatusNoProfile 0
  | Some p =>
      if bool_decide (cp_ScenarioFingerprint p ≠ currentFingerprint)
      then mkFanOutResult StatusStale 0
      else match cp_SaturatedBy p with
           | SaturatedByTarget => mkFanOutResult StatusTargetLimited 0
           | SaturatedByNeither => mkFanOutResult StatusInconclusive 0
           | SaturatedByEngine =>
               if fle (cp_PerPodQPS p) fzero then mkFanOutResult StatusEngineFloor 0
               else mkFanOutResult StatusOK (to_int (fceil (fdiv targetQPS (cp_PerPodQPS p))))
           end
  end.

(** ** Virtual users for a rate ([loadmode.Concurrency]) *)
Definition ConcurrencyFloor : Z := 20.
Definition ConcurrencyHeadroom : float64 := of_int 3.
Definition users_for (requestedQPS latencyHintSec : float64) : Z :=
  if fle latencyHintSec fzero then ConcurrencyFloor
  else
    let c := to_int (fceil (fmul (fmul requestedQPS latencyHintSec) ConcurrencyHeadroom)) in
    if c <? ConcurrencyFloor then ConcurrencyFloor else c.

(** ** The tables *)
Record CalibrationBounds := mkCalibrationBounds {
  cb_SeedQPS : float64; cb_MaxQPS : float64; cb_MaxSteps : Z; cb_HoldSeconds : Z
}.
Record CapacityTable := mkCapacityTable {
  calibrationBounds : gmap Z CalibrationBounds;
  capacityProfiles : gmap Key CapacityProfile
}.
Definition empty_capacity : CapacityTable := mkCapacityTable ∅ ∅.

Definition SetCalibrationBounds (executionID : Z) (b : CalibrationBounds) (t : CapacityTable) :
    CapacityTable :=
  mkCapacityTable (<[executionID := b]> (calibrationBounds t)) (capacityProfiles t).
Definition CalibrationBoundsFor (executionID : Z) (t : CapacityTable) :
    result error CalibrationBounds :=
  match calibrationBounds t !! executionID with Some b => Ok b | None => Err ErrNotFound end.

Definition UpsertCapacityProfile (p : CapacityProfile) (t : CapacityTable) : CapacityTable :=
  mkCapacityTable (calibrationBounds t) (<[cp_Key p := p]> (capacityProfiles t)).
Definition GetCapacityProfile (key : Key) (t : CapacityTable) : result error CapacityProfile :=
  match capacityProfiles t !! key with Some p => Ok p | None => Err ErrNotFound end.

(** By scenario, then engine, cpu and memory. *)
Definition key_le (a b : Key) : Prop :=
  if decide (k_ScenarioID a = k_ScenarioID b) then
    if decide (k_Engine a = k_Engine b) then
      if decide (k_CPU a = k_CPU b) then str_le (k_Memory a) (k_Memory b)
      else str_le (k_CPU a) (k_CPU b)
    else str_le (k_Engine a) (k_Engine b)
  else k_ScenarioID a <= k_ScenarioID b.
Definition profile_le (a b : CapacityProfile) : Prop := key_le (cp_Key a) (cp_Key b).
#[global] Instance profile_le_dec a b : Decision (profile_le a b).
Proof. unfold profile_le, key_le. repeat case_decide; apply _. Defined.
Definition ListCapacityProfiles (t : CapacityTable) : list CapacityProfile :=
  merge_sort profile_le (map_to_list (capacityProfiles t)).*2.

(** Sizing never goes below the floor. *)
Lemma users_for_floor qps hint : ConcurrencyFloor <= users_for qps hint.
Proof. unfold users_for, ConcurrencyFloor. destruct (fle _ _); [lia|]. cbv zeta. case_match; lia. Qed.

(** An engine count is given only for a fresh, engine-limited measurement. *)
Lemma FanOut_OK profile qps fp :
  fr_Status (FanOut profile qps fp) = StatusOK ↔
  ∃ p, profile = Some p ∧ cp_ScenarioFingerprint p = fp ∧
    cp_SaturatedBy p = SaturatedByEngine ∧ fle (cp_PerPodQPS p) fzero = false.
Proof.
  unfold FanOut. destruct profile as [p|]; [|split; [done|by intros (? & ? & _)]].
  destruct (bool_decide_reflect (cp_ScenarioFingerprint p ≠ fp)) as [Hf|Hf].
  { split; [done|]. by intros (? & [= <-] & ? & _). }
  apply dec_stable in Hf. destruct (cp_SaturatedBy p) eqn:Hs.
  - destruct (fle _ _) eqn:Hq; cbn; (split; [|]); try done; [|by eauto].
    intros (? & [= <-] & _ & _ & ?). congruence.
  - split; [done|]. intros (? & [= <-] & _ & ? & _). congruence.
  - split; [done|]. intros (? & [= <-] & _ & ? & _). congruence.
Qed.
