(* ===== verification/Directory.v ===== *)
(** * Tenants and role grants ([internal/ports/fake/rbac_repository.go])

    The tenant table and the list of role assignments the shared store keeps. *)
From S2P Require Import Prelude Errors GoStrings Rbac.

(** [ports.RoleGrant], the entry read back from the store, and the resolved
    grants of a subject. *)
Record RoleGrant := mkGrant {
  g_Subject : string;
  g_Email : string;
  g_RoleName : string;
  g_TenantID : option Z;
  g_GrantedBy : string
}.
Record RoleGrantEntry := mkGrantEntry {
  ge_Subject : string;
  ge_Email : string;
  ge_RoleName : string;
  ge_GrantedBy : string;
  ge_GrantedTime : time
}.
Record RoleGrants := mkGrants { gs_Global : list string; gs_Tenants : gmap Z (list string) }.
Record grantRecord := mkRecord { gr_g : RoleGrant; gr_at : time }.

Record Directory := mkDirectory {
  tenantSeq : Z;
  tenants : gmap Z Tenant.Tenant;
  grants : list grantRecord
}.
Definition empty_directory : Directory := mkDirectory 0 ∅ [].

(** ** Tenants *)
Definition CreateTenant (now : time) (t : Tenant.Tenant) (d : Directory) :
    result error Z * Directory :=
  if existsb (λ existing, bool_decide (Tenant.Name existing = Tenant.Name t))
       (map_to_list (tenants d)).*2
  then (Err ErrFileExists, d)
  else
    let id := tenantSeq d + 1 in
    let created := Tenant.CreatedTime t in
    let t := Tenant.mkTenant id (Tenant.Name t) (Tenant.DisplayName t) (Tenant.Status t)
               (if IsZero created then now else created) in
    (Ok id, mkDirectory id (<[id := t]> (tenants d)) (grants d)).

Definition GetTenant (id : Z) (d : Directory) : result error Tenant.Tenant :=
  match tenants d !! id with Some t => Ok t | None => Err ErrNotFound end.

Definition tenant_id_le (a b : Tenant.Tenant) : Prop := Tenant.ID a <= Tenant.ID b.
#[global] Instance tenant_id_le_dec a b : Decision (tenant_id_le a b).
Proof. unfold tenant_id_le. apply _. Defined.
Definition ListTenants (d : Directory) : list Tenant.Tenant :=
  merge_sort tenant_id_le (map_to_list (tenants d)).*2.

Definition SetTenantStatus (id : Z) (status : string) (d : Directory) :
    result error unit * Directory :=
  match tenants d !! id with
  | None => (Err ErrNotFound, d)
  | Some t =>
      let t := Tenant.mkTenant (Tenant.ID t) (Tenant.Name t) (Tenant.DisplayName t) status
                 (Tenant.CreatedTime t) in
      (Ok tt, mkDirectory (tenantSeq d) (<[id := t]> (tenants d)) (grants d))
  end.

(** ** Role grants *)
Definition sameGrant (g : RoleGrant) (subject roleName : string) (tenantID : option Z) : bool :=
  if negb (bool_decide (g_Subject g = subject)) || negb (bool_decide (g_RoleName g = roleName))
  then false
  else match g_TenantID g, tenantID with
       | None, None => true
       | None, Some _ | Some _, None => false
       | Some a, Some b => a =? b
       end.

Definition AssignGrant (now : time) (g : RoleGrant) (d : Directory) : Directory :=
  if existsb (λ existing, sameGrant (gr_g existing) (g_Subject g) (g_RoleName g) (g_TenantID g))
       (grants d)
  then d
  else mkDirectory (tenantSeq d) (tenants d) (grants d ++ [mkRecord g now]).

Definition RevokeGrant (subject roleName : string) (tenantID : option Z) (d : Directory) :
    Directory :=
  mkDirectory (tenantSeq d) (tenants d)
    (filter (λ existing, sameGrant (gr_g existing) subject roleName tenantID = false) (grants d)).

Definition roles_step (subject : string) (out : RoleGrants) (rec : grantRecord) : RoleGrants :=
  let g := gr_g rec in
  if negb (bool_decide (g_Subject g = subject)) then out
  else match g_TenantID g with
       | None => mkGrants (gs_Global out ++ [g_RoleName g]) (gs_Tenants out)
       | Some t =>
           mkGrants (gs_Global out)
             (<[t := default [] (gs_Tenants out !! t) ++ [g_RoleName g]]> (gs_Tenants out))
       end.
Definition RolesFor (subject : string) (d : Directory) : RoleGrants :=
  fold_left (roles_step subject) (grants d) (mkGrants [] ∅).

Definition entry_le (a b : RoleGrantEntry) : Prop :=
  if decide (ge_Subject a = ge_Subject b) then str_le (ge_RoleName a) (ge_RoleName b)
  else str_le (ge_Subject a) (ge_Subject b).
#[global] Instance entry_le_dec a b : Decision (entry_le a b).
Proof. unfold entry_le. case_decide; apply _. Defined.
Definition grant_entry (rec : grantRecord) : RoleGrantEntry :=
  mkGrantEntry (g_Subject (gr_g rec)) (g_Email (gr_g rec)) (g_RoleName (gr_g rec))
    (g_GrantedBy (gr_g rec)) (gr_at rec).
Definition ListTenantGrants (tenantID : Z) (d : Directory) : list RoleGrantEntry :=
  merge_sort entry_le
    (grant_entry <$> filter (λ rec, g_TenantID (gr_g rec) = Some tenantID) (grants d)).

(** ** The assignments as a set *)
Definition scope_of (g : RoleGrant) : string * string * option Z :=
  (g_Subject g, g_RoleName g, g_TenantID g).
Definition assigned (d : Directory) : gset (string * string * option Z) :=
  list_to_set ((λ rec, scope_of (gr_g rec)) <$> grants d).

Lemma sameGrant_iff g subject roleName tenantID :
  sameGrant g subject roleName tenantID = true ↔ scope_of g = (subject, roleName, tenantID).
Proof.
  unfold sameGrant, scope_of. destruct (g_TenantID g), tenantID; repeat case_bool_decide; cbn;
    rewrite ?Z.eqb_eq; naive_solver.
Qed.

Lemma elem_of_assigned d x : x ∈ assigned d ↔ ∃ rec, rec ∈ grants d ∧ scope_of (gr_g rec) = x.
Proof. unfold assigned. rewrite elem_of_list_to_set, list_elem_of_fmap. naive_solver. Qed.

Lemma assigned_AssignGrant now g d : assigned (AssignGrant now g d) = {[scope_of g]} ∪ assigned d.
Proof.
  unfold AssignGrant. destruct (existsb _ _) eqn:E.
  - apply existsb_elem in E as (rec & Hrec & Hs). apply sameGrant_iff in Hs.
    assert (scope_of g ∈ assigned d) by (apply elem_of_assigned; by exists rec). set_solver.
  - unfold assigned. cbn [grants]. rewrite fmap_app, list_to_set_app_L. cbn. set_solver.
Qed.

Lemma assigned_RevokeGrant subject roleName tenantID d :
  assigned (RevokeGrant subject roleName tenantID d) =
  assigned d ∖ {[(subject, roleName, tenantID)]}.
Proof.
  apply set_eq. intros x. rewrite elem_of_difference, elem_of_singleton, !elem_of_assigned.
  unfold RevokeGrant. cbn [grants]. setoid_rewrite list_elem_of_filter.
  setoid_rewrite <- not_true_iff_false. setoid_rewrite sameGrant_iff. naive_solver.
Qed.

Lemma roles_step_spec subject out rec :
  (∀ name, name ∈ gs_Global (roles_step subject out rec) ↔
     name ∈ gs_Global out ∨ scope_of (gr_g rec) = (subject, name, None)) ∧
  (∀ t name, name ∈ default [] (gs_Tenants (roles_step subject out rec) !! t) ↔
     name ∈ default [] (gs_Tenants out !! t) ∨ scope_of (gr_g rec) = (subject, name, Some t)).
Proof.
  unfold roles_step, scope_of. case_bool_decide as Hs; cbn [negb].
  - destruct (g_TenantID (gr_g rec)) as [t0|] eqn:Ht; cbn [gs_Global gs_Tenants].
    + split; [intros name; split; [by left|by intros [?|[=]]]|].
      intros t name. destruct (decide (t0 = t)) as [->|Hne].
      * rewrite lookup_insert_eq. cbn [from_option id]. rewrite elem_of_app, list_elem_of_singleton.
        split; (intros [?|Heq]; [by left|right]); congruence.
      * rewrite lookup_insert_ne by done. split; [by left|]. intros [?|[=]]; done.
    + split; [|intros t name; split; [by left|by intros [?|[=]]]].
      intros name. rewrite elem_of_app, list_elem_of_singleton.
      split; (intros [?|Heq]; [by left|right]); congruence.
  - split; intros; (split; [by left|intros [?|[=]]; done]).
Qed.

(** What a subject's resolved grants hold. *)
Lemma RolesFor_spec subject d :
  (∀ name, name ∈ gs_Global (RolesFor subject d) ↔ (subject, name, None) ∈ assigned d) ∧
  (∀ t name, name ∈ default [] (gs_Tenants (RolesFor subject d) !! t) ↔
             (subject, name, Some t) ∈ assigned d).
Proof.
  assert (∀ l out,
    (∀ name, name ∈ gs_Global (fold_left (roles_step subject) l out) ↔
       name ∈ gs_Global out ∨ ∃ rec, rec ∈ l ∧ scope_of (gr_g rec) = (subject, name, None)) ∧
    (∀ t name, name ∈ default [] (gs_Tenants (fold_left (roles_step subject) l out) !! t) ↔
       name ∈ default [] (gs_Tenants out !! t) ∨
       ∃ rec, rec ∈ l ∧ scope_of (gr_g rec) = (subject, name, Some t))) as H.
  { induction l as [|rec l IH]; intros out; cbn [fold_left]; [set_solver|].
    destruct (IH (roles_step subject out rec)) as [IHg IHt].
    destruct (roles_step_spec subject out rec) as [Hg Ht].
    split; [intros name; rewrite (IHg name), (Hg name)|intros t name; rewrite (IHt t name), (Ht t name)];
      setoid_rewrite elem_of_cons; naive_solver. }
  destruct (H (grants d) (mkGrants [] ∅)) as [Hg Ht]. setoid_rewrite elem_of_assigned.
  split; [intros name; rewrite (Hg name)|intros t name; rewrite (Ht t name)]; cbn; set_solver.
Qed.
