(* ===== verification/Store.v ===== *)
(** * The shared store ([internal/ports/fake/repository.go])

    The in-memory repository the services share: the catalogue (projects,
    scenarios, executions and their load profiles), the engine idle clock, and
    the tables modelled in their own files (runs, reservations, campaigns,
    schedules, calibration jobs, launches).  Every method takes the store's
    mutex, so each is one atomic step; [now] is the store's clock. *)
From S2P Require Import Prelude Errors LoadProfile Taurus Scenario Execution Reservation Quota.
From S2P Require Import Campaign RunTable Schedule Calibration Capacity Directory.
Import Project Scenario.Scenario.

(** Projects, scenarios and executions, with what is attached to them. *)
Record Catalog := mkCatalog {
  projectSeq : Z;
  projects : gmap Z Project;
  planSeq : Z;
  scenarios : gmap Z Scenario;
  planTest : gmap Z string;
  planData : gmap Z (gset string);
  scenarioRequests : gmap Z string;
  collSeq : Z;
  executions : gmap Z Execution;
  execData : gmap Z (gset string);
  exec : gmap Z (list Entry);
  execCriteria : gmap Z (list string)
}.

(** The engine idle clock, and the trace id a deploy leaves for the next run. *)
Record Activity := mkActivity {
  pendingCorrelation : gmap Z string;
  lastActivity : gmap Z time;
  touchCount : gmap Z Z
}.

(** [openLaunch] holds pointers into [launchHistory]: here, positions. *)
Record LaunchRecord := mkLaunch {
  lr_ExecutionID : Z;
  lr_Context : string;
  lr_Owner : string;
  lr_Engines : Z;
  lr_VU : Z;
  lr_StartedTime : time;
  lr_EndTime : option time
}.
Record Launches := mkLaunches {
  deployContext : string;
  openLaunch : gmap Z nat;
  launchHistory : list LaunchRecord
}.

Record Store := mkStore {
  st_catalog : Catalog;
  st_activity : Activity;
  st_launches : Launches;
  st_runs : RunTables;
  st_ledger : Ledger;
  st_campaigns : CampaignTable;
  st_schedules : ScheduleTable;
  st_calibrations : CalibrationTable;
  st_capacity : CapacityTable;
  st_directory : Directory
}.

Definition empty_catalog : Catalog := mkCatalog 0 ∅ 0 ∅ ∅ ∅ ∅ 0 ∅ ∅ ∅ ∅.
Definition NewStore : Store :=
  mkStore empty_catalog (mkActivity ∅ ∅ ∅) (mkLaunches "default" ∅ []) empty_runs empty_ledger
    (mkCampaignTable 0 ∅) empty_schedules empty_calibrations
    empty_capacity empty_directory.

Definition set_catalog (c : Catalog) (s : Store) : Store :=
  mkStore c (st_activity s) (st_launches s) (st_runs s) (st_ledger s) (st_campaigns s)
    (st_schedules s) (st_calibrations s) (st_capacity s) (st_directory s).
Definition set_activity (a : Activity) (s : Store) : Store :=
  mkStore (st_catalog s) a (st_launches s) (st_runs s) (st_ledger s) (st_campaigns s)
    (st_schedules s) (st_calibrations s) (st_capacity s) (st_directory s).
Definition set_launches (l : Launches) (s : Store) : Store :=
  mkStore (st_catalog s) (st_activity s) l (st_runs s) (st_ledger s) (st_campaigns s)
    (st_schedules s) (st_calibrations s) (st_capacity s) (st_directory s).
Definition set_runs (t : RunTables) (s : Store) : Store :=
  mkStore (st_catalog s) (st_activity s) (st_launches s) t (st_ledger s) (st_campaigns s)
    (st_schedules s) (st_calibrations s) (st_capacity s) (st_directory s).
Definition set_ledger (l : Ledger) (s : Store) : Store :=
  mkStore (st_catalog s) (st_activity s) (st_launches s) (st_runs s) l (st_campaigns s)
    (st_schedules s) (st_calibrations s) (st_capacity s) (st_directory s).
Definition set_campaigns (t : CampaignTable) (s : Store) : Store :=
  mkStore (st_catalog s) (st_activity s) (st_launches s) (st_runs s) (st_ledger s) t
    (st_schedules s) (st_calibrations s) (st_capacity s) (st_directory s).
Definition set_schedules (t : ScheduleTable) (s : Store) : Store :=
  mkStore (st_catalog s) (st_activity s) (st_launches s) (st_runs s) (st_ledger s)
    (st_campaigns s) t (st_calibrations s) (st_capacity s) (st_directory s).
Definition set_calibrations (t : CalibrationTable) (s : Store) : Store :=
  mkStore (st_catalog s) (st_activity s) (st_launches s) (st_runs s) (st_ledger s)
    (st_campaigns s) (st_schedules s) t (st_capacity s) (st_directory s).
Definition set_capacity (t : CapacityTable) (s : Store) : Store :=
  mkStore (st_catalog s) (st_activity s) (st_launches s) (st_runs s) (st_ledger s)
    (st_campaigns s) (st_schedules s) (st_calibrations s) t (st_directory s).
Definition set_directory (d : Directory) (s : Store) : Store :=
  mkStore (st_catalog s) (st_activity s) (st_launches s) (st_runs s) (st_ledger s)
    (st_campaigns s) (st_schedules s) (st_calibrations s) (st_capacity s) d.

(** ** Reads *)
Definition GetProject (id : Z) (s : Store) : result error Project :=
  match projects (st_catalog s) !! id with Some p => Ok p | None => Err ErrNotFound end.
Definition GetScenario (id : Z) (s : Store) : result error Scenario :=
  match scenarios (st_catalog s) !! id with Some p => Ok p | None => Err ErrNotFound end.
Definition GetExecution (id : Z) (s : Store) : result error Execution :=
  match executions (st_catalog s) !! id with Some c => Ok c | None => Err ErrNotFound end.
(** An execution without a profile, or no execution at all, reads as empty. *)
Definition LoadProfileFor (executionID : Z) (s : Store) : list Entry :=
  default [] (exec (st_catalog s) !! executionID).
Definition CriteriaFor (executionID : Z) (s : Store) : list string :=
  default [] (execCriteria (st_catalog s) !! executionID).

Record ScenarioFiles := mkScenarioFiles { sf_TestFile : string; sf_Data : list string }.
Definition ScenarioFilesFor (scenarioID : Z) (s : Store) : ScenarioFiles :=
  mkScenarioFiles (default "" (planTest (st_catalog s) !! scenarioID))
    (elements (default ∅ (planData (st_catalog s) !! scenarioID))).
Definition GetScenarioRequests (scenarioID : Z) (s : Store) : result error string :=
  match scenarioRequests (st_catalog s) !! scenarioID with
  | Some raw => Ok raw
  | None => Err ErrNotFound
  end.

(** A scenario is in use when some stored load profile names it. *)
Definition ScenarioInUse (scenarioID : Z) (s : Store) : bool :=
  existsb (λ entries, existsb (λ ep, ScenarioID ep =? scenarioID) entries)
    (map_to_list (exec (st_catalog s))).*2.

Definition exe_id_le (a b : Execution) : Prop := exe_ID a <= exe_ID b.
#[global] Instance exe_id_le_dec a b : Decision (exe_id_le a b).
Proof. unfold exe_id_le. apply _. Defined.
Definition ListExecutionsByProject (projectID : Z) (s : Store) : list Execution :=
  merge_sort exe_id_le
    (filter (λ c, exe_ProjectID c = projectID) (map_to_list (executions (st_catalog s))).*2).

Definition ListScenariosByProject (projectID : Z) (s : Store) : list Scenario :=
  filter (λ p, scn_ProjectID p = projectID) (map_to_list (scenarios (st_catalog s))).*2.
Definition scn_id_le (a b : Scenario) : Prop := scn_ID a <= scn_ID b.
#[global] Instance scn_id_le_dec a b : Decision (scn_id_le a b).
Proof. unfold scn_id_le. apply _. Defined.
Definition ListTemplates (s : Store) : list Scenario :=
  merge_sort scn_id_le
    (filter (λ p, scn_IsTemplate p = true) (map_to_list (scenarios (st_catalog s))).*2).
Definition all_projects (s : Store) : list Project := (map_to_list (projects (st_catalog s))).*2.
Definition ListProjectsByOwners (owners : list string) (s : Store) : list Project :=
  filter (λ p, prj_Owner p ∈ owners) (all_projects s).
Definition ListProjectsByTenants (tenantIDs : list Z) (s : Store) : list Project :=
  filter (λ p, match prj_TenantID p with
               | None => false
               | Some t => bool_decide (t ∈ tenantIDs)
               end = true) (all_projects s).
(** Newest first, the higher id first among equals. *)
Definition exe_newest (a b : Execution) : Prop :=
  if decide (exe_CreatedTime a = exe_CreatedTime b) then exe_ID b <= exe_ID a
  else After (exe_CreatedTime a) (exe_CreatedTime b) = true.
#[global] Instance exe_newest_dec a b : Decision (exe_newest a b).
Proof. unfold exe_newest. case_decide; apply _. Defined.
Definition ListExecutionsByProjects (projectIDs : list Z) (s : Store) : list Execution :=
  merge_sort exe_newest
    (filter (λ c, exe_ProjectID c ∈ projectIDs) (map_to_list (executions (st_catalog s))).*2).
Definition binds_scenario (scenarioID : Z) (s : Store) (id : Z) : bool :=
  existsb (λ entry, ScenarioID entry =? scenarioID) (LoadProfileFor id s).
Definition ListExecutionsByScenario (scenarioID : Z) (s : Store) : list Execution :=
  merge_sort exe_newest
    (filter (λ kv : Z * Execution, binds_scenario scenarioID s kv.1 = true)
       (map_to_list (executions (st_catalog s)))).*2.
Definition ExecutionFilesFor (executionID : Z) (s : Store) : list string :=
  elements (default ∅ (execData (st_catalog s) !! executionID)).

Definition runs_on (cluster : string) (exe : Execution) : bool :=
  bool_decide (exe_Cluster exe = cluster) || bool_decide (cluster ∈ exe_FanOutTargets exe).
Definition ExecutionsWithActiveRunOnCluster (cluster : string) (s : Store) : list Z :=
  merge_sort Z.le
    (filter (λ kv : Z * Execution, runs_on cluster kv.2 = true ∧
                is_Some (currentRun (st_runs s) !! kv.1))
       (map_to_list (executions (st_catalog s)))).*1.

(** ** Writes

    Each field of the catalogue has its own setter. *)
Definition put_projects (n : Z) (m : gmap Z Project) (c : Catalog) : Catalog :=
  mkCatalog n m (planSeq c) (scenarios c) (planTest c) (planData c) (scenarioRequests c) (collSeq c) (executions c) (execData c) (exec c) (execCriteria c).
Definition put_scenarios (n : Z) (m : gmap Z Scenario) (c : Catalog) : Catalog :=
  mkCatalog (projectSeq c) (projects c) n m (planTest c) (planData c) (scenarioRequests c) (collSeq c) (executions c) (execData c) (exec c) (execCriteria c).
Definition put_planTest (m : gmap Z string) (c : Catalog) : Catalog :=
  mkCatalog (projectSeq c) (projects c) (planSeq c) (scenarios c) m (planData c) (scenarioRequests c) (collSeq c) (executions c) (execData c) (exec c) (execCriteria c).
Definition put_planData (m : gmap Z (gset string)) (c : Catalog) : Catalog :=
  mkCatalog (projectSeq c) (projects c) (planSeq c) (scenarios c) (planTest c) m (scenarioRequests c) (collSeq c) (executions c) (execData c) (exec c) (execCriteria c).
Definition put_scenarioRequests (m : gmap Z string) (c : Catalog) : Catalog :=
  mkCatalog (projectSeq c) (projects c) (planSeq c) (scenarios c) (planTest c) (planData c) m (collSeq c) (executions c) (execData c) (exec c) (execCriteria c).
Definition put_execData (m : gmap Z (gset string)) (c : Catalog) : Catalog :=
  mkCatalog (projectSeq c) (projects c) (planSeq c) (scenarios c) (planTest c) (planData c) (scenarioRequests c) (collSeq c) (executions c) m (exec c) (execCriteria c).
Definition put_exec (m : gmap Z (list Entry)) (c : Catalog) : Catalog :=
  mkCatalog (projectSeq c) (projects c) (planSeq c) (scenarios c) (planTest c) (planData c) (scenarioRequests c) (collSeq c) (executions c) (execData c) m (execCriteria c).
Definition put_execCriteria (m : gmap Z (list string)) (c : Catalog) : Catalog :=
  mkCatalog (projectSeq c) (projects c) (planSeq c) (scenarios c) (planTest c) (planData c) (scenarioRequests c) (collSeq c) (executions c) (execData c) (exec c) m.
Definition put_executions (n : Z) (m : gmap Z Execution) (c : Catalog) : Catalog :=
  mkCatalog (projectSeq c) (projects c) (planSeq c) (scenarios c) (planTest c) (planData c) (scenarioRequests c) n m (execData c) (exec c) (execCriteria c).

(** The state change of a catalogue method. *)
Definition upd (f : Catalog → Catalog) (s : Store) : Store := set_catalog (f (st_catalog s)) s.
Definition or_now (now t : time) : time := if IsZero t then now else t.

Definition CreateProject (now : time) (p : Project) (s : Store) : Z * Store :=
  let id := projectSeq (st_catalog s) + 1 in
  let p := mkProject id (prj_Name p) (prj_Owner p) (prj_SID p) (prj_TenantID p) (prj_CreatedBy p)
             (prj_UpdatedBy p) (or_now now (prj_CreatedTime p)) in
  (id, upd (λ c, put_projects id (<[id := p]> (projects c)) c) s).

Definition DeleteProject (id : Z) (s : Store) : result error unit * Store :=
  match projects (st_catalog s) !! id with
  | None => (Err ErrNotFound, s)
  | Some _ => (Ok tt, upd (λ c, put_projects (projectSeq c) (delete id (projects c)) c) s)
  end.

Definition CreateScenario (now : time) (p : Scenario) (s : Store) : Z * Store :=
  let id := planSeq (st_catalog s) + 1 in
  let p := mkScenario id (scn_Name p) (scn_ProjectID p) (scn_Kind p) (scn_Engine p)
             (scn_TenantID p) (scn_CreatedBy p) (scn_UpdatedBy p)
             (or_now now (scn_CreatedTime p)) (scn_IsTemplate p) (scn_TemplateName p) in
  (id, upd (λ c, put_scenarios id (<[id := p]> (scenarios c)) c) s).

Definition DeleteScenario (id : Z) (s : Store) : result error unit * Store :=
  match scenarios (st_catalog s) !! id with
  | None => (Err ErrNotFound, s)
  | Some _ =>
      (Ok tt, upd (λ c,
         put_scenarioRequests (delete id (scenarioRequests c))
           (put_planData (delete id (planData c))
              (put_planTest (delete id (planTest c))
                 (put_scenarios (planSeq c) (delete id (scenarios c)) c)))) s)
  end.

Definition AddScenarioFile (scenarioID : Z) (filename : string) (isTest : bool) (s : Store) :
    result error unit * Store :=
  if isTest then
    match planTest (st_catalog s) !! scenarioID with
    | Some _ => (Err ErrFileExists, s)
    | None => (Ok tt, upd (λ c, put_planTest (<[scenarioID := filename]> (planTest c)) c) s)
    end
  else
    let files := default ∅ (planData (st_catalog s) !! scenarioID) in
    if bool_decide (filename ∈ files) then
      (Err ErrFileExists, upd (λ c, put_planData (<[scenarioID := files]> (planData c)) c) s)
    else
      (Ok tt, upd (λ c, put_planData (<[scenarioID := {[filename]} ∪ files]> (planData c)) c) s).

Definition DeleteScenarioFile (scenarioID : Z) (filename : string) (isTest : bool) (s : Store) :
    result error unit * Store :=
  if isTest then
    if bool_decide (default "" (planTest (st_catalog s) !! scenarioID) ≠ filename)
    then (Err ErrNotFound, s)
    else (Ok tt, upd (λ c, put_planTest (delete scenarioID (planTest c)) c) s)
  else
    let files := default ∅ (planData (st_catalog s) !! scenarioID) in
    if bool_decide (filename ∈ files) then
      (Ok tt, upd (λ c, put_planData (<[scenarioID := files ∖ {[filename]}]> (planData c)) c) s)
    else (Err ErrNotFound, s).

Definition SetScenarioKind (scenarioID : Z) (kind : Scenario.Scenario.Kind) (engine : Executor)
    (s : Store) : result error unit * Store :=
  match scenarios (st_catalog s) !! scenarioID with
  | None => (Err ErrNotFound, s)
  | Some p =>
      let p := mkScenario (scn_ID p) (scn_Name p) (scn_ProjectID p) kind engine (scn_TenantID p)
                 (scn_CreatedBy p) (scn_UpdatedBy p) (scn_CreatedTime p) (scn_IsTemplate p)
                 (scn_TemplateName p) in
      (Ok tt, upd (λ c, put_scenarios (planSeq c) (<[scenarioID := p]> (scenarios c)) c) s)
  end.

Definition UpdateScenario (p : Scenario) (s : Store) : result error unit * Store :=
  match scenarios (st_catalog s) !! scn_ID p with
  | None => (Err ErrNotFound, s)
  | Some sc =>
      let sc := mkScenario (scn_ID sc) (scn_Name p) (scn_ProjectID sc) (scn_Kind p) (scn_Engine p)
                  (scn_TenantID sc) (scn_CreatedBy sc) (scn_UpdatedBy sc) (scn_CreatedTime sc)
                  (scn_IsTemplate p) (scn_TemplateName p) in
      (Ok tt, upd (λ c, put_scenarios (planSeq c) (<[scn_ID p := sc]> (scenarios c)) c) s)
  end.

Definition SetScenarioRequests (scenarioID : Z) (raw : string) (s : Store) : Store :=
  upd (λ c, put_scenarioRequests (<[scenarioID := raw]> (scenarioRequests c)) c) s.
Definition DeleteScenarioRequests (scenarioID : Z) (s : Store) : Store :=
  upd (λ c, put_scenarioRequests (delete scenarioID (scenarioRequests c)) c) s.

Definition CreateExecution (now : time) (c : Execution) (s : Store) : Z * Store :=
  let id := collSeq (st_catalog s) + 1 in
  let c := mkExecution id (exe_Name c) (exe_ProjectID c) (exe_Engine c) (exe_Kind c) (exe_CPU c)
             (exe_Memory c) (exe_Cluster c) (exe_FanOutTargets c) (exe_CSVSplit c)
             (exe_TenantID c) (exe_CreatedBy c) (exe_UpdatedBy c)
             (or_now now (exe_CreatedTime c)) in
  (id, upd (λ k, put_executions id (<[id := c]> (executions k)) k) s).

Definition DeleteExecution (id : Z) (s : Store) : result error unit * Store :=
  match executions (st_catalog s) !! id with
  | None => (Err ErrNotFound, s)
  | Some _ =>
      (Ok tt, upd (λ c,
         put_exec (delete id (exec c))
           (put_execData (delete id (execData c))
              (put_executions (collSeq c) (delete id (executions c)) c))) s)
  end.

(** The set is created on the first file; a known name changes nothing else. *)
Definition AddExecutionFile (executionID : Z) (filename : string) (s : Store) :
    result error unit * Store :=
  let files := default ∅ (execData (st_catalog s) !! executionID) in
  if bool_decide (filename ∈ files) then
    (Err ErrFileExists, upd (λ c, put_execData (<[executionID := files]> (execData c)) c) s)
  else
    (Ok tt, upd (λ c, put_execData (<[executionID := {[filename]} ∪ files]> (execData c)) c) s).
Definition DeleteExecutionFile (executionID : Z) (filename : string) (s : Store) :
    result error unit * Store :=
  let files := default ∅ (execData (st_catalog s) !! executionID) in
  if bool_decide (filename ∈ files) then
    (Ok tt, upd (λ c, put_execData (<[executionID := files ∖ {[filename]}]> (execData c)) c) s)
  else (Err ErrNotFound, s).

Definition exe_with_CSVSplit (c : Execution) (b : bool) : Execution :=
  mkExecution (exe_ID c) (exe_Name c) (exe_ProjectID c) (exe_Engine c) (exe_Kind c) (exe_CPU c)
    (exe_Memory c) (exe_Cluster c) (exe_FanOutTargets c) b (exe_TenantID c) (exe_CreatedBy c)
    (exe_UpdatedBy c) (exe_CreatedTime c).

(** Profiles are stored without their display names. *)
Definition unnamed (ep : Entry) : Entry :=
  mkEntry "" (ScenarioID ep) (Concurrency ep) (Rampup ep) (Engines ep) (Throughput ep)
    (Duration ep) (LoadProfile.CSVSplit ep) (LoadProfile.Mode ep) (Steps ep).

Definition StoreLoadProfile (executionID : Z) (csvSplit : bool) (entries : list Entry) (s : Store) :
    result error unit * Store :=
  match executions (st_catalog s) !! executionID with
  | None => (Err ErrNotFound, s)
  | Some c =>
      (Ok tt, upd (λ k,
         put_executions (collSeq k) (<[executionID := exe_with_CSVSplit c csvSplit]> (executions k))
           (put_exec (<[executionID := unnamed <$> entries]> (exec k)) k)) s)
  end.

Definition SetExecutionCriteria (executionID : Z) (criteria : list string) (s : Store) : Store :=
  upd (λ c, put_execCriteria (<[executionID := criteria]> (execCriteria c)) c) s.

Definition StoreExecutionConfig (executionID : Z) (csvSplit : bool) (entries : list Entry)
    (criteria : list string) (s : Store) : result error unit * Store :=
  match executions (st_catalog s) !! executionID with
  | None => (Err ErrNotFound, s)
  | Some c =>
      (Ok tt, upd (λ k,
         put_execCriteria (<[executionID := criteria]> (execCriteria k))
           (put_executions (collSeq k)
              (<[executionID := exe_with_CSVSplit c csvSplit]> (executions k))
              (put_exec (<[executionID := unnamed <$> entries]> (exec k)) k))) s)
  end.

(** ** The idle clock *)
Definition SetPendingCorrelationID (executionID : Z) (correlationID : string) (s : Store) :
    result error unit * Store :=
  match executions (st_catalog s) !! executionID with
  | None => (Err ErrNotFound, s)
  | Some _ =>
      let a := st_activity s in
      (Ok tt, set_activity (mkActivity (<[executionID := correlationID]> (pendingCorrelation a))
                              (lastActivity a) (touchCount a)) s)
  end.

Definition PendingCorrelationID (executionID : Z) (s : Store) : result error string :=
  match executions (st_catalog s) !! executionID with
  | None => Err ErrNotFound
  | Some _ => Ok (default "" (pendingCorrelation (st_activity s) !! executionID))
  end.

Definition TouchActivity (now : time) (executionID : Z) (s : Store) : Store :=
  let a := st_activity s in
  set_activity (mkActivity (pendingCorrelation a) (<[executionID := now]> (lastActivity a))
    (<[executionID := default 0 (touchCount a !! executionID) +w 1]> (touchCount a))) s.

(** Nothing for an execution that does not exist, or was never touched. *)
Definition LastActivity (executionID : Z) (s : Store) : option time :=
  match executions (st_catalog s) !! executionID with
  | None => None
  | Some _ => lastActivity (st_activity s) !! executionID
  end.

(** ** Usage launches ([usage_repository.go]) *)
Definition StartLaunch (now : time) (executionID : Z) (owner : string) (engines vu : Z)
    (s : Store) : result error unit * Store :=
  let l := st_launches s in
  match openLaunch l !! executionID with
  | Some _ => (Err ErrLaunchActive, s)
  | None =>
      let rec := mkLaunch executionID (deployContext l) owner engines vu now None in
      (Ok tt, set_launches (mkLaunches (deployContext l)
                (<[executionID := length (launchHistory l)]> (openLaunch l))
                (launchHistory l ++ [rec])) s)
  end.

Definition end_launch (now : time) (vu : Z) (r : LaunchRecord) : LaunchRecord :=
  mkLaunch (lr_ExecutionID r) (lr_Context r) (lr_Owner r) (lr_Engines r) vu (lr_StartedTime r)
    (Some now).

Definition FinishLaunch (now : time) (executionID : Z) (vu : Z) (s : Store) : Store :=
  let l := st_launches s in
  match openLaunch l !! executionID with
  | None => s
  | Some i =>
      set_launches (mkLaunches (deployContext l) (delete executionID (openLaunch l))
        (alter (end_launch now vu) i (launchHistory l))) s
  end.

Definition LaunchHistory (from to : time) (s : Store) : list LaunchRecord :=
  filter (λ r, match lr_EndTime r with
               | None => false
               | Some e => negb (Before (lr_StartedTime r) from || After e to)
               end = true) (launchHistory (st_launches s)).

(** ** The store as the quota service's repository *)
#[global] Instance store_quota_repo : QuotaRepo Store := {
  q_ledger := st_ledger;
  q_set_ledger := set_ledger;
  q_current_run e s := currentRun (st_runs s) !! e
}.
#[global] Instance store_quota_laws : QuotaRepoLaws Store.
Proof. by split. Qed.
