(* ===== verification/TenantApp.v ===== *)
(** * Tenant and role administration ([internal/app/tenantapp])

    Creating tenants, changing their status and quota, and granting the
    built-in roles.  [now] is the store's clock. *)
From S2P Require Import Prelude Errors GoStrings Reservation Rbac Directory Store.

Section tenantapp.
Context `{!Unicode} (now : time).

Definition on_directory {A} (f : Directory → result error A * Directory) : M Store error A :=
  λ s, let '(r, d) := f (st_directory s) in (r, set_directory d s).
Definition get_tenant (id : Z) : M Store error Tenant.Tenant := ask (λ s, GetTenant id (st_directory s)).

Definition Create (name displayName : string) : M Store error Tenant.Tenant :=
  tn ← lift (Tenant.New name displayName);
  id ← on_directory (CreateTenant now tn);
  get_tenant id.

Definition Get (id : Z) : M Store error Tenant.Tenant := get_tenant id.
Definition List : M Store error (list Tenant.Tenant) := gets (λ s, ListTenants (st_directory s)).

Definition SetStatus (id : Z) (status : string) : M Store error unit :=
  _ ← guard (negb (bool_decide (status = Tenant.StatusActive)) &&
             negb (bool_decide (status = Tenant.StatusSuspended))) ErrStatusInvalid;
  on_directory (SetTenantStatus id status).

Definition SetQuota (tenantID : Z) (cluster : string) (ceiling : Z) : M Store error unit :=
  _ ← guard (bool_decide (ceiling < 0)) ErrCeilingInvalid;
  _ ← get_tenant tenantID;
  modify (λ s, set_ledger (SetCeiling tenantID cluster ceiling (st_ledger s)) s).

Record EffectiveQuota := mkEffectiveQuota { eq_Ceiling : Z; eq_Defaulted : bool }.
Definition GetQuota (tenantID : Z) (cluster : string) : M Store error EffectiveQuota :=
  _ ← get_tenant tenantID;
  q ← gets (λ s, Reservation.GetQuota tenantID cluster (st_ledger s));
  if negb (Configured q) then mret (mkEffectiveQuota DefaultCeiling true)
  else mret (mkEffectiveQuota (Ceiling q) false).

Definition validateGrant (g : RoleGrant) : M Store error unit :=
  match DefaultCatalog !! g_RoleName g with
  | None => throw ErrUnknownRole
  | Some role =>
      _ ← guard (TenantScoped role && bool_decide (g_TenantID g = None)) ErrGlobalRoleScoped;
      _ ← guard (negb (TenantScoped role) && negb (bool_decide (g_TenantID g = None)))
            ErrGlobalRoleScoped;
      match g_TenantID g with
      | Some t => _ ← get_tenant t; mret tt
      | None => mret tt
      end
  end.

Definition AssignRole (g : RoleGrant) : M Store error unit :=
  _ ← validateGrant g;
  modify (λ s, set_directory (AssignGrant now g (st_directory s)) s).

Definition RevokeRole (subject roleName : string) (tenantID : option Z) : M Store error unit :=
  modify (λ s, set_directory (RevokeGrant subject roleName tenantID (st_directory s)) s).

Definition RolesForSubject (subject : string) : M Store error RoleGrants :=
  gets (λ s, RolesFor subject (st_directory s)).

Definition ListTenantRoles (tenantID : Z) : M Store error (list RoleGrantEntry) :=
  _ ← get_tenant tenantID;
  gets (λ s, ListTenantGrants tenantID (st_directory s)).
End tenantapp.

(** ** The administration as a set of assignments

    The abstract state: which tenants exist and which (subject, role, scope)
    triples are assigned. *)
Record AccessSpec := mkSpec {
  sp_tenants : gset Z;
  sp_grants : gset (string * string * option Z)
}.

(** A grant that may be made: a built-in role in its own kind of scope, in a
    tenant that exists. *)
Definition valid_scope (ts : gset Z) (roleName : string) (tenantID : option Z) : Prop :=
  ∃ role, DefaultCatalog !! roleName = Some role ∧
    match tenantID with
    | None => TenantScoped role = false
    | Some t => TenantScoped role = true ∧ t ∈ ts
    end.

Inductive admin_op :=
| OpCreate (now : time) (name displayName : string)
| OpStatus (id : Z) (status : string)
| OpQuota (id : Z) (cluster : string) (ceiling : Z)
| OpAssign (now : time) (g : RoleGrant)
| OpRevoke (subject roleName : string) (tenantID : option Z).

(** What an operation may do: [ok] says whether it was accepted. *)
Inductive spec_step (a : AccessSpec) : admin_op → bool → AccessSpec → Prop :=
| spec_create now name display id :
    id ∉ sp_tenants a →
    spec_step a (OpCreate now name display) true (mkSpec ({[id]} ∪ sp_tenants a) (sp_grants a))
| spec_create_refused now name display : spec_step a (OpCreate now name display) false a
| spec_status id status ok : spec_step a (OpStatus id status) ok a
| spec_quota id cluster ceiling ok : spec_step a (OpQuota id cluster ceiling) ok a
| spec_assign now g :
    valid_scope (sp_tenants a) (g_RoleName g) (g_TenantID g) →
    spec_step a (OpAssign now g) true (mkSpec (sp_tenants a) ({[scope_of g]} ∪ sp_grants a))
| spec_assign_refused now g :
    ¬ valid_scope (sp_tenants a) (g_RoleName g) (g_TenantID g) →
    spec_step a (OpAssign now g) false a
| spec_revoke subject roleName tenantID :
    spec_step a (OpRevoke subject roleName tenantID) true
      (mkSpec (sp_tenants a) (sp_grants a ∖ {[(subject, roleName, tenantID)]})).

Section refinement.
Context `{!Unicode}.

Definition run_op (op : admin_op) (s : Store) : bool * Store :=
  match op with
  | OpCreate now name display => let '(r, s') := Create now name display s in (is_Ok r, s')
  | OpStatus id status => let '(r, s') := SetStatus id status s in (is_Ok r, s')
  | OpQuota id cluster ceiling => let '(r, s') := SetQuota id cluster ceiling s in (is_Ok r, s')
  | OpAssign now g => let '(r, s') := AssignRole now g s in (is_Ok r, s')
  | OpRevoke subject roleName tenantID =>
      let '(r, s') := RevokeRole subject roleName tenantID s in (is_Ok r, s')
  end.

(** The store holds the abstract state, and ids are handed out in order. *)
Definition refines (s : Store) (a : AccessSpec) : Prop :=
  dom (tenants (st_directory s)) = sp_tenants a ∧
  assigned (st_directory s) = sp_grants a ∧
  (∀ id, id ∈ sp_tenants a → id <= tenantSeq (st_directory s)).

Lemma refines_empty : refines NewStore (mkSpec ∅ ∅).
Proof using. split; [|split]; cbn; [by rewrite dom_empty_L|done|set_solver]. Qed.

Lemma validateGrant_spec g s a :
  refines s a →
  (validateGrant g s).2 = s ∧
  (is_Ok (validateGrant g s).1 = true ↔ valid_scope (sp_tenants a) (g_RoleName g) (g_TenantID g)).
Proof using.
  intros (Hd & _). unfold validateGrant, valid_scope.
  destruct (DefaultCatalog !! g_RoleName g) as [role|]; [|cbn; naive_solver].
  destruct (g_TenantID g) as [t|].
  - change (bool_decide (Some t = None)) with false. rewrite andb_false_r, <- Hd.
    setoid_rewrite elem_of_dom.
    unfold get_tenant, ask, GetTenant, mbind, M_bind, guard, mret, M_ret, throw.
    destruct (TenantScoped role) eqn:?; cbn.
    + destruct (tenants (st_directory s) !! t); cbn; split; try done; split; try done.
      * intros _. exists role. split_and!; done.
      * intros (? & [= <-] & _ & [? [=]]).
    + split; [done|]. split; [done|]. intros (? & [= <-] & ? & _). congruence.
  - change (bool_decide (None = None)) with true.
    unfold mbind, M_bind, guard, mret, M_ret, throw.
    destruct (TenantScoped role) eqn:?; cbn; split; try done; split; try done.
    + intros (? & [= <-] & ?). congruence.
    + intros _. by exists role.
Qed.

(** Every operation of the service does what the abstract step does. *)
Lemma run_op_refines op s a :
  refines s a → ∃ a', spec_step a op (run_op op s).1 a' ∧ refines (run_op op s).2 a'.
Proof using.
  intros Hr. pose proof Hr as (Hd & Hg & Hseq). destruct op as [now name display|id status|id c k|now g|sub role t]; cbn [run_op].
  - unfold Create, lift. cbv [mbind M_bind]. destruct (Tenant.New name display) as [tn|e]; cbn.
    2:{ exists a. split; [constructor|done]. }
    unfold on_directory, CreateTenant, get_tenant, ask. destruct (existsb _ _); cbn.
    { exists a. split; [constructor|]. by destruct s. }
    set (id := tenantSeq (st_directory s) + 1). unfold GetTenant. cbn.
    rewrite lookup_insert_eq. cbn.
    eexists. split; [apply (spec_create _ _ _ _ id)|].
    + intros Hin%Hseq. unfold id in Hin. lia.
    + split; [|split]; cbn; [by rewrite dom_insert_L, Hd|done|].
      intros x [->%elem_of_singleton|Hx%Hseq]%elem_of_union; unfold id; lia.
  - exists a. split; [constructor|]. unfold SetStatus, guard. cbv [mbind M_bind].
    destruct (negb _ && negb _); cbn; [done|]. unfold on_directory, SetTenantStatus.
    destruct (tenants (st_directory s) !! id) eqn:E; cbn; [|by destruct s].
    split; [|split]; cbn; [|done..]. rewrite dom_insert_lookup_L; done.
  - exists a. split; [constructor|]. unfold SetQuota, guard, get_tenant, ask, modify. cbv [mbind M_bind].
    case_bool_decide; cbn; [done|]. by destruct (GetTenant _ _).
  - destruct (validateGrant_spec g s a Hr) as [Hs Hok]. unfold AssignRole. cbv [mbind M_bind].
    destruct (validateGrant g s) as [[u|e] s1]; cbn in *; subst s1.
    + eexists. split; [constructor; by apply Hok|].
      split; [|split]; cbn; [|by rewrite assigned_AssignGrant, Hg|]; unfold AssignGrant; destruct (existsb _ _); done.
    + exists a. split; [|done]. constructor. intros ?%Hok. done.
  - eexists. split; [constructor|]. split; [done|]. split; [|done].
    cbn [RevokeRole modify fst snd st_directory set_directory sp_grants].
    by rewrite assigned_RevokeGrant, Hg.
Qed.
End refinement.

(** Assigned roles are always in their own kind of scope and in tenants that
    exist. *)
Definition well_scoped (a : AccessSpec) : Prop :=
  ∀ subject roleName tenantID,
    (subject, roleName, tenantID) ∈ sp_grants a → valid_scope (sp_tenants a) roleName tenantID.

Lemma spec_step_well_scoped a op ok a' : spec_step a op ok a' → well_scoped a → well_scoped a'.
Proof.
  intros Hstep Hw. destruct Hstep; try done; intros sub rn tid; cbn.
  - intros (role & Hr & Ht)%Hw. exists role. split; [done|]. destruct tid; set_solver.
  - unfold scope_of. rewrite elem_of_union, elem_of_singleton. intros [[= -> -> ->]|?]; [done|]. by eapply Hw.
  - rewrite elem_of_difference. intros [? _]. by eapply Hw.
Qed.
