(* ===== verification/AuthApp.v ===== *)
(** * Authentication and authorisation ([internal/app/authapp])

    The service wraps a provider, adds the persisted role grants of the subject
    to the account it returns, and answers authorisation questions against the
    built-in roles. *)
From S2P Require Import Prelude Errors GoStrings Base64 Rbac Auth Directory Store TenantApp.
Import Account.

(** [roles] says whether a grant repository is wired. *)
Record AuthService := mkAuth { roles : bool; catalog : RoleCatalog; enabled : bool }.
Definition NewService (roles enabled : bool) : AuthService := mkAuth roles DefaultCatalog enabled.

Fixpoint dedupAppend (dst vals : list string) : list string :=
  match vals with
  | [] => dst
  | v :: vals' => dedupAppend (if bool_decide (v ∈ dst) then dst else dst ++ [v]) vals'
  end.

Definition merge_tenant (m : gmap Z (list string)) (tr : Z * list string) : gmap Z (list string) :=
  <[tr.1 := dedupAppend (default [] (m !! tr.1)) tr.2]> m.
(** A nil map is allocated at the first tenant; a map that is there is written
    in place. *)
Definition mergeGrants (acct : Account) (g : RoleGrants) : Account :=
  mkAccount (Subject acct) (Email acct) (Name acct) (dedupAppend (Global acct) (gs_Global g))
    (match map_to_list (gs_Tenants g) with
     | [] => Tenants acct
     | l => Some (fold_left merge_tenant l (tenant_map acct))
     end).

Definition flattenTenants (acct : Account) : list string :=
  mjoin (map_to_list (tenant_map acct)).*2.

(** The inner loop over the actions of a permission, then all lists sorted. *)
Definition merge_action (resource : string) (out : gmap string (list string)) (a : Action) :
    gmap string (list string) :=
  if bool_decide (a ∈ default [] (out !! resource)) then out
  else <[resource := default [] (out !! resource) ++ [a]]> out.
Definition mergePermissions (out : gmap string (list string)) (role : Role) :
    gmap string (list string) :=
  merge_sort str_le <$>
    fold_left (λ out p, fold_left (merge_action (Resource p)) (Actions p) out) (Permissions role) out.

Fixpoint permissions_of (catalog : RoleCatalog) (seen : list string) (names : list string)
    (out : gmap string (list string)) : gmap string (list string) :=
  match names with
  | [] => out
  | name :: rest =>
      if bool_decide (name ∈ seen) then permissions_of catalog seen rest out
      else permissions_of catalog (name :: seen) rest
             (match catalog !! name with Some role => mergePermissions out role | None => out end)
  end.
Definition Permissions (svc : AuthService) (acct : Account) : gmap string (list string) :=
  if negb (enabled svc)
  then fold_left mergePermissions (map_to_list (catalog svc)).*2 ∅
  else permissions_of (catalog svc) [] (Global acct ++ flattenTenants acct) ∅.

Definition Authorize (svc : AuthService) (acct : Account) (req : Request) : Decision_ :=
  if negb (enabled svc) then mkDecision true "rbac disabled" ""
  else Rbac.Authorize acct (catalog svc) req.

Section authenticate.
Context {P : Type} `{!AuthProvider P}.

(** The state is the provider's and the store; when the account has a tenant
    map and there are tenant grants, the provider sees the map written. *)
Definition Authenticate (svc : AuthService) (now : time) (r : HttpRequest) :
    M (P * Store) error Account := λ '(p, s),
  match p_authenticate now r p with
  | Err e => (Err e, (p, s))
  | Ok acct =>
      if negb (enabled svc) || negb (roles svc) then (Ok acct, (p, s))
      else
        let merged := mergeGrants acct (RolesFor (Subject acct) (st_directory s)) in
        let p' :=
          match Tenants acct, map_to_list (gs_Tenants (RolesFor (Subject acct) (st_directory s))) with
          | Some _, _ :: _ => p_write r (tenant_map merged) p
          | _, _ => p
          end in
        (Ok merged, (p', s))
  end.
End authenticate.

(** ** Merged grants *)
Lemma elem_of_dedupAppend dst vals x : x ∈ dedupAppend dst vals ↔ x ∈ dst ∨ x ∈ vals.
Proof.
  revert dst. induction vals as [|v vals IH]; intros dst; cbn [dedupAppend]; [set_solver|].
  rewrite IH. case_bool_decide; set_solver.
Qed.
Lemma dedupAppend_NoDup dst vals : NoDup dst → NoDup (dedupAppend dst vals).
Proof.
  revert dst. induction vals as [|v vals IH]; intros dst Hd; cbn [dedupAppend]; [done|].
  apply IH. case_bool_decide; [done|]. apply NoDup_app. split; [done|]. split; [set_solver|apply NoDup_singleton].
Qed.

Lemma merge_tenants_spec l m t x :
  NoDup l.*1 →
  x ∈ default [] (fold_left merge_tenant l m !! t) ↔
  x ∈ default [] (m !! t) ∨ ∃ rs, (t, rs) ∈ l ∧ x ∈ rs.
Proof.
  revert m. induction l as [|[t0 rs0] l IH]; intros m; cbn [fold_left fmap list_fmap fst]; [set_solver|].
  intros [Hnot Hnd]%NoDup_cons. rewrite IH by done. unfold merge_tenant. cbn [fst snd].
  destruct (decide (t0 = t)) as [->|Hne].
  - rewrite lookup_insert_eq. cbn [from_option id]. rewrite elem_of_dedupAppend. set_solver.
  - rewrite lookup_insert_ne by done. set_solver.
Qed.

Lemma mergeGrants_roles acct g :
  (∀ x, x ∈ Global (mergeGrants acct g) ↔ x ∈ Global acct ∨ x ∈ gs_Global g) ∧
  (∀ t x, x ∈ RolesInTenant (mergeGrants acct g) t ↔
          x ∈ RolesInTenant acct t ∨ x ∈ default [] (gs_Tenants g !! t)).
Proof.
  split; [intros x; apply elem_of_dedupAppend|]. intros t x.
  assert (∀ y, y ∈ default [] (gs_Tenants g !! t) ↔
    ∃ rs, (t, rs) ∈ map_to_list (gs_Tenants g) ∧ y ∈ rs) as Hy.
  { intros y. setoid_rewrite elem_of_map_to_list. destruct (gs_Tenants g !! t); cbn; set_solver. }
  rewrite Hy. unfold RolesInTenant at 1, tenant_map, mergeGrants. cbn [Tenants].
  pose proof (merge_tenants_spec (map_to_list (gs_Tenants g)) (tenant_map acct) t x
    (NoDup_fst_map_to_list _)) as Hm.
  destruct (map_to_list (gs_Tenants g)) as [|tr l]; [|exact Hm].
  unfold RolesInTenant, tenant_map. set_solver.
Qed.

(** A request that names the tenant and the abstract assignments decides it. *)
Definition may (a : AccessSpec) (acct : Account) (req : Request) : Prop :=
  ∃ name role, DefaultCatalog !! name = Some role ∧ covers role (req_Resource req) (req_Action req) ∧
    (granted acct (req_TenantID req) name ∨ (Subject acct, name, None) ∈ sp_grants a ∨
     ∃ t, req_TenantID req = Some t ∧ (Subject acct, name, Some t) ∈ sp_grants a).

Section decisions.
Context `{!Unicode} {P : Type} `{!AuthProvider P, !Unshared P}.

Lemma Authenticate_unshared svc now r p s :
  (Authenticate svc now r (p, s)).2 = (p, s).
Proof using Unshared0.
  unfold Authenticate. destruct (p_authenticate now r p); [|done].
  destruct (_ || _); [done|]. cbn. destruct (Tenants a); [|done]. destruct (map_to_list _); [done|].
  by rewrite unshared.
Qed.

(** With grants wired and RBAC in force, the decision on a request is what the
    provider's own roles and the assignments in force say. *)
Lemma decision_refines now r p s a req :
  refines s a →
  match Authenticate (NewService true true) now r (p, s) with
  | (Err e, _) => p_authenticate now r p = Err e
  | (Ok acct, _) =>
      ∃ base, p_authenticate now r p = Ok base ∧
        (Allowed (Authorize (NewService true true) acct req) = true ↔ may a base req)
  end.
Proof using Type.
  intros (_ & Hg & _). unfold Authenticate. destruct (p_authenticate now r p) as [base|e]; [|done].
  cbn -[mergeGrants Authorize]. exists base. split; [done|]. unfold Authorize. cbn [NewService enabled negb catalog].
  rewrite Authorize_iff. unfold entitled, granted, may.
  destruct (mergeGrants_roles base (RolesFor (Subject base) (st_directory s))) as [Hmg Hmt].
  destruct (RolesFor_spec (Subject base) (st_directory s)) as [Hrg Hrt]. rewrite Hg in Hrg, Hrt.
  setoid_rewrite Hmg. setoid_rewrite Hmt. setoid_rewrite Hrg. setoid_rewrite Hrt.
  unfold granted. split.
  - intros (name & Hn & role & Hr & Hc). exists name, role. naive_solver.
  - intros (name & role & Hr & Hc & Hn). exists name. split; [|by exists role]. naive_solver.
Qed.
End decisions.

(** ** The permissions shown to the user interface *)
Definition lists (out : gmap string (list string)) (k x : string) : Prop := x ∈ default [] (out !! k).

Lemma merge_action_lists res a out k x :
  lists (merge_action res out a) k x ↔ lists out k x ∨ (k = res ∧ x = a).
Proof.
  unfold merge_action, lists. case_bool_decide as Hin.
  - split; [by left|]. intros [?|[-> ->]]; done.
  - destruct (decide (res = k)) as [->|Hne].
    + rewrite lookup_insert_eq. cbn [from_option id]. set_solver.
    + rewrite lookup_insert_ne by done. set_solver.
Qed.
Lemma merge_actions_lists res l out k x :
  lists (fold_left (merge_action res) l out) k x ↔ lists out k x ∨ (k = res ∧ x ∈ l).
Proof.
  revert out. induction l as [|a l IH]; intros out; cbn [fold_left]; [set_solver|].
  rewrite IH, merge_action_lists. set_solver.
Qed.
Lemma merge_perms_lists l out k x :
  lists (fold_left (λ out p, fold_left (merge_action (Resource p)) (Actions p) out) l out) k x ↔
  lists out k x ∨ ∃ p, p ∈ l ∧ Resource p = k ∧ x ∈ Actions p.
Proof.
  revert out. induction l as [|p l IH]; intros out; cbn [fold_left]; [set_solver|].
  rewrite IH, merge_actions_lists. set_solver.
Qed.
Definition offers (role : Role) (k x : string) : Prop :=
  ∃ p, p ∈ Rbac.Permissions role ∧ Resource p = k ∧ x ∈ Actions p.
Lemma mergePermissions_lists out role k x :
  lists (mergePermissions out role) k x ↔ lists out k x ∨ offers role k x.
Proof.
  unfold offers. rewrite <- merge_perms_lists. unfold mergePermissions, lists. rewrite lookup_fmap.
  destruct (fold_left _ _ _ !! k) as [l|]; cbn; [|done].
  by rewrite (merge_sort_Permutation str_le l).
Qed.
Lemma permissions_of_lists cat seen names out k x :
  lists (permissions_of cat seen names out) k x ↔
  lists out k x ∨ ∃ name role, name ∈ names ∧ ¬ name ∈ seen ∧ cat !! name = Some role ∧ offers role k x.
Proof.
  revert seen out. induction names as [|n names IH]; intros seen out; cbn [permissions_of]; [set_solver|].
  case_bool_decide as Hs; rewrite IH.
  - set_solver.
  - assert (lists (match cat !! n with Some role => mergePermissions out role | None => out end) k x ↔
      lists out k x ∨ ∃ role, cat !! n = Some role ∧ offers role k x) as ->.
    { destruct (cat !! n) as [role|]; [rewrite mergePermissions_lists|]; naive_solver. }
    split.
    + intros [[?|(role & Hr & Ho)]|(name & role & Hn & Hns & Hr & Ho)]; [by left|right..].
      * exists n, role. set_solver.
      * exists name, role. set_solver.
    + intros [?|(name & role & Hn & Hns & Hr & Ho)]; [by left; left|].
      destruct (decide (name = n)) as [->|Hne]; [left; right; by exists role|].
      right. exists name, role. set_solver.
Qed.

Lemma elem_of_flattenTenants acct x :
  x ∈ flattenTenants acct ↔ ∃ t, x ∈ RolesInTenant acct t.
Proof.
  unfold flattenTenants, RolesInTenant. rewrite list_elem_of_join.
  setoid_rewrite list_elem_of_fmap. split.
  - intros (l & Hx & [t l'] & -> & Hin%elem_of_map_to_list). exists t. by rewrite Hin.
  - intros (t & Hx). destruct (tenant_map acct !! t) as [l|] eqn:E; [|by apply not_elem_of_nil in Hx].
    exists l. split; [done|]. exists (t, l). by rewrite elem_of_map_to_list.
Qed.

(** The permission map the user interface is shaped from agrees with the
    decisions: whatever is authorised is listed (under its own names or the
    wildcard), and whatever is listed is authorised globally or in some tenant
    of the account; with access control switched off everything is allowed. *)
Theorem permissions_agree_with_decisions svc acct :
  (enabled svc = true →
   (∀ req, Allowed (Authorize svc acct req) = true →
      ∃ k x, (k = Wildcard ∨ k = req_Resource req) ∧ (x = Wildcard ∨ x = req_Action req) ∧
        lists (Permissions svc acct) k x) ∧
   (∀ k x, lists (Permissions svc acct) k x →
      ∃ tenantID, Allowed (Authorize svc acct (mkRequest k x tenantID)) = true)) ∧
  (enabled svc = false → ∀ req, Allowed (Authorize svc acct req) = true).
Proof.
  unfold Permissions, Authorize. destruct (enabled svc); (split; [intros Hen|intros Hen]); try done.
  cbn [negb]. setoid_rewrite permissions_of_lists. setoid_rewrite Authorize_iff.
  unfold entitled, granted, covers. split.
  - intros req (name & Hg & role & Hr & p & Hp & Hres & Hact).
    assert (name ∈ Global acct ++ flattenTenants acct).
    { rewrite elem_of_app, elem_of_flattenTenants. destruct Hg as [?|(t & _ & ?)]; eauto. }
    assert (∃ x, (x = Wildcard ∨ x = req_Action req) ∧ x ∈ Actions p) as (x & Hx & Hxp)
      by naive_solver.
    exists (Resource p), x. split; [done|]. split; [done|]. right. exists name, role.
    split; [done|]. split; [set_solver|]. split; [done|]. by exists p.
  - intros k x [Hl|(name & role & Hn & _ & Hr & p & Hp & <- & Hx)].
    { unfold lists in Hl. rewrite lookup_empty in Hl. by apply not_elem_of_nil in Hl. }
    rewrite elem_of_app, elem_of_flattenTenants in Hn. destruct Hn as [Hn|[t Hn]].
    + exists None, name. split; [by left|]. exists role. split; [done|]. exists p. auto.
    + exists (Some t), name. split; [right; by exists t|]. exists role. split; [done|]. exists p. auto.
Qed.

(** ** Histories

    Administration and logins in any order. *)
Inductive event :=
| Admin (op : admin_op)
| Login (now : time) (r : HttpRequest).

Inductive spec_run (a : AccessSpec) : list (admin_op * bool) → AccessSpec → Prop :=
| spec_run_nil : spec_run a [] a
| spec_run_cons op ok a1 rest a2 :
    spec_step a op ok a1 → spec_run a1 rest a2 → spec_run a ((op, ok) :: rest) a2.

Section histories.
Context `{!Unicode} {P : Type} `{!AuthProvider P}.

(** The administrative operations of a history with their outcomes, and the
    state it leaves. *)
Fixpoint run_events (es : list event) (ps : P * Store) : list (admin_op * bool) * (P * Store) :=
  match es with
  | [] => ([], ps)
  | Admin op :: es' =>
      let '(ok, s) := run_op op ps.2 in
      let '(log, ps') := run_events es' (ps.1, s) in ((op, ok) :: log, ps')
  | Login now r :: es' => run_events es' (Authenticate (NewService true true) now r ps).2
  end.

Lemma run_events_refines `{!Unshared P} es p s a :
  refines s a → well_scoped a →
  (run_events es (p, s)).2.1 = p ∧
  ∃ a', spec_run a (run_events es (p, s)).1 a' ∧ refines (run_events es (p, s)).2.2 a' ∧ well_scoped a'.
Proof using Type.
  revert s a. induction es as [|[op|now r] es IH]; intros s a Hr Hw; cbn [run_events].
  - split; [done|]. exists a. split; [constructor|done].
  - destruct (run_op_refines op s a Hr) as (a1 & Hs1 & Hr1). cbn [fst snd].
    destruct (run_op op s) as [ok s1]; cbn [fst snd] in *.
    destruct (IH s1 a1) as (Hp & a2 & Hs2 & Hr2 & Hw2); [done|by eapply spec_step_well_scoped|].
    destruct (run_events es (p, s1)) as [log ps]; cbn [fst snd] in *.
    split; [done|]. exists a2. split; [by econstructor|done].
  - rewrite Authenticate_unshared. by apply IH.
Qed.

Lemma well_scoped_empty : well_scoped (mkSpec ∅ ∅).
Proof using. intros ???. cbn. set_solver. Qed.


(** Whoever the identity provider vouches for without roles of its own is
    allowed something only as a platform admin or through a role assigned in
    the request's own, existing tenant; and such a tenant role never reaches the
    installation, administers the tenant only as its admin, touches campaigns
    only as a campaign manager, and changes anything else only as an admin or
    an editor. *)
Theorem tenant_roles_stay_in_tenant `{!Unshared P} es p now r req base acct ps :
  p_authenticate now r p = Ok base → Global base = [] → tenant_map base = ∅ →
  Authenticate (NewService true true) now r (run_events es (p, NewStore)).2 = (Ok acct, ps) →
  Allowed (Authorize (NewService true true) acct req) = true →
  ∃ a, spec_run (mkSpec ∅ ∅) (run_events es (p, NewStore)).1 a ∧
  ((Subject base, RoleServiceProviderAdmin, None) ∈ sp_grants a ∨
   ∃ t name, req_TenantID req = Some t ∧ t ∈ sp_tenants a ∧
     (Subject base, name, Some t) ∈ sp_grants a ∧
     req_Resource req ≠ ResourceSystem ∧
     (req_Resource req = ResourceTenant → name = RoleTenantAdmin) ∧
     (req_Resource req = ResourceCampaign → name = RoleCampaignManager) ∧
     (changes (req_Action req) → req_Resource req ≠ ResourceCampaign →
      name = RoleTenantAdmin ∨ name = RoleTenantEditor)).
Proof using Type.
  intros Hbase Hglob Hten Hauth Hallow.
  destruct (run_events_refines es p NewStore (mkSpec ∅ ∅) refines_empty well_scoped_empty)
    as (Hp & a & Hrun & Href & Hw).
  exists a. split; [done|].
  destruct (run_events es (p, NewStore)) as [log [p' s']]; cbn [fst snd] in *. subst p'.
  pose proof (decision_refines now r p s' a req Href) as Hdec. rewrite Hauth in Hdec.
  destruct Hdec as (base' & Hb & Hiff). rewrite Hbase in Hb. injection Hb as <-.
  pose proof (proj1 Hiff Hallow) as Hmay. clear Hiff Hallow.
  destruct Hmay as (name & role & Hrole & Hcov & [Hown|[Hg|(t & Ht & Hg)]]).
  - destruct Hown as [Hown|(t & _ & Hown)].
    + rewrite Hglob in Hown. by apply not_elem_of_nil in Hown.
    + unfold RolesInTenant in Hown. rewrite Hten, lookup_empty in Hown. by apply not_elem_of_nil in Hown.
  - left. destruct (Hw _ _ _ Hg) as (role' & Hrole' & Hsc). rewrite Hrole in Hrole'. injection Hrole' as <-.
    pose proof Hrole as Hname. catalog_cases Hname; try done.
  - right. exists t, name. destruct (Hw _ _ _ Hg) as (role' & Hrole' & Hsc & Hin).
    rewrite Hrole in Hrole'. injection Hrole' as <-.
    destruct (scoped_covers name role _ _ Hrole Hsc Hcov) as (? & ? & ? & ?). by split_and!.
Qed.
End histories.

(** The static token provider hands out its registered accounts with their
    tenant map shared, and merging the grants writes that map: a tenant role
    that is revoked after the holder has logged in once stays in force at the
    next login. *)
Theorem token_grant_survives_revocation p s now now' r tok acct m t name role req :
  bearer r = tok → tok ≠ "" → accounts p !! tok = Some acct → Tenants acct = Some m →
  (Subject acct, name, Some t) ∈ assigned (st_directory s) →
  DefaultCatalog !! name = Some role → covers role (req_Resource req) (req_Action req) →
  req_TenantID req = Some t →
  let '(_, (p1, s1)) := Authenticate (NewService true true) now r (p, s) in
  let s2 := (RevokeRole (Subject acct) name (Some t) s1).2 in
  ¬ ((Subject acct, name, Some t) ∈ assigned (st_directory s2)) ∧
  ∃ acct' ps, Authenticate (NewService true true) now' r (p1, s2) = (Ok acct', ps) ∧
    Allowed (Authorize (NewService true true) acct' req) = true.
Proof.
  intros <- Htok Hacct Hm Hgr Hrole Hcov Ht.
  assert (∀ now q, p_authenticate now r q = match accounts q !! bearer r with
    | Some a => Ok a | None => Err ErrUnauthenticated end) as Hauth.
  { intros n q. cbn [p_authenticate token_provider]. unfold Token_Authenticate.
    by rewrite bool_decide_eq_false_2. }
  unfold Authenticate at 1. rewrite Hauth, Hacct. cbn [NewService enabled roles negb orb].
  destruct (RolesFor_spec (Subject acct) (st_directory s)) as [_ Hroles].
  destruct (mergeGrants_roles acct (RolesFor (Subject acct) (st_directory s))) as [_ Hmerged].
  set (merged := mergeGrants acct _) in *. rewrite Hm.
  destruct (map_to_list (gs_Tenants (RolesFor (Subject acct) (st_directory s)))) as [|tr l] eqn:El.
  { apply map_to_list_empty_iff in El. apply Hroles in Hgr. rewrite El, lookup_empty in Hgr.
    by apply not_elem_of_nil in Hgr. }
  cbv zeta beta iota. split.
  { cbn [RevokeRole modify snd set_directory st_directory]. rewrite assigned_RevokeGrant. set_solver. }
  unfold Authenticate. rewrite Hauth. cbn [p_write token_provider accounts].
  rewrite lookup_alter_eq, Hacct. cbn [fmap option_fmap option_map NewService enabled roles negb orb].
  eexists _, _. split; [reflexivity|]. unfold Authorize. cbn [NewService enabled negb catalog].
  apply Authorize_iff. exists name. split; [|by exists role].
  right. exists t. split; [done|].
  apply (proj2 (mergeGrants_roles _ _)). left.
  change (name ∈ RolesInTenant (with_tenants (tenant_map merged) acct) t).
  change (name ∈ RolesInTenant merged t). apply Hmerged. right. by apply Hroles.
Qed.

(** An identity provider that signs by repeating the text. *)
Definition demo_header (s : string) : option header :=
  if bool_decide (s = "head") then Some (mkHeader "RS256" "k1") else None.
Definition demo_claims (s : string) : option claims :=
  Some (mkClaims "https://idp" s "" s 0 ["honryu"]).
Definition demo_verify (_ : unit) (text sig : string) : bool := bool_decide (sig = text).
Definition demo_oidc : OidcProvider := mkOidc {[ "k1" := tt ]} "https://idp" "honryu".
#[local] Instance demo_provider : AuthProvider OidcProvider :=
  oidc_provider demo_header demo_claims demo_verify.
#[local] Instance demo_unshared : Unshared OidcProvider := oidc_unshared _ _ _.
Definition demo_login (subject : string) : HttpRequest :=
  let text := EncodeToString "head" +:+ "." +:+ EncodeToString subject in
  mkHttpRequest ("Bearer " +:+ text +:+ "." +:+ EncodeToString text) None.
Definition alice_grant (role : string) : RoleGrant := mkGrant "alice" "" role (Some 1) "root".
Definition demo_history : list event :=
  [Admin (OpCreate 5 "acme" "Acme"); Admin (OpAssign 6 (alice_grant RoleTenantEditor));
   Login 7 (demo_login "alice")].
Definition demo_request : Request := mkRequest ResourceScenario ActionUpdate (Some 1).


Lemma tenant_roles_stay_in_tenant_witness :
  ∃ a, spec_run (mkSpec ∅ ∅) (run_events demo_history (demo_oidc, NewStore)).1 a ∧
    1 ∈ sp_tenants a.
Proof.
  set (acct := mkAccount "alice" "" "alice" [] (Some {[ 1 := [RoleTenantEditor] ]})).
  assert (Authenticate (NewService true true) 8 (demo_login "alice")
    (run_events demo_history (demo_oidc, NewStore)).2 =
    (Ok acct, (run_events demo_history (demo_oidc, NewStore)).2)) as E by (vm_compute; reflexivity).
  assert (p_authenticate 8 (demo_login "alice") demo_oidc = Ok (mkAccount "alice" "" "alice" [] None))
    as Hb by (vm_compute; reflexivity).
  assert (Allowed (Authorize (NewService true true) acct demo_request) = true) as Hok
    by (vm_compute; reflexivity).
  destruct (tenant_roles_stay_in_tenant demo_history demo_oidc 8 (demo_login "alice") demo_request
    _ acct _ Hb eq_refl eq_refl E Hok) as (a & Hrun & Hcase).
  exists a. split; [exact Hrun|].
  destruct Hcase as [Hadmin|(t & name & [= <-] & Hin & _)]; [|exact Hin].
  exfalso. revert Hrun Hadmin. clear. intros Hrun.
  assert (run_events demo_history (demo_oidc, NewStore) =
    ([(OpCreate 5 "acme" "Acme", true); (OpAssign 6 (alice_grant RoleTenantEditor), true)],
     (run_events demo_history (demo_oidc, NewStore)).2)) as E by (vm_compute; reflexivity).
  rewrite E in Hrun. cbn [fst] in Hrun.
  inversion Hrun as [|? ? a1 ? ? H1 Hrun1]; subst. inversion H1; subst.
  inversion Hrun1 as [|? ? a2 ? ? H2 Hrun2]; subst. inversion H2; subst. inversion Hrun2; subst.
  cbn. set_solver.
Defined.

Definition shared_account : Account := mkAccount "bob" "" "bob" [] (Some {[ 1 := [] ]}).
Definition bob_store : Store :=
  (run_op (OpAssign 6 (mkGrant "bob" "" RoleTenantViewer (Some 1) "root"))
     (run_op (OpCreate 5 "acme" "Acme") NewStore).2).2.
Definition bob_request : Request := mkRequest ResourceReport ActionRead (Some 1).
Definition bob_login : HttpRequest := mkHttpRequest "Bearer t" None.
Lemma token_grant_survives_revocation_witness :
  ∃ acct ps,
    (let '(_, (p1, s1)) := Authenticate (NewService true true) 7 bob_login
       (Register "t" shared_account Token_New, bob_store) in
     Authenticate (NewService true true) 8 bob_login
       (p1, (RevokeRole "bob" RoleTenantViewer (Some 1) s1).2)) = (Ok acct, ps) ∧
    Allowed (Authorize (NewService true true) acct bob_request) = true.
Proof.
  destruct (DefaultCatalog !! RoleTenantViewer) as [role|] eqn:Hrole;
    [|exfalso; vm_compute in Hrole; discriminate Hrole].
  assert (covers role ResourceReport ActionRead) as Hcov.
  { apply Can_iff. vm_compute in Hrole. injection Hrole as <-. vm_compute. reflexivity. }
  pose proof (token_grant_survives_revocation (Register "t" shared_account Token_New) bob_store 7 8
    bob_login "t" shared_account {[ 1 := [] ]} 1 RoleTenantViewer role bob_request
    ltac:(vm_compute; reflexivity) ltac:(done) ltac:(vm_compute; reflexivity) eq_refl
    ltac:(apply elem_of_assigned; eexists; split; [left|reflexivity]) Hrole Hcov eq_refl) as H.
  destruct (Authenticate _ 7 _ _) as [r1 [p1 s1]]. destruct H as [_ H]. exact H.
Defined.
