(* ===== verification/Threshold.v ===== *)
(** * Scenario thresholds

    [internal/domain/threshold], the suggestions of
    [internal/domain/loadmode], the in-memory store
    [internal/ports/fake/thresholdstore.go] and the use-cases of
    [internal/app/thresholdapp]: bounds an operator pins to a scenario and the
    results of grading a run's report against them. *)
From S2P Require Import Prelude Errors GoStrings GoFloat LoadProfile Scenario Criteria Histogram Report.
From S2P Require Import Taurus Store.
Import Scenario.Scenario.

(** ** The domain *)
Definition Metric := string.
Definition MetricHTTPP95MS : Metric := "http_p95_ms".
Definition MetricHTTPP99MS : Metric := "http_p99_ms".
Definition MetricErrorRate : Metric := "error_rate".
Definition MetricThroughputQPS : Metric := "throughput_qps".
Definition Metric_Valid (m : Metric) : bool :=
  bool_decide (m = MetricHTTPP95MS) || bool_decide (m = MetricHTTPP99MS) ||
  bool_decide (m = MetricErrorRate) || bool_decide (m = MetricThroughputQPS).
Definition IsFractional (m : Metric) : bool := bool_decide (m = MetricErrorRate).

Definition Comparison := string.
Definition ComparisonLT : Comparison := "lt".
Definition ComparisonGT : Comparison := "gt".
Definition Comparison_Valid (c : Comparison) : bool :=
  bool_decide (c = ComparisonLT) || bool_decide (c = ComparisonGT).

Record Threshold := mkThreshold {
  th_ID : Z;
  th_ScenarioID : Z;
  th_Metric : Metric;
  th_Comparison : Comparison;
  th_Value : float64;
  th_CreatedTime : time
}.

Definition Threshold_Validate (t : Threshold) : result error unit :=
  if th_ScenarioID t <=? 0 then Err ErrThresholdScenarioRequired
  else if negb (Metric_Valid (th_Metric t)) then Err ErrMetricUnknown
  else if negb (Comparison_Valid (th_Comparison t)) then Err ErrComparisonUnknown
  else if IsFractional (th_Metric t) then
    if flt (th_Value t) fzero || fgt (th_Value t) (of_int 1) then Err ErrValueOutOfRange else Ok tt
  else if fle (th_Value t) fzero then Err ErrValueNotPositive
  else Ok tt.

Record ThresholdResult := mkThresholdResult {
  tr_ThresholdID : Z;
  tr_ExecutionID : Z;
  tr_RunID : Z;
  tr_Metric : Metric;
  tr_Comparison : Comparison;
  tr_Value : float64;
  tr_Observed : option float64;
  tr_Satisfied : option bool;
  tr_Reason : string;
  tr_EvaluatedAt : time
}.

(** The figure of a metric, or why there is none. *)
Definition Observe (rep : Report) (m : Metric) : float64 + string :=
  if bool_decide (m = MetricHTTPP95MS) then
    match rep_Latency rep !! of_int 95 with
    | Some secs => inl (fmul secs (of_int 1000))
    | None => inr "no p95 latency in the report"
    end
  else if bool_decide (m = MetricHTTPP99MS) then
    match rep_Latency rep !! of_int 99 with
    | Some secs => inl (fmul secs (of_int 1000))
    | None => inr "no p99 latency in the report"
    end
  else if bool_decide (m = MetricErrorRate) then inl (rep_ErrorRate rep)
  else if bool_decide (m = MetricThroughputQPS) then inl (ld_Throughput (rep_Achieved rep))
  else inr ("unknown metric " +:+ m).

Definition satisfied (c : Comparison) (observed value : float64) : bool :=
  if bool_decide (c = ComparisonGT) then fgt observed value else flt observed value.

Definition Evaluate (t : Threshold) (rep : Report) (now : time) : ThresholdResult :=
  let result observed sat reason :=
    mkThresholdResult (th_ID t) (rep_ExecutionID rep) (rep_RunID rep) (th_Metric t)
      (th_Comparison t) (th_Value t) observed sat reason now in
  match Observe rep (th_Metric t) with
  | inr reason => result None None reason
  | inl observed =>
      result (Some observed) (Some (satisfied (th_Comparison t) observed (th_Value t))) ""
  end.

(** ** Suggestions per load mode ([loadmode.SuggestedThresholds]) *)
Definition suggestion (m : Metric) (c : Comparison) (v : float64) : Threshold :=
  mkThreshold 0 0 m c v 0.
Definition hundredths (n : Z) : float64 := fdiv (of_int n) (of_int 100).
Definition burstSuggestedErrorRate : float64 := hundredths 1.
Definition burstSuggestedP95MS : float64 := of_int 500.
Definition rampSuggestedErrorRate : float64 := hundredths 1.
Definition rampSuggestedP95MS : float64 := of_int 800.
Definition soakSuggestedErrorRate : float64 := fdiv (of_int 5) (of_int 1000).
Definition soakSuggestedP95MS : float64 := of_int 600.
Definition soakThroughputFloor : float64 := fdiv (of_int 9) (of_int 10).
Definition staircaseSuggestedErrorRate : float64 := hundredths 1.
Definition staircaseSuggestedP95MS : float64 := of_int 1000.

Definition SuggestedThresholds (m : Loadmode.Mode) (targetQPS : float64) : list Threshold :=
  let rows e p := [suggestion MetricErrorRate ComparisonLT e; suggestion MetricHTTPP95MS ComparisonLT p] in
  if bool_decide (m = Loadmode.ModeBurst) then rows burstSuggestedErrorRate burstSuggestedP95MS
  else if bool_decide (m = Loadmode.ModeStaircase) then
    rows staircaseSuggestedErrorRate staircaseSuggestedP95MS
  else if bool_decide (m = Loadmode.ModeRamp) then rows rampSuggestedErrorRate rampSuggestedP95MS
  else if bool_decide (m = Loadmode.ModeSoak) then
    rows soakSuggestedErrorRate soakSuggestedP95MS ++
    (if fgt targetQPS fzero
     then [suggestion MetricThroughputQPS ComparisonGT (fmul targetQPS soakThroughputFloor)] else [])
  else [].

(** ** The store *)
Record ThresholdStore := mkThresholdStore {
  ts_threshold : gmap Z Threshold;
  ts_results : gmap Z (list ThresholdResult);
  ts_seq : Z;
  ts_ListErr : option error;
  ts_ReplaceErr : option error;
  ts_SaveResultsErr : option error;
  ts_ResultsErr : option error
}.
Definition NewThresholdStore : ThresholdStore := mkThresholdStore ∅ ∅ 0 None None None None.
Definition ts_put (m : gmap Z Threshold) (r : gmap Z (list ThresholdResult)) (n : Z)
    (s : ThresholdStore) : ThresholdStore :=
  mkThresholdStore m r n (ts_ListErr s) (ts_ReplaceErr s) (ts_SaveResultsErr s) (ts_ResultsErr s).

Definition th_id_le (a b : Threshold) : Prop := th_ID a <= th_ID b.
#[global] Instance th_id_le_dec a b : Decision (th_id_le a b).
Proof. unfold th_id_le. apply _. Defined.
Definition scenario_thresholds (scenarioID : Z) (s : ThresholdStore) : list Threshold :=
  merge_sort th_id_le
    (filter (λ th, th_ScenarioID th = scenarioID) (map_to_list (ts_threshold s)).*2).

Definition ListThresholdsForScenario (scenarioID : Z) (s : ThresholdStore) :
    result error (list Threshold) :=
  match ts_ListErr s with Some e => Err e | None => Ok (scenario_thresholds scenarioID s) end.

Definition verbatim (ex def : Threshold) : bool :=
  bool_decide (th_Metric ex = th_Metric def) && bool_decide (th_Comparison ex = th_Comparison def) &&
  feq (th_Value ex) (th_Value def).
(** The first row that matches and is not taken yet. *)
Definition reusable (matched : gset Z) (def : Threshold) (existing : list Threshold) :
    option Threshold :=
  List.find (λ ex, negb (bool_decide (th_ID ex ∈ matched)) && verbatim ex def) existing.

(** The loop over the definitions: taken ids, kept rows, and the store. *)
Fixpoint pair_definitions (now : time) (scenarioID : Z) (existing defs : list Threshold)
    (matched : gset Z) (s : ThresholdStore) : list Threshold * gset Z * ThresholdStore :=
  match defs with
  | [] => ([], matched, s)
  | def :: rest =>
      match reusable matched def existing with
      | Some ex =>
          let '(kept, matched', s') :=
            pair_definitions now scenarioID existing rest ({[th_ID ex]} ∪ matched) s in
          (ex :: kept, matched', s')
      | None =>
          let id := ts_seq s + 1 in
          let def := mkThreshold id scenarioID (th_Metric def) (th_Comparison def) (th_Value def) now in
          let '(kept, matched', s') :=
            pair_definitions now scenarioID existing rest matched
              (ts_put (<[id := def]> (ts_threshold s)) (ts_results s) id s) in
          (def :: kept, matched', s')
      end
  end.

(** A row that is gone: every result that is not of a kept row goes with it. *)
Definition drop_unmatched (keptIDs matched : gset Z) (s : ThresholdStore) (ex : Threshold) :
    ThresholdStore :=
  if bool_decide (th_ID ex ∈ matched) then s
  else ts_put (delete (th_ID ex) (ts_threshold s))
         (filter (λ r, tr_ThresholdID r ∈ keptIDs) <$> ts_results s) (ts_seq s) s.

Definition ReplaceThresholds (now : time) (scenarioID : Z) (defs : list Threshold) :
    M ThresholdStore error (list Threshold) := λ s,
  match ts_ReplaceErr s with
  | Some e => (Err e, s)
  | None =>
      let existing := scenario_thresholds scenarioID s in
      let '(kept, matched, s1) := pair_definitions now scenarioID existing defs ∅ s in
      let keptIDs : gset Z := list_to_set (th_ID <$> kept) in
      (Ok kept, fold_left (drop_unmatched keptIDs matched) existing s1)
  end.

Definition stamp (now : time) (r : ThresholdResult) : ThresholdResult :=
  if IsZero (tr_EvaluatedAt r)
  then mkThresholdResult (tr_ThresholdID r) (tr_ExecutionID r) (tr_RunID r) (tr_Metric r)
         (tr_Comparison r) (tr_Value r) (tr_Observed r) (tr_Satisfied r) (tr_Reason r) now
  else r.
Definition add_by_run (m : gmap Z (list ThresholdResult)) (r : ThresholdResult) :
    gmap Z (list ThresholdResult) :=
  <[tr_RunID r := default [] (m !! tr_RunID r) ++ [r]]> m.
Definition SaveThresholdResults (now : time) (results : list ThresholdResult) :
    M ThresholdStore error unit := λ s,
  match ts_SaveResultsErr s with
  | Some e => (Err e, s)
  | None =>
      let byRun := fold_left add_by_run (stamp now <$> results) ∅ in
      (Ok tt, ts_put (ts_threshold s) (byRun ∪ ts_results s) (ts_seq s) s)
  end.

Definition ThresholdResultsForRun (runID : Z) (s : ThresholdStore) :
    result error (list ThresholdResult) :=
  match ts_ResultsErr s with Some e => Err e | None => Ok (default [] (ts_results s !! runID)) end.

(** ** The use-cases *)
Section thresholdapp.
Context (now : time).

Definition ListFor (scenarioID : Z) : M (Store * ThresholdStore) error (list Threshold) :=
  ask (λ st, _ ← GetScenario scenarioID st.1; ListThresholdsForScenario scenarioID st.2).

Definition on_thresholds {A} (m : M ThresholdStore error A) : M (Store * ThresholdStore) error A :=
  λ st, let '(r, t) := m st.2 in (r, (st.1, t)).
Fixpoint validate_all (defs : list Threshold) : result error unit :=
  match defs with
  | [] => Ok tt
  | def :: rest => _ ← Threshold_Validate def; validate_all rest
  end.
Definition bind_scenario (scenarioID : Z) (def : Threshold) : Threshold :=
  mkThreshold (th_ID def) scenarioID (th_Metric def) (th_Comparison def) (th_Value def)
    (th_CreatedTime def).
Definition Replace (scenarioID : Z) (defs : list Threshold) :
    M (Store * ThresholdStore) error (list Threshold) :=
  _ ← ask (λ st, GetScenario scenarioID st.1);
  let defs : list Threshold := bind_scenario scenarioID <$> defs in
  _ ← lift (validate_all defs);
  on_thresholds (ReplaceThresholds now scenarioID defs).

Definition Threshold_EvaluateRun (rep : Report) : M ThresholdStore error unit :=
  if rep_ScenarioID rep <=? 0 then mret tt
  else
    defs ← attempt (ask (ListThresholdsForScenario (rep_ScenarioID rep)));
    match defs with
    | Err ErrNotFound => mret tt
    | Err e => throw e
    | Ok [] => mret tt
    | Ok defs => SaveThresholdResults now ((λ def, Evaluate def rep now) <$> defs)
    end.

Definition ResultsForRun (runID : Z) : M ThresholdStore error (list ThresholdResult) :=
  ask (ThresholdResultsForRun runID).
End thresholdapp.

(** ** Replacing a scenario's set *)
Definition ts_ok (s : ThresholdStore) : Prop :=
  ∀ id th, ts_threshold s !! id = Some th → th_ID th = id ∧ id <= ts_seq s.

Definition says (k d : Threshold) : Prop :=
  th_Metric k = th_Metric d ∧ th_Comparison k = th_Comparison d ∧
  (feq (th_Value k) (th_Value d) = true ∨ th_Value k = th_Value d).

Lemma verbatim_says ex def : verbatim ex def = true → says ex def.
Proof. unfold verbatim, says. intros H. to_prop. auto. Qed.

Lemma elem_of_scenario_thresholds sc s th :
  th ∈ scenario_thresholds sc s ↔ th_ScenarioID th = sc ∧ ∃ id, ts_threshold s !! id = Some th.
Proof.
  unfold scenario_thresholds. rewrite (merge_sort_Permutation th_id_le).
  rewrite list_elem_of_filter, list_elem_of_fmap. split.
  - intros (Hsc & [id th'] & -> & Hin%elem_of_map_to_list). eauto.
  - intros (Hsc & id & Hin). split; [done|]. exists (id, th). by rewrite elem_of_map_to_list.
Qed.
Lemma scenario_thresholds_NoDup sc s : ts_ok s → NoDup (th_ID <$> scenario_thresholds sc s).
Proof.
  intros Hok. unfold scenario_thresholds. rewrite (merge_sort_Permutation th_id_le).
  assert (NoDup (map_to_list (ts_threshold s)).*1) as Hnd by apply NoDup_fst_map_to_list.
  assert (∀ x, x ∈ map_to_list (ts_threshold s) → th_ID x.2 = x.1) as Hk.
  { intros [id th] Hin%elem_of_map_to_list. by apply Hok in Hin as [? _]. }
  induction (map_to_list (ts_threshold s)) as [|[id th] l IH]; cbn [fmap list_fmap snd fst] in *; [constructor|].
  apply NoDup_cons in Hnd as [Hnot Hnd]. rewrite filter_cons.
  assert (NoDup (th_ID <$> filter (λ th, th_ScenarioID th = sc) l.*2)) as IH'
    by (apply IH; [done|intros x Hx; apply Hk; by right]).
  case_decide; [|done]. cbn [fmap list_fmap]. apply NoDup_cons. split; [|done].
  rewrite list_elem_of_fmap. intros (th' & Heq & [_ Hin]%list_elem_of_filter).
  apply list_elem_of_fmap in Hin as ([id' th''] & -> & Hin). apply Hnot.
  pose proof (Hk _ (list_elem_of_here _ _)) as Hk0. pose proof (Hk (id', th'') ltac:(by right)) as Hk1.
  cbn in *. apply list_elem_of_fmap. exists (id', th''). split; [cbn; congruence|done].
Qed.

(** What pairing the definitions with existing rows yields. *)
Record paired (sc : Z) (existing defs : list Threshold) (matched : gset Z) (s : ThresholdStore)
    (kept : list Threshold) (matched' : gset Z) (s1 : ThresholdStore) : Prop := {
  pd_ok : ts_ok s1;
  pd_results : ts_results s1 = ts_results s;
  pd_seq : ts_seq s <= ts_seq s1;
  pd_old : ts_threshold s ⊆ ts_threshold s1;
  pd_new : ∀ id th, ts_threshold s1 !! id = Some th → ts_threshold s !! id = Some th ∨ th ∈ kept;
  pd_kept : ∀ th, th ∈ kept → ts_threshold s1 !! th_ID th = Some th ∧ th_ScenarioID th = sc ∧
    (th ∈ existing ∧ th_ID th ∈ matched' ∧ ¬ th_ID th ∈ matched ∨ ts_seq s < th_ID th);
  pd_matched : matched ⊆ matched';
  pd_taken : ∀ ex, ex ∈ existing → th_ID ex ∈ matched' → th_ID ex ∈ matched ∨ ex ∈ kept;
  pd_distinct : NoDup (th_ID <$> kept);
  pd_says : Forall2 says kept defs
}.

Lemma pair_definitions_paired now sc existing defs matched s kept matched' s1 :
  ts_ok s → NoDup (th_ID <$> existing) →
  (∀ ex, ex ∈ existing → ts_threshold s !! th_ID ex = Some ex ∧ th_ScenarioID ex = sc) →
  pair_definitions now sc existing defs matched s = (kept, matched', s1) →
  paired sc existing defs matched s kept matched' s1.
Proof.
  revert matched s kept. induction defs as [|def defs IH]; intros matched s kept Hok Hnd Hex;
    cbn [pair_definitions].
  { intros [= <- <- <-]. split; try done; [by left|..].
    - intros th Hth. by apply elem_of_nil in Hth.
    - by left.
    - constructor. }
  destruct (reusable matched def existing) as [ex|] eqn:Hre.
  - apply List.find_some in Hre as [Hin%list_elem_of_In Hv]. to_prop.
    destruct (pair_definitions now sc existing defs ({[th_ID ex]} ∪ matched) s) as [[k m] s2] eqn:E.
    intros [= <- <- <-]. destruct (Hex ex Hin) as [Hs Hsc].
    destruct (IH _ _ _ Hok Hnd Hex E) as [A1 A2 A3 A4 A5 A6 A7 A8 A9 A10]. clear IH E.
    split; try done.
    + intros x th Hx. destruct (A5 x th Hx); [by left|right; by right].
    + intros th [->|Hth]%elem_of_cons.
      * split; [by eapply lookup_weaken|]. split; [done|]. left. split; [done|].
        split; [|done]. apply A7. apply elem_of_union. left. by apply elem_of_singleton.
      * destruct (A6 th Hth) as (? & ? & [(? & ? & Hn)|?]); split_and!; try done; [left|by right].
        split; [done|]. split; [done|]. intros Hm. apply Hn. apply elem_of_union. by right.
    + etrans; [|exact A7]. apply union_subseteq_r.
    + intros x Hx Hm. destruct (A8 x Hx Hm) as [Hm'|?]; [|right; by right].
      apply elem_of_union in Hm' as [Heq%elem_of_singleton|?]; [|by left].
      right. apply elem_of_cons. left. destruct (Hex x Hx) as [E1 _]. rewrite Heq in E1. congruence.
    + cbn. apply NoDup_cons. split; [|done]. intros (th & Heq & Hth)%list_elem_of_fmap.
      destruct (A6 th Hth) as (_ & _ & [(_ & _ & Hn)|Hlt]).
      * apply Hn. rewrite <- Heq. apply elem_of_union. left. by apply elem_of_singleton.
      * apply Hok in Hs as [_ ?]. lia.
    + constructor; [by apply verbatim_says|done].
  - set (id := ts_seq s + 1). set (def' := mkThreshold id sc _ _ _ now).
    set (s0 := ts_put (<[id := def']> (ts_threshold s)) (ts_results s) id s).
    destruct (pair_definitions now sc existing defs matched s0) as [[k m] s2] eqn:E.
    intros [= <- <- <-].
    assert (ts_threshold s !! id = None) as Hfresh.
    { destruct (ts_threshold s !! id) eqn:E'; [|done]. apply Hok in E' as [_ ?]. unfold id in *. lia. }
    destruct (IH matched s0 k) as [A1 A2 A3 A4 A5 A6 A7 A8 A9 A10]; [| |  |exact E|].
    { intros x th. cbn. rewrite lookup_insert_Some. intros [[<- <-]|[_ Hx]]; [cbn; lia|].
      apply Hok in Hx as [??]. unfold id. lia. }
    { done. }
    { intros ex Hin. destruct (Hex ex Hin) as [Hs ?]. split; [|done]. cbn.
      rewrite lookup_insert_ne; [done|]. intros Heq. rewrite <- Heq in Hs. congruence. }
    clear IH E. cbn in A2, A3, A4.
    split; try done.
    + unfold id in A3. lia.
    + etrans; [|exact A4]. by apply insert_subseteq.
    + intros x th Hx. destruct (A5 x th Hx) as [Hx'|?]; [|right; by right]. cbn in Hx'.
      apply lookup_insert_Some in Hx' as [[_ <-]|[_ ?]]; [right; by left|by left].
    + intros th [->|Hth]%elem_of_cons.
      * split; [|split; [done|right; cbn; unfold id; lia]].
        eapply lookup_weaken; [|exact A4]. cbn. apply lookup_insert_eq.
      * destruct (A6 th Hth) as (? & ? & [?|Hlt]); split_and!; try done; [by left|right]. cbn in Hlt.
        unfold id in Hlt. lia.
    + intros x Hx Hm. destruct (A8 x Hx Hm); [by left|right; by right].
    + cbn. apply NoDup_cons. split; [|done]. intros (th & Heq & Hth)%list_elem_of_fmap.
      destruct (A6 th Hth) as (_ & _ & [(Hin & _ & _)|Hlt]).
      * destruct (Hex th Hin) as [Hs _]. rewrite <- Heq in Hs. cbn in Hs. congruence.
      * cbn in *. lia.
    + constructor; [|done]. split; [done|]. split; [done|by right].
Qed.

(** Dropping the rows nothing was paired with. *)
Lemma drop_unmatched_seq keptIDs matched existing s :
  ts_seq (fold_left (drop_unmatched keptIDs matched) existing s) = ts_seq s.
Proof.
  revert s. induction existing as [|ex l IH]; intros s; [done|]. cbn. rewrite IH.
  unfold drop_unmatched. by case_bool_decide.
Qed.
Lemma drop_unmatched_lookup keptIDs matched existing s id th :
  ts_threshold (fold_left (drop_unmatched keptIDs matched) existing s) !! id = Some th ↔
  ts_threshold s !! id = Some th ∧ (id ∈ th_ID <$> existing → id ∈ matched).
Proof.
  revert s. induction existing as [|ex l IH]; intros s; cbn [fold_left fmap list_fmap].
  { split; [intros; split; [done|by intros ?%elem_of_nil]|by intros [? _]]. }
  rewrite IH. unfold drop_unmatched. setoid_rewrite elem_of_cons. case_bool_decide as Hm; cbn.
  - split; intros [Hs Hl]; (split; [done|]).
    + intros [->|?]; auto.
    + auto.
  - rewrite lookup_delete_Some. split; [intros [[Hne Hs] Hl]|intros [Hs Hl]].
    + split; [done|]. intros [->|?]; [done|auto].
    + split; [split; [intros <-; apply Hm, Hl; by left|done]|auto].
Qed.
Lemma drop_unmatched_none keptIDs matched existing s :
  (∀ ex, ex ∈ existing → th_ID ex ∈ matched) →
  fold_left (drop_unmatched keptIDs matched) existing s = s.
Proof.
  induction existing as [|ex l IH]; intros Hall; [done|]. cbn. unfold drop_unmatched at 2.
  rewrite bool_decide_true by (apply Hall; by left). apply IH. intros x Hx. apply Hall. by right.
Qed.
Lemma drop_unmatched_results keptIDs matched existing s run r :
  r ∈ default [] (ts_results (fold_left (drop_unmatched keptIDs matched) existing s) !! run) →
  r ∈ default [] (ts_results s !! run).
Proof.
  revert s. induction existing as [|ex l IH]; intros s; [done|]. cbn. intros Hr%IH. revert Hr.
  unfold drop_unmatched. case_bool_decide; [done|]. cbn. rewrite lookup_fmap.
  destruct (ts_results s !! run) as [rows|]; [|done]. cbn. by intros [_ ?]%list_elem_of_filter.
Qed.

Lemma ReplaceThresholds_inv now sc defs s kept s' :
  ts_ok s → ReplaceThresholds now sc defs s = (Ok kept, s') →
  ∃ matched s1, paired sc (scenario_thresholds sc s) defs ∅ s kept matched s1 ∧
    s' = fold_left (drop_unmatched (list_to_set (th_ID <$> kept)) matched) (scenario_thresholds sc s) s1.
Proof.
  intros Hok. unfold ReplaceThresholds. destruct (ts_ReplaceErr s); [done|].
  destruct (pair_definitions _ _ _ _ _ _) as [[k m] s1] eqn:E. intros [= <- <-].
  exists m, s1. split; [|done]. eapply pair_definitions_paired; [done| | |exact E].
  - by apply scenario_thresholds_NoDup.
  - intros ex [Hsc [id Hid]]%elem_of_scenario_thresholds. split; [|done].
    pose proof Hid as [<- _]%Hok. done.
Qed.

Lemma scenario_thresholds_kept sc s' kept :
  ts_ok s' → NoDup (th_ID <$> kept) →
  (∀ id th, ts_threshold s' !! id = Some th ∧ th_ScenarioID th = sc ↔ th ∈ kept ∧ th_ID th = id) →
  scenario_thresholds sc s' ≡ₚ kept.
Proof.
  intros Hok Hnd Hiff. apply NoDup_Permutation.
  - eapply NoDup_fmap_1. by apply scenario_thresholds_NoDup.
  - by eapply NoDup_fmap_1.
  - intros th. rewrite elem_of_scenario_thresholds. split.
    + intros [Hsc [id Hid]]. by apply (Hiff id).
    + intros Hk. destruct (proj2 (Hiff (th_ID th) th) (conj Hk eq_refl)) as [? ?]. eauto.
Qed.

Lemma replaced_rows now sc defs s kept s' :
  ts_ok s → ReplaceThresholds now sc defs s = (Ok kept, s') →
  ts_ok s' ∧ NoDup (th_ID <$> kept) ∧ Forall2 says kept defs ∧
  (∀ id th, ts_threshold s' !! id = Some th ∧ th_ScenarioID th = sc ↔ th ∈ kept ∧ th_ID th = id) ∧
  (∀ id th, th_ScenarioID th ≠ sc →
    ts_threshold s' !! id = Some th ↔ ts_threshold s !! id = Some th).
Proof.
  intros Hok H. destruct (ReplaceThresholds_inv _ _ _ _ _ _ Hok H) as (m & s1 & [] & ->).
  assert (∀ id th, ts_threshold s !! id = Some th → th_ScenarioID th ≠ sc →
    ¬ id ∈ th_ID <$> scenario_thresholds sc s) as Hother.
  { intros id th Hid Hne ([? ?] & -> & [Hsc [id' Hid']]%elem_of_scenario_thresholds)%list_elem_of_fmap.
    pose proof Hid' as [Heq _]%Hok. rewrite <- Heq in Hid'. congruence. }
  split_and!; try done.
  - intros id th [Hs _]%drop_unmatched_lookup. rewrite drop_unmatched_seq. by apply pd_ok0.
  - intros id th. rewrite drop_unmatched_lookup. split.
    + intros [[Hs Hl] Hsc]. pose proof Hs as [Hid _]%pd_ok0. split; [|done].
      destruct (pd_new0 id th Hs) as [Hold|?]; [|done].
      assert (th ∈ scenario_thresholds sc s) as Hin by (apply elem_of_scenario_thresholds; eauto).
      destruct (pd_taken0 th Hin) as [?%elem_of_empty|?]; [|done|done].
      rewrite Hid. apply Hl. apply list_elem_of_fmap. eauto.
    + intros [Hk <-]. destruct (pd_kept0 th Hk) as (Hs & Hsc & [(_ & Hm & _)|Hlt]); split_and!; try done.
      intros (ex & Heq & [_ [id Hid]]%elem_of_scenario_thresholds)%list_elem_of_fmap.
      apply Hok in Hid as [??]. lia.
  - intros id th Hne. rewrite drop_unmatched_lookup. split.
    + intros [Hs _]. destruct (pd_new0 id th Hs) as [?|Hk]; [done|].
      destruct (pd_kept0 th Hk) as (_ & ? & _). done.
    + intros Hs. split; [by eapply lookup_weaken|]. intros Hin. by apply (Hother id th) in Hin.
Qed.

(** Saving back what was listed pairs every definition with its own row. *)
Lemma verbatim_refl th : feq (th_Value th) (th_Value th) = true → verbatim th th = true.
Proof. intros H. unfold verbatim. by rewrite !bool_decide_true, H. Qed.
Lemma reusable_self (matched : gset Z) x pre suf :
  (∀ y, y ∈ pre → th_ID y ∈ matched) → ¬ th_ID x ∈ matched →
  feq (th_Value x) (th_Value x) = true → reusable matched x (pre ++ x :: suf) = Some x.
Proof.
  intros Hpre Hx Hv. unfold reusable. induction pre as [|y pre IH]; cbn [List.app List.find].
  - cbn. rewrite bool_decide_false by done. by rewrite verbatim_refl.
  - cbn. rewrite bool_decide_true by (apply Hpre; by left). cbn. apply IH. intros z Hz. apply Hpre. by right.
Qed.
Lemma pair_definitions_self now sc pre suf s :
  NoDup (th_ID <$> pre ++ suf) → Forall (λ th, feq (th_Value th) (th_Value th) = true) suf →
  pair_definitions now sc (pre ++ suf) suf (list_to_set (th_ID <$> pre)) s =
  (suf, list_to_set (th_ID <$> pre ++ suf), s).
Proof.
  revert pre. induction suf as [|x suf IH]; intros pre Hnd Hv; cbn [pair_definitions].
  { by rewrite app_nil_r. }
  apply Forall_cons in Hv as [Hx Hv]. rewrite reusable_self; [| | |done].
  - assert ({[th_ID x]} ∪ list_to_set (th_ID <$> pre) = (list_to_set (th_ID <$> pre ++ [x]) : gset Z)) as ->.
    { rewrite fmap_app, list_to_set_app_L. cbn. set_solver. }
    specialize (IH (pre ++ [x])). rewrite <- (assoc_L app) in IH. cbn in IH. by rewrite IH.
  - intros y Hy. apply elem_of_list_to_set, list_elem_of_fmap. eauto.
  - rewrite elem_of_list_to_set. rewrite fmap_app in Hnd. apply NoDup_app in Hnd as (_ & Hd & _).
    intros Hin. apply (Hd _ Hin). cbn. by left.
Qed.
Lemma bind_scenario_id sc s : bind_scenario sc <$> scenario_thresholds sc s = scenario_thresholds sc s.
Proof.
  assert (∀ th, th ∈ scenario_thresholds sc s → bind_scenario sc th = th) as H.
  { intros th [<- _]%elem_of_scenario_thresholds. by destruct th. }
  induction (scenario_thresholds sc s) as [|th l IH]; [done|]. cbn. rewrite H by (by left). f_equal.
  apply IH. intros x Hx. apply H. by right.
Qed.
Lemma validate_all_Ok defs : validate_all defs = Ok tt ↔ Forall (λ d, Threshold_Validate d = Ok tt) defs.
Proof.
  induction defs as [|d l IH]; cbn; [split; [constructor|done]|].
  rewrite Forall_cons. destruct (Threshold_Validate d) as [[]|e] eqn:E; cbn.
  - rewrite IH. by split; [|intros [_ ?]].
  - split; [done|]. by intros [? _].
Qed.

(** Grading. *)
Lemma add_by_run_same run rows m acc :
  Forall (λ r, tr_RunID r = run) rows → m = {[run := acc]} →
  fold_left add_by_run rows m = {[run := acc ++ rows]}.
Proof.
  revert m acc. induction rows as [|r rows IH]; intros m acc Hall ->; [by rewrite app_nil_r|].
  apply Forall_cons in Hall as [Hr Hall]. cbn. rewrite (IH _ (acc ++ [r])); [|done|].
  - rewrite <- (assoc_L app). reflexivity.
  - unfold add_by_run. rewrite Hr, lookup_singleton_eq. cbn. by rewrite insert_singleton_eq.
Qed.
Lemma stamp_Evaluate now th rep : stamp now (Evaluate th rep now) = Evaluate th rep now.
Proof. unfold Evaluate, stamp. destruct (Observe _ _); cbn; by destruct (IsZero now). Qed.
Lemma Evaluate_run th rep now : tr_RunID (Evaluate th rep now) = rep_RunID rep.
Proof. unfold Evaluate. by destruct (Observe _ _). Qed.

(** Saving a scenario's thresholds is replace-all: the request is
    validated whole before anything is stored, the rows that come back say
    exactly what was sent in the order it was sent, they are the scenario's
    listing from then on, and no other scenario's listing changes. *)
Theorem replace_is_whole_truth now sc defs st kept st' :
  ts_ok st.2 → Replace now sc defs st = (Ok kept, st') →
  st'.1 = st.1 ∧ ts_ok st'.2 ∧
  Forall (λ d, Threshold_Validate (bind_scenario sc d) = Ok tt) defs ∧
  Forall2 says kept defs ∧
  scenario_thresholds sc st'.2 ≡ₚ kept ∧
  ∀ other, other ≠ sc → scenario_thresholds other st'.2 ≡ₚ scenario_thresholds other st.2.
Proof.
  intros Hok (scn & st1 & [= _ <-] & H)%bind_Ok.
  apply bind_Ok in H as ([] & st2 & [Hv ->]%lift_Ok & H). unfold on_thresholds in H.
  destruct (ReplaceThresholds _ _ _ _) as [r t] eqn:E. injection H as -> <-.
  destruct (replaced_rows _ _ _ _ _ _ Hok E) as (Hok' & Hnd & Hs & Hown & Hother).
  split_and!; try done.
  - apply validate_all_Ok in Hv. by rewrite Forall_fmap in Hv.
  - rewrite Forall2_fmap_r in Hs. exact Hs.
  - by apply scenario_thresholds_kept.
  - intros other Hne. apply NoDup_Permutation.
    1,2: eapply NoDup_fmap_1; by apply scenario_thresholds_NoDup.
    intros th. rewrite !elem_of_scenario_thresholds. cbn.
    split; intros [<- [id Hid]]; (split; [done|]); exists id; by apply Hother.
Qed.

(** An idempotent save keeps every row's identity and every recorded
    result: saving back what was listed returns it and changes nothing. *)
Theorem resave_changes_nothing now sc st :
  ts_ok st.2 → (∃ scn, GetScenario sc st.1 = Ok scn) → ts_ReplaceErr st.2 = None →
  Forall (λ th, Threshold_Validate th = Ok tt ∧ feq (th_Value th) (th_Value th) = true)
    (scenario_thresholds sc st.2) →
  Replace now sc (scenario_thresholds sc st.2) st = (Ok (scenario_thresholds sc st.2), st).
Proof.
  intros Hok [scn Hget] Herr [Hval Hnum]%Forall_and. destruct st as [s t]. cbn [fst snd] in *.
  unfold Replace, mbind, M_bind, ask, lift. cbn [fst snd]. rewrite Hget. cbv zeta.
  rewrite bind_scenario_id. apply validate_all_Ok in Hval. rewrite Hval.
  unfold on_thresholds, ReplaceThresholds. cbn [fst snd]. rewrite Herr.
  pose proof (pair_definitions_self now sc [] (scenario_thresholds sc t) t
    (scenario_thresholds_NoDup sc t Hok) Hnum) as Hp. cbn [List.app fmap list_fmap list_to_set] in Hp.
  rewrite Hp. rewrite drop_unmatched_none; [done|].
  intros ex Hex. apply elem_of_list_to_set, list_elem_of_fmap. eauto.
Qed.

(** Grading a report of a scenario with thresholds records one result per
    threshold, in listing order, as the whole of that run's results; no
    threshold and no other run's result changes, and a bound is met only
    strictly. *)
Theorem grading_exact now rep s :
  0 < rep_ScenarioID rep → ts_ListErr s = None → ts_SaveResultsErr s = None →
  scenario_thresholds (rep_ScenarioID rep) s ≠ [] →
  ∃ s', Threshold_EvaluateRun now rep s = (Ok tt, s') ∧
    ts_results s' !! rep_RunID rep =
      Some ((λ th, Evaluate th rep now) <$> scenario_thresholds (rep_ScenarioID rep) s) ∧
    (∀ run, run ≠ rep_RunID rep → ts_results s' !! run = ts_results s !! run) ∧
    ts_threshold s' = ts_threshold s ∧
    ∀ th v, Observe rep (th_Metric th) = inl v →
      tr_Satisfied (Evaluate th rep now) =
        Some (if bool_decide (th_Comparison th = ComparisonGT)
              then flt (th_Value th) v else flt v (th_Value th)).
Proof.
  intros Hsc Hl Hs Hne. unfold Threshold_EvaluateRun. rewrite (proj2 (Z.leb_gt _ _)) by lia.
  unfold mbind, M_bind, attempt, ask, ListThresholdsForScenario. rewrite Hl.
  destruct (scenario_thresholds (rep_ScenarioID rep) s) as [|th0 l] eqn:E; [done|].
  unfold SaveThresholdResults. rewrite Hs. eexists. split; [reflexivity|]. cbn [ts_results ts_put ts_threshold].
  set (rows := (λ th, Evaluate th rep now) <$> th0 :: l).
  assert (stamp now <$> rows = rows) as Hst.
  { unfold rows. rewrite <- list_fmap_compose. apply list_fmap_ext. intros. cbn. apply stamp_Evaluate. }
  rewrite Hst. assert (fold_left add_by_run rows ∅ = {[rep_RunID rep := rows]}) as ->.
  { unfold rows. cbn [fmap list_fmap fold_left]. unfold add_by_run at 2. rewrite lookup_empty. cbn.
    rewrite Evaluate_run. rewrite insert_empty. erewrite add_by_run_same; [|..|reflexivity]; [done|].
    apply Forall_fmap, Forall_true. intros. apply Evaluate_run. }
  split_and!.
  - by rewrite lookup_union, lookup_singleton_eq, union_Some_l.
  - intros run Hr. by rewrite lookup_union, lookup_singleton_ne, (left_id_L None _) by done.
  - done.
  - intros th v Hv. unfold Evaluate. rewrite Hv. reflexivity.
Qed.

(** Witnesses: an empty store, two bounds for scenario 1 saved, listed, saved
    back, and graded on an empty report. *)
Definition w_scenarios : Store :=
  (CreateScenario 1 (mkScenario 0 "checkout" 1 KindPortable "" None "" "" 0 false "") NewStore).2.
Definition w_defs : list Threshold :=
  [suggestion MetricHTTPP95MS ComparisonLT (of_int 500);
   suggestion MetricThroughputQPS ComparisonGT (of_int 50)].
Definition w_saved : Store * ThresholdStore :=
  (Replace 7 1 w_defs (w_scenarios, NewThresholdStore)).2.
Lemma ts_ok_new : ts_ok NewThresholdStore.
Proof. intros id th H. cbn in H. by rewrite lookup_empty in H. Qed.
Lemma w_saved_ok : ts_ok w_saved.2.
Proof.
  unfold w_saved. cbn [fst snd].
  destruct (Replace 7 1 w_defs (w_scenarios, NewThresholdStore)) as [r st] eqn:E.
  unfold Replace, mbind, M_bind, ask, lift, on_thresholds in E.
  change (GetScenario 1 (w_scenarios, NewThresholdStore).1) with
    (Ok (E := error) (mkScenario 1 "checkout" 1 KindPortable "" None "" "" 1 false "")) in E.
  cbv zeta in E. change (validate_all _) with (Ok (E := error) tt) in E.
  destruct (ReplaceThresholds _ _ _ _) as [[k|e] t] eqn:E'; [|vm_compute in E'; discriminate].
  injection E as _ <-. exact (proj1 (replaced_rows _ _ _ _ _ _ ts_ok_new E')).
Qed.

Lemma replace_is_whole_truth_witness :
  ∃ kept, Replace 7 1 w_defs (w_scenarios, NewThresholdStore) = (Ok kept, w_saved) ∧
    scenario_thresholds 1 w_saved.2 ≡ₚ kept ∧ Forall2 says kept w_defs ∧ th_ID <$> kept = [1; 2].
Proof.
  assert (Replace 7 1 w_defs (w_scenarios, NewThresholdStore) =
    (Ok [mkThreshold 1 1 MetricHTTPP95MS ComparisonLT (of_int 500) 7;
         mkThreshold 2 1 MetricThroughputQPS ComparisonGT (of_int 50) 7], w_saved)) as E
    by (vm_compute; reflexivity).
  eexists. split; [exact E|].
  pose proof (replace_is_whole_truth 7 1 w_defs (w_scenarios, NewThresholdStore) _ _ ts_ok_new E) as (_ & _ & _ & Hs & Hp & _).
  split; [exact Hp|]. split; [exact Hs|reflexivity].
Defined.

Lemma resave_changes_nothing_witness :
  Replace 9 1 (scenario_thresholds 1 w_saved.2) w_saved = (Ok (scenario_thresholds 1 w_saved.2), w_saved) ∧
  th_CreatedTime <$> scenario_thresholds 1 w_saved.2 = [7; 7].
Proof.
  split; [|vm_compute; reflexivity].
  apply (resave_changes_nothing 9 1 w_saved); [exact w_saved_ok|eexists; vm_compute; reflexivity|
    vm_compute; reflexivity|].
  assert (scenario_thresholds 1 w_saved.2 =
    [mkThreshold 1 1 MetricHTTPP95MS ComparisonLT (of_int 500) 7;
     mkThreshold 2 1 MetricThroughputQPS ComparisonGT (of_int 50) 7]) as -> by (vm_compute; reflexivity).
  repeat constructor.
Defined.

Definition w_report : Report :=
  Build (mkMeta 4 1 3 "" "" "" 0 0 (mkLoad 0 fzero 0 [] 0 0) OutcomePassed) [].
Lemma grading_exact_witness :
  ∃ s', Threshold_EvaluateRun 9 w_report w_saved.2 = (Ok tt, s') ∧
    tr_Satisfied <$> default [] (ts_results s' !! 3) = [Some true; Some false].
Proof.
  destruct (grading_exact 9 w_report w_saved.2) as (s' & E & Hr & _).
  - vm_compute; reflexivity.
  - vm_compute; reflexivity.
  - vm_compute; reflexivity.
  - intros H. apply (f_equal length) in H. vm_compute in H. discriminate.
  - exists s'. split; [exact E|]. change (rep_RunID w_report) with 3 in Hr. rewrite Hr.
    vm_compute. reflexivity.
Defined.
