(* ===== verification/Recs.v ===== *)
(** * Recommendations and usage ([internal/app/recsapp], [internal/app/usageapp])

    The advice drawn from one run's report: eight independent rules in a fixed
    order.  The accounting of virtual-user hours over the launch history. *)
From Stdlib Require Import Ascii.
From S2P Require Import Prelude Errors GoStrings GoFloat ParseFloat FormatFloat Taurus Histogram Report Store Threshold.

(** ** Printing floats *)

(** [%.nf]: the exact value rounded to [n] decimals, halves to even. *)
Definition round_half_even (n d : Z) : Z :=
  let '(q, r) := Z.div_eucl n d in
  if d <? 2 * r then q + 1 else if 2 * r <? d then q else if Z.even q then q else q + 1.
Fixpoint zeros (n : nat) : string := match n with O => "" | S n => "0" +:+ zeros n end.
Definition pad_left (width : nat) (s : string) : string := zeros (width - String.length s) +:+ s.
Definition fixed_digits (prec : nat) (scaled : Z) : string :=
  let p := 10 ^ Z.of_nat prec in
  pretty (scaled / p) +:+
  match prec with O => "" | _ => "." +:+ pad_left prec (pretty (scaled mod p)) end.
Definition fmt_fixed (prec : nat) (x : float64) : string :=
  match x with
  | S754_nan => "NaN"
  | S754_infinity s => if s then "-Inf" else "+Inf"
  | S754_zero s => (if s then "-" else "") +:+ fixed_digits prec 0
  | S754_finite s m e =>
      let n := Z.pos m * 10 ^ Z.of_nat prec in
      let scaled := if 0 <=? e then n * 2 ^ e else round_half_even n (2 ^ (- e)) in
      (if s then "-" else "") +:+ fixed_digits prec scaled
  end.
Example fmt_fixed_ex :
  fmt_fixed 1 (fdiv (of_int 1) (of_int 4)) = "0.2" ∧ fmt_fixed 1 (fdiv (of_int 3) (of_int 4)) = "0.8" ∧
  fmt_fixed 0 (fdiv (of_int (-5)) (of_int 2)) = "-2" ∧ fmt_fixed 2 (of_int 7) = "7.00" ∧
  fmt_fixed 2 (fdiv (of_int 3) (of_int 100)) = "0.03".
Proof. vm_compute. done. Qed.

(** ** The rules *)
Definition Severity := string.
Definition SeverityInfo : Severity := "info".
Definition SeverityWarning : Severity := "warning".
Definition IDHighErrorRate : string := "high-error-rate".
Definition IDLatencySpread : string := "latency-spread".
Definition IDThresholdMissed : string := "threshold-missed".
Definition IDLowThroughput : string := "low-throughput".
Definition IDNoThresholds : string := "no-thresholds".
Definition IDAbortedRun : string := "aborted-run".
Definition IDCapacityUnverified : string := "capacity-unverified".
Definition IDCapacityOutdated : string := "capacity-outdated".
Definition highErrorRateThreshold : float64 := of_decimal 1 (-2).
Definition latencySpreadFactor : float64 := of_int 4.
Definition capacityOutdatedAge : duration := 30 * 24 * 3600 * second.

Record Recommendation := mkRecommendation {
  rcm_ID : string; rcm_Title : string; rcm_Detail : string; rcm_Severity : Severity
}.
Record RecInput := mkRecInput {
  ri_Report : Report; ri_ThresholdsKnown : bool; ri_ThresholdsDefined : list Threshold;
  ri_ThresholdResults : list ThresholdResult; ri_CalibratedPerPodQPS : option float64; ri_ProfileAge : option duration
}.

Definition highErrorRateRule (rep : Report) : option Recommendation :=
  if fle (rep_ErrorRate rep) highErrorRateThreshold then None
  else Some (mkRecommendation IDHighErrorRate "High error rate"
    (fmt_fixed 1 (fmul (rep_ErrorRate rep) (of_int 100)) +:+ "% of this run's requests failed (attribution: " +:+
     pretty (at_Target (rep_Attribution rep)) +:+ " target-side, " +:+ pretty (at_Engine (rep_Attribution rep)) +:+
     " engine-side, " +:+ pretty (at_Unknown (rep_Attribution rep)) +:+ " unknown). " +:+
     "Check the target's health and logs for the run window, then read the failing pass/fail criteria on the Checks tab -- they name exactly what tripped.")
    SeverityWarning).

Definition latencySpreadRule (rep : Report) : option Recommendation :=
  match rep_Latency rep !! of_int 50, rep_Latency rep !! of_int 99 with
  | Some p50, Some p99 =>
      if fle p50 fzero then None
      else if fle p99 (fmul latencySpreadFactor p50) then None
      else Some (mkRecommendation IDLatencySpread "Wide latency spread"
        ("p99 is " +:+ fmt_fixed 1 (fdiv p99 p50) +:+ "x p50 (" +:+ fmt_fixed 0 (fmul p50 (of_int 1000)) +:+
         " ms vs " +:+ fmt_fixed 0 (fmul p99 (of_int 1000)) +:+
         " ms): a small tail of requests dominates the experience. " +:+
         "Hunt the slow endpoint on the Labels tab, then check connection reuse and pool sizing on the client and lock or GC pauses on the target.")
        SeverityWarning)
  | _, _ => None
  end.

Definition missed (r : ThresholdResult) : bool := bool_decide (tr_Satisfied r = Some false).

Definition formatMetricValue (m : Metric) (v : float64) : string :=
  if bool_decide (m = MetricHTTPP95MS) || bool_decide (m = MetricHTTPP99MS) then fmt_fixed 0 v +:+ " ms"
  else if bool_decide (m = MetricThroughputQPS) then fmt_fixed 1 v +:+ " req/s"
  else if bool_decide (m = MetricErrorRate) then fmt_fixed 1 (fmul v (of_int 100)) +:+ "%"
  else FormatFloat v.
Definition formatMissed (r : ThresholdResult) : string :=
  tr_Metric r +:+
  match tr_Observed r with
  | Some o => " observed " +:+ formatMetricValue (tr_Metric r) o
  | None => " had no observed value"
  end +:+ " against a bound of " +:+ tr_Comparison r +:+ " " +:+ formatMetricValue (tr_Metric r) (tr_Value r).
Definition thresholdMissedRule (results : list ThresholdResult) : option Recommendation :=
  match filter (λ r, missed r = true) results with
  | [] => None
  | l => Some (mkRecommendation IDThresholdMissed
      (match l with [_] => "Threshold missed" | _ => "Thresholds missed" end)
      ("This run missed its scenario's pass/fail bounds: " +:+ String.concat "; " (formatMissed <$> l) +:+
       ". If the bound was set optimistically, recalibrate it in the scenario's threshold editor; otherwise treat this as a regression and diff the run against a baseline on the Overview tab.")
      SeverityWarning)
  end.

Definition lowThroughputRule (rep : Report) : option Recommendation :=
  if fle (ld_Throughput (rep_Requested rep)) fzero || negb (ShortOfRequest rep) then None
  else Some (mkRecommendation IDLowThroughput "Throughput below the requested rate"
    ("The engine held " +:+ fmt_fixed 1 (ld_Throughput (rep_Achieved rep)) +:+ " req/s against the scenario's requested " +:+
     fmt_fixed 1 (ld_Throughput (rep_Requested rep)) +:+ " req/s -- under the 95% pacing tolerance. " +:+
     "Either the target could not take the load (cross-check the error rate and latency on this page) or the scenario's calibration is stale and deserves a fresh calibration run.")
    SeverityWarning).

Definition abortedRunRule (rep : Report) : option Recommendation :=
  if bool_decide (rep_Outcome rep = OutcomeAborted) then
    Some (mkRecommendation IDAbortedRun "Run aborted mid-flight"
      ("This run was aborted before it could finish, so its numbers cover a partial window: " +:+
       "rates, percentiles, and error counts describe the prefix that ran, not the run as designed. " +:+
       "Read the per-second series to see where load stopped, and re-run for a full window before drawing conclusions.")
      SeverityWarning)
  else None.

Definition capacityUnverifiedRule (rep : Report) (calibrated : option float64) : option Recommendation :=
  if bool_decide (is_Some calibrated) || fle (ld_Throughput (rep_Requested rep)) fzero then None
  else Some (mkRecommendation IDCapacityUnverified "No capacity profile for this pod size"
    ("This scenario requested a fixed rate, but no capacity profile exists for its exact pod size, " +:+
     "so there is no calibrated ceiling to judge the ask against. Calibrate to know your ceiling -- " +:+
     "the profile also powers engine fan-out for future runs.") SeverityInfo).

(** [Duration.Hours]. *)
Definition Duration_Hours (d : duration) : float64 :=
  fadd (of_int (Z.quot d (3600 * second))) (fdiv (of_int (Z.rem d (3600 * second))) (of_int (3600 * second))).
Definition capacityOutdatedRule (calibrated : option float64) (age : option duration) : option Recommendation :=
  match calibrated, age with
  | Some _, Some age =>
      if age <=? capacityOutdatedAge then None
      else Some (mkRecommendation IDCapacityOutdated "Capacity profile outdated"
        ("The capacity profile for this scenario's pod size was calibrated " +:+
         fmt_fixed 0 (fdiv (Duration_Hours age) (of_int 24)) +:+ " days ago -- past the 30-day freshness line. " +:+
         "The scenario may have changed since calibration; re-calibrate before trusting the per-pod ceiling or fan-out math.")
        SeverityInfo)
  | _, _ => None
  end.

Definition noThresholdsRule (known : bool) (defined : list Threshold) : option Recommendation :=
  match defined with
  | [] => if known then
      Some (mkRecommendation IDNoThresholds "No thresholds configured"
        ("This scenario defines no pass/fail bounds, so no run of it can self-judge. " +:+
         "Add k6-style thresholds (e.g. " +:+ String (ascii_of_N 34) ("p95 under 300 ms" +:+ String (ascii_of_N 34) ") in the scenario's threshold editor to benchmark future runs automatically."))
        SeverityInfo) else None
  | _ => None
  end.

Definition Analyze (i : RecInput) : list Recommendation :=
  omap id [highErrorRateRule (ri_Report i); latencySpreadRule (ri_Report i);
           thresholdMissedRule (ri_ThresholdResults i); lowThroughputRule (ri_Report i);
           abortedRunRule (ri_Report i); capacityUnverifiedRule (ri_Report i) (ri_CalibratedPerPodQPS i);
           capacityOutdatedRule (ri_CalibratedPerPodQPS i) (ri_ProfileAge i);
           noThresholdsRule (ri_ThresholdsKnown i) (ri_ThresholdsDefined i)].

(** The rules in order, with the evidence each speaks on. *)
Definition evidence (i : RecInput) : list (string * bool) :=
  let rep := ri_Report i in
  let asked := negb (fle (ld_Throughput (rep_Requested rep)) fzero) in
  [(IDHighErrorRate, negb (fle (rep_ErrorRate rep) highErrorRateThreshold));
   (IDLatencySpread,
     match rep_Latency rep !! of_int 50, rep_Latency rep !! of_int 99 with
     | Some p50, Some p99 => negb (fle p50 fzero) && negb (fle p99 (fmul latencySpreadFactor p50))
     | _, _ => false
     end);
   (IDThresholdMissed, existsb missed (ri_ThresholdResults i));
   (IDLowThroughput, asked && ShortOfRequest rep);
   (IDAbortedRun, bool_decide (rep_Outcome rep = OutcomeAborted));
   (IDCapacityUnverified, negb (bool_decide (is_Some (ri_CalibratedPerPodQPS i))) && asked);
   (IDCapacityOutdated,
     match ri_CalibratedPerPodQPS i, ri_ProfileAge i with
     | Some _, Some age => capacityOutdatedAge <? age
     | _, _ => false
     end);
   (IDNoThresholds, ri_ThresholdsKnown i && match ri_ThresholdsDefined i with [] => true | _ => false end)].
Definition warnings : list string :=
  [IDHighErrorRate; IDLatencySpread; IDThresholdMissed; IDLowThroughput; IDAbortedRun].

(** A rule that speaks exactly on its evidence. *)
Definition rule_ok (rec : option Recommendation) (ev : string * bool) : Prop :=
  match rec with
  | Some r => rcm_ID r = ev.1 ∧ ev.2 = true ∧ (rcm_Severity r = SeverityWarning ↔ ev.1 ∈ warnings)
  | None => ev.2 = false
  end.
Lemma rules_listed recs evs :
  Forall2 rule_ok recs evs →
  rcm_ID <$> omap id recs = (filter (λ ev, ev.2 = true) evs).*1 ∧
  Forall (λ r, rcm_Severity r = SeverityWarning ↔ rcm_ID r ∈ warnings) (omap id recs).
Proof using.
  induction 1 as [|[r|] ev recs evs Hr _ [H1 H2]]; [split; [done|constructor]| |]; rewrite filter_cons; cbn.
  - destruct Hr as (Hid & Hs & Hw). rewrite decide_True by done. cbn. split; [by rewrite H1, Hid|].
    constructor; [by rewrite Hid|done].
  - cbn in Hr. rewrite Hr. by rewrite decide_False.
Qed.
Ltac solve_rule :=
  unfold rule_ok; cbn [fst snd rcm_ID rcm_Severity negb andb orb];
  first [done | split; [done|split; [done|]]; first [split; [intros _; unfold warnings; set_solver|done]
                                                    |split; [done|unfold warnings; set_solver]]].
Lemma rules_ok i :
  Forall2 rule_ok
    [highErrorRateRule (ri_Report i); latencySpreadRule (ri_Report i);
     thresholdMissedRule (ri_ThresholdResults i); lowThroughputRule (ri_Report i);
     abortedRunRule (ri_Report i); capacityUnverifiedRule (ri_Report i) (ri_CalibratedPerPodQPS i);
     capacityOutdatedRule (ri_CalibratedPerPodQPS i) (ri_ProfileAge i);
     noThresholdsRule (ri_ThresholdsKnown i) (ri_ThresholdsDefined i)] (evidence i).
Proof using.
  unfold evidence. constructor; [|constructor; [|constructor; [|constructor; [|constructor; [|constructor; [|constructor; [|constructor; [|constructor]]]]]]]].
  - unfold highErrorRateRule. destruct (fle (rep_ErrorRate (ri_Report i)) highErrorRateThreshold); solve_rule.
  - unfold latencySpreadRule. destruct (rep_Latency (ri_Report i) !! of_int 50) as [p50|]; [|solve_rule].
    destruct (rep_Latency (ri_Report i) !! of_int 99) as [p99|]; [|solve_rule].
    destruct (fle p50 fzero); [solve_rule|]. destruct (fle p99 _); solve_rule.
  - unfold thresholdMissedRule. destruct (existsb missed (ri_ThresholdResults i)) eqn:E.
    + apply existsb_exists in E as (r & Hin & Hm). destruct (filter _ _) as [|x l] eqn:Hf; [|solve_rule].
      assert (r ∈ filter (λ r, missed r = true) (ri_ThresholdResults i)) as Hr
        by (apply list_elem_of_filter; split; [done|by apply list_elem_of_In]).
      rewrite Hf in Hr. by apply elem_of_nil in Hr.
    + rewrite filter_none; [solve_rule|]. intros r Hin Hm. rewrite <- not_true_iff_false in E. apply E.
      apply existsb_exists. exists r. split; [by apply list_elem_of_In|done].
  - unfold lowThroughputRule. destruct (fle _ fzero); [solve_rule|]. destruct (ShortOfRequest _); solve_rule.
  - unfold abortedRunRule. case_bool_decide; solve_rule.
  - unfold capacityUnverifiedRule. case_bool_decide; [solve_rule|]. destruct (fle _ fzero); solve_rule.
  - unfold capacityOutdatedRule. destruct (ri_CalibratedPerPodQPS i); [|solve_rule].
    destruct (ri_ProfileAge i) as [age|]; [|solve_rule]. rewrite Z.leb_antisym. destruct (_ <? age); solve_rule.
  - unfold noThresholdsRule. destruct (ri_ThresholdsDefined i), (ri_ThresholdsKnown i); solve_rule.
Qed.

(** The advice is exactly that of the rules whose own evidence is there, each
    once and in the fixed order, whatever the others say; it is a warning
    exactly for the five patterns of the run itself. *)
Theorem analyze_exact i :
  rcm_ID <$> Analyze i = (filter (λ ev, ev.2 = true) (evidence i)).*1 ∧
  Forall (λ r, rcm_Severity r = SeverityWarning ↔ rcm_ID r ∈ warnings) (Analyze i).
Proof. apply rules_listed, rules_ok. Qed.

(** ** Usage *)
Record UsageSummary := mkUsageSummary {
  us_TotalVUH : gmap string float64; us_VUHByOwner : gmap string (gmap string float64)
}.
Definition billingHours (start end_ : time) : float64 := fceil (Duration_Hours (time_Sub end_ start)).
Definition add_to (k : string) (v : float64) (m : gmap string float64) : gmap string float64 :=
  <[k := fadd (default fzero (m !! k)) v]> m.
Definition usage_step (out : UsageSummary) (rec : LaunchRecord) : UsageSummary :=
  match lr_EndTime rec with
  | None => out
  | Some e =>
      let vuh := fmul (billingHours (lr_StartedTime rec) e) (of_int (lr_VU rec)) in
      mkUsageSummary (add_to (lr_Context rec) vuh (us_TotalVUH out))
        (<[lr_Owner rec := add_to (lr_Context rec) vuh (default ∅ (us_VUHByOwner out !! lr_Owner rec))]> (us_VUHByOwner out))
  end.
Definition Usage_Summary (from to : time) (s : Store) : UsageSummary :=
  fold_left usage_step (LaunchHistory from to s) (mkUsageSummary ∅ ∅).

(** A started hour is billed whole, and an hour that ends on time is not two. *)
Example billing_rounds_up :
  billingHours 0 (3600 * second) = of_int 1 ∧ billingHours 0 (3600 * second + 1) = of_int 2 ∧ billingHours 5 6 = of_int 1.
Proof. vm_compute. done. Qed.

(** The hours of a launch. *)
Definition launch_vuh (rec : LaunchRecord) : option float64 :=
  (λ e, fmul (billingHours (lr_StartedTime rec) e) (of_int (lr_VU rec))) <$> lr_EndTime rec.
Definition sum_vuh (l : list LaunchRecord) : option float64 :=
  fold_left (λ acc rec, match launch_vuh rec with Some v => Some (fadd (default fzero acc) v) | None => acc end) l None.
Lemma usage_fold l out ctx owner :
  let r := fold_left usage_step l out in
  us_TotalVUH r !! ctx =
    fold_left (λ acc rec, match launch_vuh rec with Some v => Some (fadd (default fzero acc) v) | None => acc end)
      (filter (λ rec, lr_Context rec = ctx) l) (us_TotalVUH out !! ctx) ∧
  us_VUHByOwner r !! owner ≫= (.!! ctx) =
    fold_left (λ acc rec, match launch_vuh rec with Some v => Some (fadd (default fzero acc) v) | None => acc end)
      (filter (λ rec, lr_Context rec = ctx ∧ lr_Owner rec = owner) l) (us_VUHByOwner out !! owner ≫= (.!! ctx)).
Proof.
  revert out. induction l as [|rec l IH]; intros out; cbn [fold_left]; [done|]. cbv zeta in *.
  destruct (IH (usage_step out rec)) as [-> ->]. rewrite !filter_cons. unfold usage_step, launch_vuh, add_to.
  destruct (lr_EndTime rec) as [e|] eqn:He; cbn [us_TotalVUH us_VUHByOwner].
  - split.
    + destruct (decide (lr_Context rec = ctx)) as [->|Hne]; cbn [fold_left]; rewrite ?He; cbn.
      * by rewrite lookup_insert_eq.
      * by rewrite lookup_insert_ne.
    + destruct (decide (lr_Owner rec = owner)) as [->|Hne].
      * rewrite lookup_insert_eq. cbn. destruct (decide (lr_Context rec = ctx)) as [->|Hnc].
        -- rewrite decide_True by done. cbn [fold_left]. rewrite He. cbn. rewrite lookup_insert_eq.
           by destruct (us_VUHByOwner out !! owner).
        -- rewrite decide_False by naive_solver. rewrite lookup_insert_ne by done.
           by destruct (us_VUHByOwner out !! owner).
      * rewrite lookup_insert_ne by done. by rewrite decide_False by naive_solver.
  - split; case_decide; cbn [fold_left]; rewrite ?He; done.
Qed.
(** Usage is additive per context and per owner: each figure is the sum, in the
    order of the history, of the billed hours of exactly its own launches. *)
Theorem usage_exact from to s ctx owner :
  us_TotalVUH (Usage_Summary from to s) !! ctx = sum_vuh (filter (λ rec, lr_Context rec = ctx) (LaunchHistory from to s)) ∧
  us_VUHByOwner (Usage_Summary from to s) !! owner ≫= (.!! ctx) =
    sum_vuh (filter (λ rec, lr_Context rec = ctx ∧ lr_Owner rec = owner) (LaunchHistory from to s)).
Proof.
  destruct (usage_fold (LaunchHistory from to s) (mkUsageSummary ∅ ∅) ctx owner) as [H1 H2].
  split; [exact H1|exact H2].
Qed.
