(* ===== verification/Cluster.v ===== *)
(** * Clusters and object storage ([internal/ports/scheduler.go])

    The port through which engines are deployed, and the in-memory
    implementations of it and of the object store
    ([internal/ports/fake/scheduler.go], [objectstore.go]); the state a
    service acts on. *)
From S2P Require Import Prelude Errors Reservation Quota RunTable Store.

Record ShardSpec := mkShardSpec { ss_Index : Z; ss_Config : string; ss_Concurrency : Z }.
Record DeploySpec := mkDeploySpec {
  ds_Cluster : string;
  ds_ProjectID : Z;
  ds_ExecutionID : Z;
  ds_ScenarioID : Z;
  ds_Image : string;
  ds_CPU : string;
  ds_Memory : string;
  ds_Shards : list ShardSpec;
  ds_ScenarioFiles : gmap string string
}.
Record ScenarioRef := mkScenarioRef { ref_ScenarioID : Z; ref_Shards : Z }.
Record ScenarioReadiness := mkReadiness {
  sr_ScenarioID : Z;
  sr_EnginesWanted : Z;
  sr_EnginesDeployed : Z;
  sr_Reachable : bool
}.
Record ExecutionStatus := mkExecutionStatus {
  es_Scenarios : list ScenarioReadiness;
  es_PoolSize : Z
}.
Record EngineDetail := mkEngineDetail {
  ed_Name : string; ed_Status : string; ed_CreatedTime : time
}.
Record ExecutionDetail := mkExecutionDetail {
  xd_IngressIP : string; xd_Engines : list EngineDetail
}.

(** [ports.Scheduler]: [C] is the state of the clusters it manages. *)
Class Scheduler (C : Type) := {
  DeployScenario : time → DeploySpec → M C error unit;
  ExecutionStatusOf : string → Z → list ScenarioRef → M C error ExecutionStatus;
  EngineDetailOf : string → Z → Z → M C error ExecutionDetail;
  PurgeExecution : string → Z → M C error unit;
  PodLog : string → Z → Z → Z → M C error string;
  DeployedExecutions : string → M C error (gmap Z time)
}.

(** What is left of an execution's deployment when some or all of it has been
    taken away: what was not deployed stays so. *)
Definition taken (before after : option time) : Prop := before = None → after = None.
#[global] Instance taken_po : PreOrder taken.
Proof. split; [intros x Hx; exact Hx|]. intros x y z Hxy Hyz Hx. auto. Qed.

(** What the port's documentation promises of the calls the teardown paths use:
    purging leaves nothing of the execution on that cluster and disturbs
    no other execution (a purge that fails half-way may have removed part of
    it), and reading changes nothing that is deployed. *)
Class SchedulerLaws (C : Type) `{!Scheduler C} := {
  deployed_on : string → C → gmap Z time;
  deployed_read : ∀ cluster s r s',
    DeployedExecutions cluster s = (Ok r, s') → r = deployed_on cluster s;
  list_reads : ∀ cluster s cluster',
    deployed_on cluster' (DeployedExecutions cluster s).2 = deployed_on cluster' s;
  purge_gone : ∀ cluster e s s',
    PurgeExecution cluster e s = (Ok tt, s') → deployed_on cluster s' !! e = None;
  purge_only : ∀ cluster e s cluster' e',
    deployed_on cluster' (PurgeExecution cluster e s).2 !! e' =
      deployed_on cluster' s !! e' ∨
    e' = e ∧ taken (deployed_on cluster' s !! e')
               (deployed_on cluster' (PurgeExecution cluster e s).2 !! e');
  log_reads : ∀ cluster e sc i s cluster',
    deployed_on cluster' (PodLog cluster e sc i s).2 = deployed_on cluster' s
}.

(** ** The in-memory scheduler

    One namespace for every cluster: the cluster argument is ignored. *)
Record schedDeploy := mkSchedDeploy { sd_spec : DeploySpec; sd_deployAt : time }.
Record FakeScheduler := mkFakeScheduler {
  deployments : gmap Z (gmap Z schedDeploy);
  Unreachable : bool;
  NotReadyCalls : Z;
  PodLogText : string;
  PodLogErr : option error;
  IngressIP : string
}.

Definition NewScheduler : FakeScheduler :=
  mkFakeScheduler ∅ false 0 "fake engine log" None "10.0.0.1".

Definition set_deployments (m : gmap Z (gmap Z schedDeploy)) (s : FakeScheduler) : FakeScheduler :=
  mkFakeScheduler m (Unreachable s) (NotReadyCalls s) (PodLogText s) (PodLogErr s) (IngressIP s).

Definition fake_DeployScenario (now : time) (spec : DeploySpec) : M FakeScheduler error unit :=
  modify (λ s,
    let scenarios := default ∅ (deployments s !! ds_ExecutionID spec) in
    let d := match scenarios !! ds_ScenarioID spec with
             | Some existing => mkSchedDeploy spec (sd_deployAt existing)
             | None => mkSchedDeploy spec now
             end in
    set_deployments
      (<[ds_ExecutionID spec := <[ds_ScenarioID spec := d]> scenarios]> (deployments s)) s).

Definition fake_LastDeploy (executionID scenarioID : Z) (s : FakeScheduler) : option DeploySpec :=
  sd_spec <$> default ∅ (deployments s !! executionID) !! scenarioID.

Definition readiness (executionID : Z) (s : FakeScheduler) (ref : ScenarioRef) :
    ScenarioReadiness :=
  match default ∅ (deployments s !! executionID) !! ref_ScenarioID ref with
  | Some d => mkReadiness (ref_ScenarioID ref) (ref_Shards ref)
                (Z.of_nat (length (ds_Shards (sd_spec d)))) (negb (Unreachable s))
  | None => mkReadiness (ref_ScenarioID ref) (ref_Shards ref) 0 false
  end.

Definition fake_ExecutionStatus (_ : string) (executionID : Z) (refs : list ScenarioRef) :
    M FakeScheduler error ExecutionStatus :=
  λ s,
    if 0 <? NotReadyCalls s then
      (Ok (mkExecutionStatus [] 0),
       mkFakeScheduler (deployments s) (Unreachable s) (NotReadyCalls s - 1) (PodLogText s)
         (PodLogErr s) (IngressIP s))
    else
      let rs := readiness executionID s <$> refs in
      (Ok (mkExecutionStatus rs (sum64 sr_EnginesDeployed rs)), s).

Definition engine_name (projectID executionID scenarioID : Z) (i : nat) : string :=
  "engine-" +:+ pretty projectID +:+ "-" +:+ pretty executionID +:+ "-" +:+ pretty scenarioID
  +:+ "-" +:+ pretty (Z.of_nat i).

Definition fake_EngineDetail (_ : string) (_ executionID : Z) :
    M FakeScheduler error ExecutionDetail :=
  gets (λ s,
    let scenarios := default ∅ (deployments s !! executionID) in
    let planIDs := merge_sort Z.le (map_to_list scenarios).*1 in
    mkExecutionDetail (IngressIP s)
      (planIDs ≫= λ scenarioID,
         match scenarios !! scenarioID with
         | Some d =>
             (λ i, mkEngineDetail (engine_name (ds_ProjectID (sd_spec d)) executionID scenarioID i)
                     "Running" (sd_deployAt d)) <$> seq 0 (length (ds_Shards (sd_spec d)))
         | None => []
         end)).

Definition fake_PurgeExecution (_ : string) (executionID : Z) : M FakeScheduler error unit :=
  modify (λ s, set_deployments (delete executionID (deployments s)) s).

Definition fake_PodLog (_ : string) (executionID scenarioID shard : Z) :
    M FakeScheduler error string :=
  λ s,
    (match default ∅ (deployments s !! executionID) !! scenarioID with
     | None => Err ErrEnginesUnreachable
     | Some d =>
         if (shard <? 0) || (Z.of_nat (length (ds_Shards (sd_spec d))) <=? shard)
         then Err ErrEnginesUnreachable
         else match PodLogErr s with
              | Some e => Err e
              | None => Ok (PodLogText s +:+ " (shard " +:+ pretty shard +:+ ")")
              end
     end, s).

(** The inner loop: the earliest deploy time of one execution's scenarios. *)
Definition earliest (scenarios : gmap Z schedDeploy) : option time :=
  fold_left (λ cur d,
      match cur with
      | None => Some (sd_deployAt d)
      | Some t => if Before (sd_deployAt d) t then Some (sd_deployAt d) else cur
      end) (map_to_list scenarios).*2 None.

Definition fake_deployed (s : FakeScheduler) : gmap Z time := omap earliest (deployments s).

Definition fake_DeployedExecutions (_ : string) : M FakeScheduler error (gmap Z time) :=
  gets fake_deployed.

#[global] Instance fake_scheduler : Scheduler FakeScheduler := {
  DeployScenario := fake_DeployScenario;
  ExecutionStatusOf := fake_ExecutionStatus;
  EngineDetailOf := fake_EngineDetail;
  PurgeExecution := fake_PurgeExecution;
  PodLog := fake_PodLog;
  DeployedExecutions := fake_DeployedExecutions
}.

#[global] Instance fake_scheduler_laws : SchedulerLaws FakeScheduler.
Proof.
  refine {| deployed_on := λ _, fake_deployed |}.
  - intros cluster s r s' H. by injection H as <- <-.
  - done.
  - intros cluster e s s' [= <-]. unfold fake_deployed. simpl.
    by rewrite lookup_omap, lookup_delete_eq.
  - intros cluster e s cluster' e'. unfold fake_deployed. simpl. rewrite !lookup_omap.
    destruct (decide (e = e')) as [->|]; [right; split; [done|intros _; by rewrite lookup_delete_eq]|left].
    by rewrite lookup_delete_ne.
  - intros. done.
Defined.

(** ** A scheduler per cluster

    How the router of the Kubernetes adapter answers when every name resolves to
    a cluster of its own: the call goes to that cluster, and an unknown name is
    an error. *)
Abbreviation Fleet := (gmap string FakeScheduler).
Definition on_member {A} (cluster : string) (m : M FakeScheduler error A) : M Fleet error A :=
  λ f, match f !! cluster with
       | None => (Err ErrNotFound, f)
       | Some s => let '(r, s') := m s in (r, <[cluster := s']> f)
       end.
#[global] Instance fleet_scheduler : Scheduler Fleet := {
  DeployScenario now spec := on_member (ds_Cluster spec) (fake_DeployScenario now spec);
  ExecutionStatusOf c e refs := on_member c (fake_ExecutionStatus c e refs);
  EngineDetailOf c p e := on_member c (fake_EngineDetail c p e);
  PurgeExecution c e := on_member c (fake_PurgeExecution c e);
  PodLog c e sc i := on_member c (fake_PodLog c e sc i);
  DeployedExecutions c := on_member c (fake_DeployedExecutions c)
}.
Definition fleet_deployed (c : string) (f : Fleet) : gmap Z time := default ∅ (fake_deployed <$> f !! c).
Lemma fleet_deployed_same {A} c (m : M FakeScheduler error A) f c' :
  (∀ s, fake_deployed (m s).2 = fake_deployed s) →
  fleet_deployed c' (on_member c m f).2 = fleet_deployed c' f.
Proof.
  intros Hm. unfold on_member, fleet_deployed. destruct (f !! c) as [s|] eqn:E; [|done].
  specialize (Hm s). destruct (m s) as [r s']; cbn in *. destruct (decide (c = c')) as [->|Hne].
  - rewrite lookup_insert_eq, E. cbn. by rewrite Hm.
  - by rewrite lookup_insert_ne.
Qed.
#[global] Instance fleet_scheduler_laws : SchedulerLaws Fleet.
Proof.
  refine {| deployed_on := fleet_deployed |}.
  - intros c f r f'. cbn. unfold on_member, fleet_deployed. destruct (f !! c); [|done]. by intros [= <- <-].
  - intros c f c'. by apply fleet_deployed_same.
  - intros c e f f'. cbn. unfold on_member, fleet_deployed. destruct (f !! c) as [s|]; [|done].
    intros [= <-]. rewrite lookup_insert_eq. cbn. unfold fake_deployed. cbn.
    by rewrite lookup_omap, lookup_delete_eq.
  - intros c e f c' e'. cbn [PurgeExecution fleet_scheduler]. unfold on_member, fleet_deployed. destruct (f !! c) as [s|] eqn:E; [|by left].
    cbn [fake_PurgeExecution modify fst snd].
    destruct (decide (c = c')) as [->|Hne]; [|left; by rewrite lookup_insert_ne].
    rewrite lookup_insert_eq, E. cbn. unfold fake_deployed. cbn. rewrite !lookup_omap.
    destruct (decide (e = e')) as [->|]; [right; split; [done|intros _; by rewrite lookup_delete_eq]|left].
    by rewrite lookup_delete_ne.
  - intros c e sc i f c'. by apply fleet_deployed_same.
Defined.

(** ** Object storage ([objectstore.go]) *)
Record ObjectStore := mkObjectStore {
  objects : gmap string string;
  UploadErr : option error
}.
Definition NewObjectStore : ObjectStore := mkObjectStore ∅ None.

Definition Upload (key content : string) : M ObjectStore error unit :=
  λ o, match UploadErr o with
       | Some e => (Err e, o)
       | None => (Ok tt, mkObjectStore (<[key := content]> (objects o)) (UploadErr o))
       end.

Definition Download (key : string) : M ObjectStore error string :=
  λ o, (match objects o !! key with Some data => Ok data | None => Err ErrObjectNotFound end, o).

Definition DeleteObject (key : string) : M ObjectStore error unit :=
  modify (λ o, mkObjectStore (delete key (objects o)) (UploadErr o)).

Definition ObjectURL (key : string) : string := "memory:///" +:+ key.

(** * The state a service acts on

    The store, the clusters behind the scheduler port, the object store, and
    the metrics service's own state.  A method of one of them is lifted to the
    whole state, which it leaves alone elsewhere. *)

Record World (C H : Type) := mkWorld {
  w_store : Store;
  w_cluster : C;
  w_objects : ObjectStore;
  w_metrics : H
}.
Arguments mkWorld {C H}.
Arguments w_store {C H}.
Arguments w_cluster {C H}.
Arguments w_objects {C H}.
Arguments w_metrics {C H}.

Section lifts.
Context {C H : Type}.
Let W : Type := World C H.

Definition set_store (s : Store) (w : W) : W :=
  mkWorld s (w_cluster w) (w_objects w) (w_metrics w).

(** A store method that can fail. *)
Definition on_store {A} (f : Store → result error A * Store) : M W error A :=
  λ w, let '(r, s) := f (w_store w) in (r, set_store s w).
(** A store method that cannot fail. *)
Definition upd_store (f : Store → Store) : M W error unit :=
  λ w, (Ok tt, set_store (f (w_store w)) w).
Definition read_store {A} (f : Store → A) : M W error A := λ w, (Ok (f (w_store w)), w).
Definition try_store {A} (f : Store → result error A) : M W error A := ask (λ w, f (w_store w)).

Definition upd_runs (f : RunTables → RunTables) : M W error unit :=
  upd_store (λ s, set_runs (f (st_runs s)) s).
Definition on_runs {A} (f : RunTables → result error A * RunTables) : M W error A :=
  on_store (λ s, let '(r, t) := f (st_runs s) in (r, set_runs t s)).

Definition on_cluster {A} (m : M C error A) : M W error A :=
  λ w, let '(r, c) := m (w_cluster w) in
       (r, mkWorld (w_store w) c (w_objects w) (w_metrics w)).
Definition on_objects {A} (m : M ObjectStore error A) : M W error A :=
  λ w, let '(r, o) := m (w_objects w) in
       (r, mkWorld (w_store w) (w_cluster w) o (w_metrics w)).
(** The metrics service writes its own state and the store. *)
Definition on_metrics {A} (m : M (Store * H) error A) : M W error A :=
  λ w, let '(r, (s, h)) := m (w_store w, w_metrics w) in
       (r, mkWorld s (w_cluster w) (w_objects w) h).

#[global] Instance keeps_read (R : relation W) `{!PreOrder R} {A} (f : Store → A) :
  Keeps R (read_store f).
Proof. intros w. reflexivity. Qed.
#[global] Instance keeps_try (R : relation W) `{!PreOrder R} {A} (f : Store → result error A) :
  Keeps R (try_store f).
Proof. intros w. reflexivity. Qed.

(** A method that leaves the store alone. *)
Definition same_store (w w' : W) : Prop := w_store w' = w_store w.
#[global] Instance same_store_po : PreOrder same_store.
Proof. unfold same_store. split; [done|]. intros w1 w2 w3 ? ?. congruence. Qed.
#[global] Instance store_cluster {A} (m : M C error A) : Keeps same_store (on_cluster m).
Proof. intros w. unfold same_store, on_cluster. by destruct (m (w_cluster w)). Qed.
#[global] Instance store_objects {A} (m : M ObjectStore error A) :
  Keeps same_store (on_objects m).
Proof. intros w. unfold same_store, on_objects. by destruct (m (w_objects w)). Qed.

#[global] Instance world_quota_repo : QuotaRepo W := {
  q_ledger w := st_ledger (w_store w);
  q_set_ledger l w := set_store (set_ledger l (w_store w)) w;
  q_current_run e w := currentRun (st_runs (w_store w)) !! e
}.
#[global] Instance world_quota_laws : QuotaRepoLaws W.
Proof. by split. Qed.
End lifts.
