(* ===== verification/ExecutionApp.v ===== *)
(** * Execution use-cases ([internal/app/executionapp])

    Creating and deleting executions, their data files, and the execution
    configuration: what may be stored, and how an entry that states a mode is
    turned into ordinary numbers before it is.  The sources a mode is resolved
    from are read-only collaborators, a record of reads of the world. *)
From Stdlib Require Import Ascii.
From S2P Require Import Prelude Errors GoStrings GoFloat LoadProfile Taurus Scenario Execution.
From S2P Require Import Histogram Report Calibration Capacity Reservation Quota RunTable Store Cluster.
Import Scenario.Project Scenario.Scenario.

(** ** Names and keys *)
Definition slash : ascii := "/"%char.
Definition backslash : ascii := "\"%char.
Definition bad_filename (filename : string) : bool :=
  bool_decide (filename = "") ||
  existsb (λ c, bool_decide (c = slash) || bool_decide (c = backslash)) (bytes_of filename) ||
  bool_decide (filename = ".") || bool_decide (filename = "..").
Definition validateFilename (filename : string) : result error unit :=
  if bad_filename filename then Err ErrExecInvalidFilename else Ok tt.
Definition executionKey (executionID : Z) (filename : string) : string :=
  "execution/" +:+ pretty executionID +:+ "/" +:+ filename.

(** [d.Seconds()]. *)
Definition duration_Seconds (d : duration) : float64 :=
  fadd (of_int (go_div d second)) (fdiv (of_int (go_rem d second)) (of_int 1000000000)).

Record FileRef := mkFileRef { fl_Filename : string; fl_URL : string }.

Section executionapp.
Context {C H : Type}.
Let W : Type := World C H.

(** ** Mode sources *)
Record CapacityProfiles := mkCapacityProfiles {
  cap_FanOut : Key → float64 → W → result error FanOutResult;
  cap_ProfileFor : Key → W → result error CapacityProfile
}.
Record ModeSources := mkModeSources {
  src_Capacity : option CapacityProfiles;
  src_Jobs : option (Z → W → result error CalibrationJob);
  src_Reports : option (Z → Z → W → result error (list Report));
  src_LatencyHint : duration;
  src_DefaultEngine : Executor
}.
Context (now : time) (maxEngines : Z) (modes : ModeSources).

Definition modeBaselineEngineCPU : string := "500m".
Definition modeBaselineEngineMemory : string := "512Mi".
Definition modeCapacityKey (coll : Execution) (scenarioID : Z) (defaultEngine : Executor) : Key :=
  mkKey scenarioID
    (if bool_decide (exe_Engine coll = "") then defaultEngine else exe_Engine coll)
    (if bool_decide (exe_CPU coll = "") then modeBaselineEngineCPU else exe_CPU coll)
    (if bool_decide (exe_Memory coll = "") then modeBaselineEngineMemory else exe_Memory coll).

(** Every break in the chain falls back to the configured hint. *)
Definition latencyHintSeconds (key : Key) (w : W) : float64 :=
  let fallback := duration_Seconds (src_LatencyHint modes) in
  match src_Capacity modes, src_Jobs modes, src_Reports modes with
  | Some cap, Some jobs, Some reports =>
      match cap_ProfileFor cap key w with
      | Err _ => fallback
      | Ok profile =>
          if cp_JobID profile =? 0 then fallback
          else match jobs (cp_JobID profile) w with
               | Err _ => fallback
               | Ok job =>
                   match reports (cj_ExecutionID job) 1 w with
                   | Ok (rep :: _) =>
                       let p95 := default fzero (rep_Latency rep !! of_int 95) in
                       if fgt p95 fzero then p95 else fallback
                   | _ => fallback
                   end
               end
      end
  | _, _, _ => fallback
  end.

Definition with_resolved (e : Entry) (engines concurrency rampup steps : Z) : Entry :=
  mkEntry (Name e) (ScenarioID e) concurrency rampup engines (Throughput e) (Duration e)
    (LoadProfile.CSVSplit e) (LoadProfile.Mode e) steps.

Definition resolve_entry (coll : Execution) (cap : CapacityProfiles) (w : W) (e : Entry) :
    result error Entry :=
  if bool_decide (LoadProfile.Mode e = "") then Ok e
  else match Loadmode.ParseMode (LoadProfile.Mode e) with
  | Err _ => Err ErrLPModeInvalid
  | Ok mode =>
      if Throughput e <=? 0 then Err ErrLPModeThroughput
      else
        let steps := if bool_decide (mode = Loadmode.ModeStaircase) && (Steps e =? 0)
                     then Loadmode.StaircaseStepsDefault else Steps e in
        let key := modeCapacityKey coll (ScenarioID e) (src_DefaultEngine modes) in
        match cap_FanOut cap key (of_int (Throughput e)) w with
        | Err err => Err err
        | Ok res =>
            if bool_decide (fr_Status res ≠ StatusOK)
            then Err (ModeResolutionError (status_string (fr_Status res)) (k_ScenarioID key)
                        (k_Engine key) (k_CPU key) (k_Memory key))
            else
              let users := users_for (of_int (Throughput e)) (latencyHintSeconds key w) in
              let users := if users <? fr_Engines res then fr_Engines res else users in
              Ok (with_resolved e (fr_Engines res) users
                    (Loadmode.RampupSeconds mode (Duration e)) steps)
        end
  end.

Fixpoint resolve_entries (coll : Execution) (cap : CapacityProfiles) (w : W)
    (entries : list Entry) : result error (list Entry) :=
  match entries with
  | [] => Ok []
  | e :: rest =>
      e' ← resolve_entry coll cap w e;
      rest' ← resolve_entries coll cap w rest;
      Ok (e' :: rest')
  end.
Definition has_mode (e : Entry) : bool := negb (bool_decide (LoadProfile.Mode e = "")).
Definition resolveModes (coll : Execution) (entries : list Entry) (w : W) :
    result error (list Entry) :=
  if negb (existsb has_mode entries) then Ok entries
  else match src_Capacity modes with
       | None => Err ErrModeResolutionUnavailable
       | Some cap => resolve_entries coll cap w entries
       end.

(** ** The configuration *)
Fixpoint check_scenarios (projectID : Z) (entries : list Entry) (s : Store) : result error unit :=
  match entries with
  | [] => Ok tt
  | ep :: rest =>
      p ← GetScenario (ScenarioID ep) s;
      if bool_decide (scn_ProjectID p ≠ projectID) then Err ErrScenarioNotInProject
      else check_scenarios projectID rest s
  end.
Definition with_tests (ec : Profile) (tests : list Entry) : Profile :=
  mkProfile (ProfileName ec) (ProfileProjectID ec) (ProfileExecutionID ec) tests
    (ProfileCSVSplit ec) (Criteria ec).

Definition StoreConfig (executionID : Z) (ec : Profile) : M W error unit :=
  coll ← try_store (GetExecution executionID);
  if bool_decide (ProfileExecutionID ec ≠ executionID) then throw ErrExecutionMismatch
  else
    tests ← ask (resolveModes coll (Tests ec));
    let ec := with_tests ec tests in
    _ ← lift (Profile_Validate ec);
    _ ← try_store (check_scenarios (exe_ProjectID coll) (Tests ec));
    if maxEngines <? TotalEngines ec then throw ErrEngineLimit
    else on_store (StoreExecutionConfig executionID (ProfileCSVSplit ec) (Tests ec) (Criteria ec)).

Definition GetConfig (executionID : Z) : M W error Profile :=
  coll ← try_store (GetExecution executionID);
  scenarios ← read_store (LoadProfileFor executionID);
  criteria ← read_store (CriteriaFor executionID);
  mret (mkProfile (exe_Name coll) (exe_ProjectID coll) executionID scenarios (exe_CSVSplit coll)
          criteria).

Record ResolvedDiff := mkResolvedDiff { rd_Engines : Z; rd_Concurrency : Z; rd_Rampup : Z; rd_Throughput : Z }.
#[global] Instance ResolvedDiff_eq_dec : EqDecision ResolvedDiff.
Proof. solve_decision. Defined.
Record ReResolveEntry := mkReResolveEntry {
  re_ScenarioID : Z; re_Name : string; re_Mode : string; re_Before : ResolvedDiff;
  re_After : ResolvedDiff; re_Changed : bool
}.
Definition resolvedDiff (e : Entry) : ResolvedDiff :=
  mkResolvedDiff (Engines e) (Concurrency e) (Rampup e) (Throughput e).
Definition re_entry (before : option Entry) (a : Entry) : ReResolveEntry :=
  match before with
  | Some b =>
      mkReResolveEntry (ScenarioID a) (Name a) (LoadProfile.Mode a) (resolvedDiff b) (resolvedDiff a)
        (negb (bool_decide (resolvedDiff b = resolvedDiff a)))
  | None =>
      mkReResolveEntry (ScenarioID a) (Name a) (LoadProfile.Mode a) (mkResolvedDiff 0 0 0 0)
        (resolvedDiff a) false
  end.
Fixpoint re_entries (before after : list Entry) : list ReResolveEntry :=
  match after with
  | [] => []
  | a :: after => re_entry (head before) a :: re_entries (tail before) after
  end.
Definition ReResolveConfig (executionID : Z) : M W error (list ReResolveEntry) :=
  stored ← GetConfig executionID;
  let before := Tests stored in
  _ ← StoreConfig executionID stored;
  after ← GetConfig executionID;
  mret (re_entries before (Tests after)).

(** ** Executions and their files *)
Definition exe_filled (c : Execution) (engine : Executor) (cluster : string)
    (targets : list string) : Execution :=
  mkExecution (exe_ID c) (exe_Name c) (exe_ProjectID c) engine (exe_Kind c) (exe_CPU c)
    (exe_Memory c) cluster targets (exe_CSVSplit c) (exe_TenantID c) (exe_CreatedBy c)
    (exe_UpdatedBy c) (exe_CreatedTime c).
Definition exe_in_tenant (c : Execution) (tenant : option Z) : Execution :=
  mkExecution (exe_ID c) (exe_Name c) (exe_ProjectID c) (exe_Engine c) (exe_Kind c) (exe_CPU c)
    (exe_Memory c) (exe_Cluster c) (exe_FanOutTargets c) (exe_CSVSplit c) tenant (exe_CreatedBy c)
    (exe_UpdatedBy c) (exe_CreatedTime c).
Definition exe_with_ID (c : Execution) (id : Z) : Execution :=
  mkExecution id (exe_Name c) (exe_ProjectID c) (exe_Engine c) (exe_Kind c) (exe_CPU c)
    (exe_Memory c) (exe_Cluster c) (exe_FanOutTargets c) (exe_CSVSplit c) (exe_TenantID c)
    (exe_CreatedBy c) (exe_UpdatedBy c) (exe_CreatedTime c).
(** The tenant of a project; a missing project leaves the execution untenanted. *)
Definition project_tenant (projectID : Z) (before : option Z) : M W error (option Z) :=
  p ← attempt (try_store (GetProject projectID));
  match p with
  | Ok p => mret (prj_TenantID p)
  | Err ErrNotFound => mret before
  | Err e => throw e
  end.
Definition create_execution (c : Execution) : M W error Z :=
  λ w, let '(id, s) := CreateExecution now c (w_store w) in (Ok id, set_store s w).

Definition Create (name : string) (projectID : Z) (engine : Executor) (cluster : string)
    (fanOutTargets : list string) : M W error Execution :=
  c ← lift (Execution.New name projectID);
  targets ← lift (NormalizeFanOutTargets fanOutTargets);
  let c := exe_filled c engine (TrimSpace cluster) targets in
  tenant ← project_tenant projectID (exe_TenantID c);
  let c := exe_in_tenant c tenant in
  _ ← lift (Execution_Validate c);
  id ← create_execution c;
  mret (exe_with_ID c id).

Definition Get (id : Z) : M W error Execution := try_store (GetExecution id).
Definition ListForProjects (projectIDs : list Z) : M W error (list Execution) :=
  match projectIDs with
  | [] => mret []
  | _ => read_store (ListExecutionsByProjects projectIDs)
  end.

Definition Delete (id : Z) : M W error unit :=
  _ ← try_store (GetExecution id);
  files ← read_store (ExecutionFilesFor id);
  _ ← for_each files (λ name, on_objects (DeleteObject (executionKey id name)));
  on_store (DeleteExecution id).

Definition Files (executionID : Z) : M W error (list FileRef) :=
  names ← read_store (ExecutionFilesFor executionID);
  mret ((λ name, mkFileRef name (ObjectURL (executionKey executionID name))) <$> names).

Definition UploadFile (executionID : Z) (filename content : string) : M W error unit :=
  _ ← lift (validateFilename filename);
  _ ← try_store (GetExecution executionID);
  _ ← on_store (AddExecutionFile executionID filename);
  up ← attempt (on_objects (Upload (executionKey executionID filename) content));
  match up with
  | Ok _ => mret tt
  | Err e =>
      _ ← ignore (on_store (DeleteExecutionFile executionID filename));
      throw e
  end.
Definition DownloadFile (executionID : Z) (filename : string) : M W error string :=
  _ ← lift (validateFilename filename);
  on_objects (Download (executionKey executionID filename)).
Definition DeleteFile (executionID : Z) (filename : string) : M W error unit :=
  _ ← lift (validateFilename filename);
  _ ← on_store (DeleteExecutionFile executionID filename);
  on_objects (DeleteObject (executionKey executionID filename)).
End executionapp.
Arguments CapacityProfiles : clear implicits.
Arguments ModeSources : clear implicits.
Arguments mkCapacityProfiles {C H}.
Arguments mkModeSources {C H}.

(** ** What a stored configuration satisfies *)
Section config.
Context {C H : Type} (maxEngines : Z) (modes : ModeSources C H).
Let W : Type := World C H.

(** How an entry of the upload becomes the entry that is stored: untouched
    without a mode; with one, sized by the capacity profile and never with more
    engines than virtual users. *)
Inductive resolved (coll : Execution) (w : W) (e : Entry) : Entry → Prop :=
| resolved_advanced : LoadProfile.Mode e = "" → resolved coll w e e
| resolved_mode cap res users steps :
    LoadProfile.Mode e ≠ "" → Loadmode.Valid (LoadProfile.Mode e) = true → 0 < Throughput e →
    src_Capacity modes = Some cap →
    cap_FanOut cap (modeCapacityKey coll (ScenarioID e) (src_DefaultEngine modes))
      (of_int (Throughput e)) w = Ok res →
    fr_Status res = StatusOK →
    users = Z.max (fr_Engines res)
      (users_for (of_int (Throughput e))
         (latencyHintSeconds modes (modeCapacityKey coll (ScenarioID e) (src_DefaultEngine modes)) w)) →
    steps = (if bool_decide (LoadProfile.Mode e = Loadmode.ModeStaircase) && (Steps e =? 0)
             then Loadmode.StaircaseStepsDefault else Steps e) →
    resolved coll w e
      (with_resolved e (fr_Engines res) users
         (Loadmode.RampupSeconds (LoadProfile.Mode e) (Duration e)) steps).

Lemma resolve_entry_resolved coll cap w e e' :
  src_Capacity modes = Some cap → resolve_entry modes coll cap w e = Ok e' → resolved coll w e e'.
Proof.
  intros Hcap. unfold resolve_entry. case_bool_decide as Hm; [intros [= <-]; by constructor|].
  unfold Loadmode.ParseMode. destruct (Loadmode.Valid _) eqn:HV; [|done]. cbn [negb].
  destruct (Throughput e <=? 0) eqn:Ht; [done|]. apply Z.leb_gt in Ht. cbv zeta.
  destruct (cap_FanOut _ _ _ _) as [res|] eqn:Hf; [|done].
  destruct (bool_decide_reflect (fr_Status res ≠ StatusOK)) as [|Hs]; [done|].
  apply dec_stable in Hs. intros [= <-]. eapply resolved_mode; eauto.
  destruct (users_for _ _ <? fr_Engines res) eqn:Hu; to_prop; lia.
Qed.
Lemma resolve_entries_resolved coll cap w entries out :
  src_Capacity modes = Some cap → resolve_entries modes coll cap w entries = Ok out →
  Forall2 (resolved coll w) entries out.
Proof.
  intros Hcap. revert out. induction entries as [|e l IH]; intros out; cbn [resolve_entries].
  { intros [= <-]. constructor. }
  unfold mbind, result_bind. destruct (resolve_entry _ _ _ _ e) as [e'|] eqn:E; [|done].
  destruct (resolve_entries _ _ _ _ l) as [l'|] eqn:El; [|done]. intros [= <-].
  constructor; [by eapply resolve_entry_resolved|by apply IH].
Qed.
Lemma no_modes_resolved coll w entries :
  existsb has_mode entries = false → Forall2 (resolved coll w) entries entries.
Proof.
  induction entries as [|e l IH]; cbn; [constructor|]. intros [He Hl]%orb_false_iff.
  constructor; [|by apply IH]. apply resolved_advanced. unfold has_mode in He. to_prop. tauto.
Qed.
Lemma resolveModes_resolved coll entries w out :
  resolveModes modes coll entries w = Ok out → Forall2 (resolved coll w) entries out.
Proof.
  unfold resolveModes. destruct (existsb has_mode entries) eqn:E; cbn [negb].
  - destruct (src_Capacity modes) as [cap|] eqn:Hc; [|done]. by apply resolve_entries_resolved.
  - intros [= <-]. by apply no_modes_resolved.
Qed.
Lemma resolved_engines coll w e e' :
  resolved coll w e e' → LoadProfile.Mode e ≠ "" → Engines e' <= Concurrency e'.
Proof. intros [?|] ?; [done|]. cbn. lia. Qed.

Lemma check_scenarios_Ok projectID entries s :
  check_scenarios projectID entries s = Ok tt ↔
  Forall (λ ep, ∃ p, GetScenario (ScenarioID ep) s = Ok p ∧ scn_ProjectID p = projectID) entries.
Proof.
  induction entries as [|ep l IH]; cbn [check_scenarios]; [split; [constructor|done]|].
  rewrite Forall_cons, <- IH. unfold mbind, result_bind.
  destruct (GetScenario _ _) as [p|] eqn:E.
  - destruct (bool_decide_reflect (scn_ProjectID p ≠ projectID)) as [Hp|Hp].
    + split; [done|]. intros [(? & [= <-] & ?) _]. done.
    + apply dec_stable in Hp. split; [intros; split; eauto|by intros [_ ?]].
  - split; [done|]. by intros [(? & ? & _) _].
Qed.

(** A successful upload, taken apart. *)
Lemma StoreConfig_Ok id ec w w' :
  StoreConfig maxEngines modes id ec w = (Ok tt, w') ↔
  ∃ coll tests, GetExecution id (w_store w) = Ok coll ∧ ProfileExecutionID ec = id ∧
    resolveModes modes coll (Tests ec) w = Ok tests ∧
    (tests ≠ [] ∧ Forall entry_ok tests) ∧
    Forall (λ ep, ∃ p, GetScenario (ScenarioID ep) (w_store w) = Ok p ∧
                       scn_ProjectID p = exe_ProjectID coll) tests ∧
    sum64 Engines tests <= maxEngines ∧
    w' = set_store (StoreExecutionConfig id (ProfileCSVSplit ec) tests (Criteria ec) (w_store w)).2 w.
Proof.
  unfold StoreConfig, mbind, M_bind, try_store, ask, lift.
  destruct (GetExecution id (w_store w)) as [coll|] eqn:Hg;
    [|split; [done|by intros (? & ? & ? & _)]].
  destruct (bool_decide_reflect (ProfileExecutionID ec ≠ id)) as [Hid|Hid];
    [split; [done|by intros (? & ? & _ & ? & _)]|]. apply dec_stable in Hid.
  destruct (resolveModes _ _ _ _) as [tests|] eqn:Hr;
    [|split; [done|intros (? & ? & [= <-] & _ & ? & _); congruence]].
  cbv zeta. cbn [Tests with_tests ProfileCSVSplit Criteria].
  destruct (Profile_Validate _) as [[]|] eqn:Hv.
  2:{ split; [done|]. intros (? & ? & [= <-] & _ & Ht & Hok & _).
      assert (tests = x0) as <- by congruence.
      by rewrite (proj2 (Profile_Validate_ok (with_tests ec tests)) Hok) in Hv. }
  apply Profile_Validate_ok in Hv. cbn [Tests with_tests] in Hv.
  destruct (check_scenarios _ _ _) as [[]|] eqn:Hc.
  2:{ split; [done|]. intros (? & ? & [= <-] & _ & Ht & _ & Hs & _).
      assert (tests = x0) as <- by congruence. apply check_scenarios_Ok in Hs. congruence. }
  apply check_scenarios_Ok in Hc. unfold TotalEngines. cbn [Tests with_tests].
  destruct (maxEngines <? sum64 Engines tests) eqn:Hm; to_prop.
  { split; [done|]. intros (? & ? & [= <-] & _ & Ht & _ & _ & Hs & _).
    assert (tests = x0) as <- by congruence. lia. }
  assert (∃ s', StoreExecutionConfig id (ProfileCSVSplit ec) tests (Criteria ec) (w_store w) = (Ok tt, s')) as [s' Hst].
  { unfold StoreExecutionConfig. unfold GetExecution in Hg. destruct (executions _ !! id); [eauto|done]. }
  unfold on_store. rewrite Hst. split.
  - intros [= <-]. exists coll, tests. by rewrite Hst.
  - intros (? & ? & [= <-] & _ & Ht & _ & _ & _ & ->). assert (tests = x0) as <- by congruence.
    by rewrite Hst.
Qed.

Lemma stored_config_reads id csv tests crit w coll :
  GetExecution id (w_store w) = Ok coll →
  let w' : W := set_store (StoreExecutionConfig id csv tests crit (w_store w)).2 w in
  GetExecution id (w_store w') = Ok (exe_with_CSVSplit coll csv) ∧
  LoadProfileFor id (w_store w') = unnamed <$> tests ∧ CriteriaFor id (w_store w') = crit ∧
  (∀ other, other ≠ id →
     GetExecution other (w_store w') = GetExecution other (w_store w) ∧
     LoadProfileFor other (w_store w') = LoadProfileFor other (w_store w) ∧
     CriteriaFor other (w_store w') = CriteriaFor other (w_store w)) ∧
  (∀ sc, GetScenario sc (w_store w') = GetScenario sc (w_store w)).
Proof.
  unfold GetExecution at 1. destruct (executions (st_catalog (w_store w)) !! id) as [c|] eqn:E; [|done].
  intros [= ->]. cbv zeta. unfold StoreExecutionConfig. rewrite E.
  unfold GetExecution, LoadProfileFor, CriteriaFor, GetScenario. cbn.
  rewrite !lookup_insert_eq. cbn. split_and!; try done.
  intros other Hne. by rewrite !lookup_insert_ne.
Qed.
Lemma unnamed_unnamed (l : list Entry) : unnamed <$> (unnamed <$> l) = unnamed <$> l.
Proof. rewrite <- list_fmap_compose. apply list_fmap_ext. by intros. Qed.
Lemma GetConfig_read id (w : W) coll :
  GetExecution id (w_store w) = Ok coll →
  GetConfig id w = (Ok (mkProfile (exe_Name coll) (exe_ProjectID coll) id (LoadProfileFor id (w_store w))
    (exe_CSVSplit coll) (CriteriaFor id (w_store w))), w).
Proof. intros Hg. unfold GetConfig, mbind, M_bind, try_store, ask. by rewrite Hg. Qed.


(** A refused upload persists nothing: whatever the reason, the world is
    as it was. *)
Theorem refused_config_changes_nothing id ec w e w' :
  StoreConfig maxEngines modes id ec w = (Err e, w') → w' = w.
Proof.
  unfold StoreConfig, mbind, M_bind, try_store, ask, lift, throw.
  destruct (GetExecution id (w_store w)) as [coll|] eqn:Hg; [|by intros [= _ <-]].
  case_bool_decide; [by intros [= _ <-]|].
  destruct (resolveModes _ _ _ _) as [tests|]; [|by intros [= _ <-]]. cbv zeta.
  destruct (Profile_Validate _); [|by intros [= _ <-]].
  destruct (check_scenarios _ _ _); [|by intros [= _ <-]].
  case_match; [by intros [= _ <-]|]. unfold on_store, StoreExecutionConfig.
  unfold GetExecution in Hg. by destruct (executions _ !! id).
Qed.

Lemma re_entries_same l : Forall (λ r, re_Changed r = false) (re_entries l l).
Proof.
  induction l as [|a l IH]; cbn; [constructor|]. constructor; [|done]. cbn. by rewrite bool_decide_true.
Qed.
Lemma advanced_unnamed (tests : list Entry) :
  existsb has_mode tests = false → existsb has_mode (unnamed <$> tests) = false.
Proof.
  induction tests as [|e l IH]; [done|]. cbn. intros [He Hl]%orb_false_iff.
  apply orb_false_iff. split; [exact He|by apply IH].
Qed.
Lemma entry_ok_unnamed (tests : list Entry) : Forall entry_ok tests → Forall entry_ok (unnamed <$> tests).
Proof. intros H0. apply Forall_fmap. eapply Forall_impl; [exact H0|]. by intros e He. Qed.
Lemma engines_unnamed (tests : list Entry) : sum64 Engines (unnamed <$> tests) = sum64 Engines tests.
Proof.
  rewrite !sum64_wrap. f_equal. unfold sumZ. induction tests as [|e l IH]; [done|]. cbn in *. by rewrite IH.
Qed.

(** Re-resolving a stored configuration that states no mode is a no-op:
    it always succeeds, reports every entry unchanged, and the configuration
    read afterwards is the one read before. *)
Theorem reresolve_keeps_advanced id ec w w1 :
  StoreConfig maxEngines modes id ec w = (Ok tt, w1) → existsb has_mode (Tests ec) = false →
  ∃ res w2, ReResolveConfig maxEngines modes id w1 = (Ok res, w2) ∧
    length res = length (Tests ec) ∧ Forall (λ r, re_Changed r = false) res ∧
    (GetConfig id w2).1 = (GetConfig id w1).1.
Proof.
  rewrite StoreConfig_Ok. intros (coll & tests & Hg & Hid & Hr & [Hne Hok] & Hs & Hmax & ->) Hm.
  unfold resolveModes in Hr. rewrite Hm in Hr. injection Hr as <-.
  destruct (stored_config_reads id (ProfileCSVSplit ec) (Tests ec) (Criteria ec) w coll Hg)
    as (Hg1 & Hl1 & Hc1 & _ & Hsc1).
  set (w1 := set_store _ w) in *. set (stored := unnamed <$> Tests ec) in *.
  set (coll1 := exe_with_CSVSplit coll (ProfileCSVSplit ec)) in *.
  destruct (stored_config_reads id (ProfileCSVSplit ec) stored (Criteria ec) w1 coll1 Hg1)
    as (Hg2 & Hl2 & Hc2 & _ & _).
  assert (StoreConfig maxEngines modes id (mkProfile (exe_Name coll1) (exe_ProjectID coll1) id stored
    (ProfileCSVSplit ec) (Criteria ec)) w1 =
    (Ok tt, set_store (StoreExecutionConfig id (ProfileCSVSplit ec) stored (Criteria ec) (w_store w1)).2 w1)) as Hst.
  { apply StoreConfig_Ok. exists coll1, stored. split_and!; try done; cbn [Tests].
    - unfold resolveModes, stored. cbn [Tests]. by rewrite advanced_unnamed.
    - unfold stored. by destruct (Tests ec).
    - by apply entry_ok_unnamed.
    - unfold stored. apply Forall_fmap. eapply Forall_impl; [exact Hs|]. intros ep (p & Hp & ?). exists p.
      cbn. by rewrite Hsc1.
    - unfold stored. by rewrite engines_unnamed. }
  set (w2 := set_store _ w1) in *. unfold stored in Hl2. rewrite unnamed_unnamed in Hl2. fold stored in Hl2.
  exists (re_entries stored stored), w2. unfold ReResolveConfig, mbind, M_bind.
  rewrite (GetConfig_read _ _ _ Hg1). rewrite Hl1, Hc1. cbv zeta. unfold coll1 in Hst |- *.
  cbn [exe_Name exe_ProjectID exe_CSVSplit exe_with_CSVSplit Tests] in Hst |- *. rewrite Hst.
  rewrite (GetConfig_read _ _ _ Hg2), Hl2, Hc2. cbn [Tests]. split_and!; try done.
  - clear. unfold stored. induction (Tests ec) as [|e l IH]; [done|]. cbn in *. lia.
  - apply re_entries_same.
Qed.
End config.

(** ** Files *)
Lemma executionKey_inj id id' f f' :
  0 <= id → 0 <= id' → executionKey id f = executionKey id' f' → id = id' ∧ f = f'.
Proof.
  intros Hi Hi' Heq%(f_equal bytes_of). unfold executionKey in Heq. rewrite !bytes_of_app in Heq.
  apply (inj (app _)) in Heq. change (bytes_of "/") with [slash] in Heq. cbn [List.app] in Heq.
  apply (first_part_inj slash) in Heq as [Hp Hf]; [|by apply pretty_avoids..].
  by apply (inj bytes_of), (inj pretty) in Hp; apply (inj bytes_of) in Hf.
Qed.

Section files.
Context {C H : Type}.
Let W : Type := World C H.

Lemma AddExecutionFile_Ok id f s s' :
  AddExecutionFile id f s = (Ok tt, s') →
  ¬ f ∈ ExecutionFilesFor id s ∧ ∀ i g, g ∈ ExecutionFilesFor i s' ↔
    g ∈ ExecutionFilesFor i s ∨ i = id ∧ g = f.
Proof.
  unfold AddExecutionFile. case_bool_decide as Hf; [done|]. intros [= <-].
  unfold ExecutionFilesFor. cbn. setoid_rewrite elem_of_elements. split; [done|]. intros i g.
  destruct (decide (i = id)) as [->|Hi].
  - rewrite lookup_insert_eq. cbn. set_solver.
  - rewrite lookup_insert_ne by done. naive_solver.
Qed.
Lemma AddExecutionFile_undo id f s s' :
  AddExecutionFile id f s = (Ok tt, s') →
  ∀ i g, g ∈ ExecutionFilesFor i (DeleteExecutionFile id f s').2 ↔ g ∈ ExecutionFilesFor i s.
Proof.
  unfold AddExecutionFile. case_bool_decide as Hf; [done|]. intros [= <-] i g.
  unfold DeleteExecutionFile, ExecutionFilesFor. cbn. rewrite lookup_insert_eq. cbn.
  rewrite bool_decide_true by set_solver. cbn. rewrite !elem_of_elements.
  destruct (decide (i = id)) as [->|Hi].
  - rewrite !lookup_insert_eq. cbn. set_solver.
  - by rewrite !lookup_insert_ne.
Qed.

(** A successful upload, taken apart. *)
Lemma UploadFile_Ok id f content (w w' : W) :
  UploadFile id f content w = (Ok tt, w') →
  bad_filename f = false ∧ (∃ c, GetExecution id (w_store w) = Ok c) ∧
  UploadErr (w_objects w) = None ∧
  ∃ s, AddExecutionFile id f (w_store w) = (Ok tt, s) ∧
    w' = mkWorld s (w_cluster w) (mkObjectStore (<[executionKey id f := content]> (objects (w_objects w))) None)
           (w_metrics w).
Proof.
  unfold UploadFile. intros ([] & w1 & [Hv ->]%lift_Ok & Hu)%bind_Ok.
  apply bind_Ok in Hu as (c & w1 & [= Hc <-] & Hu). apply bind_Ok in Hu as ([] & w2 & Ha & Hu).
  unfold on_store in Ha. destruct (AddExecutionFile id f (w_store w)) as [r s] eqn:E.
  injection Ha as -> <-. unfold validateFilename in Hv.
  split; [by destruct (bad_filename f)|]. split; [by exists c|]. apply bind_Ok in Hu as (up & w3 & Hup & Hu).
  unfold attempt, on_objects, Upload in Hup. cbn in Hup.
  destruct (UploadErr (w_objects w)) as [e|] eqn:Hue; injection Hup as <- <-.
  - by apply bind_Ok in Hu as (? & ? & _ & ?).
  - injection Hu as <-. split; [done|]. by exists s.
Qed.

(** An execution's data file round-trips: after an upload that succeeds the
    file is listed and downloads as exactly the bytes that were sent, every
    other file of this and of every other execution downloads as before, and
    the same name is refused a second time. *)
Theorem uploaded_file_reads_back id f content (w w' : W) :
  0 <= id → UploadFile id f content w = (Ok tt, w') →
  DownloadFile id f w' = (Ok content, w') ∧ f ∈ ExecutionFilesFor id (w_store w') ∧
  (∀ id' f', 0 <= id' → (id', f') ≠ (id, f) →
     (DownloadFile id' f' w').1 = (DownloadFile id' f' w).1) ∧
  ∀ again, (UploadFile id f again w').1 = Err ErrFileExists.
Proof.
  intros Hid (Hf & [c Hc] & Hup & s & Ha & ->)%UploadFile_Ok.
  destruct (AddExecutionFile_Ok _ _ _ _ Ha) as [Hnew Hfiles].
  unfold DownloadFile, validateFilename. split_and!.
  - rewrite Hf. unfold mbind, M_bind, lift, on_objects, Download. cbn.
    by rewrite lookup_insert_eq.
  - cbn. apply Hfiles. auto.
  - intros id' f' Hid' Hne. destruct (bad_filename f'); [done|].
    unfold mbind, M_bind, lift, on_objects, Download. cbn. rewrite lookup_insert_ne; [done|].
    intros [-> ->]%executionKey_inj; done.
  - intros again. unfold UploadFile, validateFilename. rewrite Hf.
    unfold mbind, M_bind, lift, try_store, ask, on_store. cbn.
    assert (f ∈ default ∅ (execData (st_catalog s) !! id)) as Hin.
    { apply elem_of_elements. apply Hfiles. auto. }
    assert (executions (st_catalog s) = executions (st_catalog (w_store w))) as Hex.
    { unfold AddExecutionFile in Ha. case_bool_decide; [done|]. by injection Ha as <-. }
    unfold GetExecution in Hc |- *. rewrite Hex. destruct (executions _ !! id); [|done].
    unfold AddExecutionFile. by rewrite bool_decide_true by done.
Qed.

(** An upload the object store refuses leaves the records as they were. *)
Lemma failed_upload_unrecorded id f content (w : W) e :
  UploadErr (w_objects w) = Some e →
  ∀ i g, g ∈ ExecutionFilesFor i (w_store (UploadFile id f content w).2) ↔
         g ∈ ExecutionFilesFor i (w_store w).
Proof.
  intros He i g. unfold UploadFile, mbind, M_bind, lift. destruct (validateFilename f); [|done].
  unfold try_store, ask. destruct (GetExecution id (w_store w)); [|done]. unfold on_store.
  destruct (AddExecutionFile id f (w_store w)) as [[[]|e'] s] eqn:Ha; cbn.
  - unfold attempt, on_objects, Upload. cbn. rewrite He. cbn. unfold ignore. cbn.
    destruct (DeleteExecutionFile id f s) as [r s'] eqn:Hd. cbn.
    pose proof (AddExecutionFile_undo _ _ _ _ Ha i g) as Hu. by rewrite Hd in Hu.
  - unfold AddExecutionFile in Ha. destruct (bool_decide_reflect (f ∈ default ∅ (execData (st_catalog (w_store w)) !! id))) as [Hin|]; [|done].
    injection Ha as _ <-. unfold ExecutionFilesFor. cbn. destruct (decide (i = id)) as [->|].
    + by rewrite lookup_insert_eq.
    + by rewrite lookup_insert_ne.
Qed.
End files.

(** ** The engine limit and overflow *)
Definition huge_entry (scenarioID : Z) : Entry := mkEntry "" scenarioID 1 0 (2 ^ 62) 0 60 false "" 0.
Definition huge_config (executionID scenarioID : Z) : Profile :=
  mkProfile "" 0 executionID [huge_entry scenarioID; huge_entry scenarioID] false [].

(** The limit is checked on a sum that wraps: whatever the limit, two
    entries of 2^62 engines each, every one of them valid, are stored. *)
Theorem engine_limit_overflows {C H} maxEngines modes id sc (w : World C H) coll p :
  0 <= maxEngines → 0 < sc → GetExecution id (w_store w) = Ok coll →
  GetScenario sc (w_store w) = Ok p → scn_ProjectID p = exe_ProjectID coll →
  ∃ w', StoreConfig maxEngines modes id (huge_config id sc) w = (Ok tt, w') ∧
    sumZ Engines (LoadProfileFor id (w_store w')) = 2 ^ 63.
Proof.
  intros Hm Hsc Hg Hs Hp.
  exists (set_store (StoreExecutionConfig id false [huge_entry sc; huge_entry sc] [] (w_store w)).2 w).
  split.
  - apply StoreConfig_Ok. exists coll, [huge_entry sc; huge_entry sc]. split_and!; try done.
    + repeat constructor; cbn; try lia; by left.
    + repeat constructor; exists p; done.
    + change (sum64 Engines [huge_entry sc; huge_entry sc]) with (- 2 ^ 63). lia.
  - destruct (stored_config_reads id false [huge_entry sc; huge_entry sc] [] w coll Hg) as (_ & Hl & _).
    cbv zeta in Hl. rewrite Hl. reflexivity.
Qed.

(** ** Witnesses: a project with one scenario and one execution, and a capacity
    profile that prescribes thirty engines. *)
Definition w_scn : Scenario := mkScenario 1 "checkout" 1 KindPortable "" None "" "" 5 false "".
Definition w_exe : Execution := mkExecution 1 "nightly" 1 "" KindNormal "" "" "" [] false None "" "" 5.
Definition w_store0 : Store :=
  (CreateExecution 5 w_exe (CreateScenario 5 w_scn NewStore).2).2.
Definition w_world : World unit unit := mkWorld w_store0 tt NewObjectStore tt.
Definition w_modes : ModeSources unit unit :=
  mkModeSources
    (Some (mkCapacityProfiles (λ _ _ _, Ok (mkFanOutResult StatusOK 30)) (λ _ _, Err ErrNotFound)))
    None None (second / 4) ExecutorJMeter.
Definition w_ramp : Entry := mkEntry "checkout" 1 0 0 0 100 600 false "ramp" 0.
Definition w_plain : Entry := mkEntry "checkout" 1 10 0 2 0 60 false "" 0.
Definition w_upload (e : Entry) : Profile := mkProfile "" 1 1 [e] false ["failures>5%"].


Lemma refused_config_changes_nothing_witness :
  StoreConfig 1 w_modes 1 (w_upload w_ramp) w_world = (Err ErrEngineLimit, w_world).
Proof.
  destruct (StoreConfig 1 w_modes 1 (w_upload w_ramp) w_world) as [r w'] eqn:E.
  assert (r = Err ErrEngineLimit) as -> by (apply (f_equal fst) in E; vm_compute in E; by subst).
  by rewrite (refused_config_changes_nothing 1 w_modes 1 _ _ _ _ E).
Defined.

Lemma reresolve_keeps_advanced_witness :
  ∃ res w2, ReResolveConfig 50 w_modes 1 (StoreConfig 50 w_modes 1 (w_upload w_plain) w_world).2 = (Ok res, w2) ∧
    length res = 1%nat ∧ Forall (λ r, re_Changed r = false) res.
Proof.
  assert (StoreConfig 50 w_modes 1 (w_upload w_plain) w_world =
    (Ok tt, (StoreConfig 50 w_modes 1 (w_upload w_plain) w_world).2)) as E by (vm_compute; reflexivity).
  destruct (reresolve_keeps_advanced 50 w_modes 1 _ _ _ E eq_refl) as (res & w2 & Hr & Hl & Hf & _).
  by exists res, w2.
Defined.

Lemma uploaded_file_reads_back_witness :
  ∃ w', UploadFile 1 "users.csv" "a,b" w_world = (Ok tt, w') ∧
    DownloadFile 1 "users.csv" w' = (Ok "a,b", w').
Proof.
  assert (UploadFile 1 "users.csv" "a,b" w_world = (Ok tt, (UploadFile 1 "users.csv" "a,b" w_world).2)) as E
    by (vm_compute; reflexivity).
  exists (UploadFile 1 "users.csv" "a,b" w_world).2. split; [exact E|].
  apply (uploaded_file_reads_back 1 _ _ _ _ ltac:(lia) E).
Defined.

Lemma engine_limit_overflows_witness :
  ∃ w', StoreConfig 50 w_modes 1 (huge_config 1 1) w_world = (Ok tt, w') ∧
    sumZ Engines (LoadProfileFor 1 (w_store w')) = 2 ^ 63.
Proof. by eapply (engine_limit_overflows 50 w_modes 1 1 w_world). Defined.
