(* ===== verification/ScenarioApp.v ===== *)
(** * Scenario use-cases ([internal/app/scenarioapp])

    Scenarios, their files and their declarative requests, the content
    fingerprint a capacity profile is checked against, and the edit history:
    every write first captures the current state as a version, and a restore
    rewinds to one.  With it the in-memory version store
    ([internal/ports/fake/versionstore.go]).  The YAML codec and SHA-256 are
    parameters; importing a JMeter plan is not modelled. *)
From Stdlib Require Import Ascii.
From S2P Require Import Prelude Errors GoStrings LoadProfile Taurus Scenario Execution Criteria Compile.
From S2P Require Import Reservation Quota RunTable Store Cluster ExecutionApp.
Import Scenario.Project Scenario.Scenario.

(** ** The version store *)
Record ScenarioSnapshot := mkSnapshot {
  sn_ID : Z; sn_Name : string; sn_ProjectID : Z; sn_Kind : string; sn_Engine : string;
  sn_TenantID : option Z; sn_CreatedBy : string; sn_UpdatedBy : string; sn_CreatedTime : time;
  sn_IsTemplate : bool; sn_TemplateName : string; sn_TestFile : string; sn_Data : list string;
  sn_Requests : string
}.
Record ScenarioVersionMeta := mkVersionMeta {
  vm_ID : Z; vm_ScenarioID : Z; vm_Version : Z; vm_CreatedTime : time; vm_CreatedBy : option string
}.
Record ScenarioVersion := mkVersion { sv_Meta : ScenarioVersionMeta; sv_Snapshot : ScenarioSnapshot }.
Record VersionStore := mkVersionStore {
  vs_versions : gmap Z (list ScenarioVersion);
  vs_seq : Z;
  vs_nextNum : gmap Z Z;
  vs_AppendErr : option error;
  vs_ListErr : option error;
  vs_GetErr : option error
}.
Definition NewVersionStore : VersionStore := mkVersionStore ∅ 0 ∅ None None None.

Definition AppendScenarioVersion (now : time) (scenarioID : Z) (snapshot : ScenarioSnapshot)
    (createdBy : string) : M VersionStore error Z := λ s,
  match vs_AppendErr s with
  | Some e => (Err e, s)
  | None =>
      let actor := if bool_decide (createdBy = "") then None else Some createdBy in
      let id := vs_seq s + 1 in
      let version := default 0 (vs_nextNum s !! scenarioID) + 1 in
      let v := mkVersion (mkVersionMeta id scenarioID version now actor) snapshot in
      (Ok version,
       mkVersionStore
         (<[scenarioID := default [] (vs_versions s !! scenarioID) ++ [v]]> (vs_versions s)) id
         (<[scenarioID := version]> (vs_nextNum s)) None (vs_ListErr s) (vs_GetErr s))
  end.

Definition newer (a b : ScenarioVersionMeta) : Prop := vm_Version b <= vm_Version a.
#[global] Instance newer_dec a b : Decision (newer a b).
Proof. unfold newer. apply _. Defined.
Definition ListScenarioVersions (scenarioID : Z) (s : VersionStore) :
    result error (list ScenarioVersionMeta) :=
  match vs_ListErr s with
  | Some e => Err e
  | None => Ok (merge_sort newer (reverse (sv_Meta <$> default [] (vs_versions s !! scenarioID))))
  end.
Definition find_version (version : Z) (l : list ScenarioVersion) : option ScenarioVersion :=
  List.find (λ v, vm_Version (sv_Meta v) =? version) l.
Definition GetScenarioVersion (scenarioID version : Z) (s : VersionStore) :
    result error ScenarioVersion :=
  match vs_GetErr s with
  | Some e => Err e
  | None => match find_version version (default [] (vs_versions s !! scenarioID)) with
            | Some v => Ok v
            | None => Err ErrScenarioVersionNotFound
            end
  end.

(** ** The state of the service *)
Record ScenWorld := mkScenWorld { sw_store : Store; sw_objects : ObjectStore; sw_versions : VersionStore }.
Definition sw_read {A} (f : Store → A) : M ScenWorld error A := λ w, (Ok (f (sw_store w)), w).
Definition sw_try {A} (f : Store → result error A) : M ScenWorld error A :=
  ask (λ w, f (sw_store w)).
Definition sw_on_store {A} (f : Store → result error A * Store) : M ScenWorld error A :=
  λ w, let '(r, s) := f (sw_store w) in (r, mkScenWorld s (sw_objects w) (sw_versions w)).
Definition sw_upd (f : Store → Store) : M ScenWorld error unit :=
  sw_on_store (λ s, (Ok tt, f s)).
Definition sw_on_objects {A} (m : M ObjectStore error A) : M ScenWorld error A :=
  λ w, let '(r, o) := m (sw_objects w) in (r, mkScenWorld (sw_store w) o (sw_versions w)).
Definition sw_on_versions {A} (m : M VersionStore error A) : M ScenWorld error A :=
  λ w, let '(r, v) := m (sw_versions w) in (r, mkScenWorld (sw_store w) (sw_objects w) v).

(** ** Names *)
Definition scenarioFileKey (scenarioID : Z) (filename : string) : string :=
  "scenario/" +:+ pretty scenarioID +:+ "/" +:+ filename.
Definition scen_validateFilename (filename : string) : result error unit :=
  if bad_filename filename then Err ErrScenInvalidFilename else Ok tt.

(** [filepath.Ext]: from the last dot of the last path element on. *)
Fixpoint ext_loop (acc : option (list ascii)) (l : list ascii) : list ascii :=
  match l with
  | [] => default [] acc
  | a :: l' =>
      if bool_decide (a = slash) then ext_loop None l'
      else if bool_decide (a = "."%char) then ext_loop (Some l) l'
      else ext_loop acc l'
  end.
Definition Ext (path : string) : string := of_bytes (ext_loop None (bytes_of path)).

Definition allFileNames (pf : ScenarioFiles) : list string :=
  sf_Data pf ++ (if bool_decide (sf_TestFile pf = "") then [] else [sf_TestFile pf]).
Definition filePresent (pf : ScenarioFiles) (filename : string) (isTest : bool) : bool :=
  if isTest then bool_decide (sf_TestFile pf = filename)
  else bool_decide (filename ∈ sf_Data pf).

Section scenarioapp.
Context `{!Unicode}.

Definition engineForArtefact (filename : string) : option Executor :=
  let ext := ToLowerRunes (Ext filename) in
  if bool_decide (ext = ".jmx") then Some ExecutorJMeter
  else if bool_decide (ext = ".js") then Some ExecutorK6
  else None.
Definition isTestFile (filename : string) : bool := bool_decide (is_Some (engineForArtefact filename)).

(** ** Requests *)
Record Diagnostic := mkDiagnostic { dg_Message : string; dg_Path : string }.
Context (Unmarshal : string → option Conf.Scenario) (Marshal : Conf.Scenario → option string)
        (YAMLDiagnostics : string → list Diagnostic).

Fixpoint url_diagnostics (i : Z) (reqs : list Conf.Request) : list Diagnostic :=
  match reqs with
  | [] => []
  | req :: rest =>
      (if bool_decide (Conf.rq_URL req = "")
       then [mkDiagnostic ("request " +:+ pretty i +:+ " has no url")
                          ("requests[" +:+ pretty i +:+ "].url")] else []) ++
      url_diagnostics (i + 1) rest
  end.
Definition requestDiagnostics (raw : string) : list Diagnostic :=
  match Unmarshal raw with
  | None => YAMLDiagnostics raw
  | Some frag =>
      match Conf.ts_Requests frag with
      | [] => [mkDiagnostic "at least one request is required" "requests"]
      | reqs => url_diagnostics 0 reqs
      end
  end.

Definition drop_slashes : list ascii → list ascii :=
  fix go l := match l with
              | [] => []
              | a :: l' => if bool_decide (a = slash) then go l' else l
              end.
Definition TrimRightSlash (s : string) : string :=
  of_bytes (reverse (drop_slashes (reverse (bytes_of s)))).
Definition withDefaultAddress (raw targetURL : string) : result error string :=
  match Unmarshal raw with
  | None => Err ErrRequestsInvalid
  | Some frag =>
      let frag := Conf.mkScenario (Conf.ts_Script frag) (TrimRightSlash (TrimSpace targetURL))
                    (Conf.ts_Headers frag) (Conf.ts_Requests frag) (Conf.ts_DataSources frag)
                    (Conf.ts_Timeout frag) (Conf.ts_KeepAlive frag) in
      match Marshal frag with Some out => Ok out | None => Err ErrYAML end
  end.

(** ** History *)
Context (now : time) (actor : string) (versioned : bool).

Definition raw_requests (scenarioID : Z) (s : Store) : string :=
  default "" (scenarioRequests (st_catalog s) !! scenarioID).
Definition scenarioSnapshot (sc : Scenario) (s : Store) : ScenarioSnapshot :=
  let files := ScenarioFilesFor (scn_ID sc) s in
  mkSnapshot (scn_ID sc) (scn_Name sc) (scn_ProjectID sc) (scn_Kind sc) (scn_Engine sc)
    (scn_TenantID sc) (scn_CreatedBy sc) (scn_UpdatedBy sc) (scn_CreatedTime sc)
    (scn_IsTemplate sc) (scn_TemplateName sc) (sf_TestFile files) (sf_Data files)
    (raw_requests (scn_ID sc) s).
Definition captureVersionOf (sc : Scenario) : M ScenWorld error Z :=
  snap ← sw_read (scenarioSnapshot sc);
  sw_on_versions (AppendScenarioVersion now (scn_ID sc) snap actor).
Definition captureVersion (scenarioID : Z) : M ScenWorld error unit :=
  if negb versioned then mret tt
  else
    sc ← sw_try (GetScenario scenarioID);
    _ ← captureVersionOf sc;
    mret tt.

Definition ListVersions (scenarioID : Z) : M ScenWorld error (list ScenarioVersionMeta) :=
  _ ← sw_try (GetScenario scenarioID);
  if negb versioned then throw ErrVersioningUnavailable
  else ask (λ w, ListScenarioVersions scenarioID (sw_versions w)).
Definition ScenarioVersionOf (scenarioID version : Z) : M ScenWorld error ScenarioVersion :=
  _ ← sw_try (GetScenario scenarioID);
  if negb versioned then throw ErrVersioningUnavailable
  else ask (λ w, GetScenarioVersion scenarioID version (sw_versions w)).

(** Records the snapshot names and the store does not are added, the others go. *)
Definition restoreFiles (scenarioID : Z) (snap : ScenarioSnapshot) : M ScenWorld error unit :=
  current ← sw_read (ScenarioFilesFor scenarioID);
  _ ← (if bool_decide (sf_TestFile current = sn_TestFile snap) then mret tt
       else
         _ ← (if bool_decide (sf_TestFile current = "") then mret tt
              else sw_on_store (DeleteScenarioFile scenarioID (sf_TestFile current) true));
         if bool_decide (sn_TestFile snap = "") then mret tt
         else sw_on_store (AddScenarioFile scenarioID (sn_TestFile snap) true));
  _ ← for_each (sf_Data current) (λ name,
         if bool_decide (name ∈ sn_Data snap) then mret tt
         else sw_on_store (DeleteScenarioFile scenarioID name false));
  for_each (sn_Data snap) (λ name,
    if bool_decide (name ∈ sf_Data current) then mret tt
    else sw_on_store (AddScenarioFile scenarioID name false)).

Record RestoreResult := mkRestoreResult { rr_RestoredFrom : Z; rr_Version : Z }.
Definition rewound (scenarioID : Z) (snap : ScenarioSnapshot) : Scenario :=
  mkScenario scenarioID (sn_Name snap) (sn_ProjectID snap) (sn_Kind snap) (sn_Engine snap) None "" ""
    time_zero (sn_IsTemplate snap) (sn_TemplateName snap).
Definition Restore (scenarioID version : Z) : M ScenWorld error RestoreResult :=
  sc ← sw_try (GetScenario scenarioID);
  if negb versioned then throw ErrVersioningUnavailable
  else
    stored ← ask (λ w, GetScenarioVersion scenarioID version (sw_versions w));
    preRestore ← captureVersionOf sc;
    let snap := sv_Snapshot stored in
    let sc' := rewound scenarioID snap in
    _ ← lift (Scenario.Scenario.Validate sc');
    _ ← sw_on_store (UpdateScenario sc');
    _ ← restoreFiles scenarioID snap;
    _ ← (if bool_decide (sn_Requests snap = "") then sw_upd (DeleteScenarioRequests scenarioID)
         else sw_upd (SetScenarioRequests scenarioID (sn_Requests snap)));
    mret (mkRestoreResult version preRestore).

(** ** Scenarios *)
Definition scn_in_tenant (p : Scenario) (tenant : option Z) : Scenario :=
  mkScenario (scn_ID p) (scn_Name p) (scn_ProjectID p) (scn_Kind p) (scn_Engine p) tenant
    (scn_CreatedBy p) (scn_UpdatedBy p) (scn_CreatedTime p) (scn_IsTemplate p) (scn_TemplateName p).
Definition scn_with_ID (p : Scenario) (id : Z) : Scenario :=
  mkScenario id (scn_Name p) (scn_ProjectID p) (scn_Kind p) (scn_Engine p) (scn_TenantID p)
    (scn_CreatedBy p) (scn_UpdatedBy p) (scn_CreatedTime p) (scn_IsTemplate p) (scn_TemplateName p).
Definition resolveTenant (projectID : Z) : M ScenWorld error (option Z) :=
  p ← attempt (sw_try (GetProject projectID));
  match p with
  | Ok p => mret (prj_TenantID p)
  | Err ErrNotFound => mret None
  | Err e => throw e
  end.
Definition create_scenario (p : Scenario) : M ScenWorld error Z :=
  sw_on_store (λ s, let '(id, s') := CreateScenario now p s in (Ok id, s')).

Definition Scenario_Create (name : string) (projectID : Z) : M ScenWorld error Scenario :=
  p ← lift (Scenario.Scenario.New name projectID);
  tenantID ← resolveTenant projectID;
  let p := scn_in_tenant p tenantID in
  id ← create_scenario p;
  let p := scn_with_ID p id in
  if negb versioned then mret p
  else
    stored ← attempt (sw_try (GetScenario id));
    match stored with
    | Err e => _ ← ignore (sw_on_store (DeleteScenario id)); throw e
    | Ok stored =>
        v ← attempt (captureVersionOf stored);
        match v with
        | Err e => _ ← ignore (sw_on_store (DeleteScenario id)); throw e
        | Ok _ => mret p
        end
    end.

Definition Scenario_ListByProject (projectID : Z) : M ScenWorld error (list Scenario) :=
  all ← sw_read (ListScenariosByProject projectID);
  mret (filter (λ p, scn_IsTemplate p = false) all).

Definition Scenario_Delete (id : Z) : M ScenWorld error unit :=
  _ ← sw_try (GetScenario id);
  inUse ← sw_read (ScenarioInUse id);
  if (inUse : bool) then throw ErrScenarioInUse
  else
    files ← sw_read (ScenarioFilesFor id);
    _ ← for_each (allFileNames files) (λ name,
           sw_on_objects (DeleteObject (scenarioFileKey id name)));
    sw_on_store (DeleteScenario id).

Definition Scenario_UploadFile (scenarioID : Z) (filename content : string) : M ScenWorld error unit :=
  _ ← lift (scen_validateFilename filename);
  _ ← sw_try (GetScenario scenarioID);
  let isTest := isTestFile filename in
  pf ← sw_read (ScenarioFilesFor scenarioID);
  if filePresent pf filename isTest then throw ErrFileExists
  else
    _ ← captureVersion scenarioID;
    _ ← sw_on_store (AddScenarioFile scenarioID filename isTest);
    _ ← match isTest, engineForArtefact filename with
        | true, Some engine => sw_on_store (SetScenarioKind scenarioID KindNative engine)
        | _, _ => mret tt
        end;
    up ← attempt (sw_on_objects (Upload (scenarioFileKey scenarioID filename) content));
    match up with
    | Ok _ => mret tt
    | Err e =>
        _ ← ignore (sw_on_store (DeleteScenarioFile scenarioID filename isTest));
        throw e
    end.
Definition Scenario_DownloadFile (scenarioID : Z) (filename : string) : M ScenWorld error string :=
  _ ← lift (scen_validateFilename filename);
  sw_on_objects (Download (scenarioFileKey scenarioID filename)).
Definition Scenario_DeleteFile (scenarioID : Z) (filename : string) : M ScenWorld error unit :=
  _ ← lift (scen_validateFilename filename);
  let isTest := isTestFile filename in
  pf ← sw_read (ScenarioFilesFor scenarioID);
  if negb (filePresent pf filename isTest) then throw ErrNotFound
  else
    _ ← captureVersion scenarioID;
    _ ← sw_on_store (DeleteScenarioFile scenarioID filename isTest);
    sw_on_objects (DeleteObject (scenarioFileKey scenarioID filename)).

Definition SetRequests (scenarioID : Z) (raw : string) : M ScenWorld error unit :=
  sc ← sw_try (GetScenario scenarioID);
  if bool_decide (scn_Kind sc ≠ KindPortable) then throw ErrScenarioNotPortable
  else match requestDiagnostics raw with
       | _ :: _ => throw ErrRequestsInvalid
       | [] =>
           _ ← captureVersion scenarioID;
           sw_upd (SetScenarioRequests scenarioID raw)
       end.
Definition Requests (scenarioID : Z) : M ScenWorld error string :=
  sc ← sw_try (GetScenario scenarioID);
  if bool_decide (scn_Kind sc ≠ KindPortable) then throw ErrScenarioNotPortable
  else sw_try (GetScenarioRequests scenarioID).

Definition Instantiate (templateID : Z) (name : string) (projectID : Z) (targetURL : string) :
    M ScenWorld error Scenario :=
  tpl ← sw_try (GetScenario templateID);
  if negb (scn_IsTemplate tpl) then throw ErrScenarioNotTemplate
  else if bool_decide (scn_Kind tpl ≠ KindPortable) then throw ErrScenarioNotPortable
  else
    raw ← sw_try (GetScenarioRequests templateID);
    raw ← (if bool_decide (targetURL = "") then mret raw else lift (withDefaultAddress raw targetURL));
    sc ← lift (Scenario.Scenario.New name projectID);
    tenantID ← resolveTenant projectID;
    let sc := scn_in_tenant sc tenantID in
    id ← create_scenario sc;
    let sc := scn_with_ID sc id in
    r ← attempt (SetRequests id raw);
    match r with
    | Err e => _ ← ignore (sw_on_store (DeleteScenario id)); throw e
    | Ok _ => mret sc
    end.

(** ** The content fingerprint *)
Fixpoint fingerprint_files (scenarioID : Z) (names : list string) (o : ObjectStore) :
    result error string :=
  match names with
  | [] => Ok ""
  | name :: rest =>
      content ← (Download (scenarioFileKey scenarioID name) o).1;
      more ← fingerprint_files scenarioID rest o;
      Ok ("file:" +:+ name +:+ ":" +:+ pretty (go_len content) +:+ ":" +:+ content +:+ more)
  end.
Definition fingerprint_text (scenarioID : Z) (s : Store) (o : ObjectStore) : result error string :=
  _ ← GetScenario scenarioID s;
  let files := ScenarioFilesFor scenarioID s in
  let names := (if bool_decide (sf_TestFile files = "") then [] else [sf_TestFile files]) ++ sf_Data files in
  body ← fingerprint_files scenarioID (merge_sort str_le names) o;
  let requests := raw_requests scenarioID s in
  Ok (body +:+ "requests:" +:+ pretty (go_len requests) +:+ ":" +:+ requests).
Definition ScenarioFingerprint (sha256_hex : string → string) (scenarioID : Z) (s : Store)
    (o : ObjectStore) : result error string :=
  text ← fingerprint_text scenarioID s o;
  Ok (sha256_hex text).
End scenarioapp.

(** ** The version store's numbering *)
Definition history (sc : Z) (s : VersionStore) : list ScenarioVersion := default [] (vs_versions s !! sc).
(** Versions are numbered from one without gaps, and the counter is their number. *)
Definition vs_ok (s : VersionStore) : Prop :=
  ∀ sc, default 0 (vs_nextNum s !! sc) = Z.of_nat (length (history sc s)) ∧
    ∀ i v, history sc s !! i = Some v → vm_Version (sv_Meta v) = Z.of_nat i + 1.
Lemma vs_ok_new : vs_ok NewVersionStore.
Proof. intros sc. unfold history. cbn. rewrite !lookup_empty. cbn. by split. Qed.

Lemma append_Ok now sc snap by_ s n s' :
  AppendScenarioVersion now sc snap by_ s = (Ok n, s') →
  vs_AppendErr s = None ∧ vs_AppendErr s' = None ∧ vs_GetErr s' = vs_GetErr s ∧
  n = default 0 (vs_nextNum s !! sc) + 1 ∧
  (∃ v, history sc s' = history sc s ++ [v] ∧ sv_Snapshot v = snap ∧ vm_Version (sv_Meta v) = n) ∧
  ∀ other, other ≠ sc → history other s' = history other s.
Proof.
  unfold AppendScenarioVersion. destruct (vs_AppendErr s); [done|]. intros [= <- <-].
  unfold history. cbn. rewrite lookup_insert_eq. cbn. split_and!; try done.
  - by eexists.
  - intros other Hne. by rewrite lookup_insert_ne.
Qed.
Lemma append_vs_ok now sc snap by_ s : vs_ok s → vs_ok (AppendScenarioVersion now sc snap by_ s).2.
Proof.
  intros Hok. unfold AppendScenarioVersion. destruct (vs_AppendErr s); [done|].
  intros sc'. unfold history. cbn. destruct (Hok sc) as [Hn Hv].
  destruct (decide (sc' = sc)) as [->|Hne].
  - rewrite !lookup_insert_eq. cbn. unfold history in Hn, Hv. rewrite Hn, length_app. cbn. split; [lia|].
    intros i v [Hi|[Hi Hlast]]%lookup_app_Some; [by apply Hv|].
    apply list_lookup_singleton_Some in Hlast as [Hi' <-]. cbn. lia.
  - rewrite !lookup_insert_ne by done. apply (Hok sc').
Qed.

Lemma find_version_at l n v :
  (∀ i x, l !! i = Some x → vm_Version (sv_Meta x) = Z.of_nat i + 1) →
  find_version n l = Some v ↔ 0 < n ∧ l !! Z.to_nat (n - 1) = Some v.
Proof.
  intros Hl. unfold find_version. split.
  - intros Hf. apply List.find_some in Hf as [Hin Hn]. apply Z.eqb_eq in Hn.
    apply list_elem_of_In, list_elem_of_lookup in Hin as [i Hi]. pose proof (Hl i v Hi) as Hv.
    rewrite Hv in Hn. split; [lia|]. by replace (Z.to_nat (n - 1)) with i by lia.
  - intros [Hpos Hi]. destruct (List.find _ l) as [x|] eqn:E.
    + apply List.find_some in E as [Hin Hn]. apply Z.eqb_eq in Hn.
      apply list_elem_of_In, list_elem_of_lookup in Hin as [j Hj]. pose proof (Hl j x Hj) as Hv.
      rewrite Hv in Hn. replace (Z.to_nat (n - 1)) with j in Hi by lia. congruence.
    + assert (In v l) as Hin by (apply list_elem_of_In; by eapply list_elem_of_lookup_2).
      apply (List.find_none _ _ E) in Hin. cbn in Hin. rewrite (Hl _ _ Hi) in Hin. apply Z.eqb_neq in Hin. lia.
Qed.

(** *** Append-only *)
Definition grows (w w' : ScenWorld) : Prop :=
  (∀ sc, history sc (sw_versions w) `prefix_of` history sc (sw_versions w')) ∧
  (vs_ok (sw_versions w) → vs_ok (sw_versions w')).
#[global] Instance grows_po : PreOrder grows.
Proof.
  split; [intros w; split; [by intros sc|done]|]. intros w1 w2 w3 [H1 H1'] [H2 H2']. split; [|by auto].
  intros sc. transitivity (history sc (sw_versions w2)); [apply H1|apply H2].
Qed.
#[global] Instance grows_read {A} (f : Store → A) : Keeps grows (sw_read f).
Proof. intros w. reflexivity. Qed.
#[global] Instance grows_try {A} (f : Store → result error A) : Keeps grows (sw_try f).
Proof. intros w. reflexivity. Qed.
#[global] Instance grows_store {A} (f : Store → result error A * Store) : Keeps grows (sw_on_store f).
Proof. intros w. unfold sw_on_store. destruct (f (sw_store w)). split; [by intros sc|done]. Qed.
#[global] Instance grows_upd f : Keeps grows (sw_upd f).
Proof. intros w. split; [by intros sc|done]. Qed.
#[global] Instance grows_objects {A} (m : M ObjectStore error A) : Keeps grows (sw_on_objects m).
Proof. intros w. unfold sw_on_objects. destruct (m (sw_objects w)). split; [by intros sc|done]. Qed.
#[global] Instance grows_append now sc snap by_ :
  Keeps grows (sw_on_versions (AppendScenarioVersion now sc snap by_)).
Proof.
  intros w. unfold sw_on_versions.
  pose proof (append_vs_ok now sc snap by_ (sw_versions w)) as Hok.
  destruct (AppendScenarioVersion now sc snap by_ (sw_versions w)) as [[n|e] s] eqn:E; cbn in *.
  - split; [|exact Hok]. apply append_Ok in E as (_ & _ & _ & _ & (v & Hs & _) & Ho).
    intros sc'. cbn. destruct (decide (sc' = sc)) as [->|Hne]; [rewrite Hs; by exists [v]|by rewrite Ho].
  - unfold AppendScenarioVersion in E. destruct (vs_AppendErr _); [|done]. injection E as _ <-.
    split; [by intros sc'|done].
Qed.

Section history_facts.
Context `{!Unicode} (Unmarshal : string → option Conf.Scenario) (Marshal : Conf.Scenario → option string)
        (YAMLDiagnostics : string → list Diagnostic).

#[local] Instance grows_capture_of now actor sc : Keeps grows (captureVersionOf now actor sc).
Proof. unfold captureVersionOf. solve_keeps. Qed.
#[local] Instance grows_capture now actor versioned id : Keeps grows (captureVersion now actor versioned id).
Proof. unfold captureVersion. solve_keeps. Qed.
#[local] Instance grows_restoreFiles id snap : Keeps grows (restoreFiles id snap).
Proof. unfold restoreFiles. solve_keeps. Qed.
#[local] Instance grows_tenant id : Keeps grows (resolveTenant id).
Proof. unfold resolveTenant. solve_keeps. Qed.
#[local] Instance grows_create now p : Keeps grows (create_scenario now p).
Proof. unfold create_scenario. solve_keeps. Qed.

(** The requests that write. *)
Inductive scen_op :=
| op_create (name : string) (projectID : Z)
| op_delete (id : Z)
| op_upload (id : Z) (filename content : string)
| op_delete_file (id : Z) (filename : string)
| op_set_requests (id : Z) (raw : string)
| op_instantiate (templateID : Z) (name : string) (projectID : Z) (targetURL : string)
| op_restore (id version : Z).
Definition forget {A} (m : M ScenWorld error A) : M ScenWorld error unit := _ ← m; mret tt.
Definition run_scen_op (now : time) (actor : string) (versioned : bool) (op : scen_op) :
    M ScenWorld error unit :=
  match op with
  | op_create name p => forget (Scenario_Create now actor versioned name p)
  | op_delete id => Scenario_Delete id
  | op_upload id f c => Scenario_UploadFile now actor versioned id f c
  | op_delete_file id f => Scenario_DeleteFile now actor versioned id f
  | op_set_requests id raw => SetRequests Unmarshal YAMLDiagnostics now actor versioned id raw
  | op_instantiate t name p url =>
      forget (Instantiate Unmarshal Marshal YAMLDiagnostics now actor versioned t name p url)
  | op_restore id v => forget (Restore now actor versioned id v)
  end.
Fixpoint run_scen_ops (ops : list (time * string * bool * scen_op)) (w : ScenWorld) : ScenWorld :=
  match ops with
  | [] => w
  | (now, actor, versioned, op) :: rest =>
      run_scen_ops rest (run_scen_op now actor versioned op w).2
  end.

#[local] Instance grows_set_requests now actor v id raw :
  Keeps grows (SetRequests Unmarshal YAMLDiagnostics now actor v id raw).
Proof. unfold SetRequests. solve_keeps. Qed.
#[local] Instance grows_op now actor versioned op : Keeps grows (run_scen_op now actor versioned op).
Proof.
  destruct op; cbn [run_scen_op]; unfold forget, Scenario_Create, Scenario_Delete, Scenario_UploadFile,
    Scenario_DeleteFile, Instantiate, Restore; solve_keeps.
Qed.

Lemma run_scen_ops_grows ops w : grows w (run_scen_ops ops w).
Proof.
  revert w. induction ops as [|[[[now actor] v] op] ops IH]; intros w; cbn [run_scen_ops]; [reflexivity|].
  etrans; [apply (keeps (R := grows))|]. apply IH.
Qed.

(** The edit history is append-only: whatever is created, uploaded,
    deleted, edited, instantiated or restored, and whether it succeeds or not,
    every version a scenario had stays as it was at its place, and versions
    stay numbered from one without gaps. *)
Theorem history_append_only ops w :
  (∀ sc, history sc (sw_versions w) `prefix_of` history sc (sw_versions (run_scen_ops ops w))) ∧
  (vs_ok (sw_versions w) → vs_ok (sw_versions (run_scen_ops ops w))).
Proof. exact (run_scen_ops_grows ops w). Qed.
End history_facts.

(** ** Restoring *)

(** What a snapshot says the scenario is; ownership and provenance are not
    part of it. *)
Record Content := mkContent {
  ct_Name : string; ct_Kind : string; ct_Engine : string; ct_IsTemplate : bool;
  ct_TemplateName : string; ct_TestFile : string; ct_Data : gset string; ct_Requests : string
}.
Definition snapshot_content (snap : ScenarioSnapshot) : Content :=
  mkContent (sn_Name snap) (sn_Kind snap) (sn_Engine snap) (sn_IsTemplate snap)
    (sn_TemplateName snap) (sn_TestFile snap) (list_to_set (sn_Data snap)) (sn_Requests snap).
Definition content_of (sc : Scenario) (s : Store) : Content := snapshot_content (scenarioSnapshot sc s).

(** What the store keeps besides: ownership and provenance. *)
Definition owner_of (sc : Scenario) : Z * option Z * string * string * time :=
  (scn_ProjectID sc, scn_TenantID sc, scn_CreatedBy sc, scn_UpdatedBy sc, scn_CreatedTime sc).

(** *** File records *)
Definition data_of (id : Z) (s : Store) : gset string := default ∅ (planData (st_catalog s) !! id).
Definition test_of (id : Z) (s : Store) : string := default "" (planTest (st_catalog s) !! id).
(** Everything but the file records of one scenario. *)
Record files_frame (id : Z) (s s' : Store) : Prop := {
  ff_scenarios : scenarios (st_catalog s') = scenarios (st_catalog s);
  ff_requests : scenarioRequests (st_catalog s') = scenarioRequests (st_catalog s);
  ff_tests : ∀ other, other ≠ id → planTest (st_catalog s') !! other = planTest (st_catalog s) !! other;
  ff_data : ∀ other, other ≠ id → planData (st_catalog s') !! other = planData (st_catalog s) !! other;
  ff_exec : exec (st_catalog s') = exec (st_catalog s)
}.
#[global] Instance files_frame_po id : PreOrder (files_frame id).
Proof.
  split; [by split|]. intros s1 s2 s3 [] []. split; try congruence.
  - intros o Ho. rewrite ff_tests1 by done. by apply ff_tests0.
  - intros o Ho. rewrite ff_data1 by done. by apply ff_data0.
Qed.

Lemma delete_data_file id name s :
  name ∈ data_of id s →
  ∃ s', DeleteScenarioFile id name false s = (Ok tt, s') ∧ data_of id s' = data_of id s ∖ {[name]} ∧
    planTest (st_catalog s') = planTest (st_catalog s) ∧ files_frame id s s'.
Proof.
  intros Hin. unfold DeleteScenarioFile, data_of in *. rewrite bool_decide_true by done.
  eexists. split; [done|]. cbn. rewrite lookup_insert_eq. split_and!; try done.
  split; try done. intros o Ho. cbn. by rewrite lookup_insert_ne.
Qed.
Lemma add_data_file id name s :
  ¬ name ∈ data_of id s →
  ∃ s', AddScenarioFile id name false s = (Ok tt, s') ∧ data_of id s' = {[name]} ∪ data_of id s ∧
    planTest (st_catalog s') = planTest (st_catalog s) ∧ files_frame id s s'.
Proof.
  intros Hin. unfold AddScenarioFile, data_of in *. rewrite bool_decide_false by done.
  eexists. split; [done|]. cbn. rewrite lookup_insert_eq. split_and!; try done.
  split; try done. intros o Ho. cbn. by rewrite lookup_insert_ne.
Qed.

(** The state with another store. *)
Definition sw_with (w : ScenWorld) (s : Store) : ScenWorld := mkScenWorld s (sw_objects w) (sw_versions w).

Lemma delete_loop id (keep : list string) names w :
  NoDup names → (∀ n, n ∈ names → n ∈ data_of id (sw_store w)) →
  ∃ s', for_each names (λ name, if bool_decide (name ∈ keep) then mret tt
                                else sw_on_store (DeleteScenarioFile id name false)) w =
        (Ok tt, sw_with w s') ∧
    (∀ n, n ∈ data_of id s' ↔ n ∈ data_of id (sw_store w) ∧ (n ∈ names → n ∈ keep)) ∧
    planTest (st_catalog s') = planTest (st_catalog (sw_store w)) ∧ files_frame id (sw_store w) s'.
Proof.
  revert w. induction names as [|n l IH]; intros w Hnd Hin; cbn [for_each].
  { exists (sw_store w). split; [by destruct w|]. split; [|done].
    intros n. split; [intros; split; [done|by intros ?%elem_of_nil]|by intros [? _]]. }
  apply NoDup_cons in Hnd as [Hn Hnd]. unfold mbind, M_bind.
  destruct (decide (n ∈ keep)) as [Hk|Hk].
  - rewrite bool_decide_true by done. cbn.
    destruct (IH w Hnd) as (s' & E & Hd & Ht & Hf); [intros; apply Hin; by right|].
    exists s'. split; [exact E|]. split; [|done]. intros m. rewrite Hd. setoid_rewrite elem_of_cons. naive_solver.
  - rewrite bool_decide_false by done.
    destruct (delete_data_file id n (sw_store w)) as (s1 & E1 & Hd1 & Ht1 & Hf1); [apply Hin; by left|].
    unfold sw_on_store. rewrite E1.
    destruct (IH (sw_with w s1) Hnd) as (s' & E & Hd & Ht & Hf).
    { intros m Hm. cbn. rewrite Hd1. apply elem_of_difference. split; [apply Hin; by right|].
      intros ->%elem_of_singleton. done. }
    exists s'. split; [exact E|]. cbn in Hd, Ht, Hf. split.
    + intros m. rewrite Hd, Hd1, elem_of_difference, elem_of_singleton, elem_of_cons. naive_solver.
    + split; [congruence|by etrans].
Qed.
Lemma add_loop id (have : list string) names w :
  NoDup names → (∀ n, n ∈ names → ¬ n ∈ have → ¬ n ∈ data_of id (sw_store w)) →
  ∃ s', for_each names (λ name, if bool_decide (name ∈ have) then mret tt
                                else sw_on_store (AddScenarioFile id name false)) w =
        (Ok tt, sw_with w s') ∧
    (∀ n, n ∈ data_of id s' ↔ n ∈ data_of id (sw_store w) ∨ (n ∈ names ∧ ¬ n ∈ have)) ∧
    planTest (st_catalog s') = planTest (st_catalog (sw_store w)) ∧ files_frame id (sw_store w) s'.
Proof.
  revert w. induction names as [|n l IH]; intros w Hnd Hin; cbn [for_each].
  { exists (sw_store w). split; [by destruct w|]. split; [|done].
    intros n. split; [by left|by intros [?|[?%elem_of_nil _]]]. }
  apply NoDup_cons in Hnd as [Hn Hnd]. unfold mbind, M_bind.
  destruct (decide (n ∈ have)) as [Hk|Hk].
  - rewrite bool_decide_true by done. cbn.
    destruct (IH w Hnd) as (s' & E & Hd & Ht & Hf); [intros; apply Hin; [by right|done]|].
    exists s'. split; [exact E|]. split; [|done]. intros m. rewrite Hd, elem_of_cons. naive_solver.
  - rewrite bool_decide_false by done.
    destruct (add_data_file id n (sw_store w)) as (s1 & E1 & Hd1 & Ht1 & Hf1); [apply Hin; [by left|done]|].
    unfold sw_on_store. rewrite E1.
    destruct (IH (sw_with w s1) Hnd) as (s' & E & Hd & Ht & Hf).
    { intros m Hm Hh. cbn. rewrite Hd1, elem_of_union, elem_of_singleton. intros [->|Hbad]; [done|].
      apply (Hin m); [by right|done|done]. }
    exists s'. split; [exact E|]. cbn in Hd, Ht, Hf. split.
    + intros m. rewrite Hd, Hd1, elem_of_union, elem_of_singleton, elem_of_cons. naive_solver.
    + split; [congruence|by etrans].
Qed.

(** The test-file slot. *)
Lemma test_slot id want w :
  planTest (st_catalog (sw_store w)) !! id ≠ Some "" →
  let cur := test_of id (sw_store w) in
  ∃ s', (if bool_decide (cur = want) then mret tt
         else
           _ ← (if bool_decide (cur = "") then mret tt
                else sw_on_store (DeleteScenarioFile id cur true));
           if bool_decide (want = "") then mret tt
           else sw_on_store (AddScenarioFile id want true)) w = (Ok tt, sw_with w s') ∧
    test_of id s' = want ∧ planTest (st_catalog s') !! id ≠ Some "" ∧
    data_of id s' = data_of id (sw_store w) ∧ files_frame id (sw_store w) s'.
Proof.
  intros Hne. cbv zeta. destruct w as [s o v]. cbn [sw_store] in *.
  destruct (planTest (st_catalog s) !! id) as [cur|] eqn:Ec.
  - assert (test_of id s = cur) as Hcur by (unfold test_of; by rewrite Ec). rewrite Hcur.
    destruct (decide (cur = want)) as [->|Hw].
    { rewrite bool_decide_true by done. exists s. unfold test_of. rewrite Ec. by split_and!. }
    rewrite bool_decide_false by done. rewrite (bool_decide_false (cur = "")) by congruence.
    unfold mbind, M_bind, sw_on_store at 1. cbn [sw_store].
    unfold DeleteScenarioFile. rewrite Ec. change (default "" (Some cur)) with cur.
    rewrite bool_decide_false by (intros Hx; by apply Hx). cbn [sw_objects sw_versions].
    set (s1 := upd _ s).
    assert (planTest (st_catalog s1) !! id = None) as E1 by (cbn; by rewrite lookup_delete_eq).
    assert (files_frame id s s1) as F1.
    { split; try done. intros x Hx. cbn. by rewrite lookup_delete_ne. }
    destruct (decide (want = "")) as [->|Hwant].
    + rewrite bool_decide_true by done. exists s1. unfold test_of. rewrite E1. by split_and!.
    + rewrite bool_decide_false by done. unfold sw_on_store, AddScenarioFile. cbn [sw_store].
      rewrite E1. eexists. split; [reflexivity|]. unfold test_of. cbn. rewrite lookup_insert_eq. cbn.
      split_and!; try done; [congruence|].
      etrans; [exact F1|]. split; try done. intros x Hx. cbn. by rewrite lookup_insert_ne.
  - assert (test_of id s = "") as Hcur by (unfold test_of; by rewrite Ec). rewrite Hcur.
    destruct (decide ("" = want)) as [<-|Hw].
    { rewrite bool_decide_true by done. exists s. unfold test_of. rewrite Ec. by split_and!. }
    rewrite bool_decide_false by done. rewrite (bool_decide_true ("" = "")) by done.
    rewrite (bool_decide_false (want = "")) by congruence.
    unfold mbind, M_bind, mret, M_ret, sw_on_store, AddScenarioFile. cbn [sw_store].
    rewrite Ec. eexists. split; [reflexivity|]. unfold test_of. cbn. rewrite lookup_insert_eq. cbn.
    split_and!; try done; [congruence|].
    split; try done. intros x Hx. cbn. by rewrite lookup_insert_ne.
Qed.

Lemma restoreFiles_spec id snap w :
  planTest (st_catalog (sw_store w)) !! id ≠ Some "" → NoDup (sn_Data snap) →
  ∃ s', restoreFiles id snap w = (Ok tt, sw_with w s') ∧
    test_of id s' = sn_TestFile snap ∧ planTest (st_catalog s') !! id ≠ Some "" ∧
    data_of id s' = list_to_set (sn_Data snap) ∧ files_frame id (sw_store w) s'.
Proof.
  intros Hne Hnd. unfold restoreFiles.
  set (current := ScenarioFilesFor id (sw_store w)).
  assert (∀ n, n ∈ sf_Data current ↔ n ∈ data_of id (sw_store w)) as Hcur
    by (intros n; unfold current, ScenarioFilesFor, data_of; cbn [sf_Data]; apply elem_of_elements).
  destruct (test_slot id (sn_TestFile snap) w Hne) as (s1 & E1 & Ht1 & Hn1 & Hd1 & F1).
  destruct (delete_loop id (sn_Data snap) (sf_Data current) (sw_with w s1)) as (s2 & E2 & Hd2 & Ht2 & F2).
  { unfold current, ScenarioFilesFor. cbn [sf_Data]. apply NoDup_elements. }
  { intros n Hn%Hcur. unfold sw_with. cbn [sw_store]. by rewrite Hd1. }
  destruct (add_loop id (sf_Data current) (sn_Data snap) (sw_with w s2)) as (s3 & E3 & Hd3 & Ht3 & F3); [done|..].
  { intros n _ Hnot. unfold sw_with in *. cbn [sw_store] in *. rewrite Hd2, Hd1, <- Hcur. naive_solver. }
  exists s3. split.
  { unfold mbind at 1, M_bind at 1. unfold sw_read at 1. fold current. cbn [fst snd].
    change (sf_TestFile current) with (test_of id (sw_store w)).
    unfold mbind at 1, M_bind at 1. rewrite E1. unfold mbind at 1, M_bind at 1. rewrite E2. exact E3. }
  unfold sw_with in *. cbn [sw_store] in *. split_and!.
  - unfold test_of in *. by rewrite Ht3, Ht2.
  - by rewrite Ht3, Ht2.
  - apply set_eq. intros n. rewrite Hd3, Hd2, Hd1, elem_of_list_to_set, <- Hcur.
    destruct (decide (n ∈ sf_Data current)); naive_solver.
  - etrans; [exact F1|]. by etrans.
Qed.

Lemma UpdateScenario_spec id snap sc s :
  GetScenario id s = Ok sc →
  ∃ s', UpdateScenario (rewound id snap) s = (Ok tt, s') ∧
    scenarios (st_catalog s') = <[id := mkScenario (scn_ID sc) (sn_Name snap) (scn_ProjectID sc)
      (sn_Kind snap) (sn_Engine snap) (scn_TenantID sc) (scn_CreatedBy sc) (scn_UpdatedBy sc)
      (scn_CreatedTime sc) (sn_IsTemplate snap) (sn_TemplateName snap)]> (scenarios (st_catalog s)) ∧
    scenarioRequests (st_catalog s') = scenarioRequests (st_catalog s) ∧
    planTest (st_catalog s') = planTest (st_catalog s) ∧ planData (st_catalog s') = planData (st_catalog s).
Proof.
  unfold GetScenario, UpdateScenario. cbn [scn_ID rewound].
  destruct (scenarios (st_catalog s) !! id); [|done]. intros [= ->]. eexists. split; [reflexivity|]. by split_and!.
Qed.

(** What a restore needs: the scenario is stored under its own id, its test-file
    slot holds a name or nothing, and the version exists. *)
Record restorable (id version : Z) (sc : Scenario) (v : ScenarioVersion) (w : ScenWorld) : Prop := {
  ra_get : GetScenario id (sw_store w) = Ok sc;
  ra_id : scn_ID sc = id;
  ra_slot : planTest (st_catalog (sw_store w)) !! id ≠ Some "";
  ra_ok : vs_ok (sw_versions w);
  ra_append : vs_AppendErr (sw_versions w) = None;
  ra_version : GetScenarioVersion id version (sw_versions w) = Ok v;
  ra_valid : Scenario.Scenario.Validate (rewound id (sv_Snapshot v)) = Ok tt;
  ra_data : NoDup (sn_Data (sv_Snapshot v))
}.

Lemma Restore_spec now actor id version sc v w :
  restorable id version sc v w →
  ∃ n w' sc' pre, Restore now actor true id version w = (Ok (mkRestoreResult version n), w') ∧
    GetScenario id (sw_store w') = Ok sc' ∧ scn_ID sc' = id ∧
    content_of sc' (sw_store w') = snapshot_content (sv_Snapshot v) ∧ owner_of sc' = owner_of sc ∧
    planTest (st_catalog (sw_store w')) !! id ≠ Some "" ∧
    n = Z.of_nat (length (history id (sw_versions w))) + 1 ∧
    history id (sw_versions w') = history id (sw_versions w) ++ [pre] ∧
    sv_Snapshot pre = scenarioSnapshot sc (sw_store w) ∧
    vs_ok (sw_versions w') ∧ vs_AppendErr (sw_versions w') = None ∧
    vs_GetErr (sw_versions w') = vs_GetErr (sw_versions w) ∧
    ∀ other, other ≠ id →
      GetScenario other (sw_store w') = GetScenario other (sw_store w) ∧
      test_of other (sw_store w') = test_of other (sw_store w) ∧
      data_of other (sw_store w') = data_of other (sw_store w) ∧
      raw_requests other (sw_store w') = raw_requests other (sw_store w).
Proof.
  intros [Hg Hid Hslot Hok Happ Hver Hval Hnd].
  destruct (AppendScenarioVersion now (scn_ID sc) (scenarioSnapshot sc (sw_store w)) actor (sw_versions w))
    as [[n|e] vs'] eqn:Ea; [|unfold AppendScenarioVersion in Ea; by rewrite Happ in Ea].
  pose proof (append_vs_ok now (scn_ID sc) (scenarioSnapshot sc (sw_store w)) actor _ Hok) as Hok'.
  rewrite Ea in Hok'. cbn [snd] in Hok'.
  apply append_Ok in Ea as Ha. rewrite Hid in Ha. destruct Ha as (_ & Happ' & Hget' & -> & (pre & Hh & Hsnap & _) & _).
  destruct (UpdateScenario_spec id (sv_Snapshot v) sc (sw_store w) Hg) as (s1 & E1 & Hs1 & Hr1 & Ht1 & Hd1).
  destruct (restoreFiles_spec id (sv_Snapshot v) (mkScenWorld s1 (sw_objects w) vs'))
    as (s2 & E2 & Ht2 & Hn2 & Hd2 & [Fs Fr Ft Fd _]); [by rewrite <- Ht1 in Hslot|done|].
  cbn [sw_store sw_with sw_objects sw_versions] in *.
  set (s3 := if bool_decide (sn_Requests (sv_Snapshot v) = "") then DeleteScenarioRequests id s2
             else SetScenarioRequests id (sn_Requests (sv_Snapshot v)) s2).
  assert (scenarios (st_catalog s3) = scenarios (st_catalog s2) ∧ planTest (st_catalog s3) = planTest (st_catalog s2) ∧
    planData (st_catalog s3) = planData (st_catalog s2)) as (Hsc3 & Ht3 & Hd3) by (unfold s3; by case_bool_decide).
  assert (raw_requests id s3 = sn_Requests (sv_Snapshot v)) as Hreq.
  { unfold s3, raw_requests. case_bool_decide as Hq; cbn; [by rewrite lookup_delete_eq|by rewrite lookup_insert_eq]. }
  assert (∀ o, o ≠ id → raw_requests o s3 = raw_requests o (sw_store w)) as Hreqo.
  { intros o Ho. unfold s3, raw_requests. rewrite <- Hr1, <- Fr.
    case_bool_decide; cbn; [by rewrite lookup_delete_ne|by rewrite lookup_insert_ne]. }
  set (sc' := mkScenario (scn_ID sc) (sn_Name (sv_Snapshot v)) (scn_ProjectID sc) (sn_Kind (sv_Snapshot v))
    (sn_Engine (sv_Snapshot v)) (scn_TenantID sc) (scn_CreatedBy sc) (scn_UpdatedBy sc) (scn_CreatedTime sc)
    (sn_IsTemplate (sv_Snapshot v)) (sn_TemplateName (sv_Snapshot v))) in *.
  exists (default 0 (vs_nextNum (sw_versions w) !! id) + 1), (mkScenWorld s3 (sw_objects w) vs'), sc', pre.
  split.
  { unfold Restore, mbind, M_bind, sw_try, ask. rewrite Hg. cbn [negb]. rewrite Hver.
    unfold captureVersionOf, mbind, M_bind, sw_read, sw_on_versions. cbn [sw_versions].
    rewrite Ea. cbv zeta. unfold lift. rewrite Hval. unfold sw_on_store. cbn [sw_store sw_objects sw_versions].
    rewrite E1. rewrite E2. unfold s3. by case_bool_decide. }
  cbn [sw_store sw_versions]. split_and!; try done.
  - unfold GetScenario. by rewrite Hsc3, Fs, Hs1, lookup_insert_eq.
  - unfold content_of, snapshot_content, scenarioSnapshot. cbn. unfold ScenarioFilesFor. cbn.
    rewrite Hid, Hreq, Ht3, Hd3. f_equal; [exact Ht2|].
    change (default ∅ (planData (st_catalog s2) !! id)) with (data_of id s2). rewrite Hd2.
    apply list_to_set_elements_L.
  - by rewrite Ht3.
  - by rewrite (proj1 (Hok id)).
  - intros o Ho. unfold GetScenario, test_of, data_of. rewrite Hsc3, Ht3, Hd3, Fs, Hs1, lookup_insert_ne by done.
    rewrite Ft, Fd, Ht1, Hd1 by done. auto.
Qed.

Lemma rewound_valid id sc s :
  Scenario.Scenario.Validate (rewound id (scenarioSnapshot sc s)) = Scenario.Scenario.Validate sc.
Proof. reflexivity. Qed.


(** ** An upload that fails half-way *)

(** Uploading a script to a portable scenario while the object store
    refuses it undoes the file record but not the change of kind: the upload
    fails, the scenario has no script, and it is native from then on, so its
    requests can no longer be set. *)
Theorem failed_script_upload_converts `{!Unicode} Unmarshal YAMLDiagnostics now actor id f content w sc e engine :
  GetScenario id (sw_store w) = Ok sc → scn_Kind sc = KindPortable →
  planTest (st_catalog (sw_store w)) !! id = None →
  bad_filename f = false → engineForArtefact f = Some engine →
  UploadErr (sw_objects w) = Some e →
  ∃ w' sc', Scenario_UploadFile now actor false id f content w = (Err e, w') ∧
    test_of id (sw_store w') = "" ∧
    GetScenario id (sw_store w') = Ok sc' ∧ scn_Kind sc' = KindNative ∧
    ∀ raw, (SetRequests Unmarshal YAMLDiagnostics now actor false id raw w').1 = Err ErrScenarioNotPortable.
Proof.
  intros Hg Hk Ht Hf He Hup. destruct w as [s o vs]. cbn [sw_store sw_objects] in *.
  assert (f ≠ "") as Hne by (intros ->; done).
  unfold GetScenario in Hg. destruct (scenarios (st_catalog s) !! id) as [x|] eqn:Hs; [|done]. injection Hg as ->.
  assert (isTestFile f = true) as Htest by (unfold isTestFile; rewrite He; done).
  assert (filePresent (ScenarioFilesFor id s) f true = false) as Hp.
  { unfold filePresent, ScenarioFilesFor. cbn [sf_TestFile]. rewrite Ht. cbn. by rewrite bool_decide_false. }
  unfold Scenario_UploadFile, mbind, M_bind, lift, scen_validateFilename. rewrite Hf.
  unfold sw_try, ask, GetScenario. cbn [sw_store]. rewrite Hs. cbv zeta. rewrite Htest.
  unfold sw_read. cbn [sw_store]. rewrite Hp. unfold captureVersion. cbn [negb]. unfold mret, M_ret.
  unfold sw_on_store at 1, AddScenarioFile. cbn [sw_store]. rewrite Ht.
  rewrite He. unfold sw_on_store at 1, SetScenarioKind. cbn. rewrite Hs.
  unfold attempt, sw_on_objects, Upload. cbn. rewrite Hup. unfold ignore, sw_on_store, DeleteScenarioFile. cbn.
  rewrite lookup_insert_eq. cbn. rewrite bool_decide_false by (intros Hx; by apply Hx). cbn.
  eexists _, _. split; [reflexivity|]. cbn. split.
  - unfold test_of. cbn. by rewrite lookup_delete_eq.
  - unfold GetScenario. cbn. rewrite lookup_insert_eq. split; [reflexivity|]. cbn. split; [done|].
    intros raw. unfold SetRequests, mbind, M_bind, sw_try, ask, GetScenario. cbn. by rewrite lookup_insert_eq.
Qed.

(** ** The fingerprint's encoding *)
Definition colon : ascii := ":"%char.
Definition colon_free (name : string) : Prop := ¬ colon ∈ bytes_of name.
Definition fingerprint_names (id : Z) (s : Store) : list string :=
  let files := ScenarioFilesFor id s in
  merge_sort str_le ((if bool_decide (sf_TestFile files = "") then [] else [sf_TestFile files]) ++ sf_Data files).

(** One segment, and what follows it. *)
Definition segment (name content : string) (rest : list ascii) : list ascii :=
  bytes_of "file:" ++ bytes_of name ++ colon :: bytes_of (pretty (go_len content)) ++
  colon :: bytes_of content ++ rest.
Definition trailer (requests : string) : list ascii :=
  bytes_of "requests:" ++ bytes_of (pretty (go_len requests)) ++ colon :: bytes_of requests.

Lemma go_len_nonneg s : 0 <= go_len s.
Proof. unfold go_len. lia. Qed.
Lemma pretty_len_no_colon s : ¬ colon ∈ bytes_of (pretty (go_len s)).
Proof. apply pretty_avoids; [apply go_len_nonneg|done]. Qed.
Lemma same_len_app (a b : string) (r r' : list ascii) :
  go_len a = go_len b → bytes_of a ++ r = bytes_of b ++ r' → a = b ∧ r = r'.
Proof.
  intros Hl Heq. apply app_inj_1 in Heq as [Ha Hr].
  - by apply (inj bytes_of) in Ha.
  - rewrite !length_bytes_of. unfold go_len in Hl. lia.
Qed.
Lemma segment_inj n c r n' c' r' :
  colon_free n → colon_free n' → segment n c r = segment n' c' r' → n = n' ∧ c = c' ∧ r = r'.
Proof.
  unfold segment. intros Hn Hn' Heq. apply (inj (app (bytes_of "file:"))) in Heq.
  apply (first_part_inj colon) in Heq as [Hname Heq]; [|done..].
  apply (first_part_inj colon) in Heq as [Hlen Heq]; [|apply pretty_len_no_colon..].
  apply (inj bytes_of) in Hname. apply (inj bytes_of), (inj pretty) in Hlen.
  by apply same_len_app in Heq as [? ?].
Qed.
Lemma trailer_inj r r' : trailer r = trailer r' → r = r'.
Proof.
  unfold trailer. intros Heq. apply (inj (app (bytes_of "requests:"))) in Heq.
  apply (first_part_inj colon) in Heq as [_ Heq]; [|apply pretty_len_no_colon..].
  by apply (inj bytes_of).
Qed.
Lemma segment_not_trailer n c r q : segment n c r ≠ trailer q.
Proof. done. Qed.

Lemma fingerprint_files_bytes id names o body q :
  fingerprint_files id names o = Ok body →
  ∃ contents, Forall2 (λ n c, objects o !! scenarioFileKey id n = Some c) names contents ∧
    bytes_of body ++ trailer q = foldr (λ nc r, segment nc.1 nc.2 r) (trailer q) (zip names contents).
Proof.
  revert body. induction names as [|n l IH]; intros body; cbn [fingerprint_files].
  { intros [= <-]. exists []. by split. }
  unfold mbind, result_bind, Download. cbn [fst].
  destruct (objects o !! scenarioFileKey id n) as [c|] eqn:Hc; [|done].
  destruct (fingerprint_files id l o) as [more|] eqn:Hm; [|done]. intros [= <-].
  destruct (IH more eq_refl) as (cs & Hcs & Heq). exists (c :: cs). split; [by constructor|].
  cbn [zip zip_with foldr fst snd]. unfold segment at 1. rewrite <- Heq. rewrite !bytes_of_app.
  change (bytes_of ":") with [colon]. rewrite <- !(assoc_L app). done.
Qed.

Lemma fold_segments_inj q q' l l' :
  Forall (λ nc, colon_free nc.1) l → Forall (λ nc, colon_free nc.1) l' →
  foldr (λ (nc : string * string) r, segment nc.1 nc.2 r) (trailer q) l =
  foldr (λ (nc : string * string) r, segment nc.1 nc.2 r) (trailer q') l' → l = l' ∧ q = q'.
Proof.
  revert l'. induction l as [|[n c] l IH]; intros [|[n' c'] l'] H1 H2; cbn [foldr fst snd].
  - intros ?%trailer_inj. done.
  - intros Heq. by symmetry in Heq; apply segment_not_trailer in Heq.
  - intros Heq. by apply segment_not_trailer in Heq.
  - apply Forall_cons in H1 as [Hn H1]. apply Forall_cons in H2 as [Hn' H2].
    intros (-> & -> & Heq)%segment_inj; [|done..]. destruct (IH l' H1 H2 Heq) as [-> ->]. done.
Qed.

Lemma fingerprint_text_inv id s o t :
  fingerprint_text id s o = Ok t →
  ∃ contents, Forall2 (λ n c, objects o !! scenarioFileKey id n = Some c) (fingerprint_names id s) contents ∧
    bytes_of t = foldr (λ nc r, segment nc.1 nc.2 r) (trailer (raw_requests id s))
                   (zip (fingerprint_names id s) contents).
Proof.
  unfold fingerprint_text, mbind, result_bind. destruct (GetScenario id s); [|done]. cbv zeta.
  change (merge_sort str_le _) with (fingerprint_names id s).
  destruct (fingerprint_files id (fingerprint_names id s) o) as [body|] eqn:Hb; [|done]. intros [= <-].
  destruct (fingerprint_files_bytes id _ o body (raw_requests id s) Hb) as (cs & Hcs & Heq).
  exists cs. split; [done|]. rewrite <- Heq. unfold trailer. by rewrite !bytes_of_app.
Qed.

Lemma zip_names names contents :
  length names = length contents → Forall colon_free names → Forall (λ nc : string * string, colon_free nc.1) (zip names contents).
Proof.
  revert contents. induction names as [|n l IH]; intros [|c cs] Hl Hf; cbn in *; try done.
  apply Forall_cons in Hf as [Hn Hf]. constructor; [done|]. apply IH; [lia|done].
Qed.

(** The fingerprint hashes exactly the content, as far as no file name
    holds a colon: two scenario states with the same text to be hashed have the
    same files, every file with the same bytes, and the same requests. *)
Theorem fingerprint_text_faithful id s o s' o' t :
  fingerprint_text id s o = Ok t → fingerprint_text id s' o' = Ok t →
  Forall colon_free (fingerprint_names id s) → Forall colon_free (fingerprint_names id s') →
  fingerprint_names id s = fingerprint_names id s' ∧ raw_requests id s = raw_requests id s' ∧
  ∀ name, name ∈ fingerprint_names id s →
    objects o !! scenarioFileKey id name = objects o' !! scenarioFileKey id name.
Proof.
  intros (cs & Hcs & Ht)%fingerprint_text_inv (cs' & Hcs' & Ht')%fingerprint_text_inv Hf Hf'.
  rewrite Ht in Ht'. pose proof (Forall2_length _ _ _ Hcs) as Hl. pose proof (Forall2_length _ _ _ Hcs') as Hl'.
  apply fold_segments_inj in Ht' as [Hz Hq]; [|by apply zip_names..].
  apply (f_equal (λ l, (l.*1, l.*2))) in Hz. rewrite !fst_zip, !snd_zip in Hz by lia.
  injection Hz as Hn Hc. split; [done|]. split; [done|].
  intros name (i & Hi)%list_elem_of_lookup. rewrite <- Hn in Hcs'. subst cs'.
  destruct (Forall2_lookup_l _ _ _ _ _ Hcs Hi) as (c & Hci & ->).
  destruct (Forall2_lookup_l _ _ _ _ _ Hcs' Hi) as (c' & Hci' & ->). congruence.
Qed.

(** ** Witnesses and the collision *)
Definition scen_row : Scenario := mkScenario 0 "checkout" 1 KindPortable "" None "" "" 5 false "".
Definition scen_store : Store := (CreateScenario 5 scen_row NewStore).2.
Definition scen_world : ScenWorld := mkScenWorld scen_store NewObjectStore NewVersionStore.
Definition put_files (files : list (string * string)) : ScenWorld :=
  fold_left (λ w nc, (Scenario_UploadFile 6 "" true 1 nc.1 nc.2 w).2) files scen_world.
Definition two_files : ScenWorld := put_files [("a", "X"); ("b", "CCC")].
Definition one_file : ScenWorld := put_files [("a:1:Xfile:b", "CCC")].

(** A colon in a file name defeats the fingerprint: two files and one file,
    all of them accepted uploads, hash to the same fingerprint whatever the
    hash function, so a capacity profile measured on the one reads as fresh on
    the other. *)
Theorem fingerprint_collides :
  fingerprint_names 1 (sw_store two_files) = ["a"; "b"] ∧
  fingerprint_names 1 (sw_store one_file) = ["a:1:Xfile:b"] ∧
  bad_filename "a:1:Xfile:b" = false ∧
  ∀ sha256_hex,
    ScenarioFingerprint sha256_hex 1 (sw_store two_files) (sw_objects two_files) =
    ScenarioFingerprint sha256_hex 1 (sw_store one_file) (sw_objects one_file) ∧
    is_Ok (ScenarioFingerprint sha256_hex 1 (sw_store one_file) (sw_objects one_file)) = true.
Proof.
  split; [vm_compute; reflexivity|]. split; [vm_compute; reflexivity|]. split; [vm_compute; reflexivity|].
  intros sha. unfold ScenarioFingerprint.
  assert (fingerprint_text 1 (sw_store two_files) (sw_objects two_files) =
          Ok "file:a:1:Xfile:b:3:CCCrequests:0:") as -> by (vm_compute; reflexivity).
  assert (fingerprint_text 1 (sw_store one_file) (sw_objects one_file) =
          Ok "file:a:1:Xfile:b:3:CCCrequests:0:") as -> by (vm_compute; reflexivity).
  by split.
Qed.

Lemma fingerprint_text_faithful_witness :
  fingerprint_names 1 (sw_store two_files) = ["a"; "b"] ∧
  objects (sw_objects two_files) !! scenarioFileKey 1 "a" = Some "X".
Proof.
  assert (fingerprint_text 1 (sw_store two_files) (sw_objects two_files) =
          Ok "file:a:1:Xfile:b:3:CCCrequests:0:") as E by (vm_compute; reflexivity).
  assert (fingerprint_names 1 (sw_store two_files) = ["a"; "b"]) as Hn by (vm_compute; reflexivity).
  assert (Forall colon_free (fingerprint_names 1 (sw_store two_files))) as Hf.
  { rewrite Hn. repeat constructor; unfold colon_free; vm_compute; intros Hx;
      by repeat (apply elem_of_cons in Hx as [Hx|Hx]; [discriminate Hx|]); apply elem_of_nil in Hx. }
  destruct (fingerprint_text_faithful 1 _ _ _ _ _ E E Hf Hf) as (_ & _ & Ho).
  split; [exact Hn|]. assert ("a" ∈ fingerprint_names 1 (sw_store two_files)) as Hin by (rewrite Hn; left).
  pose proof (Ho "a" Hin) as _. vm_compute. reflexivity.
Defined.

(** The two uploads captured the states before each of them; version 1 has no
    file, version 2 has the first. *)
Definition before_b : ScenarioVersion :=
  match GetScenarioVersion 1 2 (sw_versions two_files) with
  | Ok v => v
  | Err _ => mkVersion (mkVersionMeta 0 0 0 0 None) (mkSnapshot 0 "" 0 "" "" None "" "" 0 false "" "" [] "")
  end.

Definition refusing : ScenWorld :=
  mkScenWorld scen_store (mkObjectStore ∅ (Some (ErrInjected "down"))) NewVersionStore.
Lemma failed_script_upload_converts_witness :
  ∃ w' sc', Scenario_UploadFile 6 "" false 1 "plan.jmx" "<xml>" refusing = (Err (ErrInjected "down"), w') ∧
    GetScenario 1 (sw_store w') = Ok sc' ∧ scn_Kind sc' = KindNative.
Proof.
  destruct (failed_script_upload_converts (λ _, None) (λ _, []) 6 "" 1 "plan.jmx" "<xml>" refusing
    (mkScenario 1 "checkout" 1 KindPortable "" None "" "" 5 false "") (ErrInjected "down") ExecutorJMeter)
    as (w' & sc' & H1 & _ & H2 & H3 & _); try (vm_compute; reflexivity).
  exists w', sc'. split; [exact H1|]. split; [exact H2|exact H3].
Defined.
