(* ===== verification/CalibrationApp.v ===== *)
(** * The calibration service ([internal/app/calibrationapp])

    Creating a calibration, triggering its search, driving it one step at a
    time over a step runner, and answering how many engines a rate needs.  The
    step runner is an interface here ([Runner]); [RunStep] of [step.go] is its
    implementation over the lifecycle operations, a clock and a sleep, both of
    which are parameters. *)
From S2P Require Import Prelude Errors GoStrings GoFloat ParseFloat LoadProfile Taurus Scenario Execution.
From S2P Require Import Criteria Histogram Report Verdicts Calibration Capacity Reservation Quota RunTable.
From S2P Require Import Store Cluster ExecutionApp ScenarioApp.

Definition leaseFor : duration := 30 * 60 * second.
Definition stepRampupSeconds : Z := 5.
Definition triggerReadyPollInterval : duration := 2 * second.
Definition triggerReadyTimeout : duration := 2 * 60 * second.
Definition stepReportPollInterval : duration := 2 * second.
Definition stepReportTimeout : duration := 5 * 60 * second.

Section calibrationapp.
Context {C H : Type}.
Let W : Type := World C H.
Context (now : time).

Definition on_calibrations {A} (f : CalibrationTable → result error A * CalibrationTable) : M W error A :=
  on_store (λ s, let '(r, t) := f (st_calibrations s) in (r, set_calibrations t s)).
Definition upd_capacity (f : CapacityTable → CapacityTable) : M W error unit :=
  upd_store (λ s, set_capacity (f (st_capacity s)) s).

(** ** Creating *)
Definition bound_of (e : Entry) (scenarioID : Z) (spec : Spec) : Entry :=
  mkEntry (Name e) scenarioID (Concurrency e) (Rampup e) 1 (to_int (fceil (sp_SeedQPS spec)))
    (Z.max (sp_HoldSeconds spec) (Duration e)) false "" 0.
Definition boundEntry (sourceExecutionID scenarioID : Z) (spec : Spec) : M W error Entry :=
  entries ← read_store (LoadProfileFor sourceExecutionID);
  match List.find (λ e, ScenarioID e =? scenarioID) entries with
  | Some e =>
      let bound := bound_of e scenarioID spec in
      _ ← lift (Entry_Validate bound);
      mret bound
  | None => throw ErrSourceScenarioNotBound
  end.

Definition exe_calibrating (c : Execution) (engine : Executor) (cpu memory : string) : Execution :=
  mkExecution (exe_ID c) (exe_Name c) (exe_ProjectID c) engine KindCalibrateEngine cpu memory
    (exe_Cluster c) (exe_FanOutTargets c) (exe_CSVSplit c) (exe_TenantID c) (exe_CreatedBy c)
    (exe_UpdatedBy c) (exe_CreatedTime c).
Definition Calibration_Create (name : string) (projectID : Z) (engine : Executor) (spec : Spec)
    (sourceExecutionID scenarioID : Z) : M W error Z :=
  if bool_decide (TrimSpace engine = "") then throw ErrCalibrationEngineRequired
  else
    let spec := WithDefaults spec in
    _ ← lift (Spec_Validate spec);
    _ ← lift (ValidateCriterion (sp_Criterion spec));
    bound ← boundEntry sourceExecutionID scenarioID spec;
    exe ← lift (Execution.New name projectID);
    let exe := exe_calibrating exe engine (sp_CPU spec) (sp_Memory spec) in
    tenant ← project_tenant projectID (exe_TenantID exe);
    let exe := exe_in_tenant exe tenant in
    _ ← lift (Execution_Validate exe);
    executionID ← create_execution now exe;
    _ ← on_store (StoreExecutionConfig executionID false [bound] (SplitCriterion (sp_Criterion spec)));
    _ ← upd_capacity (SetCalibrationBounds executionID
           (mkCalibrationBounds (sp_SeedQPS spec) (sp_MaxQPS spec) (sp_MaxSteps spec)
              (sp_HoldSeconds spec)));
    mret executionID.

Definition SpecFor (executionID : Z) : M W error Spec :=
  exe ← try_store (GetExecution executionID);
  criteria ← read_store (CriteriaFor executionID);
  bounds ← try_store (λ s, CalibrationBoundsFor executionID (st_capacity s));
  mret (mkSpec (String.concat ", " criteria) (exe_CPU exe) (exe_Memory exe) (cb_SeedQPS bounds)
          (cb_MaxQPS bounds) (cb_MaxSteps bounds) (cb_HoldSeconds bounds)).

(** ** Triggering *)
Definition Calibration_Trigger (executionID : Z) : M W error Z :=
  exe ← try_store (GetExecution executionID);
  if bool_decide (exe_Kind exe ≠ KindCalibrateEngine) then throw ErrExecutionNotCalibration
  else
    spec ← SpecFor executionID;
    _ ← lift (Spec_Validate spec);
    entries ← read_store (LoadProfileFor executionID);
    match entries with
    | [e] => on_calibrations (λ t, let '(id, t') := CreateCalibrationJob now executionID (ScenarioID e) t in
                                   (Ok id, t'))
    | _ => throw ErrScenarioNotConfigured
    end.
Definition TriggerForScenario (scenarioID : Z) : M W error Z :=
  executions ← read_store (ListExecutionsByScenario scenarioID);
  match List.find (λ exe, bool_decide (exe_Kind exe = KindCalibrateEngine)) executions with
  | Some exe => Calibration_Trigger (exe_ID exe)
  | None => throw ErrNoCalibrationExecution
  end.

Definition Calibration_Get (jobID : Z) : M W error (CalibrationJob * list Step) :=
  job ← try_store (λ s, GetCalibrationJob jobID (st_calibrations s));
  steps ← read_store (λ s, StepsFor jobID (st_calibrations s));
  mret (job, steps).

(** ** Advancing *)
Definition startOrResume (spec : Spec) (persisted : CalibrationJob) : Job * float64 :=
  if decide (cj_Phase persisted = PhasePending) then
    let '(job, action) := Start spec in (job, act_NextRequestedQPS action)
  else
    (mkJob spec (cj_Phase persisted) (cj_StepCount persisted) (cj_BracketLoRequested persisted)
       (cj_BracketLoAchieved persisted) (cj_BracketHiRequested persisted) (cj_Result persisted),
     cj_NextRequestedQPS persisted).
Definition applyDomainJob (p : CalibrationJob) (job : Job) (action : Action) : CalibrationJob :=
  mkCalibrationJob (cj_ID p) (cj_ExecutionID p) (cj_ScenarioID p) (job_Phase job) (job_StepCount job)
    (job_BracketLoRequested job) (job_BracketLoAchieved job) (job_BracketHiRequested job)
    (act_NextRequestedQPS action) (job_Result job) (cj_FailureReason p) (cj_CreatedTime p).

(** [Runner] and [ScenarioFingerprinter]. *)
Context (run_step : Z → float64 → Z → float64 → M W error Report)
        (fingerprint : Z → W → result error string) (ErrorText : error → string).

Definition observedLatencySeconds (rpt : Report) : float64 := default fzero (rep_Latency rpt !! of_int 95).
Definition classify_report (rpt : Report) (spec : Spec) : Classification :=
  if ShortOfVolume rpt || EngineImpaired rpt then ClassificationEngineSaturated
  else match EvaluateCriteria rpt (SplitCriterion (sp_Criterion spec)) with
       | [] => ClassificationClean
       | _ => ClassificationTargetSaturated
       end.
Definition runClassifiedStep (executionID : Z) (requestedQPS : float64) (spec : Spec)
    (latencyHintSec : float64) : M W error (Step * float64) :=
  rpt ← run_step executionID requestedQPS (sp_HoldSeconds spec) latencyHintSec;
  mret (mkStep requestedQPS (ld_Throughput (rep_Achieved rpt)) (classify_report rpt spec),
        observedLatencySeconds rpt).

(** [fail]: the job is marked failed, best effort, and the error returned. *)
Definition fail {A} (jobID : Z) (runErr : error) : M W error A :=
  _ ← ignore (on_calibrations (MarkFailed jobID (ErrorText runErr)));
  throw runErr.
Definition or_fail {A} (jobID : Z) (m : M W error A) : M W error A :=
  r ← attempt m;
  match r with Ok a => mret a | Err e => fail jobID e end.

Definition environmentImpaired (jobID : Z) (done : Job) : M W error bool :=
  match job_Result done with
  | Some (mkResult SaturatedByEngine _) =>
      steps ← read_store (λ s, StepsFor jobID (st_calibrations s));
      mret (negb (existsb (λ s, bool_decide (stp_Classification s = ClassificationClean)) steps))
  | _ => mret false
  end.

(** [done.Result] is dereferenced: a nil result panics. *)
Definition writeProfile (job : CalibrationJob) (done : Job) : M W error unit :=
  exe ← try_store (GetExecution (cj_ExecutionID job));
  entries ← read_store (LoadProfileFor (cj_ExecutionID job));
  match entries with
  | [e] =>
      fp ← ask (fingerprint (ScenarioID e));
      match job_Result done with
      | Some r =>
          upd_capacity (UpsertCapacityProfile
            (mkCapacityProfile (mkKey (ScenarioID e) (exe_Engine exe) (exe_CPU exe) (exe_Memory exe))
               (rs_PerPodQPS r) (rs_SaturatedBy r) fp now (cj_ID job)))
      | None => throw (ErrInjected "panic")
      end
  | _ => throw ErrScenarioNotConfigured
  end.

(** One step, measured twice when the first reading blames the engine: only
    the second is kept, sized from the latency the first one saw. *)
Definition measure_step (jobID executionID : Z) (spec : Spec) (requestedQPS : float64) : M W error Step :=
  first ← or_fail jobID (runClassifiedStep executionID requestedQPS spec fzero);
  if bool_decide (stp_Classification first.1 = ClassificationEngineSaturated) then
    again ← or_fail jobID (runClassifiedStep executionID requestedQPS spec first.2);
    mret again.1
  else mret first.1.

Definition AdvanceOne : M W error bool :=
  claimed ← on_calibrations (λ t, let '(j, t') := ClaimNextStep now leaseFor t in (Ok j, t'));
  match claimed with
  | None => mret false
  | Some persisted =>
      spec ← or_fail (cj_ID persisted) (SpecFor (cj_ExecutionID persisted));
      let '(job, requestedQPS) := startOrResume spec persisted in
      step ← measure_step (cj_ID persisted) (cj_ExecutionID persisted) spec requestedQPS;
      let '(updatedJob, action) := Next job step in
      _ ← on_calibrations (RecordStep (cj_ID persisted) step (applyDomainJob persisted updatedJob action));
      if bool_decide (job_Phase updatedJob ≠ PhaseDone) then mret true
      else
        impaired ← environmentImpaired (cj_ID persisted) updatedJob;
        if (impaired : bool) then fail (cj_ID persisted) ErrEnvironmentImpaired
        else
          _ ← writeProfile persisted updatedJob;
          mret true
  end.

(** ** Profiles *)
Definition ProfileFor (key : Key) (w : W) : result error CapacityProfile :=
  GetCapacityProfile key (st_capacity (w_store w)).
Definition FanOutFor (key : Key) (targetQPS : float64) (w : W) : result error FanOutResult :=
  match GetCapacityProfile key (st_capacity (w_store w)) with
  | Err ErrNotFound => Ok (FanOut None targetQPS "")
  | Err e => Err e
  | Ok profile =>
      fp ← fingerprint (k_ScenarioID key) w;
      Ok (FanOut (Some profile) targetQPS fp)
  end.
End calibrationapp.

(** ** The step runner ([step.go]) *)
Section step.
Context {C H : Type}.
Let W : Type := World C H.

Record LifecycleOps := mkLifecycleOps {
  lc_Deploy : Z → M W error unit; lc_Trigger : Z → M W error unit; lc_Stop : Z → M W error unit
}.
Context (ops : LifecycleOps) (get_report : Z → W → result error Report)
        (clock : W → time) (sleep : duration → W → W).

(** The value a loop was left with; the fuel of the loops below is never used up. *)
Definition loop_result {A} (r : W + result error A * W) : result error A * W :=
  match r with inr out => out | inl w => (Err (ErrInjected "fuel"), w) end.

Definition await_poll (runID : Z) (deadline : time) (w : W) : W + result error Report * W :=
  match get_report runID w with
  | Ok rpt => inr (Ok rpt, w)
  | Err ErrNotFound =>
      if After (clock w) deadline then inr (Err ErrNotFound, w)
      else inl (sleep stepReportPollInterval w)
  | Err e => inr (Err e, w)
  end.
Definition awaitReport (runID : Z) : M W error Report := λ w,
  loop_result (loop_upto (await_poll runID (time_Add (clock w) stepReportTimeout)) 152 w).

Definition trigger_poll (executionID : Z) (deadline : time) (w : W) : W + result error unit * W :=
  let '(r, w1) := lc_Trigger ops executionID w in
  match r with
  | Ok _ => inr (Ok tt, w1)
  | Err e =>
      if negb (bool_decide (e = ErrNotDeployed)) && negb (bool_decide (e = ErrEnginesNotReady))
      then inr (Err e, w1)
      else if After (clock w1) deadline then inr (Err e, w1)
      else inl (sleep triggerReadyPollInterval w1)
  end.
Definition triggerWhenReady (executionID : Z) : M W error unit := λ w,
  loop_result (loop_upto (trigger_poll executionID (time_Add (clock w) triggerReadyTimeout)) 62 w).

Definition stepConcurrency (requestedQPS latencyHintSec : float64) : Z :=
  users_for requestedQPS latencyHintSec.
Definition step_entry (base : Entry) (requestedQPS : float64) (holdSeconds : Z) (latencyHintSec : float64) : Entry :=
  mkEntry (Name base) (ScenarioID base) (stepConcurrency requestedQPS latencyHintSec)
    stepRampupSeconds 1 (to_int (fceil requestedQPS)) holdSeconds false "" 0.

Definition RunStep (executionID : Z) (requestedQPS : float64) (holdSeconds : Z) (latencyHintSec : float64) :
    M W error Report :=
  if fle requestedQPS fzero then throw ErrRequestedQPSInvalid
  else
    entries ← read_store (LoadProfileFor executionID);
    match entries with
    | [base] =>
        let step := step_entry base requestedQPS holdSeconds latencyHintSec in
        _ ← lift (Entry_Validate step);
        _ ← on_store (StoreLoadProfile executionID false [step]);
        _ ← lc_Deploy ops executionID;
        _ ← triggerWhenReady executionID;
        run ← read_store (λ s, CurrentRun executionID (st_runs s));
        match run with
        | None => throw ErrStepRunNotStarted
        | Some runID =>
            rpt ← attempt (awaitReport runID);
            stopped ← attempt (lc_Stop ops executionID);
            _ ← match stopped with
                | Ok _ => mret tt
                | Err ErrNotRunning => mret tt
                | Err e => throw e
                end;
            _ ← ignore (λ w, (Ok tt, set_store (TouchActivity (clock w) executionID (w_store w)) w));
            match rpt with Ok rpt => mret rpt | Err e => throw e end
        end
    | _ => throw ErrScenarioNotConfigured
    end.
End step.

(** ** The persisted job and the search *)

(** The decisions the recorded steps lead to. *)
Definition replay (spec : Spec) (steps : list Step) : Job * Action :=
  fold_left (λ ja st, Next ja.1 st) steps (Start spec).
Lemma replay_snoc spec steps st : replay spec (steps ++ [st]) = Next (replay spec steps).1 st.
Proof. unfold replay. by rewrite fold_left_app. Qed.

(** The row says what the search decided. *)
Definition same_decision (cj : CalibrationJob) (ja : Job * Action) : Prop :=
  cj_Phase cj = job_Phase ja.1 ∧ cj_StepCount cj = job_StepCount ja.1 ∧
  cj_BracketLoRequested cj = job_BracketLoRequested ja.1 ∧
  cj_BracketLoAchieved cj = job_BracketLoAchieved ja.1 ∧
  cj_BracketHiRequested cj = job_BracketHiRequested ja.1 ∧
  cj_Result cj = job_Result ja.1 ∧ cj_NextRequestedQPS cj = act_NextRequestedQPS ja.2.

(** A row stands for the search over its recorded steps. *)
Inductive tracks (spec : Spec) (steps : list Step) (cj : CalibrationJob) : Prop :=
| tracks_pending : steps = [] → cj_Phase cj = PhasePending → tracks spec steps cj
| tracks_stepped : cj_Phase cj ≠ PhasePending → same_decision cj (replay spec steps) →
    stepped spec steps (replay spec steps) → tracks spec steps cj.

Lemma searching_start spec : budget_ok spec → searching spec [] (Start spec).1.
Proof.
  intros [Hb _]. split; cbn; try done. left. split; [done|constructor].
Qed.
Lemma startOrResume_tracks spec steps cj :
  budget_ok spec → tracks spec steps cj → terminal (cj_Phase cj) = false →
  startOrResume spec cj = ((replay spec steps).1, act_NextRequestedQPS (replay spec steps).2) ∧
  searching spec steps (replay spec steps).1.
Proof.
  intros Hb [-> Hp|Hp Hs Hst] Hterm.
  - unfold startOrResume. rewrite decide_True by done. split; [done|]. by apply searching_start.
  - unfold startOrResume. rewrite decide_False by done.
    destruct (replay spec steps) as [job act]. destruct Hst as [[Hd Hsr]|(Hd & Hph & _)].
    + destruct Hs as (H1 & H2 & H3 & H4 & H5 & H6 & H7). cbn [fst snd] in *. split; [|done].
      rewrite H1, H2, H3, H4, H5, H6, H7. pose proof (srch_spec _ _ _ Hsr) as <-. by destruct job.
    + destruct Hs as (H1 & _). cbn in H1. rewrite H1, Hph in Hterm. done.
Qed.

Lemma tracks_next spec steps cj step cj' :
  budget_ok spec → searching spec steps (replay spec steps).1 →
  cj' = applyDomainJob cj (Next (replay spec steps).1 step).1 (Next (replay spec steps).1 step).2 →
  tracks spec (steps ++ [step]) cj' ∧ stepped spec (steps ++ [step]) (Next (replay spec steps).1 step).
Proof.
  intros Hb Hs ->. pose proof (Next_stepped spec Hb steps (replay spec steps).1 step Hs) as Hn.
  split; [|done]. apply tracks_stepped.
  - cbn. destruct (Next _ _) as [j a]; cbn in *. destruct Hn as [[_ Hsr]|(_ & -> & _)]; [|done].
    destruct (srch_phase _ _ _ Hsr) as [[-> _]|[-> _]]; done.
  - rewrite replay_snoc. by split_and!.
  - by rewrite replay_snoc.
Qed.

(** ** One advance *)

(** What a step runner may not touch: the calibration ledger and the capacity
    tables.  [StepRunner] drives the ordinary lifecycle, which has no access to
    either. *)
Section advance.
Context {C H : Type}.
Let W : Type := World C H.
Definition same_ledger (w w' : W) : Prop :=
  st_calibrations (w_store w') = st_calibrations (w_store w) ∧
  st_capacity (w_store w') = st_capacity (w_store w).
#[global] Instance same_ledger_po : PreOrder same_ledger.
Proof. split; [by split|]. intros ??? [] []. split; congruence. Qed.
Class RunnerLaws (run_step : Z → float64 → Z → float64 → M W error Report) : Prop :=
  runner_ledger : ∀ e q h l, Keeps same_ledger (run_step e q h l).

Context (now : time) (run_step : Z → float64 → Z → float64 → M W error Report)
        (fingerprint : Z → W → result error string) (ErrorText : error → string)
        `{!RunnerLaws run_step}.
#[local] Existing Instance runner_ledger.

Abbreviation jobs w := (calibrationJobs (st_calibrations (w_store w))).
Abbreviation steps_of id w := (StepsFor id (st_calibrations (w_store w))).
Abbreviation capacity w := (st_capacity (w_store w)).

(** Every job but one is left alone. *)
Definition only_job (id : Z) (w w' : W) : Prop :=
  ∀ other, other ≠ id → jobs w' !! other = jobs w !! other ∧ steps_of other w' = steps_of other w.

Lemma fail_spec {A} id e (w : W) cj :
  jobs w !! id = Some cj →
  ∃ w', fail ErrorText id e w = (Err e : result error A, w') ∧
    (∃ cj', jobs w' !! id = Some cj' ∧ cj_Phase cj' = PhaseFailed ∧ cj_Result cj' = cj_Result cj) ∧
    steps_of id w' = steps_of id w ∧ capacity w' = capacity w ∧ only_job id w w'.
Proof.
  intros Hj. unfold fail, mbind, M_bind, ignore, on_calibrations, on_store, MarkFailed. cbn. rewrite Hj. cbn.
  eexists. split; [reflexivity|]. cbn. split_and!; try done.
  - rewrite lookup_insert_eq. by eexists.
  - intros o Ho. cbn. by rewrite lookup_insert_ne.
Qed.

(** Measuring a step either yields a step at the rate asked for, or marks the
    job failed. *)
Lemma measure_spec id e spec q (w : W) cj r w' :
  jobs w !! id = Some cj →
  measure_step run_step ErrorText id e spec q w = (r, w') →
  (∃ step, r = Ok step ∧ stp_RequestedQPS step = q ∧ same_ledger w w') ∨
  (∃ err, r = Err err ∧ (∃ cj', jobs w' !! id = Some cj' ∧ cj_Phase cj' = PhaseFailed) ∧
     steps_of id w' = steps_of id w ∧ capacity w' = capacity w ∧ only_job id w w').
Proof using RunnerLaws0.
  intros Hj. assert (∀ l (w0 : W) r0 w1, jobs w0 !! id = Some cj → same_ledger w w0 →
    or_fail ErrorText id (runClassifiedStep run_step e q spec l) w0 = (r0, w1) →
    (∃ sl, r0 = Ok sl ∧ stp_RequestedQPS sl.1 = q ∧ same_ledger w w1 ∧ jobs w1 !! id = Some cj) ∨
    (∃ err, r0 = Err err ∧ (∃ cj', jobs w1 !! id = Some cj' ∧ cj_Phase cj' = PhaseFailed) ∧
       steps_of id w1 = steps_of id w ∧ capacity w1 = capacity w ∧ only_job id w w1)) as Hone.
  { intros l w0 r0 w1 Hj0 Hs0. unfold or_fail, runClassifiedStep, attempt, mbind, M_bind.
    pose proof (runner_ledger e q (sp_HoldSeconds spec) l w0) as Hk.
    destruct (run_step e q (sp_HoldSeconds spec) l w0) as [[rpt|err] w2] eqn:E; cbn in Hk |- *.
    - intros [= <- <-]. left. eexists. split; [reflexivity|]. cbn. split; [done|].
      assert (same_ledger w w2) as Hs2 by (by etrans). split; [done|]. destruct Hs2 as [-> _]. done.
    - destruct Hk as [Hk1 Hk2]. destruct Hs0 as [Hs1 Hs2].
      assert (jobs w2 !! id = Some cj) as Hj2 by (by rewrite Hk1).
      destruct (fail_spec (A := Step * float64) id err w2 cj Hj2) as (w3 & Hf & (cj' & ? & ? & _) & Hst & Hc & Ho).
      intros Hres. assert (fail (A := Step * float64) ErrorText id err w2 = (r0, w1)) as Hres' by exact Hres.
      rewrite Hf in Hres'. injection Hres' as <- <-.
      right. exists err. split_and!; try done; [by exists cj'|congruence|congruence|].
      intros o Hne. destruct (Ho o Hne) as [-> ->]. by rewrite Hk1, Hs1. }
  unfold measure_step. unfold mbind at 1, M_bind at 1.
  destruct (or_fail ErrorText id (runClassifiedStep run_step e q spec fzero) w) as [r0 w1] eqn:E0.
  destruct (Hone _ _ _ _ Hj ltac:(reflexivity) E0) as [([st lat] & -> & Hq & Hs & Hj1)|(err & -> & Hrest)].
  - cbn [fst snd] in *. case_bool_decide.
    + unfold mbind at 1, M_bind at 1.
      destruct (or_fail ErrorText id (runClassifiedStep run_step e q spec lat) w1) as [r1 w2] eqn:E1.
      destruct (Hone _ _ _ _ Hj1 Hs E1) as [([st' lat'] & -> & Hq' & Hs' & _)|(err & -> & Hrest)].
      * intros [= <- <-]. left. by exists st'.
      * intros [= <- <-]. right. by exists err.
    + intros [= <- <-]. left. by exists st.
  - intros [= <- <-]. right. by exists err.
Qed.

(** What one advance of job [cj], with steps [steps] behind it, can come to. *)
Inductive advanced (spec : Spec) (steps : list Step) (cj : CalibrationJob) (w w' : W) :
    result error bool → Prop :=
| adv_failed e cj' : jobs w' !! cj_ID cj = Some cj' → cj_Phase cj' = PhaseFailed →
    steps_of (cj_ID cj) w' = steps → capacity w' = capacity w → advanced spec steps cj w w' (Err e)
| adv_open step cj' : steps_of (cj_ID cj) w' = steps ++ [step] →
    stp_RequestedQPS step = act_NextRequestedQPS (replay spec steps).2 →
    jobs w' !! cj_ID cj = Some cj' → tracks spec (steps ++ [step]) cj' →
    terminal (cj_Phase cj') = false → capacity w' = capacity w → advanced spec steps cj w w' (Ok true)
| adv_impaired step cj' : steps_of (cj_ID cj) w' = steps ++ [step] →
    stp_RequestedQPS step = act_NextRequestedQPS (replay spec steps).2 →
    Forall (λ s, stp_Classification s ≠ ClassificationClean) (steps ++ [step]) →
    jobs w' !! cj_ID cj = Some cj' → cj_Phase cj' = PhaseFailed → capacity w' = capacity w →
    advanced spec steps cj w w' (Err ErrEnvironmentImpaired)
| adv_profile step cj' r key fp : steps_of (cj_ID cj) w' = steps ++ [step] →
    stp_RequestedQPS step = act_NextRequestedQPS (replay spec steps).2 →
    jobs w' !! cj_ID cj = Some cj' → tracks spec (steps ++ [step]) cj' → cj_Phase cj' = PhaseDone →
    cj_Result cj' = Some r → explained (steps ++ [step]) (Some r) →
    capacity w' = UpsertCapacityProfile
      (mkCapacityProfile key (rs_PerPodQPS r) (rs_SaturatedBy r) fp now (cj_ID cj)) (capacity w) →
    advanced spec steps cj w w' (Ok true)
| adv_lost step cj' r e : steps_of (cj_ID cj) w' = steps ++ [step] →
    stp_RequestedQPS step = act_NextRequestedQPS (replay spec steps).2 →
    jobs w' !! cj_ID cj = Some cj' → tracks spec (steps ++ [step]) cj' → cj_Phase cj' = PhaseDone →
    cj_Result cj' = Some r → explained (steps ++ [step]) (Some r) →
    capacity w' = capacity w → advanced spec steps cj w w' (Err e).

Lemma SpecFor_read e spec (w w1 : W) :
  SpecFor e w = (Ok spec, w) → st_catalog (w_store w1) = st_catalog (w_store w) →
  capacity w1 = capacity w → SpecFor e w1 = (Ok spec, w1).
Proof.
  unfold SpecFor, mbind, M_bind, try_store, ask, read_store, GetExecution, CriteriaFor.
  intros Hs -> ->. destruct (executions _ !! e); [|done]. destruct (CalibrationBoundsFor _ _); [|done].
  by injection Hs as <-.
Qed.

Lemma writeProfile_spec cj done (w : W) r w' :
  job_Result done ≠ None → writeProfile now fingerprint cj done w = (r, w') →
  st_calibrations (w_store w') = st_calibrations (w_store w) ∧
  ((∃ e, r = Err e ∧ w' = w) ∨
   (r = Ok tt ∧ ∃ res key fp, job_Result done = Some res ∧
      capacity w' = UpsertCapacityProfile
        (mkCapacityProfile key (rs_PerPodQPS res) (rs_SaturatedBy res) fp now (cj_ID cj)) (capacity w))).
Proof.
  intros Hres. unfold writeProfile, mbind, M_bind, try_store, ask, read_store.
  destruct (GetExecution _ _) as [exe|e0]; [|intros [= <- <-]; split; [done|left; by eexists]].
  destruct (LoadProfileFor _ _) as [|e1 [|]]; [intros [= <- <-]; split; [done|left; by eexists]| |intros [= <- <-]; split; [done|left; by eexists]].
  destruct (fingerprint _ _) as [fp|e0]; [|intros [= <- <-]; split; [done|left; by eexists]].
  destruct (job_Result done) as [res|]; [|done]. intros [= <- <-]. split; [done|]. right. split; [done|].
  by eexists res, _, fp.
Qed.

(** The recorded step, and where it leads. *)
Lemma record_spec id step cj upd (w : W) :
  jobs w !! id = Some cj →
  ∃ w', on_calibrations (RecordStep id step upd) w = (Ok tt, w') ∧
    jobs w' !! id = Some (cj_with_ID upd id) ∧ steps_of id w' = steps_of id w ++ [step] ∧
    capacity w' = capacity w ∧ only_job id w w'.
Proof.
  intros Hj. unfold on_calibrations, on_store, RecordStep. rewrite Hj. eexists. split; [reflexivity|].
  cbn. rewrite lookup_insert_eq. unfold StepsFor. cbn. rewrite lookup_insert_eq. cbn. split_and!; try done.
  intros o Ho. unfold StepsFor. cbn. by rewrite !lookup_insert_ne.
Qed.

Lemma only_job_trans id (w1 w2 w3 : W) : only_job id w1 w2 → only_job id w2 w3 → only_job id w1 w3.
Proof. intros H1 H2 o Ho. destruct (H1 o Ho) as [<- <-]. by apply H2. Qed.
Lemma same_ledger_only_job id (w w' : W) : same_ledger w w' → only_job id w w'.
Proof. intros [H1 _] o Ho. by rewrite H1. Qed.

(** What follows the recording of a step. *)
Lemma finish_spec spec steps cj step job act (w1 w2 w' : W) r :
  stepped spec (steps ++ [step]) (job, act) →
  jobs w2 !! cj_ID cj = Some (applyDomainJob cj job act) →
  tracks spec (steps ++ [step]) (applyDomainJob cj job act) →
  steps_of (cj_ID cj) w2 = steps ++ [step] →
  stp_RequestedQPS step = act_NextRequestedQPS (replay spec steps).2 → capacity w2 = capacity w1 →
  (if bool_decide (job_Phase job ≠ PhaseDone) then mret true
   else
     impaired ← environmentImpaired (cj_ID cj) job;
     if (impaired : bool) then fail ErrorText (cj_ID cj) ErrEnvironmentImpaired
     else _ ← writeProfile now fingerprint cj job; mret true) w2 = (r, w') →
  advanced spec steps cj w1 w' r ∧ only_job (cj_ID cj) w2 w'.
Proof.
  intros Hst Hj Htr Hsteps Hq Hc.
  destruct (bool_decide_reflect (job_Phase job ≠ PhaseDone)) as [Hp|Hp].
  { intros [= <- <-]. split; [|done]. eapply adv_open; eauto. cbn.
    destruct Hst as [[_ Hsr]|(_ & ? & _)]; [|done]. destruct (srch_phase _ _ _ Hsr) as [[-> _]|[-> _]]; done. }
  apply dec_stable in Hp. destruct Hst as [[_ Hsr]|(_ & _ & Hres & Hex)].
  { destruct (srch_phase _ _ _ Hsr) as [[? _]|[? _]]; congruence. }
  assert (∀ r0 w0, (_ ← writeProfile now fingerprint cj job; mret true) w2 = (r0, w0) →
    advanced spec steps cj w1 w0 r0 ∧ only_job (cj_ID cj) w2 w0) as Hwrite.
  { intros r0 w0. unfold mbind at 1, M_bind at 1.
    destruct (writeProfile now fingerprint cj job w2) as [rw w3] eqn:Ew.
    apply writeProfile_spec in Ew as [Hcal [(e & -> & ->)|(-> & res & key & fp & Hr & Hcap)]]; [| |done].
    - intros [= <- <-]. split; [|done]. destruct (job_Result job) as [res|] eqn:Hr; [|done].
      by eapply adv_lost.
    - intros [= <- <-]. rewrite Hr in Hex. split; [|intros o Ho; by rewrite Hcal].
      eapply (adv_profile _ _ _ _ _ step (applyDomainJob cj job act) res key fp); rewrite ?Hcal; try done.
      by rewrite Hcap, Hc. }
  unfold mbind at 1, M_bind at 1.
  assert (environmentImpaired (cj_ID cj) job w2 =
    (Ok (match job_Result job with
         | Some (mkResult SaturatedByEngine _) =>
             negb (existsb (λ s, bool_decide (stp_Classification s = ClassificationClean)) (steps ++ [step]))
         | _ => false
         end), w2)) as ->.
  { unfold environmentImpaired. destruct (job_Result job) as [[[] q]|]; try done.
    unfold mbind, M_bind, read_store. by rewrite Hsteps. }
  set (imp := match job_Result job with Some _ => _ | None => _ end).
  destruct imp eqn:Himp; [|exact (Hwrite r w')].
  destruct (fail_spec (A := bool) (cj_ID cj) ErrEnvironmentImpaired w2 _ Hj)
    as (w3 & Hf & (cj' & Hj' & Hp' & _) & Hs3 & Hc3 & Ho3).
  rewrite Hf. intros [= <- <-]. split; [|done]. eapply adv_impaired; try done; [congruence| |congruence].
  unfold imp in Himp. destruct (job_Result job) as [[[] q]|]; try done.
  apply negb_true_iff in Himp. apply List.Forall_forall. intros s Hs Hcl.
  assert (existsb (λ s, bool_decide (stp_Classification s = ClassificationClean)) (steps ++ [step]) = true) as Hbad.
  { apply existsb_exists. exists s. split; [done|]. by apply bool_decide_eq_true. }
  congruence.
Qed.

Lemma advance_spec spec cj t1 (w w' : W) r :
  (∀ k j, jobs w !! k = Some j → cj_ID j = k) →
  ClaimNextStep now leaseFor (st_calibrations (w_store w)) = (Some cj, t1) →
  SpecFor (cj_ExecutionID cj) w = (Ok spec, w) → budget_ok spec →
  tracks spec (steps_of (cj_ID cj) w) cj →
  AdvanceOne now run_step fingerprint ErrorText w = (r, w') →
  advanced spec (steps_of (cj_ID cj) w) cj w w' r ∧ only_job (cj_ID cj) w w'.
Proof using RunnerLaws0.
  intros Hkeys Hclaim Hspec Hb Htr.
  destruct (ClaimNextStep_spec _ _ _ _ _ Hclaim) as (Hin & [Hterm _] & _ & _ & Hjobs & Hstepsmap).
  apply list_elem_of_fmap in Hin as ([k cj0] & -> & Hin%elem_of_map_to_list). cbn [snd] in *.
  pose proof (Hkeys k cj0 Hin) as Hid. subst k.
  set (w1 := set_store (set_calibrations t1 (w_store w)) w).
  assert (jobs w1 !! cj_ID cj0 = Some cj0) as Hj1 by (cbn; by rewrite Hjobs).
  assert (steps_of (cj_ID cj0) w1 = steps_of (cj_ID cj0) w) as Hs1 by (unfold StepsFor; cbn; by rewrite Hstepsmap).
  assert (only_job (cj_ID cj0) w w1) as Ho1.
  { intros o _. unfold StepsFor. cbn. by rewrite Hjobs, Hstepsmap. }
  destruct (startOrResume_tracks spec _ cj0 Hb Htr Hterm) as [Hstart Hsr].
  unfold AdvanceOne. unfold mbind at 1, M_bind at 1. unfold on_calibrations at 1, on_store at 1.
  rewrite Hclaim. fold w1. unfold mbind at 1, M_bind at 1. unfold or_fail at 1. unfold mbind at 1, M_bind at 1.
  unfold attempt at 1. rewrite (SpecFor_read _ _ _ w1 Hspec) by done. unfold mret at 1, M_ret at 1.
  rewrite Hstart. unfold mbind at 1, M_bind at 1.
  destruct (measure_step _ _ _ _ _ _ w1) as [rm w2] eqn:Em.
  destruct (measure_spec _ _ _ _ _ _ _ _ Hj1 Em) as [(step & -> & Hq & [Hcal Hcap])|(e & -> & (cj' & Hj' & Hp') & Hst & Hc & Ho)].
  2:{ intros [= <- <-]. split; [|by eapply only_job_trans]. eapply adv_failed; eauto; congruence. }
  destruct (Next _ step) as [job act] eqn:EN.
  destruct (tracks_next spec _ cj0 step (applyDomainJob cj0 job act) Hb Hsr) as [Htr' Hst']; [by rewrite EN|].
  rewrite EN in Hst'. assert (jobs w2 !! cj_ID cj0 = Some cj0) as Hj2 by (by rewrite Hcal).
  destruct (record_spec (cj_ID cj0) step cj0 (applyDomainJob cj0 job act) w2 Hj2) as (w3 & Er & Hj3 & Hs3 & Hc3 & Ho3).
  unfold mbind at 1, M_bind at 1. rewrite Er. intros Hfin.
  eapply finish_spec in Hfin as [Hadv Hofin]; [|exact Hst'|exact Hj3|exact Htr'|by rewrite Hs3, Hcal, Hs1|done|].
  - split; [exact Hadv|]. eapply only_job_trans; [exact Ho1|]. eapply only_job_trans; [|exact Hofin].
    eapply only_job_trans; [|exact Ho3]. by apply same_ledger_only_job.
  - by rewrite Hc3, Hcap.
Qed.


(** A finished search whose profile could not be written loses it: when an
    advance returns an error and leaves the job done, no capacity profile was
    written for it, and no later claim ever returns that job, so none will be. *)
Theorem finished_search_loses_profile spec cj t1 (w w' : W) e cj' :
  (∀ k j, jobs w !! k = Some j → cj_ID j = k) →
  ClaimNextStep now leaseFor (st_calibrations (w_store w)) = (Some cj, t1) →
  SpecFor (cj_ExecutionID cj) w = (Ok spec, w) → budget_ok spec →
  tracks spec (steps_of (cj_ID cj) w) cj →
  AdvanceOne now run_step fingerprint ErrorText w = (Err e, w') →
  jobs w' !! cj_ID cj = Some cj' → cj_Phase cj' = PhaseDone →
  capacity w' = capacity w ∧
  ∀ now' lease, (ClaimNextStep now' lease (st_calibrations (w_store w'))).1 ≠ Some cj'.
Proof using RunnerLaws0.
  intros Hk Hc Hs Hb Ht Ha Hj Hp.
  destruct (advance_spec spec cj t1 w w' (Err e) Hk Hc Hs Hb Ht Ha) as [Hadv _]. split.
  - by inversion Hadv; subst.
  - intros now' lease. destruct (ClaimNextStep now' lease _) as [[j|] t'] eqn:E; [|done]. cbn. intros [= ->].
    apply ClaimNextStep_spec in E as (_ & [Hterm _] & _). by rewrite Hp in Hterm.
Qed.
End advance.

(** ** The polling loops end *)
Section polling.
Context {C H : Type}.
Let W : Type := World C H.
Context (ops : LifecycleOps (C := C) (H := H)) (get_report : Z → W → result error Report)
        (clock : W → time) (sleep : duration → W → W).
(** Sleeping takes at least as long as asked, and triggering takes no negative time. *)
Context (sleep_advances : ∀ d w, clock w + d <= clock (sleep d w))
        (trigger_forward : ∀ e w, clock w <= clock (lc_Trigger ops e w).2).

(** The polls left before the deadline. *)
Definition polls_left (interval : duration) (deadline now : time) : Z :=
  Z.max 0 ((deadline - now) / interval + 1).
Lemma polls_left_falls interval deadline now now' :
  0 < interval → now <= deadline → now + interval <= now' →
  polls_left interval deadline now' < polls_left interval deadline now.
Proof.
  intros Hi Hd Hn. unfold polls_left.
  assert (0 <= (deadline - now) / interval) by (apply Z.div_pos; lia).
  assert ((deadline - now') / interval <= (deadline - now) / interval - 1); [|lia].
  replace ((deadline - now) / interval - 1) with ((deadline - now - interval) / interval).
  - apply Z.div_le_mono; lia.
  - replace (deadline - now - interval) with (deadline - now + (-1) * interval) by lia.
    rewrite Z.div_add by lia. lia.
Qed.

(** Waiting for a report always ends: with a clock that sleeping moves on,
    the loop leaves by itself with the settled report, with the reader's own
    error, or, once the five minutes are over, with not found. *)
Theorem await_report_ends runID (w : W) :
  ∃ r w', awaitReport get_report clock sleep runID w = (r, w') ∧
    match r with
    | Ok rpt => get_report runID w' = Ok rpt
    | Err ErrNotFound => get_report runID w' = Err ErrNotFound ∧ clock w + stepReportTimeout < clock w'
    | Err e => get_report runID w' = Err e
    end.
Proof using sleep_advances.
  unfold awaitReport, time_Add. set (deadline := clock w + stepReportTimeout).
  set (Q := λ out : result error Report * W, match out.1 with
    | Ok rpt => get_report runID out.2 = Ok rpt
    | Err ErrNotFound => get_report runID out.2 = Err ErrNotFound ∧ deadline < clock out.2
    | Err e => get_report runID out.2 = Err e end).
  destruct (loop_upto_total (await_poll get_report clock sleep runID deadline) (λ _, True) Q
    (λ w, polls_left stepReportPollInterval deadline (clock w))) with (p := 152%positive) (s := w) as (out & Ho & HQ).
  - intros w0 _. unfold await_poll. destruct (get_report runID w0) as [rpt|e] eqn:E; [exact E|].
    destruct e; try exact E. unfold After. case_bool_decide as Hd; [by split|].
    split; [done|]. apply polls_left_falls; [done|lia|apply sleep_advances].
  - intros w0 _. unfold polls_left. lia.
  - done.
  - unfold polls_left, deadline. replace (clock w + stepReportTimeout - clock w) with stepReportTimeout by lia. reflexivity.
  - destruct out as [r w']. exists r, w'. rewrite Ho. split; [reflexivity|exact HQ].
Qed.

(** Waiting for the engines of a deploy ends as well: started, refused for a
    reason that waiting does not cure, or two minutes over. *)
Lemma trigger_when_ready_ends e (w : W) :
  ∃ r w', triggerWhenReady ops clock sleep e w = (r, w') ∧
    match r with
    | Ok _ => True
    | Err err => (err ≠ ErrNotDeployed ∧ err ≠ ErrEnginesNotReady) ∨ clock w + triggerReadyTimeout < clock w'
    end.
Proof using sleep_advances trigger_forward.
  unfold triggerWhenReady, time_Add. set (deadline := clock w + triggerReadyTimeout).
  destruct (loop_upto_total (trigger_poll ops clock sleep e deadline) (λ _, True)
    (λ out, match out.1 with
            | Ok _ => True
            | Err err => (err ≠ ErrNotDeployed ∧ err ≠ ErrEnginesNotReady) ∨ deadline < clock out.2 end)
    (λ w, polls_left triggerReadyPollInterval deadline (clock w))) with (p := 62%positive) (s := w) as ([r w'] & Ho & HQ).
  - intros w0 _. unfold trigger_poll. pose proof (trigger_forward e w0) as Hf.
    destruct (lc_Trigger ops e w0) as [[u|err] w1]; cbn in *; [done|].
    destruct (bool_decide_reflect (err = ErrNotDeployed)), (bool_decide_reflect (err = ErrEnginesNotReady));
      cbn; [..|by left]; unfold After; case_bool_decide; [by right| |by right| |by right|];
      (split; [done|]; apply polls_left_falls; [done|lia|]; pose proof (sleep_advances triggerReadyPollInterval w1); lia).
  - intros w0 _. unfold polls_left. lia.
  - done.
  - unfold polls_left, deadline. replace (clock w + triggerReadyTimeout - clock w) with triggerReadyTimeout by lia. reflexivity.
  - exists r, w'. rewrite Ho. done.
Qed.
End polling.

(** ** From creation to the first job *)
Section create.
Context {C H : Type}.
Let W : Type := World C H.

Lemma ValidateCriterion_split raw : ValidateCriterion raw = Ok tt → SplitCriterion raw ≠ [].
Proof. unfold ValidateCriterion. by destruct (SplitCriterion raw). Qed.
Lemma join_nonempty raw : SplitCriterion raw ≠ [] → String.concat ", " (SplitCriterion raw) ≠ "".
Proof.
  intros Hne Heq. apply Hne. rewrite <- SplitCriterion_join, Heq. done.
Qed.
Lemma Spec_Validate_criterion spec c :
  Spec_Validate spec = Ok tt → c ≠ "" →
  Spec_Validate (mkSpec c (sp_CPU spec) (sp_Memory spec) (sp_SeedQPS spec) (sp_MaxQPS spec)
    (sp_MaxSteps spec) (sp_HoldSeconds spec)) = Ok tt.
Proof.
  unfold Spec_Validate. cbn [sp_Criterion sp_CPU sp_Memory sp_SeedQPS sp_MaxQPS sp_MaxSteps sp_HoldSeconds].
  case_bool_decide; [done|]. intros Hv Hc. by rewrite bool_decide_false.
Qed.

(** A successful creation, taken apart. *)
Lemma Create_Ok now name projectID engine spec src scn (w w1 : W) id :
  Calibration_Create now name projectID engine spec src scn w = (Ok id, w1) →
  let spec := WithDefaults spec in
  Spec_Validate spec = Ok tt ∧ SplitCriterion (sp_Criterion spec) ≠ [] ∧
  ∃ exe e, GetExecution id (w_store w1) = Ok exe ∧ exe_Kind exe = KindCalibrateEngine ∧
    exe_CPU exe = sp_CPU spec ∧ exe_Memory exe = sp_Memory spec ∧ exe_Engine exe = engine ∧
    LoadProfileFor id (w_store w1) = [e] ∧ ScenarioID e = scn ∧ Engines e = 1 ∧
    CriteriaFor id (w_store w1) = SplitCriterion (sp_Criterion spec) ∧
    CalibrationBoundsFor id (st_capacity (w_store w1)) =
      Ok (mkCalibrationBounds (sp_SeedQPS spec) (sp_MaxQPS spec) (sp_MaxSteps spec) (sp_HoldSeconds spec)) ∧
    st_calibrations (w_store w1) = st_calibrations (w_store w).
Proof.
  unfold Calibration_Create. case_bool_decide; [done|]. cbv zeta.
  intros ([] & ? & [Hv ->]%lift_Ok & Hr)%bind_Ok. apply bind_Ok in Hr as ([] & ? & [Hcr ->]%lift_Ok & Hr).
  apply bind_Ok in Hr as (bound & wb & Hbound & Hr).
  assert (wb = w ∧ ScenarioID bound = scn ∧ Engines bound = 1) as (-> & Hsc & Heng).
  { unfold boundEntry in Hbound. apply bind_Ok in Hbound as (entries & ? & [= _ <-] & Hb).
    destruct (List.find _ _); [|done]. apply bind_Ok in Hb as ([] & ? & [_ ->]%lift_Ok & Hb).
    by injection Hb as <- <-. }
  apply bind_Ok in Hr as (exe0 & ? & [_ ->]%lift_Ok & Hr).
  apply bind_Ok in Hr as (tenant & wt & Ht & Hr).
  assert (wt = w) as ->.
  { unfold project_tenant, mbind, M_bind, attempt, try_store, ask in Ht.
    destruct (GetProject _ _) as [p|[]]; by injection Ht. }
  apply bind_Ok in Hr as ([] & ? & [_ ->]%lift_Ok & Hr).
  apply bind_Ok in Hr as (eid & w2 & Hc & Hr). unfold create_execution, CreateExecution in Hc. injection Hc as <- <-.
  apply bind_Ok in Hr as ([] & w3 & Hs & Hr). unfold on_store, StoreExecutionConfig in Hs. cbn in Hs.
  rewrite lookup_insert_eq in Hs. injection Hs as <-.
  apply bind_Ok in Hr as ([] & w4 & Hu & Hr). injection Hu as <-. injection Hr as <- <-.
  split; [done|]. split; [by apply ValidateCriterion_split|].
  eexists _, (unnamed bound). unfold GetExecution, LoadProfileFor, CriteriaFor, CalibrationBoundsFor. cbn.
  rewrite !lookup_insert_eq. split_and!; done.
Qed.

(** A calibration that was created can be triggered, and measures what was
    asked for: its specification reads back as it was given, defaults filled
    in, and its criterion as the same expressions; triggering it always opens
    one pending job for the scenario it was created for. *)
Theorem created_calibration_can_be_triggered now now' name projectID engine spec src scn (w w1 : W) id :
  Calibration_Create now name projectID engine spec src scn w = (Ok id, w1) →
  (∃ spec', SpecFor id w1 = (Ok spec', w1) ∧
     SplitCriterion (sp_Criterion spec') = SplitCriterion (sp_Criterion spec) ∧
     WithDefaults spec = mkSpec (sp_Criterion spec) (sp_CPU spec') (sp_Memory spec') (sp_SeedQPS spec')
                           (sp_MaxQPS spec') (sp_MaxSteps spec') (sp_HoldSeconds spec')) ∧
  ∃ j w2 job, Calibration_Trigger now' id w1 = (Ok j, w2) ∧
    GetCalibrationJob j (st_calibrations (w_store w2)) = Ok job ∧
    cj_ExecutionID job = id ∧ cj_ScenarioID job = scn ∧ cj_Phase job = PhasePending ∧
    StepsFor j (st_calibrations (w_store w2)) = StepsFor j (st_calibrations (w_store w)).
Proof.
  intros (Hv & Hne & exe & e & Hg & Hk & Hcpu & Hmem & Heng & Hl & Hsc & _ & Hcr & Hb & Hcal)%Create_Ok.
  assert (SpecFor id w1 = (Ok (mkSpec (String.concat ", " (SplitCriterion (sp_Criterion spec)))
    (sp_CPU spec) (sp_Memory spec) (sp_SeedQPS (WithDefaults spec)) (sp_MaxQPS (WithDefaults spec))
    (sp_MaxSteps (WithDefaults spec)) (sp_HoldSeconds (WithDefaults spec))), w1)) as Hspec.
  { unfold SpecFor, mbind, M_bind, try_store, ask, read_store. rewrite Hg, Hcr, Hb. cbn. by rewrite Hcpu, Hmem. }
  split.
  - eexists. split; [exact Hspec|]. split; [apply SplitCriterion_join|]. by destruct spec.
  - assert (CreateCalibrationJob now' id scn (st_calibrations (w_store w1)) =
      (calibrationJobSeq (st_calibrations (w_store w1)) + 1,
       (CreateCalibrationJob now' id scn (st_calibrations (w_store w1))).2)) as Hjob by done.
    eexists _, _, _. split.
    + unfold Calibration_Trigger, mbind, M_bind, try_store at 1, ask at 1. rewrite Hg.
      rewrite (bool_decide_false (exe_Kind exe ≠ KindCalibrateEngine)) by (intros Hx; by apply Hx).
      rewrite Hspec. unfold lift.
      pose proof (Spec_Validate_criterion (WithDefaults spec) _ Hv (join_nonempty _ Hne)) as Hsv.
      cbn [sp_CPU sp_Memory WithDefaults sp_Criterion] in Hsv |- *. rewrite Hsv.
      unfold read_store. rewrite Hl, Hsc. unfold on_calibrations, on_store. rewrite Hjob. reflexivity.
    + cbn. unfold GetCalibrationJob, StepsFor. cbn. rewrite lookup_insert_eq. split_and!; try done.
      by rewrite Hcal.
Qed.
End create.

(** ** Criteria that are accepted but cannot be read *)

Lemma latency_in_percent_unread rpt v : reading rpt "p95" "%" v = None.
Proof.
  unfold reading. cbn [orb bool_decide]. destruct (rep_Latency rpt !! of_int 95) as [l|] eqn:E.
  - assert (ParseFloat "95" = Some (of_int 95)) as Hp by (vm_compute; reflexivity).
    change (of_bytes (tail (bytes_of "p95"))) with "95" in *. cbn. rewrite Hp, E. reflexivity.
  - assert (ParseFloat "95" = Some (of_int 95)) as Hp by (vm_compute; reflexivity). cbn. rewrite Hp, E. reflexivity.
Qed.

(** Validation accepts criteria the evaluator cannot read: a failure bound
    without a percent sign, a bound on the mean or on the number of users, and a
    latency bound in percent.  Such a criterion counts as failed on every
    report, so a step in which the engine kept pace is always classified as the
    target's saturation, and the search ends at its first step. *)
Theorem accepted_criterion_always_fails :
  Forall (λ c, ValidateCriterion c = Ok tt ∧
    ∀ rpt spec, sp_Criterion spec = c → ShortOfVolume rpt || EngineImpaired rpt = false →
      classify_report rpt spec = ClassificationTargetSaturated)
    ["failures>5"; "avg-rt>500ms"; "concurrency>5"; "p95>5%"].
Proof.
  repeat constructor; intros rpt spec Hc Hs; unfold classify_report; rewrite Hs, Hc.
  - reflexivity.
  - reflexivity.
  - reflexivity.
  - assert (EvaluateCriteria rpt (SplitCriterion "p95>5%") =
      match (match reading rpt "p95" "%" (of_int 5) with
             | None => Some (mkFailed "p95>5%" true)
             | Some (m, t) => if criterionTriggered m ">" t then Some (mkFailed "p95>5%" false) else None
             end) with Some f => [f] | None => [] end) as -> by reflexivity.
    rewrite latency_in_percent_unread. reflexivity.
Qed.

(** ** Witnesses: a calibration of the scenario of [w_world], and a runner that
    returns the same report for every step. *)
Definition c_spec : Spec := mkSpec "failures>5%" "1" "1Gi" fzero fzero 0 0.
Definition c_stored : World unit unit := (StoreConfig 50 w_modes 1 (w_upload w_plain) w_world).2.
Definition c_created : World unit unit :=
  (Calibration_Create 7 "cal" 1 ExecutorJMeter c_spec 1 1 c_stored).2.
Definition c_pending : World unit unit := (Calibration_Trigger 8 2 c_created).2.
Definition c_report : Report :=
  Build (mkMeta 2 1 3 "" "" "" 0 0 (mkLoad 0 fzero 0 [] 0 0) OutcomePassed) [].
Definition c_runner (_ : Z) (_ : float64) (_ : Z) (_ : float64) : M (World unit unit) error Report :=
  mret c_report.
#[global] Instance c_runner_laws : RunnerLaws c_runner.
Proof. intros e q h l w. reflexivity. Qed.
Definition c_text (_ : error) : string := "failed".

Lemma created_calibration_can_be_triggered_witness :
  Calibration_Create 7 "cal" 1 ExecutorJMeter c_spec 1 1 c_stored = (Ok 2, c_created) ∧
  ∃ j w2, Calibration_Trigger 8 2 c_created = (Ok j, w2).
Proof.
  assert (Calibration_Create 7 "cal" 1 ExecutorJMeter c_spec 1 1 c_stored = (Ok 2, c_created)) as E
    by (vm_compute; reflexivity).
  split; [exact E|].
  destruct (created_calibration_can_be_triggered 7 8 _ _ _ _ _ _ _ _ _ E) as [_ (j & w2 & job & Ht & _)].
  by exists j, w2.
Defined.

Definition c_job : CalibrationJob := mkCalibrationJob 1 2 1 PhasePending 0 fzero fzero fzero fzero None "" 8.
Definition c_full : Spec := mkSpec "failures>5%" "1" "1Gi" DefaultSeedQPS DefaultMaxQPS 20 30.
Lemma c_keys k j : calibrationJobs (st_calibrations (w_store c_pending)) !! k = Some j → cj_ID j = k.
Proof.
  assert (calibrationJobs (st_calibrations (w_store c_pending)) = {[1 := c_job]}) as -> by (vm_compute; reflexivity).
  by intros [<- <-]%lookup_singleton_Some.
Qed.
Lemma c_tracks : tracks c_full (StepsFor 1 (st_calibrations (w_store c_pending))) c_job.
Proof. apply tracks_pending; vm_compute; reflexivity. Qed.
Lemma c_budget : budget_ok c_full.
Proof. unfold budget_ok. cbn. unfold int64_max. lia. Qed.


(** With a criterion no report can satisfy the first step ends the search; the
    scenario's fingerprint cannot be read. *)
Definition l_created : World unit unit :=
  (Calibration_Create 7 "cal" 1 ExecutorJMeter (mkSpec "failures>5" "1" "1Gi" fzero fzero 0 0) 1 1 c_stored).2.
Definition l_pending : World unit unit := (Calibration_Trigger 8 2 l_created).2.
Definition l_full : Spec := mkSpec "failures>5" "1" "1Gi" DefaultSeedQPS DefaultMaxQPS 20 30.
Definition l_end : World unit unit :=
  (AdvanceOne 9 c_runner (λ _ _, Err ErrObjectNotFound) c_text l_pending).2.
Lemma finished_search_loses_profile_witness :
  AdvanceOne 9 c_runner (λ _ _, Err ErrObjectNotFound) c_text l_pending = (Err ErrObjectNotFound, l_end) ∧
  st_capacity (w_store l_end) = st_capacity (w_store l_pending).
Proof.
  assert (AdvanceOne 9 c_runner (λ _ _, Err ErrObjectNotFound) c_text l_pending = (Err ErrObjectNotFound, l_end)) as E
    by (vm_compute; reflexivity).
  split; [exact E|].
  assert (∃ cj', calibrationJobs (st_calibrations (w_store l_end)) !! 1 = Some cj' ∧ cj_Phase cj' = PhaseDone)
    as (cj' & Hj & Hp) by (eexists; vm_compute; split; reflexivity).
  destruct (finished_search_loses_profile 9 c_runner (λ _ _, Err ErrObjectNotFound) c_text l_full c_job
    (ClaimNextStep 9 leaseFor (st_calibrations (w_store l_pending))).2 l_pending l_end ErrObjectNotFound cj')
    as [Hcap _]; [..|exact Hcap].
  - assert (calibrationJobs (st_calibrations (w_store l_pending)) = {[1 := c_job]}) as -> by (vm_compute; reflexivity).
    by intros k j [<- <-]%lookup_singleton_Some.
  - vm_compute; reflexivity.
  - vm_compute; reflexivity.
  - exact c_budget.
  - apply tracks_pending; vm_compute; reflexivity.
  - exact E.
  - exact Hj.
  - exact Hp.
Defined.

(** A clock that only sleeping moves; the report settles after ten seconds. *)
Definition tick (d : duration) (w : World unit Z) : World unit Z :=
  mkWorld (w_store w) (w_cluster w) (w_objects w) (w_metrics w + d).
Definition settles (_ : Z) (w : World unit Z) : result error Report :=
  if w_metrics w <? 10 * second then Err ErrNotFound else Ok c_report.
Lemma await_report_ends_witness :
  ∃ r w', awaitReport settles w_metrics tick 3 (mkWorld NewStore tt NewObjectStore 0) = (r, w') ∧
    w_metrics w' = 10 * second.
Proof.
  destruct (await_report_ends settles w_metrics tick (λ d w, Z.le_refl _) 3
    (mkWorld NewStore tt NewObjectStore 0)) as (r & w' & E & _).
  exists r, w'. split; [exact E|]. vm_compute in E. injection E as _ <-. vm_compute. reflexivity.
Defined.
