(* ===== verification/CampaignApp.v ===== *)
(** * Campaign use-cases ([internal/app/campaignapp])

    Creating and editing a readiness event, the set of executions its drain
    sweep stops, and the freeze it puts on every other execution of its
    projects.  [now] is the service's clock. *)
From S2P Require Import Prelude Errors Scenario Execution Campaign Store Cluster.
Import Project.

(** The loop over a campaign's services. *)
Fixpoint verify_services (tenantID : Z) (services : list Service) (s : Store) :
    result error unit :=
  match services with
  | [] => Ok tt
  | svc :: rest =>
      match GetExecution (svc_ExecutionID svc) s with
      | Err e => Err e
      | Ok exe =>
          if negb (exe_ProjectID exe =? svc_ProjectID svc) then Err ErrServiceExecutionMismatch
          else match GetProject (svc_ProjectID svc) s with
               | Err e => Err e
               | Ok proj =>
                   if bool_decide (prj_TenantID proj ≠ Some tenantID)
                   then Err ErrServiceProjectTenantMismatch
                   else verify_services tenantID rest s
               end
      end
  end.

Definition verifyServices (c : Campaign) (s : Store) : result error unit :=
  verify_services (camp_TenantID c) (camp_Services c) s.

Definition with_campaigns {A} (f : CampaignTable → result error A * CampaignTable) :
    M Store error A :=
  λ s, let '(r, t) := f (st_campaigns s) in (r, set_campaigns t s).

Definition Create (c : Campaign) : M Store error Campaign :=
  _ ← lift (Campaign_Validate c);
  _ ← ask (verifyServices c);
  id ← with_campaigns (λ t, let '(id, t') := CreateCampaign c t in (Ok id, t'));
  mret (camp_with_ID c id).

Definition Get (id : Z) (s : Store) : result error Campaign := GetCampaign id (st_campaigns s).
Definition List (tenantID : Z) (s : Store) : list Campaign :=
  ListCampaignsByTenant tenantID (st_campaigns s).
Definition ListAll (s : Store) : list Campaign := ListAllCampaigns (st_campaigns s).
Definition ListByTenants (tenantIDs : list Z) (s : Store) : list Campaign :=
  ListCampaignsByTenants tenantIDs (st_campaigns s).
Definition ActiveCampaigns (now : time) (s : Store) : list Campaign :=
  ListActiveCampaigns now (st_campaigns s).

Definition Abort (now : time) (id : Z) : M Store error unit :=
  with_campaigns (AbortCampaign id now).

Definition Update (now : time) (id : Z) (next : Campaign) : M Store error Campaign :=
  existing ← ask (Get id);
  _ ← guard (negb (Before now (win_Start (camp_Window existing)))) ErrCampaignStarted;
  let next := mkCampaign (camp_ID existing) (camp_Name next) (camp_TenantID existing)
                (camp_Window next) (camp_Services next) (camp_AbortedAt existing) in
  _ ← lift (Campaign_Validate next);
  _ ← ask (verifyServices next);
  _ ← with_campaigns (UpdateCampaign next);
  ask (Get id).

(** The filter of [InScopeExecutions]: deployed, not designated, and of a
    participating project; an execution without a record is passed over. *)
Definition in_scope (c : Campaign) (s : Store) (executionID : Z) : bool :=
  let designated : gset Z := list_to_set (svc_ExecutionID <$> camp_Services c) in
  let projects : gset Z := list_to_set (svc_ProjectID <$> camp_Services c) in
  negb (bool_decide (executionID ∈ designated)) &&
  match GetExecution executionID s with
  | Ok exe => bool_decide (exe_ProjectID exe ∈ projects)
  | Err _ => false
  end.

Definition InScopeExecutions {C H} `{!Scheduler C} (campaignID : Z) :
    M (World C H) error (list Z) :=
  c ← try_store (Get campaignID);
  deployed ← on_cluster (DeployedExecutions "");
  read_store (λ s,
    merge_sort Z.le
      (filter (λ id, in_scope c s id = true) (map_to_list deployed).*1)).

(** The loop of [IsFrozen]; [None] is not blocked, [Some name] is blocked by
    the campaign [name]. *)
Fixpoint frozen_loop (projectID executionID : Z) (blocking : string) (active : list Campaign) :
    option string :=
  match active with
  | [] => if bool_decide (blocking ≠ "") then Some blocking else None
  | c :: rest =>
      match DesignatedExecution c projectID with
      | None => frozen_loop projectID executionID blocking rest
      | Some designated =>
          if designated =? executionID then None
          else frozen_loop projectID executionID
                 (if bool_decide (blocking = "") then camp_Name c else blocking) rest
      end
  end.

Definition IsFrozen (now : time) (projectID executionID : Z) (s : Store) : option string :=
  frozen_loop projectID executionID "" (ListActiveCampaigns now (st_campaigns s)).

(** ** Freeze *)
Lemma frozen_loop_blocked p e b l :
  Forall (λ c, camp_Name c ≠ "") l →
  is_Some (frozen_loop p e b l) ↔
  (b ≠ "" ∨ Exists (λ c, is_Some (DesignatedExecution c p)) l) ∧
  Forall (λ c, DesignatedExecution c p ≠ Some e) l.
Proof.
  intros Hn. revert b. induction Hn as [|c l Hc Hn IH]; intros b; simpl.
  { rewrite Exists_nil. destruct (bool_decide_reflect (b ≠ "")) as [Hb|Hb].
    - split; [|by eexists]. intros _. split; [by left|constructor].
    - split; [by intros []|]. by intros [[?|[]] _]. }
  rewrite Exists_cons, Forall_cons. destruct (DesignatedExecution c p) as [d|] eqn:Hd.
  - destruct (Z.eqb_spec d e) as [->|Hne].
    + split; [by intros []|]. intros [_ [H _]]. by destruct H.
    + rewrite IH. destruct (bool_decide_reflect (b = "")); naive_solver.
  - rewrite IH. naive_solver.
Qed.

Lemma frozen_loop_name p e b l name :
  frozen_loop p e b l = Some name →
  name = b ∧ b ≠ "" ∨
  Exists (λ c, camp_Name c = name ∧ is_Some (DesignatedExecution c p)) l.
Proof.
  revert b. induction l as [|c l IH]; intros b; simpl.
  { destruct (bool_decide_reflect (b ≠ "")); [intros [= ->]; by left|done]. }
  rewrite Exists_cons. destruct (DesignatedExecution c p) as [d|] eqn:Hd.
  - destruct (d =? e); [done|]. intros [[Hb ?]|?]%IH; [|by right; right].
    destruct (bool_decide (b = "")); [|by left]. right. left. by subst.
  - intros [[-> ?]|?]%IH; [by left|by right; right].
Qed.

(** Campaigns in the store are valid: what [Create] and [Update] check. *)
Definition campaigns_ok (t : CampaignTable) : Prop :=
  ∀ id c, campaigns t !! id = Some c →
    camp_ID c = id ∧ id <= campaignSeq t ∧ Campaign_Validate c = Ok tt.

Lemma elem_of_all_campaigns t c :
  c ∈ all_campaigns t ↔ ∃ id, campaigns t !! id = Some c.
Proof.
  unfold all_campaigns. rewrite list_elem_of_fmap. split.
  - intros ([id c'] & -> & ?%elem_of_map_to_list). eauto.
  - intros [id ?]. exists (id, c). split; [done|]. by apply elem_of_map_to_list.
Qed.

Lemma active_named t now c :
  campaigns_ok t → c ∈ ListActiveCampaigns now t → camp_Name c ≠ "".
Proof.
  intros Hok [_ [id Hc]%elem_of_all_campaigns]%list_elem_of_filter.
  destruct (Hok _ _ Hc) as (_ & _ & Hv). by apply Campaign_Validate_ok in Hv as [? _].
Qed.

(** An execution is frozen exactly when some campaign in force includes its
    project and none of the campaigns in force designates it for that project;
    the campaign named as the reason is in force and includes the project. *)
Theorem is_frozen_exact now projectID executionID s :
  campaigns_ok (st_campaigns s) →
  (is_Some (IsFrozen now projectID executionID s) ↔
   (∃ id c, campaigns (st_campaigns s) !! id = Some c ∧ IsActive c now = true ∧
      is_Some (DesignatedExecution c projectID)) ∧
   ∀ id c, campaigns (st_campaigns s) !! id = Some c → IsActive c now = true →
      DesignatedExecution c projectID ≠ Some executionID) ∧
  ∀ name, IsFrozen now projectID executionID s = Some name →
    ∃ id c, campaigns (st_campaigns s) !! id = Some c ∧ IsActive c now = true ∧
      camp_Name c = name ∧ is_Some (DesignatedExecution c projectID).
Proof.
  intros Hok. unfold IsFrozen.
  assert (∀ c, c ∈ ListActiveCampaigns now (st_campaigns s) ↔
    IsActive c now = true ∧ ∃ id, campaigns (st_campaigns s) !! id = Some c) as Hin.
  { intros c. unfold ListActiveCampaigns. by rewrite list_elem_of_filter, elem_of_all_campaigns. }
  split.
  - rewrite frozen_loop_blocked, Exists_exists, Forall_forall
      by (apply Forall_forall; intros c; by apply active_named). split.
    + intros [[|(c & [Ha [id Hc]]%Hin & Hd)] Hno]; [done|]. split; [eauto|].
      intros id' c' Hc' Ha'. apply Hno, Hin. eauto.
    + intros [(id & c & Hc & Ha & Hd) Hno]. split.
      * right. exists c. split; [|done]. apply Hin. eauto.
      * intros c' [Ha' [id' Hc']]%Hin. eauto.
  - intros name [[_ ?]|(c & [Ha [id Hc]]%Hin & Hn & Hd)%Exists_exists]%frozen_loop_name;
      [done|eauto 10].
Qed.

Definition one_campaign : CampaignTable :=
  (CreateCampaign (mkCampaign 0 "launch" 1 (mkWindow 10 20) [mkService 3 7] None)
     (mkCampaignTable 0 ∅)).2.

Lemma campaigns_ok_create c t :
  campaigns_ok t → Campaign_Validate c = Ok tt → campaigns_ok (CreateCampaign c t).2.
Proof.
  intros Hok Hv id c'. simpl. intros [[<- <-]|[_ Hc]]%lookup_insert_Some; [done|].
  destruct (Hok _ _ Hc) as (? & ? & ?). repeat split; try done. simpl. lia.
Qed.

Lemma one_campaign_ok : campaigns_ok one_campaign.
Proof. apply campaigns_ok_create; [intros id c; simpl; by rewrite lookup_empty|reflexivity]. Qed.

Lemma is_frozen_exact_witness :
  let s := set_campaigns one_campaign NewStore in
  is_Some (IsFrozen 15 3 8 s) ∧
  ∃ id c, campaigns (st_campaigns s) !! id = Some c ∧ IsActive c 15 = true ∧
    camp_Name c = "launch" ∧ is_Some (DesignatedExecution c 3).
Proof.
  split; [by eexists|].
  apply (is_frozen_exact 15 3 8 (set_campaigns one_campaign NewStore)); [|reflexivity].
  apply one_campaign_ok.
Defined.

(** ** Creation *)

(** A service names an execution of its own project, in the campaign's tenant. *)
Definition service_verified (tenantID : Z) (s : Store) (svc : Service) : Prop :=
  ∃ exe proj,
    executions (st_catalog s) !! svc_ExecutionID svc = Some exe ∧
    exe_ProjectID exe = svc_ProjectID svc ∧
    projects (st_catalog s) !! svc_ProjectID svc = Some proj ∧
    prj_TenantID proj = Some tenantID.

Lemma verify_services_ok tenantID l s :
  verify_services tenantID l s = Ok tt ↔ Forall (service_verified tenantID s) l.
Proof.
  induction l as [|svc l IH]; simpl; [by split; [constructor|]|].
  rewrite Forall_cons, <- IH. unfold service_verified, GetExecution, GetProject.
  destruct (executions _ !! _) as [exe|]; [|naive_solver].
  destruct (Z.eqb_spec (exe_ProjectID exe) (svc_ProjectID svc)) as [Heq|]; simpl; [|naive_solver].
  destruct (projects _ !! _) as [proj|]; [|naive_solver].
  destruct (bool_decide_reflect (prj_TenantID proj ≠ Some tenantID)) as [|Hn]; [naive_solver|].
  destruct (decide (prj_TenantID proj = Some tenantID)); naive_solver.
Qed.

Lemma Create_spec c s :
  ((∃ c', (Create c s).1 = Ok c') ↔
     Campaign_Validate c = Ok tt ∧
     Forall (service_verified (camp_TenantID c) s) (camp_Services c)) ∧
  (∀ c', (Create c s).1 = Ok c' →
     c' = camp_with_ID c (campaignSeq (st_campaigns s) + 1) ∧
     (Create c s).2 =
       set_campaigns (mkCampaignTable (camp_ID c') (<[camp_ID c' := c']>
         (campaigns (st_campaigns s)))) s) ∧
  (∀ e, (Create c s).1 = Err e → (Create c s).2 = s).
Proof.
  unfold Create, mbind, M_bind, lift, ask, verifyServices.
  destruct (Campaign_Validate c) as [[]|] eqn:Hv; simpl; [|naive_solver].
  pose proof (verify_services_ok (camp_TenantID c) (camp_Services c) s) as Hs.
  destruct (verify_services _ _ _) as [[]|]; simpl; naive_solver.
Qed.

(** A campaign is created exactly when it is valid and each of its services
    designates an execution of the project it is registered under, in the
    campaign's own tenant; it is then stored under a fresh id and nothing else
    changes, and a refused campaign changes nothing at all. *)
Theorem campaign_create_exact c s :
  ((∃ c', (Create c s).1 = Ok c') ↔
     Campaign_Validate c = Ok tt ∧
     Forall (service_verified (camp_TenantID c) s) (camp_Services c)) ∧
  (∀ c', (Create c s).1 = Ok c' →
     c' = camp_with_ID c (campaignSeq (st_campaigns s) + 1) ∧
     (Create c s).2 =
       set_campaigns (mkCampaignTable (camp_ID c') (<[camp_ID c' := c']>
         (campaigns (st_campaigns s)))) s) ∧
  (∀ e, (Create c s).1 = Err e → (Create c s).2 = s).
Proof. apply Create_spec. Qed.

(** ** Editing *)
Lemma Update_spec now id next s :
  ∃ r s', Update now id next s = (r, s') ∧
    (s' = s ∨ ∃ c, campaigns (st_campaigns s) !! id = Some c ∧
       now < win_Start (camp_Window c) ∧
       let c' := mkCampaign (camp_ID c) (camp_Name next) (camp_TenantID c) (camp_Window next)
                   (camp_Services next) (camp_AbortedAt c) in
       Campaign_Validate c' = Ok tt ∧
       Forall (service_verified (camp_TenantID c) s) (camp_Services next) ∧
       (camp_ID c = id →
        r = Ok c' ∧
        s' = set_campaigns (mkCampaignTable (campaignSeq (st_campaigns s))
               (<[id := c']> (campaigns (st_campaigns s)))) s)).
Proof.
  unfold Update, Get, mbind, M_bind, ask, guard, lift, mret, M_ret, throw, GetCampaign.
  destruct (campaigns (st_campaigns s) !! id) as [c|] eqn:Hc; simpl; [|eauto].
  unfold Before. destruct (bool_decide_reflect (now < win_Start (camp_Window c))); simpl; [|eauto].
  set (c' := mkCampaign _ _ _ _ _ _). destruct (Campaign_Validate c') as [[]|] eqn:Hv; [|eauto].
  pose proof (verify_services_ok (camp_TenantID c) (camp_Services next) s) as Hs.
  unfold verifyServices. change (camp_TenantID c') with (camp_TenantID c).
  change (camp_Services c') with (camp_Services next).
  destruct (verify_services _ _ _) as [[]|]; simpl; [|eauto].
  unfold with_campaigns, UpdateCampaign. change (camp_ID c') with (camp_ID c).
  destruct (decide (camp_ID c = id)) as [Hid|Hid].
  - rewrite Hid, Hc. simpl. rewrite lookup_insert_eq. do 2 eexists. split; [done|].
    right. exists c. split; [done|]. split; [done|]. split; [done|]. split; [by apply Hs|].
    intros _. subst c'. simpl. by rewrite Hid.
  - destruct (campaigns (st_campaigns s) !! camp_ID c); simpl; [destruct (_ !! id)|];
      (do 2 eexists; (split; [done|]); right; exists c; naive_solver).
Qed.

(** Time passes, campaigns are created, edited and aborted, and the rest of the
    store changes freely. *)
Inductive campaign_step : time * Store → time * Store → Prop :=
| camp_tick now now' s : now <= now' → campaign_step (now, s) (now', s)
| camp_create now c s : campaign_step (now, s) (now, (Create c s).2)
| camp_update now id next s : campaign_step (now, s) (now, (Update now id next s).2)
| camp_abort now id s : campaign_step (now, s) (now, (Abort now id s).2)
| camp_other now s s' :
    st_campaigns s' = st_campaigns s → campaign_step (now, s) (now, s').

(** Two rows that differ at most in when they were aborted, never undoing it. *)
Definition same_definition (c c' : Campaign) : Prop :=
  camp_ID c' = camp_ID c ∧ camp_Name c' = camp_Name c ∧ camp_TenantID c' = camp_TenantID c ∧
  camp_Window c' = camp_Window c ∧ camp_Services c' = camp_Services c ∧
  (is_Some (camp_AbortedAt c) → is_Some (camp_AbortedAt c')).

#[global] Instance same_definition_po : PreOrder same_definition.
Proof.
  split; [done|]. intros c1 c2 c3 (?&?&?&?&?&?) (?&?&?&?&?&?).
  repeat split; [congruence..|]. auto.
Qed.

Lemma campaigns_ok_step a b :
  campaign_step a b → campaigns_ok (st_campaigns a.2) → campaigns_ok (st_campaigns b.2).
Proof.
  intros Hstep Hok. destruct Hstep as [|now c s|now id next s|now id s|now s s' Heq]; simpl in *.
  - done.
  - destruct (Create_spec c s) as (Hiff & Hok' & Herr).
    destruct (Create c s) as [[c'|e] s']; simpl in *; [|by rewrite (Herr e eq_refl)].
    destruct (Hok' c' eq_refl) as [-> ->].
    destruct (proj1 Hiff ltac:(eauto)) as [Hv _]. by apply campaigns_ok_create.
  - destruct (Update_spec now id next s) as (r & s' & -> & [->|(c & Hc & _ & Hv & _ & Hset)]); [done|].
    simpl. destruct (Hok _ _ Hc) as (Hid & Hle & _). destruct (Hset Hid) as [_ ->].
    intros id' c'. simpl. intros [[<- <-]|[_ ?]]%lookup_insert_Some; [done|by apply Hok].
  - unfold Abort, with_campaigns, AbortCampaign.
    destruct (campaigns (st_campaigns s) !! id) as [c|] eqn:Hc; [|done]. simpl.
    intros id' c'. simpl. intros [[<- <-]|[_ ?]]%lookup_insert_Some; [|by apply Hok].
    by destruct (Hok _ _ Hc) as (? & ? & ?).
  - by rewrite Heq.
Qed.

Lemma started_step a b id c :
  campaign_step a b → campaigns_ok (st_campaigns a.2) →
  campaigns (st_campaigns a.2) !! id = Some c → win_Start (camp_Window c) <= a.1 →
  a.1 <= b.1 ∧ ∃ c', campaigns (st_campaigns b.2) !! id = Some c' ∧ same_definition c c'.
Proof.
  intros Hstep Hok Hc Hstart.
  destruct Hstep as [|now c0 s|now id0 next s|now id0 s|now s s' Heq]; simpl in *.
  - split; [done|]. by exists c.
  - split; [lia|]. destruct (Create_spec c0 s) as (_ & Hok' & Herr).
    destruct (Create c0 s) as [[c'|e] s']; simpl in *;
      [|rewrite (Herr e eq_refl); by exists c].
    destruct (Hok' c' eq_refl) as [-> ->]. simpl. exists c. split; [|done].
    rewrite lookup_insert_ne; [done|]. intros <-. destruct (Hok _ _ Hc) as (_ & ? & _). lia.
  - split; [lia|]. destruct (Update_spec now id0 next s)
      as (r & s' & -> & [->|(c1 & Hc1 & Hlt & _ & _ & Hset)]); [by exists c|]. simpl.
    destruct (Hok _ _ Hc1) as (Hid & _). destruct (Hset Hid) as [_ ->]. simpl.
    exists c. split; [|done]. rewrite lookup_insert_ne; [done|]. intros ->.
    rewrite Hc in Hc1. injection Hc1 as <-. lia.
  - split; [lia|]. unfold Abort, with_campaigns, AbortCampaign.
    destruct (campaigns (st_campaigns s) !! id0) as [c1|] eqn:Hc1; [|by exists c]. simpl.
    destruct (decide (id0 = id)) as [->|]; [|rewrite lookup_insert_ne by done; by exists c].
    rewrite lookup_insert_eq. eexists. split; [done|]. rewrite Hc in Hc1. injection Hc1 as <-.
    repeat split; simpl; eauto.
  - split; [lia|]. rewrite Heq. by exists c.
Qed.

(** Once a campaign's window has opened its definition is locked: whatever
    is created, edited or aborted afterwards, at whatever later time, its name,
    tenant, window and services stay what they were, and an abort is never
    undone. *)
Theorem campaign_definition_locked now s now' s' id c :
  campaigns_ok (st_campaigns s) → campaigns (st_campaigns s) !! id = Some c →
  win_Start (camp_Window c) <= now →
  rtc campaign_step (now, s) (now', s') →
  ∃ c', campaigns (st_campaigns s') !! id = Some c' ∧ same_definition c c'.
Proof.
  intros Hok Hc Hstart Hsteps.
  remember (now, s) as a eqn:Ha. remember (now', s') as b eqn:Hb.
  revert now s c Ha Hok Hc Hstart. induction Hsteps as [x|x y z Hxy Hyz IH];
    intros now s c -> Hok Hc Hstart; simplify_eq/=; [by exists c|].
  destruct (started_step _ _ id c Hxy Hok Hc Hstart) as (Hle & c' & Hc' & Hsame).
  pose proof (campaigns_ok_step _ _ Hxy Hok) as Hok'. destruct y as [now1 s1]. simpl in *.
  destruct (IH eq_refl now1 s1 c' eq_refl Hok' Hc') as (c'' & ? & ?).
  { destruct Hsame as (_ & _ & _ & -> & _). lia. }
  exists c''. split; [done|]. by etrans.
Qed.

Lemma campaign_definition_locked_witness :
  let s := set_campaigns one_campaign NewStore in
  let s' := (Abort 13 1 (Update 12 1 (mkCampaign 0 "other" 9 (mkWindow 30 40) [] None) s).2).2 in
  ∃ c', campaigns (st_campaigns s') !! 1 = Some c' ∧
    same_definition (mkCampaign 1 "launch" 1 (mkWindow 10 20) [mkService 3 7] None) c'.
Proof.
  intros s s'. refine (campaign_definition_locked 11 s 13 s' 1 _ one_campaign_ok _ _ _);
    [reflexivity|simpl; lia|].
  eapply rtc_l; [apply (camp_tick 11 12); lia|]. eapply rtc_l; [apply camp_update|].
  eapply rtc_l; [apply (camp_tick 12 13); lia|]. apply rtc_once, camp_abort.
Defined.

(** ** Draining *)
Section drain.
Context {C H : Type} `{!Scheduler C} `{!SchedulerLaws C}.

(** The drain sweep's set is exact: in increasing order, every execution
    deployed on the home cluster that belongs to a participating project and is
    not any service's designated execution, and no other. *)
Theorem in_scope_exact (w : World C H) w' campaignID ids :
  InScopeExecutions campaignID w = (Ok ids, w') →
  ∃ c, campaigns (st_campaigns (w_store w)) !! campaignID = Some c ∧
    w_store w' = w_store w ∧ StronglySorted Z.le ids ∧ NoDup ids ∧
    ∀ id, id ∈ ids ↔
      is_Some (deployed_on "" (w_cluster w) !! id) ∧
      (id ∉ svc_ExecutionID <$> camp_Services c) ∧
      ∃ exe, executions (st_catalog (w_store w)) !! id = Some exe ∧
        exe_ProjectID exe ∈ svc_ProjectID <$> camp_Services c.
Proof.
  unfold InScopeExecutions. intros (c & w1 & Hget & Hrest)%bind_Ok.
  unfold try_store, ask, Get, GetCampaign in Hget.
  destruct (campaigns _ !! campaignID) as [c0|] eqn:Hc; [|done].
  injection Hget as <- <-. apply bind_Ok in Hrest as (dep & w2 & Hdep & Hrd).
  unfold on_cluster in Hdep. destruct (DeployedExecutions "" (w_cluster w)) as [r cl] eqn:Hd.
  injection Hdep as -> <-. apply deployed_read in Hd. subst dep.
  unfold read_store in Hrd. injection Hrd as <- <-. simpl.
  exists c0. split; [done|]. split; [done|]. split; [apply StronglySorted_merge_sort; apply _|].
  split; [rewrite merge_sort_Permutation; apply NoDup_filter, NoDup_fst_map_to_list|].
  intros id. rewrite merge_sort_Permutation, list_elem_of_filter, list_elem_of_fmap.
  unfold in_scope, GetExecution.
  assert ((∃ y : Z * time, id = y.1 ∧ y ∈ map_to_list (deployed_on "" (w_cluster w))) ↔
    is_Some (deployed_on "" (w_cluster w) !! id)) as ->.
  { split.
    - intros ([? t] & -> & ?%elem_of_map_to_list). eauto.
    - intros [t ?]. exists (id, t). split; [done|]. by apply elem_of_map_to_list. }
  rewrite andb_true_iff, negb_true_iff, bool_decide_eq_false, elem_of_list_to_set.
  destruct (executions _ !! id) as [exe|].
  - rewrite bool_decide_eq_true, elem_of_list_to_set. naive_solver.
  - naive_solver.
Qed.
End drain.

Definition one_deployed : FakeScheduler :=
  set_deployments {[ 8 := {[ 2 := mkSchedDeploy (mkDeploySpec "" 3 8 2 "" "" "" [] ∅) 5 ]};
                     7 := {[ 2 := mkSchedDeploy (mkDeploySpec "" 3 7 2 "" "" "" [] ∅) 5 ]} ]}
    NewScheduler.
Definition exe_of (id projectID : Z) : Execution :=
  mkExecution id "x" projectID "" KindNormal "" "" "" [] false None "" "" 0.
Definition drain_world : World FakeScheduler unit :=
  mkWorld (set_campaigns one_campaign
             (set_catalog (put_executions 8 {[ 7 := exe_of 7 3; 8 := exe_of 8 3 ]} empty_catalog)
                NewStore)) one_deployed NewObjectStore tt.

Lemma in_scope_exact_witness :
  (InScopeExecutions 1 drain_world).1 = Ok [8] ∧
  ∃ c, campaigns (st_campaigns (w_store drain_world)) !! 1 = Some c ∧
    StronglySorted Z.le [8].
Proof.
  split; [vm_compute; reflexivity|].
  destruct (in_scope_exact drain_world drain_world 1 [8]) as (c & Hc & _ & Hs & _);
    [vm_compute; reflexivity|]. by exists c.
Defined.
