(* ===== verification/ScheduleApp.v ===== *)
(** * Schedule use-cases ([internal/app/scheduleapp])

    Creating a schedule and reserving capacity for each of its occurrences,
    claiming the occurrence that is due, rolling a recurring schedule's horizon
    forward, and deleting a schedule.  [now] is the service's clock and [Stop]
    the hook the quota service reclaims overrun capacity with.

    [AddDate(0, 0, horizonDays)] is modelled as adding seven times 24 hours,
    which is what it does in UTC. *)
From S2P Require Import Prelude Errors LoadProfile Execution Reservation Quota Schedule.
From S2P Require Import Store Cluster.
Import Schedule.Schedule.

Definition horizonDays : Z := 7.
Definition day : duration := 86400 * second.

Record ScheduleView := mkScheduleView {
  sv_Schedule : Schedule;
  sv_Occurrences : list Occurrence
}.
Record Claim := mkClaim { cl_Occurrence : Occurrence; cl_Schedule : Schedule }.

Section service.
Context {C H : Type}.
Let W : Type := World C H.
Context (ParseStandard : string → option CronSchedule).
Context (Stop : Z → M W error unit) (now : time).

Definition read_schedules {A} (f : ScheduleTable → A) : M W error A :=
  read_store (λ s, f (st_schedules s)).
Definition on_schedules {A} (f : ScheduleTable → result error A * ScheduleTable) : M W error A :=
  on_store (λ s, let '(r, t) := f (st_schedules s) in (r, set_schedules t s)).
Definition ok_pair {A T} (p : A * T) : result error A * T := (Ok p.1, p.2).

Definition windowOf (profile : Profile) : duration :=
  LongestDurationSeconds profile *w second.

(** One iteration: reserve, then record the occurrence with its outcome. *)
Definition reserve_one (sc : Schedule) (cluster : string) (profile : Profile) (window : duration)
    (fireTime : time) : M W error Occurrence :=
  r ← attempt (Reserve Stop now (sch_TenantID sc) cluster (TotalEngines profile) fireTime
                 (time_Add fireTime window) (sch_ExecutionID sc));
  let occ := match r with
             | Err _ => mkOccurrence 0 (sch_ID sc) fireTime OccurrenceRejected None
             | Ok r => mkOccurrence 0 (sch_ID sc) fireTime OccurrenceReserved (Some (res_ID r))
             end in
  id ← on_schedules (λ t, ok_pair (CreateOccurrence occ t));
  mret (occ_with_ID occ id).

Fixpoint reserve_loop (sc : Schedule) (cluster : string) (profile : Profile) (window : duration)
    (fireTimes : list time) : M W error (list Occurrence) :=
  match fireTimes with
  | [] => mret []
  | t :: rest =>
      occ ← reserve_one sc cluster profile window t;
      occs ← reserve_loop sc cluster profile window rest;
      mret (occ :: occs)
  end.

Definition reserveOccurrences (sc : Schedule) (fireTimes : list time) (profile : Profile)
    (window : duration) : M W error (list Occurrence) :=
  exe ← try_store (GetExecution (sch_ExecutionID sc));
  reserve_loop sc (exe_Cluster exe) profile window fireTimes.

Definition Create (sc : Schedule) : M W error ScheduleView :=
  _ ← lift (Schedule.Validate ParseStandard sc);
  scenarios ← read_store (LoadProfileFor (sch_ExecutionID sc));
  _ ← guard (bool_decide (scenarios = [])) ErrLPNoScenarios;
  let profile := profile_of scenarios in
  let window := windowOf profile in
  fireTimes ← lift (Occurrences ParseStandard sc now (time_Add now (horizonDays * day)));
  id ← on_schedules (λ t, ok_pair (CreateSchedule sc t));
  let sc := sch_with_ID sc id in
  occs ← reserveOccurrences sc fireTimes profile window;
  mret (mkScheduleView sc occs).

Definition Get (id : Z) : M W error Schedule := try_store (λ s, GetSchedule id (st_schedules s)).

Definition List (executionID : Z) : M W error (list ScheduleView) :=
  read_schedules (λ t,
    (λ sc, mkScheduleView sc (OccurrencesForSchedule (sch_ID sc) t)) <$>
      ListSchedulesByExecution executionID t).

(** [DeleteReservation], tolerating a reservation that is already gone. *)
Definition drop_reservation (id : Z) : M W error unit :=
  r ← attempt (on_store (λ s, let '(r, l) := DeleteReservation id (st_ledger s) in
                              (r, set_ledger l s)));
  match r with
  | Err ErrNotFound => mret tt
  | r => lift r
  end.

(** [at_] is the [now] argument of the method; [None] is [found = false]. *)
Definition ClaimDue (at_ : time) : M W error (option Claim) :=
  found ← on_schedules (λ t, ok_pair (ClaimDueOccurrence at_ t));
  match found with
  | None => mret None
  | Some occ =>
      _ ← match occ_ReservationID occ with
          | Some rid => drop_reservation rid
          | None => mret tt
          end;
      sc ← Get (occ_ScheduleID occ);
      mret (Some (mkClaim occ sc))
  end.

(** [existing] is ordered by fire time, so its last element is the latest. *)
Definition extend_from (existing : list Occurrence) : time :=
  match last existing with
  | Some o => if After (occ_FireTime o) now then time_Add (occ_FireTime o) nanosecond else now
  | None => now
  end.

(** Runs under [WithScheduleLock], so it is one atomic step. *)
Definition extendOne (sc : Schedule) (to : time) : M W error unit :=
  existing ← read_schedules (OccurrencesForSchedule (sch_ID sc));
  let from := extend_from existing in
  if negb (After to from) then mret tt
  else
    scenarios ← read_store (LoadProfileFor (sch_ExecutionID sc));
    _ ← guard (bool_decide (scenarios = [])) ErrLPNoScenarios;
    let profile := profile_of scenarios in
    fireTimes ← lift (Occurrences ParseStandard sc from to);
    _ ← reserveOccurrences sc fireTimes profile (windowOf profile);
    mret tt.

(** The loop of [ExtendHorizons] counts the failures it collects. *)
Fixpoint extend_all (scs : list Schedule) (to : time) (errs : nat) : M W error nat :=
  match scs with
  | [] => mret errs
  | sc :: rest =>
      r ← attempt (extendOne sc to);
      extend_all rest to (match r with Ok _ => errs | Err _ => S errs end)
  end.

Definition ExtendHorizons : M W error unit :=
  scs ← read_schedules ListActiveRecurringSchedules;
  let to := time_Add now (horizonDays * day) in
  errs ← extend_all scs to 0;
  _ ← on_schedules (λ t, (Ok tt, RecordHorizonExtension now t));
  if bool_decide (errs = 0%nat) then mret tt else throw (ErrJoined errs).

Definition Delete (id : Z) : M W error unit :=
  occs ← read_schedules (OccurrencesForSchedule id);
  _ ← for_each occs (λ occ,
        if bool_decide (occ_Status occ ≠ OccurrenceReserved) then mret tt
        else match occ_ReservationID occ with
             | None => mret tt
             | Some rid => drop_reservation rid
             end);
  on_schedules (DeleteSchedule id).
End service.

(** ** What the service relies on *)

(** Stopping a run never touches the schedules or the catalogue. *)
Class StopFrame {C H : Type} (Stop : Z → M (World C H) error unit) := {
  stop_schedules : ∀ e w, st_schedules (w_store (Stop e w).2) = st_schedules (w_store w);
  stop_catalog : ∀ e w, st_catalog (w_store (Stop e w).2) = st_catalog (w_store w)
}.

#[global] Instance noop_stop_frame {C H} : StopFrame (C := C) (H := H) noopStopper.
Proof. by split. Qed.

Lemma created_occurrences o t sid :
  schedules_ok t →
  schedule_occurrences sid (CreateOccurrence o t).2 ≡ₚ
    (if decide (occ_ScheduleID o = sid) then [occ_with_ID o (occurrenceSeq t + 1)] else []) ++
    schedule_occurrences sid t.
Proof.
  intros [_ Hok]. unfold schedule_occurrences. simpl.
  rewrite map_to_list_insert; [|].
  - csimpl. rewrite filter_cons. simpl. by case_decide.
  - destruct (occurrences t !! _) as [o'|] eqn:E; [|done]. destruct (Hok _ _ E). lia.
Qed.

(** The outcome of an occurrence agrees with its reservation. *)
Definition decided (o : Occurrence) : Prop :=
  occ_Status o = OccurrenceReserved ∧ is_Some (occ_ReservationID o) ∨
  occ_Status o = OccurrenceRejected ∧ occ_ReservationID o = None.

Definition fire_times (sid : Z) (t : ScheduleTable) : list time :=
  occ_FireTime <$> schedule_occurrences sid t.

Section facts.
Context {C H : Type} (ParseStandard : string → option CronSchedule).
Context (Stop : Z → M (World C H) error unit) `{!StopFrame Stop} (now : time).
Local Abbreviation scheds w := (st_schedules (w_store w)).

Lemma reserve_one_spec sc cluster profile window t w :
  schedules_ok (scheds w) →
  ∃ o w', reserve_one Stop now sc cluster profile window t w = (Ok o, w') ∧
    scheds w' = (CreateOccurrence o (scheds w)).2 ∧
    occ_ID o = occurrenceSeq (scheds w) + 1 ∧ occ_ScheduleID o = sch_ID sc ∧
    occ_FireTime o = t ∧ decided o ∧
    st_catalog (w_store w') = st_catalog (w_store w).
Proof using StopFrame0.
  intros Hok. unfold reserve_one, mbind, M_bind, attempt, on_schedules, on_store, ok_pair.
  pose proof (Reserve_frame Stop (λ w, (scheds w, st_catalog (w_store w)))
    ltac:(done) ltac:(intros; simpl; by rewrite stop_schedules, stop_catalog)
    now (sch_TenantID sc) cluster (TotalEngines profile) t (time_Add t window)
    (sch_ExecutionID sc) w) as Hf.
  destruct (Reserve _ _ _ _ _ _ _ _ w) as [[r|e] w1]; simpl in *; injection Hf as Hs Hc;
    do 2 eexists; (split; [done|]); simpl; rewrite Hs; repeat split; try done;
    [left|right]; done.
Qed.

Lemma reserve_loop_spec sc cluster profile window ts w :
  schedules_ok (scheds w) →
  ∃ occs w', reserve_loop Stop now sc cluster profile window ts w = (Ok occs, w') ∧
    schedules_ok (scheds w') ∧ occ_FireTime <$> occs = ts ∧ Forall decided occs ∧
    schedules (scheds w') = schedules (scheds w) ∧
    st_catalog (w_store w') = st_catalog (w_store w) ∧
    ∀ sid, schedule_occurrences sid (scheds w') ≡ₚ
      schedule_occurrences sid (scheds w) ++ (if decide (sch_ID sc = sid) then occs else []).
Proof using StopFrame0.
  revert w. induction ts as [|t ts IH]; intros w Hok.
  { do 2 eexists. split; [done|]. split; [done|]. split; [done|]. split; [constructor|].
    split; [done|]. split; [done|]. intros sid. by case_decide; rewrite app_nil_r. }
  destruct (reserve_one_spec sc cluster profile window t w Hok)
    as (o & w1 & E & Hs & Hid & Hsid & Hft & Hdec & Hcat).
  assert (schedules_ok (scheds w1)) as Hok1 by (rewrite Hs; by apply CreateOccurrence_ok).
  destruct (IH w1 Hok1) as (occs & w2 & E2 & Hok2 & Hft2 & Hdec2 & Hsch2 & Hcat2 & Hperm).
  exists (o :: occs), w2. simpl. unfold mbind, M_bind. rewrite E, E2.
  split; [done|]. split; [done|]. split; [simpl; by f_equal|].
  split; [by constructor|]. split; [by rewrite Hsch2, Hs|]. split; [congruence|].
  intros sid. rewrite Hperm, Hs, created_occurrences by done. rewrite Hsid.
  assert (occ_with_ID o (occurrenceSeq (scheds w) + 1) = o) as ->
    by (destruct o; simpl in *; by subst).
  case_decide; [|done]. apply Permutation_middle.
Qed.

(** An extension that starts at [from], before the new horizon. *)
Lemma extendOne_runs w sc next fires exe to :
  let from := extend_from now (OccurrencesForSchedule (sch_ID sc) (scheds w)) in
  schedules_ok (scheds w) → sch_Kind sc = KindRecurring →
  ParseStandard (sch_Recurrence sc) = Some next → CronLaws fires next → 0 < from →
  LoadProfileFor (sch_ExecutionID sc) (w_store w) ≠ [] →
  executions (st_catalog (w_store w)) !! sch_ExecutionID sc = Some exe →
  from < to <= from + five_years →
  ∃ occs w', extendOne ParseStandard Stop now sc to w = (Ok tt, w') ∧
    StronglySorted (<) (occ_FireTime <$> occs) ∧
    (∀ u, u ∈ occ_FireTime <$> occs ↔ from <= u < to ∧ fires u) ∧
    ∀ sid, schedule_occurrences sid (scheds w') ≡ₚ
      schedule_occurrences sid (scheds w) ++ (if decide (sch_ID sc = sid) then occs else []).
Proof using StopFrame0.
  intros from Hok Hkind Hparse Hcron Hpos Hprof Hexe Hto.
  unfold extendOne, read_schedules, mbind, M_bind, read_store. fold from.
  unfold After. rewrite bool_decide_eq_true_2 by lia. cbn [negb].
  unfold guard. rewrite bool_decide_eq_false_2 by done. simpl. unfold lift, Occurrences, After.
  rewrite bool_decide_eq_true_2, Hkind by lia. cbn [negb].
  rewrite (bool_decide_eq_false_2 (KindRecurring = KindOneShot)) by done.
  rewrite (bool_decide_eq_true_2 (KindRecurring = KindRecurring)), Hparse by done.
  destruct (walk_exact next fires from to) as [Hsorted Hwalk]; [lia|lia|].
  unfold reserveOccurrences, mbind, M_bind, try_store, ask, GetExecution. rewrite Hexe. simpl.
  edestruct (reserve_loop_spec sc (exe_Cluster exe)) as
    (occs & w' & E & _ & Hft & _ & _ & _ & Hperm); [exact Hok|].
  rewrite E. exists occs, w'. rewrite Hft. done.
Qed.

Lemma fire_times_perm sid sc occs t t' :
  schedule_occurrences sid t' ≡ₚ
    schedule_occurrences sid t ++ (if decide (sch_ID sc = sid) then occs else []) →
  sid = sch_ID sc → fire_times sid t' ≡ₚ fire_times sid t ++ (occ_FireTime <$> occs).
Proof using.
  intros Hp ->. unfold fire_times. by rewrite Hp, decide_True, fmap_app by done.
Qed.

(** Where a horizon extension starts. *)
Lemma extend_from_spec sid t :
  let F := fire_times sid t in
  let from := extend_from now (OccurrencesForSchedule sid t) in
  (from = now ∧ ∀ u, u ∈ F → u <= now) ∨
  ∃ m, m ∈ F ∧ now < m ∧ from = m + 1 ∧ ∀ u, u ∈ F → u <= m.
Proof using.
  simpl. unfold extend_from, OccurrencesForSchedule, fire_times.
  assert (∀ u, u ∈ occ_FireTime <$> schedule_occurrences sid t ↔
    ∃ o, o ∈ merge_sort fire_le (schedule_occurrences sid t) ∧ occ_FireTime o = u) as Hin.
  { intros u. rewrite list_elem_of_fmap. setoid_rewrite merge_sort_Permutation. naive_solver. }
  assert (StronglySorted fire_le (merge_sort fire_le (schedule_occurrences sid t))) as Hs.
  { apply StronglySorted_merge_sort; [|apply _]. intros a b c. unfold fire_le. lia. }
  assert (Reflexive fire_le) by (intros a; unfold fire_le; lia).
  destruct (last (merge_sort _ _)) as [o|] eqn:El.
  - assert (∀ u, u ∈ occ_FireTime <$> schedule_occurrences sid t → u <= occ_FireTime o) as Hmax.
    { intros u (o' & Ho' & <-)%Hin. exact (sorted_last fire_le _ _ Hs El _ Ho'). }
    unfold After, time_Add, nanosecond.
    destruct (bool_decide_reflect (now < occ_FireTime o)).
    + right. exists (occ_FireTime o). repeat split; try done; [].
      apply Hin. exists o. split; [|done]. by apply last_Some_elem_of.
    + left. split; [done|]. intros u Hu. specialize (Hmax u Hu). lia.
  - left. split; [done|]. intros u (o' & Ho' & _)%Hin.
    destruct (merge_sort _ _) as [|o0 l]; [by apply elem_of_nil in Ho'|].
    apply last_None in El. done.
Qed.

(** Rolling a recurring schedule's horizon forward neither loses nor repeats
    a fire time: if its occurrences are, each once, the cron activations from
    some instant [c] up to some horizon [h], and no occurrence lies exactly on
    the clock, then after the extension they are, each once, those and all
    activations of the next seven days, and no other schedule changed. *)
Theorem horizon_extension_exact w sc next fires c h exe :
  schedules_ok (scheds w) → sch_Kind sc = KindRecurring →
  ParseStandard (sch_Recurrence sc) = Some next → CronLaws fires next → 0 < now →
  LoadProfileFor (sch_ExecutionID sc) (w_store w) ≠ [] →
  executions (st_catalog (w_store w)) !! sch_ExecutionID sc = Some exe →
  NoDup (fire_times (sch_ID sc) (scheds w)) →
  (∀ u, u ∈ fire_times (sch_ID sc) (scheds w) ↔ fires u ∧ c <= u < h) →
  (now ∉ fire_times (sch_ID sc) (scheds w)) → c <= now →
  let to := now + horizonDays * day in
  ∃ w', extendOne ParseStandard Stop now sc to w = (Ok tt, w') ∧
    NoDup (fire_times (sch_ID sc) (scheds w')) ∧
    (∀ u, u ∈ fire_times (sch_ID sc) (scheds w') ↔
       fires u ∧ (c <= u < h ∨ now <= u < to)) ∧
    (∀ sid, sid ≠ sch_ID sc →
       schedule_occurrences sid (scheds w') ≡ₚ schedule_occurrences sid (scheds w)).
Proof using StopFrame0.
  intros Hok Hkind Hparse Hcron Hnow Hprof Hexe Hnd Hin Hnotin Hc to.
  pose proof (extend_from_spec (sch_ID sc) (scheds w)) as Hfrom. simpl in Hfrom.
  pose proof (extendOne_runs w sc next fires exe to) as Hrun. simpl in Hrun.
  set (from := extend_from now _) in *.
  assert (now <= from) as Hle by (destruct Hfrom as [[-> _]|(m & _ & ? & -> & _)]; lia).
  destruct (decide (from < to)) as [Hlt|Hge].
  2:{ exists w. split.
    { unfold extendOne, read_schedules, mbind, M_bind, read_store. fold from.
      unfold After. by rewrite bool_decide_eq_false_2. }
    split; [done|]. split; [|done]. intros u. rewrite Hin.
    split; [naive_solver|]. intros [Hf [?|Hu]]; [done|]. split; [done|].
    destruct Hfrom as [[E _]|(m & [_ Hm]%Hin & _ & E & _)];
      unfold to, horizonDays, day, second in *; lia. }
  destruct Hrun as (occs & w' & E & Hsorted & Hwalk & Hperm); try done; [lia| |].
  { unfold to, horizonDays, five_years, day, second in *. lia. }
  exists w'. split; [done|].
  pose proof (fire_times_perm (sch_ID sc) sc occs _ _ (Hperm (sch_ID sc)) eq_refl) as Hp.
  split; [|split].
  - rewrite Hp. apply NoDup_app. split; [done|]. split; [|by apply sorted_NoDup].
    intros u Hu [Hu1 _]%Hwalk. destruct Hfrom as [[E' Hmax]|(m & _ & _ & E' & Hmax)];
      specialize (Hmax u Hu); [|lia].
    assert (u = now) as -> by lia. done.
  - intros u. rewrite Hp, elem_of_app, Hin, Hwalk. split.
    + intros [[Hf ?]|[? Hf]]; (split; [done|]); [by left|right; lia].
    + intros [Hf [?|Hu]]; [by left|]. destruct (decide (from <= u)); [right; split; [lia|done]|].
      left. split; [done|].
      destruct Hfrom as [[E' _]|(m & [_ Hm]%Hin & _ & E' & _)]; lia.
  - intros sid Hsid. rewrite Hperm, decide_False by done. by rewrite app_nil_r.
Qed.

(** An extension that runs at the very instant of the latest occurrence
    repeats it: that fire time is then in the ledger twice, each copy with its
    own reservation attempt. *)
Theorem extension_on_the_clock_duplicates w sc next fires exe :
  schedules_ok (scheds w) → sch_Kind sc = KindRecurring →
  ParseStandard (sch_Recurrence sc) = Some next → CronLaws fires next → 0 < now →
  LoadProfileFor (sch_ExecutionID sc) (w_store w) ≠ [] →
  executions (st_catalog (w_store w)) !! sch_ExecutionID sc = Some exe →
  now ∈ fire_times (sch_ID sc) (scheds w) → fires now →
  (∀ u, u ∈ fire_times (sch_ID sc) (scheds w) → u <= now) →
  ∃ w', extendOne ParseStandard Stop now sc (now + horizonDays * day) w = (Ok tt, w') ∧
    ¬ NoDup (fire_times (sch_ID sc) (scheds w')).
Proof using StopFrame0.
  intros Hok Hkind Hparse Hcron Hnow Hprof Hexe Hin Hf Hmax.
  pose proof (extend_from_spec (sch_ID sc) (scheds w)) as Hfrom. simpl in Hfrom.
  pose proof (extendOne_runs w sc next fires exe (now + horizonDays * day)) as Hrun.
  simpl in Hrun. set (from := extend_from now _) in *.
  assert (from = now) as ->.
  { destruct Hfrom as [[? _]|(m & Hm & ? & _)]; [done|]. specialize (Hmax m Hm). lia. }
  destruct Hrun as (occs & w' & E & _ & Hwalk & Hperm); try done.
  { unfold horizonDays, five_years, day, second. lia. }
  exists w'. split; [done|].
  rewrite (fire_times_perm (sch_ID sc) sc occs _ _ (Hperm (sch_ID sc)) eq_refl).
  intros (_ & Hdis & _)%NoDup_app. apply (Hdis now Hin), Hwalk. split; [|done].
  unfold horizonDays, day, second. lia.
Qed.
End facts.

(** ** A concrete store *)
Definition daily : Schedule := mkSchedule 1 4 9 KindRecurring None "@daily" true.
Definition one_entry : Entry := mkEntry "" 2 10 0 2 0 60 false "" 0.
Definition sched_store (occs : list Occurrence) : Store :=
  set_schedules
    (fold_left (λ t o, (CreateOccurrence o t).2) occs
       (CreateSchedule daily empty_schedules).2)
    (set_catalog (put_exec {[ 4 := [one_entry] ]}
       (put_executions 4 {[ 4 := mkExecution 4 "x" 3 "" KindNormal "" "" "c" [] false (Some 9)
                                   "" "" 0 ]} empty_catalog)) NewStore).
Definition sched_world (occs : list Occurrence) : World unit unit :=
  mkWorld (sched_store occs) tt NewObjectStore tt.
Definition parse_daily (_ : string) : option CronSchedule := Some (every_period day).

Lemma sched_store_ok occs : schedules_ok (st_schedules (sched_store occs)).
Proof.
  assert (∀ t, schedules_ok t →
    schedules_ok (fold_left (λ t o, (CreateOccurrence o t).2) occs t)) as Hfold.
  { induction occs as [|o occs IH]; intros t Ht; simpl; [done|]. by apply IH, CreateOccurrence_ok. }
  apply Hfold, (CreateSchedule_ok daily empty_schedules), schedules_ok_empty.
Qed.

Definition sched_exe : Execution :=
  mkExecution 4 "x" 3 "" KindNormal "" "" "c" [] false (Some 9) "" "" 0.
Definition on_days (u : time) : Prop := 0 < u ∧ (day | u).

Lemma horizon_extension_exact_witness :
  ∃ w', extendOne parse_daily noopStopper 5 daily (5 + horizonDays * day) (sched_world []) =
    (Ok tt, w') ∧
    NoDup (fire_times 1 (st_schedules (w_store w'))) ∧
    ∀ u, u ∈ fire_times 1 (st_schedules (w_store w')) ↔
      on_days u ∧ (5 <= u < 5 ∨ 5 <= u < 5 + horizonDays * day).
Proof.
  destruct (horizon_extension_exact parse_daily noopStopper 5 (sched_world []) daily
    (every_period day) on_days 5 5 sched_exe (sched_store_ok []) eq_refl eq_refl
    (every_period_laws day eq_refl) eq_refl) as (w' & ? & ? & ? & _).
  - discriminate.
  - reflexivity.
  - constructor.
  - intros u. split; [by intros ?%elem_of_nil|lia].
  - by intros ?%elem_of_nil.
  - lia.
  - exists w'. split; [assumption|]. split; assumption.
Defined.

Lemma extension_on_the_clock_duplicates_witness :
  let w := sched_world [mkOccurrence 0 1 day OccurrenceReserved (Some 1)] in
  fire_times 1 (st_schedules (w_store w)) = [day] ∧
  ∃ w', extendOne parse_daily noopStopper day daily (day + horizonDays * day) w = (Ok tt, w') ∧
    ¬ NoDup (fire_times 1 (st_schedules (w_store w'))).
Proof.
  intros w. assert (fire_times 1 (st_schedules (w_store w)) = [day]) as Hf by reflexivity.
  split; [assumption|].
  refine (extension_on_the_clock_duplicates parse_daily noopStopper day w daily
    (every_period day) on_days sched_exe (sched_store_ok _) eq_refl eq_refl
    (every_period_laws day eq_refl) eq_refl _ eq_refl _ _ _).
  - discriminate.
  - change (sch_ID daily) with 1. rewrite Hf. left.
  - split; [reflexivity|]. apply Z.divide_refl.
  - change (sch_ID daily) with 1. rewrite Hf. intros u Hu.
    apply list_elem_of_singleton in Hu. lia.
Defined.

(** ** Creating, claiming and deleting *)
Section more_facts.
Context {C H : Type} (ParseStandard : string → option CronSchedule).
Context (Stop : Z → M (World C H) error unit) `{!StopFrame Stop} (now : time).
Local Abbreviation scheds w := (st_schedules (w_store w)).
Local Abbreviation ledger w := (st_ledger (w_store w)).

(** A valid schedule of an execution with a load profile is created with
    one occurrence per fire time of the coming seven days, in order; each is
    decided at once, either reserved and holding a reservation or rejected and
    holding none, and no fire time is left undecided because another did not
    fit. *)
Theorem create_decides_every_occurrence sc w exe times :
  schedules_ok (scheds w) → Schedule.Validate ParseStandard sc = Ok tt →
  LoadProfileFor (sch_ExecutionID sc) (w_store w) ≠ [] →
  executions (st_catalog (w_store w)) !! sch_ExecutionID sc = Some exe →
  Occurrences ParseStandard sc now (now + horizonDays * day) = Ok times →
  ∃ v w', Create ParseStandard Stop now sc w = (Ok v, w') ∧
    sv_Schedule v = sch_with_ID sc (scheduleSeq (scheds w) + 1) ∧
    schedules (scheds w') = <[sch_ID (sv_Schedule v) := sv_Schedule v]> (schedules (scheds w)) ∧
    occ_FireTime <$> sv_Occurrences v = times ∧ Forall decided (sv_Occurrences v) ∧
    ∀ sid, schedule_occurrences sid (scheds w') ≡ₚ
      schedule_occurrences sid (scheds w) ++
      (if decide (sch_ID (sv_Schedule v) = sid) then sv_Occurrences v else []).
Proof using StopFrame0.
  intros Hok Hv Hprof Hexe Hocc. unfold Create, mbind, M_bind, lift, read_store, guard.
  rewrite Hv, bool_decide_eq_false_2 by done. unfold time_Add. simpl. rewrite Hocc.
  unfold on_schedules, on_store, ok_pair. simpl.
  unfold reserveOccurrences, mbind, M_bind, try_store, ask, GetExecution. simpl. rewrite Hexe.
  edestruct (reserve_loop_spec Stop now (sch_with_ID sc (scheduleSeq (scheds w) + 1))
    (exe_Cluster exe)) as (occs & w' & E & _ & Hft & Hdec & Hsch & _ & Hperm);
    [|rewrite E; eexists (mkScheduleView _ _), w'; split; [done|]; done].
  simpl. by apply CreateSchedule_ok.
Qed.

(** A reservation an occurrence of the list still holds. *)
Definition held (occs : list Occurrence) (rid : Z) : Prop :=
  Exists (λ o, occ_Status o = OccurrenceReserved ∧ occ_ReservationID o = Some rid) occs.
#[global] Instance held_dec occs rid : Decision (held occs rid).
Proof using. unfold held. apply _. Defined.

Lemma drop_reservation_spec rid (w : World C H) :
  drop_reservation rid w =
    (Ok tt, set_store (set_ledger (DeleteReservation rid (ledger w)).2 (w_store w)) w).
Proof using.
  unfold drop_reservation, mbind, M_bind, attempt, on_store, DeleteReservation.
  by destruct (reservations (ledger w) !! rid).
Qed.

Lemma drop_loop_spec occs (w : World C H) :
  ∃ w', for_each occs (λ occ,
      if bool_decide (occ_Status occ ≠ OccurrenceReserved) then mret tt
      else match occ_ReservationID occ with
           | None => mret tt
           | Some rid => drop_reservation rid
           end) w = (Ok tt, w') ∧
    (∀ rid, reservations (ledger w') !! rid =
       if decide (held occs rid) then None else reservations (ledger w) !! rid) ∧
    set_store (set_ledger (ledger w) (w_store w')) w' = w.
Proof using.
  revert w. induction occs as [|o occs IH]; intros w; cbn [for_each].
  { exists w. split; [done|]. split; [|by destruct w as [[]]].
    intros rid. rewrite decide_False; [done|]. by intros ?%Exists_nil. }
  unfold mbind, M_bind.
  assert (∀ rid, held (o :: occs) rid ↔
    (occ_Status o = OccurrenceReserved ∧ occ_ReservationID o = Some rid) ∨ held occs rid) as Hh
    by (intros; unfold held; by rewrite Exists_cons).
  destruct (bool_decide_reflect (occ_Status o ≠ OccurrenceReserved)) as [Hs|Hs];
    [|destruct (occ_ReservationID o) as [rid0|] eqn:Hr].
  - destruct (IH w) as (w' & E & Hres & Hset). simpl. exists w'. split; [done|]. split; [|done].
    intros rid. rewrite Hres. apply decide_ext. rewrite Hh. naive_solver.
  - rewrite drop_reservation_spec.
    destruct (IH (set_store (set_ledger (DeleteReservation rid0 (ledger w)).2 (w_store w)) w))
      as (w' & E & Hres & Hset). exists w'. split; [done|]. split.
    + intros rid. rewrite Hres. unfold DeleteReservation. simpl.
      assert (occ_Status o = OccurrenceReserved) as Hso
        by (by destruct (decide (occ_Status o = OccurrenceReserved))).
      destruct (decide (held occs rid)) as [Hd|Hd].
      { rewrite decide_True; [done|]. rewrite Hh. by right. }
      destruct (decide (rid0 = rid)) as [->|Hne].
      * rewrite decide_True by (rewrite Hh; by left).
        destruct (reservations (ledger w) !! rid) eqn:El; simpl; [apply lookup_delete_eq|done].
      * rewrite decide_False by (rewrite Hh; naive_solver).
        destruct (reservations (ledger w) !! rid0); simpl; [by apply lookup_delete_ne|done].
    + destruct w as [[] ? ? ?], w' as [[] ? ? ?]. unfold set_store, set_ledger in *. simpl in *.
      by simplify_eq.
  - destruct (IH w) as (w' & E & Hres & Hset). simpl. exists w'. split; [done|]. split; [|done].
    intros rid. rewrite Hres. apply decide_ext. rewrite Hh. naive_solver.
Qed.

(** Deleting a schedule frees exactly the capacity its own pending
    occurrences hold: the schedule and all its occurrences are gone, the
    reservations its reserved occurrences named are gone, and every other
    reservation, such as a manual run's of the same execution, and every other
    occurrence stay. *)
Theorem delete_releases_own_reservations (w : World C H) id sc :
  schedules (scheds w) !! id = Some sc →
  ∃ w', Delete id w = (Ok tt, w') ∧
    schedules (scheds w') = delete id (schedules (scheds w)) ∧
    (∀ i, occurrences (scheds w') !! i =
       match occurrences (scheds w) !! i with
       | Some o => if decide (occ_ScheduleID o = id) then None else Some o
       | None => None
       end) ∧
    ∀ rid, reservations (ledger w') !! rid =
      if decide (held (schedule_occurrences id (scheds w)) rid) then None
      else reservations (ledger w) !! rid.
Proof using.
  intros Hsc. unfold Delete, mbind, M_bind, read_schedules, read_store.
  destruct (drop_loop_spec (OccurrencesForSchedule id (scheds w)) w) as (w1 & -> & Hres & Hset).
  assert (scheds w1 = scheds w) as Hs by (by rewrite <- Hset).
  unfold on_schedules, on_store. rewrite Hs. unfold DeleteSchedule. rewrite Hsc. simpl.
  eexists. split; [done|]. simpl. split; [done|]. split.
  - intros i. rewrite map_lookup_filter.
    destruct (occurrences (scheds w) !! i) as [o|]; simpl; [|done].
    destruct (decide (occ_ScheduleID o = id)); by rewrite option_guard_decide; case_decide.
  - intros rid. rewrite Hres. apply decide_ext. unfold held, OccurrencesForSchedule.
    by rewrite !Exists_exists; setoid_rewrite merge_sort_Permutation.
Qed.

(** Claiming a due occurrence hands its capacity over: the earliest due
    reserved occurrence is marked fired and its advance reservation, if any, is
    dropped, so that the run about to be triggered is admitted afresh; no other
    occurrence and no other reservation changes, and nothing is claimed only
    when nothing is due. *)
Theorem claim_hands_over (w : World C H) at_ r w' :
  schedules_ok (scheds w) →
  (∀ i o, occurrences (scheds w) !! i = Some o →
     is_Some (schedules (scheds w) !! occ_ScheduleID o)) →
  ClaimDue at_ w = (r, w') →
  (r = Ok None ∧ (∀ i o, occurrences (scheds w) !! i = Some o → ¬ due at_ o) ∧
     scheds w' = scheds w ∧ ledger w' = ledger w) ∨
  ∃ o sc, r = Ok (Some (mkClaim (fired o) sc)) ∧
    occurrences (scheds w) !! occ_ID o = Some o ∧ due at_ o ∧
    (∀ i o', occurrences (scheds w) !! i = Some o' → due at_ o' →
       occ_FireTime o <= occ_FireTime o') ∧
    schedules (scheds w) !! occ_ScheduleID o = Some sc ∧
    occurrences (scheds w') = <[occ_ID o := fired o]> (occurrences (scheds w)) ∧
    reservations (ledger w') =
      match occ_ReservationID o with
      | Some rid => delete rid (reservations (ledger w))
      | None => reservations (ledger w)
      end.
Proof using.
  intros Hok Hfk. unfold ClaimDue, mbind, M_bind, on_schedules, on_store, ok_pair.
  pose proof (ClaimDueOccurrence_spec at_ (scheds w) Hok) as Hcl.
  destruct (ClaimDueOccurrence at_ (scheds w)) as [[c|] t']; cbn [fst snd].
  2:{ destruct Hcl as [-> Hn]. intros [= <- <-]. left. done. }
  destruct Hcl as (o & Ho & Hd & -> & Hmin & Hocc & Hsch & _). simpl in Ho, Hocc.
  destruct (Hfk _ _ Ho) as [sc Hsc]. intros Hrun. right. exists o, sc.
  unfold Get, try_store, ask, GetSchedule in Hrun.
  change (occ_ReservationID (fired o)) with (occ_ReservationID o) in Hrun.
  destruct (occ_ReservationID o) as [rid|] eqn:Hr.
  - rewrite drop_reservation_spec in Hrun. simpl in Hrun. rewrite Hsch, Hsc in Hrun.
    injection Hrun as <- <-. simpl. repeat split; try done; try apply Hd.
    unfold DeleteReservation. destruct (reservations (ledger w) !! rid) eqn:El; simpl; [done|].
    by rewrite delete_id.
  - simpl in Hrun. rewrite Hsch, Hsc in Hrun. injection Hrun as <- <-. simpl.
    repeat split; try done; apply Hd.
Qed.
End more_facts.

(** ** Witnesses *)
Lemma create_decides_every_occurrence_witness :
  ∃ v w', Create parse_daily noopStopper 5 daily (sched_world []) = (Ok v, w') ∧
    occ_FireTime <$> sv_Occurrences v = (λ k, k * day) <$> [1; 2; 3; 4; 5; 6; 7] ∧
    Forall decided (sv_Occurrences v).
Proof.
  destruct (create_decides_every_occurrence parse_daily noopStopper 5 daily (sched_world [])
    sched_exe ((λ k, k * day) <$> [1; 2; 3; 4; 5; 6; 7]) (sched_store_ok []) eq_refl)
    as (v & w' & ? & _ & _ & ? & ? & _);
    [discriminate|reflexivity|vm_compute; reflexivity|].
  exists v, w'. split; [assumption|]. split; assumption.
Defined.

Definition two_reservations : Ledger :=
  mkLedger 2 {[ 1 := mkReservation 1 9 "c" 2 day (2 * day) 4;
                2 := mkReservation 2 9 "c" 2 0 day 4 ]} ∅.
Definition pending_world : World unit unit :=
  mkWorld (set_ledger two_reservations
             (sched_store [mkOccurrence 0 1 day OccurrenceReserved (Some 1)]))
    tt NewObjectStore tt.

Lemma delete_releases_own_reservations_witness :
  ∃ w', Delete 1 pending_world = (Ok tt, w') ∧
    reservations (st_ledger (w_store w')) !! 1 = None ∧
    reservations (st_ledger (w_store w')) !! 2 = reservations two_reservations !! 2.
Proof.
  destruct (delete_releases_own_reservations pending_world 1 daily) as (w' & E & _ & _ & Hres);
    [reflexivity|].
  exists w'. split; [exact E|]. rewrite !Hres. split; vm_compute; reflexivity.
Defined.

Lemma claim_hands_over_witness :
  ∃ r w', ClaimDue (day + 7) pending_world = (r, w') ∧ r ≠ Ok None ∧
    reservations (st_ledger (w_store w')) = delete 1 (reservations two_reservations).
Proof.
  destruct (ClaimDue (day + 7) pending_world) as [r w'] eqn:E. exists r, w'. split; [reflexivity|].
  destruct (claim_hands_over pending_world (day + 7) r w') as
    [(-> & Hn & _)|(o & sc & -> & Ho & _ & _ & _ & _ & Hres)].
  - apply (sched_store_ok [mkOccurrence 0 1 day OccurrenceReserved (Some 1)]).
  - intros i o Ho. apply elem_of_map_to_list in Ho. vm_compute in Ho.
    apply list_elem_of_singleton in Ho. injection Ho as -> ->. eexists. reflexivity.
  - exact E.
  - discriminate (f_equal fst E).
  - split; [discriminate|]. rewrite Hres.
    assert (o = mkOccurrence 1 1 day OccurrenceReserved (Some 1)) as ->; [|reflexivity].
    apply elem_of_map_to_list in Ho. vm_compute in Ho.
    apply list_elem_of_singleton in Ho. injection Ho as _ Ho. exact Ho.
Defined.
