(* ===== verification/Lifecycle.v ===== *)
(** * Lifecycle use-cases ([internal/app/lifecycleapp])

    Starting, stopping, purging and reconciling an execution's runs.  The
    service is composed as [cmd/api] wires it: the quota service stops overrun
    runs through this service's own [Stop], the freeze check is the campaign
    service's, usage is recorded in the store.  The metrics service is reached
    through the interface [Metrics], the clusters through [Scheduler].

    A handler's calls read one instant, [now].  Goroutines that upload to
    distinct object keys are run in loop order. *)
From S2P Require Import Prelude Errors GoFloat LoadProfile Run Taurus Scenario Execution.
From S2P Require Import Reservation Quota Campaign RunTable Schedule Calibration Store Cluster.
From S2P Require Import CampaignApp ScheduleApp Cluster.
Import Project Scenario.Scenario.

(** ** The metrics service, as this one sees it *)
Class Metrics (H : Type) := {
  MetricsPurge : Z → H → H;
  Finalize : time → Z → Z → M (Store * H) error unit;
  FinalizeOrphaned : time → Z → Z → list OrphanCompletion → M (Store * H) error unit;
  (** Of [GetReport] only the error is used. *)
  HasReport : Z → H → result error unit
}.

(** What finalising a run may do to the store: move the idle clock, and close
    that very run if it is still its execution's current one. *)
Record finalize_frame (now : time) (executionID runID : Z) (s s' : Store) : Prop := {
  ff_catalog : st_catalog s' = st_catalog s;
  ff_launches : st_launches s' = st_launches s;
  ff_ledger : st_ledger s' = st_ledger s;
  ff_campaigns : st_campaigns s' = st_campaigns s;
  ff_schedules : st_schedules s' = st_schedules s;
  ff_calibrations : st_calibrations s' = st_calibrations s;
  ff_correlation : pendingCorrelation (st_activity s') = pendingCorrelation (st_activity s);
  ff_runs : st_runs s' = st_runs s ∨
    CurrentRun executionID (st_runs s) = Some runID ∧
    st_runs s' = StopRun now executionID (st_runs s)
}.

Class MetricsLaws (H : Type) `{!Metrics H} := {
  finalize_ok : ∀ now e r s h, finalize_frame now e r s (Finalize now e r (s, h)).2.1;
  finalize_orphaned_ok : ∀ now e r os s h,
    finalize_frame now e r s (FinalizeOrphaned now e r os (s, h)).2.1
}.

Lemma finalize_frame_refl now e r s : finalize_frame now e r s s.
Proof. split; try done. by left. Qed.

(** [noopMetrics]. *)
#[global] Instance noopMetrics : Metrics unit := {
  MetricsPurge _ h := h;
  Finalize _ _ _ := mret tt;
  FinalizeOrphaned _ _ _ _ := mret tt;
  HasReport _ _ := Err ErrNotFound
}.
#[global] Instance noopMetrics_laws : MetricsLaws unit.
Proof. split; intros; apply finalize_frame_refl. Qed.

(** ** Object keys *)
Definition RunShardKey (runID scenarioID shard : Z) (ext : string) : string :=
  "run/" +:+ pretty runID +:+ "/scenario-" +:+ pretty scenarioID +:+ "-shard-" +:+ pretty shard
  +:+ "." +:+ ext.
Definition RunShardClusterKey (runID scenarioID shard : Z) (cluster ext : string) : string :=
  "run/" +:+ pretty runID +:+ "/cluster-" +:+ cluster +:+ "/scenario-" +:+ pretty scenarioID
  +:+ "-shard-" +:+ pretty shard +:+ "." +:+ ext.
Definition runLogKey (runID scenarioID shard : Z) : string :=
  RunShardKey runID scenarioID shard "log".
Definition deployedConfigKey (scenarioID shard : Z) : string :=
  "scenario/" +:+ pretty scenarioID +:+ "/compiled/shard-" +:+ pretty shard +:+ ".yml".
Definition runConfigKey (runID scenarioID shard : Z) : string :=
  RunShardKey runID scenarioID shard "yml".
Definition scenarioKey (scenarioID : Z) (filename : string) : string :=
  "scenario/" +:+ pretty scenarioID +:+ "/" +:+ filename.

(** ** Pure helpers *)
Definition planRefs (scenarios : list Entry) : list ScenarioRef :=
  (λ ep, mkScenarioRef (ScenarioID ep) (Engines ep)) <$> scenarios.

Definition fanOutEngines (profileEngines : Z) (exe : Execution) : Z :=
  if negb (IsFanOut exe) then profileEngines
  else profileEngines *w Z.of_nat (length (exe_FanOutTargets exe)).

Definition engineOf (exe : Execution) (fallback : Executor) : Executor :=
  if bool_decide (exe_Engine exe ≠ "") then exe_Engine exe else fallback.

(** The shards [0 .. n-1] of the loops [for i := 0; i < n; i++]. *)
Definition shards_of (n : Z) : list Z := Z.of_nat <$> seq 0 (Z.to_nat n).

Definition orphansCoverProfile (orphans : list OrphanCompletion) (profile : list Entry) : bool :=
  let seen : gset (Z * Z) :=
    list_to_set ((λ oc, (oc_ScenarioID oc, oc_ShardIndex oc)) <$> orphans) in
  forallb (λ e, forallb (λ i, bool_decide ((ScenarioID e, i) ∈ seen)) (shards_of (Engines e)))
    profile &&
  bool_decide (0 < Z.of_nat (length profile)).

(** *** Engine equivalents

    [resource.ParseQuantity] is Kubernetes' quantity parser: a parameter, with
    the two readings of a quantity the code uses, [MilliValue] and [Value]. *)
Record Quantity := mkQuantity { MilliValue : Z; Value : Z }.
Definition baselineEngineCPU : string := "500m".
Definition baselineEngineMemory : string := "512Mi".

Section size.
Context (ParseQuantity : string → option Quantity).

(** One dimension: the larger of [ratio] and this dimension's own ratio.
    [MustParse] of a baseline constant panics when it does not parse. *)
Definition dimension (reading : Quantity → Z) (pinned baseline : string) (ratio : float64) :
    result error float64 :=
  if bool_decide (pinned = "") then Ok ratio
  else match ParseQuantity pinned with
       | None => Err ErrParseQuantity
       | Some q =>
           match ParseQuantity baseline with
           | None => Err (ErrInjected "panic")
           | Some b =>
               let r := fdiv (of_int (reading q)) (of_int (reading b)) in
               Ok (if fgt r ratio then r else ratio)
           end
       end.

Definition sizeRatio (cpu memory : string) : result error float64 :=
  ratio ← dimension MilliValue cpu baselineEngineCPU (of_int 1);
  dimension Value memory baselineEngineMemory ratio.

Definition engineEquivalents (cpu memory : string) (podCount : Z) : result error Z :=
  ratio ← sizeRatio cpu memory;
  mret (to_int (fceil ratio) *w podCount).
End size.

(** ** The service *)
Record ScenarioStatus := mkScenarioStatus {
  sst_ScenarioID : Z;
  sst_EnginesWanted : Z;
  sst_EnginesDeployed : Z;
  sst_Reachable : bool;
  sst_InProgress : bool;
  sst_StartedTime : time
}.
Record Status := mkStatus {
  stt_Phase : Run.Phase;
  stt_PoolSize : Z;
  stt_Scenarios : list ScenarioStatus
}.

Section service.
Context {C H : Type} `{!Scheduler C} `{!Metrics H}.
Let W : Type := World C H.
Context (now : time).

Definition currentRunOf (executionID : Z) : M W error (option Z) :=
  read_store (λ s, CurrentRun executionID (st_runs s)).
Definition is_running (r : option Z) : bool := bool_decide (is_Some r).

(** *** Status *)

(** The body of [executionStatusAcross]'s loop over clusters; the state is the
    pool size, the deployed count per scenario, and whether all answered. *)
Fixpoint status_loop (executionID : Z) (refs : list ScenarioRef) (clusters : list string)
    (pool : Z) (deployed : gmap Z Z) (reachable : bool) : M W error (Z * gmap Z Z * bool) :=
  match clusters with
  | [] => mret (pool, deployed, reachable)
  | cluster :: rest =>
      st ← on_cluster (ExecutionStatusOf cluster executionID refs);
      status_loop executionID refs rest (pool +w es_PoolSize st)
        (fold_left (λ m pr, <[sr_ScenarioID pr :=
             default 0 (m !! sr_ScenarioID pr) +w sr_EnginesDeployed pr]> m)
           (es_Scenarios st) deployed)
        (fold_left (λ b pr, if negb (sr_Reachable pr) then false else b)
           (es_Scenarios st) reachable)
  end.

Definition executionStatusAcross (exe : Execution) (executionID : Z) (refs : list ScenarioRef) :
    M W error ExecutionStatus :=
  match Clusters exe with
  | [cluster] => on_cluster (ExecutionStatusOf cluster executionID refs)
  | clusters =>
      tot ← status_loop executionID refs clusters 0 ∅ true;
      let '(pool, deployed, reachable) := (tot : Z * gmap Z Z * bool) in
      mret (mkExecutionStatus
        ((λ ref, mkReadiness (ref_ScenarioID ref) (ref_Shards ref)
                   (default 0 (deployed !! ref_ScenarioID ref)) reachable) <$> refs) pool)
  end.

Definition requireEveryClusterReady (exe : Execution) (executionID : Z) (refs : list ScenarioRef) :
    M W error unit :=
  let wanted := sum64 ref_Shards refs in
  for_each (exe_FanOutTargets exe) (λ cluster,
    st ← on_cluster (ExecutionStatusOf cluster executionID refs);
    guard (es_PoolSize st <? wanted) ErrEnginesNotReady).

Definition runningByScenario (executionID : Z) : M W error (gmap Z time) :=
  read_store (λ s,
    fold_left (λ m rp, <[rs_ScenarioID rp := rs_StartedTime rp]> m)
      (RunningScenariosByExecution executionID (st_runs s)) ∅).

Definition scenario_status (running : gmap Z time) (pr : ScenarioReadiness) : ScenarioStatus :=
  mkScenarioStatus (sr_ScenarioID pr) (sr_EnginesWanted pr) (sr_EnginesDeployed pr)
    (sr_Reachable pr) (bool_decide (is_Some (running !! sr_ScenarioID pr)))
    (default time_zero (running !! sr_ScenarioID pr)).

Definition StatusOf (executionID : Z) : M W error Status :=
  coll ← try_store (GetExecution executionID);
  scenarios ← read_store (LoadProfileFor executionID);
  sched ← executionStatusAcross coll executionID (planRefs scenarios);
  run ← currentRunOf executionID;
  byScenario ← runningByScenario executionID;
  mret (mkStatus (DerivePhase (es_PoolSize sched) (is_running run)) (es_PoolSize sched)
          (scenario_status byScenario <$> es_Scenarios sched)).

Definition ClusterStatus (executionID : Z) (cluster : string) : M W error Status :=
  coll ← try_store (GetExecution executionID);
  _ ← guard (negb (bool_decide (cluster ∈ Clusters coll))) ErrNotFound;
  scenarios ← read_store (LoadProfileFor executionID);
  sched ← on_cluster (ExecutionStatusOf cluster executionID (planRefs scenarios));
  run ← currentRunOf executionID;
  byScenario ← runningByScenario executionID;
  mret (mkStatus (DerivePhase (es_PoolSize sched) (is_running run)) (es_PoolSize sched)
          (scenario_status byScenario <$> es_Scenarios sched)).

Definition RunExecutionID (runID : Z) : M W error Z :=
  rec ← try_store (λ s, RunHistory runID (st_runs s));
  mret (rr_ExecutionID rec).

Definition Resume : M W error (list RunningScenario) :=
  read_store (λ s, RunningScenarios (st_runs s)).

Definition clusterFor (executionID : Z) : M W error string :=
  coll ← try_store (GetExecution executionID);
  mret (if IsFanOut coll then default "" (head (exe_FanOutTargets coll)) else exe_Cluster coll).

Definition PodLogFor (executionID scenarioID : Z) (cluster : string) : M W error string :=
  ref ← (if bool_decide (cluster = "") then clusterFor executionID else mret cluster);
  on_cluster (PodLog ref executionID scenarioID 0).

(** The loop of [EnginesDetail] over a fan-out execution's clusters. *)
Fixpoint detail_loop (projectID executionID : Z) (clusters : list string) (out : ExecutionDetail) :
    M W error ExecutionDetail :=
  match clusters with
  | [] => mret out
  | cluster :: rest =>
      d ← on_cluster (EngineDetailOf cluster projectID executionID);
      detail_loop projectID executionID rest
        (mkExecutionDetail
           (if bool_decide (xd_IngressIP out = "") then xd_IngressIP d else xd_IngressIP out)
           (xd_Engines out ++
              ((λ e, mkEngineDetail (cluster +:+ "/" +:+ ed_Name e) (ed_Status e)
                       (ed_CreatedTime e)) <$> xd_Engines d)))
  end.

Definition EnginesDetail (projectID executionID : Z) : M W error ExecutionDetail :=
  coll ← try_store (GetExecution executionID);
  match Clusters coll with
  | [cluster] => on_cluster (EngineDetailOf cluster projectID executionID)
  | clusters => detail_loop projectID executionID clusters (mkExecutionDetail "" [])
  end.

(** *** Stopping *)
Definition teardown (executionID : Z) : M W error unit :=
  _ ← upd_store (TouchActivity now executionID);
  scenarios ← read_store (LoadProfileFor executionID);
  _ ← for_each scenarios (λ ep, upd_runs (ClearScenarioRunning executionID (ScenarioID ep)));
  let vu := VirtualUsers (profile_of scenarios) in
  _ ← upd_store (FinishLaunch now executionID vu);
  _ ← ignore (Release executionID);
  run ← currentRunOf executionID;
  _ ← match run with
      | Some runID => ignore (on_metrics (Finalize now executionID runID))
      | None => mret tt
      end;
  upd_runs (StopRun now executionID).

Definition Stop (executionID : Z) : M W error unit :=
  run ← currentRunOf executionID;
  _ ← lift (CanStop (DerivePhase 0 (is_running run)));
  teardown executionID.

(** Best effort: a pod that has no log, or an upload that fails, is skipped. *)
Definition captureLogs (executionID runID : Z) : M W error unit :=
  coll ← attempt (try_store (GetExecution executionID));
  match coll with
  | Err _ => mret tt
  | Ok coll =>
      scenarios ← read_store (LoadProfileFor executionID);
      for_each (Clusters coll) (λ ref,
        for_each scenarios (λ ep,
          for_each (shards_of (Engines ep)) (λ shard,
            log ← attempt (on_cluster (PodLog ref executionID (ScenarioID ep) shard));
            match log with
            | Err _ => mret tt
            | Ok log =>
                let key := if IsFanOut coll
                           then RunShardClusterKey runID (ScenarioID ep) shard ref "log"
                           else runLogKey runID (ScenarioID ep) shard in
                ignore (on_objects (Upload key log))
            end)))
  end.

Definition teardownAndCapture (executionID : Z) : M W error unit :=
  run ← currentRunOf executionID;
  match run with
  | Some runID =>
      _ ← teardown executionID;
      captureLogs executionID runID
  | None =>
      last ← attempt (try_store (λ s, LastRun executionID (st_runs s)));
      match last with
      | Err _ => mret tt
      | Ok last =>
          _ ← teardown executionID;
          captureLogs executionID (rr_RunID last)
      end
  end.

Definition Purge (executionID : Z) : M W error unit :=
  coll ← try_store (GetExecution executionID);
  _ ← teardownAndCapture executionID;
  _ ← for_each (Clusters coll) (λ cluster, on_cluster (PurgeExecution cluster executionID));
  on_metrics (modify (λ sh, (sh.1, MetricsPurge executionID sh.2))).

(** *** Reaping idle engines *)
Definition calibrating (executionID : Z) : M W error bool :=
  read_store (λ s,
    existsb (λ j, negb (bool_decide (cj_Phase j = PhaseDone)) &&
                  negb (bool_decide (cj_Phase j = PhaseFailed)))
      (ListCalibrationJobsByExecution executionID (st_calibrations s))).

Definition reapIfIdle (executionID : Z) (cluster : string) (deployedAt : time) (ttl : duration) :
    M W error bool :=
  seen ← read_store (LastActivity executionID);
  let last := default deployedAt seen in
  if bool_decide (time_Sub now last < ttl) then mret false
  else
    run ← currentRunOf executionID;
    if is_running run then mret false
    else
      busy ← calibrating executionID;
      if (busy : bool) then mret false
      else
        _ ← teardownAndCapture executionID;
        _ ← on_cluster (PurgeExecution cluster executionID);
        _ ← upd_runs (ClearOrphanCompletions executionID);
        mret true.

(** The loops of [ReapIdle]: [seen], [reaped] and the first error are its
    variables; an execution that fails does not stop the pass. *)
Fixpoint reap_deployed (cluster : string) (ttl : duration) (deployed : list (Z * time))
    (st : gset Z * list Z * option error) : M W error (gset Z * list Z * option error) :=
  match deployed with
  | [] => mret st
  | (executionID, deployedAt) :: rest =>
      let '(seen, reaped, reapErr) := st in
      if bool_decide (executionID ∈ seen) then reap_deployed cluster ttl rest st
      else
        let seen := {[executionID]} ∪ seen in
        r ← attempt (reapIfIdle executionID cluster deployedAt ttl);
        reap_deployed cluster ttl rest
          match r with
          | Err e => (seen, reaped, match reapErr with None => Some e | e0 => e0 end)
          | Ok true => (seen, reaped ++ [executionID], reapErr)
          | Ok false => (seen, reaped, reapErr)
          end
  end.

(** [return reaped, err]: the partial list is returned with the error. *)
Fixpoint reap_clusters (ttl : duration) (clusters : list string)
    (st : gset Z * list Z * option error) : M W error (list Z * option error) :=
  match clusters with
  | [] => mret (merge_sort Z.le st.1.2, st.2)
  | cluster :: rest =>
      d ← attempt (on_cluster (DeployedExecutions cluster));
      match d with
      | Err e => mret (st.1.2, Some e)
      | Ok deployed =>
          st' ← reap_deployed cluster ttl (map_to_list deployed) st;
          reap_clusters ttl rest st'
      end
  end.

Definition ReapIdle (ttl : duration) (clusters : list string) :
    M W error (list Z * option error) :=
  if ttl <=? 0 then mret ([], None) else reap_clusters ttl clusters (∅, [], None).

(** *** Reconciliation *)
Definition reconcile_one (orun : OpenRun) : M W error unit :=
  orphans ← read_store (λ s, OrphanCompletions (or_ExecutionID orun) (st_runs s));
  if bool_decide (orphans = []) then mret tt
  else
    profile ← read_store (LoadProfileFor (or_ExecutionID orun));
    if negb (orphansCoverProfile orphans profile) then mret tt
    else
      _ ← on_metrics (FinalizeOrphaned now (or_ExecutionID orun) (or_RunID orun) orphans);
      upd_runs (StopRun now (or_ExecutionID orun)).

Definition Reconcile : M W error unit :=
  open ← read_store (λ s, OpenRuns (st_runs s));
  for_each open reconcile_one.

(** One run of [ReconcileAbandoned]'s loop; whether it was closed. *)
Definition abandon_one (after : duration) (orun : OpenRun) : M W error bool :=
  if bool_decide (time_Sub now (or_StartedTime orun) < after) then mret false
  else
    rep ← (λ w, (Ok (HasReport (or_RunID orun) (w_metrics w)), w));
    match (rep : result error unit) with
    | Ok _ =>
        _ ← upd_runs (StopRun now (or_ExecutionID orun));
        mret true
    | Err ErrNotFound =>
        coll ← attempt (try_store (GetExecution (or_ExecutionID orun)));
        match coll with
        | Err ErrNotFound => mret false
        | Err e => throw e
        | Ok coll =>
            scenarios ← read_store (LoadProfileFor (or_ExecutionID orun));
            status ← executionStatusAcross coll (or_ExecutionID orun) (planRefs scenarios);
            if 0 <? es_PoolSize status then mret false
            else
              _ ← on_metrics (Finalize now (or_ExecutionID orun) (or_RunID orun));
              _ ← upd_runs (StopRun now (or_ExecutionID orun));
              mret true
        end
    | Err e => throw e
    end.

Fixpoint abandon_loop (after : duration) (open closed : list OpenRun) : M W error (list OpenRun) :=
  match open with
  | [] => mret closed
  | orun :: rest =>
      done ← abandon_one after orun;
      abandon_loop after rest (if (done : bool) then closed ++ [orun] else closed)
  end.

Definition ReconcileAbandoned (after : duration) : M W error (list OpenRun) :=
  if after <=? 0 then mret []
  else
    open ← read_store (λ s, OpenRuns (st_runs s));
    abandon_loop after open [].

(** *** Triggering *)
Definition ensureTestFiles (scenarios : list Entry) : M W error unit :=
  for_each scenarios (λ ep,
    sc ← try_store (GetScenario (ScenarioID ep));
    if bool_decide (scn_Kind sc ≠ KindNative) then mret tt
    else
      pf ← read_store (ScenarioFilesFor (ScenarioID ep));
      guard (bool_decide (sf_TestFile pf = "")) ErrNoTestFile).

Definition snapshotConfigs (runID : Z) (scenarios : list Entry) : M W error unit :=
  for_each scenarios (λ ep,
    for_each (shards_of (Engines ep)) (λ shard,
      raw ← attempt (on_objects (Download (deployedConfigKey (ScenarioID ep) shard)));
      match raw with
      | Err _ => mret tt
      | Ok raw => ignore (on_objects (Upload (runConfigKey runID (ScenarioID ep) shard) raw))
      end)).

(** Reservations on each cluster; a refusal releases what was reserved. *)
Definition reserve_clusters (tenantID units : Z) (start end_ : time) (executionID : Z)
    (clusters : list string) : M W error unit :=
  for_each clusters (λ cluster,
    r ← attempt (Reserve Stop now tenantID cluster units start end_ executionID);
    match r with
    | Err e => _ ← ignore (Release executionID); throw e
    | Ok _ => mret tt
    end).

(** [MarkScenarioRunning] for every scenario; the number that failed. *)
Fixpoint mark_all (executionID : Z) (scenarios : list Entry) (failed : nat) : M W error nat :=
  match scenarios with
  | [] => mret failed
  | ep :: rest =>
      r ← attempt (on_runs (MarkScenarioRunning now executionID (ScenarioID ep)));
      mark_all executionID rest (match r with Ok _ => failed | Err _ => S failed end)
  end.

Context (ParseQuantity : string → option Quantity).

(** Everything [Trigger] checks before it reserves or writes anything. *)
Definition trigger_checks (executionID : Z) : M W error (Execution * list Entry) :=
  coll ← try_store (GetExecution executionID);
  frozen ← read_store (IsFrozen now (exe_ProjectID coll) executionID);
  _ ← match (frozen : option string) with
      | Some campaignName => throw (ErrCampaignFrozen campaignName)
      | None => mret tt
      end;
  scenarios ← read_store (LoadProfileFor executionID);
  _ ← ensureTestFiles scenarios;
  run ← currentRunOf executionID;
  let refs := planRefs scenarios in
  status ← executionStatusAcross coll executionID refs;
  _ ← (if IsFanOut coll then requireEveryClusterReady coll executionID refs else mret tt);
  let ec := profile_of scenarios in
  _ ← lift (CanTrigger (DerivePhase (es_PoolSize status) (is_running run)) ec
              (es_PoolSize status));
  orphans ← read_store (λ s, OrphanCompletions executionID (st_runs s));
  _ ← guard (negb (bool_decide (orphans = [])))
        (EnginesFinishedError (Z.of_nat (length orphans)));
  mret (coll, scenarios).

Definition trigger_reserve (coll : Execution) (executionID : Z) (scenarios : list Entry) :
    M W error unit :=
  match exe_TenantID coll with
  | None => mret tt
  | Some tenantID =>
      let ec := profile_of scenarios in
      units ← lift (engineEquivalents ParseQuantity (exe_CPU coll) (exe_Memory coll)
                      (TotalEngines ec));
      let end_ := time_Add now (LongestDurationSeconds ec *w second) in
      reserve_clusters tenantID units now end_ executionID (Clusters coll)
  end.

Definition trigger_start (coll : Execution) (executionID : Z) (scenarios : list Entry) :
    M W error unit :=
  correlationID ← try_store (PendingCorrelationID executionID);
  runID ← on_runs (StartRun now executionID correlationID);
  _ ← upd_store (TouchActivity now executionID);
  _ ← snapshotConfigs runID scenarios;
  failed ← mark_all executionID scenarios 0;
  _ ← (if bool_decide (failed = length scenarios)
       then upd_runs (StopRun now executionID) else mret tt);
  _ ← guard (bool_decide (failed ≠ 0%nat)) (ErrTrigger failed);
  proj ← attempt (try_store (GetProject (exe_ProjectID coll)));
  match proj with
  | Err _ => mret tt
  | Ok proj =>
      let ec := profile_of scenarios in
      ignore (on_store (StartLaunch now executionID (prj_Owner proj)
                (fanOutEngines (TotalEngines ec) coll) (VirtualUsers ec)))
  end.

Definition Trigger (executionID : Z) : M W error unit :=
  cs ← trigger_checks executionID;
  let '(coll, scenarios) := (cs : Execution * list Entry) in
  _ ← trigger_reserve coll executionID scenarios;
  trigger_start coll executionID scenarios.
End service.
