(* ===== verification/Deploy.v ===== *)
(** * Deploying an execution ([internal/app/lifecycleapp])

    [Deploy] and [compileShards]: the load of each entry is split into pods,
    each pod's share is compiled into its own configuration, and the whole set
    goes to every cluster of the execution.

    The YAML encoder and decoder, the image registry and the source of random
    trace ids are outside this repository: they are parameters. *)
From S2P Require Import Prelude Errors GoStrings LoadProfile Shard Run Taurus Scenario Execution.
From S2P Require Import Criteria Compile RunTable Store Cluster Lifecycle.

Definition podScenarioPath : string := "/honryu/config/scenario/".

(** [entry] with a pod's share of the load. *)
Definition with_load (entry : Entry) (concurrency throughput rampup : Z) : Entry :=
  mkEntry (Name entry) (ScenarioID entry) concurrency rampup (Engines entry) throughput
    (Duration entry) (CSVSplit entry) (Mode entry) (Steps entry).

Section deploy.
Context {C H : Type} `{!Scheduler C} `{!Metrics H} `{!Unicode}.
Let W : Type := World C H.
Context (now : time).
Context (Marshal : Conf.Config → option string) (Unmarshal : string → option Conf.Scenario).
Context (image : Executor → result error string).
Context (traceContext : result error Telemetry.TraceContext) (defaultEngine : Executor).

(** The loop that fetches a scenario's files. *)
Fixpoint download_files (scenarioID : Z) (names : list string) (files : gmap string string) :
    M W error (gmap string string) :=
  match names with
  | [] => mret files
  | name :: rest =>
      if bool_decide (name = "") then download_files scenarioID rest files
      else
        content ← on_objects (Download (Lifecycle.scenarioKey scenarioID name));
        download_files scenarioID rest (<[name := content]> files)
  end.

(** The scenario as the compiler takes it: a native scenario its script, a
    portable one its stored fragment; nothing stored leaves it without
    requests, which the compiler refuses. *)
Definition scenario_input (scenarioID : Z) (sc : Scenario.Scenario) (pf : ScenarioFiles) :
    M W error Compiler.ScenarioInput :=
  let paths := (λ name, podScenarioPath +:+ name) <$> sf_Data pf in
  if bool_decide (Scenario.scn_Kind sc = Scenario.KindNative) then
    mret (Compiler.mkScenarioInput sc (podScenarioPath +:+ sf_TestFile pf) "" [] ∅ 0 None paths)
  else if bool_decide (Scenario.scn_Kind sc = Scenario.KindPortable) then
    raw ← attempt (try_store (GetScenarioRequests scenarioID));
    match raw with
    | Err e =>
        if bool_decide (e = ErrNotFound)
        then mret (Compiler.mkScenarioInput sc "" "" [] ∅ 0 None paths) else throw e
    | Ok raw =>
        match Unmarshal raw with
        | None => throw ErrYAML
        | Some frag =>
            mret (Compiler.mkScenarioInput sc "" (Conf.ts_DefaultAddress frag)
                    (Conf.ts_Requests frag) (Conf.ts_Headers frag) (Conf.ts_Timeout frag)
                    (Conf.ts_KeepAlive frag) paths)
        end
    end
  else mret (Compiler.mkScenarioInput sc "" "" [] ∅ 0 None paths).

(** What pod [i] of [pods] runs: its share of the entry, or its share of every
    step of a staircase, in sequence. *)
Definition pod_tests (entry : Entry) (pods : Z) (i : nat) (sh : Shard) : list Entry * bool :=
  if 1 <? Steps entry then
    ((λ st, with_load entry
              (Z.max 1 (Split (Loadmode.stp_Concurrency st) pods (Z.of_nat i)))
              (Z.max 1 (Split (Loadmode.stp_Throughput st) pods (Z.of_nat i))) 0) <$>
       Loadmode.StaircaseSteps (Concurrency entry) (Throughput entry) (Steps entry), true)
  else ([with_load entry (ShardConcurrency sh) (ShardThroughput sh) (Rampup entry)], false).

Definition pod_input (entry : Entry) (pods : Z) (i : nat) (sh : Shard) (engine : Executor)
    (si : Compiler.ScenarioInput) (headers : gmap string string) (criteria : list string) :
    Compiler.Input :=
  let '(tests, sequential) := pod_tests entry pods i sh in
  Compiler.mkInput tests engine {[ ScenarioID entry := si ]} headers criteria sequential.

(** The loop over the shards; staging a copy of the configuration is best
    effort. *)
Fixpoint compile_pods (entry : Entry) (pods : Z) (engine : Executor)
    (si : Compiler.ScenarioInput) (headers : gmap string string) (criteria : list string)
    (i : nat) (shards : list Shard) : M W error (list ShardSpec) :=
  match shards with
  | [] => mret []
  | sh :: rest =>
      cfg ← lift (Compiler.Taurus (pod_input entry pods i sh engine si headers criteria));
      match Marshal cfg with
      | None => throw ErrYAML
      | Some raw =>
          _ ← ignore (on_objects (Upload (deployedConfigKey (ScenarioID entry) (Index sh)) raw));
          specs ← compile_pods entry pods engine si headers criteria (S i) rest;
          mret (mkShardSpec (Index sh) raw (ShardConcurrency sh) :: specs)
      end
  end.

Definition compileShards (exe : Execution) (entry : Entry) (shards : list Shard)
    (engine : Executor) (headers : gmap string string) :
    M W error (list ShardSpec * gmap string string) :=
  sc ← try_store (GetScenario (ScenarioID entry));
  pf ← read_store (ScenarioFilesFor (ScenarioID entry));
  _ ← guard (bool_decide (Scenario.scn_Kind sc = Scenario.KindNative) &&
             bool_decide (sf_TestFile pf = "")) ErrNoTestFile;
  files ← download_files (ScenarioID entry) (sf_TestFile pf :: sf_Data pf) ∅;
  si ← scenario_input (ScenarioID entry) sc pf;
  criteria ← read_store (CriteriaFor (exe_ID exe));
  specs ← compile_pods entry (Z.of_nat (length shards)) engine si headers criteria 0 shards;
  mret (specs, files).

Definition deploy_entry (coll : Execution) (executionID : Z) (img : string)
    (headers : gmap string string) (ep : Entry) : M W error unit :=
  shards ← lift (Plan ep (Engines ep));
  sf ← compileShards coll ep shards (engineOf coll defaultEngine) headers;
  let '(specs, files) := (sf : list ShardSpec * gmap string string) in
  for_each (Clusters coll) (λ cluster,
    on_cluster (DeployScenario now (mkDeploySpec cluster (exe_ProjectID coll) executionID
      (ScenarioID ep) img (exe_CPU coll) (exe_Memory coll) specs files))).

Definition Deploy (executionID : Z) : M W error unit :=
  coll ← try_store (GetExecution executionID);
  scenarios ← read_store (LoadProfileFor executionID);
  _ ← guard (bool_decide (scenarios = [])) ErrNoScenarios;
  run ← currentRunOf executionID;
  _ ← lift (CanDeploy (DerivePhase 0 (is_running run)));
  img ← lift (image (exe_Engine coll));
  tc ← lift traceContext;
  _ ← on_store (SetPendingCorrelationID executionID (Telemetry.tc_TraceID tc));
  _ ← upd_runs (ClearOrphanCompletions executionID);
  _ ← upd_store (TouchActivity now executionID);
  let headers := Telemetry.Headers tc (Telemetry.mkIdentity (exe_TenantID coll)
                   (exe_ProjectID coll) executionID (Telemetry.tc_TraceID tc)) in
  for_each scenarios (deploy_entry coll executionID img headers).
End deploy.
