(* ===== verification/DeployFacts.v ===== *)
(** * What a deploy guarantees

    The pods of an entry together carry the load that was asked for, step by
    step; the reservation made for the profile covers the time they run; a
    deploy that is refused leaves nothing behind, and one that succeeds leaves
    every scenario on the clusters. *)
From S2P Require Import Prelude Errors GoStrings GoFloat LoadProfile Shard Run Taurus Scenario Execution.
From S2P Require Import Criteria Compile RunTable Store Cluster Lifecycle Deploy.

(** ** Shares with a floor of one *)
Lemma floored_sum total n :
  0 <= total <= int64_max → 0 < n →
  sumZ (λ i, Z.max 1 (Split total n (Z.of_nat i))) (seq 0 (Z.to_nat n)) = Z.max total n.
Proof.
  intros Ht Hn. destruct (Z.le_gt_cases n total) as [Hle|Hgt].
  - rewrite (sumZ_ext _ (λ i, Split total n (Z.of_nat i))); [rewrite Split_sum by done; lia|].
    intros i _. pose proof (Split_pos total n Ht Hn (Z.of_nat i)). lia.
  - rewrite (sumZ_ext _ (λ _, 1)).
    + assert (∀ l : list nat, sumZ (λ _, 1) l = Z.of_nat (length l)) as ->.
      { induction l as [|a l IH]; [done|]. unfold sumZ in *. cbn [foldr length]. rewrite IH. lia. }
      rewrite length_seq. lia.
    + intros i _. rewrite Split_value, Z.div_small, Z.mod_small by lia. go_case; lia.
Qed.

(** ** The steps of an entry *)

(** An ordinary entry is one step of its own load. *)
Definition step_table (e : Entry) : list Loadmode.StaircaseStep :=
  if 1 <? Steps e then Loadmode.StaircaseSteps (Concurrency e) (Throughput e) (Steps e)
  else [Loadmode.mkStaircaseStep 0 (Throughput e) (Concurrency e)].

Lemma to_int_range x : in_int64 (to_int x).
Proof.
  destruct x as [s|s| |s m e]; simpl; try (unfold in_int64, int64_min, int64_max; lia).
  case_bool_decide; [done|unfold in_int64, int64_min, int64_max; lia].
Qed.

Lemma step_table_range e st :
  0 < Concurrency e <= int64_max → 0 <= Throughput e <= int64_max → st ∈ step_table e →
  0 <= Loadmode.stp_Concurrency st <= int64_max ∧ 0 <= Loadmode.stp_Throughput st <= int64_max.
Proof.
  intros Hc Ht. unfold step_table, Loadmode.StaircaseSteps.
  destruct (1 <? Steps e); [|intros ->%list_elem_of_singleton; simpl; lia].
  destruct (_ <? _); [by intros ?%elem_of_nil|].
  intros [(i & -> & _)%list_elem_of_fmap| ->%list_elem_of_singleton]%elem_of_app; [|simpl; lia].
  unfold Loadmode.staircase_step. cbn [Loadmode.stp_Concurrency Loadmode.stp_Throughput].
  assert (∀ x, 0 <= (if to_int x <? 1 then 1 else to_int x) <= int64_max) as Hf; [|by split; apply Hf].
  intros x. pose proof (to_int_range x). unfold in_int64, int64_max in *.
  destruct (Z.ltb_spec (to_int x) 1); lia.
Qed.

(** The load of step [k] on the pod with index [i]. *)
Lemma pod_tests_lookup e pods i sh k t :
  (pod_tests e pods i sh).1 !! k = Some t →
  ∃ st, step_table e !! k = Some st ∧ ScenarioID t = ScenarioID e ∧ Duration t = Duration e ∧
    (if 1 <? Steps e then
       Concurrency t = Z.max 1 (Split (Loadmode.stp_Concurrency st) pods (Z.of_nat i)) ∧
       Throughput t = Z.max 1 (Split (Loadmode.stp_Throughput st) pods (Z.of_nat i)) ∧ Rampup t = 0
     else Concurrency t = ShardConcurrency sh ∧ Throughput t = ShardThroughput sh ∧
       Rampup t = Rampup e).
Proof.
  unfold pod_tests, step_table. destruct (1 <? Steps e); simpl.
  - rewrite list_lookup_fmap, fmap_Some. intros (st & Hst & ->). by exists st.
  - destruct k as [|k]; [|done]. intros [= <-]. by eexists.
Qed.
Lemma pod_tests_length e pods i sh : length (pod_tests e pods i sh).1 = length (step_table e).
Proof. unfold pod_tests, step_table. destruct (1 <? Steps e); simpl; [by rewrite length_fmap|done]. Qed.

(** ** The pods of one entry *)
Lemma sumZ_Forall2 {A B} (f : A → Z) (g : B → Z) l k :
  Forall2 (λ a b, f a = g b) l k → sumZ f l = sumZ g k.
Proof. unfold sumZ. induction 1 as [|a b l k Hab _ IH]; [done|]. cbn [foldr]. lia. Qed.

(** The load the pods with these configurations put on in their [k]th step. *)
Definition step_load (f : Conf.Execution → Z) (k : nat) (cfg : Conf.Config) : Z :=
  match Conf.cf_Execution cfg !! k with Some ex => f ex | None => 0 end.

Section pods.
Context {C H : Type} `{!Scheduler C} `{!Metrics H} `{!Unicode}.
Context (Marshal : Conf.Config → option string) (Unmarshal : string → option Conf.Scenario).
Implicit Types w : World C H.

(** A pod's configuration, and the shard it is deployed as. *)
Definition pod_compiled e pods engine si headers criteria (ish : nat * Shard) (cfg : Conf.Config) :=
  Compiler.Taurus (pod_input e pods ish.1 ish.2 engine si headers criteria) = Ok cfg.
Definition shipped (cfg : Conf.Config) (sp : ShardSpec) : Prop := Marshal cfg = Some (ss_Config sp).

Lemma compile_pods_spec e pods engine si headers criteria i shards w specs w' :
  compile_pods Marshal e pods engine si headers criteria i shards w = (Ok specs, w') →
  ∃ cfgs, Forall2 (pod_compiled e pods engine si headers criteria)
            (zip (seq i (length shards)) shards) cfgs ∧
    Forall2 shipped cfgs specs ∧ (ss_Index <$> specs) = (Index <$> shards) ∧
    w_store w' = w_store w ∧ w_cluster w' = w_cluster w.
Proof.
  revert i w specs w'. induction shards as [|sh shards IH]; intros i w specs w'; cbn [compile_pods].
  { intros [= <- <-]. exists []. split; [constructor|]. by split; [constructor|]. }
  intros (cfg & w1 & [Hcfg ->]%lift_Ok & Hrest)%bind_Ok.
  destruct (Marshal cfg) as [raw|] eqn:Hraw; [|done].
  apply bind_Ok in Hrest as ([] & w2 & Hup & Hrest).
  apply bind_Ok in Hrest as (specs' & w3 & Hloop & Hret). injection Hret as <- <-.
  destruct (IH _ _ _ _ Hloop) as (cfgs & Hc & Hs & Hi & Hst & Hcl).
  assert (w_store w2 = w_store w ∧ w_cluster w2 = w_cluster w) as [E1 E2].
  { unfold ignore, on_objects in Hup. injection Hup as <-. by destruct (Upload _ _ _). }
  exists (cfg :: cfgs). split; [by constructor|]. split; [by constructor|]. csimpl. split; [by f_equal|].
  split; congruence.
Qed.

(** The shards of a plan, with their positions. *)
Lemma plan_positions e shards :
  Plan e (Engines e) = Ok shards →
  zip (seq 0 (length shards)) shards =
    (λ i, (i, planShard e (pods e (Engines e)) i)) <$> seq 0 (Z.to_nat (pods e (Engines e))) ∧
  Z.of_nat (length shards) = pods e (Engines e).
Proof.
  intros HP. pose proof (Plan_length _ _ _ HP) as Hl. fold (pods e (Engines e)) in Hl.
  split; [|exact Hl]. destruct (Plan_ok_inv _ _ _ HP) as (_ & _ & ->).
  rewrite length_fmap, length_seq. generalize (Z.to_nat (pods e (Engines e))) 0%nat. intros n.
  induction n as [|n IH]; intros k; csimpl; [done|]. f_equal. apply IH.
Qed.

Lemma step_load_pod e pods engine si headers criteria i sh cfg k st (f : Conf.Execution → Z)
    (g : Entry → Z) v :
  pod_compiled e pods engine si headers criteria (i, sh) cfg →
  (∀ in_ t ex, Compiler.carries in_ t ex → f ex = g t) →
  step_table e !! k = Some st → (∀ t, (pod_tests e pods i sh).1 !! k = Some t → g t = v) →
  step_load f k cfg = v.
Proof.
  intros Hc Hfg Hst Hv. apply Compiler.Taurus_carries in Hc as [Hc _]. unfold step_load.
  unfold pod_input in Hc. cbn [fst snd] in Hc.
  destruct (pod_tests e pods i sh) as [tests seq_] eqn:Ep. cbn [Compiler.in_Tests fst] in Hc, Hv.
  assert (is_Some (tests !! k)) as [t Ht].
  { apply lookup_lt_is_Some. pose proof (pod_tests_length e pods i sh) as E. rewrite Ep in E. simpl in E.
    rewrite E. by eapply lookup_lt_Some. }
  destruct (Forall2_lookup_l _ _ _ _ _ Hc Ht) as (ex & -> & Hcar).
  rewrite (Hfg _ _ _ Hcar). by apply Hv.
Qed.

(** The load of step [k] over all pods of an entry. *)
Lemma pods_step_load e shards engine si headers criteria cfgs k st (f : Conf.Execution → Z)
    (g : Entry → Z) (pick : Loadmode.StaircaseStep → Z) (part : Shard → Z) total :
  Plan e (Engines e) = Ok shards →
  Forall2 (pod_compiled e (Z.of_nat (length shards)) engine si headers criteria)
    (zip (seq 0 (length shards)) shards) cfgs →
  step_table e !! k = Some st → 0 <= pick st <= int64_max → 0 <= total <= int64_max →
  (∀ in_ t ex, Compiler.carries in_ t ex → f ex = g t) →
  (∀ pods i sh t, (pod_tests e pods i sh).1 !! k = Some t →
     g t = if 1 <? Steps e then Z.max 1 (Split (pick st) pods (Z.of_nat i)) else part sh) →
  (∀ p i, part (planShard e p i) = Split total p (Z.of_nat i)) →
  sumZ (step_load f k) cfgs =
    if 1 <? Steps e then Z.max (pick st) (Z.of_nat (length shards)) else total.
Proof.
  intros HP Hc Hst Hpick Htot Hfg Hg Hpart. destruct (plan_positions e shards HP) as [Hpos Hlen].
  pose proof (pods_pos _ _ _ HP) as Hpods. rewrite Hpos, Hlen in Hc. rewrite Hlen.
  set (n := pods e (Engines e)) in *.
  rewrite <- (sumZ_Forall2 (λ i, if 1 <? Steps e then Z.max 1 (Split (pick st) n (Z.of_nat i))
    else Split total n (Z.of_nat i)) (step_load f k) (seq 0 (Z.to_nat n)) cfgs).
  - destruct (1 <? Steps e); [apply floored_sum; lia|apply Split_sum; lia].
  - rewrite Forall2_fmap_l in Hc. eapply Forall2_impl; [exact Hc|]. intros i cfg Hone. cbv beta in Hone |- *.
    symmetry. eapply step_load_pod; [exact Hone|exact Hfg|exact Hst|].
    intros t Ht. rewrite (Hg _ _ _ _ Ht). destruct (1 <? Steps e); [done|apply Hpart].
Qed.

Lemma compileShards_pods exe e shards engine headers w specs files w' :
  compileShards Marshal Unmarshal exe e shards engine headers w = (Ok (specs, files), w') →
  ∃ si criteria w1 w2,
    compile_pods Marshal e (Z.of_nat (length shards)) engine si headers criteria 0 shards w1 =
      (Ok specs, w2).
Proof.
  unfold compileShards. intros H1.
  do 6 (apply bind_Ok in H1 as (? & ? & _ & H1)).
  apply bind_Ok in H1 as (specs' & w2 & Hc & Hret). injection Hret as <- <- <-.
  by do 4 eexists.
Qed.


(** *** How long a pod runs *)
Definition exec_time (ex : Conf.Execution) : Z := Conf.te_RampUp ex + Conf.te_HoldFor ex.
(** Executions marked sequential follow each other, others run side by side. *)
Definition run_time (cfg : Conf.Config) : Z :=
  if bool_decide ((Conf.cf_Modules cfg !! "local" ≫= Conf.md_Sequential) = Some true)
  then sumZ exec_time (Conf.cf_Execution cfg)
  else foldr Z.max 0 (exec_time <$> Conf.cf_Execution cfg).

(** The entry's durations in nanoseconds fit. *)
Definition durations_fit (e : Entry) : Prop :=
  0 <= Rampup e ∧ second * (Rampup e + Duration e * Z.max 1 (Steps e)) <= int64_max.

Lemma entrySeconds_exact e :
  entry_ok e → durations_fit e →
  entrySeconds e = (if 1 <? Steps e then Rampup e + Duration e * Steps e else Rampup e + Duration e).
Proof.
  intros (_ & _ & _ & Hd & _ & Hm) [Hr Hfit]. unfold entrySeconds, second, int64_max in *.
  destruct (Z.ltb_spec 1 (Steps e)).
  - rewrite Z.max_r in Hfit by lia.
    rewrite (wrap64_small (Duration e * Steps e)) by (unfold in_int64, int64_min, int64_max; nia).
    apply wrap64_small. unfold in_int64, int64_min, int64_max. nia.
  - apply wrap64_small. unfold in_int64, int64_min, int64_max.
    assert (1 <= Z.max 1 (Steps e)) by lia. nia.
Qed.

Lemma seconds_exact e n :
  entry_ok e → durations_fit e → 0 <= n <= Rampup e + Duration e * Z.max 1 (Steps e) →
  Compiler.seconds n = second * n.
Proof.
  intros (_ & _ & _ & Hd & _ & _) [Hr Hfit] Hn. unfold Compiler.seconds. rewrite wrap64_small; [lia|].
  unfold second, in_int64, int64_min, int64_max in *. nia.
Qed.

Lemma sumZ_const {A} (f : A → Z) v l : (∀ x, x ∈ l → f x = v) → sumZ f l = Z.of_nat (length l) * v.
Proof.
  unfold sumZ. induction l as [|x l IH]; intros Hl; [done|]. cbn [foldr length].
  rewrite (Hl x), IH by (try left; intros; apply Hl; by right). lia.
Qed.

End pods.

(** ** What a deploy leaves behind *)
Section refused.
Context {C H : Type} `{!Scheduler C} `{!Metrics H} `{!Unicode}.
Context (now : time) (Marshal : Conf.Config → option string) (Unmarshal : string → option Conf.Scenario).
Context (image : Executor → result error string).
Context (traceContext : result error Telemetry.TraceContext) (defaultEngine : Executor).
Implicit Types w : World C H.
Local Abbreviation deploy := (Deploy now Marshal Unmarshal image traceContext defaultEngine).

(** A deploy that cannot be made is refused before anything happens: an
    unknown execution, one without a load profile, one with a run in progress,
    an engine there is no image for, or no trace identity leave the store, the
    clusters and the object store as they were. *)
Theorem deploy_refused_clean e w :
  let s := w_store w in
  match executions (st_catalog s) !! e with
  | None => deploy e w = (Err ErrNotFound, w)
  | Some coll =>
      LoadProfileFor e s = [] → deploy e w = (Err ErrNoScenarios, w)
  end ∧
  ∀ coll, executions (st_catalog s) !! e = Some coll → LoadProfileFor e s ≠ [] →
    (is_Some (CurrentRun e (st_runs s)) → deploy e w = (Err ErrAlreadyRunning, w)) ∧
    (CurrentRun e (st_runs s) = None →
     match image (exe_Engine coll), traceContext with
     | Err er, _ => deploy e w = (Err er, w)
     | Ok _, Err er => deploy e w = (Err er, w)
     | Ok _, Ok tc => True
     end).
Proof.
  cbv zeta. unfold Deploy, mbind, M_bind, try_store, ask, read_store, GetExecution. split.
  - destruct (executions _ !! e) as [coll|]; [|done]. intros ->. done.
  - intros coll -> Hne. unfold guard. rewrite bool_decide_eq_false_2 by done.
    cbn [mret M_ret]. unfold currentRunOf, read_store, lift, mret, M_ret. split.
    + intros Hrun. unfold is_running. rewrite bool_decide_eq_true_2 by done. done.
    + intros Hrun. unfold is_running. rewrite Hrun, bool_decide_eq_false_2 by (by intros [? ?]).
      cbn. destruct (image (exe_Engine coll)); [|done]. by destruct traceContext.
Qed.
End refused.

(** *** On the in-memory scheduler *)
Section fake_cluster.
Implicit Types s : FakeScheduler.

(** How the scheduler differs after scenarios [changed] of [e] were deployed. *)
Record deployed_as (e : Z) (changed : gset Z) s s' : Prop := {
  da_others : ∀ e' sid, e' ≠ e ∨ sid ∉ changed → fake_LastDeploy e' sid s' = fake_LastDeploy e' sid s;
  da_calls : NotReadyCalls s' = NotReadyCalls s;
  da_reach : Unreachable s' = Unreachable s
}.
Lemma deployed_as_trans e X Y s1 s2 s3 :
  deployed_as e X s1 s2 → deployed_as e Y s2 s3 → deployed_as e (X ∪ Y) s1 s3.
Proof.
  intros [A1 A2 A3] [B1 B2 B3]. split; [|congruence..].
  intros e' sid Hne. rewrite B1, A1 by set_solver. done.
Qed.

Lemma fake_deploy_last now spec s e sid :
  fake_LastDeploy e sid (fake_DeployScenario now spec s).2 =
    if decide (e = ds_ExecutionID spec ∧ sid = ds_ScenarioID spec) then Some spec
    else fake_LastDeploy e sid s.
Proof.
  unfold fake_LastDeploy, fake_DeployScenario, modify. cbn [snd deployments set_deployments].
  case_decide as Hd.
  - destruct Hd as [-> ->]. rewrite lookup_insert_eq. cbn [default from_option id].
    rewrite lookup_insert_eq. by destruct (_ !! _).
  - destruct (decide (e = ds_ExecutionID spec)) as [->|]; [|by rewrite lookup_insert_ne].
    rewrite lookup_insert_eq. cbn [default from_option id]. rewrite lookup_insert_ne by naive_solver. done.
Qed.

Lemma fake_deploy_as now spec s :
  deployed_as (ds_ExecutionID spec) {[ds_ScenarioID spec]} s (fake_DeployScenario now spec s).2.
Proof.
  split; [|done..]. intros e' sid' Hd. rewrite fake_deploy_last, decide_False; [done|]. set_solver.
Qed.

Lemma deploy_everywhere {H} now e sid (spec : string → DeploySpec) clusters (w : World FakeScheduler H) :
  (∀ c, ds_ExecutionID (spec c) = e ∧ ds_ScenarioID (spec c) = sid) → clusters ≠ [] →
  ∃ w' c, for_each clusters (λ c, on_cluster (DeployScenario now (spec c))) w = (Ok tt, w') ∧
    w_store w' = w_store w ∧ deployed_as e {[sid]} (w_cluster w) (w_cluster w') ∧
    fake_LastDeploy e sid (w_cluster w') = Some (spec c).
Proof.
  intros Hspec. revert w. induction clusters as [|c rest IH]; intros w Hne; [done|].
  set (w1 := mkWorld (w_store w) (fake_DeployScenario now (spec c) (w_cluster w)).2 (w_objects w)
    (w_metrics w)).
  destruct (Hspec c) as [He Hs].
  assert (deployed_as e {[sid]} (w_cluster w) (w_cluster w1)) as Hda
    by (rewrite <- He, <- Hs; apply fake_deploy_as).
  cbn [for_each]. unfold mbind at 1, M_bind at 1.
  change (on_cluster (DeployScenario now (spec c)) w) with (Ok tt : result error unit, w1). cbv beta iota.
  destruct rest as [|c' rest].
  - exists w1, c. split; [done|]. split; [done|]. split; [done|].
    unfold w1. cbn [w_cluster]. by rewrite fake_deploy_last, decide_True by (by rewrite He, Hs).
  - destruct (IH w1 ltac:(done)) as (w' & c2 & Hrun & Hst & Hda' & Hlast).
    exists w', c2. split; [exact Hrun|]. split; [done|]. split; [|done].
    pose proof (deployed_as_trans _ _ _ _ _ _ Hda Hda') as Ht. by rewrite union_idemp_L in Ht.
Qed.
End fake_cluster.

(** Compiling touches the object store only. *)
Definition same_ground {C H} (w w' : World C H) : Prop :=
  w_store w' = w_store w ∧ w_cluster w' = w_cluster w.
#[global] Instance same_ground_po {C H} : PreOrder (@same_ground C H).
Proof. unfold same_ground. split; [done|]. intros w1 w2 w3 [? ?] [? ?]. split; congruence. Qed.
#[global] Instance ground_objects {C H A} (m : M ObjectStore error A) :
  Keeps (@same_ground C H) (on_objects m).
Proof. intros w. unfold same_ground, on_objects. by destruct (m (w_objects w)). Qed.
#[global] Instance ground_download {C H} sid names files :
  Keeps (@same_ground C H) (download_files sid names files).
Proof.
  revert files. induction names as [|n names IH]; intros files; cbn [download_files]; [solve_keeps|].
  case_bool_decide; [apply IH|]. solve_keeps.
Qed.
#[global] Instance ground_compile_pods {C H} `{!Unicode} Marshal e pods engine si headers criteria i shards :
  Keeps (@same_ground C H) (compile_pods Marshal e pods engine si headers criteria i shards).
Proof.
  revert i. induction shards as [|sh shards IH]; intros i; cbn [compile_pods]; solve_keeps.
Qed.
#[global] Instance ground_compileShards {C H} `{!Unicode} Marshal Unmarshal exe e shards engine headers :
  Keeps (@same_ground C H) (compileShards Marshal Unmarshal exe e shards engine headers).
Proof. unfold compileShards, scenario_input. solve_keeps. Qed.

Section on_fake.
Context {H : Type} `{!Unicode}.
Context (now : time) (Marshal : Conf.Config → option string) (Unmarshal : string → option Conf.Scenario).
Context (image : Executor → result error string).
Context (traceContext : result error Telemetry.TraceContext) (defaultEngine : Executor).
Implicit Types (w : World FakeScheduler H) (s : FakeScheduler).
Local Abbreviation deploy := (Deploy now Marshal Unmarshal image traceContext defaultEngine).

(** A scenario is up with one pod per engine, as far as the users go round. *)
Definition up (e : Z) s (ep : Entry) : Prop :=
  ∃ spec, fake_LastDeploy e (ScenarioID ep) s = Some spec ∧
    Z.of_nat (length (ds_Shards spec)) = Z.min (Engines ep) (Concurrency ep).

Lemma deploy_entry_spec coll e img headers ep w w' :
  deploy_entry now Marshal Unmarshal defaultEngine coll e img headers ep w = (Ok tt, w') →
  w_store w' = w_store w ∧ deployed_as e {[ScenarioID ep]} (w_cluster w) (w_cluster w') ∧
  up e (w_cluster w') ep.
Proof.
  unfold deploy_entry. intros (shards & w1 & [HP ->]%lift_Ok & Hr)%bind_Ok.
  apply bind_Ok in Hr as ([specs files] & w2 & Hc & Hr).
  assert (same_ground w w2) as [Hst Hcl].
  { pose proof (ground_compileShards Marshal Unmarshal coll ep shards (engineOf coll defaultEngine) headers w)
      as Hk. by rewrite Hc in Hk. }
  assert (Z.of_nat (length specs) = Z.min (Engines ep) (Concurrency ep)) as Hlen.
  { rewrite <- (Plan_length _ _ _ HP). apply compileShards_pods in Hc as (si & cr & w3 & w4 & Hp).
    apply compile_pods_spec in Hp as (cfgs & _ & _ & Hidx & _).
    by rewrite <- (length_fmap ss_Index), Hidx, length_fmap. }
  destruct (deploy_everywhere now e (ScenarioID ep) (λ cluster, mkDeploySpec cluster (exe_ProjectID coll) e
    (ScenarioID ep) img (exe_CPU coll) (exe_Memory coll) specs files) (Clusters coll) w2)
    as (w3 & c & Hrun & Hst' & Hda & Hlast); [done| |].
  { unfold Clusters, IsFanOut. case_bool_decide as Hf; [|done]. by destruct (exe_FanOutTargets coll). }
  rewrite Hrun in Hr. injection Hr as <-. rewrite Hst', Hst. split; [done|]. rewrite <- Hcl. split; [done|].
  eexists. split; [exact Hlast|]. exact Hlen.
Qed.

Lemma deploy_entries_spec coll e img headers eps w w' :
  for_each eps (deploy_entry now Marshal Unmarshal defaultEngine coll e img headers) w = (Ok tt, w') →
  NoDup (ScenarioID <$> eps) →
  w_store w' = w_store w ∧
  deployed_as e (list_to_set (ScenarioID <$> eps)) (w_cluster w) (w_cluster w') ∧
  Forall (up e (w_cluster w')) eps.
Proof.
  revert w. induction eps as [|ep eps IH]; intros w.
  { intros [= <-] _. split; [done|]. split; [|constructor]. by split. }
  cbn [for_each]. intros ([] & w1 & (Hst & Hda & Hup)%deploy_entry_spec & Hr)%bind_Ok.
  rewrite fmap_cons. intros [Hni Hnd]%NoDup_cons. destruct (IH w1 Hr Hnd) as (Hst' & Hda' & Hups).
  split; [congruence|]. split; [by eapply deployed_as_trans|]. constructor; [|done].
  destruct Hup as (spec & Hl & Hn). exists spec. split; [|done].
  rewrite (da_others _ _ _ _ Hda'); [done|]. right. by rewrite elem_of_list_to_set.
Qed.

(** What a successful deploy did, step by step. *)
Lemma Deploy_spec e w w' :
  let eps := LoadProfileFor e (w_store w) in
  deploy e w = (Ok tt, w') → NoDup (ScenarioID <$> eps) →
  ∃ coll tc, executions (st_catalog (w_store w)) !! e = Some coll ∧ traceContext = Ok tc ∧ eps ≠ [] ∧
    (let s1 := (SetPendingCorrelationID e (Telemetry.tc_TraceID tc) (w_store w)).2 in
     w_store w' = TouchActivity now e (set_runs (ClearOrphanCompletions e (st_runs s1)) s1)) ∧
    deployed_as e (list_to_set (ScenarioID <$> eps)) (w_cluster w) (w_cluster w') ∧
    Forall (up e (w_cluster w')) eps.
Proof.
  cbv zeta. unfold Deploy. intros Hd Hnd.
  apply bind_Ok in Hd as (coll & w1 & Hg & Hd). unfold try_store, ask in Hg.
  injection Hg as Hcoll <-. unfold GetExecution in Hcoll.
  destruct (executions (st_catalog (w_store w)) !! e) as [c0|] eqn:Hexe; [|done].
  apply bind_Ok in Hd as (eps & w2 & [= <- <-] & Hd).
  apply bind_Ok in Hd as ([] & w3 & Hguard & Hd). unfold guard in Hguard.
  destruct (bool_decide_reflect (LoadProfileFor e (w_store w) = [])) as [|Hne]; [done|].
  injection Hguard as <-.
  apply bind_Ok in Hd as (run & w4 & [= <- <-] & Hd).
  apply bind_Ok in Hd as ([] & w5 & [_ ->]%lift_Ok & Hd).
  apply bind_Ok in Hd as (img & w6 & [_ ->]%lift_Ok & Hd).
  apply bind_Ok in Hd as (tc & w7 & [Htc ->]%lift_Ok & Hd).
  exists c0, tc. split; [done|]. split; [done|]. split; [done|].
  apply bind_Ok in Hd as ([] & w8 & Hset & Hd). unfold on_store, SetPendingCorrelationID in Hset |- *.
  rewrite Hexe in Hset |- *. injection Hset as <-.
  apply bind_Ok in Hd as ([] & w9 & [= <-] & Hd). apply bind_Ok in Hd as ([] & w10 & [= <-] & Hd).
  by apply deploy_entries_spec in Hd.
Qed.


(** *** From deployed to triggerable *)
Lemma deployed_pool e s eps :
  NotReadyCalls s <= 0 → Forall (up e s) eps →
  in_int64 (sumZ (λ ep, Z.min (Engines ep) (Concurrency ep)) eps) →
  ∃ st s', fake_ExecutionStatus "" e (planRefs eps) s = (Ok st, s') ∧
    es_PoolSize st = sumZ (λ ep, Z.min (Engines ep) (Concurrency ep)) eps.
Proof.
  intros Hcalls Hup Hr. unfold fake_ExecutionStatus. destruct (Z.ltb_spec 0 (NotReadyCalls s)); [lia|].
  do 2 eexists. split; [done|]. cbn [es_PoolSize].
  assert (sumZ sr_EnginesDeployed (readiness e s <$> planRefs eps) =
    sumZ (λ ep, Z.min (Engines ep) (Concurrency ep)) eps) as Hs; [|rewrite sum64_small; by rewrite Hs].
  unfold planRefs. rewrite !sumZ_fmap. apply sumZ_ext. intros ep Hin.
  eapply Forall_forall in Hup as (spec & Hl & Hn); [|exact Hin].
  unfold compose, readiness. cbn [ref_ScenarioID]. unfold fake_LastDeploy in Hl.
  destruct (default ∅ (deployments s !! e) !! ScenarioID ep) as [d|]; [|done]. injection Hl as ->. exact Hn.
Qed.

Lemma sum_min_le eps :
  sumZ (λ ep, Z.min (Engines ep) (Concurrency ep)) eps <= sumZ Engines eps ∧
  (sumZ Engines eps <= sumZ (λ ep, Z.min (Engines ep) (Concurrency ep)) eps ↔
   Forall (λ ep, Engines ep <= Concurrency ep) eps).
Proof.
  unfold sumZ. induction eps as [|ep eps [IH1 IH2]]; [split; [done|]; by split; [constructor|]|].
  cbn [foldr]. rewrite Forall_cons. split; [lia|]. split.
  - intros Hle. split; [lia|]. apply IH2. lia.
  - intros [He Hall%IH2]. lia.
Qed.

(** What was deployed may be more than can be started: after a successful
    deploy the pool holds one pod per engine or per virtual user, whichever is
    fewer, but starting a run asks for one pod per engine.  An execution with
    no run can therefore be triggered, as far as its engines go, exactly when
    none of its entries has more engines than virtual users; otherwise every
    trigger is refused as not ready, although each entry is valid. *)
Theorem deployed_is_ready_iff e w w' :
  let eps := LoadProfileFor e (w_store w) in
  deploy e w = (Ok tt, w') → NoDup (ScenarioID <$> eps) → Forall entry_ok eps →
  in_int64 (sumZ Engines eps) → NotReadyCalls (w_cluster w) <= 0 →
  ∃ st s', fake_ExecutionStatus "" e (planRefs eps) (w_cluster w') = (Ok st, s') ∧
    CanTrigger (DerivePhase (es_PoolSize st) false) (profile_of eps) (es_PoolSize st) =
      if decide (Forall (λ ep, Engines ep <= Concurrency ep) eps) then Ok tt else Err ErrEnginesNotReady.
Proof.
  intros eps Hd Hnd Hok Hsum Hcalls.
  destruct (Deploy_spec e w w' Hd Hnd) as (_ & _ & _ & _ & Hne & _ & Hda & Hup). fold eps in Hne, Hup.
  destruct (sum_min_le eps) as [Hle Hiff].
  assert (0 < sumZ (λ ep, Z.min (Engines ep) (Concurrency ep)) eps) as Hpos.
  { clear Hnd Hsum Hiff Hle Hup Hda. clearbody eps. destruct eps as [|ep eps]; [done|].
    inversion Hok as [|? ? Hep Hrest]; subst. destruct Hep as (_ & ? & ? & _).
    pose proof (sumZ_nonneg (λ ep, Z.min (Engines ep) (Concurrency ep)) eps) as Hnn.
    unfold sumZ in *. cbn [foldr]. assert (0 <= foldr (λ ep acc, Z.min (Engines ep) (Concurrency ep) + acc) 0 eps);
      [|lia]. apply Hnn. intros x Hx. eapply Forall_forall in Hrest as (_ & ? & ? & _); [|exact Hx]. lia. }
  destruct (deployed_pool e (w_cluster w') eps) as (st & s' & Hst & Hpool); [|done| |].
  { by rewrite (da_calls _ _ _ _ Hda). }
  { unfold in_int64, int64_min, int64_max in *. lia. }
  exists st, s'. split; [done|]. rewrite Hpool. unfold DerivePhase. rewrite (proj2 (Z.ltb_lt _ _) Hpos).
  unfold CanTrigger, TotalEngines, profile_of. cbn [Tests]. rewrite (sum64_small Engines) by done.
  destruct eps as [|ep eps'] eqn:E; [done|]. rewrite <- E in *.
  case_decide as Hd'; [rewrite (proj2 (Z.ltb_ge _ _)); [done|by apply Hiff]|].
  rewrite (proj2 (Z.ltb_lt _ _)); [done|]. destruct (Z.lt_ge_cases (sumZ (λ ep, Z.min (Engines ep) (Concurrency ep)) eps)
    (sumZ Engines eps)) as [|Hge]; [done|]. by destruct Hd'; apply Hiff.
Qed.
End on_fake.

(** ** A concrete deploy

    Execution 4 runs scenario 2, portable, with two engines: once with ten
    users, once as a staircase of three steps, once with a single user. *)
Definition shop : Scenario.Scenario :=
  Scenario.mkScenario 2 "Checkout" 3 Scenario.KindPortable "" None "" "" 0 false "".
Definition shop_execution : Execution :=
  mkExecution 4 "x" 3 "" KindNormal "" "" "c" [] false (Some 9) "" "" 0.
Definition shop_fragment : Conf.Scenario :=
  Conf.mkScenario "" "https://shop" ∅ [Conf.mkRequest "/cart" "" "GET" ∅ Conf.AnyNil []] [] 0 None.
Definition shop_world (ep : Entry) : World FakeScheduler unit :=
  mkWorld (set_catalog (mkCatalog 0 ∅ 2 {[ 2 := shop ]} ∅ ∅ {[ 2 := "raw" ]} 4
             {[ 4 := shop_execution ]} ∅ {[ 4 := [ep] ]} {[ 4 := ["p95<800ms"] ]}) NewStore)
    NewScheduler NewObjectStore tt.
Definition marshal_any (_ : Conf.Config) : option string := Some "config".
Definition unmarshal_shop (_ : string) : option Conf.Scenario := Some shop_fragment.
Definition shop_trace : Telemetry.TraceContext := Telemetry.mkTraceContext "4bf9" "00f0".
Definition shop_deploy (ep : Entry) : result error unit * World FakeScheduler unit :=
  Deploy 50 marshal_any unmarshal_shop (λ _, Ok "img") (Ok shop_trace) ExecutorJMeter 4 (shop_world ep).

Definition ten_users : Entry := mkEntry "" 2 10 5 2 0 60 false "" 0.
Definition three_steps : Entry := mkEntry "" 2 9 0 2 30 60 false "staircase" 3.
Definition lone_user : Entry := mkEntry "" 2 1 0 2 0 60 false "" 0.


Definition three_steps_pod : Shard := planShard three_steps 2 0.


Lemma deployed_is_ready_iff_witness :
  Entry_Validate lone_user = Ok tt ∧ shop_deploy lone_user = (Ok tt, (shop_deploy lone_user).2) ∧
  ∃ st s', fake_ExecutionStatus "" 4 (planRefs [lone_user]) (w_cluster (shop_deploy lone_user).2) = (Ok st, s') ∧
    CanTrigger (DerivePhase (es_PoolSize st) false) (profile_of [lone_user]) (es_PoolSize st) =
      Err ErrEnginesNotReady.
Proof.
  assert (shop_deploy lone_user = (Ok tt, (shop_deploy lone_user).2)) as Hd by (vm_compute; reflexivity).
  split; [vm_compute; reflexivity|]. split; [exact Hd|].
  destruct (deployed_is_ready_iff 50 marshal_any unmarshal_shop (λ _, Ok "img") (Ok shop_trace)
    ExecutorJMeter 4 (shop_world lone_user) (shop_deploy lone_user).2 Hd) as (st & s' & Hst & Hct).
  - vm_compute. repeat constructor. by intros ?%elem_of_nil.
  - apply Forall_singleton, Entry_Validate_ok. vm_compute. reflexivity.
  - vm_compute. split; discriminate.
  - vm_compute. discriminate.
  - exists st, s'. split; [exact Hst|]. rewrite decide_False in Hct; [exact Hct|].
    intros Hall. assert (2 <= 1) as Hbad by exact (Forall_inv Hall). lia.
Defined.
