(* ===== verification/LifecycleFacts.v ===== *)
(** * What the lifecycle service guarantees

    [Stop] discharges the quota service's [Stopper] interface; a trigger opens
    a run only when nothing forbids it; teardown, purge, reaping and
    reconciliation touch what they should and nothing else. *)
From S2P Require Import Prelude Errors GoStrings GoFloat LoadProfile Run Taurus Scenario Execution Compile Reservation Quota Campaign RunTable Schedule Calibration Store Cluster ExecutionApp CampaignApp ScheduleApp Lifecycle Deploy.
Import Schedule.Schedule.

(** ** Run tables *)
Definition clear_scenarios (e : Z) (scenarios : list Entry) (t : RunTables) : RunTables :=
  fold_left (λ t ep, ClearScenarioRunning e (ScenarioID ep) t) scenarios t.

Lemma clear_scenarios_same e l t :
  currentRun (clear_scenarios e l t) = currentRun t ∧
  runHistory (clear_scenarios e l t) = runHistory t ∧
  runSeq (clear_scenarios e l t) = runSeq t ∧ orphans (clear_scenarios e l t) = orphans t.
Proof.
  unfold clear_scenarios. revert t. induction l as [|ep l IH]; intros t; [done|].
  cbn [fold_left]. destruct (IH (ClearScenarioRunning e (ScenarioID ep) t)) as (-> & -> & -> & ->).
  done.
Qed.

Lemma clear_scenarios_ok e l t : runs_ok t → runs_ok (clear_scenarios e l t).
Proof.
  destruct (clear_scenarios_same e l t) as (? & ? & ? & _). by apply runs_ok_same_runs.
Qed.

Lemma StopRun_current now e t e' :
  currentRun (StopRun now e t) !! e' = if decide (e' = e) then None else currentRun t !! e'.
Proof.
  unfold StopRun. destruct (currentRun t !! e) as [r|] eqn:E; simpl.
  - case_decide; [subst; apply lookup_delete_eq|by apply lookup_delete_ne].
  - by case_decide; subst.
Qed.

Lemma StopRun_idle now e t : currentRun t !! e = None → StopRun now e t = t.
Proof. intros E. unfold StopRun. by rewrite E. Qed.

Lemma StopRun_twice now e t : StopRun now e (StopRun now e t) = StopRun now e t.
Proof. apply StopRun_idle. by rewrite StopRun_current, decide_True. Qed.

Lemma StopRun_orphans now e t : orphans (StopRun now e t) = orphans t.
Proof. unfold StopRun. by destruct (currentRun t !! e). Qed.

(** ** Teardown *)
Section teardown.
Context {C H : Type} `{!Scheduler C} `{!Metrics H} `{!MetricsLaws H}.
Context (now : time).
Implicit Types w : World C H.
Local Abbreviation runs w := (st_runs (w_store w)).
Local Abbreviation ledger w := (st_ledger (w_store w)).

(** What tearing a run down changes, and what it leaves alone. *)
Record torn (e : Z) (w w' : World C H) : Prop := {
  td_runs : runs w' =
    StopRun now e (clear_scenarios e (LoadProfileFor e (w_store w)) (runs w));
  td_ledger : ledger w' = ReleaseReservationsForExecution e (ledger w);
  td_catalog : st_catalog (w_store w') = st_catalog (w_store w);
  td_campaigns : st_campaigns (w_store w') = st_campaigns (w_store w);
  td_schedules : st_schedules (w_store w') = st_schedules (w_store w);
  td_calibrations : st_calibrations (w_store w') = st_calibrations (w_store w);
  td_cluster : w_cluster w' = w_cluster w;
  td_objects : w_objects w' = w_objects w
}.

Lemma for_each_upd_runs {A} (l : list A) (f : A → RunTables → RunTables) w :
  for_each l (λ x, upd_runs (f x)) w =
    (Ok tt, set_store (set_runs (fold_left (λ t x, f x t) l (runs w)) (w_store w)) w).
Proof using.
  revert w. induction l as [|x l IH]; intros w; simpl; [by destruct w as [[]]|].
  unfold mbind, M_bind, upd_runs, upd_store. fold (@upd_runs C H). by rewrite IH.
Qed.

Lemma FinishLaunch_same vu e s :
  let s' := FinishLaunch now e vu s in
  st_catalog s' = st_catalog s ∧ st_activity s' = st_activity s ∧ st_runs s' = st_runs s ∧
  st_ledger s' = st_ledger s ∧ st_campaigns s' = st_campaigns s ∧
  st_schedules s' = st_schedules s ∧ st_calibrations s' = st_calibrations s.
Proof using. unfold FinishLaunch. by destruct (openLaunch _ !! e). Qed.

(** Teardown always completes. *)
Lemma teardown_spec e w : ∃ w', teardown now e w = (Ok tt, w') ∧ torn e w w'.
Proof using All.
  unfold teardown, mbind, M_bind, read_store.
  unfold upd_store at 1. rewrite for_each_upd_runs. unfold upd_store at 1.
  simpl. set (s2 := FinishLaunch _ _ _ _).
  assert (st_catalog s2 = st_catalog (w_store w) ∧
    st_runs s2 = clear_scenarios e (LoadProfileFor e (w_store w)) (runs w) ∧
    st_ledger s2 = ledger w ∧ st_campaigns s2 = st_campaigns (w_store w) ∧
    st_schedules s2 = st_schedules (w_store w) ∧
    st_calibrations s2 = st_calibrations (w_store w)) as (L1 & L3 & L4 & L5 & L6 & L7).
  { unfold s2. edestruct FinishLaunch_same as (-> & _ & -> & -> & -> & -> & ->). done. }
  unfold ignore at 1, Release, modify. simpl.
  unfold currentRunOf, read_store. simpl. rewrite L3.
  assert (∀ r t, st_runs t = clear_scenarios e (LoadProfileFor e (w_store w)) (runs w) ∨
    CurrentRun e (clear_scenarios e (LoadProfileFor e (w_store w)) (runs w)) = Some r ∧
    st_runs t = StopRun now e (clear_scenarios e (LoadProfileFor e (w_store w)) (runs w)) →
    StopRun now e (st_runs t) =
    StopRun now e (clear_scenarios e (LoadProfileFor e (w_store w)) (runs w))) as Hstop.
  { intros r t [->|[_ ->]]; [done|apply StopRun_twice]. }
  destruct (CurrentRun e _) as [r|] eqn:Hr.
  - unfold ignore, on_metrics. simpl. set (s3 := set_ledger _ _).
    pose proof (finalize_ok now e r s3 (w_metrics w)) as [F1 F2 F3 F4 F5 F6 F7 F8].
    destruct (Finalize now e r (s3, w_metrics w)) as [res [s4 h4]]. simpl in *.
    eexists. split; [done|]. rewrite L3 in F8. split; simpl; try congruence.
    apply (Hstop r). by rewrite Hr in F8.
  - eexists. split; [done|]. split; simpl; congruence.
Qed.

Lemma torn_runs_ok e w w' : torn e w w' → runs_ok (runs w) → runs_ok (runs w').
Proof using. intros Ht Hok. rewrite (td_runs _ _ _ Ht). by apply StopRun_ok, clear_scenarios_ok. Qed.

Lemma torn_current e w w' e' :
  torn e w w' →
  currentRun (runs w') !! e' = if decide (e' = e) then None else currentRun (runs w) !! e'.
Proof using.
  intros Ht. rewrite (td_runs _ _ _ Ht), StopRun_current.
  by destruct (clear_scenarios_same e (LoadProfileFor e (w_store w)) (runs w)) as (-> & _).
Qed.

(** ** Stop *)
Lemma Stop_spec e w :
  match CurrentRun e (runs w) with
  | None => Stop now e w = (Err ErrNotRunning, w)
  | Some _ => ∃ w', Stop now e w = (Ok tt, w') ∧ torn e w w'
  end.
Proof using All.
  unfold Stop, mbind, M_bind, currentRunOf, read_store, lift, is_running.
  destruct (CurrentRun e (runs w)) as [r|] eqn:E.
  - rewrite (proj2 (CanStop_ok 0 _)) by (by apply bool_decide_eq_true_2). apply teardown_spec.
  - done.
Qed.

#[global] Instance stop_laws : StopperLaws (S := World C H) (Stop now).
Proof using All.
  split.
  - intros e w. pose proof (Stop_spec e w) as Hs. destruct (CurrentRun e (runs w)).
    + destruct Hs as (w' & -> & Ht). simpl. rewrite (td_ledger _ _ _ Ht). apply ledger_sub_release.
    + by rewrite Hs.
  - intros e w e' x. pose proof (Stop_spec e w) as Hs. destruct (CurrentRun e (runs w)).
    + destruct Hs as (w' & -> & Ht). simpl. rewrite (torn_current e w w') by done.
      by case_decide.
    + by rewrite Hs.
  - intros e w w' r Hstop Hr. pose proof (Stop_spec e w) as Hs. destruct (CurrentRun e (runs w)).
    + destruct Hs as (w1 & E & Ht). rewrite E in Hstop. injection Hstop as ->. simpl in Hr.
      rewrite (td_ledger _ _ _ Ht) in Hr. by apply rows_release_In in Hr as [_ ?].
    + by rewrite Hs in Hstop.
Qed.

#[global] Instance stop_frame : StopFrame (C := C) (H := H) (Stop now).
Proof using All.
  split; intros e w; pose proof (Stop_spec e w) as Hs; destruct (CurrentRun e (runs w));
    try (by rewrite Hs); destruct Hs as (w' & -> & Ht).
  - apply (td_schedules _ _ _ Ht).
  - apply (td_catalog _ _ _ Ht).
Qed.
End teardown.

(** ** Calm handlers

    A handler is calm when it only frees capacity, keeps the run tables
    well-formed, and leaves the catalogue, the campaigns, the schedules and the
    calibration jobs alone. *)
Section calm.
Context {C H : Type} `{!Scheduler C} `{!Metrics H} `{!MetricsLaws H}.
Implicit Types w : World C H.
Local Abbreviation runs w := (st_runs (w_store w)).
Local Abbreviation ledger w := (st_ledger (w_store w)).

Record calm (w w' : World C H) : Prop := {
  calm_ledger : ledger_sub (ledger w') (ledger w);
  calm_runs : runs_ok (runs w) → runs_ok (runs w');
  calm_catalog : st_catalog (w_store w') = st_catalog (w_store w);
  calm_campaigns : st_campaigns (w_store w') = st_campaigns (w_store w);
  calm_schedules : st_schedules (w_store w') = st_schedules (w_store w);
  calm_calibrations : st_calibrations (w_store w') = st_calibrations (w_store w)
}.

#[global] Instance calm_po : PreOrder calm.
Proof using.
  split; [done|]. intros w1 w2 w3 [L1 R1 ? ? ? ?] [L2 R2 ? ? ? ?].
  split; [by apply (transitivity L2 L1)|auto|congruence..].
Qed.

(** Calm because only the clusters, the objects or the metrics state moved. *)
Lemma calm_same_store w w' : w_store w' = w_store w → calm w w'.
Proof using. intros E. split; by rewrite ?E. Qed.

#[global] Instance calm_cluster {A} (m : M C error A) : Keeps calm (on_cluster m).
Proof using.
  intros w. apply calm_same_store, (store_cluster m).
Qed.
#[global] Instance calm_objects {A} (m : M ObjectStore error A) : Keeps calm (on_objects m).
Proof using.
  intros w. apply calm_same_store, (store_objects m).
Qed.
#[global] Instance calm_metrics_purge f :
  Keeps calm (on_metrics (modify (λ sh : Store * H, (sh.1, f sh.2)))).
Proof using. intros w. by apply calm_same_store. Qed.

Lemma calm_finalize now e r (m : M (Store * H) error unit) :
  (∀ s h, finalize_frame now e r s (m (s, h)).2.1) → Keeps calm (on_metrics m).
Proof using.
  intros Hm w. unfold on_metrics. specialize (Hm (w_store w) (w_metrics w)).
  destruct (m (w_store w, w_metrics w)) as [res [s h]]. simpl in *.
  destruct Hm as [? ? HL ? ? ? ? HR]. split; simpl; try done; [by rewrite HL|].
  destruct HR as [->|[_ ->]]; [done|apply StopRun_ok].
Qed.
#[global] Instance calm_Finalize now e r : Keeps calm (on_metrics (Finalize now e r)).
Proof using MetricsLaws0. eapply calm_finalize. intros. apply finalize_ok. Qed.
#[global] Instance calm_FinalizeOrphaned now e r os :
  Keeps calm (on_metrics (FinalizeOrphaned now e r os)).
Proof using MetricsLaws0. eapply calm_finalize. intros. apply finalize_orphaned_ok. Qed.

#[global] Instance calm_StopRun now e : Keeps calm (upd_runs (StopRun now e)).
Proof using. intros w. split; try done. apply StopRun_ok. Qed.
#[global] Instance calm_clear_orphans e : Keeps calm (upd_runs (ClearOrphanCompletions e)).
Proof using. intros w. split; try done. by apply runs_ok_same_runs. Qed.
#[global] Instance calm_touch now e : Keeps calm (upd_store (TouchActivity now e)).
Proof using. by intros w. Qed.
#[global] Instance calm_release e : Keeps calm (Release (S := World C H) e).
Proof using. intros w. split; try done. apply ledger_sub_release. Qed.

Lemma torn_calm now e w w' : torn now e w w' → calm w w'.
Proof using.
  intros Ht. pose proof (torn_runs_ok now e w w' Ht). destruct Ht as [_ HL ? ? ? ? _ _].
  split; try done. rewrite HL. apply ledger_sub_release.
Qed.
#[global] Instance calm_teardown now e : Keeps calm (teardown now e).
Proof using All.
  intros w. destruct (teardown_spec now e w) as (w' & -> & Ht). by eapply torn_calm.
Qed.
#[global] Instance calm_Stop now e : Keeps calm (Stop now e).
Proof using All.
  intros w. pose proof (Stop_spec now e w) as Hs. destruct (CurrentRun e (runs w)).
  - destruct Hs as (w' & -> & Ht). by eapply torn_calm.
  - by rewrite Hs.
Qed.
End calm.

Section handlers.
Context {C H : Type} `{!Scheduler C} `{!Metrics H} `{!MetricsLaws H}.
Context (now : time).

#[global] Instance calm_captureLogs e r : Keeps (calm (C := C) (H := H)) (captureLogs e r).
Proof using. unfold captureLogs. solve_keeps. Qed.
#[global] Instance calm_teardownAndCapture e :
  Keeps (calm (C := C) (H := H)) (teardownAndCapture now e).
Proof using All. unfold teardownAndCapture. solve_keeps. Qed.
#[global] Instance calm_Purge e : Keeps (calm (C := C) (H := H)) (Purge now e).
Proof using All. unfold Purge. solve_keeps. Qed.
#[global] Instance calm_status_loop e refs cls p d b :
  Keeps (calm (C := C) (H := H)) (status_loop e refs cls p d b).
Proof using. revert p d b. induction cls as [|c cls IH]; intros; simpl; solve_keeps. Qed.
#[global] Instance calm_status exe e refs :
  Keeps (calm (C := C) (H := H)) (executionStatusAcross exe e refs).
Proof using. unfold executionStatusAcross. solve_keeps. Qed.
#[global] Instance calm_ready exe e refs :
  Keeps (calm (C := C) (H := H)) (requireEveryClusterReady exe e refs).
Proof using. unfold requireEveryClusterReady. solve_keeps. Qed.
#[global] Instance calm_reapIfIdle e c d ttl : Keeps (calm (C := C) (H := H)) (reapIfIdle now e c d ttl).
Proof using All. unfold reapIfIdle, currentRunOf, calibrating. solve_keeps. Qed.
#[global] Instance calm_reap_deployed c ttl l st :
  Keeps (calm (C := C) (H := H)) (reap_deployed now c ttl l st).
Proof using All.
  revert st. induction l as [|[e d] l IH]; intros [[seen reaped] err]; simpl; solve_keeps.
Qed.
#[global] Instance calm_reap_clusters ttl l st :
  Keeps (calm (C := C) (H := H)) (reap_clusters now ttl l st).
Proof using All. revert st. induction l as [|c l IH]; intros st; simpl; solve_keeps. Qed.
#[global] Instance calm_ReapIdle ttl l : Keeps (calm (C := C) (H := H)) (ReapIdle now ttl l).
Proof using All. unfold ReapIdle. solve_keeps. Qed.
#[global] Instance calm_reconcile_one o : Keeps (calm (C := C) (H := H)) (reconcile_one now o).
Proof using All. unfold reconcile_one. solve_keeps. Qed.
#[global] Instance calm_Reconcile : Keeps (calm (C := C) (H := H)) (Reconcile now).
Proof using All. unfold Reconcile. solve_keeps. Qed.
#[global] Instance calm_abandon_one after o : Keeps (calm (C := C) (H := H)) (abandon_one now after o).
Proof using All.
  unfold abandon_one. destruct (bool_decide _); [apply _|]. apply keeps_bind; [apply _|by intros w|].
  intros [[]|[]]; solve_keeps.
Qed.
#[global] Instance calm_abandon_loop after l cl :
  Keeps (calm (C := C) (H := H)) (abandon_loop now after l cl).
Proof using All. revert cl. induction l as [|o l IH]; intros cl; simpl; solve_keeps. Qed.
#[global] Instance calm_ReconcileAbandoned after :
  Keeps (calm (C := C) (H := H)) (ReconcileAbandoned now after).
Proof using All. unfold ReconcileAbandoned. solve_keeps. Qed.
#[global] Instance calm_ensureTestFiles l : Keeps (calm (C := C) (H := H)) (ensureTestFiles l).
Proof using. unfold ensureTestFiles. solve_keeps. Qed.
#[global] Instance calm_trigger_checks e : Keeps (calm (C := C) (H := H)) (trigger_checks now e).
Proof using. unfold trigger_checks, currentRunOf. solve_keeps. Qed.

(** *** Deploying *)
#[global] Instance calm_pending e id :
  Keeps (calm (C := C) (H := H)) (on_store (SetPendingCorrelationID e id)).
Proof using.
  intros w. unfold on_store, SetPendingCorrelationID. destruct (_ !! e); by split.
Qed.
#[global] Instance calm_download sid names files :
  Keeps (calm (C := C) (H := H)) (download_files sid names files).
Proof using.
  revert files. induction names as [|n names IH]; intros files; cbn [download_files]; [solve_keeps|].
  case_bool_decide; [apply IH|]. solve_keeps.
Qed.
#[global] Instance calm_compile_pods `{!Unicode} Marshal ep pods engine si headers criteria i shards :
  Keeps (calm (C := C) (H := H)) (compile_pods Marshal ep pods engine si headers criteria i shards).
Proof using. revert i. induction shards as [|sh shards IH]; intros i; cbn [compile_pods]; solve_keeps. Qed.
#[global] Instance calm_deploy_entry `{!Unicode} Marshal Unmarshal eng coll e img headers ep :
  Keeps (calm (C := C) (H := H)) (deploy_entry now Marshal Unmarshal eng coll e img headers ep).
Proof using. unfold deploy_entry, compileShards, scenario_input. solve_keeps. Qed.
#[global] Instance calm_Deploy `{!Unicode} Marshal Unmarshal image tc eng e :
  Keeps (calm (C := C) (H := H)) (Deploy now Marshal Unmarshal image tc eng e).
Proof using. unfold Deploy, currentRunOf. solve_keeps. Qed.
#[global] Instance calm_snapshotConfigs r l : Keeps (calm (C := C) (H := H)) (snapshotConfigs r l).
Proof using. unfold snapshotConfigs. solve_keeps. Qed.
End handlers.

(** ** The composed system *)
Section system.
Context {C H : Type} `{!Scheduler C} `{!Metrics H} `{!MetricsLaws H}.
Context (ParseQuantity : string → option Quantity).
Context (ParseStandard : string → option Schedule.CronSchedule).
Implicit Types w : World C H.
Local Abbreviation runs w := (st_runs (w_store w)).
Local Abbreviation ledger w := (st_ledger (w_store w)).

(** Both guarantees of the shared tables. *)
Definition sound (w : World C H) : Prop := within_quota (ledger w) ∧ runs_ok (runs w).

Lemma calm_sound w w' : calm w w' → sound w → sound w'.
Proof using.
  intros Hc [Hq Hr]. split; [|by apply (calm_runs _ _ Hc)].
  eapply within_quota_sub; [apply (calm_ledger _ _ Hc)|done].
Qed.

(** Run tables stay well-formed. *)
Definition runs_kept (w w' : World C H) : Prop := runs_ok (runs w) → runs_ok (runs w').
#[global] Instance runs_kept_po : PreOrder runs_kept.
Proof using. unfold runs_kept. split; [intros w; auto|]. intros w1 w2 w3; auto. Qed.

Lemma Reserve_sound now tenant cluster count start end_ exec w :
  fits (ledger w) count → sound w →
  let w' := (Reserve (Stop now) now tenant cluster count start end_ exec w).2 in
  sound w' ∧ ledger_total (ledger w') <= ledger_total (ledger w) + Z.max 0 count.
Proof using MetricsLaws0 Scheduler0.
  intros Hfit [Hq Hr] w'.
  destruct (Reserve_within (S := World C H) (Stop now) now tenant cluster count start end_ exec w)
    as [Hq' Ht]; [done|done|].
  split; [|done]. split; [done|].
  assert (runs_kept w w') as Hk; [|by apply Hk]. unfold w'.
  apply (Reserve_preserves (S := World C H) (Stop now) runs_kept).
  - intros l w0. by unfold runs_kept.
  - intros e w0. exact (calm_runs _ _ (calm_Stop now e w0)).
Qed.

(** Room for [n] more engines in every sum admission takes. *)
Definition roomy (l : Ledger) (n : Z) : Prop := 2 * (ledger_total l + n) <= int64_max.

Lemma roomy_fits l n m : roomy l (n + m) → 0 <= m → fits l n.
Proof using. unfold roomy, fits. lia. Qed.

Lemma reserve_clusters_sound now tenant units start end_ exec clusters w :
  roomy (ledger w) (Z.of_nat (length clusters) * Z.max 0 units) → sound w →
  sound (reserve_clusters now tenant units start end_ exec clusters w).2.
Proof using MetricsLaws0 Scheduler0.
  unfold reserve_clusters. revert w.
  induction clusters as [|c cls IH]; intros w Hroom Hs; [done|].
  cbn [for_each]. unfold mbind at 1, M_bind at 1. unfold mbind at 1, M_bind at 1, attempt.
  assert (fits (ledger w) units) as Hfit.
  { unfold roomy, fits in *. cbn [length] in Hroom. lia. }
  destruct (Reserve_sound now tenant c units start end_ exec w Hfit Hs) as [Hs' Ht].
  destruct (Reserve (Stop now) now tenant c units start end_ exec w) as [[r|e] w1]; simpl in Hs', Ht.
  - apply IH; [|done]. unfold roomy in *. cbn [length] in Hroom. lia.
  - cbn. eapply calm_sound; [|exact Hs']. apply (calm_release exec).
Qed.

Lemma trigger_start_sound now coll e scenarios w :
  sound w → sound (trigger_start now coll e scenarios w).2.
Proof using.
  intros Hs. unfold trigger_start, mbind, M_bind, try_store, ask.
  destruct (PendingCorrelationID e (w_store w)) as [cid|]; [|done].
  unfold on_runs, on_store at 1.
  assert (runs_ok (StartRun now e cid (runs w)).2) as Hr1 by (apply StartRun_ok, Hs).
  destruct (StartRun now e cid (runs w)) as [[runID|] t1]; [|split; [apply Hs|done]].
  unfold upd_store at 1. cbv beta iota zeta. set (w1 := set_store (TouchActivity _ _ _) _).
  assert (sound w1) as Hs1 by (split; [apply Hs|done]).
  pose proof (calm_snapshotConfigs runID scenarios w1) as Hc.
  destruct (snapshotConfigs runID scenarios w1) as [[[]|] w2]; simpl in Hc;
    [|by eapply calm_sound].
  pose proof (calm_sound _ _ Hc Hs1) as Hs2.
  assert (∀ l n w0, sound w0 →
    ∃ k w3, mark_all now e l n w0 = (Ok k, w3) ∧ sound w3) as Hmark.
  { induction l as [|ep l IH]; intros n w0 H0; cbn [mark_all]; [eauto|].
    unfold mbind, M_bind, attempt, on_runs, on_store.
    assert (runs_ok (MarkScenarioRunning now e (ScenarioID ep) (runs w0)).2).
    { eapply run_step_ok; [apply run_mark|apply H0]. }
    destruct (MarkScenarioRunning _ _ _ _) as [r t]. apply IH. split; [apply H0|done]. }
  destruct (Hmark scenarios 0%nat w2 Hs2) as (k & w3 & -> & Hs3).
  assert (∃ w4, (if bool_decide (k = length scenarios) then upd_runs (StopRun now e) else mret tt)
    w3 = (Ok tt, w4) ∧ sound w4) as (w4 & -> & Hs4).
  { destruct (bool_decide _); eexists; (split; [done|]); [|done].
    split; [apply Hs3|]. apply StopRun_ok, Hs3. }
  unfold guard. destruct (bool_decide (k ≠ 0%nat)); [done|]. cbn. unfold attempt.
  destruct (GetProject _ _); [|done]. unfold ignore. cbn. unfold on_store, StartLaunch.
  destruct (openLaunch _ !! e); cbn; done.
Qed.

(** Everything an execution's trigger would reserve fits Go's [int]. *)
Definition trigger_fits (e : Z) (w : World C H) : Prop :=
  ∀ coll units, executions (st_catalog (w_store w)) !! e = Some coll →
    engineEquivalents ParseQuantity (exe_CPU coll) (exe_Memory coll)
      (TotalEngines (profile_of (LoadProfileFor e (w_store w)))) = Ok units →
    roomy (ledger w) (Z.of_nat (length (Clusters coll)) * Z.max 0 units).

(** What passing the checks means. *)
Record may_trigger (now : time) (e : Z) (w : World C H) (coll : Execution)
    (scenarios : list Entry) (w' : World C H) : Prop := {
  mt_execution : executions (st_catalog (w_store w)) !! e = Some coll;
  mt_profile : scenarios = LoadProfileFor e (w_store w);
  mt_nonempty : scenarios ≠ [];
  mt_thawed : IsFrozen now (exe_ProjectID coll) e (w_store w) = None;
  mt_idle : CurrentRun e (runs w) = None;
  mt_fresh : OrphanCompletions e (runs w) = [];
  mt_ready : ∃ status w1, executionStatusAcross coll e (planRefs scenarios) w = (Ok status, w1) ∧
    0 < es_PoolSize status ∧ TotalEngines (profile_of scenarios) <= es_PoolSize status;
  mt_store : w_store w' = w_store w
}.

#[global] Instance store_status_loop e refs cls p d b :
  Keeps (same_store (C := C) (H := H)) (status_loop e refs cls p d b).
Proof using. revert p d b. induction cls as [|c cls IH]; intros; simpl; solve_keeps. Qed.
#[global] Instance store_status exe e refs :
  Keeps (same_store (C := C) (H := H)) (executionStatusAcross exe e refs).
Proof using. unfold executionStatusAcross. solve_keeps. Qed.
#[global] Instance store_ready exe e refs :
  Keeps (same_store (C := C) (H := H)) (requireEveryClusterReady exe e refs).
Proof using. unfold requireEveryClusterReady. solve_keeps. Qed.
#[global] Instance store_ensureTestFiles l :
  Keeps (@eq (World C H)) (ensureTestFiles (C := C) (H := H) l).
Proof using. unfold ensureTestFiles. solve_keeps. Qed.

Lemma trigger_checks_ok now e w coll scenarios w' :
  trigger_checks now e w = (Ok (coll, scenarios), w') → may_trigger now e w coll scenarios w'.
Proof using.
  unfold trigger_checks. intros (coll0 & w0 & Hget & Hrest)%bind_Ok.
  unfold try_store, ask, GetExecution in Hget.
  destruct (executions (st_catalog (w_store w)) !! e) as [c|] eqn:He; [|done].
  injection Hget as -> ->. apply bind_Ok in Hrest as (fr & w0' & [= <- <-] & Hrest).
  apply bind_Ok in Hrest as ([] & w2 & Hfr & Hrest).
  destruct (IsFrozen now (exe_ProjectID coll0) e (w_store w0)) eqn:Hfz; [done|].
  injection Hfr as <-. apply bind_Ok in Hrest as (sc & w3 & [= <- <-] & Hrest).
  apply bind_Ok in Hrest as ([] & w4 & Hens & Hrest).
  pose proof (store_ensureTestFiles (LoadProfileFor e (w_store w0)) w0) as Heq.
  rewrite Hens in Heq. simpl in Heq. subst w4.
  apply bind_Ok in Hrest as (run & w5 & [= <- <-] & Hrest).
  apply bind_Ok in Hrest as (status & w6 & Hst & Hrest).
  pose proof (store_status coll0 e (planRefs (LoadProfileFor e (w_store w0))) w0) as Hs6.
  rewrite Hst in Hs6. unfold same_store in Hs6. simpl in Hs6.
  apply bind_Ok in Hrest as ([] & w7 & Hfan & Hrest).
  assert (w_store w7 = w_store w0) as Hs7.
  { destruct (IsFanOut coll0); [|by injection Hfan as <-].
    pose proof (store_ready coll0 e (planRefs (LoadProfileFor e (w_store w0))) w6) as Hr7.
    rewrite Hfan in Hr7. unfold same_store in Hr7. simpl in Hr7. congruence. }
  apply bind_Ok in Hrest as ([] & w8 & Hcan & Hrest).
  unfold lift in Hcan. injection Hcan as Hcan <-. apply CanTrigger_ok in Hcan.
  destruct Hcan as (Htests & Hrun & Hpool & Htot).
  apply bind_Ok in Hrest as (orph & w9 & [= <- <-] & Hrest).
  apply bind_Ok in Hrest as ([] & w10 & Hg & Hret). unfold guard in Hg.
  destruct (bool_decide_reflect (OrphanCompletions e (runs w7) = [])) as [Horph|]; [|done].
  injection Hg as <-. injection Hret as <- <- <-.
  apply bool_decide_eq_false in Hrun. rewrite Hs7 in Horph.
  split; try done; [by destruct (CurrentRun e (runs w0)); [destruct Hrun|]|eauto].
Qed.

(** Everything a schedule would book for the window fits Go's [int]. *)
Definition booking_fits (sc : Schedule) (from to : time) (w : World C H) : Prop :=
  ∀ times, Occurrences ParseStandard sc from to = Ok times →
    roomy (ledger w) (Z.of_nat (length times) *
      Z.max 0 (TotalEngines (profile_of (LoadProfileFor (sch_ExecutionID sc) (w_store w))))).

(** The rest of the service, one step at a time; handlers interleave, and each
    runs at its own instant. *)
Inductive system_step : World C H → World C H → Prop :=
| sys_trigger now e w :
    trigger_fits e w → system_step w (Trigger now ParseQuantity e w).2
| sys_deploy `{!Unicode} now Marshal Unmarshal image tc eng e w :
    system_step w (Deploy now Marshal Unmarshal image tc eng e w).2
| sys_stop now e w : system_step w (Stop now e w).2
| sys_purge now e w : system_step w (Purge now e w).2
| sys_reap now ttl clusters w : system_step w (ReapIdle now ttl clusters w).2
| sys_reconcile now w : system_step w (Reconcile now w).2
| sys_abandoned now after w : system_step w (ReconcileAbandoned now after w).2
| sys_claim now w : system_step w (ClaimDue now w).2
| sys_delete_schedule id w : system_step w (ScheduleApp.Delete id w).2
| sys_create_schedule now sc w :
    booking_fits sc now (now + horizonDays * day) w →
    system_step w (ScheduleApp.Create ParseStandard (Stop now) now sc w).2
| sys_extend now sc to w :
    (∀ from, booking_fits sc from to w) →
    system_step w (extendOne ParseStandard (Stop now) now sc to w).2
| sys_other w w' :
    ledger w' = ledger w → (runs_ok (runs w) → runs_ok (runs w')) → system_step w w'.

Lemma Trigger_sound now e w :
  trigger_fits e w → sound w → sound (Trigger now ParseQuantity e w).2.
Proof using MetricsLaws0 Scheduler0.
  intros Hfit Hs. unfold Trigger, mbind, M_bind.
  pose proof (calm_trigger_checks now e w) as Hc.
  destruct (trigger_checks now e w) as [[[coll scenarios]|er] w1] eqn:Hck;
    [|by eapply calm_sound].
  pose proof (calm_sound _ _ Hc Hs) as Hs1. simpl in Hs1.
  destruct (trigger_checks_ok _ _ _ _ _ _ Hck) as [Hexe -> _ _ _ _ _ Hst].
  assert (sound (trigger_reserve now ParseQuantity coll e (LoadProfileFor e (w_store w)) w1).2)
    as Hs2.
  { unfold trigger_reserve. destruct (exe_TenantID coll) as [tenant|]; [|done].
    unfold mbind, M_bind, lift. destruct (engineEquivalents _ _ _ _) as [units|] eqn:Hu; [|done].
    apply reserve_clusters_sound; [|done]. rewrite Hst. by apply (Hfit coll units). }
  destruct (trigger_reserve _ _ _ _ _ w1) as [[[]|er] w2]; [|done]. by apply trigger_start_sound.
Qed.

(** Both guarantees are kept. *)
Definition sound_kept (w w' : World C H) : Prop := sound w → sound w'.
#[global] Instance sound_kept_po : PreOrder sound_kept.
Proof using. unfold sound_kept. split; [intros w; auto|]. intros w1 w2 w3; auto. Qed.

#[global] Instance sound_drop rid : Keeps (S := World C H) sound_kept (drop_reservation rid).
Proof using.
  intros w [Hq Hr]. rewrite drop_reservation_spec. split; [|done]. simpl.
  eapply within_quota_sub; [apply ledger_sub_delete|done].
Qed.
#[global] Instance sound_on_schedules {A} (f : ScheduleTable → result error A * ScheduleTable) :
  Keeps (S := World C H) sound_kept (on_schedules f).
Proof using.
  intros w Hs. unfold on_schedules, on_store. by destruct (f (st_schedules (w_store w))).
Qed.
#[global] Instance sound_ClaimDue at_ : Keeps (S := World C H) sound_kept (ClaimDue at_).
Proof using. unfold ClaimDue, ScheduleApp.Get. solve_keeps. Qed.
#[global] Instance sound_Delete id : Keeps (S := World C H) sound_kept (ScheduleApp.Delete id).
Proof using. unfold ScheduleApp.Delete, read_schedules. solve_keeps. Qed.

Lemma booking_sound now sc cluster profile window times w :
  roomy (ledger w) (Z.of_nat (length times) * Z.max 0 (TotalEngines profile)) → sound w →
  sound (reserve_loop (Stop now) now sc cluster profile window times w).2.
Proof using MetricsLaws0 Scheduler0.
  revert w. induction times as [|t times IH]; intros w Hroom Hs; [done|].
  cbn [reserve_loop]. unfold mbind, M_bind, reserve_one, mbind, M_bind, attempt.
  assert (fits (ledger w) (TotalEngines profile)) as Hfit.
  { unfold roomy, fits in *. cbn [length] in Hroom. lia. }
  destruct (Reserve_sound now (sch_TenantID sc) cluster (TotalEngines profile) t
    (time_Add t window) (sch_ExecutionID sc) w Hfit Hs) as [Hs' Ht].
  destruct (Reserve _ _ _ _ _ _ _ _ w) as [r w1]. simpl in Hs', Ht.
  unfold on_schedules, on_store, ok_pair. simpl.
  set (w2 := set_store _ w1). assert (sound w2) as Hs2 by exact Hs'.
  assert (roomy (ledger w2) (Z.of_nat (length times) * Z.max 0 (TotalEngines profile))) as Hr2.
  { unfold roomy in *. cbn [length] in Hroom. simpl. lia. }
  specialize (IH w2 Hr2 Hs2).
  destruct (reserve_loop (Stop now) now sc cluster profile window times w2) as [[occs|] w3]; done.
Qed.

Lemma reserveOccurrences_sound now sc times profile window w :
  roomy (ledger w) (Z.of_nat (length times) * Z.max 0 (TotalEngines profile)) → sound w →
  sound (reserveOccurrences (Stop now) now sc times profile window w).2.
Proof using MetricsLaws0 Scheduler0.
  intros Hroom Hs. unfold reserveOccurrences, mbind, M_bind, try_store, ask.
  destruct (GetExecution _ _) as [exe|]; [by apply booking_sound|done].
Qed.

Lemma Create_sound now sc w :
  booking_fits sc now (now + horizonDays * day) w → sound w →
  sound (ScheduleApp.Create ParseStandard (Stop now) now sc w).2.
Proof using MetricsLaws0 Scheduler0.
  intros Hfit Hs. unfold Create, mbind, M_bind, lift, read_store, guard.
  destruct (Schedule.Validate _ sc) as [[]|]; [|done].
  destruct (bool_decide _); [done|]. cbn [throw mret M_ret]. cbv beta iota zeta.
  unfold time_Add. specialize (Hfit).
  destruct (Occurrences _ _ _ _) as [times|] eqn:Ht; [|done].
  unfold on_schedules, on_store, ok_pair. cbn [CreateSchedule fst snd].
  set (w1 := set_store _ w). assert (sound w1) as Hs1 by exact Hs.
  pose proof (reserveOccurrences_sound now
    (sch_with_ID sc (scheduleSeq (st_schedules (w_store w)) + 1)) times
    (profile_of (LoadProfileFor (sch_ExecutionID sc) (w_store w)))
    (windowOf (profile_of (LoadProfileFor (sch_ExecutionID sc) (w_store w)))) w1
    (Hfit times Ht) Hs1) as Hs2.
  destruct (reserveOccurrences _ _ _ _ _ _ w1) as [[occs|] w2]; exact Hs2.
Qed.

Lemma extendOne_sound now sc to w :
  (∀ from, booking_fits sc from to w) → sound w →
  sound (extendOne ParseStandard (Stop now) now sc to w).2.
Proof using MetricsLaws0 Scheduler0.
  intros Hfit Hs. unfold extendOne, mbind, M_bind, read_schedules, read_store, lift, guard.
  destruct (negb _); [done|]. destruct (bool_decide _); [done|].
  cbn [throw mret M_ret]. cbv beta iota zeta.
  destruct (Occurrences _ _ _ _) as [times|] eqn:Ht; [|done].
  pose proof (reserveOccurrences_sound now sc times
    (profile_of (LoadProfileFor (sch_ExecutionID sc) (w_store w)))
    (windowOf (profile_of (LoadProfileFor (sch_ExecutionID sc) (w_store w)))) w
    (Hfit _ times Ht) Hs) as Hs2.
  destruct (reserveOccurrences _ _ _ _ _ _ w) as [[occs|] w2]; exact Hs2.
Qed.

Lemma system_step_sound w w' : system_step w w' → sound w → sound w'.
Proof using MetricsLaws0 Scheduler0.
  intros Hstep Hs. destruct Hstep as [now e w Hf|? now ? ? ? ? ? e w|now e w|now e w|now ttl cl w|now w|now a w
    |now w|id w|now sc w Hf|now sc to w Hf|w w' Hl Hr];
    [by apply Trigger_sound|eapply calm_sound; [apply (keeps (R := calm))|exact Hs]..
    |by apply (sound_ClaimDue now)|by apply (sound_Delete id)|by apply Create_sound
    |by apply extendOne_sound|].
  destruct Hs as [Hq Hok]. split; [by rewrite Hl|by apply Hr].
Qed.

End system.

(** ** Triggering *)
Section trigger.
Context {C H : Type} `{!Scheduler C} `{!Metrics H} `{!MetricsLaws H}.
Context (ParseQuantity : string → option Quantity) (now : time).
Implicit Types w : World C H.
Local Abbreviation runs w := (st_runs (w_store w)).
Local Abbreviation ledger w := (st_ledger (w_store w)).

(** An execution without an open run, and its reservations, survive whatever
    admission does to others; so do the catalogue and the pending trace ids. *)
Definition idle_ok (e : Z) (w : World C H) : Prop :=
  CurrentRun e (runs w) = None ∧ ledger_ok (ledger w) ∧ runs_ok (runs w).
Definition idle_kept (e : Z) (w w' : World C H) : Prop :=
  idle_ok e w → idle_ok e w' ∧ st_catalog (w_store w') = st_catalog (w_store w) ∧
    ∀ r, r ∈ rows (ledger w) → res_ExecutionID r = e → r ∈ rows (ledger w').
#[global] Instance idle_kept_po e : PreOrder (idle_kept e).
Proof using.
  split; [by intros w ?|]. intros w1 w2 w3 H12 H23 H1.
  destruct (H12 H1) as (H2 & C2 & R2). destruct (H23 H2) as (H3 & C3 & R3).
  split; [done|]. split; [congruence|]. eauto.
Qed.

Lemma idle_stop e e' w : idle_kept e w (Stop now e' w).2.
Proof using Scheduler0 MetricsLaws0.
  intros (Hi & Hl & Hr). pose proof (Stop_spec now e' w) as Hs.
  destruct (CurrentRun e' (runs w)) as [r|] eqn:Hc; [|by rewrite Hs].
  destruct Hs as (w' & -> & Ht). simpl. split; [split; [|split]|split].
  - unfold CurrentRun. rewrite (torn_current now e' w w' e Ht). by case_decide.
  - rewrite (td_ledger _ _ _ _ Ht). by eapply ledger_ok_sub; [apply ledger_sub_release|].
  - by eapply torn_runs_ok.
  - apply (td_catalog _ _ _ _ Ht).
  - intros x Hx Hxe. rewrite (td_ledger _ _ _ _ Ht), rows_release_In. split; [done|].
    intros Hxe'. assert (e' = e) by congruence. subst e'. congruence.
Qed.

Lemma reserve_clusters_ok tenant units start end_ e clusters w w' :
  idle_ok e w →
  reserve_clusters now tenant units start end_ e clusters w = (Ok tt, w') →
  idle_kept e w w' ∧
  ∀ cluster, cluster ∈ clusters → ∃ r, r ∈ rows (ledger w') ∧
    res_TenantID r = tenant ∧ res_Cluster r = cluster ∧ res_EngineCount r = units ∧
    res_Start r = start ∧ res_End r = end_ ∧ res_ExecutionID r = e.
Proof using Scheduler0 MetricsLaws0.
  unfold reserve_clusters. revert w. induction clusters as [|c cls IH]; intros w Hok; cbn [for_each].
  { intros [= <-]. split; [done|]. by intros ? ?%elem_of_nil. }
  intros ([] & w2 & Hone & Hrest)%bind_Ok.
  apply bind_Ok in Hone as (res & w1 & Hatt & Hm). unfold attempt in Hatt.
  destruct (Reserve (Stop now) now tenant c units start end_ e w) as [[r|er] w0] eqn:Hres;
    injection Hatt as <- <-; [|done]. injection Hm as <-.
  destruct (Reserve_creates (S := World C H) (Stop now) (idle_kept e) (idle_stop e) _ _ _ _ _ _ _ _ _ _ Hres)
    as (Hwin & w1 & Hk & -> & ->).
  set (req := mkReservation 0 tenant c units start end_ e) in *.
  set (w2' := q_set_ledger _ w1) in *.
  assert (idle_kept e w1 w2') as Hk2.
  { intros (Hi1 & Hl1 & Hr1). split; [split; [done|split; [|done]]|split; [done|]].
    - by apply ledger_ok_create.
    - intros x Hx _. unfold w2'. simpl. change (mkLedger _ _ _) with
        (CreateReservation req (ledger w1)).2. rewrite rows_create by done. by right. }
  destruct (Hk Hok) as (Hok1 & _ & _). destruct (Hk2 Hok1) as (Hok2 & _ & _).
  destruct (IH w2' Hok2 Hrest) as [Hk3 Hrows].
  split; [by etrans; [|etrans]|]. intros cluster [->|Hin]%elem_of_cons; [|by apply Hrows].
  exists (with_ID req (reservationSeq (ledger w1) + 1)). split; [|done].
  apply (Hk3 Hok2); [|done]. unfold w2'. simpl.
  change (mkLedger _ _ _) with (CreateReservation req (ledger w1)).2.
  rewrite rows_create by apply Hok1. by left.
Qed.

#[global] Instance store_snapshot r l :
  Keeps (same_store (C := C) (H := H)) (snapshotConfigs r l).
Proof using. unfold snapshotConfigs. solve_keeps. Qed.

(** Snapshots are best effort: the loops never fail. *)
Lemma snapshot_ok r l w : ∃ w', snapshotConfigs r l w = (Ok tt, w').
Proof using.
  unfold snapshotConfigs. apply for_each_total. intros ep w0. apply for_each_total.
  intros i w1. unfold mbind, M_bind, attempt.
  destruct (on_objects _ w1) as [[raw|er] w2]; unfold ignore; eexists; done.
Qed.

(** Marking succeeds for all scenarios exactly when no failure is counted. *)
Lemma mark_all_spec e l n w :
  ∃ k w', mark_all now e l n w = (Ok k, w') ∧
    (MarkRunningErr (runs w) = None → k = n) ∧
    (∀ er, MarkRunningErr (runs w) = Some er → k = (n + length l)%nat) ∧
    currentRun (runs w') = currentRun (runs w) ∧ runHistory (runs w') = runHistory (runs w) ∧
    orphans (runs w') = orphans (runs w) ∧
    st_catalog (w_store w') = st_catalog (w_store w) ∧ ledger w' = ledger w ∧
    st_activity (w_store w') = st_activity (w_store w).
Proof using.
  revert n w. induction l as [|ep l IH]; intros n w; cbn [mark_all].
  { exists n, w. split; [done|]. split; [done|]. split; [|done]. intros er _. simpl. lia. }
  unfold mbind, M_bind, attempt, on_runs, on_store, MarkScenarioRunning.
  destruct (MarkRunningErr (runs w)) as [er|] eqn:He.
  - set (w1 := set_store _ w). destruct (IH (S n) w1) as (k & w' & -> & _ & Hk & Hrest).
    exists k, w'. split; [done|]. split; [done|]. split; [|done].
    intros er' _. rewrite (Hk er) by done. simpl. lia.
  - set (w1 := set_store _ w). destruct (IH n w1) as (k & w' & -> & Hk & _ & Hrest).
    exists k, w'. split; [done|]. split; [intros _; by apply Hk|]. done.
Qed.

Lemma trigger_start_spec coll e scenarios w w' :
  idle_ok e w → is_Some (executions (st_catalog (w_store w)) !! e) → scenarios ≠ [] →
  trigger_start now coll e scenarios w = (Ok tt, w') →
  ∃ r rec, CurrentRun e (runs w') = Some r ∧ runHistory (runs w') !! r = Some rec ∧
    runHistory (runs w) !! r = None ∧
    rec = mkRunRecord r e now None
            (default "" (pendingCorrelation (st_activity (w_store w)) !! e)) ∧
    lastActivity (st_activity (w_store w')) !! e = Some now ∧ ledger w' = ledger w.
Proof using.
  intros (Hi & _ & Hrok) [exe Hexe] Hne. unfold trigger_start, mbind, M_bind, try_store, ask.
  unfold PendingCorrelationID. rewrite Hexe. unfold on_runs, on_store at 1, StartRun.
  unfold CurrentRun in Hi. rewrite Hi. unfold upd_store at 1. cbv beta iota zeta.
  set (cid := default "" _). set (r := runSeq (runs w) + 1).
  set (w1 := set_store (TouchActivity _ _ _) _).
  pose proof (store_snapshot r scenarios w1) as Hk. destruct (snapshotConfigs r scenarios w1) as [[[]|] w2]; [|done].
  unfold same_store in Hk. simpl in Hk.
  destruct (mark_all_spec e scenarios 0 w2)
    as (k & w3 & -> & HkN & HkS & Hcur & Hhist & _ & _ & Hled & Hact).
  destruct (MarkRunningErr (runs w2)) as [er|].
  { rewrite (HkS er eq_refl). simpl. rewrite bool_decide_eq_true_2 by done.
    unfold guard. rewrite bool_decide_eq_true_2; [done|]. by destruct scenarios. }
  rewrite (HkN eq_refl), bool_decide_eq_false_2 by (by destruct scenarios). simpl.
  intros Hrun.
  assert (runs w' = runs w3 ∧ ledger w' = ledger w3 ∧
    st_activity (w_store w') = st_activity (w_store w3)) as (Hr' & Hl' & Ha').
  { unfold attempt in Hrun. destruct (GetProject _ _); [|by injection Hrun as <-].
    unfold ignore, on_store, StartLaunch in Hrun.
    destruct (openLaunch _ !! e); by injection Hrun as <-. }
  exists r, (mkRunRecord r e now None cid). unfold CurrentRun.
  rewrite Hr', Hl', Ha', Hcur, Hhist, Hact, Hled, Hk. simpl. rewrite !lookup_insert_eq.
  repeat split; try done. by apply runs_fresh.
Qed.

(** C14. A trigger that succeeds was entitled to, and did what it says: no
    campaign in force froze the execution, no run was open, no finished engine
    had left an orphaned completion, and the pool covered the whole profile;
    now exactly one fresh run is open, started now and stamped with the trace
    id of the deploy, the idle clock reads now, and a tenant's execution holds
    a reservation of its size on every cluster it runs on. *)
Theorem trigger_opens_entitled_run e w w' :
  ledger_ok (ledger w) → runs_ok (runs w) →
  Trigger now ParseQuantity e w = (Ok tt, w') →
  ∃ coll r,
    executions (st_catalog (w_store w)) !! e = Some coll ∧
    IsFrozen now (exe_ProjectID coll) e (w_store w) = None ∧
    CurrentRun e (runs w) = None ∧ OrphanCompletions e (runs w) = [] ∧
    (∃ status w1, executionStatusAcross coll e (planRefs (LoadProfileFor e (w_store w))) w =
       (Ok status, w1) ∧ 0 < es_PoolSize status ∧
       TotalEngines (profile_of (LoadProfileFor e (w_store w))) <= es_PoolSize status) ∧
    CurrentRun e (runs w') = Some r ∧
    (∃ cid, runHistory (runs w') !! r = Some (mkRunRecord r e now None cid)) ∧
    lastActivity (st_activity (w_store w')) !! e = Some now ∧
    ∀ tenant, exe_TenantID coll = Some tenant → ∀ cluster, cluster ∈ Clusters coll →
      ∃ res, res ∈ rows (ledger w') ∧ res_TenantID res = tenant ∧ res_Cluster res = cluster ∧
        res_Start res = now ∧ res_ExecutionID res = e.
Proof using Scheduler0 MetricsLaws0.
  intros Hl Hr. unfold Trigger. intros ([coll sc] & w1 & Hck & Hrest)%bind_Ok.
  apply bind_Ok in Hrest as ([] & w2 & Hres & Hst).
  destruct (trigger_checks_ok _ _ _ _ _ _ Hck) as [Hexe -> Hne Hfz Hidle Hor Hready Hsame].
  assert (idle_ok e w1) as Hok1 by (unfold idle_ok; rewrite Hsame; done).
  assert (idle_kept e w1 w2 ∧ ∀ tenant, exe_TenantID coll = Some tenant →
    ∀ cluster, cluster ∈ Clusters coll →
      ∃ res, res ∈ rows (ledger w2) ∧ res_TenantID res = tenant ∧ res_Cluster res = cluster ∧
        res_Start res = now ∧ res_ExecutionID res = e) as [Hk Hrows].
  { unfold trigger_reserve in Hres. destruct (exe_TenantID coll) as [tenant|];
      [|by injection Hres as <-].
    apply bind_Ok in Hres as (units & w1' & Hu & Hcl). unfold lift in Hu.
    injection Hu as _ <-. destruct (reserve_clusters_ok _ _ _ _ _ _ _ _ Hok1 Hcl) as [Hk Hrows].
    split; [done|]. intros t [= <-] cluster Hin. destruct (Hrows cluster Hin) as (x & ?).
    exists x. tauto. }
  destruct (Hk Hok1) as (Hok2 & Hcat2 & _).
  edestruct (trigger_start_spec coll e) as (r & rec & Hcur & Hh & _ & -> & Hact & Hled);
    [exact Hok2|rewrite Hcat2, Hsame, Hexe; eauto|exact Hne|exact Hst|].
  exists coll, r. repeat split; try done; [eauto|]. by rewrite Hled.
Qed.

(** When no scenario can be marked running, the run is rolled back but the
    capacity is not: the trigger fails, no run is open, and the reservations it
    made on the tenant's clusters are still in the ledger, so they count
    against the next attempt. *)
Theorem trigger_rollback_keeps_reservations e w coll scenarios w1 w2 tenant er :
  ledger_ok (ledger w) → runs_ok (runs w) →
  trigger_checks now e w = (Ok (coll, scenarios), w1) →
  exe_TenantID coll = Some tenant →
  trigger_reserve now ParseQuantity coll e scenarios w1 = (Ok tt, w2) →
  MarkRunningErr (runs w2) = Some er →
  ∃ w', Trigger now ParseQuantity e w = (Err (ErrTrigger (length scenarios)), w') ∧
    CurrentRun e (runs w') = None ∧ ledger w' = ledger w2 ∧
    ∀ cluster, cluster ∈ Clusters coll →
      ∃ res, res ∈ rows (ledger w') ∧ res_TenantID res = tenant ∧ res_Cluster res = cluster ∧
        res_Start res = now ∧ res_ExecutionID res = e.
Proof using Scheduler0 MetricsLaws0.
  intros Hl Hr Hck Hten Hres Hmark. unfold Trigger, mbind, M_bind. rewrite Hck, Hres.
  destruct (trigger_checks_ok _ _ _ _ _ _ Hck) as [Hexe -> Hne _ Hidle _ _ Hsame].
  assert (idle_ok e w1) as Hok1 by (unfold idle_ok; rewrite Hsame; done).
  unfold trigger_reserve in Hres. rewrite Hten in Hres.
  apply bind_Ok in Hres as (units & w1' & Hu & Hcl). injection Hu as _ <-.
  destruct (reserve_clusters_ok _ _ _ _ _ _ _ _ Hok1 Hcl) as [Hk Hrows].
  destruct (Hk Hok1) as ((Hi2 & _ & Hr2) & Hcat2 & _).
  unfold trigger_start, mbind, M_bind, try_store, ask, PendingCorrelationID.
  rewrite Hcat2, Hsame, Hexe. unfold on_runs, on_store at 1, StartRun.
  unfold CurrentRun in Hi2. rewrite Hi2. unfold upd_store at 1. cbv beta iota zeta.
  set (r := runSeq (runs w2) + 1). set (w3 := set_store (TouchActivity _ _ _) _).
  set (scs := LoadProfileFor e (w_store w)) in *.
  pose proof (snapshot_ok r scs w3) as [w4 Hsnap]. rewrite Hsnap.
  assert (w_store w4 = w_store w3) as Hs4.
  { pose proof (store_snapshot r scs w3) as Hst. rewrite Hsnap in Hst. exact Hst. }
  destruct (mark_all_spec e scs 0 w4) as (k & w5 & -> & _ & HkS & _ & _ & _ & _ & Hled & _).
  rewrite (HkS er) by (by rewrite Hs4). simpl. rewrite bool_decide_eq_true_2 by done.
  unfold guard. rewrite bool_decide_eq_true_2 by (by destruct scs).
  eexists. split; [done|]. simpl. unfold CurrentRun. rewrite StopRun_current, decide_True by done.
  rewrite Hled, Hs4. split; [done|]. split; [done|]. intros cluster Hin.
  destruct (Hrows cluster Hin) as (x & ?). exists x. simpl. tauto.
Qed.
End trigger.

(** ** Stopping, purging, reaping, reconciling *)
Section teardown_theorems.
Context {C H : Type} `{!Scheduler C} `{!SchedulerLaws C} `{!Metrics H} `{!MetricsLaws H}.
Context (now : time).
Implicit Types w : World C H.
Local Abbreviation runs w := (st_runs (w_store w)).
Local Abbreviation ledger w := (st_ledger (w_store w)).
Local Abbreviation deployed c w := (deployed_on c (w_cluster w)).

Lemma torn_history e w w' r rec :
  torn now e w w' → runHistory (runs w) !! r = Some rec →
  runHistory (runs w') !! r =
    Some (if decide (CurrentRun e (runs w) = Some r) then end_record now rec else rec).
Proof using.
  intros Ht Hrec. rewrite (td_runs _ _ _ _ Ht).
  destruct (clear_scenarios_same e (LoadProfileFor e (w_store w)) (runs w)) as (Hc & Hh & _ & _).
  unfold StopRun, CurrentRun. rewrite Hc.
  destruct (currentRun (runs w) !! e) as [r0|]; simpl; rewrite ?Hh; [|done].
  destruct (decide (r0 = r)) as [->|Hne].
  - rewrite lookup_alter_eq, Hrec. by rewrite decide_True.
  - rewrite lookup_alter_ne, Hrec by done. rewrite decide_False; [done|congruence].
Qed.

(** C22. Stopping is exact: with no run open it refuses and changes nothing;
    otherwise it always succeeds, closes that run's history row at this
    instant, frees every reservation the execution holds, and leaves every
    other execution's run and reservations as they were. *)
Theorem stop_exact e w :
  runs_ok (runs w) →
  (CurrentRun e (runs w) = None → Stop now e w = (Err ErrNotRunning, w)) ∧
  ∀ r, CurrentRun e (runs w) = Some r →
    ∃ w', Stop now e w = (Ok tt, w') ∧ CurrentRun e (runs w') = None ∧
      (∃ rec, runHistory (runs w') !! r = Some rec ∧ rr_EndTime rec = Some now) ∧
      (∀ e', e' ≠ e → CurrentRun e' (runs w') = CurrentRun e' (runs w)) ∧
      (∀ x, x ∈ rows (ledger w') ↔ x ∈ rows (ledger w) ∧ res_ExecutionID x ≠ e) ∧
      w_cluster w' = w_cluster w.
Proof using Scheduler0 MetricsLaws0.
  intros Hok. pose proof (Stop_spec now e w) as Hs. split.
  - intros Hc. by rewrite Hc in Hs.
  - intros r Hc. rewrite Hc in Hs. destruct Hs as (w' & -> & Ht). exists w'.
    split; [done|]. unfold CurrentRun. rewrite (torn_current now e w w') by done.
    rewrite decide_True by done. split; [done|]. split; [|split; [|split]].
    + destruct (current_open _ Hok _ _ Hc) as (rec & Hrec & _ & Hend).
      exists (end_record now rec). rewrite (torn_history e w w' r rec) by done.
      rewrite decide_True by done. split; [done|]. unfold end_record. by rewrite Hend.
    + intros e' Hne. rewrite (torn_current now e w w') by done. by rewrite decide_False.
    + intros x. by rewrite (td_ledger _ _ _ _ Ht), rows_release_In.
    + apply (td_cluster _ _ _ _ Ht).
Qed.

(** *** Deployments *)

(** A handler may remove [e]'s deployments, and touches no other execution's. *)
Definition only_removes (e : Z) (w w' : World C H) : Prop :=
  ∀ c e', deployed c w' !! e' = deployed c w !! e' ∨
    e' = e ∧ taken (deployed c w !! e') (deployed c w' !! e').
#[global] Instance only_removes_po e : PreOrder (only_removes e).
Proof using.
  split; [by left|]. intros w1 w2 w3 H12 H23 c e'.
  destruct (H12 c e') as [E1|[He E1]], (H23 c e') as [E2|[He2 E2]].
  - left. congruence.
  - right. split; [done|]. by rewrite <- E1.
  - right. split; [done|]. by rewrite E2.
  - right. split; [done|]. by etrans.
Qed.

Lemma same_cluster_removes e w w' : w_cluster w' = w_cluster w → only_removes e w w'.
Proof using. intros E c e'. left. by rewrite E. Qed.

#[global] Instance removes_upd_runs e f : Keeps (only_removes e) (upd_runs f).
Proof using. intros w. by apply same_cluster_removes. Qed.
#[global] Instance removes_objects {A} e (m : M ObjectStore error A) :
  Keeps (only_removes e) (on_objects m).
Proof using.
  intros w. apply same_cluster_removes. unfold on_objects. by destruct (m (w_objects w)).
Qed.
#[global] Instance removes_metrics {A} e (m : M (Store * H) error A) :
  Keeps (only_removes e) (on_metrics m).
Proof using.
  intros w. apply same_cluster_removes. unfold on_metrics.
  by destruct (m (w_store w, w_metrics w)) as [r [s h]].
Qed.
#[global] Instance removes_log e c e' sc i :
  Keeps (only_removes e) (on_cluster (PodLog c e' sc i)).
Proof using SchedulerLaws0.
  intros w c' x. left. unfold on_cluster. pose proof (log_reads c e' sc i (w_cluster w) c') as Hl.
  destruct (PodLog c e' sc i (w_cluster w)). simpl in *. by rewrite Hl.
Qed.
#[global] Instance removes_purge e c : Keeps (only_removes e) (on_cluster (PurgeExecution c e)).
Proof using SchedulerLaws0.
  intros w c' x. unfold on_cluster. pose proof (purge_only c e (w_cluster w) c' x) as Hp.
  by destruct (PurgeExecution c e (w_cluster w)).
Qed.
#[global] Instance removes_teardown e e' : Keeps (only_removes e) (teardown now e').
Proof using Scheduler0 MetricsLaws0.
  intros w. destruct (teardown_spec now e' w) as (w' & -> & Ht).
  apply same_cluster_removes, (td_cluster _ _ _ _ Ht).
Qed.
#[global] Instance removes_capture e e' r : Keeps (only_removes e) (captureLogs e' r).
Proof using SchedulerLaws0. unfold captureLogs. solve_keeps. Qed.
#[global] Instance removes_teardownAndCapture e e' :
  Keeps (only_removes e) (teardownAndCapture now e').
Proof using SchedulerLaws0 MetricsLaws0. unfold teardownAndCapture, currentRunOf. solve_keeps. Qed.

Lemma purge_loop_gone e clusters w w' :
  for_each clusters (λ c, on_cluster (PurgeExecution c e)) w = (Ok tt, w') →
  only_removes e w w' ∧ ∀ c, c ∈ clusters → deployed c w' !! e = None.
Proof using SchedulerLaws0.
  revert w. induction clusters as [|c cls IH]; intros w; cbn [for_each].
  { intros [= <-]. split; [reflexivity|]. by intros c ?%elem_of_nil. }
  intros ([] & w1 & Hp & [Hrem Hgone]%IH)%bind_Ok.
  pose proof (removes_purge e c w) as Hr1. rewrite Hp in Hr1. simpl in Hr1.
  split; [by etrans|]. intros c' [->|Hin]%elem_of_cons; [|by apply Hgone].
  assert (deployed c w1 !! e = None) as Hn.
  { unfold on_cluster in Hp. destruct (PurgeExecution c e (w_cluster w)) as [r cl] eqn:Hpe.
    injection Hp as -> <-. simpl. by eapply purge_gone. }
  destruct (Hrem c e) as [->|[_ Ht]]; [done|by apply Ht].
Qed.

(** What a purge that succeeds has done. *)
Lemma Purge_Ok e w w' :
  Purge now e w = (Ok tt, w') →
  ∃ coll, executions (st_catalog (w_store w)) !! e = Some coll ∧
    (∀ c, c ∈ Clusters coll → deployed c w' !! e = None) ∧
    (∀ c e', e' ≠ e → deployed c w' !! e' = deployed c w !! e') ∧
    CurrentRun e (runs w') = None ∧
    (is_Ok (LastRun e (runs w)) = true ∨ is_Some (CurrentRun e (runs w)) →
     ∀ x, x ∈ rows (ledger w') → res_ExecutionID x ≠ e).
Proof using SchedulerLaws0 MetricsLaws0.
  unfold Purge. intros (coll & w0 & Hget & Hrest)%bind_Ok.
  unfold try_store, ask, GetExecution in Hget.
  destruct (executions _ !! e) as [c0|] eqn:Hexe; [|done]. injection Hget as <- <-.
  apply bind_Ok in Hrest as ([] & w1 & Htd & Hrest).
  apply bind_Ok in Hrest as ([] & w2 & Hloop & Hm). injection Hm as <-.
  pose proof (removes_teardownAndCapture e e w) as Hr1. rewrite Htd in Hr1. simpl in Hr1.
  destruct (purge_loop_gone e (Clusters c0) w1 w2 Hloop) as [Hr2 Hgone].
  assert (w_store w2 = w_store w1) as Hst.
  { assert (Keeps (same_store (C := C) (H := H)) (for_each (Clusters c0)
      (λ c, on_cluster (PurgeExecution c e)))) as Hk by apply _.
    specialize (Hk w1). rewrite Hloop in Hk. exact Hk. }
  exists c0. split; [done|]. split; [done|]. split.
  { intros c e' Hne. assert (only_removes e w w2) as Hr by (by etrans).
    destruct (Hr c e') as [?|[? _]]; done. }
  simpl. rewrite Hst. unfold teardownAndCapture in Htd.
  assert (∀ rid, (teardown now e ≫= λ _, captureLogs e rid) w = (Ok tt, w1) →
    CurrentRun e (runs w1) = None ∧ ∀ x, x ∈ rows (ledger w1) → res_ExecutionID x ≠ e) as Htear.
  { intros rid ([] & w3 & Ht & Hcap)%bind_Ok.
    destruct (teardown_spec now e w) as (w3' & E & Ht3). rewrite E in Ht. injection Ht as ->.
    assert (Keeps (same_store (C := C) (H := H)) (captureLogs e rid)) as Hk
      by (unfold captureLogs; solve_keeps).
    specialize (Hk w3). rewrite Hcap in Hk. unfold same_store in Hk. simpl in Hk. rewrite Hk.
    split; [unfold CurrentRun; rewrite (torn_current now e w w3) by done; by rewrite decide_True|].
    intros x. rewrite (td_ledger _ _ _ _ Ht3), rows_release_In. tauto. }
  apply bind_Ok in Htd as (run & w0 & [= <- <-] & Htd).
  destruct (CurrentRun e (runs w)) as [r|] eqn:Hc.
  - destruct (Htear r Htd) as [? ?]. split; [done|]. by intros _.
  - apply bind_Ok in Htd as (last & w0' & Hl & Htd). injection Hl as <- <-.
    destruct (LastRun e (runs w)) as [last|] eqn:Hlast.
    + destruct (Htear _ Htd) as [? ?]. split; [done|]. by intros _.
    + injection Htd as <-. split; [done|]. by intros [?|[? ?]].
Qed.

(** C23. A purge that succeeds leaves no engine of the execution on any cluster
    it runs on, closes its run, frees its reservations when it had ever run,
    and takes no other execution's engines. *)
Theorem purge_removes_all e w w' :
  Purge now e w = (Ok tt, w') →
  ∃ coll, executions (st_catalog (w_store w)) !! e = Some coll ∧
    (∀ c, c ∈ Clusters coll → deployed c w' !! e = None) ∧
    (∀ c e', e' ≠ e → deployed c w' !! e' = deployed c w !! e') ∧
    CurrentRun e (runs w') = None ∧
    (is_Ok (LastRun e (runs w)) = true ∨ is_Some (CurrentRun e (runs w)) →
     ∀ x, x ∈ rows (ledger w') → res_ExecutionID x ≠ e).
Proof using SchedulerLaws0 MetricsLaws0. apply Purge_Ok. Qed.

(** *** Reaping *)

(** An execution the reaper must not touch: a run is open, or a calibration is
    still going. *)
Definition calibration_open (e : Z) (s : Store) : bool :=
  existsb (λ j, negb (bool_decide (cj_Phase j = PhaseDone)) &&
                negb (bool_decide (cj_Phase j = PhaseFailed)))
    (ListCalibrationJobsByExecution e (st_calibrations s)).
Definition busy (e : Z) (w : World C H) : Prop :=
  is_Some (CurrentRun e (runs w)) ∨ calibration_open e (w_store w) = true.

Lemma reapIfIdle_spares e c d ttl w :
  busy e w ∨ time_Sub now (default d (LastActivity e (w_store w))) < ttl →
  reapIfIdle now e c d ttl w = (Ok false, w).
Proof using.
  intros Hb. unfold reapIfIdle, mbind, M_bind, read_store, currentRunOf, calibrating.
  cbv beta iota zeta.
  destruct (bool_decide_reflect (time_Sub now (default d (LastActivity e (w_store w))) < ttl));
    [done|]. unfold read_store. cbv beta iota zeta.
  destruct Hb as [[[x Hx]|Hcal]|?]; [| |done].
  - by rewrite Hx.
  - unfold calibration_open in Hcal. destruct (is_running _); [done|]. by rewrite Hcal.
Qed.

(** A busy execution stays as it is. *)
Definition spares (e : Z) (w w' : World C H) : Prop :=
  busy e w → busy e w' ∧ CurrentRun e (runs w') = CurrentRun e (runs w) ∧
    ∀ c, deployed c w' !! e = deployed c w !! e.
#[global] Instance spares_po e : PreOrder (spares e).
Proof using.
  split; [by intros w ?|]. intros w1 w2 w3 H12 H23 H1.
  destruct (H12 H1) as (H2 & R2 & D2). destruct (H23 H2) as (H3 & R3 & D3).
  split; [done|]. split; [congruence|]. intros c. by rewrite D3, D2.
Qed.

Lemma spares_intro e w w' :
  CurrentRun e (runs w') = CurrentRun e (runs w) →
  st_calibrations (w_store w') = st_calibrations (w_store w) →
  (∀ c, deployed c w' !! e = deployed c w !! e) → spares e w w'.
Proof using.
  intros Hr Hc Hd Hb. split; [|done]. unfold busy, calibration_open in *. by rewrite Hr, Hc.
Qed.

Lemma teardown_other_run e e' w :
  e' ≠ e → CurrentRun e (runs (teardown now e' w).2) = CurrentRun e (runs w).
Proof using Scheduler0 MetricsLaws0.
  intros Hne. destruct (teardown_spec now e' w) as (w' & -> & Ht). unfold CurrentRun. simpl.
  rewrite (torn_current now e' w w') by done. by rewrite decide_False.
Qed.

Lemma spares_other e e' :
  e' ≠ e → Keeps (spares e) (teardownAndCapture now e').
Proof using SchedulerLaws0 MetricsLaws0.
  intros Hne w. apply spares_intro.
  - assert (Keeps (λ w w', CurrentRun e (runs w') = CurrentRun e (runs w))
      (teardownAndCapture (C := C) (H := H) now e')) as Hk; [|apply Hk].
    assert (PreOrder (λ w w' : World C H, CurrentRun e (runs w') = CurrentRun e (runs w))).
    { split; [done|]. intros w1 w2 w3 ? ?. congruence. }
    assert (∀ x, Keeps (λ w w' : World C H, CurrentRun e (runs w') = CurrentRun e (runs w))
      (captureLogs e' x)).
    { intros x w0. assert (Keeps (same_store (C := C) (H := H)) (captureLogs e' x)) as Hk
        by (unfold captureLogs; solve_keeps). by rewrite (Hk w0). }
    assert (Keeps (λ w w' : World C H, CurrentRun e (runs w') = CurrentRun e (runs w))
      (teardown now e')) by (intros w0; by apply teardown_other_run).
    unfold teardownAndCapture, currentRunOf. solve_keeps.
  - apply (calm_calibrations _ _ (calm_teardownAndCapture now e' w)).
  - intros c. destruct (removes_teardownAndCapture e' e' w c e) as [?|[? _]]; done.
Qed.

#[global] Instance spares_reapIfIdle e e' c d ttl : Keeps (spares e) (reapIfIdle now e' c d ttl).
Proof using SchedulerLaws0 MetricsLaws0.
  destruct (decide (e' = e)) as [->|Hne].
  - intros w Hb. by rewrite reapIfIdle_spares by (by left).
  - assert (Keeps (spares e) (on_cluster (H := H) (PurgeExecution c e'))).
    { intros w. assert (w_store (on_cluster (PurgeExecution c e') w).2 = w_store w) as Hst
        by apply (store_cluster (PurgeExecution c e') w).
      apply spares_intro; [by rewrite Hst..|]. intros c'.
      destruct (removes_purge e' c w c' e) as [?|[? _]]; done. }
    assert (Keeps (spares e) (upd_runs (C := C) (H := H) (ClearOrphanCompletions e')))
      by (intros w; by apply spares_intro).
    pose proof (spares_other e e' Hne).
    unfold reapIfIdle, currentRunOf, calibrating. solve_keeps.
Qed.

#[global] Instance spares_list e c : Keeps (spares e) (on_cluster (H := H) (DeployedExecutions c)).
Proof using SchedulerLaws0.
  intros w. assert (w_store (on_cluster (DeployedExecutions c) w).2 = w_store w) as Hst
    by apply (store_cluster (DeployedExecutions c) w).
  apply spares_intro; [by rewrite Hst..|]. intros c'. unfold on_cluster.
  pose proof (list_reads c (w_cluster w) c') as Hl.
  destruct (DeployedExecutions c (w_cluster w)). simpl in *. by rewrite Hl.
Qed.

Lemma reap_deployed_spares e c ttl l st w r w' :
  busy e w → e ∉ st.1.2 → reap_deployed now c ttl l st w = (r, w') →
  spares e w w' ∧ ∃ st', r = Ok st' ∧ e ∉ st'.1.2.
Proof using SchedulerLaws0 MetricsLaws0.
  revert st w. induction l as [|[e' d] l IH]; intros [[seen reaped] err] w Hb Hni; cbn [reap_deployed].
  { intros [= <- <-]. split; [reflexivity|]. eauto. }
  destruct (bool_decide (e' ∈ seen)); [by apply IH|].
  unfold mbind, M_bind, attempt.
  pose proof (spares_reapIfIdle e e' c d ttl w) as Hsp.
  destruct (decide (e' = e)) as [->|Hne].
  - rewrite reapIfIdle_spares by (by left). by apply IH.
  - destruct (reapIfIdle now e' c d ttl w) as [res w1]. simpl in Hsp.
    intros Hrest. destruct (Hsp Hb) as (Hb1 & _).
    apply IH in Hrest as [Hsp2 Hst']; [split; [by etrans|done]|done|].
    destruct res as [[]|]; simpl in *; [|done..]. rewrite elem_of_app, list_elem_of_singleton. naive_solver.
Qed.

(** An idle-reaping pass over any clusters, whatever else it removes, never
    takes the engines of an execution that has an open run or an unfinished
    calibration: its run and its deployments are as they were, and it is not
    reported as reaped. *)
Theorem reap_spares_busy e ttl clusters w r w' :
  busy e w → ReapIdle now ttl clusters w = (r, w') →
  CurrentRun e (runs w') = CurrentRun e (runs w) ∧
  (∀ c, deployed c w' !! e = deployed c w !! e) ∧
  ∃ reaped err, r = Ok (reaped, err) ∧ e ∉ reaped.
Proof using SchedulerLaws0 MetricsLaws0.
  intros Hb. unfold ReapIdle. destruct (ttl <=? 0).
  { intros [= <- <-]. split; [done|]. split; [done|]. do 2 eexists. split; [done|set_solver]. }
  assert (∀ st w r w', busy e w → e ∉ st.1.2 → reap_clusters now ttl clusters st w = (r, w') →
    spares e w w' ∧ ∃ reaped err, r = Ok (reaped, err) ∧ e ∉ reaped) as Hloop.
  { clear w r w' Hb. induction clusters as [|c cls IH]; intros st w r w' Hb Hni; cbn [reap_clusters].
    { intros [= <- <-]. split; [reflexivity|]. do 2 eexists. split; [done|].
      by rewrite merge_sort_Permutation. }
    unfold mbind, M_bind, attempt. pose proof (spares_list e c w) as Hsp.
    destruct (on_cluster (DeployedExecutions c) w) as [[dep|er] w1]; simpl in Hsp.
    2:{ intros [= <- <-]. split; [done|]. eauto. }
    destruct (Hsp Hb) as (Hb1 & _).
    destruct (reap_deployed now c ttl (map_to_list dep) st w1) as [r1 w2] eqn:Hr.
    destruct (reap_deployed_spares e c ttl _ _ _ _ _ Hb1 Hni Hr) as (Hsp2 & st' & -> & Hni').
    destruct (Hsp2 Hb1) as (Hb2 & _). intros Hrest.
    destruct (IH st' w2 r w' Hb2 Hni' Hrest) as [Hsp3 ?]. split; [|done].
    etrans; [exact Hsp|]. by etrans. }
  intros Hrun. destruct (Hloop (∅, [], None) w r w' Hb) as [Hsp ?]; [simpl; set_solver|done|].
  destruct (Hsp Hb) as (_ & ? & ?). done.
Qed.

End teardown_theorems.

(** ** A live system

    Execution 4 of tenant 9 with two engines of scenario 2 deployed on cluster
    ["c"]; [mark_err] is the failure the store is set to answer with. *)
Definition shop_scenario : Scenario.Scenario.Scenario :=
  Scenario.Scenario.mkScenario 2 "checkout" 3 Scenario.Scenario.KindPortable ExecutorJMeter
    None "" "" 1 false "".
Definition two_pods : DeploySpec :=
  mkDeploySpec "c" 3 4 2 "img" "" "" [mkShardSpec 0 "" 5; mkShardSpec 1 "" 5] ∅.
Definition live (mark_err : option error) : World FakeScheduler unit :=
  mkWorld
    (set_runs (mkRunTables 0 ∅ ∅ ∅ ∅ mark_err)
       (set_catalog (put_scenarios 2 {[ 2 := shop_scenario ]} (st_catalog (sched_store [])))
          NewStore))
    (fake_DeployScenario 50 two_pods NewScheduler).2 NewObjectStore tt.
Definition no_sizes (_ : string) : option Quantity := None.
(** The system one trigger later. *)
Definition running_world : World FakeScheduler unit := (Trigger 100 no_sizes 4 (live None)).2.

Lemma live_runs_ok err : runs_ok (st_runs (w_store (live err))).
Proof. split; intros *; simpl; by rewrite lookup_empty. Qed.
Lemma live_ledger_ok err : ledger_ok (st_ledger (w_store (live err))).
Proof. apply map_Forall_empty. Qed.
Lemma live_sound : sound (live None).
Proof.
  split; [|apply live_runs_ok]. split; [apply live_ledger_ok|].
  intros tenant cluster t. unfold effective_ceiling. simpl. unfold GetQuota. simpl.
  rewrite lookup_empty. done.
Qed.
Lemma live_fits : trigger_fits no_sizes 4 (live None).
Proof.
  intros coll units [= <-] Hu. vm_compute in Hu. injection Hu as <-.
  unfold roomy. vm_compute. discriminate.
Qed.
Lemma running_sound : sound running_world.
Proof. apply (system_step_sound no_sizes parse_daily (live None)), live_sound.
  apply sys_trigger, live_fits. Qed.


Lemma trigger_opens_entitled_run_witness :
  ∃ coll r, executions (st_catalog (w_store (live None))) !! 4 = Some coll ∧
    CurrentRun 4 (st_runs (w_store running_world)) = Some r.
Proof.
  assert (Trigger 100 no_sizes 4 (live None) = (Ok tt, running_world)) as Ht
    by (vm_compute; reflexivity).
  destruct (trigger_opens_entitled_run no_sizes 100 4 (live None) running_world
    (live_ledger_ok None) (live_runs_ok None) Ht)
    as (coll & r & ? & _ & _ & _ & _ & ? & _).
  exists coll, r. split; assumption.
Defined.

Definition checked : World FakeScheduler unit :=
  (trigger_checks 100 4 (live (Some ErrNotFound))).2.
Definition reserved : World FakeScheduler unit :=
  (trigger_reserve 100 no_sizes sched_exe 4 [one_entry] checked).2.

Lemma trigger_rollback_keeps_reservations_witness :
  ∃ w', Trigger 100 no_sizes 4 (live (Some ErrNotFound)) = (Err (ErrTrigger 1), w') ∧
    CurrentRun 4 (st_runs (w_store w')) = None ∧
    ∃ res, res ∈ rows (st_ledger (w_store w')) ∧ res_ExecutionID res = 4.
Proof.
  assert (trigger_checks 100 4 (live (Some ErrNotFound)) = (Ok (sched_exe, [one_entry]), checked))
    as Hc by (vm_compute; reflexivity).
  assert (trigger_reserve 100 no_sizes sched_exe 4 [one_entry] checked = (Ok tt, reserved))
    as Hr by (vm_compute; reflexivity).
  assert (MarkRunningErr (st_runs (w_store reserved)) = Some ErrNotFound) as Hm
    by (vm_compute; reflexivity).
  destruct (trigger_rollback_keeps_reservations no_sizes 100 4 (live (Some ErrNotFound)) sched_exe
    [one_entry] checked reserved 9 ErrNotFound (live_ledger_ok _) (live_runs_ok _)
    Hc eq_refl Hr Hm) as (w' & ? & ? & _ & Hres).
  exists w'. split; [assumption|]. split; [assumption|].
  destruct (Hres "c") as (res & ? & _ & _ & _ & ?); [vm_compute; left|].
  exists res. split; assumption.
Defined.

Lemma stop_exact_witness :
  ∃ w', Stop 200 4 running_world = (Ok tt, w') ∧ CurrentRun 4 (st_runs (w_store w')) = None.
Proof.
  destruct (stop_exact 200 4 running_world (proj2 running_sound)) as [_ Hs].
  assert (CurrentRun 4 (st_runs (w_store running_world)) = Some 1) as Hc by (vm_compute; reflexivity).
  destruct (Hs 1 Hc) as (w' & ? & ? & _).
  exists w'. split; assumption.
Defined.

Definition purged : World FakeScheduler unit := (Purge 200 4 running_world).2.
Lemma purge_removes_all_witness :
  Purge 200 4 running_world = (Ok tt, purged) ∧ fake_deployed (w_cluster purged) !! 4 = None.
Proof.
  assert (Purge 200 4 running_world = (Ok tt, purged)) as Hp by (vm_compute; reflexivity).
  split; [exact Hp|].
  destruct (purge_removes_all 200 4 running_world purged Hp) as (coll & Hc & Hgone & _).
  vm_compute in Hc. injection Hc as <-. apply (Hgone "c"). vm_compute. left.
Defined.

Lemma reap_spares_busy_witness :
  CurrentRun 4 (st_runs (w_store (ReapIdle 1000 5 ["c"] running_world).2)) = Some 1.
Proof.
  destruct (reap_spares_busy 1000 4 5 ["c"] running_world
    (ReapIdle 1000 5 ["c"] running_world).1 (ReapIdle 1000 5 ["c"] running_world).2) as [-> _].
  - left. exists 1. vm_compute. reflexivity.
  - destruct (ReapIdle 1000 5 ["c"] running_world). reflexivity.
  - vm_compute. reflexivity.
Defined.

(** * Executions against the lifecycle

    What deleting an execution ([internal/app/executionapp]) means for the
    engines and the run the lifecycle service keeps for it. *)

Section delete.
Context {C H : Type} `{!Scheduler C} `{!Metrics H}.
Let W : Type := World C H.

(** Deleting the files touches the object store only, and only these files. *)
Lemma delete_files_only (id : Z) (names : list string) (w w' : W) :
  for_each names (λ name, on_objects (DeleteObject (executionKey id name))) w = (Ok tt, w') →
  w_store w' = w_store w ∧ w_cluster w' = w_cluster w ∧ w_metrics w' = w_metrics w ∧
  ∀ k, objects (w_objects w') !! k =
    if decide (k ∈ executionKey id <$> names) then None else objects (w_objects w) !! k.
Proof.
  revert w. induction names as [|n l IH]; intros w; cbn [for_each].
  { intros [= <-]. split_and!; try done. }
  intros ([] & w1 & Hd & Hr)%bind_Ok. injection Hd as <-.
  apply IH in Hr as (Hs & Hc & Hm & Hk). split_and!; try done. intros k. rewrite Hk. cbn.
  destruct (decide (k ∈ executionKey id <$> l)) as [Hin|Hnot].
  - rewrite decide_True; [done|by right].
  - destruct (decide (k = executionKey id n)) as [->|Hne].
    + rewrite lookup_delete_eq, decide_True; [done|by left].
    + rewrite lookup_delete_ne by done. rewrite decide_False; [done|]. set_solver.
Qed.

(** A successful delete, taken apart. *)
Lemma Delete_Ok id (w w' : W) :
  ExecutionApp.Delete id w = (Ok tt, w') →
  (∃ coll, GetExecution id (w_store w) = Ok coll) ∧
  DeleteExecution id (w_store w) = (Ok tt, w_store w') ∧
  w_cluster w' = w_cluster w ∧ w_metrics w' = w_metrics w ∧
  ∀ k, objects (w_objects w') !! k =
    if decide (k ∈ executionKey id <$> ExecutionFilesFor id (w_store w)) then None
    else objects (w_objects w) !! k.
Proof.
  unfold ExecutionApp.Delete. intros (coll & w1 & [= Hg <-] & Hr)%bind_Ok.
  apply bind_Ok in Hr as (files & w1 & [= <- <-] & Hr).
  apply bind_Ok in Hr as ([] & w1 & Hf & Hd). apply delete_files_only in Hf as (Hs & Hc & Hm & Hk).
  unfold on_store in Hd. destruct (DeleteExecution id (w_store w1)) as [r s] eqn:E.
  injection Hd as -> <-. rewrite Hs in E. cbn. split_and!; try done. by exists coll.
Qed.

(** An execution can be deleted while its run is open, and the run is then
    out of reach: the run, its reservations and its engines are all still
    there, purging the execution is refused as not found, the idle reaper
    spares it as running, and the sweep over abandoned runs skips it as long as
    it has no report. *)
Theorem deleted_execution_strands_run id (w w' : W) r :
  ExecutionApp.Delete id w = (Ok tt, w') → CurrentRun id (st_runs (w_store w)) = Some r →
  CurrentRun id (st_runs (w_store w')) = Some r ∧
  st_ledger (w_store w') = st_ledger (w_store w) ∧ w_cluster w' = w_cluster w ∧
  (∀ now, Purge now id w' = (Err ErrNotFound, w')) ∧
  (∀ now cluster deployedAt ttl, reapIfIdle now id cluster deployedAt ttl w' = (Ok false, w')) ∧
  (∀ now after started, HasReport r (w_metrics w') = Err ErrNotFound →
     abandon_one now after (mkOpenRun id r started) w' = (Ok false, w')).
Proof.
  intros ([coll Hg] & Hd & Hc & Hm & _)%Delete_Ok Hrun. unfold GetExecution in Hg.
  unfold DeleteExecution in Hd. destruct (executions _ !! id) eqn:E; [|done]. injection Hd as Hs.
  assert (GetExecution id (w_store w') = Err ErrNotFound) as Hgone.
  { rewrite <- Hs. unfold GetExecution. cbn. by rewrite lookup_delete_eq. }
  assert (CurrentRun id (st_runs (w_store w')) = Some r) as Hrun' by (by rewrite <- Hs).
  split_and!; try done.
  - by rewrite <- Hs.
  - intros now. unfold Purge, mbind, M_bind, try_store, ask. by rewrite Hgone.
  - intros now cluster at_ ttl. unfold reapIfIdle, mbind, M_bind, read_store. cbn.
    case_bool_decide; [done|]. unfold currentRunOf, read_store. by rewrite Hrun'.
  - intros now after started Hrep. unfold abandon_one. case_bool_decide; [done|].
    unfold mbind, M_bind. cbn. rewrite Hrep. unfold attempt, try_store, ask. by rewrite Hgone.
Qed.
End delete.

Lemma deleted_execution_strands_run_witness :
  ∃ w', ExecutionApp.Delete 4 running_world = (Ok tt, w') ∧ CurrentRun 4 (st_runs (w_store w')) = Some 1 ∧
    Purge 200 4 w' = (Err ErrNotFound, w').
Proof.
  assert (ExecutionApp.Delete 4 running_world = (Ok tt, (ExecutionApp.Delete 4 running_world).2)) as E by (vm_compute; reflexivity).
  assert (CurrentRun 4 (st_runs (w_store running_world)) = Some 1) as Hr by (vm_compute; reflexivity).
  exists (ExecutionApp.Delete 4 running_world).2. split; [exact E|].
  destruct (deleted_execution_strands_run 4 running_world _ 1 E Hr) as (H1 & _ & _ & H2 & _).
  split; [exact H1|apply H2].
Defined.
