(* ===== verification/AdminApp.v ===== *)
(** * Operations and the kill switch ([internal/app/adminapp])

    Listing what is deployed, and tearing down every execution of a tenant, a
    cluster, a campaign or an explicit list.  The bound on how long one call may
    take is not modelled: a purge that fails for it fails like any other. *)
From Stdlib Require Import Ascii.
From S2P Require Import Prelude Errors GoStrings Execution Campaign RunTable Store Cluster.
From S2P Require Import Reservation Quota CampaignApp Lifecycle LifecycleFacts.

Record RunningExecution := mkRunningExecution {
  re_ExecutionID : Z;
  re_Name : string;
  re_ProjectID : Z;
  re_DeployedAt : time;
  re_Running : bool
}.
Definition re_le (a b : RunningExecution) : Prop := re_ExecutionID a <= re_ExecutionID b.
#[global] Instance re_le_dec a b : Decision (re_le a b).
Proof. unfold re_le. apply _. Defined.

Definition ScopeTenant : string := "tenant".
Definition ScopeCluster : string := "cluster".
Definition ScopeCampaign : string := "campaign".
Definition ScopeExecutionList : string := "execution_list".

(** [strconv.ParseInt(s, 10, 64)] accepts what [Atoi] does. *)
Definition parseCampaignID (value : string) : result error Z :=
  match Atoi value with Some id => Ok id | None => Err ErrScopeInvalid end.

Fixpoint parse_ids (parts : list string) : result error (list Z) :=
  match parts with
  | [] => Ok []
  | p :: rest =>
      let p := TrimSpace p in
      if bool_decide (p = "") then parse_ids rest
      else match Atoi p with
           | None => Err ErrScopeInvalid
           | Some id => ids ← parse_ids rest; Ok (id :: ids)
           end
  end.
Definition parseExecutionList (value : string) : result error (list Z) :=
  parse_ids (SplitBy value ","%char).

Section adminapp.
Context {C H : Type} `{!Scheduler C} `{!Metrics H}.
Context (now : time).
Let W : Type := World C H.

Definition running_execution (s : Store) (kv : Z * time) : RunningExecution :=
  let '(name, project) :=
    match GetExecution kv.1 s with Ok c => (exe_Name c, exe_ProjectID c) | Err _ => ("", 0) end in
  mkRunningExecution kv.1 name project kv.2 (bool_decide (is_Some (CurrentRun kv.1 (st_runs s)))).
Definition RunningExecutions : M W error (list RunningExecution) :=
  deployed ← on_cluster (DeployedExecutions "");
  read_store (λ s, merge_sort re_le (running_execution s <$> map_to_list deployed)).

Definition deployedExecutionIDs (cluster : string) : M W error (list Z) :=
  deployed ← on_cluster (DeployedExecutions cluster);
  mret (map_to_list deployed).*1.

Definition of_tenant (s : Store) (tenantID executionID : Z) : bool :=
  match GetExecution executionID s with
  | Ok exe => bool_decide (exe_TenantID exe = Some tenantID)
  | Err _ => false
  end.
Definition deployedExecutionsForTenant (tenantID : Z) : M W error (list Z) :=
  ids ← deployedExecutionIDs "";
  read_store (λ s, filter (λ id, of_tenant s tenantID id = true) ids).

Definition campaignExecutionIDs (campaignID : Z) : M W error (list Z) :=
  c ← try_store (Get campaignID);
  inScope ← InScopeExecutions campaignID;
  deployed ← on_cluster (DeployedExecutions "");
  mret (merge_sort Z.le
    (inScope ++ filter (λ id, is_Some (deployed !! id)) (svc_ExecutionID <$> camp_Services c))).

Definition matchingExecutions (scope value : string) : M W error (list Z) :=
  if bool_decide (scope = ScopeExecutionList) then lift (parseExecutionList value)
  else if bool_decide (scope = ScopeCampaign) then
    campaignID ← lift (parseCampaignID value);
    campaignExecutionIDs campaignID
  else if bool_decide (scope = ScopeTenant) then
    match Atoi value with
    | None => throw ErrScopeInvalid
    | Some tenantID => deployedExecutionsForTenant tenantID
    end
  else if bool_decide (scope = ScopeCluster) then deployedExecutionIDs value
  else throw ErrScopeInvalid.

(** The loop over the targets: the ids whose purge succeeded. *)
Fixpoint purge_targets (targets : list Z) : M W error (list Z) :=
  match targets with
  | [] => mret []
  | executionID :: rest =>
      r ← attempt (Purge now executionID);
      aborted ← purge_targets rest;
      mret (if is_Ok r then executionID :: aborted else aborted)
  end.

(** The ids are returned with the error of a campaign that cannot be closed. *)
Definition Abort (scope value : string) : M W error (list Z * result error unit) :=
  targets ← matchingExecutions scope value;
  aborted ← purge_targets targets;
  let aborted := merge_sort Z.le aborted in
  if bool_decide (scope = ScopeCampaign) then
    match parseCampaignID value with
    | Err e => mret (aborted, Err e)
    | Ok campaignID =>
        r ← attempt (on_store (CampaignApp.Abort now campaignID));
        mret (aborted, r)
    end
  else mret (aborted, Ok tt).
End adminapp.

(** ** What the kill switch does *)
Section killswitch.
Context {C H : Type} `{!Scheduler C} `{!SchedulerLaws C} `{!Metrics H} `{!MetricsLaws H}.
Context (now : time).
Implicit Types w : World C H.

(** Nothing changes but that executions of [T] lose engines or their run. *)
Record only_tears (T : Z → Prop) (w w' : World C H) : Prop := {
  ot_catalog : st_catalog (w_store w') = st_catalog (w_store w);
  ot_campaigns : st_campaigns (w_store w') = st_campaigns (w_store w);
  ot_deployed : ∀ c e, deployed_on c (w_cluster w') !! e = deployed_on c (w_cluster w) !! e ∨
                       T e ∧ taken (deployed_on c (w_cluster w) !! e) (deployed_on c (w_cluster w') !! e);
  ot_current : ∀ e, CurrentRun e (st_runs (w_store w')) = CurrentRun e (st_runs (w_store w)) ∨
                    T e ∧ CurrentRun e (st_runs (w_store w')) = None
}.
#[global] Instance only_tears_po T : PreOrder (only_tears T).
Proof using.
  split; [by split; intros; auto|]. intros w1 w2 w3 [A1 A2 A3 A4] [B1 B2 B3 B4]. split.
  - congruence.
  - congruence.
  - intros c e. destruct (A3 c e) as [E1|[? E1]], (B3 c e) as [E2|[? E2]];
      [left; congruence|right; split; [done|].. ]; [by rewrite <- E1|by rewrite E2|by etrans].
  - intros e. destruct (A4 e) as [E1|[? E1]], (B4 e) as [E2|[? E2]]; rewrite ?E2, ?E1; auto.
Qed.

Lemma tears_cluster T e w w' :
  T e → only_removes e w w' → same_store w w' → only_tears T w w'.
Proof using.
  intros HT Hr Hs. unfold same_store in Hs. split; rewrite ?Hs; auto.
  intros c e'. destruct (Hr c e') as [->|[-> ?]]; auto.
Qed.
#[global] Instance tears_listing T c : Keeps (only_tears T) (on_cluster (H := H) (DeployedExecutions c)).
Proof using.
  intros w. unfold on_cluster. pose proof (list_reads c (w_cluster w)) as Hl.
  destruct (DeployedExecutions c (w_cluster w)) as [r cl]; cbn in *. split; auto.
  intros c' e. left. cbn. by rewrite Hl.
Qed.

Lemma tears_teardown (T : Z → Prop) e : T e → Keeps (only_tears T) (teardown (C := C) (H := H) now e).
Proof using MetricsLaws0.
  intros HT w. destruct (teardown_spec now e w) as (w' & -> & Ht). cbn. split.
  - apply (td_catalog _ _ _ _ Ht).
  - apply (td_campaigns _ _ _ _ Ht).
  - intros c e'. left. by rewrite (td_cluster _ _ _ _ Ht).
  - intros e'. unfold CurrentRun. rewrite (torn_current now e w w') by done.
    destruct (decide (e' = e)) as [->|]; auto.
Qed.
Lemma tears_capture (T : Z → Prop) e r : T e → Keeps (only_tears T) (captureLogs (C := C) (H := H) e r).
Proof using SchedulerLaws0.
  intros HT w. apply (tears_cluster _ e); [done|apply removes_capture|].
  assert (Keeps (same_store (C := C) (H := H)) (captureLogs e r)) as Hk
    by (unfold captureLogs; solve_keeps). apply Hk.
Qed.
Lemma tears_Purge (T : Z → Prop) e : T e → Keeps (only_tears T) (Purge (C := C) (H := H) now e).
Proof using SchedulerLaws0 MetricsLaws0.
  intros HT. pose proof (tears_teardown T e HT). pose proof (tears_capture T e) as Hcap.
  assert (∀ r, Keeps (only_tears T) (captureLogs (C := C) (H := H) e r)) by (intros; by apply Hcap).
  assert (∀ c, Keeps (only_tears T) (on_cluster (H := H) (PurgeExecution c e))).
  { intros c w. apply (tears_cluster _ e); [done|apply removes_purge|].
    apply (store_cluster (PurgeExecution c e)). }
  assert (Keeps (only_tears T) (on_metrics (C := C) (H := H)
    (modify (λ sh, (sh.1, MetricsPurge e sh.2))))).
  { intros w. split; auto. }
  unfold Purge, teardownAndCapture, currentRunOf. solve_keeps.
Qed.

Lemma tears_matching T scope value : Keeps (only_tears T) (matchingExecutions (C := C) (H := H) scope value).
Proof using SchedulerLaws0.
  unfold matchingExecutions, campaignExecutionIDs, deployedExecutionsForTenant, deployedExecutionIDs,
    InScopeExecutions. solve_keeps.
Qed.

(** An execution of which nothing is left. *)
Definition cleared (e : Z) (w : World C H) : Prop :=
  ∃ coll, executions (st_catalog (w_store w)) !! e = Some coll ∧
    (∀ c, c ∈ Clusters coll → deployed_on c (w_cluster w) !! e = None) ∧
    CurrentRun e (st_runs (w_store w)) = None.
Lemma cleared_tears T e w w' : only_tears T w w' → cleared e w → cleared e w'.
Proof using.
  intros [H1 _ H3 H4] (coll & Hc & Hd & Hr). exists coll. rewrite H1. split; [done|]. split.
  - intros c Hin. destruct (H3 c e) as [->|[_ Ht]]; auto.
  - destruct (H4 e) as [->|[_ ->]]; auto.
Qed.

Lemma purge_targets_spec targets w :
  ∃ aborted w', purge_targets now targets w = (Ok aborted, w') ∧
    only_tears (.∈ targets) w w' ∧ aborted `sublist_of` targets ∧
    Forall (λ e, cleared e w') aborted.
Proof using SchedulerLaws0 MetricsLaws0.
  revert w. induction targets as [|e targets IH]; intros w; cbn [purge_targets].
  { exists [], w. split; [done|]. split; [reflexivity|]. split; [done|constructor]. }
  pose proof (tears_Purge (.∈ e :: targets) e (list_elem_of_here _ _) w) as Hp.
  unfold mbind, M_bind, attempt. destruct (Purge now e w) as [r w1] eqn:Hpurge. cbn in Hp.
  destruct (IH w1) as (aborted & w2 & E & Ht & Hsub & Hall). rewrite E.
  eexists _, w2. split; [reflexivity|].
  assert (only_tears (.∈ e :: targets) w1 w2) as Ht'.
  { destruct Ht as [H1 H2 H3 H4]. split; [done|done| |].
    - intros c x. destruct (H3 c x) as [?|[? ?]]; [by left|right]. split; [by right|done].
    - intros x. destruct (H4 x) as [?|[? ?]]; [by left|right]. split; [by right|done]. }
  split; [by etrans|]. destruct r as [[]|err]; cbn [is_Ok].
  - split; [by constructor|]. constructor; [|done]. apply (cleared_tears _ _ _ _ Ht').
    destruct (Purge_Ok now e w w1 Hpurge) as (coll & Hc & Hgone & _ & Hrun & _).
    exists coll. split; [|done]. by rewrite (ot_catalog _ _ _ Hp).
  - split; [by constructor|done].
Qed.


(** The tenant kill switch looks at the control plane's own cluster only: an
    execution of the tenant that is deployed on another cluster and not there
    is not a target, and keeps its engines and its run. *)
Theorem tenant_abort_spares_other_clusters value w targets w1 e coll t :
  matchingExecutions ScopeTenant value w = (Ok targets, w1) →
  executions (st_catalog (w_store w)) !! e = Some coll → exe_TenantID coll = Some t →
  Atoi value = Some t → deployed_on "" (w_cluster w) !! e = None →
  ¬ e ∈ targets ∧
  ∃ aborted w', Abort now ScopeTenant value w = (Ok (aborted, Ok tt), w') ∧ ¬ e ∈ aborted ∧
    (∀ c, deployed_on c (w_cluster w') !! e = deployed_on c (w_cluster w) !! e) ∧
    CurrentRun e (st_runs (w_store w')) = CurrentRun e (st_runs (w_store w)).
Proof using SchedulerLaws0 MetricsLaws0.
  intros Hm Hex Hten Hval Hdep.
  pose proof (tears_matching (.∈ targets) ScopeTenant value w) as Ht1. rewrite Hm in Ht1. cbn in Ht1.
  assert (¬ e ∈ targets) as Hnot.
  { unfold matchingExecutions in Hm.
    rewrite !bool_decide_eq_false_2, bool_decide_eq_true_2, Hval in Hm by done.
    apply bind_Ok in Hm as (ids & w0 & Hids & Hread). injection Hread as <- _.
    apply bind_Ok in Hids as (dep & w2 & Hl & Hret). injection Hret as <- _.
    unfold on_cluster in Hl. destruct (DeployedExecutions "" (w_cluster w)) as [r cl] eqn:E.
    injection Hl as -> _. apply deployed_read in E as ->.
    rewrite list_elem_of_filter, list_elem_of_fmap. intros [_ ([e' d] & -> & Hin%elem_of_map_to_list)].
    cbn in Hdep. congruence. }
  split; [done|].
  destruct (purge_targets_spec targets w1) as (aborted & w2 & E & Ht2 & Hsub & _).
  assert (only_tears (.∈ targets) w w2) as Ht by (by etrans).
  exists (merge_sort Z.le aborted), w2. split.
  { unfold Abort. cbv [mbind M_bind]. rewrite Hm, E. by rewrite bool_decide_eq_false_2. }
  split.
  { rewrite (merge_sort_Permutation Z.le aborted). intros Hin. apply Hnot.
    apply sublist_subseteq in Hsub. by apply Hsub. }
  split; [intros c; by destruct (ot_deployed _ _ _ Ht c e) as [?|[? _]]|].
  by destruct (ot_current _ _ _ Ht e) as [?|[? _]].
Qed.
End killswitch.



(** The same system with its engines on cluster ["c"] of two clusters. *)
Definition fleet_world : World Fleet unit :=
  mkWorld (w_store running_world)
    {[ "" := NewScheduler; "c" := w_cluster running_world ]} NewObjectStore tt.
Lemma tenant_abort_spares_other_clusters_witness :
  ∃ aborted w', Abort 200 ScopeTenant "9" fleet_world = (Ok (aborted, Ok tt), w') ∧
    is_Some (fleet_deployed "c" (w_cluster w') !! 4) ∧
    CurrentRun 4 (st_runs (w_store w')) = Some 1.
Proof.
  assert (matchingExecutions ScopeTenant "9" fleet_world = (Ok [], fleet_world)) as Hm
    by (vm_compute; reflexivity).
  destruct (executions (st_catalog (w_store fleet_world)) !! 4) as [coll|] eqn:Hc;
    [|exfalso; vm_compute in Hc; discriminate Hc].
  assert (exe_TenantID coll = Some 9) as Ht
    by (vm_compute in Hc; injection Hc as <-; reflexivity).
  destruct (tenant_abort_spares_other_clusters 200 "9" fleet_world [] fleet_world 4 coll 9 Hm Hc Ht
    ltac:(vm_compute; reflexivity) ltac:(vm_compute; reflexivity))
    as (_ & aborted & w' & E & _ & Hdep & Hrun).
  exists aborted, w'. split; [exact E|]. split.
  - pose proof (Hdep "c" : fleet_deployed "c" (w_cluster w') !! 4 =
      fleet_deployed "c" (w_cluster fleet_world) !! 4) as ->.
    exists 50. vm_compute. reflexivity.
  - rewrite Hrun. vm_compute. reflexivity.
Defined.
