(* ===== verification/Reconciliation.v ===== *)
(** * Reconciling open runs with what is left of them

    A run whose every shard finished while nobody watched is closed by
    [Reconcile]; a run that lost its engines is closed by
    [ReconcileAbandoned] once it is old enough. *)
From S2P Require Import Prelude Errors LoadProfile Execution.
From S2P Require Import RunTable Store Cluster Lifecycle LifecycleFacts.

Section reconciling.
Context {C H : Type} `{!Scheduler C} `{!Metrics H} `{!MetricsLaws H}.
Context (now : time).
Implicit Types w : World C H.
Local Abbreviation runs w := (st_runs (w_store w)).

(** Every planned shard of the execution has left an orphaned completion. *)
Definition covered (e : Z) (s : Store) : Prop :=
  OrphanCompletions e (st_runs s) ≠ [] ∧ LoadProfileFor e s ≠ [] ∧
  ∀ ep i, ep ∈ LoadProfileFor e s → 0 <= i < Engines ep →
    ∃ oc, oc ∈ OrphanCompletions e (st_runs s) ∧
          oc_ScenarioID oc = ScenarioID ep ∧ oc_ShardIndex oc = i.

Lemma elem_of_shards_of i n : i ∈ shards_of n ↔ 0 <= i < n.
Proof using.
  unfold shards_of. rewrite list_elem_of_fmap. split.
  - intros (k & -> & Hk%elem_of_seq). lia.
  - intros Hi. exists (Z.to_nat i). rewrite elem_of_seq. lia.
Qed.

Lemma orphansCoverProfile_iff os profile :
  orphansCoverProfile os profile = true ↔
  profile ≠ [] ∧ ∀ ep i, ep ∈ profile → 0 <= i < Engines ep →
    ∃ oc, oc ∈ os ∧ oc_ScenarioID oc = ScenarioID ep ∧ oc_ShardIndex oc = i.
Proof using.
  unfold orphansCoverProfile. rewrite andb_true_iff, bool_decide_eq_true, forallb_forall.
  assert (0 < Z.of_nat (length profile) ↔ profile ≠ []) as ->.
  { destruct profile; simpl; split; [lia|done|done|lia]. }
  split.
  - intros [Hall Hne]. split; [done|]. intros ep i Hep%list_elem_of_In Hi%elem_of_shards_of.
    specialize (Hall ep Hep). rewrite forallb_forall in Hall.
    specialize (Hall i (proj1 (list_elem_of_In _ _) Hi)).
    apply bool_decide_eq_true in Hall. rewrite elem_of_list_to_set, list_elem_of_fmap in Hall.
    destruct Hall as (oc & [= -> ->] & ?). eauto.
  - intros [Hne Hall]. split; [|done]. intros ep Hep%list_elem_of_In. apply forallb_forall.
    intros i Hi%list_elem_of_In%elem_of_shards_of. apply bool_decide_eq_true.
    rewrite elem_of_list_to_set, list_elem_of_fmap.
    destruct (Hall ep i Hep Hi) as (oc & ? & <- & <-). eauto.
Qed.

#[global] Instance covered_dec e s : Decision (covered e s).
Proof using.
  destruct (decide (OrphanCompletions e (st_runs s) = [])) as [E|E].
  { right. by intros [? _]. }
  destruct (orphansCoverProfile (OrphanCompletions e (st_runs s)) (LoadProfileFor e s)) eqn:Hc.
  - left. split; [done|]. by apply orphansCoverProfile_iff.
  - right. intros (_ & Hc'%orphansCoverProfile_iff). congruence.
Defined.

(** What neither pass changes, as far as coverage is concerned. *)
Definition same_cover (w w' : World C H) : Prop :=
  st_catalog (w_store w') = st_catalog (w_store w) ∧ orphans (runs w') = orphans (runs w).
#[global] Instance same_cover_po : PreOrder same_cover.
Proof using. split; [by split|]. intros w1 w2 w3 [? ?] [? ?]. split; congruence. Qed.

Lemma same_cover_iff w w' e : same_cover w w' → covered e (w_store w') ↔ covered e (w_store w).
Proof using.
  intros [E1 E2]. unfold covered, LoadProfileFor, OrphanCompletions. by rewrite E1, E2.
Qed.

(** Finalising then stopping a run. *)
Lemma finalize_stop e r (m : M (Store * H) error unit) w w' :
  (∀ s h, finalize_frame now e r s (m (s, h)).2.1) →
  (_ ← on_metrics m; upd_runs (StopRun now e)) w = (Ok tt, w') →
  same_cover w w' ∧
  ∀ e', CurrentRun e' (runs w') = if decide (e' = e) then None else CurrentRun e' (runs w).
Proof using.
  intros Hm ([] & w1 & H1 & H2)%bind_Ok. unfold on_metrics in H1.
  pose proof (Hm (w_store w) (w_metrics w)) as Hf.
  destruct (m (w_store w, w_metrics w)) as [res [s h]]. injection H1 as -> <-.
  injection H2 as <-. simpl in *. destruct (ff_runs _ _ _ _ _ Hf) as [Hr|[_ Hr]];
    (split; [split; [apply (ff_catalog _ _ _ _ _ Hf)|simpl; by rewrite Hr, ?StopRun_orphans]|]);
    intros e'; simpl; rewrite Hr; unfold CurrentRun; rewrite !StopRun_current;
    by repeat case_decide.
Qed.

Lemma reconcile_one_spec o w w' :
  reconcile_one now o w = (Ok tt, w') →
  same_cover w w' ∧
  ∀ e, CurrentRun e (runs w') =
    if decide (e = or_ExecutionID o ∧ covered e (w_store w)) then None else CurrentRun e (runs w).
Proof using Scheduler0 MetricsLaws0.
  assert (¬ covered (or_ExecutionID o) (w_store w) → ∀ e, CurrentRun e (runs w) =
    if decide (e = or_ExecutionID o ∧ covered e (w_store w)) then None
    else CurrentRun e (runs w)) as Hnot.
  { intros Hn e. rewrite decide_False; [done|]. by intros [-> ?]. }
  unfold reconcile_one. intros (os & w0 & [= <- <-] & H1)%bind_Ok.
  destruct (bool_decide_reflect (OrphanCompletions (or_ExecutionID o) (runs w) = [])) as [Ho|Ho].
  { injection H1 as <-. split; [done|]. apply Hnot. by intros [? _]. }
  apply bind_Ok in H1 as (pr & w0 & [= <- <-] & H1).
  destruct (orphansCoverProfile _ _) eqn:Hc; cbn [negb] in H1.
  - apply finalize_stop with (r := or_RunID o) in H1 as [Hs Hcur];
      [|intros; apply finalize_orphaned_ok].
    split; [done|]. intros e. rewrite Hcur. destruct (decide (e = or_ExecutionID o)) as [->|Hne].
    + rewrite decide_True; [done|]. split; [done|]. split; [done|]. by apply orphansCoverProfile_iff.
    + rewrite decide_False; [done|]. by intros [? _].
  - injection H1 as <-. split; [done|]. apply Hnot.
    intros (_ & Hc'%orphansCoverProfile_iff). congruence.
Qed.

Lemma reconcile_loop_spec l w w' :
  for_each l (reconcile_one now) w = (Ok tt, w') →
  ∀ e, CurrentRun e (runs w') =
    if decide (e ∈ or_ExecutionID <$> l ∧ covered e (w_store w)) then None
    else CurrentRun e (runs w).
Proof using Scheduler0 MetricsLaws0.
  revert w. induction l as [|o l IH]; intros w; cbn [for_each].
  { intros [= <-] e. rewrite decide_False; [done|]. by intros [?%elem_of_nil _]. }
  intros ([] & w1 & [Hs Hone]%reconcile_one_spec & Hrest)%bind_Ok e.
  rewrite (IH w1 Hrest e), (Hone e), fmap_cons.
  pose proof (same_cover_iff w w1 e Hs) as Hiff.
  repeat case_decide; rewrite ?elem_of_cons in *; tauto.
Qed.

Lemma OpenRuns_complete e t : e ∈ or_ExecutionID <$> OpenRuns t ↔ is_Some (CurrentRun e t).
Proof using.
  unfold OpenRuns. rewrite merge_sort_Permutation, <- list_fmap_compose.
  rewrite list_elem_of_fmap. split.
  - intros ([e' r] & -> & Hin%elem_of_map_to_list). by exists r.
  - intros [r Hr]. exists (e, r). split; [done|]. by apply elem_of_map_to_list.
Qed.

(** A reconciliation pass that completes closes exactly the open runs every
    planned shard of which finished unobserved: a run with a shard still out,
    or with nothing recorded, stays open, and nothing new is opened. *)
Theorem reconcile_closes_covered w w' :
  Reconcile now w = (Ok tt, w') →
  ∀ e, CurrentRun e (runs w') =
    if decide (covered e (w_store w)) then None else CurrentRun e (runs w).
Proof using Scheduler0 MetricsLaws0.
  unfold Reconcile. intros (l & w0 & [= <- <-] & Hl)%bind_Ok e.
  rewrite (reconcile_loop_spec _ _ _ Hl e).
  repeat case_decide; rewrite ?OpenRuns_complete in *; try tauto.
  apply eq_None_not_Some. tauto.
Qed.

(** ** Abandoned runs *)
Lemma abandon_one_spec after o w b w' :
  abandon_one now after o w = (Ok b, w') →
  (b = true → after <= time_Sub now (or_StartedTime o)) ∧
  ∀ e, CurrentRun e (runs w') =
    if decide (b = true ∧ e = or_ExecutionID o) then None else CurrentRun e (runs w).
Proof using MetricsLaws0.
  assert (∀ w1 w2, w_store w2 = w_store w1 → (false = true → after <= time_Sub now (or_StartedTime o)) ∧
    ∀ e, CurrentRun e (runs w2) = if decide (false = true ∧ e = or_ExecutionID o) then None
      else CurrentRun e (runs w1)) as Hkeep.
  { intros w1 w2 E. split; [done|]. intros e. rewrite decide_False by (by intros [? _]). by rewrite E. }
  unfold abandon_one.
  destruct (bool_decide_reflect (time_Sub now (or_StartedTime o) < after)) as [|Hold].
  { intros [= <- <-]. by apply Hkeep. }
  assert (∀ m : M (World C H) error unit, (∀ w1, (_ ← m; mret true) w = (Ok b, w1) →
    m w = (Ok tt, w1) ∧ b = true)) as Hret.
  { intros m w1 ([] & w2 & Hm & [= <- <-])%bind_Ok. done. }
  intros (rep & w0 & [= <- <-] & H1)%bind_Ok.
  destruct (HasReport _ _) as [[]|er].
  - apply Hret in H1 as [[= <-] ->]. split; [lia|]. intros e. simpl. unfold CurrentRun.
    rewrite StopRun_current. repeat case_decide; tauto.
  - destruct er; try done. apply bind_Ok in H1 as (cl & w1 & Hcl & H1).
    assert (w1 = w) as ->.
    { unfold attempt, try_store, ask in Hcl. by injection Hcl. }
    destruct cl as [coll|[]]; try done; [|injection H1 as <- <-; by apply Hkeep].
    apply bind_Ok in H1 as (pr & w0 & [= <- <-] & H1).
    apply bind_Ok in H1 as (st & w1 & Hst & H1).
    pose proof (store_status coll (or_ExecutionID o)
      (planRefs (LoadProfileFor (or_ExecutionID o) (w_store w))) w) as Hsame.
    rewrite Hst in Hsame. unfold same_store in Hsame. simpl in Hsame.
    destruct (0 <? es_PoolSize st); [injection H1 as <- <-; by apply Hkeep|].
    apply bind_Ok in H1 as ([] & w2 & H2 & H3). apply bind_Ok in H3 as ([] & w3 & H3 & [= <- <-]).
    destruct (finalize_stop (or_ExecutionID o) (or_RunID o) (Finalize now (or_ExecutionID o)
      (or_RunID o)) w1 w3) as [_ Hcur]; [intros; apply finalize_ok|apply bind_Ok; eauto|].
    split; [lia|]. intros e. rewrite Hcur, Hsame. repeat case_decide; tauto.
Qed.

Lemma abandon_loop_spec after l closed w out w' :
  abandon_loop now after l closed w = (Ok out, w') →
  ∃ new, out = closed ++ new ∧ new ⊆ l ∧
    (∀ o, o ∈ new → after <= time_Sub now (or_StartedTime o)) ∧
    ∀ e, CurrentRun e (runs w') =
      if decide (e ∈ or_ExecutionID <$> new) then None else CurrentRun e (runs w).
Proof using MetricsLaws0.
  revert closed w. induction l as [|o l IH]; intros closed w; cbn [abandon_loop].
  { intros [= <- <-]. exists []. rewrite app_nil_r. split_and!; [done|done|set_solver|].
    intros e. by rewrite decide_False by apply not_elem_of_nil. }
  intros (b & w1 & [Hage Hone]%abandon_one_spec & (new & -> & Hsub & Hold & Hcur)%IH)%bind_Ok.
  exists (if b then o :: new else new). destruct b.
  - rewrite <- app_assoc. split_and!; [done|set_solver|set_solver|]. intros e.
    rewrite Hcur, Hone, fmap_cons. repeat case_decide; rewrite ?elem_of_cons in *; tauto.
  - split_and!; [done|set_solver|done|]. intros e. rewrite Hcur, Hone.
    repeat case_decide; naive_solver.
Qed.

(** A sweep for abandoned runs that completes reports exactly what it
    closed: every run it reports was open, at least [after] old, and is closed
    now; every other execution's run is as it was.  With a non-positive
    [after] the sweep is off and closes nothing. *)
Theorem abandoned_sweep_exact after w closed w' :
  ReconcileAbandoned now after w = (Ok closed, w') →
  (∀ o, o ∈ closed → 0 < after <= time_Sub now (or_StartedTime o) ∧ o ∈ OpenRuns (runs w)) ∧
  ∀ e, CurrentRun e (runs w') =
    if decide (e ∈ or_ExecutionID <$> closed) then None else CurrentRun e (runs w).
Proof using MetricsLaws0.
  unfold ReconcileAbandoned. destruct (Z.leb_spec after 0).
  { intros [= <- <-]. split; [set_solver|]. intros e.
    by rewrite decide_False by apply not_elem_of_nil. }
  intros (l & w0 & [= <- <-] & (new & -> & Hsub & Hold & Hcur)%abandon_loop_spec)%bind_Ok.
  split; [|done]. intros o Ho. split; [split; [lia|by apply Hold]|by apply Hsub].
Qed.
End reconciling.

(** ** On the live system: both engines of execution 4 finish unobserved. *)
Definition orphan (shard : Z) : OrphanCompletion := mkOrphan 4 2 shard (Some 0) 150.
Definition orphaned : World FakeScheduler unit :=
  set_store (set_runs (RecordOrphanCompletion (orphan 0) (RecordOrphanCompletion (orphan 1)
    (st_runs (w_store running_world)))) (w_store running_world)) running_world.
Definition reconciled : World FakeScheduler unit := (Reconcile 300 orphaned).2.

Lemma reconcile_closes_covered_witness :
  Reconcile 300 orphaned = (Ok tt, reconciled) ∧
  CurrentRun 4 (st_runs (w_store reconciled)) = None.
Proof.
  assert (Reconcile 300 orphaned = (Ok tt, reconciled)) as Hr by (vm_compute; reflexivity).
  split; [exact Hr|]. rewrite (reconcile_closes_covered 300 orphaned reconciled Hr 4).
  vm_compute. reflexivity.
Defined.

Definition engines_gone : World FakeScheduler unit :=
  mkWorld (w_store running_world) NewScheduler NewObjectStore tt.
Lemma abandoned_sweep_exact_witness :
  ReconcileAbandoned 5000 60 engines_gone =
    (Ok [mkOpenRun 4 1 100], (ReconcileAbandoned 5000 60 engines_gone).2) ∧
  CurrentRun 4 (st_runs (w_store (ReconcileAbandoned 5000 60 engines_gone).2)) = None.
Proof.
  assert (ReconcileAbandoned 5000 60 engines_gone =
    (Ok [mkOpenRun 4 1 100], (ReconcileAbandoned 5000 60 engines_gone).2)) as Hr
    by (vm_compute; reflexivity).
  split; [exact Hr|].
  rewrite (proj2 (abandoned_sweep_exact 5000 60 engines_gone _ _ Hr) 4).
  vm_compute. reflexivity.
Defined.
