(* ===== verification/MetricsApp.v ===== *)
(** * The metrics service ([internal/app/metricsapp])

    It takes in what the sidecars push, and finalises runs: when every shard
    has finished, or because the lifecycle service ends them.  It implements
    the [Metrics] interface the lifecycle service is written against. *)
From S2P Require Import Prelude Errors GoStrings GoFloat LoadProfile Run Taurus Execution.
From S2P Require Import Histogram Report ReportFacts Progress RunTable Store Lifecycle.

(** ** The report store ([internal/ports/fake/reportstore.go]) *)
Record ReportStore := mkReportStore {
  reports : gmap Z Report; SaveErr : option error; GetErr : option error
}.
Definition NewReportStore : ReportStore := mkReportStore ∅ None None.

Definition with_marks (starred : bool) (note : string) (r : Report) : Report :=
  mkReport (rep_ExecutionID r) (rep_ScenarioID r) (rep_RunID r) (rep_Engine r) (rep_Cluster r)
    (rep_CorrelationID r) (rep_StartedAt r) (rep_EndedAt r) (rep_Outcome r) (rep_Requested r)
    (rep_Achieved r) (rep_ErrorRate r) (rep_Latency r) (rep_Attribution r) (rep_Errors r)
    (rep_Labels r) (rep_ClusterResults r) (rep_SoakTrend r) starred note.
Definition put_report (m : gmap Z Report) (rs : ReportStore) : ReportStore :=
  mkReportStore m (SaveErr rs) (GetErr rs).

Definition SaveReport (r : Report) (rs : ReportStore) : result error unit * ReportStore :=
  match SaveErr rs with
  | Some e => (Err e, rs)
  | None =>
      match Report_Validate r with
      | Err e => (Err e, rs)
      | Ok _ =>
          match reports rs !! rep_RunID r with
          | Some _ => (Ok tt, rs)
          | None => (Ok tt, put_report (<[rep_RunID r := with_marks false "" r]> (reports rs)) rs)
          end
      end
  end.
Definition GetReport (runID : Z) (rs : ReportStore) : result error Report :=
  match GetErr rs with
  | Some e => Err e
  | None => match reports rs !! runID with Some r => Ok r | None => Err ErrNotFound end
  end.
Definition SetStarred (runID : Z) (starred : bool) (rs : ReportStore) :
    result error unit * ReportStore :=
  match reports rs !! runID with
  | None => (Err ErrNotFound, rs)
  | Some r => (Ok tt, put_report (<[runID := with_marks starred (rep_Note r) r]> (reports rs)) rs)
  end.
Definition SetNote (runID : Z) (note : string) (rs : ReportStore) :
    result error unit * ReportStore :=
  match reports rs !! runID with
  | None => (Err ErrNotFound, rs)
  | Some r => (Ok tt, put_report (<[runID := with_marks (rep_Starred r) note r]> (reports rs)) rs)
  end.
Definition report_le (a b : Report) : Prop :=
  rep_StartedAt b < rep_StartedAt a ∨
  rep_StartedAt a = rep_StartedAt b ∧ rep_RunID b <= rep_RunID a.
#[global] Instance report_le_dec a b : Decision (report_le a b).
Proof. unfold report_le. apply _. Defined.
Definition trim (limit : Z) (l : list Report) : list Report :=
  let sorted := merge_sort report_le l in
  if (0 <? limit) && (limit <? Z.of_nat (length sorted)) then take (Z.to_nat limit) sorted
  else sorted.
Definition ListReports (executionID limit : Z) (rs : ReportStore) : list Report :=
  trim limit (filter (λ r, rep_ExecutionID r = executionID) (map_to_list (reports rs)).*2).
Definition ReportsSince (since : time) (limit : Z) (rs : ReportStore) : list Report :=
  trim limit (filter (λ r, Before (rep_StartedAt r) since = false) (map_to_list (reports rs)).*2).

(** ** The service's state *)
Record Metric := mkMetric {
  me_Threads : float64; me_Latency : float64; me_Label : string; me_Status : string;
  me_ExecutionID : string; me_ScenarioID : string; me_EngineID : string; me_RunID : string
}.
Record clusterCounts := mkClusterCounts { cc_Samples : Z; cc_Failed : Z }.

(** [X]: the state of the threshold evaluator.  What the sink, the event bus
    and the notifier were given is kept in the order it was given. *)
Record MetricsState (X : Type) := mkMetricsState {
  ms_progress : ReportProgress;
  ms_reports : ReportStore;
  ms_seen : gmap Z (gset string);
  ms_tally : gmap Z (gmap string clusterCounts);
  ms_sink : list (Metric + Z);
  ms_bus : list (Z * Metric);
  ms_notified : list (Z * Report);
  ms_thresholds : X
}.
Arguments mkMetricsState {X}.
Arguments ms_progress {X}.
Arguments ms_reports {X}.
Arguments ms_seen {X}.
Arguments ms_tally {X}.
Arguments ms_sink {X}.
Arguments ms_bus {X}.
Arguments ms_notified {X}.
Arguments ms_thresholds {X}.

(** The [ThresholdEvaluator] interface. *)
Class ThresholdEvaluator (X : Type) := { EvaluateRun : Report → M X error unit }.
(** No evaluator wired. *)
#[global] Instance no_thresholds : ThresholdEvaluator unit := { EvaluateRun _ := mret tt }.

Section service.
Context {X : Type} `{!ThresholdEvaluator X} (now : time).
Let H : Type := MetricsState X.
Let MS (A : Type) : Type := M (Store * H) error A.

Definition set_progress (p : ReportProgress) (h : H) : H :=
  mkMetricsState p (ms_reports h) (ms_seen h) (ms_tally h) (ms_sink h) (ms_bus h) (ms_notified h)
    (ms_thresholds h).
Definition set_reports (r : ReportStore) (h : H) : H :=
  mkMetricsState (ms_progress h) r (ms_seen h) (ms_tally h) (ms_sink h) (ms_bus h) (ms_notified h)
    (ms_thresholds h).
Definition set_seen (s : gmap Z (gset string)) (h : H) : H :=
  mkMetricsState (ms_progress h) (ms_reports h) s (ms_tally h) (ms_sink h) (ms_bus h)
    (ms_notified h) (ms_thresholds h).
Definition set_tally (t : gmap Z (gmap string clusterCounts)) (h : H) : H :=
  mkMetricsState (ms_progress h) (ms_reports h) (ms_seen h) t (ms_sink h) (ms_bus h)
    (ms_notified h) (ms_thresholds h).
Definition set_sink (k : list (Metric + Z)) (h : H) : H :=
  mkMetricsState (ms_progress h) (ms_reports h) (ms_seen h) (ms_tally h) k (ms_bus h)
    (ms_notified h) (ms_thresholds h).
Definition set_bus (b : list (Z * Metric)) (h : H) : H :=
  mkMetricsState (ms_progress h) (ms_reports h) (ms_seen h) (ms_tally h) (ms_sink h) b
    (ms_notified h) (ms_thresholds h).
Definition set_notified (n : list (Z * Report)) (h : H) : H :=
  mkMetricsState (ms_progress h) (ms_reports h) (ms_seen h) (ms_tally h) (ms_sink h) (ms_bus h) n
    (ms_thresholds h).

(** Lifts of the parts' methods to the service's state. *)
Definition repo_read {A} (f : Store → A) : MS A := λ sh, (Ok (f sh.1), sh).
Definition repo_try {A} (f : Store → result error A) : MS A := λ sh, (f sh.1, sh).
Definition repo_upd (f : Store → Store) : MS unit := λ sh, (Ok tt, (f sh.1, sh.2)).
Definition own_read {A} (f : H → A) : MS A := λ sh, (Ok (f sh.2), sh).
Definition own_upd (f : H → H) : MS unit := λ sh, (Ok tt, (sh.1, f sh.2)).
Definition on_progress (f : ReportProgress → result error unit * ReportProgress) : MS unit :=
  λ sh, let '(r, p) := f (ms_progress sh.2) in (r, (sh.1, set_progress p sh.2)).
Definition on_reports (f : ReportStore → result error unit * ReportStore) : MS unit :=
  λ sh, let '(r, rs) := f (ms_reports sh.2) in (r, (sh.1, set_reports rs sh.2)).
Definition on_thresholds (f : M X error unit) : MS unit :=
  λ sh, let '(r, x) := f (ms_thresholds sh.2) in
        (r, (sh.1, mkMetricsState (ms_progress sh.2) (ms_reports sh.2) (ms_seen sh.2)
                     (ms_tally sh.2) (ms_sink sh.2) (ms_bus sh.2) (ms_notified sh.2) x)).

(** *** What was seen, and the tally per cluster ([ingest.go]) *)
Definition seen_mark (executionID : Z) (key : string) (h : H) : bool * H :=
  let keys := default ∅ (ms_seen h !! executionID) in
  if bool_decide (key ∈ keys) then (false, set_seen (<[executionID := keys]> (ms_seen h)) h)
  else (true, set_seen (<[executionID := {[ key ]} ∪ keys]> (ms_seen h)) h).
Definition seen_forget (executionID : Z) (h : H) : H :=
  set_seen (delete executionID (ms_seen h)) h.
Definition tally_add (runID : Z) (cluster : string) (iv : Interval) (h : H) : H :=
  let counts := default ∅ (ms_tally h !! runID) in
  let cur := default (mkClusterCounts 0 0) (counts !! cluster) in
  set_tally (<[runID := <[cluster := mkClusterCounts (cc_Samples cur +w iv_Samples iv)
                                       (cc_Failed cur +w iv_Failed iv)]> counts]> (ms_tally h)) h.
Definition tally_snapshot (runID : Z) (h : H) : list ClusterResult :=
  match ms_tally h !! runID with
  | None => []
  | Some counts =>
      (λ name, let c := default (mkClusterCounts 0 0) (counts !! name) in
               mkClusterResult name None (cc_Samples c) (cc_Failed c)) <$>
        merge_sort str_le (map_to_list counts).*1
  end.
Definition tally_forget (runID : Z) (h : H) : H := set_tally (delete runID (ms_tally h)) h.

Definition intervalKey (b : Batch) (iv : Interval) : string :=
  b_Cluster b +:+ "|" +:+ pretty (b_ShardIndex b) +:+ "|" +:+ pretty (b_ScenarioID b) +:+ "|"
  +:+ pretty (iv_Timestamp iv) +:+ "|" +:+ iv_Label iv.

Definition record (b : Batch) (iv : Interval) (runID : Z) (h : H) : H :=
  let status := if (0 <? iv_Failed iv) && (iv_Succeeded iv =? 0) then "500" else "200" in
  let shard := pretty (b_ShardIndex b) in
  let engineID := if bool_decide (b_Cluster b ≠ "") then b_Cluster b +:+ "/" +:+ shard else shard in
  let m := mkMetric (of_int (iv_Concurrency iv)) (Percentile (iv_Latency iv) (of_int 50))
             (iv_Label iv) status (pretty (b_ExecutionID b)) (pretty (b_ScenarioID b)) engineID
             (pretty runID) in
  set_bus (ms_bus h ++ [(b_ExecutionID b, m)]) (set_sink (ms_sink h ++ [inl m]) h).

Definition Purge (executionID : Z) (h : H) : H :=
  seen_forget executionID (set_sink (ms_sink h ++ [inr executionID]) h).

(** *** Finalising ([service.go]) *)
Definition requested_step (load : Load) (e : Entry) : Load :=
  let throughput := fadd (ld_Throughput load) (of_int (Throughput e)) in
  if 1 <? Steps e then
    let steps := (λ st, mkStepLoad (Loadmode.stp_Index st) (of_int (Loadmode.stp_Throughput st))
                          (Loadmode.stp_Concurrency st *w Engines e) (Duration e)) <$>
                   Loadmode.StaircaseSteps (Concurrency e) (Throughput e) (Steps e) in
    let d := Duration e *w Steps e in
    mkLoad (ld_Concurrency load) throughput
      (if ld_DurationSeconds load <? d then d else ld_DurationSeconds load)
      (ld_Steps load ++ steps) 0 0
  else
    mkLoad (ld_Concurrency load) throughput
      (if ld_DurationSeconds load <? Duration e then Duration e else ld_DurationSeconds load)
      (ld_Steps load) 0 0.
Definition requestedLoad (profile : list Entry) : Load :=
  fold_left requested_step profile
    (mkLoad (VirtualUsers (profile_of profile)) fzero 0 [] 0 0).

Definition hasNamedCluster (rows : list ClusterResult) : bool :=
  existsb (λ r, bool_decide (cr_Cluster r ≠ "")) rows.

Definition with_clusters (rows : list ClusterResult) (r : Report) : Report :=
  if hasNamedCluster rows then
    mkReport (rep_ExecutionID r) (rep_ScenarioID r) (rep_RunID r) (rep_Engine r) (rep_Cluster r)
      (rep_CorrelationID r) (rep_StartedAt r) (rep_EndedAt r) (rep_Outcome r) (rep_Requested r)
      (rep_Achieved r) (rep_ErrorRate r) (rep_Latency r) (rep_Attribution r) (rep_Errors r)
      (rep_Labels r)
      ((λ row, mkClusterResult (cr_Cluster row) (Some (rep_Outcome r)) (cr_Samples row)
                 (cr_Failed row)) <$> rows)
      (rep_SoakTrend r) (rep_Starred r) (rep_Note r)
  else r.

Definition closeRun (executionID runID : Z) : MS unit :=
  current ← repo_read (λ s, CurrentRun executionID (st_runs s));
  if bool_decide (current = Some runID)
  then repo_upd (λ s, set_runs (StopRun now executionID (st_runs s)) s)
  else mret tt.

Definition run_meta (executionID runID : Z) (profile : list Entry) (history : RunRecord)
    (exe : Execution) (outcome : Outcome) : Meta :=
  mkMeta executionID (match profile with [e] => ScenarioID e | _ => 0 end) runID (exe_Engine exe)
    (exe_Cluster exe) (rr_CorrelationID history) (rr_StartedTime history) now
    (requestedLoad profile) outcome.

Definition finalize (executionID runID : Z) (outcome : Outcome) : MS unit :=
  alreadyFinalised ← own_read (λ h, is_Ok (GetReport runID (ms_reports h)));
  snapshot ← own_read (λ h, Progress_Snapshot runID (ms_progress h));
  profile ← repo_read (LoadProfileFor executionID);
  history ← repo_try (λ s, RunHistory runID (st_runs s));
  exe ← repo_try (GetExecution executionID);
  rows ← own_read (tally_snapshot runID);
  let rep := with_clusters rows
               (Accumulator_Report (run_meta executionID runID profile history exe outcome)
                  (Restore snapshot)) in
  _ ← on_reports (SaveReport rep);
  _ ← (if (alreadyFinalised : bool) then mret tt
       else
         _ ← own_upd (λ h, set_notified (ms_notified h ++ [(exe_ProjectID exe, rep)]) h);
         on_thresholds (EvaluateRun rep));
  _ ← on_progress (Discard runID);
  _ ← repo_upd (TouchActivity now executionID);
  closeRun executionID runID.

Definition stopOutcome (runID : Z) : MS Outcome :=
  states ← own_read (λ h, ShardStates runID (ms_progress h));
  mret (WorstOutcome (OutcomeAborted :: (states ≫= λ st,
    match shs_ExitCode st with
    | Some c => if shs_Finished st then [OutcomeFromExitCode c] else []
    | None => []
    end))).

Definition Finalize (executionID runID : Z) : MS unit :=
  outcome ← stopOutcome runID;
  finalize executionID runID outcome.

Definition FinalizeOrphaned (executionID runID : Z) (orphans : list OrphanCompletion) : MS unit :=
  finalize executionID runID
    (WorstOutcome (OutcomeAborted ::
       ((λ oc, OutcomeFromExitCode (default (-1) (oc_ExitCode oc))) <$> orphans))).

(** *** Ingesting ([ingest.go]) *)
Definition planned_shards (exe : Execution) (profile : list Entry) : Z :=
  let planned := sum64 Engines profile in
  if IsFanOut exe then planned *w Z.of_nat (length (exe_FanOutTargets exe)) else planned.

Definition finished_shards (states : list ShardState) : Z :=
  Z.of_nat (length (filter (λ st, shs_Finished st = true) states)).

Definition allShardsFinished (executionID runID : Z) : MS bool :=
  states ← own_read (λ h, ShardStates runID (ms_progress h));
  profile ← repo_read (LoadProfileFor executionID);
  if sum64 Engines profile =? 0 then mret false
  else
    exe ← repo_try (GetExecution executionID);
    mret (planned_shards exe profile <=? finished_shards states).

Definition exitCodeUnknown : Z := -1.
Definition finalizeCompleted (executionID runID : Z) : MS unit :=
  states ← own_read (λ h, ShardStates runID (ms_progress h));
  finalize executionID runID
    (CombineOutcomes ((λ st, default exitCodeUnknown (shs_ExitCode st)) <$> states)).

(** The live view: intervals not seen before are tallied and published. *)
Definition live_step (b : Batch) (runID : Z) (h : H) (iv : Interval) : H :=
  let '(new, h) := seen_mark (b_ExecutionID b) (intervalKey b iv) h in
  if (new : bool) then record b iv runID (tally_add runID (b_Cluster b) iv h) else h.

Definition progress_batch (runID : Z) (b : Batch) : ProgressBatch :=
  mkProgressBatch runID (b_ScenarioID b) (b_ShardIndex b) (b_Cluster b) (b_StreamID b) (b_Final b)
    (b_ExitCode b) (b_Intervals b).

Definition Ingest (b : Batch) : MS unit :=
  current ← repo_read (λ s, CurrentRun (b_ExecutionID b) (st_runs s));
  match current with
  | None =>
      _ ← (if b_Final b then
             repo_upd (λ s, set_runs (RecordOrphanCompletion
               (mkOrphan (b_ExecutionID b) (b_ScenarioID b) (b_ShardIndex b) (b_ExitCode b) now)
               (st_runs s)) s)
           else mret tt);
      throw ErrNoActiveRun
  | Some runID =>
      if negb (b_RunID b =? 0) && negb (b_RunID b =? runID) then throw ErrStaleRun
      else
        _ ← repo_try (λ _, ProgressBatch_Validate (progress_batch runID b));
        _ ← own_upd (λ h, fold_left (live_step b runID) (b_Intervals b) h);
        _ ← on_progress (Absorb (progress_batch runID b));
        if negb (b_Final b) then mret tt
        else
          done ← allShardsFinished (b_ExecutionID b) runID;
          if negb (done : bool) then mret tt
          else
            _ ← finalizeCompleted (b_ExecutionID b) runID;
            _ ← own_upd (seen_forget (b_ExecutionID b));
            own_upd (tally_forget runID)
  end.
End service.

(** The service is the lifecycle service's [Metrics]. *)
#[global] Instance metrics_service {X} `{!ThresholdEvaluator X} : Metrics (MetricsState X) := {
  MetricsPurge := Purge;
  Lifecycle.Finalize := Finalize;
  Lifecycle.FinalizeOrphaned := FinalizeOrphaned;
  HasReport runID h :=
    match GetReport runID (ms_reports h) with Ok _ => Ok tt | Err e => Err e end
}.
