(* ===== verification/MetricsFacts.v ===== *)
(** * What the metrics service guarantees

    It keeps to the frame the lifecycle service relies on; a run's report is
    written once and never changes; the last shard to finish closes the run. *)
From S2P Require Import Prelude Errors GoFloat LoadProfile Run Taurus Execution.
From S2P Require Import Histogram Report ReportFacts Progress RunTable Store Lifecycle LifecycleFacts.
From S2P Require Import ScheduleApp Sidecar MetricsApp Cluster.

(** Handlers are composed of these: instance search does not look inside. *)
#[local] Typeclasses Opaque finalize finalizeCompleted allShardsFinished closeRun repo_read repo_try
  repo_upd own_read own_upd on_progress on_reports on_thresholds WorstOutcome CombineOutcomes.

Section frame.
Context {X : Type} `{!ThresholdEvaluator X} (now : time).
Local Abbreviation state := (Store * MetricsState X)%type.

(** ** The frame of finalising a run *)
Definition framed (e r : Z) (sh sh' : state) : Prop := finalize_frame now e r sh.1 sh'.1.
#[global] Instance framed_po e r : PreOrder (framed e r).
Proof using.
  split; [intros sh; apply finalize_frame_refl|].
  intros sh1 sh2 sh3 [A1 A2 A3 A4 A5 A6 A7 A8] [B1 B2 B3 B4 B5 B6 B7 B8].
  split; try congruence. destruct A8 as [A8|[A8 A9]], B8 as [B8|[B8 B9]].
  - left. congruence.
  - right. split; congruence.
  - right. split; congruence.
  - rewrite A9 in B8. unfold CurrentRun in B8. by rewrite StopRun_current, decide_True in B8.
Qed.

Lemma same_repo_framed e r (sh sh' : state) : sh'.1 = sh.1 → framed e r sh sh'.
Proof using. intros E. unfold framed. rewrite E. apply finalize_frame_refl. Qed.

#[global] Instance framed_repo_read {A} e r (f : Store → A) :
  Keeps (framed e r) (repo_read (X := X) f).
Proof using. intros sh. by apply same_repo_framed. Qed.
#[global] Instance framed_repo_try {A} e r (f : Store → result error A) :
  Keeps (framed e r) (repo_try (X := X) f).
Proof using. intros sh. by apply same_repo_framed. Qed.
#[global] Instance framed_own_read {A} e r (f : MetricsState X → A) :
  Keeps (framed e r) (own_read f).
Proof using. intros sh. by apply same_repo_framed. Qed.
#[global] Instance framed_own_upd e r (f : MetricsState X → MetricsState X) :
  Keeps (framed e r) (own_upd f).
Proof using. intros sh. by apply same_repo_framed. Qed.
#[global] Instance framed_progress e r f : Keeps (framed e r) (on_progress (X := X) f).
Proof using. intros sh. apply same_repo_framed. unfold on_progress. by destruct (f _). Qed.
#[global] Instance framed_reports e r f : Keeps (framed e r) (on_reports (X := X) f).
Proof using. intros sh. apply same_repo_framed. unfold on_reports. by destruct (f _). Qed.
#[global] Instance framed_thresholds e r (f : M X error unit) : Keeps (framed e r) (on_thresholds f).
Proof using. intros sh. apply same_repo_framed. unfold on_thresholds. by destruct (f _). Qed.
#[global] Instance framed_touch e r : Keeps (framed e r) (repo_upd (X := X) (TouchActivity now e)).
Proof using. intros sh. split; try done. by left. Qed.
#[global] Instance framed_close e r : Keeps (framed e r) (closeRun (X := X) now e r).
Proof using.
  intros sh. unfold closeRun, mbind, M_bind, repo_read. case_bool_decide as Hc.
  - split; try done. right. done.
  - by apply same_repo_framed.
Qed.
#[global] Instance framed_finalize e r o : Keeps (framed e r) (finalize (X := X) now e r o).
Proof using. unfold finalize. solve_keeps. Qed.

#[global] Instance framed_Finalize e r : Keeps (framed e r) (Finalize (X := X) now e r).
Proof using.
  unfold Finalize. apply keeps_bind; [apply _| |intros o; apply _].
  unfold stopOutcome. apply keeps_bind; [apply _|apply _|intros st; apply keeps_ret, _].
Qed.
#[global] Instance framed_FinalizeOrphaned e r os :
  Keeps (framed e r) (FinalizeOrphaned (X := X) now e r os).
Proof using. apply framed_finalize. Qed.
End frame.

(** The service discharges the interface the lifecycle service is proved
    against. *)
#[global] Instance metrics_service_laws {X} `{!ThresholdEvaluator X} : MetricsLaws (MetricsState X).
Proof.
  split.
  - intros now e r s h. apply (framed_Finalize now e r (s, h)).
  - intros now e r os s h. apply (framed_FinalizeOrphaned now e r os (s, h)).
Qed.

(** ** Reports are written once *)
Section written_once.
Context {X : Type} `{!ThresholdEvaluator X}.
Local Abbreviation state := (Store * MetricsState X)%type.
Local Abbreviation stored sh := (reports (ms_reports sh.2)).

(** Every report there was is still there, unchanged. *)
Definition reports_kept (sh sh' : state) : Prop := stored sh ⊆ stored sh'.
#[global] Instance reports_kept_po : PreOrder reports_kept.
Proof using. unfold reports_kept. split; [intros sh; reflexivity|]. intros a b c. apply transitivity. Qed.

#[global] Instance kept_repo_read {A} (f : Store → A) : Keeps reports_kept (repo_read f).
Proof using. intros sh. unfold reports_kept. simpl. reflexivity. Qed.
#[global] Instance kept_repo_try {A} (f : Store → result error A) : Keeps reports_kept (repo_try f).
Proof using. intros sh. unfold reports_kept. simpl. reflexivity. Qed.
#[global] Instance kept_repo_upd f : Keeps reports_kept (repo_upd f).
Proof using. intros sh. unfold reports_kept. simpl. reflexivity. Qed.
#[global] Instance kept_own_read {A} (f : MetricsState X → A) : Keeps reports_kept (own_read f).
Proof using. intros sh. unfold reports_kept. simpl. reflexivity. Qed.
Lemma kept_own_upd (f : MetricsState X → MetricsState X) :
  (∀ h, ms_reports (f h) = ms_reports h) → Keeps reports_kept (own_upd f).
Proof using. intros Hf sh. unfold reports_kept, own_upd. simpl. rewrite Hf. reflexivity. Qed.
#[global] Instance kept_progress f : Keeps reports_kept (on_progress f).
Proof using. intros sh. unfold on_progress, reports_kept. destruct (f _). simpl. reflexivity. Qed.
#[global] Instance kept_thresholds f : Keeps reports_kept (on_thresholds f).
Proof using. intros sh. unfold on_thresholds, reports_kept. destruct (f _). simpl. reflexivity. Qed.
#[global] Instance kept_save r : Keeps reports_kept (on_reports (SaveReport r)).
Proof using.
  intros sh. unfold on_reports, reports_kept, SaveReport.
  destruct (SaveErr _); [reflexivity|]. destruct (Report_Validate r); [|reflexivity].
  destruct (stored sh !! rep_RunID r) eqn:E; [reflexivity|]. simpl. by apply insert_subseteq.
Qed.
#[global] Instance kept_notified e rep :
  Keeps reports_kept (own_upd (λ h, set_notified (ms_notified h ++ [(e, rep)]) h)).
Proof using. by apply kept_own_upd. Qed.
#[global] Instance kept_finalize now e r o : Keeps reports_kept (finalize now e r o).
Proof using. unfold finalize, closeRun. solve_keeps. Qed.
#[global] Instance kept_Finalize now e r : Keeps reports_kept (Finalize now e r).
Proof using.
  unfold Finalize. apply keeps_bind; [apply _| |intros o; apply _].
  unfold stopOutcome. apply keeps_bind; [apply _|apply _|intros st; apply keeps_ret, _].
Qed.
#[global] Instance kept_FinalizeOrphaned now e r os : Keeps reports_kept (FinalizeOrphaned now e r os).
Proof using. apply kept_finalize. Qed.

Lemma live_step_reports b r ivs (h : MetricsState X) :
  ms_reports (fold_left (live_step b r) ivs h) = ms_reports h.
Proof using.
  revert h. induction ivs as [|iv ivs IH]; intros h; cbn [fold_left]; [done|].
  rewrite IH. unfold live_step, seen_mark. by destruct (bool_decide _).
Qed.
#[global] Instance kept_live b r :
  Keeps reports_kept (own_upd (λ h, fold_left (live_step b r) (b_Intervals b) h)).
Proof using. apply kept_own_upd. intros h. apply live_step_reports. Qed.
#[global] Instance kept_Ingest now b : Keeps reports_kept (Ingest now b).
Proof using.
  assert (Keeps reports_kept (own_upd (seen_forget (X := X) (b_ExecutionID b)))) by (by apply kept_own_upd).
  assert (∀ r, Keeps reports_kept (own_upd (tally_forget (X := X) r))) by (intros; by apply kept_own_upd).
  assert (∀ e r, Keeps reports_kept (finalizeCompleted (X := X) now e r))
    by (intros; unfold finalizeCompleted; solve_keeps).
  unfold Ingest, allShardsFinished. solve_keeps.
Qed.

(** What happens to the reports: ingestion and every way of finalising a run,
    at any time, whatever the rest of the system does to the store. *)
Inductive metrics_step : state → state → Prop :=
| ms_ingest now b sh : metrics_step sh (Ingest now b sh).2
| ms_finalize now e r sh : metrics_step sh (Finalize now e r sh).2
| ms_orphaned now e r os sh : metrics_step sh (FinalizeOrphaned now e r os sh).2
| ms_purge e sh : metrics_step sh (sh.1, Purge e sh.2)
| ms_other s s' h : metrics_step (s, h) (s', h).

(** C11. The first report of a run is the one that stands: whatever is ingested
    and finalised afterwards, by its pods, by a stop, by reconciliation, in
    whatever order and however often, the stored report does not change. *)
Theorem first_report_stands sh sh' r rep :
  stored sh !! r = Some rep → rtc metrics_step sh sh' → stored sh' !! r = Some rep.
Proof using.
  intros Hr Hsteps. assert (reports_kept sh sh') as Hk; [|by eapply lookup_weaken].
  clear Hr. induction Hsteps as [|a b c Hab _ IH]; [done|]. etrans; [|exact IH].
  destruct Hab; [apply (keeps (R := reports_kept))..|unfold reports_kept; simpl; reflexivity|
    unfold reports_kept; simpl; reflexivity].
Qed.
End written_once.

(** ** Finalising *)
Section finalising.
Context {X : Type} `{!ThresholdEvaluator X} (now : time).
Implicit Types (s : Store) (h : MetricsState X).

(** Nothing below the service fails. *)
Record healthy h : Prop := {
  he_save : SaveErr (ms_reports h) = None;
  he_get : GetErr (ms_reports h) = None;
  he_absorb : AbsorbErr (ms_progress h) = None;
  he_discard : DiscardErr (ms_progress h) = None
}.
Context (grades : ∀ rep x, (EvaluateRun rep x).1 = Ok tt).

Definition progress_ok (p : ReportProgress) : Prop := map_Forall (λ _ run, acc_ok (pr_acc run)) (rp_runs p).

(** What has accumulated for a run. *)
Definition accumulated (r : Z) (p : ReportProgress) : Accumulator :=
  match rp_runs p !! r with Some run => pr_acc run | None => NewAccumulator end.

Lemma Restore_progress r p : progress_ok p → Restore (Progress_Snapshot r p) = accumulated r p.
Proof using.
  intros Hp. unfold Progress_Snapshot, accumulated. destruct (rp_runs p !! r) as [run|] eqn:E; [|done].
  apply Restore_Snapshot, (Hp _ _ E).
Qed.

(** The report a finalisation would write. *)
Definition final_report (e r : Z) (o : Outcome) (exe : Execution) (rec : RunRecord) s h : Report :=
  with_clusters (tally_snapshot r h)
    (Accumulator_Report (run_meta now e r (LoadProfileFor e s) rec exe o)
       (Restore (Progress_Snapshot r (ms_progress h)))).

Lemma with_clusters_same rows rep :
  rep_RunID (with_clusters rows rep) = rep_RunID rep ∧
  rep_ExecutionID (with_clusters rows rep) = rep_ExecutionID rep ∧
  rep_Outcome (with_clusters rows rep) = rep_Outcome rep ∧
  figures (with_clusters rows rep) = figures rep.
Proof using. unfold with_clusters. by destruct (hasNamedCluster rows). Qed.

Lemma Accumulator_Report_meta m a :
  rep_RunID (Accumulator_Report m a) = m_RunID m ∧
  rep_ExecutionID (Accumulator_Report m a) = m_ExecutionID m ∧
  rep_Outcome (Accumulator_Report m a) = m_Outcome m.
Proof using. unfold Accumulator_Report. by destruct (errors a). Qed.

Lemma final_report_ids e r o exe rec s h :
  rep_RunID (final_report e r o exe rec s h) = r ∧
  rep_ExecutionID (final_report e r o exe rec s h) = e ∧
  rep_Outcome (final_report e r o exe rec s h) = o.
Proof using.
  unfold final_report. destruct (with_clusters_same (tally_snapshot r h) (Accumulator_Report
    (run_meta now e r (LoadProfileFor e s) rec exe o) (Restore (Progress_Snapshot r (ms_progress h)))))
    as (-> & -> & -> & _). apply Accumulator_Report_meta.
Qed.

(** Finalising a run of record succeeds; it stores the report if there is none
    yet, drops the working state, and closes the run if it is still open. *)
Lemma finalize_spec e r o s h exe rec :
  healthy h → 0 < e → 0 < r →
  runHistory (st_runs s) !! r = Some rec → executions (st_catalog s) !! e = Some exe →
  ∃ s' h', finalize now e r o (s, h) = (Ok tt, (s', h')) ∧
    reports (ms_reports h') =
      match reports (ms_reports h) !! r with
      | Some _ => reports (ms_reports h)
      | None => <[r := with_marks false "" (final_report e r o exe rec s h)]> (reports (ms_reports h))
      end ∧
    rp_runs (ms_progress h') = delete r (rp_runs (ms_progress h)) ∧
    st_runs s' = (if bool_decide (CurrentRun e (st_runs s) = Some r)
                  then StopRun now e (st_runs s) else st_runs s).
Proof using grades.
  intros [Hsave Hget Habs Hdis] He Hr Hrec Hexe.
  unfold finalize, mbind, M_bind, own_read, repo_read, repo_try, RunHistory, GetExecution.
  cbv beta iota zeta. cbn [fst snd]. rewrite Hrec, Hexe. fold (final_report e r o exe rec s h).
  destruct (final_report_ids e r o exe rec s h) as (Hid & Hex & _).
  set (rep := final_report e r o exe rec s h) in *.
  assert (Report_Validate rep = Ok tt) as Hval.
  { unfold Report_Validate. rewrite Hid, Hex. destruct (Z.leb_spec e 0); [lia|].
    destruct (Z.leb_spec r 0); [lia|]. done. }
  unfold on_reports, SaveReport. cbn [snd]. rewrite Hsave, Hval, Hid. unfold GetReport. rewrite Hget.
  assert (∀ sh, (on_thresholds (EvaluateRun rep) sh).1 = Ok tt) as Hgr.
  { intros sh. unfold on_thresholds. pose proof (grades rep (ms_thresholds sh.2)).
    by destruct (EvaluateRun rep (ms_thresholds sh.2)). }
  destruct (reports (ms_reports h) !! r) as [old|] eqn:Hold; cbn [is_Ok].
  - unfold on_progress, Discard. cbn. rewrite Hdis. unfold repo_upd, closeRun. cbn.
    unfold mbind, M_bind, repo_read. cbn.
    destruct (bool_decide (CurrentRun e (st_runs s) = Some r)); do 2 eexists; split; reflexivity || by split.
  - unfold own_upd. cbn [fst snd].
    match goal with |- context [on_thresholds _ ?sh] => pose proof (Hgr sh) as Hg; set (sh0 := sh) in * end.
    assert ((on_thresholds (EvaluateRun rep) sh0).2.1 = s ∧
      ms_reports (on_thresholds (EvaluateRun rep) sh0).2.2 = ms_reports sh0.2 ∧
      ms_progress (on_thresholds (EvaluateRun rep) sh0).2.2 = ms_progress h) as (E1 & E2 & E3).
    { unfold on_thresholds. destruct (EvaluateRun rep _). done. }
    destruct (on_thresholds (EvaluateRun rep) sh0) as [res [s1 h1]]. simpl in Hg, E1, E2, E3. subst res s1.
    unfold on_progress, Discard. cbn. rewrite E3, Hdis. unfold repo_upd, closeRun. cbn.
    unfold mbind, M_bind, repo_read. cbn.
    destruct (bool_decide (CurrentRun e (st_runs s) = Some r)); do 2 eexists; (split; [reflexivity|]);
      cbn; by rewrite E2.
Qed.

(** *** The last shard to finish *)
Lemma absorb_fold_ok l acc seq fresh :
  acc_ok acc → acc_ok (fold_left absorb_step l (acc, seq, fresh)).1.1.
Proof using.
  revert acc seq fresh. induction l as [|iv l IH]; intros acc seq fresh Ha; [done|].
  cbn [fold_left absorb_step]. destruct (_ <=? _); [by apply IH|by apply IH, Add_ok].
Qed.

Lemma Absorb_progress_ok b p : progress_ok p → progress_ok (Absorb b p).2.
Proof using.
  intros Hp. unfold Absorb. destruct (AbsorbErr p); [done|].
  destruct (ProgressBatch_Validate b); [|done].
  set (run := default _ (rp_runs p !! pb_RunID b)). set (shard := default _ (pr_shards run !! _)).
  assert (acc_ok (pr_acc run)) as Hacc.
  { unfold run. destruct (rp_runs p !! pb_RunID b) as [run0|] eqn:E; [apply (Hp _ _ E)|].
    apply NewAccumulator_ok. }
  match goal with |- context [fold_left absorb_step ?l ?st] =>
    pose proof (absorb_fold_ok l (pr_acc run) st.1.2 [] Hacc) as Hok; cbn [fst snd] in Hok;
    destruct (fold_left absorb_step l st) as [[acc seq] fresh] end.
  unfold progress_ok. cbn [snd rp_runs]. by apply map_Forall_insert_2.
Qed.

Lemma Absorb_healthy b h :
  healthy h → ProgressBatch_Validate b = Ok tt →
  ∃ p', Absorb b (ms_progress h) = (Ok tt, p') ∧ AbsorbErr p' = None ∧ DiscardErr p' = None.
Proof using.
  intros [_ _ Ha Hd] Hv. unfold Absorb. rewrite Ha, Hv.
  destruct (fold_left absorb_step _ _) as [[acc seq] fresh]. by eexists.
Qed.

Lemma live_fold_frame b r ivs h :
  let h' := fold_left (live_step b r) ivs h in
  ms_reports h' = ms_reports h ∧ ms_progress h' = ms_progress h ∧ ms_thresholds h' = ms_thresholds h.
Proof using.
  cbv zeta. revert h. induction ivs as [|iv ivs IH]; intros h; cbn [fold_left]; [done|].
  destruct (IH (live_step b r h iv)) as (-> & -> & ->).
  unfold live_step, seen_mark. by destruct (bool_decide _).
Qed.

(** What the store says of a run's shards once [b] has been absorbed. *)
Definition shards_after (r : Z) (b : Batch) h : list ShardState :=
  ShardStates r (Absorb (progress_batch r b) (ms_progress h)).2.

Lemma shard_codes_passed (states : list ShardState) :
  CombineOutcomes ((λ st, default exitCodeUnknown (shs_ExitCode st)) <$> states) = OutcomePassed ↔
  states ≠ [] ∧ Forall (λ st, shs_ExitCode st = Some 0) states.
Proof using.
  rewrite CombineOutcomes_passed, Forall_fmap. split; intros [Hne Hall].
  - split; [by intros ->|]. eapply Forall_impl; [exact Hall|]. intros st.
    unfold compose, exitCodeUnknown. destruct (shs_ExitCode st); simpl; [by intros ->|lia].
  - split; [by destruct states|]. eapply Forall_impl; [exact Hall|]. intros st Hst.
    unfold compose. by rewrite Hst.
Qed.

(** How an accepted final batch is handled: [h1] is the state after the live
    view and the working state have taken it in. *)
Lemma Ingest_final b r s h h1 exe :
  let e := b_ExecutionID b in
  let profile := LoadProfileFor e s in
  let h0 := fold_left (live_step b r) (b_Intervals b) h in
  b_Final b = true → CurrentRun e (st_runs s) = Some r → b_RunID b = 0 ∨ b_RunID b = r →
  ProgressBatch_Validate (progress_batch r b) = Ok tt →
  executions (st_catalog s) !! e = Some exe → sum64 Engines profile ≠ 0 →
  (let '(res, p1) := Absorb (progress_batch r b) (ms_progress h0) in
   res = Ok tt ∧ h1 = set_progress p1 h0) →
  Ingest now b (s, h) =
  if planned_shards exe profile <=? finished_shards (ShardStates r (ms_progress h1)) then
    (finalizeCompleted now e r ≫= λ _, own_upd (seen_forget e) ≫= λ _, own_upd (tally_forget r)) (s, h1)
  else (Ok tt, (s, h1)).
Proof using.
  intros e profile h0 Hfin Hcur Hrun Hv Hexe Hplan Habs.
  unfold Ingest, mbind, M_bind. unfold repo_read at 1. cbn [fst snd]. fold e. rewrite Hcur.
  assert (negb (b_RunID b =? 0) && negb (b_RunID b =? r) = false) as ->.
  { destruct Hrun as [->| ->]; [done|]. rewrite Z.eqb_refl. apply andb_false_r. }
  unfold repo_try at 1. rewrite Hv. unfold own_upd at 1. cbn [fst snd]. fold h0.
  unfold on_progress. cbn [fst snd].
  destruct (Absorb (progress_batch r b) (ms_progress h0)) as [res p1]. destruct Habs as [-> ->].
  rewrite Hfin. cbn [negb].
  unfold allShardsFinished, mbind, M_bind, own_read, repo_read, repo_try, GetExecution. cbn [fst snd].
  fold profile. rewrite (proj2 (Z.eqb_neq _ _) Hplan). cbn [fst]. rewrite Hexe. by destruct (_ <=? _).
Qed.

(** C10. The batch with which the last planned shard finishes closes the run:
    the push is accepted, the execution has no current run any more, the
    working state is gone, and the report, if none was stored before, has the
    figures of everything accumulated and passes exactly when every shard that
    reported exited normally.  A final batch of an earlier shard changes no
    run and no report. *)
Theorem last_shard_closes_the_run b r s h exe rec :
  let e := b_ExecutionID b in
  let profile := LoadProfileFor e s in
  let states := shards_after r b h in
  healthy h → progress_ok (ms_progress h) → b_Final b = true →
  CurrentRun e (st_runs s) = Some r → b_RunID b = 0 ∨ b_RunID b = r →
  0 < e → ProgressBatch_Validate (progress_batch r b) = Ok tt →
  runHistory (st_runs s) !! r = Some rec → executions (st_catalog s) !! e = Some exe →
  sum64 Engines profile ≠ 0 →
  ∃ s' h', Ingest now b (s, h) = (Ok tt, (s', h')) ∧
    if planned_shards exe profile <=? finished_shards states then
      CurrentRun e (st_runs s') = None ∧ rp_runs (ms_progress h') !! r = None ∧
      (reports (ms_reports h) !! r = None →
       ∃ rep, reports (ms_reports h') !! r = Some rep ∧ rep_ExecutionID rep = e ∧
         (rep_Outcome rep = OutcomePassed ↔
            states ≠ [] ∧ Forall (λ st, shs_ExitCode st = Some 0) states) ∧
         figures rep = figures (Accumulator_Report
           (run_meta now e r profile rec exe (rep_Outcome rep))
           (accumulated r (Absorb (progress_batch r b) (ms_progress h)).2)))
    else s' = s ∧ ms_reports h' = ms_reports h.
Proof using grades.
  intros e profile states Hh Hp Hfin Hcur Hrun He Hv Hrec Hexe Hplan.
  assert (0 < r) as Hr.
  { unfold ProgressBatch_Validate in Hv. cbn [pb_RunID progress_batch] in Hv.
    destruct (Z.leb_spec r 0); [done|lia]. }
  destruct (live_fold_frame b r (b_Intervals b) h) as (Er & Ep & _).
  set (h0 := fold_left (live_step b r) (b_Intervals b) h) in *.
  assert (healthy h0) as Hh0 by (destruct Hh; split; congruence).
  destruct (Absorb_healthy (progress_batch r b) h0 Hh0 Hv) as (p1 & Habs & Hae & Hde).
  assert ((Absorb (progress_batch r b) (ms_progress h)).2 = p1) as Hp1 by (by rewrite <- Ep, Habs).
  assert (progress_ok p1) as Hok by (rewrite <- Hp1; by apply Absorb_progress_ok).
  set (h1 := set_progress p1 h0).
  assert (healthy h1) as Hh1 by (destruct Hh0; by split).
  pose proof (Ingest_final b r s h h1 exe Hfin Hcur Hrun Hv Hexe Hplan) as Hing.
  fold e profile in Hing. fold h0 in Hing. rewrite Hing by (by rewrite Habs).
  assert (ShardStates r (ms_progress h1) = states) as -> by (unfold states, shards_after; by rewrite Hp1).
  destruct (planned_shards exe profile <=? finished_shards states); [|exists s, h1; split; [done|]; split; [done|exact Er]].
  destruct (finalize_spec e r (CombineOutcomes ((λ st, default exitCodeUnknown (shs_ExitCode st)) <$>
      ShardStates r (ms_progress h1))) s h1 exe rec Hh1 He Hr Hrec Hexe)
    as (s2 & h2 & Hf & Hrep & Hruns & Hst).
  unfold finalizeCompleted, mbind, M_bind, own_read. cbn [fst snd]. rewrite Hf.
  unfold own_upd. cbn [fst snd]. do 2 eexists. split; [reflexivity|]. cbn.
  rewrite Hst, Hruns, Hrep. rewrite bool_decide_eq_true_2 by done.
  split; [unfold CurrentRun; by rewrite StopRun_current, decide_True|].
  split; [apply lookup_delete_eq|]. intros Hnone.
  change (reports (ms_reports h1)) with (reports (ms_reports h0)).
  rewrite Er, Hnone, lookup_insert_eq. eexists. split; [reflexivity|].
  set (o := CombineOutcomes _) in *.
  destruct (final_report_ids e r o exe rec s h1) as (_ & Hex & Ho).
  split; [exact Hex|]. cbn [rep_Outcome with_marks]. rewrite Ho.
  split.
  { unfold o. change (ms_progress h1) with p1. rewrite <- Hp1. apply shard_codes_passed. }
  unfold final_report. destruct (with_clusters_same (tally_snapshot r h1) (Accumulator_Report
    (run_meta now e r (LoadProfileFor e s) rec exe o) (Restore (Progress_Snapshot r (ms_progress h1)))))
    as (_ & _ & _ & Hfig).
  transitivity (figures (with_clusters (tally_snapshot r h1) (Accumulator_Report
    (run_meta now e r (LoadProfileFor e s) rec exe o) (Restore (Progress_Snapshot r (ms_progress h1))))));
    [done|]. rewrite Hfig, Hp1. change (ms_progress h1) with p1. by rewrite Restore_progress.
Qed.

(** Ending a run deliberately writes its report, when it has none: never
    better than aborted, never better than what any shard that had already
    finished has shown, and with the figures of what was measured. *)
Theorem stopped_run_keeps_evidence e r s h exe rec :
  healthy h → progress_ok (ms_progress h) → 0 < e → 0 < r →
  runHistory (st_runs s) !! r = Some rec → executions (st_catalog s) !! e = Some exe →
  reports (ms_reports h) !! r = None →
  ∃ s' h' rep, Finalize now e r (s, h) = (Ok tt, (s', h')) ∧
    CurrentRun e (st_runs s') ≠ Some r ∧ reports (ms_reports h') !! r = Some rep ∧
    severity OutcomeAborted <= severity (rep_Outcome rep) ∧
    (∀ st c, st ∈ ShardStates r (ms_progress h) → shs_Finished st = true → shs_ExitCode st = Some c →
       severity (OutcomeFromExitCode c) <= severity (rep_Outcome rep)) ∧
    figures rep = figures (Accumulator_Report
      (run_meta now e r (LoadProfileFor e s) rec exe (rep_Outcome rep)) (accumulated r (ms_progress h))).
Proof using grades.
  intros Hh Hp He Hr Hrec Hexe Hnone. unfold Finalize, stopOutcome, mbind, M_bind, own_read. cbn [fst snd].
  set (outcomes := OutcomeAborted :: _). set (o := WorstOutcome outcomes).
  destruct (finalize_spec e r o s h exe rec Hh He Hr Hrec Hexe) as (s' & h' & Hf & Hrep & _ & Hst).
  rewrite Hnone in Hrep. do 3 eexists. split; [exact Hf|]. split.
  { rewrite Hst. case_bool_decide as Hc; [|done]. unfold CurrentRun.
    by rewrite StopRun_current, decide_True. }
  rewrite Hrep, lookup_insert_eq. split; [reflexivity|]. cbn [rep_Outcome with_marks].
  destruct (final_report_ids e r o exe rec s h) as (_ & _ & ->).
  split; [apply WorstOutcome_upper; left|]. split.
  { intros st c Hin Hfin Hc. apply WorstOutcome_upper. right. apply list_elem_of_bind.
    exists st. split; [|done]. rewrite Hc, Hfin. left. }
  rewrite <- (Restore_progress r _ Hp). apply with_clusters_same.
Qed.
End finalising.

(** ** On the live system: the two engines of execution 4 finish, in order *)
Definition fresh_metrics : MetricsState unit :=
  mkMetricsState NewReportProgress NewReportStore ∅ ∅ [] [] [] tt.
Definition final_batch (shard : Z) : Batch :=
  mkBatch 4 2 1 shard "s" [with_label_seq "checkout" 1 checkout_row] "" true (Some 0).
Definition one_left : MetricsState unit :=
  (Ingest 150 (final_batch 0) (w_store running_world, fresh_metrics)).2.2.
Definition all_done : Store * MetricsState unit :=
  (Ingest 160 (final_batch 1) (w_store running_world, one_left)).2.

Lemma no_thresholds_grade rep (x : unit) : (EvaluateRun rep x).1 = Ok tt.
Proof. reflexivity. Qed.

Lemma last_shard_closes_the_run_witness :
  ∃ s' h', Ingest 160 (final_batch 1) (w_store running_world, one_left) = (Ok tt, (s', h')) ∧
    CurrentRun 4 (st_runs s') = None ∧
    ∃ rep, reports (ms_reports h') !! 1 = Some rep ∧ rep_Outcome rep = OutcomePassed.
Proof.
  assert ((planned_shards sched_exe (LoadProfileFor 4 (w_store running_world)) <=?
           finished_shards (shards_after 1 (final_batch 1) one_left)) = true) as Hall
    by (vm_compute; reflexivity).
  assert (∃ rec, runHistory (st_runs (w_store running_world)) !! 1 = Some rec) as [rec Hrec]
    by (eexists; vm_compute; reflexivity).
  destruct (last_shard_closes_the_run 160 no_thresholds_grade (final_batch 1) 1 (w_store running_world)
    one_left sched_exe rec) as (s' & h' & Hing & Hcase).
  - split; vm_compute; reflexivity.
  - assert (ms_progress one_left = (Absorb (progress_batch 1 (final_batch 0)) NewReportProgress).2)
      as -> by (vm_compute; reflexivity).
    apply Absorb_progress_ok, map_Forall_empty.
  - reflexivity.
  - vm_compute; reflexivity.
  - right; reflexivity.
  - vm_compute; reflexivity.
  - vm_compute; reflexivity.
  - exact Hrec.
  - vm_compute; reflexivity.
  - vm_compute; discriminate.
  - change (b_ExecutionID (final_batch 1)) with 4 in Hcase. rewrite Hall in Hcase.
    destruct Hcase as (Hc & _ & Hrep). exists s', h'. split; [exact Hing|]. split; [exact Hc|].
    destruct Hrep as (rep & Hr & _ & Ho & _); [vm_compute; reflexivity|].
    exists rep. split; [exact Hr|]. apply Ho. split; [vm_compute; discriminate|].
    vm_compute. repeat constructor.
Defined.

Lemma first_report_stands_witness :
  ∃ rep, reports (ms_reports all_done.2) !! 1 = Some rep ∧
    reports (ms_reports (Finalize 200 4 1 all_done).2.2) !! 1 = Some rep.
Proof.
  assert (∃ rep, reports (ms_reports all_done.2) !! 1 = Some rep) as [rep Hr]
    by (eexists; vm_compute; reflexivity).
  exists rep. split; [exact Hr|].
  apply (first_report_stands all_done (Finalize 200 4 1 all_done).2 1 rep Hr).
  apply rtc_once, ms_finalize.
Defined.

(** One engine has failed its criteria when the run is stopped. *)
Definition failing_left : MetricsState unit :=
  (Ingest 150 (mkBatch 4 2 1 0 "s" [] "" true (Some 3)) (w_store running_world, fresh_metrics)).2.2.

Lemma stopped_run_keeps_evidence_witness :
  ∃ s' h' rep, Finalize 200 4 1 (w_store running_world, failing_left) = (Ok tt, (s', h')) ∧
    reports (ms_reports h') !! 1 = Some rep ∧
    severity (OutcomeFromExitCode 3) <= severity (rep_Outcome rep).
Proof.
  assert (∃ rec, runHistory (st_runs (w_store running_world)) !! 1 = Some rec) as [rec Hrec]
    by (eexists; vm_compute; reflexivity).
  assert (ms_progress failing_left =
    (Absorb (mkProgressBatch 1 2 0 "" "s" true (Some 3) []) NewReportProgress).2) as Hp
    by (vm_compute; reflexivity).
  destruct (stopped_run_keeps_evidence 200 no_thresholds_grade 4 1 (w_store running_world) failing_left
    sched_exe rec) as (s' & h' & rep & Hf & _ & Hr & _ & Hev & _).
  - split; vm_compute; reflexivity.
  - rewrite Hp. apply Absorb_progress_ok, map_Forall_empty.
  - reflexivity.
  - reflexivity.
  - exact Hrec.
  - vm_compute; reflexivity.
  - vm_compute; reflexivity.
  - exists s', h', rep. split; [exact Hf|]. split; [exact Hr|].
    apply (Hev (mkShardState 2 0 "" true (Some 3))); [vm_compute; left|reflexivity|reflexivity].
Defined.
