(* ===== verification/Series.v ===== *)
(** * The per-second series and the error history
      ([internal/app/reportapp], [internal/domain/report/signature_history.go])

    What a results page charts: one point per measured second, drawn from the
    stored rows; and an execution's failure modes summed over its runs. *)
From S2P Require Import Prelude Errors GoStrings GoFloat Histogram Report ReportFacts Progress MetricsApp.

(** ** The series ([series.go]) *)
Record SeriesPoint := mkSeriesPoint {
  sp_Ts : Z; sp_VUs : float64; sp_RPS : float64; sp_ErrPct : float64; sp_Latency : gmap float64 float64
}.
Definition seriesPercentiles : list float64 := of_int <$> [50; 90; 95; 99].
Definition SeriesPercentiles : list float64 := seriesPercentiles.

Definition duplicateKey (iv : Interval) : Z * string * Z := (iv_Timestamp iv, iv_Label iv, iv_Seq iv).
(** The loop: the keys seen and the rows of each second. *)
Definition series_step (st : gset (Z * string * Z) * gmap Z (list Interval)) (iv : Interval) :
    gset (Z * string * Z) * gmap Z (list Interval) :=
  let '(seen, bySecond) := st in
  if (0 <? iv_Seq iv) && bool_decide (duplicateKey iv ∈ seen) then st
  else (if 0 <? iv_Seq iv then {[duplicateKey iv]} ∪ seen else seen,
        <[iv_Timestamp iv := default [] (bySecond !! iv_Timestamp iv) ++ [iv]]> bySecond).
Definition vus (labels engine : Z) : float64 :=
  if labels <? engine then of_int engine else of_int labels.
Definition series_point (pcts : list float64) (ts : Z) (rows : list Interval) : SeriesPoint :=
  let '(merged, engine) := MergeSecond rows in
  mkSeriesPoint ts (vus (iv_Concurrency merged) engine) (of_int (iv_Samples merged))
    (if 0 <? iv_Samples merged
     then fmul (fdiv (of_int (iv_Failed merged)) (of_int (iv_Samples merged))) (of_int 100) else fzero)
    (if 0 <? Count (iv_Latency merged) then Percentiles (iv_Latency merged) pcts else ∅).
Definition BuildSeries (intervals : list Interval) (pcts : list float64) : list SeriesPoint :=
  match intervals with
  | [] => []
  | _ =>
      let bySecond := (fold_left series_step intervals (∅, ∅)).2 in
      let seconds := merge_sort Z.le (map_to_list bySecond).*1 in
      (λ ts, series_point pcts ts (default [] (bySecond !! ts))) <$> seconds
  end.

(** ** The error history *)
Record SignatureHistoryRow := mkSignatureHistoryRow {
  shr_Signature : Signature; shr_TotalCount : Z; shr_RunCount : Z
}.
Definition sig_add (r : Report) (m : gmap Signature (Z * gset Z)) (e : ErrorSignature) :
    gmap Signature (Z * gset Z) :=
  let '(total, runs) := default (0, ∅) (m !! er_Signature e) in
  <[er_Signature e := (total +w er_Count e, {[rep_RunID r]} ∪ runs)]> m.
Definition sig_row (kv : Signature * (Z * gset Z)) : SignatureHistoryRow :=
  mkSignatureHistoryRow kv.1 kv.2.1 (Z.of_nat (size kv.2.2)).
(** Most frequent first, then by side, response code and label. *)
Definition history_le (a b : SignatureHistoryRow) : Prop :=
  let (x, y) := (shr_Signature a, shr_Signature b) in
  shr_TotalCount b < shr_TotalCount a ∨ shr_TotalCount a = shr_TotalCount b ∧
  (str_le (side_string (sg_Side x)) (side_string (sg_Side y)) ∧ sg_Side x ≠ sg_Side y ∨
   sg_Side x = sg_Side y ∧
   (str_le (sg_ResponseCode x) (sg_ResponseCode y) ∧ sg_ResponseCode x ≠ sg_ResponseCode y ∨
    sg_ResponseCode x = sg_ResponseCode y ∧ str_le (sg_Label x) (sg_Label y))).
#[global] Instance history_le_dec a b : Decision (history_le a b).
Proof. unfold history_le. apply _. Defined.
Definition ErrorSignatureHistory (executionID : Z) (rs : ReportStore) : list SignatureHistoryRow :=
  let of_exe := filter (λ r, rep_ExecutionID r = executionID) (map_to_list (reports rs)).*2 in
  let totals := fold_left (λ m r, fold_left (sig_add r) (rep_Errors r) m) of_exe ∅ in
  merge_sort history_le (sig_row <$> map_to_list totals).

Inductive SignatureGroupBy := GroupByLabel | GroupByResponseCode.
Record SignatureBreakdown := mkSignatureBreakdown {
  bd_Key : string; bd_TotalCount : Z; bd_Rows : list SignatureHistoryRow
}.
Definition group_key (by_ : SignatureGroupBy) (r : SignatureHistoryRow) : string :=
  match by_ with
  | GroupByLabel => sg_Label (shr_Signature r)
  | GroupByResponseCode => sg_ResponseCode (shr_Signature r)
  end.
(** The loop: the groups and the order in which their keys were met. *)
Definition group_step (by_ : SignatureGroupBy)
    (st : gmap string SignatureBreakdown * list string) (r : SignatureHistoryRow) :
    gmap string SignatureBreakdown * list string :=
  let '(groups, order) := st in
  let key := group_key by_ r in
  let '(g, order) := match groups !! key with
                     | Some g => (g, order)
                     | None => (mkSignatureBreakdown key 0 [], order ++ [key])
                     end in
  (<[key := mkSignatureBreakdown (bd_Key g) (bd_TotalCount g +w shr_TotalCount r) (bd_Rows g ++ [r])]> groups,
   order).
Definition breakdown_le (a b : SignatureBreakdown) : Prop :=
  bd_TotalCount b < bd_TotalCount a ∨ bd_TotalCount a = bd_TotalCount b ∧ str_le (bd_Key a) (bd_Key b).
#[global] Instance breakdown_le_dec a b : Decision (breakdown_le a b).
Proof. unfold breakdown_le. apply _. Defined.
Definition GroupSignatureHistory (rows : list SignatureHistoryRow) (by_ : SignatureGroupBy) :
    list SignatureBreakdown :=
  let '(groups, order) := fold_left (group_step by_) rows (∅, []) in
  merge_sort breakdown_le (omap (λ k, groups !! k) order).

(** ** Grouping by second *)
Abbreviation of_second ts l := (filter (λ iv, iv_Timestamp iv = ts) l).

Lemma by_second_lookup l ts :
  by_second l !! ts = if decide (of_second ts l = []) then None else Some (of_second ts l).
Proof.
  unfold by_second. induction l as [|iv l IH] using rev_ind; [done|].
  rewrite fold_left_app, filter_app. cbn [fold_left].
  destruct (decide (iv_Timestamp iv = ts)) as [<-|Hne].
  - rewrite lookup_insert_eq, IH. rewrite (filter_cons_True _ iv []), filter_nil by done.
    destruct (decide (_ ++ [iv] = [])) as [[_ ?]%app_eq_nil|_]; [done|]. by case_decide as E; rewrite ?E.
  - rewrite lookup_insert_ne, IH by done. by rewrite (filter_cons_False _ iv []), filter_nil, app_nil_r by done.
Qed.
Lemma of_second_nil ts l : of_second ts l = [] ↔ ts ∉ iv_Timestamp <$> l.
Proof.
  split.
  - intros E (iv & -> & Hin)%list_elem_of_fmap.
    assert (iv ∈ of_second (iv_Timestamp iv) l) as Hf by (by apply list_elem_of_filter).
    rewrite E in Hf. by apply elem_of_nil in Hf.
  - intros Hn. apply elem_of_nil_inv. intros iv [<- Hin]%list_elem_of_filter.
    apply Hn, list_elem_of_fmap. by exists iv.
Qed.

(** The rows that are not re-sent copies. *)
Fixpoint distinct (seen : gset (Z * string * Z)) (l : list Interval) : list Interval :=
  match l with
  | [] => []
  | iv :: l =>
      if (0 <? iv_Seq iv) && bool_decide (duplicateKey iv ∈ seen) then distinct seen l
      else iv :: distinct (if 0 <? iv_Seq iv then {[duplicateKey iv]} ∪ seen else seen) l
  end.
Lemma series_fold l seen m :
  (fold_left series_step l (seen, m)).2 =
  fold_left (λ m iv, <[iv_Timestamp iv := default [] (m !! iv_Timestamp iv) ++ [iv]]> m) (distinct seen l) m.
Proof.
  revert seen m. induction l as [|iv l IH]; intros seen m; [done|]. cbn [fold_left distinct series_step].
  destruct ((0 <? iv_Seq iv) && _); [apply IH|]. cbn [fold_left]. apply IH.
Qed.
Lemma distinct_app seen l k : ∃ seen', distinct seen (l ++ k) = distinct seen l ++ distinct seen' k ∧
  ∀ key, key ∈ seen' ↔ key ∈ seen ∨ ∃ iv, iv ∈ l ∧ 0 < iv_Seq iv ∧ duplicateKey iv = key.
Proof.
  revert seen. induction l as [|iv l IH]; intros seen; cbn [app distinct].
  - exists seen. split; [done|]. intros key. split; [by left|]. intros [?|(iv & H & _)]; [done|]. by apply elem_of_nil in H.
  - destruct (Z.ltb_spec 0 (iv_Seq iv)) as [Hs|Hs]; cbn [andb].
    + case_bool_decide as Hin.
      * destruct (IH seen) as (seen' & -> & Hk). exists seen'. split; [done|]. set_solver.
      * destruct (IH ({[duplicateKey iv]} ∪ seen)) as (seen' & -> & Hk). exists seen'. split; [done|]. set_solver.
    + destruct (IH seen) as (seen' & -> & Hk). exists seen'. split; [done|]. intros key. rewrite Hk.
      split; [set_solver|]. intros [?|(iv' & [->|?]%elem_of_cons & ? & ?)]; [by left|lia|right; by exists iv'].
Qed.
Lemma distinct_timestamps l ts : ts ∈ iv_Timestamp <$> distinct ∅ l ↔ ts ∈ iv_Timestamp <$> l.
Proof.
  induction l as [|iv l IH] using rev_ind; [done|].
  destruct (distinct_app ∅ l [iv]) as (seen' & -> & Hk). rewrite !fmap_app, !elem_of_app, IH. cbn [distinct].
  destruct ((0 <? iv_Seq iv) && _) eqn:E; [|done]. apply andb_true_iff in E as [_ E].
  apply bool_decide_eq_true, Hk in E as [?|(iv' & Hin & _ & E)]; [done|]. cbn. split; [set_solver|].
  intros [?|Hts]; [by left|]. left. apply list_elem_of_fmap. exists iv'.
  apply list_elem_of_singleton in Hts as ->. unfold duplicateKey in E. by simplify_eq.
Qed.

(** What is charted, with the loop out of the way. *)
Lemma BuildSeries_eq l pcts :
  BuildSeries l pcts = (λ ts, series_point pcts ts (of_second ts (distinct ∅ l))) <$>
                       merge_sort Z.le (map_to_list (by_second (distinct ∅ l))).*1.
Proof.
  destruct l as [|iv l]; [done|]. unfold BuildSeries. rewrite series_fold. fold (by_second (distinct ∅ (iv :: l))).
  apply list_fmap_ext. intros i ts _. f_equal. rewrite by_second_lookup. by case_decide as E; rewrite ?E.
Qed.

Lemma seconds_sorted (l : list Interval) :
  let keys := merge_sort Z.le (map_to_list (by_second l)).*1 in
  StronglySorted Z.lt keys ∧ ∀ ts, ts ∈ keys ↔ ts ∈ iv_Timestamp <$> l.
Proof.
  intros keys. assert (Hp : keys ≡ₚ (map_to_list (by_second l)).*1) by apply merge_sort_Permutation.
  assert (Hnd : NoDup keys) by (rewrite Hp; apply NoDup_fst_map_to_list).
  split.
  - assert (Hs : StronglySorted Z.le keys) by (apply (StronglySorted_merge_sort Z.le)). revert Hs Hnd. generalize keys. clear.
    induction 1 as [|x k Hs IH Hx]; intros Hnd; [constructor|]. apply NoDup_cons in Hnd as [Hni Hnd].
    constructor; [by apply IH|]. rewrite Forall_forall in Hx |- *. intros y Hy. specialize (Hx y Hy).
    assert (x ≠ y) by (by intros ->). lia.
  - intros ts. rewrite Hp, list_elem_of_fmap. split.
    + intros ([ts' rows] & -> & Hin%elem_of_map_to_list). rewrite by_second_lookup in Hin.
      case_decide as E; [done|]. destruct (decide (ts' ∈ iv_Timestamp <$> l)); [done|]. by rewrite of_second_nil in E.
    + intros Hin. exists (ts, of_second ts l). split; [done|]. apply elem_of_map_to_list. rewrite by_second_lookup.
      rewrite decide_False; [done|]. by intros E%of_second_nil.
Qed.

(** The chart of a run: its points ascend strictly in time, there is one for
    exactly each second that was measured, and a point shows the merge of that
    second's rows with re-sent copies left out. *)
Theorem series_exact l pcts :
  StronglySorted Z.lt (sp_Ts <$> BuildSeries l pcts) ∧
  ∀ pt, pt ∈ BuildSeries l pcts ↔
    ∃ ts, ts ∈ iv_Timestamp <$> l ∧ pt = series_point pcts ts (of_second ts (distinct ∅ l)).
Proof.
  rewrite BuildSeries_eq. destruct (seconds_sorted (distinct ∅ l)) as [Hs Hin]. split.
  - rewrite <- list_fmap_compose. erewrite list_fmap_ext, list_fmap_id; [done|].
    intros i ts _. unfold series_point, compose. by destruct (MergeSecond _).
  - intros pt. rewrite list_elem_of_fmap. split.
    + intros (ts & -> & H%Hin). exists ts. split; [|done]. by apply distinct_timestamps.
    + intros (ts & H & ->). exists ts. split; [done|]. by apply Hin, distinct_timestamps.
Qed.

(** A copy of a sequenced row that was charted already changes nothing. *)
Theorem resent_rows_ignored l k iv iv' pcts :
  iv ∈ l → 0 < iv_Seq iv → duplicateKey iv' = duplicateKey iv →
  BuildSeries (l ++ iv' :: k) pcts = BuildSeries (l ++ k) pcts.
Proof.
  intros Hin Hseq Hkey. rewrite !BuildSeries_eq.
  assert (distinct ∅ (l ++ iv' :: k) = distinct ∅ (l ++ k)) as ->; [|done].
  revert Hin. generalize (∅ : gset (Z * string * Z)). induction l as [|x l IH]; intros seen Hin; [by apply elem_of_nil in Hin|].
  assert (Hpast : ∀ l seen, duplicateKey iv ∈ seen → distinct seen (l ++ iv' :: k) = distinct seen (l ++ k)).
  { clear - Hseq Hkey. induction l as [|x l IH]; intros seen Hs; cbn [app distinct].
    - assert (iv_Seq iv' = iv_Seq iv) as -> by (by injection Hkey). rewrite (proj2 (Z.ltb_lt _ _) Hseq), Hkey.
      by rewrite bool_decide_true.
    - destruct ((0 <? iv_Seq x) && _); [by apply IH|]. f_equal. apply IH. destruct (0 <? iv_Seq x); set_solver. }
  cbn [app distinct]. apply elem_of_cons in Hin as [<-|Hin].
  - rewrite (proj2 (Z.ltb_lt _ _) Hseq). cbn [andb]. case_bool_decide; [by apply Hpast|].
    f_equal. apply Hpast. set_solver.
  - destruct ((0 <? iv_Seq x) && _); [by apply IH|]. f_equal. by apply IH.
Qed.

(** ** The stored rows chart as the measurements themselves *)

(** The running sums of a second: users, samples, failures, bytes, the response
    times and the engine's own reading. *)
Definition sums_of (st : Interval * Z) : seriesSecond :=
  mkSeriesSecond st.2 (iv_Concurrency st.1) (iv_Samples st.1) (iv_Failed st.1) (iv_Bytes st.1) (iv_Latency st.1).
Definition sums_join (a b : seriesSecond) : seriesSecond :=
  mkSeriesSecond (srs_engine a +w srs_engine b) (srs_labels a +w srs_labels b) (srs_samples a +w srs_samples b)
    (srs_failed a +w srs_failed b) (srs_bytes a +w srs_bytes b) (Histogram_Merge (srs_latency a) (srs_latency b)).
Definition sums_ok (a : seriesSecond) : Prop :=
  in_int64 (srs_engine a) ∧ in_int64 (srs_labels a) ∧ in_int64 (srs_samples a) ∧ in_int64 (srs_failed a) ∧
  in_int64 (srs_bytes a).
Definition merge (rows : list Interval) : seriesSecond := sums_of (MergeSecond rows).

Lemma sums_join_assoc a b c : sums_join (sums_join a b) c = sums_join a (sums_join b c).
Proof. unfold sums_join. cbn. f_equal; try apply wadd_assoc. apply add_counts_assoc. Qed.
Lemma sums_join_empty a : sums_ok a → sums_join a empty_series = a.
Proof.
  intros (? & ? & ? & ? & ?). destruct a. unfold sums_join, empty_series. cbn in *.
  rewrite !wadd_zero by done. f_equal. apply add_counts_empty_r.
Qed.
Lemma sums_empty_join a : sums_ok a → sums_join empty_series a = a.
Proof.
  intros (? & ? & ? & ? & ?). destruct a. unfold sums_join, empty_series. cbn in *.
  rewrite !wrap64_small by done. f_equal. apply add_counts_empty_l.
Qed.
Lemma sums_join_ok a b : sums_ok (sums_join a b).
Proof. unfold sums_ok, sums_join. cbn. split_and!; apply wrap64_in_int64. Qed.

(** One row's share. *)
Definition row_sums (row : Interval) : seriesSecond :=
  if bool_decide (iv_Label row = TotalLabel) then mkSeriesSecond (iv_Concurrency row) 0 0 0 0 ∅
  else mkSeriesSecond 0 (iv_Concurrency row) (iv_Samples row) (iv_Failed row) (iv_Bytes row) (iv_Latency row).
Lemma merge_ok rows : sums_ok (merge rows).
Proof.
  unfold merge, MergeSecond. assert (H : sums_ok (sums_of (empty_interval, 0))) by (by vm_compute).
  revert H. generalize (empty_interval, 0). induction rows as [|row rows IH]; intros [m en] H; [done|].
  cbn [fold_left]. apply IH. unfold merge_row. destruct H as (? & ? & ? & ? & ?).
  case_bool_decide; unfold sums_ok, sums_of in *; cbn in *; split_and!; try done; apply wrap64_in_int64.
Qed.
Lemma merge_snoc rows row : merge (rows ++ [row]) = sums_join (merge rows) (row_sums row).
Proof.
  pose proof (merge_ok rows) as Hok. unfold merge, MergeSecond in *. rewrite fold_left_app. cbn [fold_left].
  destruct (fold_left merge_row rows _) as [m en]. destruct Hok as (? & ? & ? & ? & ?).
  unfold merge_row, row_sums, sums_of, sums_join in *. cbn in *.
  case_bool_decide; cbn; rewrite ?wadd_zero by done; f_equal. symmetry. apply add_counts_empty_r.
Qed.
Lemma merge_app l k : merge (l ++ k) = sums_join (merge l) (merge k).
Proof.
  induction k as [|row k IH] using rev_ind.
  - rewrite app_nil_r. symmetry. apply sums_join_empty, merge_ok.
  - by rewrite app_assoc, !merge_snoc, IH, sums_join_assoc.
Qed.

(** What the store holds after chunks of fresh rows were absorbed. *)
Definition stored (chunks : list (list Interval)) : gmap Z seriesSecond :=
  fold_left (λ seconds fresh, absorbSeries fresh seconds) chunks ∅.
Lemma absorb_second_sums seconds kv :
  absorb_second seconds kv = <[kv.1 := sums_join (default empty_series (seconds !! kv.1)) (merge kv.2)]> seconds.
Proof. unfold absorb_second, merge. by destruct (MergeSecond kv.2). Qed.
Lemma absorb_fold_lookup (l : list (Z * list Interval)) seconds ts :
  NoDup l.*1 →
  fold_left absorb_second l seconds !! ts =
  match (list_to_map l : gmap Z (list Interval)) !! ts with
  | Some rows => Some (sums_join (default empty_series (seconds !! ts)) (merge rows))
  | None => seconds !! ts
  end.
Proof.
  revert seconds. induction l as [|[ts' rows] l IH]; intros seconds Hnd; [done|].
  rewrite fmap_cons in Hnd. cbn [fst] in Hnd. apply NoDup_cons in Hnd as [Hni Hnd].
  cbn [fold_left]. rewrite IH by done. cbn [list_to_map foldr fst snd]. rewrite absorb_second_sums. cbn [fst snd].
  apply not_elem_of_list_to_map_1 in Hni.
  destruct (decide (ts' = ts)) as [->|Hne]; simplify_map_eq; done.
Qed.
Lemma absorbSeries_lookup fresh seconds ts :
  absorbSeries fresh seconds !! ts =
  if decide (of_second ts fresh = []) then seconds !! ts
  else Some (sums_join (default empty_series (seconds !! ts)) (merge (of_second ts fresh))).
Proof.
  unfold absorbSeries. rewrite absorb_fold_lookup by apply NoDup_fst_map_to_list.
  rewrite list_to_map_to_list, by_second_lookup. by case_decide.
Qed.
Lemma stored_lookup chunks ts :
  stored chunks !! ts =
  if decide (of_second ts (concat chunks) = []) then None else Some (merge (of_second ts (concat chunks))).
Proof.
  unfold stored. induction chunks as [|fresh chunks IH] using rev_ind; [done|].
  rewrite fold_left_app. cbn [fold_left]. rewrite absorbSeries_lookup, IH, concat_app. cbn [concat].
  rewrite app_nil_r, filter_app.
  destruct (decide (of_second ts fresh = [])) as [E|E].
  - by rewrite E, app_nil_r.
  - destruct (decide (_ ++ _ = [])) as [[_ ?]%app_eq_nil|_]; [done|]. f_equal. rewrite merge_app.
    case_decide as E'; cbn [default from_option]; [|done]. by rewrite E'.
Qed.

Definition sums_point (pcts : list float64) (ts : Z) (s : seriesSecond) : SeriesPoint :=
  mkSeriesPoint ts (vus (srs_labels s) (srs_engine s)) (of_int (srs_samples s))
    (if 0 <? srs_samples s then fmul (fdiv (of_int (srs_failed s)) (of_int (srs_samples s))) (of_int 100) else fzero)
    (if 0 <? Count (srs_latency s) then Percentiles (srs_latency s) pcts else ∅).
Lemma series_point_sums pcts ts rows : series_point pcts ts rows = sums_point pcts ts (merge rows).
Proof. unfold series_point, sums_point, merge. by destruct (MergeSecond rows). Qed.
(** A stored row charts as its sums, unless its reading of users is negative. *)
Lemma stored_row_point pcts ts s :
  sums_ok s → 0 <= srs_labels s → series_point pcts ts [series_interval (ts, s)] = sums_point pcts ts s.
Proof.
  intros Hok Hpos. rewrite series_point_sums. change [series_interval (ts, s)] with ([] ++ [series_interval (ts, s)]).
  rewrite merge_snoc. assert (merge [] = empty_series) as -> by done.
  destruct Hok as (He & Hl & Hs & Hf & Hb).
  assert (row_sums (series_interval (ts, s)) =
    mkSeriesSecond 0 (if srs_labels s <? srs_engine s then srs_engine s else srs_labels s) (srs_samples s)
      (srs_failed s) (srs_bytes s) (srs_latency s)) as -> by done.
  rewrite sums_empty_join by (unfold sums_ok; cbn [srs_engine srs_labels srs_samples srs_failed srs_bytes];
    split_and!; try done; by destruct (_ <? _)).
  unfold sums_point, vus. cbn [srs_engine srs_labels srs_samples srs_failed srs_bytes srs_latency]. f_equal.
  destruct (Z.ltb_spec (srs_labels s) (srs_engine s)).
  - by rewrite (proj2 (Z.ltb_ge _ _)) by lia.
  - by rewrite (proj2 (Z.ltb_ge _ _)) by lia.
Qed.

Lemma distinct_unsequenced seen l : Forall (λ iv, iv_Seq iv = 0) l → distinct seen l = l.
Proof.
  intros Hl. revert seen. induction Hl as [|iv l Hiv _ IH]; intros seen; [done|]. cbn [distinct]. rewrite Hiv. cbn. by rewrite IH.
Qed.
Lemma stored_rows_of_second (m : gmap Z seriesSecond) ts s :
  m !! ts = Some s →
  of_second ts (merge_sort series_le (series_interval <$> map_to_list m)) = [series_interval (ts, s)].
Proof.
  intros Hm. apply Permutation_singleton_r. rewrite merge_sort_Permutation, <- (insert_delete_id m ts s Hm).
  rewrite map_to_list_insert by apply lookup_delete_eq. cbn [fmap list_fmap].
  rewrite filter_cons_True by done. f_equiv. apply Permutation_nil_r, elem_of_nil_inv.
  intros iv [Hts ([ts' s'] & -> & Hin%elem_of_map_to_list)%list_elem_of_fmap]%list_elem_of_filter.
  cbn in Hts. subst ts'. by rewrite lookup_delete_eq in Hin.
Qed.
Lemma merge_sort_keys (l k : list Z) :
  NoDup l → NoDup k → (∀ x, x ∈ l ↔ x ∈ k) → merge_sort Z.le l = merge_sort Z.le k.
Proof.
  intros Hl Hk H. apply (StronglySorted_unique Z.le); [apply (StronglySorted_merge_sort Z.le)..|].
  rewrite !merge_sort_Permutation. by apply NoDup_Permutation.
Qed.
Lemma merge_labels rows :
  srs_labels (merge rows) = wrap64 (sumZ iv_Concurrency (filter (λ iv, iv_Label iv ≠ TotalLabel) rows)).
Proof.
  induction rows as [|row rows IH] using rev_ind; [done|]. rewrite merge_snoc, filter_app, sumZ_app. cbn [srs_labels sums_join].
  rewrite IH. unfold row_sums. case_bool_decide as E; cbn [srs_labels].
  - rewrite filter_cons_False, filter_nil by tauto. cbn [sumZ foldr]. by rewrite wrap64_add_l.
  - rewrite filter_cons_True, filter_nil by done. cbn [sumZ foldr]. rewrite Z.add_0_r. apply wrap64_add_l.
Qed.
Lemma merge_labels_nonneg rows l :
  Forall (λ iv, 0 <= iv_Concurrency iv) l → sumZ iv_Concurrency l <= int64_max →
  (∃ P : Interval → Prop, ∃ H : ∀ x, Decision (P x), rows = filter P l) → 0 <= srs_labels (merge rows).
Proof.
  intros Hpos Hsum (P & HP & ->). rewrite merge_labels, list_filter_filter. rewrite Forall_forall in Hpos.
  set (Q := λ x, _). assert (0 <= sumZ iv_Concurrency (filter Q l) <= sumZ iv_Concurrency l).
  { split; [|by apply sumZ_filter_le]. apply sumZ_nonneg. intros x [_ Hx]%list_elem_of_filter. by apply Hpos. }
  rewrite wrap64_small; [lia|]. unfold in_int64, int64_min. lia.
Qed.

(** C8. However a run's measurements were divided into pushes, the chart drawn
    from the rows the store kept is the chart of the measurements themselves:
    one point per second, each the merge of all rows of that second. *)
Theorem chart_of_stored_rows r p chunks pcts :
  rp_series p !! r = Some (stored chunks) →
  Forall (λ iv, 0 <= iv_Concurrency iv) (concat chunks) →
  sumZ iv_Concurrency (concat chunks) <= int64_max →
  BuildSeries (ListIntervalsByRun r p) pcts =
  (λ ts, series_point pcts ts (of_second ts (concat chunks))) <$>
  merge_sort Z.le (remove_dups (iv_Timestamp <$> concat chunks)).
Proof.
  intros Hp Hpos Hsum. rewrite BuildSeries_eq. unfold ListIntervalsByRun. rewrite Hp. cbn [default from_option id].
  set (rows := merge_sort series_le _).
  assert (Hrows : ∀ iv, iv ∈ rows ↔ ∃ ts s, stored chunks !! ts = Some s ∧ iv = series_interval (ts, s)).
  { intros iv. unfold rows. rewrite merge_sort_Permutation, list_elem_of_fmap. split.
    - intros ([ts s] & -> & H%elem_of_map_to_list). by exists ts, s.
    - intros (ts & s & H & ->). exists (ts, s). split; [done|]. by apply elem_of_map_to_list. }
  rewrite distinct_unsequenced by (apply Forall_forall; intros iv (ts & s & _ & ->)%Hrows; done).
  assert (Hkeys : merge_sort Z.le (map_to_list (by_second rows)).*1 =
                  merge_sort Z.le (remove_dups (iv_Timestamp <$> concat chunks))).
  { apply merge_sort_keys; [apply NoDup_fst_map_to_list|apply NoDup_remove_dups|]. intros ts.
    rewrite elem_of_remove_dups. destruct (seconds_sorted rows) as [_ Hin].
    rewrite <- (merge_sort_Permutation Z.le (map_to_list (by_second rows)).*1), Hin, list_elem_of_fmap. split.
    - intros (iv & -> & (ts' & s & Hs & ->)%Hrows). rewrite stored_lookup in Hs. case_decide as E; [done|].
      cbn. destruct (decide (ts' ∈ iv_Timestamp <$> concat chunks)); [done|]. by rewrite of_second_nil in E.
    - intros Hts. exists (series_interval (ts, merge (of_second ts (concat chunks)))). split; [done|].
      apply Hrows. exists ts, (merge (of_second ts (concat chunks))). split; [|done].
      rewrite stored_lookup, decide_False; [done|]. by intros E%of_second_nil. }
  rewrite Hkeys. apply Forall_fmap_ext_1, Forall_forall. intros ts Hts.
  rewrite merge_sort_Permutation, elem_of_remove_dups in Hts.
  unfold rows. rewrite (stored_rows_of_second _ ts (merge (of_second ts (concat chunks)))).
  - rewrite stored_row_point, series_point_sums; [done|apply merge_ok|].
    apply (merge_labels_nonneg _ (concat chunks)); [done..|]. eauto.
  - rewrite stored_lookup, decide_False; [done|]. by intros E%of_second_nil.
Qed.

(** Two pushes that share a second, and the engine's own row. *)
Definition push1 : list Interval :=
  [mkInterval 1 100 "GET /" 2 30 30 0 900 {[ of_int 1 := 30 ]} ∅ [];
   mkInterval 2 100 TotalLabel 5 30 30 0 900 ∅ ∅ []].
Definition push2 : list Interval :=
  [mkInterval 1 101 "GET /" 3 10 9 1 300 {[ of_int 2 := 10 ]} ∅ [];
   mkInterval 2 100 "POST /" 4 10 0 10 100 {[ of_int 3 := 10 ]} ∅ []].
Definition stored_pushes : ReportProgress :=
  mkReportProgress ∅ {[ 7 := stored [push1; push2] ]} None None.
Lemma chart_of_stored_rows_witness :
  BuildSeries (ListIntervalsByRun 7 stored_pushes) [of_int 50] =
  (λ ts, series_point [of_int 50] ts (of_second ts (push1 ++ push2))) <$>
  merge_sort Z.le (remove_dups (iv_Timestamp <$> push1 ++ push2)) ∧
  sp_RPS <$> BuildSeries (ListIntervalsByRun 7 stored_pushes) [of_int 50] = [of_int 40; of_int 10].
Proof.
  split; [|by vm_compute].
  apply (chart_of_stored_rows 7 stored_pushes [push1; push2] [of_int 50]);
    [reflexivity|by repeat constructor|by vm_compute].
Defined.

(** ** Grouping the history *)
Abbreviation of_group by_ k rows := (filter (λ r, group_key by_ r = k) rows).
Definition group_inv (by_ : SignatureGroupBy) (rows : list SignatureHistoryRow)
    (st : gmap string SignatureBreakdown * list string) : Prop :=
  NoDup st.2 ∧ (∀ k, k ∈ st.2 ↔ k ∈ group_key by_ <$> rows) ∧
  ∀ k, st.1 !! k = if decide (k ∈ group_key by_ <$> rows)
    then Some (mkSignatureBreakdown k (sum64 shr_TotalCount (of_group by_ k rows)) (of_group by_ k rows)) else None.
Lemma of_group_nil by_ k rows : k ∉ group_key by_ <$> rows → of_group by_ k rows = [].
Proof.
  intros Hn. apply elem_of_nil_inv. intros r [<- Hin]%list_elem_of_filter. apply Hn, list_elem_of_fmap. by exists r.
Qed.
Lemma sum64_snoc {A} (f : A → Z) l x : sum64 f (l ++ [x]) = sum64 f l +w f x.
Proof. unfold sum64. by rewrite fold_left_app. Qed.
Lemma group_fold by_ rows : group_inv by_ rows (fold_left (group_step by_) rows (∅, [])).
Proof.
  induction rows as [|r rows IH] using rev_ind.
  { split; [constructor|]. split; [done|]. intros k. by rewrite decide_False by apply not_elem_of_nil. }
  rewrite fold_left_app. cbn [fold_left]. destruct (fold_left _ rows _) as [groups order].
  destruct IH as (Hnd & Hord & Hg). cbn [fst snd] in *. unfold group_step. set (key := group_key by_ r).
  assert (Hmem : ∀ k, k ∈ group_key by_ <$> rows ++ [r] ↔ k ∈ group_key by_ <$> rows ∨ k = key)
    by (intros k; rewrite fmap_app, elem_of_app; cbn; rewrite list_elem_of_singleton; done).
  assert (Hlast : ∀ k, of_group by_ k (rows ++ [r]) = of_group by_ k rows ++ if decide (key = k) then [r] else []).
  { intros k. rewrite filter_app. unfold key. rewrite (filter_cons _ r []), filter_nil. by case_decide. }
  assert (Hsame : ∀ k (x y : option SignatureBreakdown), k ≠ key →
    (if decide (k ∈ group_key by_ <$> rows) then x else y) = if decide (k ∈ group_key by_ <$> rows ++ [r]) then x else y).
  { intros k x y Hne. specialize (Hmem k). repeat case_decide; tauto. }
  rewrite (Hg key). destruct (decide (key ∈ group_key by_ <$> rows)) as [Hin|Hni]; unfold group_inv; cbn [fst snd].
  - split; [done|]. split; [intros k; rewrite Hord, Hmem; naive_solver|]. intros k.
    destruct (decide (k = key)) as [->|Hne].
    + rewrite lookup_insert_eq, decide_True by (apply Hmem; by right). cbn [bd_Key bd_TotalCount bd_Rows].
      by rewrite Hlast, decide_True, sum64_snoc by done.
    + rewrite lookup_insert_ne, Hg, Hlast, (decide_False (P := key = k)), app_nil_r by congruence.
      by apply Hsame.
  - split; [|split].
    + apply NoDup_app. split; [done|]. split; [|apply NoDup_singleton].
      intros k Hk%Hord. rewrite list_elem_of_singleton. by intros ->.
    + intros k. rewrite elem_of_app, list_elem_of_singleton, Hord, Hmem. done.
    + intros k. destruct (decide (k = key)) as [->|Hne].
      * rewrite lookup_insert_eq, decide_True by (apply Hmem; by right). cbn [bd_Key bd_TotalCount bd_Rows].
        by rewrite Hlast, decide_True, sum64_snoc, of_group_nil by done.
      * rewrite lookup_insert_ne, Hg, Hlast, (decide_False (P := key = k)), app_nil_r by congruence.
        by apply Hsame.
Qed.

(** Every row of the history stands in exactly one group, the groups are those
    of the keys there are, and a group's total is the sum over its rows. *)
Theorem history_grouped rows by_ :
  NoDup (bd_Key <$> GroupSignatureHistory rows by_) ∧
  ∀ g, g ∈ GroupSignatureHistory rows by_ ↔ ∃ k, k ∈ group_key by_ <$> rows ∧
    g = mkSignatureBreakdown k (sum64 shr_TotalCount (of_group by_ k rows)) (of_group by_ k rows).
Proof.
  unfold GroupSignatureHistory. destruct (group_fold by_ rows) as (Hnd & Hord & Hg).
  destruct (fold_left _ rows _) as [groups order]. cbn [fst snd] in *.
  assert (Hkey : ∀ k g, groups !! k = Some g → bd_Key g = k)
    by (intros k g E; rewrite Hg in E; case_decide; by simplify_eq). split.
  - rewrite merge_sort_Permutation. clear Hord Hg. induction Hnd as [|k order Hni Hnd IH]; [constructor|]. cbn [omap list_omap].
    destruct (groups !! k) as [g|] eqn:E; [|done]. rewrite fmap_cons. constructor; [|done].
    rewrite (Hkey _ _ E). intros (g' & -> & (k' & Hk' & E')%list_elem_of_omap)%list_elem_of_fmap.
    by rewrite (Hkey _ _ E') in Hni.
  - intros g. rewrite merge_sort_Permutation, list_elem_of_omap. split.
    + intros (k & Hk & E). rewrite Hg in E. case_decide; [|done]. simplify_eq. by exists k.
    + intros (k & Hk & ->). exists k. split; [by apply Hord|]. by rewrite Hg, decide_True.
Qed.
