(* ===== verification/Export.v ===== *)
(** * Downloads of a run ([internal/adapters/httpapi/report_handlers.go],
      [report_pdf.go])

    The CSV and the PDF a run's report and series are exported as, byte by
    byte.  The CSV is read back by a reader of RFC 4180, the text of the PDF by
    a reader of its literal strings. *)
From Stdlib Require Import Ascii.
From S2P Require Import Prelude Errors GoStrings GoFloat ParseFloat FormatFloat Taurus Report Recs Series.

Definition LF : ascii := "010"%char.
Definition COMMA : ascii := ","%char.
Definition QUOTE : ascii := "034"%char.

Definition exportFloat (v : float64) : string := FormatFloat v.
Definition exportPercentile (p : gmap float64 float64) (pct : Z) : string :=
  match p !! of_int pct with Some v => exportFloat v | None => "" end.

(** ** Comma-separated values

    *** [encoding/csv], writing with line feeds *)
Definition csv_special (a : ascii) : bool := bool_decide (a ∈ [LF; "013"%char; QUOTE; COMMA]).
Definition fieldNeedsQuotes (field : list ascii) : bool :=
  match field with
  | [] => false
  | _ => bool_decide (field = ["\"; "."]%char) || existsb csv_special field ||
         bool_decide (is_Some (lead space2 space3 field))
  end.
Definition quote_byte (a : ascii) : list ascii := if bool_decide (a = QUOTE) then [QUOTE; QUOTE] else [a].
Definition csv_field (field : list ascii) : list ascii :=
  if fieldNeedsQuotes field then [QUOTE] ++ (field ≫= quote_byte) ++ [QUOTE] else field.
Fixpoint csv_fields (fields : list (list ascii)) : list ascii :=
  match fields with
  | [] => []
  | [f] => csv_field f
  | f :: fields => csv_field f ++ COMMA :: csv_fields fields
  end.
Definition csv_Write (fields : list (list ascii)) : list ascii := csv_fields fields ++ [LF].

(** *** The download *)
Definition label_record (l : LabelSummary) : list string :=
  [lsm_Label l; pretty (lsm_Samples l); exportFloat (lsm_ErrorRate l); exportPercentile (lsm_Latency l) 50;
   exportPercentile (lsm_Latency l) 95; exportPercentile (lsm_Latency l) 99].
Definition point_record (p : SeriesPoint) : list string :=
  [pretty (sp_Ts p); exportFloat (sp_VUs p); exportFloat (sp_RPS p); exportFloat (sp_ErrPct p);
   exportPercentile (sp_Latency p) 50; exportPercentile (sp_Latency p) 90;
   exportPercentile (sp_Latency p) 95; exportPercentile (sp_Latency p) 99].
Definition label_table (rep : Report) : list (list string) :=
  ["label"; "samples"; "error_rate"; "p50"; "p95"; "p99"] :: (label_record <$> rep_Labels rep).
Definition series_table (points : list SeriesPoint) : list (list string) :=
  ["ts"; "vus"; "rps"; "err_pct"; "p50"; "p90"; "p95"; "p99"] :: (point_record <$> points).
Definition csv_table (t : list (list string)) : list ascii := t ≫= (λ row, csv_Write (bytes_of <$> row)).
Definition comment (runID : Z) (what : string) : list ascii :=
  bytes_of ("# run " +:+ pretty runID +:+ " — " +:+ what).
Definition runExportCSV (runID : Z) (rep : Report) (points : list SeriesPoint) : list ascii :=
  comment runID "labels" ++ [LF] ++ csv_table (label_table rep) ++
  [LF] ++ comment runID "per-second series" ++ [LF] ++ csv_table (series_table points).

(** *** Reading it (RFC 4180): the state is where in a cell the reader is *)
Inductive csv_state := CellStart | InPlain | InQuotes | AfterQuote.
Fixpoint csv_read (st : csv_state) (cell : list ascii) (row : list (list ascii)) (l : list ascii) :
    option (list (list (list ascii))) :=
  match l with
  | [] => match st, row with CellStart, [] => Some [] | _, _ => None end
  | a :: l =>
      match st with
      | InQuotes => if bool_decide (a = QUOTE) then csv_read AfterQuote cell row l
                    else csv_read InQuotes (cell ++ [a]) row l
      | _ =>
          if bool_decide (a = COMMA) then csv_read CellStart [] (row ++ [cell]) l
          else if bool_decide (a = LF) then cons (row ++ [cell]) <$> csv_read CellStart [] [] l
          else if bool_decide (a = QUOTE) then
            match st with
            | CellStart => csv_read InQuotes [] row l
            | AfterQuote => csv_read InQuotes (cell ++ [QUOTE]) row l
            | _ => None
            end
          else match st with
               | AfterQuote => None
               | _ => csv_read InPlain (cell ++ [a]) row l
               end
      end
  end.
Definition csv_ReadAll (l : list ascii) : option (list (list (list ascii))) := csv_read CellStart [] [] l.

(** ** Reading the table back *)
Definition plain (l : list ascii) : Prop := Forall (λ a, csv_special a = false) l.
Lemma csv_plain_char a : csv_special a = false → a ≠ COMMA ∧ a ≠ LF ∧ a ≠ QUOTE.
Proof. unfold csv_special. intros H%bool_decide_eq_false. set_solver. Qed.
Lemma read_plain l st cell row rest :
  plain l → l ≠ [] → st = CellStart ∨ st = InPlain →
  csv_read st cell row (l ++ rest) = csv_read InPlain (cell ++ l) row rest.
Proof.
  intros Hl. revert st cell. induction Hl as [|a l Ha Hl IH]; intros st cell Hne Hst; [done|].
  apply csv_plain_char in Ha as (H1 & H2 & H3). cbn [app csv_read].
  assert (Hstep : csv_read InPlain (cell ++ [a]) row (l ++ rest) = csv_read InPlain (cell ++ a :: l) row rest).
  { destruct l as [|b l]; [done|]. rewrite IH by (try done; by right). by rewrite <- app_assoc. }
  destruct Hst as [-> | ->]; rewrite !bool_decide_false by done; done.
Qed.
Lemma read_quoted l cell row rest :
  csv_read InQuotes cell row ((l ≫= quote_byte) ++ QUOTE :: rest) = csv_read AfterQuote (cell ++ l) row rest.
Proof.
  revert cell. induction l as [|a l IH]; intros cell.
  - cbn. by rewrite app_nil_r.
  - cbn [mbind list_bind]. rewrite <- app_assoc. unfold quote_byte at 1. case_bool_decide as E.
    + subst a. cbn [app csv_read]. rewrite !bool_decide_true by done. change (bool_decide (QUOTE = COMMA)) with false.
      change (bool_decide (QUOTE = LF)) with false. cbv iota. rewrite IH, <- app_assoc. done.
    + cbn [app csv_read]. rewrite bool_decide_false by done. rewrite IH, <- app_assoc. done.
Qed.
(** What follows a cell does not depend on how it was written. *)
Lemma read_field f row rest a :
  a = COMMA ∨ a = LF →
  csv_read CellStart [] row (csv_field f ++ a :: rest) =
  if bool_decide (a = COMMA) then csv_read CellStart [] (row ++ [f]) rest
  else cons (row ++ [f]) <$> csv_read CellStart [] [] rest.
Proof.
  intros Ha. unfold csv_field. destruct (fieldNeedsQuotes f) eqn:Hq.
  - rewrite <- !app_assoc. change ([QUOTE] ++ ?x) with (QUOTE :: x). cbn [csv_read].
    change (bool_decide (QUOTE = COMMA)) with false. change (bool_decide (QUOTE = LF)) with false.
    rewrite (bool_decide_true (QUOTE = QUOTE)) by done. cbv iota. cbn [app]. rewrite read_quoted. cbn [app csv_read].
    by destruct Ha as [-> | ->].
  - destruct f as [|b f]; [by destruct Ha as [-> | ->]|].
    assert (plain (b :: f)) as Hp.
    { unfold fieldNeedsQuotes in Hq. apply orb_false_iff in Hq as [[_ Hq]%orb_false_iff _].
      apply Forall_forall. intros c Hc. destruct (csv_special c) eqn:E; [|done].
      assert (existsb csv_special (b :: f) = true) as E2; [|congruence].
      apply existsb_exists. exists c. split; [by apply list_elem_of_In|done]. }
    rewrite read_plain by (try done; by left). cbn [app csv_read]. by destruct Ha as [-> | ->].
Qed.
Lemma read_fields fields row rest :
  fields ≠ [] →
  csv_read CellStart [] row (csv_fields fields ++ LF :: rest) =
  cons (row ++ fields) <$> csv_read CellStart [] [] rest.
Proof.
  revert row. induction fields as [|f fields IH]; intros row Hne; [done|].
  destruct fields as [|g fields].
  - cbn [csv_fields]. rewrite read_field by (by right). done.
  - change (csv_fields (f :: g :: fields)) with (csv_field f ++ COMMA :: csv_fields (g :: fields)).
    rewrite <- app_assoc. rewrite <- app_comm_cons. rewrite read_field by (by left). rewrite bool_decide_true by done.
    rewrite IH by done. by rewrite <- app_assoc.
Qed.
Definition cells (t : list (list string)) : list (list (list ascii)) := map (map bytes_of) t.
Lemma read_table t rest :
  Forall (λ row, row ≠ []) t →
  csv_ReadAll (csv_table t ++ rest) = app (cells t) <$> csv_ReadAll rest.
Proof.
  unfold csv_ReadAll, csv_table. induction 1 as [|row t Hr _ IH].
  { change (([] ≫= _) ++ rest) with rest. by destruct (csv_read _ _ _ rest). }
  change ((row :: t) ≫= ?f) with (f row ++ (t ≫= f)). unfold csv_Write at 1. rewrite <- !app_assoc.
  change ([LF] ++ ?x) with (LF :: x). rewrite read_fields by (by destruct row).
  rewrite IH. unfold cells. cbn [map].
  by destruct (csv_read _ _ _ rest).
Qed.
(** A line of plain text is a row of one cell. *)
Lemma read_line l rest : plain l → csv_ReadAll (l ++ LF :: rest) = cons [l] <$> csv_ReadAll rest.
Proof.
  intros Hl. unfold csv_ReadAll. destruct l as [|a l]; [done|]. rewrite read_plain by (try done; by left).
  cbn [app csv_read]. done.
Qed.
Lemma pretty_plain (n : Z) : plain (bytes_of (pretty n)).
Proof.
  assert (Hd : ∀ l, Forall (λ a, in_range 48 57 a = true) l → plain l).
  { intros l Hl. eapply Forall_impl; [exact Hl|]. intros a Ha. unfold csv_special. apply bool_decide_eq_false. intros Hin.
    repeat (apply elem_of_cons in Hin as [->|Hin]; [done|]). by apply elem_of_nil in Hin. }
  destruct (decide (0 <= n)) as [Hn|Hn]; [by apply Hd, pretty_digits|].
  destruct n as [|p|p]; [lia..|]. change (pretty (Z.neg p)) with ("-" +:+ pretty (Z.pos p)).
  rewrite bytes_of_app. apply Forall_app. split; [by repeat constructor|]. by apply Hd, pretty_digits.
Qed.
Lemma comment_plain runID what : plain (bytes_of what) → plain (comment runID what).
Proof.
  intros Hw. unfold comment. rewrite !bytes_of_app. repeat (apply Forall_app; split); [|apply pretty_plain| |done];
    by repeat constructor.
Qed.


(** A cell that a spreadsheet takes for a formula is written as it is. *)
Example formula_unquoted : csv_field (bytes_of "=1+1") = bytes_of "=1+1".
Proof. vm_compute. done. Qed.

(** ** Percentiles on the wire ([report.go]) *)
Definition percentiles_raw (p : gmap float64 float64) : gmap string float64 :=
  list_to_map ((λ kv, (FormatFloat kv.1, kv.2)) <$> map_to_list p).
Definition percentile_of_raw (acc : option (gmap float64 float64)) (kv : string * float64) :
    option (gmap float64 float64) :=
  m ← acc; k ← ParseFloat kv.1; Some (<[k := kv.2]> m).
Definition percentiles_of_raw (raw : gmap string float64) : option (gmap float64 float64) :=
  fold_left percentile_of_raw (map_to_list raw) (Some ∅).

(** A float whose printed form is settled by the shortest search. *)
Definition printable (x : float64) : Prop :=
  in_format x ∧ ∀ s m e, x = S754_finite s m e → is_Some (shortest m e).
Lemma read_percentiles q acc :
  Forall (λ kv, printable kv.1) q →
  fold_left percentile_of_raw ((λ kv, (FormatFloat kv.1, kv.2)) <$> q) (Some acc) =
  Some (fold_left (λ m kv, <[kv.1 := kv.2]> m) q acc).
Proof.
  intros Hq. revert acc. induction Hq as [|[k v] q [H1 H2] _ IH]; intros acc; [done|].
  rewrite fmap_cons. cbn [fold_left fst snd]. unfold percentile_of_raw at 2. cbn [mbind option_bind fst snd].
  rewrite format_reads_back by done. apply IH.
Qed.

(** A report's percentiles survive being written as JSON, keyed by the
    printed percentile, and read back. *)
Theorem percentiles_roundtrip p :
  (∀ k, k ∈ dom p → printable k) → percentiles_of_raw (percentiles_raw p) = Some p.
Proof.
  intros Hp. set (f := λ kv : float64 * float64, (FormatFloat kv.1, kv.2)).
  assert (Hall : Forall (λ kv, printable kv.1) (map_to_list p)).
  { apply Forall_forall. intros [k v] Hin%elem_of_map_to_list. apply Hp. apply elem_of_dom. by exists v. }
  assert (Hnd : NoDup (f <$> map_to_list p).*1).
  { rewrite <- list_fmap_compose. apply NoDup_fmap_2_strong; [|apply NoDup_map_to_list].
    intros [k v] [k' v'] Hk Hk' E. cbn in E. rewrite Forall_forall in Hall.
    destruct (Hall _ Hk) as [H1 H2], (Hall _ Hk') as [H1' H2']. cbn [fst] in *.
    assert (Some k = Some k') as [= ->].
    { rewrite <- (format_reads_back k), <- (format_reads_back k') by done. by rewrite E. }
    apply elem_of_map_to_list in Hk, Hk'. by simplify_eq. }
  unfold percentiles_of_raw, percentiles_raw. fold f.
  pose proof (map_to_list_to_map (M := gmap string) (f <$> map_to_list p) Hnd) as Hperm.
  apply (Permutation_map_inv f) in Hperm as (q & -> & Hq). change (map f q) with (f <$> q).
  rewrite read_percentiles by (by rewrite <- Hq). f_equal.
  assert (Hndq : NoDup q.*1) by (rewrite <- Hq; apply NoDup_fst_map_to_list).
  rewrite <- fold_left_rev_right, <- (list_to_map_to_list p). symmetry.
  apply (list_to_map_proper (M := gmap float64) (map_to_list p) (rev q)); [apply NoDup_fst_map_to_list|].
  by rewrite Hq, <- Permutation_rev.
Qed.

Definition four_percentiles : gmap float64 float64 :=
  {[ of_int 50 := of_int 1; of_int 90 := of_int 2; of_int 95 := of_int 3; of_int 99 := of_int 4 ]}.
Lemma percentiles_roundtrip_witness :
  percentiles_raw four_percentiles !! "95" = Some (of_int 3) ∧
  percentiles_of_raw (percentiles_raw four_percentiles) = Some four_percentiles.
Proof.
  split; [by vm_compute|].
  apply (percentiles_roundtrip four_percentiles). intros k Hk.
  assert (Hin : k ∈ of_int <$> [50; 90; 95; 99]) by (unfold four_percentiles in Hk; set_solver).
  repeat (apply elem_of_cons in Hin as [->|Hin];
          [split; [by vm_compute|]; intros s m e E; vm_compute in E; injection E as <- <- <-; vm_compute; by eexists|]).
  by apply elem_of_nil in Hin.
Defined.

(** * The PDF download ([report_pdf.go])

    The builder that lays text out on pages and the writer of the objects, with
    the table of their positions. *)

(** ** Text *)
Definition BACKSLASH : ascii := "\"%char.
Definition escape_rune (r : list ascii) : list ascii :=
  match r with
  | [a] => if bool_decide (a ∈ [BACKSLASH; "("; ")"]%char) then [BACKSLASH; a]
           else if in_range 32 126 a then [a] else ["?"%char]
  | _ => ["?"%char]
  end.
Definition pdfEscape (s : string) : string := of_bytes (runes s ≫= escape_rune).

(** ** The page builder *)
Record pdfBuilder := mkPdfBuilder { pb_pages : list (list string); pb_current : list string; pb_y : float64 }.
Definition pdfPageW : float64 := of_decimal 59528 (-2).
Definition pdfPageH : float64 := of_decimal 84189 (-2).
Definition pdfLeft : float64 := of_int 40.
Definition pdfStart : float64 := of_decimal 78189 (-2).
Definition pdfBottom : float64 := of_int 50.

Definition pdf_start : pdfBuilder := mkPdfBuilder [] [] pdfStart.
Definition newline (gap : Z) (b : pdfBuilder) : pdfBuilder :=
  let y := fsub (pb_y b) (of_int gap) in
  if flt y pdfBottom then mkPdfBuilder (pb_pages b ++ [pb_current b]) [] pdfStart
  else mkPdfBuilder (pb_pages b) (pb_current b) y.
Definition text_line (size : string) (y : float64) (text : string) : string :=
  "BT /F1 " +:+ size +:+ " Tf " +:+ fmt_fixed 2 pdfLeft +:+ " " +:+ fmt_fixed 2 y +:+ " Td (" +:+ text +:+
  ") Tj ET".
Definition put_line (size : string) (text : string) (b : pdfBuilder) : pdfBuilder :=
  mkPdfBuilder (pb_pages b) (pb_current b ++ [text_line size (pb_y b) text]) (pb_y b).
Definition heading (text : string) (b : pdfBuilder) : pdfBuilder :=
  put_line "13" (pdfEscape text) (newline 20 b).
Definition kv (k v : string) (b : pdfBuilder) : pdfBuilder :=
  put_line "9" (pdfEscape k +:+ ": " +:+ pdfEscape v) (newline 12 b).
Definition blank (b : pdfBuilder) : pdfBuilder := newline 8 b.
Definition tableHeader (cells : list string) (b : pdfBuilder) : pdfBuilder :=
  put_line "9" (pdfEscape (String.concat "  " cells)) (newline 13 b).
Definition row (cells : list string) (b : pdfBuilder) : pdfBuilder :=
  put_line "9" (pdfEscape (String.concat "  " cells)) (newline 11 b).

(** ** The file *)
Record pdfOut := mkPdfOut { po_buf : list ascii; po_offsets : list Z }.
Definition nl : string := of_bytes [LF].
Definition write (s : string) (o : pdfOut) : pdfOut := mkPdfOut (po_buf o ++ bytes_of s) (po_offsets o).
Definition mark (o : pdfOut) : pdfOut :=
  mkPdfOut (po_buf o) (po_offsets o ++ [Z.of_nat (length (po_buf o))]).
Definition obj_head (n : Z) : string := pretty n +:+ " 0 obj" +:+ nl.
Definition page_stream (lines : list string) : string := foldr (λ l s, l +:+ nl +:+ s) "" lines.
Definition write_page (n : Z) (o : pdfOut) (ip : nat * list string) : pdfOut :=
  let '(i, lines) := ip in
  let pageObj := 4 + Z.of_nat i in
  let contentObj := 4 + n + Z.of_nat i in
  let stream := page_stream lines in
  let o := write (obj_head pageObj +:+ "<< /Type /Page /Parent 2 0 R /MediaBox [0 0 " +:+ fmt_fixed 2 pdfPageW +:+
                  " " +:+ fmt_fixed 2 pdfPageH +:+ "] /Resources << /Font << /F1 3 0 R >> >> /Contents " +:+
                  pretty contentObj +:+ " 0 R >>" +:+ nl +:+ "endobj" +:+ nl) (mark o) in
  write (obj_head contentObj +:+ "<< /Length " +:+ pretty (go_len stream) +:+ " >>" +:+ nl +:+ "stream" +:+ nl +:+
         stream +:+ nl +:+ "endstream" +:+ nl +:+ "endobj" +:+ nl) (mark o).
Definition pdf_objects (pages : list (list string)) : pdfOut :=
  let n := Z.of_nat (length pages) in
  let o := write ("%PDF-1.4" +:+ nl) (mkPdfOut [] []) in
  let o := write (obj_head 1 +:+ "<< /Type /Catalog /Pages 2 0 R >>" +:+ nl +:+ "endobj" +:+ nl) (mark o) in
  let kids := foldr (λ i s, pretty (4 + Z.of_nat i) +:+ " 0 R " +:+ s) "" (seq 0 (length pages)) in
  let o := write (obj_head 2 +:+ "<< /Type /Pages /Kids [" +:+ kids +:+ "] /Count " +:+ pretty n +:+ " >>" +:+ nl +:+
                  "endobj" +:+ nl) (mark o) in
  let o := write (obj_head 3 +:+ "<< /Type /Font /Subtype /Type1 /BaseFont /Helvetica >>" +:+ nl +:+ "endobj" +:+ nl)
             (mark o) in
  fold_left (write_page n) (zip (seq 0 (length pages)) pages) o.
Definition xref_count (n : Z) : Z := 2 + 2 * n + 1.
Definition xref_entry (off : Z) : string := pad_left 10 (pretty off) +:+ " 00000 n " +:+ nl.
Definition pdf_trailer (n : Z) (o : pdfOut) : pdfOut :=
  let xref := Z.of_nat (length (po_buf o)) in
  let o := write ("xref" +:+ nl +:+ "0 " +:+ pretty (xref_count n) +:+ nl +:+ "0000000000 65535 f " +:+ nl) o in
  let o := fold_left (λ o off, write (xref_entry off) o) (po_offsets o) o in
  write ("trailer" +:+ nl +:+ "<< /Size " +:+ pretty (xref_count n) +:+ " /Root 1 0 R >>" +:+ nl +:+ "startxref" +:+ nl +:+
         pretty xref +:+ nl +:+ "%%EOF" +:+ nl) o.
Definition all_pages (b : pdfBuilder) : list (list string) := pb_pages b ++ [pb_current b].
Definition finish (b : pdfBuilder) : list ascii :=
  let pages := all_pages b in
  po_buf (pdf_trailer (Z.of_nat (length pages)) (pdf_objects pages)).

(** ** The calendar ([Format("2006-01-02 15:04:05 UTC")]), from the year 1 *)
Definition is_leap (y : Z) : bool :=
  (y mod 4 =? 0) && (negb (y mod 100 =? 0) || (y mod 400 =? 0)).
Definition month_days (y : Z) : list Z :=
  [31; (if is_leap y then 29 else 28); 31; 30; 31; 30; 31; 31; 30; 31; 30; 31].
(** The year a day falls in, and the days before it within the year. *)
Definition year_of (days : Z) : Z * Z :=
  let c := days / 146097 in
  let d := days mod 146097 in
  let h := Z.min 3 (d / 36524) in
  let d := d - h * 36524 in
  let q := d / 1461 in
  let d := d mod 1461 in
  let y := Z.min 3 (d / 365) in
  (400 * c + 100 * h + 4 * q + y + 1, d - 365 * y).
Fixpoint month_of (m : Z) (lens : list Z) (d : Z) : Z * Z :=
  match lens with
  | [] => (m, d + 1)
  | n :: lens => if d <? n then (m, d + 1) else month_of (m + 1) lens (d - n)
  end.
Definition FormatUTC (t : time) : string :=
  let secs := t / second in
  let '(y, d) := year_of (secs / 86400) in
  let '(m, d) := month_of 1 (month_days y) d in
  let s := secs mod 86400 in
  pad_left 4 (pretty y) +:+ "-" +:+ pad_left 2 (pretty m) +:+ "-" +:+ pad_left 2 (pretty d) +:+ " " +:+
  pad_left 2 (pretty (s / 3600)) +:+ ":" +:+ pad_left 2 (pretty (s / 60 mod 60)) +:+ ":" +:+
  pad_left 2 (pretty (s mod 60)) +:+ " UTC".
Example format_utc :
  FormatUTC 0 = "0001-01-01 00:00:00 UTC" ∧ FormatUTC (63855352496 * second) = "2024-06-30 13:54:56 UTC" ∧
  FormatUTC (730120 * 86400 * second) = "2000-01-02 00:00:00 UTC" ∧
  FormatUTC (146096 * 86400 * second) = "0400-12-31 00:00:00 UTC".
Proof. vm_compute. done. Qed.

(** ** The report *)
Definition unless_empty (k v : string) (b : pdfBuilder) : pdfBuilder :=
  if bool_decide (v = "") then b else kv k v b.
Definition pdf_label_cells (l : LabelSummary) : list string :=
  [pdfEscape (lsm_Label l); pretty (lsm_Samples l); pretty (lsm_Failed l); exportFloat (lsm_ErrorRate l);
   exportPercentile (lsm_Latency l) 50; exportPercentile (lsm_Latency l) 95; exportPercentile (lsm_Latency l) 99].
Definition pdf_layout (runID : Z) (rep : Report) (points : list SeriesPoint) : pdfBuilder :=
  let b := heading ("Honryu run " +:+ pretty runID +:+ " report") pdf_start in
  let b := kv "Execution" (pretty (rep_ExecutionID rep)) b in
  let b := kv "Scenario" (pretty (rep_ScenarioID rep)) b in
  let b := unless_empty "Engine" (rep_Engine rep) b in
  let b := unless_empty "Cluster" (rep_Cluster rep) b in
  let b := kv "Started" (FormatUTC (rep_StartedAt rep)) b in
  let b := kv "Ended" (FormatUTC (rep_EndedAt rep)) b in
  let b := kv "Outcome" (outcome_str (rep_Outcome rep)) b in
  let b := unless_empty "Correlation id" (rep_CorrelationID rep) b in
  let (req, ach) := (rep_Requested rep, rep_Achieved rep) in
  let b := kv "Requested" (pretty (ld_Concurrency req) +:+ " VUs, " +:+ exportFloat (ld_Throughput req) +:+ " rps, " +:+
                           pretty (ld_DurationSeconds req) +:+ "s") b in
  let b := kv "Achieved" (pretty (ld_Concurrency ach) +:+ " VUs, " +:+ exportFloat (ld_Throughput ach) +:+ " rps, " +:+
                          pretty (ld_DurationSeconds ach) +:+ "s, " +:+ pretty (ld_Samples ach) +:+ " samples, " +:+
                          pretty (ld_Failed ach) +:+ " failed") b in
  let b := heading "Labels" (blank b) in
  let b := tableHeader ["Label"; "Samples"; "Errors"; "Err%"; "p50"; "p95"; "p99"] b in
  let b := fold_left (λ b l, row (pdf_label_cells l) b) (rep_Labels rep) b in
  let b := heading "Per-second series" (blank b) in
  let b := tableHeader ["ts"; "vus"; "rps"; "err%"; "p50"; "p90"; "p95"; "p99"] b in
  fold_left (λ b p, row (point_record p) b) points b.
Definition runExportPDF (runID : Z) (rep : Report) (points : list SeriesPoint) : list ascii :=
  finish (pdf_layout runID rep points).

(** ** Reading a literal string: up to the closing parenthesis, with escapes *)
Fixpoint read_literal (l : list ascii) : option (list ascii * list ascii) :=
  match l with
  | [] => None
  | a :: l =>
      if bool_decide (a = ")"%char) then Some ([], l)
      else if bool_decide (a = "("%char) then None
      else if bool_decide (a = BACKSLASH) then
        match l with
        | b :: l => prod_map (cons b) id <$> read_literal l
        | [] => None
        end
      else prod_map (cons a) id <$> read_literal l
  end.
(** What a string looks like in the font: a question mark for what it lacks. *)
Definition shown_rune (r : list ascii) : list ascii :=
  match r with [a] => if in_range 32 126 a then [a] else ["?"%char] | _ => ["?"%char] end.
Definition shown (s : string) : list ascii := runes s ≫= shown_rune.

Lemma read_escaped_rune r rest :
  read_literal (escape_rune r ++ rest) = prod_map (app (shown_rune r)) id <$> read_literal rest.
Proof.
  assert (Hq : ∀ a, a ≠ ")"%char → a ≠ "("%char → a ≠ BACKSLASH →
    read_literal ([a] ++ rest) = prod_map (app [a]) id <$> read_literal rest).
  { intros a H1 H2 H3. cbn [app read_literal]. by rewrite !bool_decide_false. }
  destruct r as [|a [|b r]]; cbn [escape_rune shown_rune]; [by apply Hq| |by apply Hq].
  case_bool_decide as Hin.
  - repeat (apply elem_of_cons in Hin as [->|Hin]; [done|]). by apply elem_of_nil in Hin.
  - destruct (in_range 32 126 a); [|by apply Hq]. apply Hq; intros ->; apply Hin; set_solver.
Qed.

(** A text put on a page stays inside its literal string: a reader gets back
    the text as the font can show it, and what follows it is untouched. *)
Theorem pdf_text_reads_back s rest :
  read_literal (bytes_of (pdfEscape s) ++ ")"%char :: rest) = Some (shown s, rest).
Proof.
  unfold pdfEscape, shown. rewrite bytes_of_of. induction (runes s) as [|r rs IH]; [done|].
  change ((r :: rs) ≫= ?f) with (f r ++ (rs ≫= f)). rewrite <- app_assoc, read_escaped_rune.
  change ((r :: rs) ≫= shown_rune) with (shown_rune r ++ (rs ≫= shown_rune)). by rewrite IH.
Qed.

(** A label is escaped for its cell and again with the row: its parentheses are
    shown with backslashes. *)
Example label_escaped_twice :
  shown (String.concat "  " (pdf_label_cells (mkLabelSummary "GET /(x)" 0 0 fzero ∅ []))) =
  bytes_of "GET /\(x\)  0  0  0      ".
Proof. vm_compute. done. Qed.

(** ** Where the objects are *)
Definition located (o : pdfOut) (off num : Z) : Prop :=
  0 <= off ∧ ∃ rest, drop (Z.to_nat off) (po_buf o) = bytes_of (obj_head num) ++ rest.
Definition objects (o : pdfOut) (nums : list Z) : Prop := Forall2 (located o) (po_offsets o) nums.

Lemma obj_head_nonempty n : bytes_of (obj_head n) ≠ [].
Proof.
  unfold obj_head. rewrite !bytes_of_app. intros [H _]%app_eq_nil. by apply pretty_nonempty in H.
Qed.
Lemma located_write o off num s : located o off num → located (write s o) off num.
Proof.
  intros [Hoff [rest E]]. split; [done|]. exists (rest ++ bytes_of s). cbn [write po_buf].
  rewrite drop_app_le, E, <- app_assoc; [done|].
  assert (length (drop (Z.to_nat off) (po_buf o)) ≠ 0%nat) as Hl.
  { rewrite E. intros H%nil_length_inv. apply app_eq_nil in H as [H _]. by apply obj_head_nonempty in H. }
  rewrite length_drop in Hl. lia.
Qed.
Lemma objects_write o nums s : objects o nums → objects (write s o) nums.
Proof. intros H. eapply Forall2_impl; [exact H|]. intros off num. apply located_write. Qed.
Lemma objects_put o nums k s : objects o nums → objects (write (obj_head k +:+ s) (mark o)) (nums ++ [k]).
Proof.
  intros H. unfold objects, mark, write. cbn [po_offsets po_buf]. apply Forall2_app.
  - eapply Forall2_impl; [exact H|]. intros off num. apply (located_write o off num (obj_head k +:+ s)).
  - constructor; [|constructor]. split; [lia|]. exists (bytes_of s). cbn [po_buf].
    rewrite Nat2Z.id, drop_app_length, bytes_of_app. done.
Qed.

(** The objects in the order in which they are written. *)
Definition page_objects (n : Z) (i : nat) : list Z := [4 + Z.of_nat i; 4 + n + Z.of_nat i].
Definition written_order (n : nat) : list Z := [1; 2; 3] ++ (seq 0 n ≫= page_objects (Z.of_nat n)).
Lemma objects_pages n l o nums :
  objects o nums → objects (fold_left (write_page n) l o) (nums ++ (l.*1 ≫= page_objects n)).
Proof.
  revert o nums. induction l as [|[i lines] l IH]; intros o nums H.
  - cbn. by rewrite app_nil_r.
  - cbn [fold_left]. rewrite fmap_cons. cbn [fst].
    change ((i :: l.*1) ≫= ?f) with (f i ++ (l.*1 ≫= f)). rewrite app_assoc. apply IH. unfold write_page.
    replace (nums ++ page_objects n i) with ((nums ++ [4 + Z.of_nat i]) ++ [4 + n + Z.of_nat i]) by (by rewrite <- app_assoc).
    apply objects_put, objects_put, H.
Qed.
Lemma pdf_objects_located pages : objects (pdf_objects pages) (written_order (length pages)).
Proof.
  unfold written_order.
  assert (Hseq : (zip (seq 0 (length pages)) pages).*1 = seq 0 (length pages)).
  { apply fst_zip. by rewrite length_seq. }
  rewrite <- Hseq. unfold pdf_objects. apply objects_pages.
  change [1; 2; 3] with ((([] ++ [1]) ++ [2]) ++ [3]).
  apply objects_put, objects_put, objects_put, objects_write. constructor.
Qed.

Lemma trailer_extends n o : ∃ rest, po_buf (pdf_trailer n o) = po_buf o ++ rest.
Proof.
  unfold pdf_trailer.
  assert (Hf : ∀ l o, ∃ rest, po_buf (fold_left (λ o off, write (xref_entry off) o) l o) = po_buf o ++ rest).
  { induction l as [|off l IH]; intros o1; [exists []; by rewrite app_nil_r|]. cbn [fold_left].
    destruct (IH (write (xref_entry off) o1)) as [rest ->]. eexists. cbn [write po_buf]. by rewrite <- app_assoc. }
  cbn [write po_buf]. match goal with |- context [fold_left _ ?l ?o1] => destruct (Hf l o1) as [rest ->] end.
  eexists. cbn [write po_buf]. by rewrite <- !app_assoc.
Qed.

(** The positions the PDF's cross-reference table lists are those of its
    objects in the file, in the order they were written: page and content of
    each page in turn.  The table has one entry more than it declares. *)
Theorem pdf_xref b :
  Forall2 (located (mkPdfOut (finish b) [])) (po_offsets (pdf_objects (all_pages b)))
    (written_order (length (all_pages b))) ∧
  1 + Z.of_nat (length (po_offsets (pdf_objects (all_pages b)))) =
  xref_count (Z.of_nat (length (all_pages b))) + 1.
Proof.
  pose proof (pdf_objects_located (all_pages b)) as H. split.
  - eapply Forall2_impl; [exact H|]. intros off num Hl. unfold finish.
    destruct (trailer_extends (Z.of_nat (length (all_pages b))) (pdf_objects (all_pages b))) as [more ->].
    destruct (located_write _ off num (of_bytes more) Hl) as [Hoff [r E]]. split; [done|].
    exists r. cbn [write po_buf] in *. by rewrite bytes_of_of in E.
  - apply Forall2_length in H. rewrite H. unfold written_order, xref_count. rewrite length_app. cbn [length].
    assert (Hl : ∀ n l, length (l ≫= page_objects n) = (2 * length l)%nat).
    { intros n l. induction l as [|i l IH]; [done|]. change ((i :: l) ≫= ?f) with (f i ++ (l ≫= f)).
      rewrite length_app, IH. cbn [page_objects length]. lia. }
    rewrite Hl, length_seq. lia.
Qed.

(** With two pages or more the entry for object 5 is the position of another. *)
Lemma xref_entry_misplaced pages :
  (2 <= length pages)%nat →
  ∃ off, po_offsets (pdf_objects pages) !! 4%nat = Some off ∧
         located (pdf_objects pages) off (4 + Z.of_nat (length pages)) ∧ 4 + Z.of_nat (length pages) ≠ 5.
Proof.
  intros Hn. pose proof (pdf_objects_located pages) as H. destruct (length pages) as [|[|n]]; [lia..|].
  assert (E5 : written_order (S (S n)) !! 4%nat = Some (4 + Z.of_nat (S (S n)) + Z.of_nat 0)) by done.
  destruct (Forall2_lookup_r _ _ _ _ _ H E5) as (off & Ho & Hl). exists off. split; [done|].
  rewrite Z.add_0_r in Hl. split; [done|lia].
Qed.
