(* ===== verification/MysqlProgress.v ===== *)
(** * A run's working state in MySQL
      ([internal/adapters/repo/mysql/report_progress.go], [interval_repository.go])

    The repository's statements over the tables of [migrations], which it
    brings in line with the in-memory store of [Progress].  A table is a map
    from its primary key; a text column in a key is compared by the table's
    collation, the parameter [collate], so two spellings with one weight are
    one row.  The server runs in strict mode: a value that does not fit its
    column is an error.  A transaction locks the rows it reads before it
    changes them and keeps the locks, so it is one step; an error rolls it
    back.  JSON columns hold their decoded value, [None] being [NULL].  Labels,
    signatures and clusters are listed in an order that is the server's own;
    what reads them does not depend on it.  [Snapshot] is three queries and
    [Discard] four deletes, each outside a transaction; the model is of calls
    during which nothing else writes and no statement fails. *)
From S2P Require Import Prelude Errors GoStrings GoFloat Histogram Report ReportFacts Progress.

(** ** Column types *)
Definition u32 (z : Z) : bool := (0 <=? z) && (z <? 2 ^ 32).
Definition i32 (z : Z) : bool := (- 2 ^ 31 <=? z) && (z <? 2 ^ 31).
Definition u64 (z : Z) : bool := (0 <=? z) && (z <? 2 ^ 64).
Definition i64 (z : Z) : bool := bool_decide (in_int64 z).
Definition varchar (n : Z) (s : string) : bool := Z.of_nat (length (runes s)) <=? n.
Definition is_finite (x : float64) : bool :=
  match x with S754_zero _ | S754_finite _ _ _ => true | _ => false end.

(** ** The tables, for one run *)
Record ShardRow := mkShardRow {
  shr_scenario_id : Z; shr_cluster : string; shr_shard_index : Z;
  shr_stream_id : string; shr_seq : Z; shr_finished : bool; shr_exit_code : option Z
}.
Record LabelRow := mkLabelRow {
  lbr_label : string; lbr_samples : Z; lbr_failed : Z; lbr_latency : option Histogram;
  lbr_codes : option (gmap string Z)
}.
Record SecondRow := mkSecondRow {
  scr_engine : Z; scr_labels : Z; scr_latency_sum : float64; scr_latency_samples : Z;
  scr_label_latency : option (gmap string LabelLatencyTally)
}.
Record SignatureRow := mkSignatureRow {
  sgr_signature : Signature; sgr_count : Z; sgr_exemplars : option (list string)
}.
Record SeriesRow := mkSeriesRow {
  srr_engine : Z; srr_labels : Z; srr_samples : Z; srr_failed : Z; srr_bytes : Z; srr_latency : option Histogram
}.

Section mysql.
Context {W : Type} `{Countable W} (collate : string → W).

Record RunRows := mkRunRows {
  rr_shards : gmap (Z * W * Z) ShardRow;
  rr_labels : gmap W LabelRow;
  rr_seconds : gmap Z SecondRow;
  rr_signatures : gmap (W * W * W) SignatureRow;
  rr_series : gmap Z SeriesRow
}.
Definition no_rows : RunRows := mkRunRows ∅ ∅ ∅ ∅ ∅.
Definition set_shards x (r : RunRows) := mkRunRows x (rr_labels r) (rr_seconds r) (rr_signatures r) (rr_series r).
Definition set_labels x (r : RunRows) := mkRunRows (rr_shards r) x (rr_seconds r) (rr_signatures r) (rr_series r).
Definition set_seconds x (r : RunRows) := mkRunRows (rr_shards r) (rr_labels r) x (rr_signatures r) (rr_series r).
Definition set_signatures x (r : RunRows) := mkRunRows (rr_shards r) (rr_labels r) (rr_seconds r) x (rr_series r).
Definition set_series x (r : RunRows) := mkRunRows (rr_shards r) (rr_labels r) (rr_seconds r) (rr_signatures r) x.

Local Abbreviation Tx := (M RunRows error).
(** A value that does not fit its column. *)
Definition column (ok : bool) : Tx unit := guard (negb ok) (ErrStorage "value out of range for column").
(** [INSERT ... ON DUPLICATE KEY UPDATE run_id=run_id]. *)
Definition insert_missing {K A} `{Countable K} (k : K) (row : A) (t : gmap K A) : gmap K A :=
  match t !! k with Some _ => t | None => <[k := row]> t end.

(** ** [lockShard] *)
Definition shard_pk (k : Z * string * Z) : Z * W * Z := (k.1.1, collate k.1.2, k.2).
Definition lockShard (b : ProgressBatch) : Tx Z :=
  let pk := shard_pk (key_of b) in
  _ ← column (u32 (pb_RunID b) && u32 (pb_ScenarioID b) && varchar 100 (pb_Cluster b) && i32 (pb_ShardIndex b) &&
              varchar 64 (pb_StreamID b));
  _ ← modify (λ r, set_shards (insert_missing pk (mkShardRow (pb_ScenarioID b) (pb_Cluster b) (pb_ShardIndex b)
                                                    (pb_StreamID b) 0 false None) (rr_shards r)) r);
  row ← ask (λ r, from_option Ok (Err (ErrStorage "no rows")) (rr_shards r !! pk));
  if bool_decide (shr_stream_id row = pb_StreamID b) then mret (shr_seq row)
  else
    _ ← modify (λ r, set_shards (<[pk := mkShardRow (shr_scenario_id row) (shr_cluster row) (shr_shard_index row)
                                          (pb_StreamID b) 0 (shr_finished row) (shr_exit_code row)]> (rr_shards r)) r);
    mret 0.

(** ** Merging *)
Definition zero_second : SecondRow := mkSecondRow 0 0 fzero 0 None.
(** One row of the additive insert. *)
Definition add_second_row (sec : SecondProgress) : Tx unit :=
  old ← gets (λ r, default zero_second (rr_seconds r !! sp_Second sec));
  let engine := scr_engine old + sp_Engine sec in
  let labels := scr_labels old + sp_Labels sec in
  let sum := fadd (scr_latency_sum old) (sp_LatencySum sec) in
  let samples := scr_latency_samples old + sp_LatencySamples sec in
  _ ← column (i64 engine && i64 labels && is_finite sum && i64 samples);
  modify (λ r, set_seconds (<[sp_Second sec := mkSecondRow engine labels sum samples (scr_label_latency old)]>
                              (rr_seconds r)) r).

Definition merge_tally (m : gmap string LabelLatencyTally) (kv : string * LabelLatencyTally) :
    gmap string LabelLatencyTally :=
  let tally := default empty_tally (m !! kv.1) in
  <[kv.1 := mkTally (fadd (ll_Sum tally) (ll_Sum kv.2)) (ll_Samples tally +w ll_Samples kv.2)]> m.
Definition merge_tallies (stored delta : gmap string LabelLatencyTally) : gmap string LabelLatencyTally :=
  fold_left merge_tally (map_to_list delta) stored.
(** What was read under the lock, and the write of one second's column; a sum
    that is not finite has no JSON form. *)
Definition write_label_latency (stored : gmap Z (gmap string LabelLatencyTally)) (sec : SecondProgress) : Tx unit :=
  let merged := merge_tallies (default ∅ (stored !! sp_Second sec)) (sp_LabelLatency sec) in
  _ ← column (forallb (λ kv, is_finite (ll_Sum kv.2)) (map_to_list merged));
  modify (λ r,
    let old := default zero_second (rr_seconds r !! sp_Second sec) in
    set_seconds (<[sp_Second sec := mkSecondRow (scr_engine old) (scr_labels old) (scr_latency_sum old)
                                      (scr_latency_samples old) (Some merged)]> (rr_seconds r)) r).
Definition mergeSecondLabels (seconds : list SecondProgress) : Tx unit :=
  let pending := filter (λ sec, sp_LabelLatency sec ≠ ∅) seconds in
  stored ← gets (λ r, omap scr_label_latency (rr_seconds r));
  for_each pending (write_label_latency stored).

Definition mergeCodes (stored delta : gmap string Z) : option (gmap string Z) :=
  if bool_decide (stored = ∅) && bool_decide (delta = ∅) then None else Some (add_counts stored delta).
Definition zero_label (label : string) : LabelRow := mkLabelRow label 0 0 None None.
Definition open_label (l : LabelProgress) : Tx unit :=
  _ ← column (varchar 255 (lp_Label l));
  modify (λ r, set_labels (insert_missing (collate (lp_Label l)) (zero_label (lp_Label l)) (rr_labels r)) r).
(** The columns read under the lock, by the label as the row spells it. *)
Definition stored_labels (labels : list LabelProgress) (r : RunRows) : gmap string LabelRow :=
  list_to_map ((λ row, (lbr_label row, row)) <$> omap (λ l, rr_labels r !! collate (lp_Label l)) labels).
Definition write_label (stored : gmap string LabelRow) (l : LabelProgress) : Tx unit :=
  let row := default (zero_label (lp_Label l)) (stored !! lp_Label l) in
  let latency := Histogram_Merge (Histogram_Merge ∅ (default ∅ (lbr_latency row))) (lp_Latency l) in
  let codes := mergeCodes (default ∅ (lbr_codes row)) (lp_Codes l) in
  old ← gets (λ r, default (zero_label (lp_Label l)) (rr_labels r !! collate (lp_Label l)));
  _ ← column (u64 (lp_Samples l) && u64 (lp_Failed l) && u64 (lbr_samples old + lp_Samples l) &&
              u64 (lbr_failed old + lp_Failed l));
  modify (λ r, set_labels (<[collate (lp_Label l) :=
    mkLabelRow (lbr_label old) (lbr_samples old + lp_Samples l) (lbr_failed old + lp_Failed l) (Some latency) codes]>
    (rr_labels r)) r).
Definition mergeLabels (labels : list LabelProgress) : Tx unit :=
  _ ← for_each labels open_label;
  stored ← gets (stored_labels labels);
  for_each labels (write_label stored).

Definition sig_pk (s : Signature) : W * W * W :=
  (collate (sg_Label s), collate (sg_ResponseCode s), collate (side_string (sg_Side s))).
Definition zero_signature (s : Signature) : SignatureRow := mkSignatureRow s 0 None.
Definition open_signature (e : ErrorSignature) : Tx unit :=
  let s := er_Signature e in
  _ ← column (varchar 255 (sg_Label s) && varchar 16 (sg_ResponseCode s));
  modify (λ r, set_signatures (insert_missing (sig_pk s) (zero_signature s) (rr_signatures r)) r).
Definition stored_signatures (sigs : list ErrorSignature) (r : RunRows) : gmap Signature SignatureRow :=
  list_to_map ((λ row, (sgr_signature row, row)) <$> omap (λ e, rr_signatures r !! sig_pk (er_Signature e)) sigs).
Definition write_signature (stored : gmap Signature SignatureRow) (e : ErrorSignature) : Tx unit :=
  let s := er_Signature e in
  let row := default (zero_signature s) (stored !! s) in
  let merged := MergeExemplars (default [] (sgr_exemplars row)) (er_Exemplars e) in
  old ← gets (λ r, default (zero_signature s) (rr_signatures r !! sig_pk s));
  _ ← column (u64 (er_Count e) && u64 (sgr_count old + er_Count e));
  modify (λ r, set_signatures (<[sig_pk s := mkSignatureRow (sgr_signature old) (sgr_count old + er_Count e) (Some merged)]>
                                 (rr_signatures r)) r).
Definition mergeSignatures (sigs : list ErrorSignature) : Tx unit :=
  _ ← for_each sigs open_signature;
  stored ← gets (stored_signatures sigs);
  for_each sigs (write_signature stored).

Definition mergeProgress (s : Snapshot) : Tx unit :=
  _ ← for_each (sn_Seconds s) add_second_row;
  _ ← mergeSecondLabels (sn_Seconds s);
  _ ← mergeLabels (sn_Labels s);
  mergeSignatures (sn_Signatures s).

(** *** The permanent series ([interval_repository.go]) *)
Definition zero_series : SeriesRow := mkSeriesRow 0 0 0 0 0 None.
Definition open_series (kv : Z * list Interval) : Tx unit :=
  modify (λ r, set_series (insert_missing kv.1 zero_series (rr_series r)) r).
Definition write_series (stored : gmap Z Histogram) (kv : Z * list Interval) : Tx unit :=
  let '(merged, engine) := MergeSecond kv.2 in
  let had := default ∅ (stored !! kv.1) in
  let latency := if bool_decide (iv_Latency merged = ∅) && bool_decide (had = ∅) then None
                 else Some (Histogram_Merge (Histogram_Merge ∅ had) (iv_Latency merged)) in
  old ← gets (λ r, default zero_series (rr_series r !! kv.1));
  let labels := iv_Concurrency merged in
  _ ← column (u32 engine && u32 labels && u64 (iv_Samples merged) && u64 (iv_Failed merged) &&
              u32 (srr_engine old + engine) && u32 (srr_labels old + labels) &&
              u64 (srr_samples old + iv_Samples merged) && u64 (srr_failed old + iv_Failed merged) &&
              i64 (srr_bytes old + iv_Bytes merged));
  modify (λ r, set_series (<[kv.1 := mkSeriesRow (srr_engine old + engine) (srr_labels old + labels)
    (srr_samples old + iv_Samples merged) (srr_failed old + iv_Failed merged) (srr_bytes old + iv_Bytes merged) latency]>
    (rr_series r)) r).
Definition second_of_le (a b : Z * list Interval) : Prop := a.1 <= b.1.
#[local] Instance second_of_le_dec a b : Decision (second_of_le a b).
Proof. unfold second_of_le. apply _. Defined.
Definition mergeSeriesSeconds (fresh : list Interval) : Tx unit :=
  let rows := merge_sort second_of_le (map_to_list (by_second fresh)) in
  _ ← for_each rows open_series;
  stored ← gets (λ r, omap srr_latency (rr_series r));
  for_each rows (write_series stored).

(** ** [Absorb] *)
Definition fresh_step (watermark : Z) (st : Accumulator * Z * list Interval) (iv : Interval) :
    Accumulator * Z * list Interval :=
  let '(acc, highest, fresh) := st in
  if iv_Seq iv <=? watermark then st
  else (Add iv acc, (if highest <? iv_Seq iv then iv_Seq iv else highest), fresh ++ [iv]).
Definition advance_shard (b : ProgressBatch) (highest : Z) : Tx unit :=
  _ ← column (u64 highest && from_option i32 true (pb_ExitCode b));
  modify (λ r, set_shards (alter (λ row,
    mkShardRow (shr_scenario_id row) (shr_cluster row) (shr_shard_index row) (shr_stream_id row) highest
      (shr_finished row || pb_Final b)
      (match pb_ExitCode b with Some c => Some c | None => shr_exit_code row end)) (shard_pk (key_of b)) (rr_shards r)) r).
Definition absorb_tx (b : ProgressBatch) : Tx unit :=
  watermark ← lockShard b;
  let '(acc, highest, fresh) := fold_left (fresh_step watermark) (pb_Intervals b) (NewAccumulator, watermark, []) in
  _ ← (match fresh with
       | [] => mret tt
       | _ => _ ← mergeProgress (Accumulator_Snapshot acc); mergeSeriesSeconds fresh
       end);
  advance_shard b highest.

(** The database: the rows of each run. *)
Definition DB : Type := gmap Z RunRows.
Definition rows_of (runID : Z) (db : DB) : RunRows := default no_rows (db !! runID).
Definition mysql_Absorb (b : ProgressBatch) (db : DB) : result error unit * DB :=
  match ProgressBatch_Validate b with
  | Err e => (Err e, db)
  | Ok _ =>
      match absorb_tx b (rows_of (pb_RunID b) db) with
      | (Ok _, rows) => (Ok tt, <[pb_RunID b := rows]> db)
      | (Err e, _) => (Err e, db)
      end
  end.

(** ** Reading *)

(** A count beyond [int64] does not scan.  Rows come in the order of the key. *)
Definition scan_label (row : LabelRow) : result error LabelProgress :=
  if i64 (lbr_samples row) && i64 (lbr_failed row)
  then Ok (mkLabelProgress (lbr_label row) (lbr_samples row) (lbr_failed row) (default ∅ (lbr_latency row))
             (default ∅ (lbr_codes row)))
  else Err (ErrStorage "value out of range for int64").
Definition scan_second (kv : Z * SecondRow) : SecondProgress :=
  mkSecondProgress kv.1 (scr_engine kv.2) (scr_labels kv.2) (scr_latency_sum kv.2) (scr_latency_samples kv.2)
    (default ∅ (scr_label_latency kv.2)).
Definition scan_signature (row : SignatureRow) : result error ErrorSignature :=
  if i64 (sgr_count row) then Ok (mkErrorSignature (sgr_signature row) (sgr_count row) (default [] (sgr_exemplars row)))
  else Err (ErrStorage "value out of range for int64").
Fixpoint scan_all {A B} (f : A → result error B) (l : list A) : result error (list B) :=
  match l with
  | [] => Ok []
  | x :: l => y ← f x; ys ← scan_all f l; Ok (y :: ys)
  end.
Definition mysql_Snapshot (runID : Z) (db : DB) : result error Snapshot :=
  let r := rows_of runID db in
  labels ← scan_all scan_label (map_to_list (rr_labels r)).*2;
  sigs ← scan_all scan_signature (map_to_list (rr_signatures r)).*2;
  Ok (mkSnapshot labels (merge_sort second_le (scan_second <$> map_to_list (rr_seconds r))) sigs).

Definition shard_row_state (row : ShardRow) : ShardState :=
  mkShardState (shr_scenario_id row) (shr_shard_index row) (shr_cluster row) (shr_finished row) (shr_exit_code row).
Definition mysql_ShardStates (runID : Z) (db : DB) : list ShardState :=
  merge_sort shard_le (shard_row_state <$> (map_to_list (rr_shards (rows_of runID db))).*2).
Definition mysql_Discard (runID : Z) (db : DB) : DB :=
  alter (λ r, mkRunRows ∅ ∅ ∅ ∅ (rr_series r)) runID db.
Definition series_row_interval (kv : Z * SeriesRow) : Interval :=
  let row := kv.2 in
  mkInterval 0 kv.1 "" (Z.max (srr_engine row) (srr_labels row)) (srr_samples row) 0 (srr_failed row) (srr_bytes row)
    (default ∅ (srr_latency row)) ∅ [].
Definition scan_series (kv : Z * SeriesRow) : result error Interval :=
  if i64 (srr_samples kv.2) && i64 (srr_failed kv.2) then Ok (series_row_interval kv)
  else Err (ErrStorage "value out of range for int64").
Definition mysql_ListIntervalsByRun (runID : Z) (db : DB) : result error (list Interval) :=
  l ← scan_all scan_series (map_to_list (rr_series (rows_of runID db)));
  Ok (merge_sort series_le l).
End mysql.
