(* ===== verification/MysqlFacts.v ===== *)
(** * The MySQL working state implements the port

    A batch the MySQL repository takes leaves it, counter by counter, where the
    in-memory store of [Progress] is left, as long as no two keys in play are
    one key to the collation; and what case-insensitive keys do otherwise. *)
From S2P Require Import Prelude Errors GoStrings GoFloat Histogram Report ReportFacts Progress Series MysqlProgress.

(** ** Tables and what they stand for *)
Section keyed.
Context {K KW Row V : Type} `{Countable K} `{Countable KW}.
Context (pk : K → KW) (D : K → Prop) (name : Row → K) (val : Row → V).
Context (pk_inj : ∀ x y, D x → D y → pk x = pk y → x = y).
Implicit Types (t : gmap KW Row) (k : K).

Definition keyed t : Prop := ∀ w row, t !! w = Some row → D (name row) ∧ pk (name row) = w.
Definition view t : gmap K V := list_to_map ((λ kv, (name kv.2, val kv.2)) <$> map_to_list t).

Lemma view_nodup t : keyed t → NoDup ((λ kv : KW * Row, (name kv.2, val kv.2)) <$> map_to_list t).*1.
Proof using.
  intros Ht. rewrite <- list_fmap_compose. apply NoDup_fmap_2_strong; [|apply NoDup_map_to_list].
  intros [w row] [w' row'] Hin%elem_of_map_to_list Hin'%elem_of_map_to_list E. cbn in E.
  destruct (Ht _ _ Hin) as [_ <-], (Ht _ _ Hin') as [_ <-]. rewrite E in Hin |- *. by simplify_eq.
Qed.
Lemma view_Some t k v :
  keyed t → view t !! k = Some v ↔ ∃ row, t !! pk k = Some row ∧ name row = k ∧ val row = v.
Proof using.
  intros Ht. unfold view. rewrite <- elem_of_list_to_map by (by apply view_nodup).
  rewrite list_elem_of_fmap. split.
  - intros ([w row] & [= -> ->] & Hin%elem_of_map_to_list). cbn. destruct (Ht _ _ Hin) as [_ ->]. by exists row.
  - intros (row & Hr & <- & <-). exists (pk (name row), row). split; [done|]. by apply elem_of_map_to_list.
Qed.
Lemma view_lookup t k : keyed t → D k → view t !! k = val <$> t !! pk k.
Proof using pk_inj.
  intros Ht Hk. apply option_eq. intros v. rewrite view_Some by done. split.
  - intros (row & -> & _ & <-). done.
  - intros (row & Hr & ->)%fmap_Some. exists row. split; [done|]. split; [|done].
    destruct (Ht _ _ Hr). by apply pk_inj.
Qed.
Lemma view_out t k v : keyed t → view t !! k = Some v → D k.
Proof using. intros Ht (row & Hr & <- & _)%view_Some; [|done]. by apply Ht in Hr as [? _]. Qed.
Lemma keyed_row t k row : keyed t → D k → t !! pk k = Some row → name row = k.
Proof using pk_inj. intros Ht Hk Hr. destruct (Ht _ _ Hr). by apply pk_inj. Qed.
Lemma keyed_empty : keyed ∅.
Proof using. intros w row Hr. by rewrite lookup_empty in Hr. Qed.

(** Rows changed at the keys of [l] only, and to rows named after them. *)
Lemma keyed_changed t t' (l : list K) :
  keyed t → Forall D l → (∀ w, w ∉ pk <$> l → t' !! w = t !! w) →
  (∀ k, k ∈ l → ∃ row, t' !! pk k = Some row ∧ name row = k) → keyed t'.
Proof using.
  intros Ht Hl Hout Hin w row Hr. destruct (decide (w ∈ pk <$> l)) as [(k & -> & Hk)%list_elem_of_fmap|Hw].
  - destruct (Hin k Hk) as (row' & Hr' & <-). rewrite Hr in Hr'. simplify_eq.
    split; [|done]. rewrite Forall_forall in Hl. by apply Hl.
  - apply Ht. by rewrite <- Hout.
Qed.

Lemma keyed_insert t row : keyed t → D (name row) → keyed (<[pk (name row) := row]> t).
Proof using.
  intros Ht Hd w row' [[<- <-]|[_ Hr]]%lookup_insert_Some; [done|]. by apply Ht.
Qed.
Lemma view_insert t row :
  keyed t → D (name row) → view (<[pk (name row) := row]> t) = <[name row := val row]> (view t).
Proof using pk_inj.
  intros Ht Hd. pose proof (keyed_insert t row Ht Hd) as Ht'. apply map_eq. intros k.
  destruct (decide (name row = k)) as [<-|Hne].
  - rewrite lookup_insert_eq, view_lookup by done. by rewrite lookup_insert_eq.
  - rewrite lookup_insert_ne by done. apply option_eq. intros v. rewrite !view_Some by done.
    split; intros (row' & Hr & <- & Hv); exists row'; (split; [|done]).
    + apply lookup_insert_Some in Hr as [[E <-]|[_ Hr]]; [done|done].
    + rewrite lookup_insert_ne; [done|]. intros E. apply Hne. destruct (Ht _ _ Hr) as [Hd' _]. by apply pk_inj.
Qed.

Lemma pks_nodup {X} (kn : X → K) l : Forall D (kn <$> l) → NoDup (kn <$> l) → NoDup ((λ x, pk (kn x)) <$> l).
Proof using pk_inj.
  intros HD Hnd. rewrite (list_fmap_compose kn pk). apply NoDup_fmap_2_strong; [|done].
  rewrite Forall_forall in HD. intros x y Hx Hy. apply pk_inj; by apply HD.
Qed.
(** Rows that grew by the deltas of [l], and the map they stand for. *)
Lemma view_grown {X} (kn : X → K) (delta : X → V) (join : V → V → V) t t' l :
  keyed t → Forall D (kn <$> l) → NoDup (kn <$> l) →
  (∀ w, w ∉ (λ x, pk (kn x)) <$> l → t' !! w = t !! w) →
  (∀ x, x ∈ l → ∃ row, t' !! pk (kn x) = Some row ∧ name row = kn x ∧
     val row = match t !! pk (kn x) with Some old => join (val old) (delta x) | None => delta x end) →
  keyed t' ∧
  view t' = union_with (λ a b, Some (join a b)) (view t) (list_to_map ((λ x, (kn x, delta x)) <$> l)).
Proof using pk_inj.
  intros Ht HD Hnd Hout Hin.
  assert (Ht' : keyed t').
  { apply (keyed_changed t t' (kn <$> l)); [done..| |].
    - intros w Hw. apply Hout. by rewrite (list_fmap_compose kn pk).
    - intros k (x & -> & Hx)%list_elem_of_fmap. destruct (Hin x Hx) as (row & Hr & Hn & _). by exists row. }
  split; [done|]. apply map_eq. intros k. rewrite lookup_union_with.
  assert (Hnd' : NoDup ((λ x, (kn x, delta x)) <$> l).*1) by (by rewrite <- list_fmap_compose).
  destruct (decide (k ∈ kn <$> l)) as [Hk|Hk].
  - assert (Dk : D k) by (rewrite Forall_forall in HD; by apply HD).
    apply list_elem_of_fmap in Hk as (x & -> & Hx). destruct (Hin x Hx) as (row & Hr & _ & Hv).
    assert ((list_to_map ((λ x, (kn x, delta x)) <$> l) : gmap K V) !! kn x = Some (delta x)) as ->.
    { apply elem_of_list_to_map_1; [done|]. apply list_elem_of_fmap. by exists x. }
    rewrite !view_lookup by done. rewrite Hr. cbn. rewrite Hv. by destruct (t !! pk (kn x)).
  - assert ((list_to_map ((λ x, (kn x, delta x)) <$> l) : gmap K V) !! k = None) as ->.
    { apply not_elem_of_list_to_map_1. by rewrite <- list_fmap_compose. }
    rewrite right_id by apply _.
    assert (Hsame : D k → view t' !! k = view t !! k).
    { intros Dk. rewrite !view_lookup by done. rewrite Hout; [done|].
      intros (x & E & Hx)%list_elem_of_fmap. apply Hk. apply list_elem_of_fmap. exists x. split; [|done].
      apply pk_inj; [done| |done]. rewrite Forall_forall in HD. apply HD, list_elem_of_fmap. by exists x. }
    apply option_eq. intros v. split; intros Hv.
    + rewrite <- Hsame; [done|]. by apply (view_out t' k v).
    + rewrite Hsame; [done|]. by apply (view_out t k v).
Qed.
End keyed.

(** The same for a table whose key is its own. *)
Lemma map_grown {K Row V X : Type} `{Countable K} (val : Row → V) (kn : X → K) (delta : X → V) (join : V → V → V)
    (t t' : gmap K Row) l :
  NoDup (kn <$> l) → (∀ w, w ∉ kn <$> l → t' !! w = t !! w) →
  (∀ x, x ∈ l → ∃ row, t' !! kn x = Some row ∧
     val row = match t !! kn x with Some old => join (val old) (delta x) | None => delta x end) →
  val <$> t' = union_with (λ a b, Some (join a b)) (val <$> t) (list_to_map ((λ x, (kn x, delta x)) <$> l)).
Proof.
  intros Hnd Hout Hin. apply map_eq. intros k. rewrite lookup_union_with, !lookup_fmap.
  assert (Hnd' : NoDup ((λ x, (kn x, delta x)) <$> l).*1) by (by rewrite <- list_fmap_compose).
  destruct (decide (k ∈ kn <$> l)) as [(x & -> & Hx)%list_elem_of_fmap|Hk].
  - destruct (Hin x Hx) as (row & -> & Hv).
    assert ((list_to_map ((λ x, (kn x, delta x)) <$> l) : gmap K V) !! kn x = Some (delta x)) as ->.
    { apply elem_of_list_to_map_1; [done|]. apply list_elem_of_fmap. by exists x. }
    cbn. rewrite Hv. by destruct (t !! kn x).
  - assert ((list_to_map ((λ x, (kn x, delta x)) <$> l) : gmap K V) !! k = None) as ->.
    { apply not_elem_of_list_to_map_1. by rewrite <- list_fmap_compose. }
    rewrite Hout by done. by destruct (t !! k).
Qed.

(** ** Loops over the rows of one table *)
Section loops.
Context {W : Type} `{Countable W}.
Context {X Row KW : Type} `{Countable KW}.
Local Abbreviation Rows := (RunRows (W := W)).
Context (get : Rows → gmap KW Row) (set : gmap KW Row → Rows → Rows).
Context (get_set : ∀ t r, get (set t r) = t) (set_set : ∀ t t' r, set t (set t' r) = set t r).
Context (set_get : ∀ r, set (get r) r = r).
Context (pk : X → KW) (step : X → M Rows error unit) (F : X → option Row → Row).
Context (step_ok : ∀ x r r', step x r = (Ok tt, r') → r' = set (<[pk x := F x (get r !! pk x)]> (get r)) r).

Lemma table_loop l r r' :
  NoDup (pk <$> l) → for_each l step r = (Ok tt, r') →
  r' = set (get r') r ∧ (∀ w, w ∉ pk <$> l → get r' !! w = get r !! w) ∧
  ∀ x, x ∈ l → get r' !! pk x = Some (F x (get r !! pk x)).
Proof using get_set set_set set_get step_ok.
  revert r. induction l as [|x l IH]; intros r Hnd Hrun.
  - cbn in Hrun. injection Hrun as <-. split; [by rewrite set_get|]. split; [done|].
    intros x Hx. by apply elem_of_nil in Hx.
  - rewrite fmap_cons in Hnd. apply NoDup_cons in Hnd as [Hni Hnd].
    cbn [for_each] in Hrun. apply bind_Ok in Hrun as ([] & r1 & H1%step_ok & Hrun).
    destruct (IH r1 Hnd Hrun) as (E & Hout & Hin). subst r1. rewrite get_set in *. split; [|split].
    + rewrite E at 1. by rewrite set_set.
    + intros w Hw. rewrite fmap_cons in Hw. rewrite Hout by set_solver. rewrite lookup_insert_ne by set_solver. done.
    + intros y [->|Hy]%elem_of_cons.
      * rewrite Hout by done. by rewrite lookup_insert_eq.
      * rewrite Hin by done. rewrite lookup_insert_ne; [done|]. intros E'. apply Hni. rewrite E'.
        apply list_elem_of_fmap. by exists y.
Qed.
End loops.

Lemma insert_missing_eq {K A} `{Countable K} (k : K) (row : A) (t : gmap K A) :
  insert_missing k row t = <[k := default row (t !! k)]> t.
Proof. unfold insert_missing. destruct (t !! k) eqn:E; [|done]. cbn. by rewrite insert_id. Qed.
Lemma column_Ok {W} `{Countable W} ok (r r' : RunRows (W := W)) u :
  column ok r = (Ok u, r') → ok = true ∧ r' = r.
Proof. unfold column, guard. destruct ok; cbn; [|done]. by intros [= _ <-]. Qed.
Lemma column_Err {W} `{Countable W} ok (r r' : RunRows (W := W)) e : column ok r = (Err e, r') → r' = r.
Proof. unfold column, guard. destruct ok; cbn; [done|]. by intros [= _ <-]. Qed.

Section facts.
Context {W : Type} `{Countable W} (collate : string → W) (D : string → Prop).
Context (collate_inj : ∀ x y, D x → D y → collate x = collate y → x = y).
Local Abbreviation Rows := (RunRows (W := W)).
Implicit Types r : Rows.

Lemma set_labels_get r : set_labels (rr_labels r) r = r. Proof using. by destruct r. Qed.
Lemma set_seconds_get r : set_seconds (rr_seconds r) r = r. Proof using. by destruct r. Qed.
Lemma set_signatures_get r : set_signatures (rr_signatures r) r = r. Proof using. by destruct r. Qed.
Lemma set_series_get r : set_series (rr_series r) r = r. Proof using. by destruct r. Qed.

(** ** Labels *)
Definition label_val (row : LabelRow) : labelState :=
  mkLabelState (default ∅ (lbr_codes row)) (wrap64 (lbr_samples row)) (wrap64 (lbr_failed row)) (default ∅ (lbr_latency row)).
Definition label_delta (l : LabelProgress) : labelState :=
  mkLabelState (lp_Codes l) (lp_Samples l) (lp_Failed l) (lp_Latency l).
Definition labels_view (r : Rows) : gmap string labelState := view lbr_label label_val (rr_labels r).
Definition labels_keyed (r : Rows) : Prop := keyed collate D lbr_label (rr_labels r).
Definition label_fits (l : LabelProgress) : Prop := in_int64 (lp_Samples l) ∧ in_int64 (lp_Failed l).

Lemma mergeCodes_counts a b : default ∅ (mergeCodes a b) = add_counts a b.
Proof using.
  unfold mergeCodes. do 2 case_bool_decide; subst; cbn; try done.
Qed.
Lemma open_label_step l r r' : open_label collate l r = (Ok tt, r') →
  r' = set_labels (<[collate (lp_Label l) := default (zero_label (lp_Label l)) (rr_labels r !! collate (lp_Label l))]>
                     (rr_labels r)) r.
Proof using.
  unfold open_label. intros ([] & r1 & [_ ->]%column_Ok & [= <-])%bind_Ok. by rewrite insert_missing_eq.
Qed.
Definition label_row_after (stored : gmap string LabelRow) (l : LabelProgress) (old : option LabelRow) : LabelRow :=
  let row := default (zero_label (lp_Label l)) (stored !! lp_Label l) in
  let old := default (zero_label (lp_Label l)) old in
  mkLabelRow (lbr_label old) (lbr_samples old + lp_Samples l) (lbr_failed old + lp_Failed l)
    (Some (Histogram_Merge (Histogram_Merge ∅ (default ∅ (lbr_latency row))) (lp_Latency l)))
    (mergeCodes (default ∅ (lbr_codes row)) (lp_Codes l)).
Lemma write_label_step stored l r r' : write_label collate stored l r = (Ok tt, r') →
  r' = set_labels (<[collate (lp_Label l) := label_row_after stored l (rr_labels r !! collate (lp_Label l))]> (rr_labels r)) r.
Proof using.
  unfold write_label. intros (old & r1 & [= <- <-] & Hrun)%bind_Ok.
  apply bind_Ok in Hrun as ([] & r1 & [_ ->]%column_Ok & [= <-]). done.
Qed.

Lemma mergeLabels_spec ls r r' :
  labels_keyed r → Forall D (lp_Label <$> ls) → Forall label_fits ls → NoDup (lp_Label <$> ls) →
  mergeLabels collate ls r = (Ok tt, r') →
  r' = set_labels (rr_labels r') r ∧ labels_keyed r' ∧
  labels_view r' = union_with (λ x y, Some (label_join x y)) (labels_view r)
                     (list_to_map ((λ l, (lp_Label l, label_delta l)) <$> ls)).
Proof using collate_inj.
  intros Hk HD Hfit Hnd Hrun. unfold mergeLabels in Hrun.
  apply bind_Ok in Hrun as ([] & r1 & Hopen & Hrun). apply bind_Ok in Hrun as (stored & r2 & [= <- <-] & Hwrite).
  pose proof (pks_nodup collate D collate_inj lp_Label ls HD Hnd) as Hpks.
  destruct (table_loop rr_labels set_labels (λ _ _, eq_refl) (λ _ _ _, eq_refl) set_labels_get (λ l, collate (lp_Label l))
    (open_label collate) (λ l old, default (zero_label (lp_Label l)) old) open_label_step ls r r1 Hpks Hopen)
    as (E1 & Hout1 & Hin1).
  set (st := stored_labels collate ls r1) in *.
  destruct (table_loop rr_labels set_labels (λ _ _, eq_refl) (λ _ _ _, eq_refl) set_labels_get (λ l, collate (lp_Label l))
    (write_label collate st) (label_row_after st) (write_label_step st) ls r1 r' Hpks Hwrite)
    as (E2 & Hout2 & Hin2).
  split; [rewrite E2 at 1; rewrite E1; done|].
  assert (Hname : ∀ l, l ∈ ls → lbr_label (default (zero_label (lp_Label l)) (rr_labels r !! collate (lp_Label l))) = lp_Label l).
  { intros l Hl. destruct (rr_labels r !! collate (lp_Label l)) as [row|] eqn:Er; [|done]. cbn.
    eapply (keyed_row collate D lbr_label collate_inj); [exact Hk| |exact Er].
    rewrite Forall_forall in HD. apply HD, list_elem_of_fmap. by exists l. }
  assert (Hst : ∀ l, l ∈ ls → st !! lp_Label l = Some (default (zero_label (lp_Label l)) (rr_labels r !! collate (lp_Label l)))).
  { intros l Hl. unfold st, stored_labels.
    assert (Hom : omap (λ l, rr_labels r1 !! collate (lp_Label l)) ls =
                  (λ l, default (zero_label (lp_Label l)) (rr_labels r !! collate (lp_Label l))) <$> ls).
    { clear - Hin1. induction ls as [|x ls IH]; [done|]. cbn [omap list_omap]. rewrite Hin1 by (by left).
      rewrite fmap_cons. f_equal. apply IH. intros y Hy. apply Hin1. by right. }
    rewrite Hom. rewrite <- list_fmap_compose. apply elem_of_list_to_map_1.
    - rewrite <- list_fmap_compose. erewrite list_fmap_ext; [exact Hnd|].
      intros i x Hx%list_elem_of_lookup_2. cbn. by apply Hname.
    - apply list_elem_of_fmap. exists l. split; [|done]. cbn. by rewrite Hname. }
  unfold labels_keyed, labels_view.
  apply (view_grown collate D lbr_label label_val collate_inj lp_Label label_delta label_join); [done..| |].
  - intros w Hw. by rewrite Hout2, Hout1.
  - intros l Hl. rewrite Hin2, Hin1 by done. eexists. split; [done|]. unfold label_row_after. rewrite Hst by done.
    cbn [default]. specialize (Hname l Hl). destruct (rr_labels r !! collate (lp_Label l)) as [row|]; cbn [default] in *.
    + split; [done|]. unfold label_val, label_join, label_delta. cbn [lbr_label lbr_samples lbr_failed lbr_latency lbr_codes default
        ls_codes ls_samples ls_failed ls_latency]. rewrite mergeCodes_counts, !wrap64_add_l.
      unfold Histogram_Merge. by rewrite add_counts_empty_l.
    + split; [done|]. rewrite Forall_forall in Hfit. destruct (Hfit l Hl) as [Hs Hf].
      unfold label_val, label_delta. cbn [zero_label lbr_label lbr_samples lbr_failed lbr_latency lbr_codes from_option id].
      rewrite mergeCodes_counts, !Z.add_0_l, !wrap64_small, add_counts_empty_l by done.
      unfold Histogram_Merge. by rewrite !add_counts_empty_l.
Qed.

(** ** Error signatures *)
Definition sig_D (s : Signature) : Prop := D (sg_Label s) ∧ D (sg_ResponseCode s) ∧ D (side_string (sg_Side s)).
Lemma sig_pk_inj x y : sig_D x → sig_D y → sig_pk collate x = sig_pk collate y → x = y.
Proof using collate_inj.
  destruct x as [l c s], y as [l' c' s']. intros (H1 & H2 & H3) (H1' & H2' & H3') [= E1 E2 E3]. cbn in *.
  apply collate_inj in E1, E2, E3; try done. subst. f_equal. by destruct s, s'.
Qed.
Definition sig_val (row : SignatureRow) : Z := wrap64 (sgr_count row).
Definition sigs_view (r : Rows) : gmap Signature Z := view sgr_signature sig_val (rr_signatures r).
Definition sigs_keyed (r : Rows) : Prop := keyed (sig_pk collate) sig_D sgr_signature (rr_signatures r).
Definition sig_row_after (stored : gmap Signature SignatureRow) (e : ErrorSignature) (old : option SignatureRow) : SignatureRow :=
  let s := er_Signature e in
  let row := default (zero_signature s) (stored !! s) in
  let old := default (zero_signature s) old in
  mkSignatureRow (sgr_signature old) (sgr_count old + er_Count e)
    (Some (MergeExemplars (default [] (sgr_exemplars row)) (er_Exemplars e))).
Lemma open_signature_step e r r' : open_signature collate e r = (Ok tt, r') →
  r' = set_signatures (<[sig_pk collate (er_Signature e) :=
         default (zero_signature (er_Signature e)) (rr_signatures r !! sig_pk collate (er_Signature e))]> (rr_signatures r)) r.
Proof using.
  unfold open_signature. intros ([] & r1 & [_ ->]%column_Ok & [= <-])%bind_Ok. by rewrite insert_missing_eq.
Qed.
Lemma write_signature_step stored e r r' : write_signature collate stored e r = (Ok tt, r') →
  r' = set_signatures (<[sig_pk collate (er_Signature e) :=
         sig_row_after stored e (rr_signatures r !! sig_pk collate (er_Signature e))]> (rr_signatures r)) r.
Proof using.
  unfold write_signature. intros (old & r1 & [= <- <-] & Hrun)%bind_Ok.
  apply bind_Ok in Hrun as ([] & r1 & [_ ->]%column_Ok & [= <-]). done.
Qed.
Lemma mergeSignatures_spec es r r' :
  sigs_keyed r → Forall sig_D (er_Signature <$> es) → Forall (λ e, in_int64 (er_Count e)) es →
  NoDup (er_Signature <$> es) → mergeSignatures collate es r = (Ok tt, r') →
  r' = set_signatures (rr_signatures r') r ∧ sigs_keyed r' ∧
  sigs_view r' = add_counts (sigs_view r) (list_to_map ((λ e, (er_Signature e, er_Count e)) <$> es)).
Proof using collate_inj.
  intros Hk HD Hfit Hnd Hrun. unfold mergeSignatures in Hrun.
  apply bind_Ok in Hrun as ([] & r1 & Hopen & Hrun). apply bind_Ok in Hrun as (stored & r2 & [= <- <-] & Hwrite).
  pose proof (pks_nodup (sig_pk collate) sig_D sig_pk_inj er_Signature es HD Hnd) as Hpks.
  destruct (table_loop rr_signatures set_signatures (λ _ _, eq_refl) (λ _ _ _, eq_refl) set_signatures_get
    (λ e, sig_pk collate (er_Signature e)) (open_signature collate) (λ e old, default (zero_signature (er_Signature e)) old)
    open_signature_step es r r1 Hpks Hopen) as (E1 & Hout1 & Hin1).
  set (st := stored_signatures collate es r1) in *.
  destruct (table_loop rr_signatures set_signatures (λ _ _, eq_refl) (λ _ _ _, eq_refl) set_signatures_get
    (λ e, sig_pk collate (er_Signature e)) (write_signature collate st) (sig_row_after st) (write_signature_step st)
    es r1 r' Hpks Hwrite) as (E2 & Hout2 & Hin2).
  split; [rewrite E2 at 1; rewrite E1; done|]. unfold sigs_keyed, sigs_view.
  apply (view_grown (sig_pk collate) sig_D sgr_signature sig_val sig_pk_inj er_Signature er_Count (λ a b, a +w b)); [done..| |].
  - intros w Hw. by rewrite Hout2, Hout1.
  - intros e He. rewrite Hin2, Hin1 by done. eexists. split; [done|].
    assert (De : sig_D (er_Signature e)) by (rewrite Forall_forall in HD; apply HD, list_elem_of_fmap; by exists e).
    rewrite Forall_forall in Hfit. specialize (Hfit e He). unfold sig_row_after, sig_val. cbn [sgr_signature sgr_count from_option id].
    destruct (rr_signatures r !! sig_pk collate (er_Signature e)) as [row|] eqn:Er; cbn [from_option id].
    + split; [|by rewrite wrap64_add_l]. by eapply (keyed_row (sig_pk collate) sig_D sgr_signature sig_pk_inj).
    + split; [done|]. cbn [zero_signature sgr_count]. rewrite Z.add_0_l. by apply wrap64_small.
Qed.

(** ** Seconds *)
Definition second_val (row : SecondRow) : SecondCounts :=
  (wrap64 (scr_engine row), wrap64 (scr_labels row), wrap64 (scr_latency_samples row),
   ll_Samples <$> default ∅ (scr_label_latency row)).
Definition second_delta (sec : SecondProgress) : SecondCounts :=
  (sp_Engine sec, sp_Labels sec, sp_LatencySamples sec, ll_Samples <$> sp_LabelLatency sec).
Definition second_fits (sec : SecondProgress) : Prop :=
  in_int64 (sp_Engine sec) ∧ in_int64 (sp_Labels sec) ∧ in_int64 (sp_LatencySamples sec) ∧
  map_Forall (λ _ t, in_int64 (ll_Samples t)) (sp_LabelLatency sec).
Definition second_row_after (sec : SecondProgress) (old : option SecondRow) : SecondRow :=
  let old := default zero_second old in
  mkSecondRow (scr_engine old + sp_Engine sec) (scr_labels old + sp_Labels sec)
    (fadd (scr_latency_sum old) (sp_LatencySum sec)) (scr_latency_samples old + sp_LatencySamples sec) (scr_label_latency old).
Lemma add_second_step sec r r' : add_second_row sec r = (Ok tt, r') →
  r' = set_seconds (<[sp_Second sec := second_row_after sec (rr_seconds r !! sp_Second sec)]> (rr_seconds r)) r.
Proof using.
  unfold add_second_row. intros (old & r1 & [= <- <-] & Hrun)%bind_Ok.
  apply bind_Ok in Hrun as ([] & r1 & [_ ->]%column_Ok & [= <-]). done.
Qed.
Definition tally_row_after (stored : gmap Z (gmap string LabelLatencyTally)) (sec : SecondProgress) (old : option SecondRow) :
    SecondRow :=
  let old := default zero_second old in
  mkSecondRow (scr_engine old) (scr_labels old) (scr_latency_sum old) (scr_latency_samples old)
    (Some (merge_tallies (default ∅ (stored !! sp_Second sec)) (sp_LabelLatency sec))).
Lemma write_label_latency_step stored sec r r' : write_label_latency stored sec r = (Ok tt, r') →
  r' = set_seconds (<[sp_Second sec := tally_row_after stored sec (rr_seconds r !! sp_Second sec)]> (rr_seconds r)) r.
Proof using.
  unfold write_label_latency. intros ([] & r1 & [_ ->]%column_Ok & [= <-])%bind_Ok. done.
Qed.
Lemma merge_tally_fold (l : list (string * LabelLatencyTally)) m k :
  NoDup l.*1 →
  fold_left merge_tally l m !! k =
  match (list_to_map l : gmap string LabelLatencyTally) !! k with
  | Some d => Some (mkTally (fadd (ll_Sum (default empty_tally (m !! k))) (ll_Sum d))
                      (ll_Samples (default empty_tally (m !! k)) +w ll_Samples d))
  | None => m !! k
  end.
Proof using.
  revert m. induction l as [|[k' d] l IH]; intros m Hnd; [done|].
  rewrite fmap_cons in Hnd. cbn [fst] in Hnd. apply NoDup_cons in Hnd as [Hni Hnd].
  cbn [fold_left list_to_map foldr fst snd]. rewrite IH by done. unfold merge_tally. cbn [fst snd].
  apply not_elem_of_list_to_map_1 in Hni. destruct (decide (k' = k)) as [->|Hne]; simplify_map_eq; done.
Qed.
Lemma merge_tallies_counts stored delta :
  map_Forall (λ _ t, in_int64 (ll_Samples t)) delta →
  ll_Samples <$> merge_tallies stored delta = add_counts (ll_Samples <$> stored) (ll_Samples <$> delta).
Proof using.
  intros Hd. apply map_eq. intros k. unfold merge_tallies, add_counts. rewrite lookup_union_with, !lookup_fmap.
  rewrite merge_tally_fold by apply NoDup_fst_map_to_list. rewrite list_to_map_to_list.
  destruct (delta !! k) as [d|] eqn:E; [|by destruct (stored !! k)].
  specialize (Hd k d E). cbn in Hd. destruct (stored !! k) as [t|]; cbn; [done|]. by rewrite wrap64_small.
Qed.
Lemma mergeSeconds_spec secs r r' :
  Forall second_fits secs → NoDup (sp_Second <$> secs) →
  (for_each secs add_second_row ≫= λ _, mergeSecondLabels secs) r = (Ok tt, r') →
  r' = set_seconds (rr_seconds r') r ∧
  second_val <$> rr_seconds r' =
  union_with (λ x y, Some (second_join x y)) (second_val <$> rr_seconds r)
    (list_to_map ((λ sec, (sp_Second sec, second_delta sec)) <$> secs)).
Proof using.
  intros Hfit Hnd Hrun. apply bind_Ok in Hrun as ([] & r1 & Hadd & Hrun).
  destruct (table_loop rr_seconds set_seconds (λ _ _, eq_refl) (λ _ _ _, eq_refl) set_seconds_get sp_Second
    add_second_row second_row_after add_second_step secs r r1 Hnd Hadd) as (E1 & Hout1 & Hin1).
  unfold mergeSecondLabels in Hrun. apply bind_Ok in Hrun as (stored & r2 & [= <- <-] & Hwrite).
  set (pending := filter (λ sec, sp_LabelLatency sec ≠ ∅) secs) in *.
  set (st := omap scr_label_latency (rr_seconds r1)) in *.
  assert (Hsub : ∀ sec, sec ∈ pending ↔ sp_LabelLatency sec ≠ ∅ ∧ sec ∈ secs) by (intros sec; unfold pending; rewrite list_elem_of_filter; done).
  assert (Hnd2 : NoDup (sp_Second <$> pending)).
  { apply (sublist_NoDup _ (sp_Second <$> secs)); [done|]. apply fmap_sublist, sublist_filter. }
  destruct (table_loop rr_seconds set_seconds (λ _ _, eq_refl) (λ _ _ _, eq_refl) set_seconds_get sp_Second
    (write_label_latency st) (tally_row_after st) (write_label_latency_step st) pending r1 r' Hnd2 Hwrite) as (E2 & Hout2 & Hin2).
  split; [rewrite E2 at 1; rewrite E1; done|].
  apply (map_grown second_val sp_Second second_delta second_join); [done| |].
  - intros w Hw. rewrite Hout2, Hout1; [done|done|].
    intros (sec & -> & Hs%Hsub)%list_elem_of_fmap. apply Hw, list_elem_of_fmap. exists sec. by destruct Hs.
  - intros sec Hsec. rewrite Forall_forall in Hfit. destruct (Hfit sec Hsec) as (F1 & F2 & F3 & F4).
    destruct (decide (sp_LabelLatency sec = ∅)) as [Hempty|Hne].
    + rewrite Hout2.
      2: { intros (sec' & E & Hs%Hsub)%list_elem_of_fmap. destruct Hs as [Hne Hs]. assert (sec' = sec) as ->; [|done].
           clear - Hnd E Hs Hsec. apply list_elem_of_lookup in Hs as [i Hi], Hsec as [j Hj].
           assert (i = j) as ->; [|congruence]. eapply (NoDup_lookup _ _ _ (sp_Second sec)); [exact Hnd|..];
             rewrite list_lookup_fmap; [rewrite Hi|rewrite Hj]; cbn; by rewrite ?E. }
      rewrite Hin1 by done. eexists. split; [done|]. unfold second_row_after, second_val, second_delta, second_join.
      rewrite Hempty, fmap_empty. destruct (rr_seconds r !! sp_Second sec) as [old|];
        cbn [from_option id scr_engine scr_labels scr_latency_samples scr_label_latency zero_second fst snd].
      * by rewrite !wrap64_add_l, add_counts_empty_r.
      * rewrite !Z.add_0_l, !wrap64_small, fmap_empty by done. done.
    + assert (Hp : sec ∈ pending) by (by apply Hsub). rewrite Hin2, Hin1 by done. eexists. split; [done|].
      assert (Hst : default ∅ (st !! sp_Second sec) = default ∅ (scr_label_latency (default zero_second (rr_seconds r !! sp_Second sec)))).
      { unfold st. rewrite lookup_omap, Hin1 by done. done. }
      unfold tally_row_after. rewrite Hst. unfold second_val. cbn [from_option id scr_engine scr_labels scr_latency_samples
        scr_label_latency second_row_after]. rewrite merge_tallies_counts by done. unfold second_delta, second_join.
      destruct (rr_seconds r !! sp_Second sec) as [old|];
        cbn [from_option id scr_engine scr_labels scr_latency_samples scr_label_latency zero_second fst snd].
      * by rewrite !wrap64_add_l.
      * rewrite !Z.add_0_l, !wrap64_small, fmap_empty, add_counts_empty_l by done. done.
Qed.

(** ** The permanent series *)
Definition series_val (row : SeriesRow) : seriesSecond :=
  mkSeriesSecond (wrap64 (srr_engine row)) (wrap64 (srr_labels row)) (wrap64 (srr_samples row)) (wrap64 (srr_failed row))
    (wrap64 (srr_bytes row)) (default ∅ (srr_latency row)).
Definition series_row_after (stored : gmap Z Histogram) (kv : Z * list Interval) (old : option SeriesRow) : SeriesRow :=
  let '(merged, engine) := MergeSecond kv.2 in
  let had := default ∅ (stored !! kv.1) in
  let old := default zero_series old in
  mkSeriesRow (srr_engine old + engine) (srr_labels old + iv_Concurrency merged) (srr_samples old + iv_Samples merged)
    (srr_failed old + iv_Failed merged) (srr_bytes old + iv_Bytes merged)
    (if bool_decide (iv_Latency merged = ∅) && bool_decide (had = ∅) then None
     else Some (Histogram_Merge (Histogram_Merge ∅ had) (iv_Latency merged))).
Lemma open_series_step kv r r' : open_series kv r = (Ok tt, r') →
  r' = set_series (<[kv.1 := default zero_series (rr_series r !! kv.1)]> (rr_series r)) r.
Proof using. intros [= <-]. by rewrite insert_missing_eq. Qed.
Lemma write_series_step stored kv r r' : write_series stored kv r = (Ok tt, r') →
  r' = set_series (<[kv.1 := series_row_after stored kv (rr_series r !! kv.1)]> (rr_series r)) r.
Proof using.
  unfold write_series, series_row_after. destruct (MergeSecond kv.2) as [merged engine].
  intros (old & r1 & [= <- <-] & Hrun)%bind_Ok.
  apply bind_Ok in Hrun as ([] & r1 & [_ ->]%column_Ok & [= <-]). done.
Qed.
Lemma mergeSeries_spec fresh r r' :
  mergeSeriesSeconds fresh r = (Ok tt, r') →
  r' = set_series (rr_series r') r ∧ series_val <$> rr_series r' = absorbSeries fresh (series_val <$> rr_series r).
Proof using.
  intros Hrun. unfold mergeSeriesSeconds in Hrun. set (rows := merge_sort _ _) in Hrun.
  assert (Hperm : rows ≡ₚ map_to_list (by_second fresh)) by apply merge_sort_Permutation.
  assert (Hnd : NoDup rows.*1) by (rewrite Hperm; apply NoDup_fst_map_to_list).
  apply bind_Ok in Hrun as ([] & r1 & Hopen & Hrun). apply bind_Ok in Hrun as (stored & r2 & [= <- <-] & Hwrite).
  destruct (table_loop rr_series set_series (λ _ _, eq_refl) (λ _ _ _, eq_refl) set_series_get fst
    open_series (λ _ old, default zero_series old) open_series_step rows r r1 Hnd Hopen) as (E1 & Hout1 & Hin1).
  set (st := omap srr_latency (rr_series r1)) in *.
  destruct (table_loop rr_series set_series (λ _ _, eq_refl) (λ _ _ _, eq_refl) set_series_get fst
    (write_series st) (series_row_after st) (write_series_step st) rows r1 r' Hnd Hwrite) as (E2 & Hout2 & Hin2).
  split; [rewrite E2 at 1; rewrite E1; done|].
  assert (Hmem : ∀ ts, ts ∈ rows.*1 ↔ of_second ts fresh ≠ []).
  { intros ts. rewrite Hperm. rewrite list_elem_of_fmap. split.
    - intros ([ts' l] & -> & Hin%elem_of_map_to_list). rewrite by_second_lookup in Hin. by case_decide.
    - intros Hne. exists (ts, of_second ts fresh). split; [done|]. apply elem_of_map_to_list.
      rewrite by_second_lookup. by rewrite decide_False. }
  apply map_eq. intros ts. rewrite absorbSeries_lookup, !lookup_fmap.
  destruct (decide (of_second ts fresh = [])) as [He|He].
  - rewrite Hout2, Hout1; [done| |]; rewrite Hmem; tauto.
  - assert (Hin : (ts, of_second ts fresh) ∈ rows).
    { rewrite Hperm. apply elem_of_map_to_list. rewrite by_second_lookup. by rewrite decide_False. }
    pose proof (Hin2 _ Hin) as H2. pose proof (Hin1 _ Hin) as H1. cbn [fst] in H1, H2.
    rewrite H2, H1. cbn [fmap option_fmap option_map]. f_equal.
    assert (Hst : default ∅ (st !! ts) = default ∅ (srr_latency (default zero_series (rr_series r !! ts)))).
    { unfold st. rewrite lookup_omap, H1. done. }
    unfold series_row_after. cbn [fst snd]. rewrite Hst. unfold merge, sums_of.
    destruct (MergeSecond (of_second ts fresh)) as [merged engine].
    unfold series_val, sums_join. cbn [from_option id srr_engine srr_labels srr_samples srr_failed srr_bytes srr_latency
      srs_engine srs_labels srs_samples srs_failed srs_bytes srs_latency fst snd].
    assert (Hlat : ∀ a b : Histogram,
      default ∅ (if bool_decide (b = ∅) && bool_decide (a = ∅) then None else Some (Histogram_Merge (Histogram_Merge ∅ a) b)) =
      Histogram_Merge a b).
    { intros a b. unfold Histogram_Merge. do 2 case_bool_decide; subst; cbn [andb from_option id];
        rewrite ?add_counts_empty_l, ?add_counts_empty_r; done. }
    rewrite Hlat. destruct (rr_series r !! ts) as [old|]; cbn [fmap option_fmap option_map from_option id srs_engine srs_labels
      srs_samples srs_failed srs_bytes srs_latency empty_series zero_series srr_engine srr_labels srr_samples srr_failed
      srr_bytes srr_latency]; by rewrite ?wrap64_add_l.
Qed.

(** ** Shards *)
Definition shard_name (row : ShardRow) : Z * string * Z := (shr_scenario_id row, shr_cluster row, shr_shard_index row).
Definition shard_val (row : ShardRow) : shardStream :=
  mkShardStream (shr_stream_id row) (shr_seq row) (shr_finished row) (shr_exit_code row).
Definition shard_D (k : Z * string * Z) : Prop := D k.1.2.
Lemma shard_pk_inj x y : shard_D x → shard_D y → shard_pk collate x = shard_pk collate y → x = y.
Proof using collate_inj.
  destruct x as [[a c] i], y as [[a' c'] i']. unfold shard_D, shard_pk. cbn. intros Hx Hy [= -> E ->].
  by apply (collate_inj c c' Hx Hy) in E as ->.
Qed.
Definition shards_view (r : Rows) : gmap (Z * string * Z) shardStream := view shard_name shard_val (rr_shards r).
Definition shards_keyed (r : Rows) : Prop := keyed (shard_pk collate) shard_D shard_name (rr_shards r).
Lemma shards_insert r row (t := <[shard_pk collate (shard_name row) := row]> (rr_shards r)) :
  shards_keyed r → shard_D (shard_name row) →
  keyed (shard_pk collate) shard_D shard_name t ∧ view shard_name shard_val t = <[shard_name row := shard_val row]> (shards_view r).
Proof using collate_inj.
  intros Hk Hd. split; [by apply keyed_insert|]. apply (view_insert _ shard_D); [apply shard_pk_inj|done..].
Qed.

(** The stream a batch finds. *)
Definition found_shard (b : ProgressBatch) (shards : gmap (Z * string * Z) shardStream) : shardStream :=
  default (mkShardStream (pb_StreamID b) 0 false None) (shards !! key_of b).
Definition found_seq (b : ProgressBatch) (sh : shardStream) : Z :=
  if bool_decide (str_streamID sh = pb_StreamID b) then str_seq sh else 0.
Lemma lockShard_spec b r w r' :
  shards_keyed r → D (pb_Cluster b) → lockShard collate b r = (Ok w, r') →
  let sh := found_shard b (shards_view r) in
  r' = set_shards (rr_shards r') r ∧ shards_keyed r' ∧ w = found_seq b sh ∧
  ∃ row, rr_shards r' !! shard_pk collate (key_of b) = Some row ∧ shard_name row = key_of b ∧
    shard_val row = mkShardStream (pb_StreamID b) w (str_finished sh) (str_exitCode sh) ∧
    shards_view r' = <[key_of b := shard_val row]> (shards_view r).
Proof using collate_inj.
  intros Hk Hd Hrun sh. assert (Dk : shard_D (key_of b)) by done. unfold lockShard in Hrun.
  apply bind_Ok in Hrun as ([] & r1 & [_ ->]%column_Ok & Hrun). apply bind_Ok in Hrun as ([] & r1 & [= <-] & Hrun).
  rewrite insert_missing_eq in Hrun. set (fresh := mkShardRow _ _ _ _ _ _ _) in Hrun.
  set (row := default fresh (rr_shards r !! shard_pk collate (key_of b))) in Hrun.
  assert (Hname : shard_name row = key_of b).
  { unfold row. destruct (rr_shards r !! _) as [old|] eqn:E; [|done]. cbn.
    by eapply (keyed_row (shard_pk collate) shard_D shard_name shard_pk_inj). }
  assert (Hsh : shard_val row = sh).
  { unfold sh, found_shard, shards_view. rewrite (view_lookup (shard_pk collate) shard_D) by (done || apply shard_pk_inj).
    unfold row. by destruct (rr_shards r !! _). }
  apply bind_Ok in Hrun as (row' & r2 & Hask & Hrun). unfold ask in Hask. cbn [set_shards rr_shards] in Hask.
  rewrite lookup_insert_eq in Hask. cbn [from_option] in Hask. injection Hask as <- <-.
  destruct (shards_insert r row Hk ltac:(by rewrite Hname)) as [Hk1 Hv1]. rewrite Hname in Hk1, Hv1.
  unfold found_seq. rewrite <- Hsh. cbn [shard_val str_streamID str_seq str_finished str_exitCode].
  case_bool_decide as Hstream.
  - injection Hrun as <- <-. split; [done|]. split; [done|]. split; [done|]. exists row. cbn [set_shards rr_shards].
    rewrite lookup_insert_eq. split; [done|]. split; [done|]. split; [|done]. unfold shard_val. by rewrite Hstream.
  - apply bind_Ok in Hrun as ([] & r2 & [= <-] & [= <- <-]). set (row2 := mkShardRow _ _ _ _ _ _ _).
    assert (Hname2 : shard_name row2 = key_of b) by (by rewrite <- Hname).
    split; [done|]. unfold shards_keyed, shards_view. cbn [set_shards rr_shards].
    rewrite insert_insert_eq. destruct (shards_insert r row2 Hk ltac:(by rewrite Hname2)) as [Hk2 Hv2].
    rewrite Hname2 in Hk2, Hv2. split; [done|]. split; [done|]. exists row2. rewrite lookup_insert_eq.
    split; [done|]. split; [done|]. split; [done|]. exact Hv2.
Qed.
Lemma advance_shard_spec b h r r' row :
  shards_keyed r → D (pb_Cluster b) → rr_shards r !! shard_pk collate (key_of b) = Some row → shard_name row = key_of b →
  advance_shard collate b h r = (Ok tt, r') →
  r' = set_shards (rr_shards r') r ∧ shards_keyed r' ∧
  shards_view r' = <[key_of b := mkShardStream (shr_stream_id row) h (shr_finished row || pb_Final b)
                        (match pb_ExitCode b with Some c => Some c | None => shr_exit_code row end)]> (shards_view r).
Proof using collate_inj.
  intros Hk Hd Hr Hname Hrun. unfold advance_shard in Hrun.
  apply bind_Ok in Hrun as ([] & r1 & [_ ->]%column_Ok & [= <-]). split; [done|].
  set (row2 := mkShardRow (shr_scenario_id row) (shr_cluster row) (shr_shard_index row) (shr_stream_id row) h
                 (shr_finished row || pb_Final b) (match pb_ExitCode b with Some c => Some c | None => shr_exit_code row end)).
  assert (Hname2 : shard_name row2 = key_of b) by (by rewrite <- Hname).
  destruct (shards_insert r row2 Hk ltac:(by rewrite Hname2)) as [Hk2 Hv2]. rewrite Hname2 in Hk2, Hv2.
  unfold shards_keyed, shards_view. cbn [set_shards rr_shards].
  assert (alter (λ row, mkShardRow (shr_scenario_id row) (shr_cluster row) (shr_shard_index row) (shr_stream_id row) h
      (shr_finished row || pb_Final b) (match pb_ExitCode b with Some c => Some c | None => shr_exit_code row end))
      (shard_pk collate (key_of b)) (rr_shards r) = <[shard_pk collate (key_of b) := row2]> (rr_shards r)) as ->; [|done].
  apply map_eq. intros w. destruct (decide (shard_pk collate (key_of b) = w)) as [<-|Hne].
  - by rewrite lookup_alter_eq, Hr, lookup_insert_eq.
  - by rewrite lookup_alter_ne, lookup_insert_ne.
Qed.
End facts.

(** * Rows stand for counters *)

(** ** The loop over a batch *)
Definition newer (watermark : Z) (l : list Interval) : list Interval := filter (λ iv, watermark < iv_Seq iv) l.
Definition top (watermark : Z) (l : list Interval) : Z := fold_left (λ h iv, Z.max h (iv_Seq iv)) l watermark.

Lemma newer_cons_old w iv l : iv_Seq iv <= w → newer w (iv :: l) = newer w l.
Proof. intros. apply filter_cons_False. lia. Qed.
Lemma newer_cons_new w iv l : w < iv_Seq iv → newer w (iv :: l) = iv :: newer w l.
Proof. intros. by apply filter_cons_True. Qed.
Lemma newer_all w l : Forall (Z.lt w) (iv_Seq <$> l) → newer w l = l.
Proof.
  rewrite Forall_fmap. induction 1 as [|iv l Hx _ IH]; [done|]. by rewrite newer_cons_new, IH.
Qed.

(** Every interval above the watermark the transaction started from. *)
Lemma fresh_fold w l acc h fr :
  w <= h →
  fold_left (fresh_step w) l (acc, h, fr) = (absorb_all (newer w l) acc, top h l, fr ++ newer w l).
Proof.
  revert acc h fr. induction l as [|iv l IH]; intros acc h fr Hh.
  { cbn. by rewrite app_nil_r. }
  cbn [fold_left top]. unfold fresh_step at 2. destruct (Z.leb_spec (iv_Seq iv) w) as [Hle|Hgt].
  - rewrite IH by done. rewrite newer_cons_old by done. by rewrite Z.max_l by lia.
  - rewrite IH by (case_match; lia). rewrite newer_cons_new by done. cbn [absorb_all fold_left].
    rewrite <- app_assoc. replace (if h <? iv_Seq iv then iv_Seq iv else h) with (Z.max h (iv_Seq iv)); [done|].
    destruct (Z.ltb_spec h (iv_Seq iv)); lia.
Qed.
(** In sequence order, that is every interval above the moving watermark. *)
Lemma absorb_fold l acc w fr :
  StronglySorted Z.lt (iv_Seq <$> l) →
  fold_left absorb_step l (acc, w, fr) = (absorb_all (newer w l) acc, top w l, fr ++ newer w l).
Proof.
  revert acc w fr. induction l as [|iv l IH]; intros acc w fr Hs.
  { cbn. by rewrite app_nil_r. }
  rewrite fmap_cons in Hs. apply StronglySorted_inv in Hs as [Hs Hall].
  cbn [fold_left top]. unfold absorb_step at 2. destruct (Z.leb_spec (iv_Seq iv) w) as [Hle|Hgt].
  - rewrite IH by done. rewrite newer_cons_old by done. by rewrite Z.max_l by lia.
  - rewrite IH by done. rewrite newer_cons_new by done. cbn [absorb_all fold_left].
    rewrite <- app_assoc, Z.max_r by lia. rewrite (newer_all (iv_Seq iv)) by done.
    rewrite (newer_all w); [done|]. eapply Forall_impl; [exact Hall|]. lia.
Qed.

(** ** A snapshot's lists are the accumulator's maps *)
Lemma listed_map {K A V X} `{Countable K} (kn : X → K) (val : X → V) (f : A → V) (xs : list X) (m : gmap K A) :
  (λ x, (kn x, val x)) <$> xs ≡ₚ prod_map id f <$> map_to_list m →
  (list_to_map ((λ x, (kn x, val x)) <$> xs) : gmap K V) = f <$> m ∧ NoDup (kn <$> xs).
Proof.
  intros Hp.
  assert (Hnd : NoDup (prod_map id f <$> map_to_list m).*1).
  { rewrite <- list_fmap_compose. apply (NoDup_fst_map_to_list m). }
  assert (Hnd' : NoDup ((λ x, (kn x, val x)) <$> xs).*1) by (by rewrite Hp).
  split.
  - rewrite (list_to_map_proper _ _ Hnd' Hp). rewrite list_to_map_fmap. by rewrite list_to_map_to_list.
  - rewrite <- list_fmap_compose in Hnd'. exact Hnd'.
Qed.

Section refine.
Context {W : Type} `{Countable W} (collate : string → W) (D : string → Prop).
Context (collate_inj : ∀ x y, D x → D y → collate x = collate y → x = y).
Local Abbreviation Rows := (RunRows (W := W)).
Implicit Types r : Rows.

(** *** What an accumulator of fresh intervals holds *)
Definition named (iv : Interval) : Prop :=
  iv_Label iv = TotalLabel ∨
  D (iv_Label iv) ∧ Forall (λ e, sig_D D (NewSignature (iv_Label iv) e)) (iv_Errors iv).
Record acc_fits (a : Accumulator) : Prop := {
  fits_labels : map_Forall (λ k st, D k ∧ in_int64 (ls_samples st) ∧ in_int64 (ls_failed st)) (acc_labels a);
  fits_seconds : map_Forall (λ _ s, map_Forall (λ _ t, in_int64 (ll_Samples t)) (sc_labelLatency s)) (acc_seconds a);
  fits_signatures : map_Forall (λ s e, sig_D D s ∧ in_int64 (er_Count e)) (acc_signatures a)
}.
Lemma fits_new : acc_fits NewAccumulator.
Proof using. split; apply map_Forall_empty. Qed.
Lemma tally_fits iv s :
  map_Forall (λ _ t, in_int64 (ll_Samples t)) (sc_labelLatency s) →
  map_Forall (λ _ t, in_int64 (ll_Samples t)) (sc_labelLatency (add_second iv s)).
Proof using.
  intros Hs. unfold add_second. case_bool_decide; [done|]. case_bool_decide as Hlat; [done|].
  pose proof (tally_ints (iv_Latency iv) (buckets_of (iv_Latency iv)) (sc_latSum s) (sc_latSamples s)
    (default empty_tally (sc_labelLatency s !! iv_Label iv)) (buckets_nonempty _ Hlat)) as Ht.
  destruct (fold_left _ _ _) as [[fs n] t]. destruct Ht as [_ Ht]. cbn [sc_labelLatency].
  apply map_Forall_insert_2; [|done]. rewrite Ht. apply wrap64_in_int64.
Qed.
Lemma errors_fit label es sigs :
  Forall (λ e, sig_D D (NewSignature label e)) es →
  map_Forall (λ s e, sig_D D s ∧ in_int64 (er_Count e)) sigs →
  map_Forall (λ s e, sig_D D s ∧ in_int64 (er_Count e)) (fold_left (add_error label) es sigs).
Proof using.
  revert sigs. induction es as [|e es IH]; intros sigs Hes Hs; cbn [fold_left]; [done|].
  apply Forall_cons in Hes as [He Hes]. apply IH; [done|]. unfold add_error.
  apply map_Forall_insert_2; [|done]. split; [done|]. apply wrap64_in_int64.
Qed.
Lemma Add_fits iv a : named iv → acc_fits a → acc_fits (Add iv a).
Proof using.
  intros Hn [Hl Hs Hg]. unfold Add.
  assert (map_Forall (λ _ s, map_Forall (λ _ t, in_int64 (ll_Samples t)) (sc_labelLatency s)) (<[iv_Timestamp iv :=
    add_second iv (default empty_second (acc_seconds a !! iv_Timestamp iv))]> (acc_seconds a))) as Hs'.
  { apply map_Forall_insert_2; [|done]. apply tally_fits.
    destruct (acc_seconds a !! iv_Timestamp iv) eqn:E; [by apply (Hs _ _ E)|apply map_Forall_empty]. }
  case_bool_decide as Ht; [by split|]. destruct Hn as [|[Hd He]]; [done|]. split; cbn.
  - apply map_Forall_insert_2; [|done]. split; [done|]. split; apply wrap64_in_int64.
  - done.
  - by apply errors_fit.
Qed.
Lemma absorb_all_fits l a : Forall named l → acc_fits a → acc_fits (absorb_all l a).
Proof using.
  unfold absorb_all. revert a. induction l as [|iv l IH]; intros a Hl Ha; [done|]. cbn [fold_left].
  apply Forall_cons in Hl as [Hiv Hl]. apply IH; [done|]. by apply Add_fits.
Qed.

(** *** Rows stand for counters *)

(** The counts of a second's row, [BIGINT] columns. *)
Definition second_row_fits (row : SecondRow) : Prop :=
  in_int64 (scr_engine row) ∧ in_int64 (scr_labels row) ∧ in_int64 (scr_latency_samples row).
Definition seconds_fit (r : Rows) : Prop := map_Forall (λ _ row, second_row_fits row) (rr_seconds r).
Definition keeps_fit (r r' : Rows) : Prop := seconds_fit r → seconds_fit r'.
#[local] Instance keeps_fit_preorder : PreOrder keeps_fit.
Proof using. split; unfold keeps_fit; [intros r; tauto|intros r1 r2 r3; tauto]. Qed.
Lemma old_second_fits r ts : seconds_fit r → second_row_fits (default zero_second (rr_seconds r !! ts)).
Proof using.
  intros Hr. destruct (rr_seconds r !! ts) as [row|] eqn:E; [by apply (Hr _ _ E)|]. split; [|split]; apply in_int64_zero.
Qed.
#[local] Instance add_second_fits sec : Keeps keeps_fit (add_second_row (W := W) sec).
Proof using.
  intros r Hr. destruct (add_second_row sec r) as [[[]|e] r'] eqn:E.
  - unfold add_second_row in E. apply bind_Ok in E as (old & r1 & [= <- <-] & E).
    apply bind_Ok in E as ([] & r1 & [Hc ->]%column_Ok & [= <-]). unfold i64 in Hc.
    rewrite !andb_true_iff, !bool_decide_eq_true in Hc. destruct Hc as (((? & ?) & _) & ?).
    apply map_Forall_insert_2; [|done]. split; [done|]. by split.
  - unfold add_second_row in E. apply bind_Err in E as [[=]|(old & r1 & [= <- <-] & E)].
    apply bind_Err in E as [->%column_Err|([] & r1 & _ & [=])]. exact Hr.
Qed.
#[local] Instance write_latency_fits stored sec : Keeps keeps_fit (write_label_latency (W := W) stored sec).
Proof using.
  unfold write_label_latency. apply keeps_bind; [apply _|unfold column; apply _|]. intros _ r Hr.
  apply map_Forall_insert_2; [|done]. exact (old_second_fits r (sp_Second sec) Hr).
Qed.
Lemma mergeSeconds_fit secs : Keeps keeps_fit (for_each secs (add_second_row (W := W)) ≫= λ _, mergeSecondLabels secs).
Proof using. unfold mergeSecondLabels. solve_keeps. Qed.

Record rows_ok (r : Rows) : Prop := {
  ok_seconds : seconds_fit r;
  ok_labels : labels_keyed collate D r;
  ok_signatures : sigs_keyed collate D r;
  ok_shards : shards_keyed collate D r
}.
Definition rows_counts (r : Rows) : Counts :=
  mkCounts (labels_view r) (second_val <$> rr_seconds r) (sigs_view r).

Lemma snapshot_labels a : acc_fits a →
  let ls := sn_Labels (Accumulator_Snapshot a) in
  (list_to_map ((λ l, (lp_Label l, label_delta l)) <$> ls) : gmap string labelState) = acc_labels a ∧
  NoDup (lp_Label <$> ls) ∧ Forall D (lp_Label <$> ls) ∧ Forall label_fits ls.
Proof using.
  intros [Hl _ _] ls.
  assert (Hp : ls ≡ₚ label_progress <$> map_to_list (acc_labels a)) by apply merge_sort_Permutation.
  destruct (listed_map lp_Label label_delta id ls (acc_labels a)) as [-> Hnd].
  { rewrite Hp, <- list_fmap_compose. apply Permutation_refl', list_fmap_ext. by intros _ [k []] _. }
  rewrite map_fmap_id. split; [done|]. split; [done|].
  rewrite Hp, <- list_fmap_compose, !Forall_fmap. rewrite !Forall_forall.
  split; intros [k st] Hin%elem_of_map_to_list; by destruct (Hl _ _ Hin) as (? & ? & ?).
Qed.
Lemma snapshot_seconds a : acc_ok a → acc_fits a →
  let ss := sn_Seconds (Accumulator_Snapshot a) in
  (list_to_map ((λ s, (sp_Second s, second_delta s)) <$> ss) : gmap Z SecondCounts) = second_counts <$> acc_seconds a ∧
  NoDup (sp_Second <$> ss) ∧ Forall second_fits ss.
Proof using.
  intros [Hok _] [_ Hs _] ss.
  assert (Hp : ss ≡ₚ second_progress <$> map_to_list (acc_seconds a)) by apply merge_sort_Permutation.
  destruct (listed_map sp_Second second_delta second_counts ss (acc_seconds a)) as [-> Hnd].
  { rewrite Hp, <- list_fmap_compose. apply Permutation_refl', list_fmap_ext. by intros _ [k []] _. }
  split; [done|]. split; [done|]. rewrite Hp, Forall_fmap, Forall_forall.
  intros [k s] Hin%elem_of_map_to_list. destruct (Hok _ _ Hin) as (? & ? & ?). specialize (Hs _ _ Hin). by split.
Qed.
Lemma snapshot_signatures a : acc_ok a → acc_fits a →
  let es := sn_Signatures (Accumulator_Snapshot a) in
  (list_to_map ((λ e, (er_Signature e, er_Count e)) <$> es) : gmap Signature Z) = er_Count <$> acc_signatures a ∧
  NoDup (er_Signature <$> es) ∧ Forall (sig_D D) (er_Signature <$> es) ∧ Forall (λ e, in_int64 (er_Count e)) es.
Proof using.
  intros [_ Hok] [_ _ Hs] es.
  assert (Hp : es ≡ₚ (map_to_list (acc_signatures a)).*2) by apply merge_sort_Permutation.
  destruct (listed_map er_Signature er_Count er_Count es (acc_signatures a)) as [-> Hnd].
  { rewrite Hp, <- list_fmap_compose. apply Permutation_refl', list_fmap_ext.
    intros i [k e] Hi%list_elem_of_lookup_2%elem_of_map_to_list. cbn. by rewrite (Hok _ _ Hi). }
  split; [done|]. split; [done|]. rewrite Hp, <- list_fmap_compose, !Forall_fmap. rewrite !Forall_forall.
  split; intros [k e] Hin%elem_of_map_to_list; destruct (Hs _ _ Hin) as [? ?]; [|done]. cbn. by rewrite (Hok _ _ Hin).
Qed.

Lemma mergeProgress_spec a r r' :
  acc_ok a → acc_fits a → rows_ok r → mergeProgress collate (Accumulator_Snapshot a) r = (Ok tt, r') →
  rows_ok r' ∧ rows_counts r' = counts_join (rows_counts r) (counts a) ∧
  rr_shards r' = rr_shards r ∧ rr_series r' = rr_series r.
Proof using collate_inj.
  intros Hok Hfit [Kf Kl Ks Kh] Hrun. unfold mergeProgress in Hrun.
  destruct (snapshot_labels a Hfit) as (El & Nl & Dl & Fl).
  destruct (snapshot_seconds a Hok Hfit) as (Es & Ns & Fs).
  destruct (snapshot_signatures a Hok Hfit) as (Eg & Ng & Dg & Fg).
  apply bind_Ok in Hrun as ([] & r0 & Hadd & Hrun). apply bind_Ok in Hrun as ([] & r1 & Hlab & Hrun).
  apply bind_Ok in Hrun as ([] & r2 & Hl & Hg).
  assert (Hsec : (for_each (sn_Seconds (Accumulator_Snapshot a)) add_second_row ≫= λ _,
    mergeSecondLabels (sn_Seconds (Accumulator_Snapshot a))) r = (Ok tt, r1)) by (unfold mbind, M_bind; by rewrite Hadd).
  clear Hadd Hlab r0. destruct (mergeSeconds_spec (sn_Seconds (Accumulator_Snapshot a)) r r1 Fs Ns Hsec) as [E1 V1].
  pose proof (mergeSeconds_fit (sn_Seconds (Accumulator_Snapshot a)) r Kf) as Kf1. rewrite Hsec in Kf1. cbn [snd] in Kf1.
  rewrite Es in V1.
  assert (Kl1 : labels_keyed collate D r1) by (unfold labels_keyed; by rewrite E1).
  destruct (mergeLabels_spec collate D collate_inj _ r1 r2 Kl1 Dl Fl Nl Hl) as (E2 & Kl2 & V2). rewrite El in V2.
  assert (Kg2 : sigs_keyed collate D r2) by (unfold sigs_keyed; rewrite E2, E1; done).
  destruct (mergeSignatures_spec collate D collate_inj _ r2 r' Kg2 Dg Fg Ng Hg) as (E3 & Kg3 & V3). rewrite Eg in V3.
  split; [split; [unfold seconds_fit; by rewrite E3, E2|unfold labels_keyed; by rewrite E3|done|unfold shards_keyed; rewrite E3, E2, E1; done]|].
  split; [|rewrite E3, E2, E1; done]. unfold rows_counts, counts_join, counts. f_equal; cbn [ct_labels ct_seconds ct_signatures].
  - unfold labels_view in *. rewrite E3. cbn [set_signatures rr_labels]. rewrite V2. by rewrite E1.
  - rewrite E3, E2. cbn [set_signatures set_labels rr_seconds]. exact V1.
  - rewrite V3. unfold sigs_view. rewrite E2, E1. done.
Qed.

(** *** A batch *)
Definition a_run (runID : Z) (p : ReportProgress) : progressRun :=
  default (mkProgressRun NewAccumulator ∅) (rp_runs p !! runID).
Definition a_series (runID : Z) (p : ReportProgress) : gmap Z seriesSecond := default ∅ (rp_series p !! runID).
Record related_run (r : Rows) (run : progressRun) (series : gmap Z seriesSecond) : Prop := {
  rel_ok : rows_ok r;
  rel_acc : acc_ok (pr_acc run);
  rel_counts : rows_counts r = counts (pr_acc run);
  rel_shards : shards_view r = pr_shards run;
  rel_series : series_val <$> rr_series r = series
}.
Lemma counts_join_absorb l a :
  acc_ok a → counts (absorb_all l a) = counts_join (counts a) (counts (absorb_all l NewAccumulator)).
Proof using.
  intros Ha. rewrite !counts_absorb_all by (done || apply NewAccumulator_ok).
  generalize (interval_counts <$> l). intros cs. revert a Ha.
  assert (Hj : ∀ c d, fold_left counts_join cs (counts_join c d) = counts_join c (fold_left counts_join cs d)).
  { induction cs as [|x cs IH]; intros c d; cbn [fold_left]; [done|]. by rewrite counts_join_assoc, IH. }
  intros a _. rewrite <- Hj. f_equal. by rewrite counts_join_comm, counts_join_empty.
Qed.
Lemma absorb_nothing (series : gmap Z seriesSecond) : absorbSeries [] series = series.
Proof using. apply map_eq. intros ts. rewrite absorbSeries_lookup. done. Qed.

(** What follows the lock, with the fresh intervals in hand. *)
Lemma merge_fresh_spec fresh r r' :
  Forall named fresh → rows_ok r →
  (match fresh with
   | [] => mret tt
   | _ => _ ← mergeProgress collate (Accumulator_Snapshot (absorb_all fresh NewAccumulator)); mergeSeriesSeconds fresh
   end : M Rows error unit) r = (Ok tt, r') →
  rows_ok r' ∧ rows_counts r' = counts_join (rows_counts r) (counts (absorb_all fresh NewAccumulator)) ∧
  rr_shards r' = rr_shards r ∧ series_val <$> rr_series r' = absorbSeries fresh (series_val <$> rr_series r).
Proof using collate_inj.
  intros Hn Hok. destruct fresh as [|iv l].
  { intros [= <-]. rewrite absorb_nothing. cbn [absorb_all fold_left].
    by rewrite counts_join_comm, counts_join_empty. }
  set (fresh := iv :: l) in *. intros Hrun. apply bind_Ok in Hrun as ([] & r1 & Hp & Hs).
  destruct (mergeProgress_spec _ r r1 (absorb_all_ok fresh _ NewAccumulator_ok) (absorb_all_fits fresh _ Hn fits_new) Hok Hp)
    as ([Kf Kl Kg Kh] & Hc & Eh & Es).
  destruct (mergeSeries_spec fresh r1 r' Hs) as [E V]. rewrite Es in V.
  split; [split; unfold seconds_fit, labels_keyed, sigs_keyed, shards_keyed; by rewrite E|].
  split; [unfold rows_counts, labels_view, sigs_view; rewrite E; exact Hc|]. split; [rewrite E; exact Eh|exact V].
Qed.
Lemma absorb_tx_spec b r r' run series :
  related_run r run series → D (pb_Cluster b) → Forall named (pb_Intervals b) →
  absorb_tx collate b r = (Ok tt, r') →
  let sh := found_shard b (pr_shards run) in
  let w := found_seq b sh in
  let fresh := newer w (pb_Intervals b) in
  related_run r'
    (mkProgressRun (absorb_all fresh (pr_acc run))
       (<[key_of b := mkShardStream (pb_StreamID b) (top w (pb_Intervals b)) (pb_Final b || str_finished sh)
                        (match pb_ExitCode b with Some c => Some c | None => str_exitCode sh end)]> (pr_shards run)))
    (absorbSeries fresh series).
Proof using collate_inj.
  intros [[Kf Kl Kg Kh] Ha Hc Hsh Hse] Hd Hn Hrun sh w fresh. unfold absorb_tx in Hrun.
  apply bind_Ok in Hrun as (w' & r1 & Hlock & Hrun).
  destruct (lockShard_spec collate D collate_inj b r w' r1 Kh Hd Hlock) as (E1 & Kh1 & Ew & row & Hrow & Hname & Hval & Hview).
  rewrite Hsh in Ew, Hval, Hview. fold sh in Ew, Hval. fold w in Ew. subst w'.
  rewrite fresh_fold in Hrun by done. fold fresh in Hrun. cbn [app] in Hrun.
  apply bind_Ok in Hrun as ([] & r2 & Hmerge & Hadv).
  assert (Hok1 : rows_ok r1) by (split; [unfold seconds_fit|unfold labels_keyed|unfold sigs_keyed|done]; by rewrite E1).
  assert (Hnf : Forall named fresh).
  { rewrite Forall_forall in Hn |- *. intros iv [_ Hiv]%list_elem_of_filter. by apply Hn. }
  destruct (merge_fresh_spec fresh r1 r2 Hnf Hok1 Hmerge) as ([Kf2 Kl2 Kg2 Kh2] & Hc2 & Eh & Hs2).
  rewrite <- Eh in Hrow.
  destruct (advance_shard_spec collate D collate_inj b _ r2 r' row Kh2 Hd Hrow Hname Hadv) as (E3 & Kh3 & V3).
  unfold shard_val in Hval. injection Hval as V1 V2 V4 V5. rewrite V1, V4, V5 in V3.
  split; cbn [pr_acc pr_shards].
  - split; [unfold seconds_fit|unfold labels_keyed|unfold sigs_keyed|done]; by rewrite E3.
  - by apply absorb_all_ok.
  - rewrite counts_join_absorb, <- Hc by done.
    replace (rows_counts r') with (rows_counts r2) by (unfold rows_counts, labels_view, sigs_view; by rewrite E3).
    rewrite Hc2. f_equal. unfold rows_counts, labels_view, sigs_view. by rewrite E1.
  - rewrite V3. unfold shards_view at 1. rewrite Eh. fold (shards_view r1). rewrite Hview, insert_insert_eq.
    by rewrite orb_comm.
  - rewrite E3. cbn [set_shards rr_series]. rewrite Hs2, <- Hse. by rewrite E1.
Qed.

(** *** What can fail *)
Class RangeOnly {A} (m : M Rows error A) : Prop :=
  range_only : ∀ r e r', m r = (Err e, r') → e = ErrStorage "value out of range for column".
#[local] Instance range_ret {A} (a : A) : RangeOnly (mret a).
Proof using. by intros r e r' [=]. Qed.
#[local] Instance range_modify (f : Rows → Rows) : RangeOnly (modify f).
Proof using. by intros r e r' [=]. Qed.
#[local] Instance range_gets {A} (f : Rows → A) : RangeOnly (gets f).
Proof using. by intros r e r' [=]. Qed.
#[local] Instance range_column ok : RangeOnly (column ok).
Proof using. intros r e r'. unfold column, guard. destruct ok; cbn; by intros [=]. Qed.
#[local] Instance range_bind {A B} (m : M Rows error A) (k : A → M Rows error B) :
  RangeOnly m → (∀ a, RangeOnly (k a)) → RangeOnly (m ≫= k).
Proof using. intros Hm Hk r e r' [He|(a & r1 & _ & He)]%bind_Err; [by apply Hm in He|by apply Hk in He]. Qed.
#[local] Instance range_for_each {A} (l : list A) (body : A → M Rows error unit) :
  (∀ x, RangeOnly (body x)) → RangeOnly (for_each l body).
Proof using. intros Hb. induction l as [|x l IH]; cbn [for_each]; apply _. Qed.
Lemma range_lockShard b : RangeOnly (lockShard collate b).
Proof using.
  unfold lockShard. apply range_bind; [apply _|]. intros _ r e r' Hrun.
  apply bind_Err in Hrun as [[=]|([] & r1 & [= <-] & Hrun)].
  apply bind_Err in Hrun as [Hask|(row & r2 & _ & Hrun)].
  - unfold ask in Hask. cbn [set_shards rr_shards] in Hask. by rewrite insert_missing_eq, lookup_insert_eq in Hask.
  - revert Hrun. case_bool_decide; [by intros [=]|]. by intros [[=]|([] & r3 & [= <-] & [=])]%bind_Err.
Qed.
Lemma range_absorb b : RangeOnly (absorb_tx collate b).
Proof using.
  unfold absorb_tx. apply range_bind; [apply range_lockShard|]. intros w.
  destruct (fold_left _ _ _) as [[acc h] fresh]. apply range_bind.
  - destruct fresh; [apply _|]. unfold mergeProgress, mergeSecondLabels, mergeLabels, mergeSignatures, mergeSeriesSeconds,
      add_second_row, write_label_latency, open_label, write_label, open_signature, write_signature, open_series.
    repeat (apply range_bind; [try apply _|intros]); try apply _.
    apply range_for_each. intros kv. unfold write_series. destruct (MergeSecond kv.2). apply _.
  - intros _. unfold advance_shard. apply _.
Qed.

(** *** The databases *)
Definition related (db : DB (W := W)) (p : ReportProgress) : Prop :=
  ∀ runID, related_run (rows_of runID db) (a_run runID p) (a_series runID p).
Lemma related_run_empty : related_run no_rows (mkProgressRun NewAccumulator ∅) ∅.
Proof using.
  split; cbn [pr_acc pr_shards].
  - split; [apply map_Forall_empty|apply keyed_empty..].
  - apply NewAccumulator_ok.
  - unfold rows_counts, counts, labels_view, sigs_view, view. cbn [no_rows rr_labels rr_seconds rr_signatures
      NewAccumulator acc_labels acc_seconds acc_signatures]. by rewrite !map_to_list_empty, !fmap_empty.
  - unfold shards_view, view. cbn. by rewrite map_to_list_empty.
  - cbn. by rewrite fmap_empty.
Qed.
Lemma related_empty : related ∅ NewReportProgress.
Proof using.
  intros runID. unfold rows_of, a_run, a_series. cbn. rewrite !lookup_empty. apply related_run_empty.
Qed.

(** C9. The MySQL repository implements the working state's port: on a batch in
    sequence order whose names the collation keeps apart, either it stores the
    batch and its rows then stand for exactly the counters, stream positions and
    per-second series the in-memory store is left with, or it refuses it and
    changes nothing, for the reason the in-memory store refuses it or because a
    value does not fit its column. *)
Theorem mysql_absorb_refines b db p :
  related db p → AbsorbErr p = None →
  StronglySorted Z.lt (iv_Seq <$> pb_Intervals b) → D (pb_Cluster b) → Forall named (pb_Intervals b) →
  match mysql_Absorb collate b db with
  | (Ok _, db') => ∃ p', Absorb b p = (Ok tt, p') ∧ related db' p'
  | (Err e, db') => db' = db ∧ (Absorb b p = (Err e, p) ∨ e = ErrStorage "value out of range for column")
  end.
Proof using collate_inj.
  intros Hrel Herr Hsort Hd Hn. unfold mysql_Absorb, Absorb. rewrite Herr.
  destruct (ProgressBatch_Validate b) as [u|e]; [|split; [done|by left]].
  destruct (absorb_tx collate b (rows_of (pb_RunID b) db)) as [[[]|e] rows] eqn:Htx.
  2: { split; [done|]. right. by apply range_absorb in Htx. }
  pose proof (absorb_tx_spec b _ rows _ _ (Hrel (pb_RunID b)) Hd Hn Htx) as Hnew. cbn zeta in Hnew.
  fold (a_run (pb_RunID b) p). fold (a_series (pb_RunID b) p).
  fold (found_shard b (pr_shards (a_run (pb_RunID b) p))).
  fold (found_seq b (found_shard b (pr_shards (a_run (pb_RunID b) p)))).
  rewrite absorb_fold by done. cbn [app]. eexists. split; [reflexivity|]. intros runID.
  unfold rows_of, a_run, a_series, DB. cbn [rp_runs rp_series].
  destruct (decide (pb_RunID b = runID)) as [<-|Hne].
  - rewrite !lookup_insert_eq. cbn [from_option id]. exact Hnew.
  - rewrite !lookup_insert_ne by done. apply Hrel.
Qed.

(** *** Reading back *)
Lemma scan_all_Ok {A B} (f : A → result error B) (g : A → B) l ys :
  (∀ x y, f x = Ok y → y = g x) → scan_all f l = Ok ys → ys = g <$> l ∧ Forall (λ x, is_Ok (f x) = true) l.
Proof using.
  intros Hf. revert ys. induction l as [|x l IH]; intros ys; cbn [scan_all].
  { by intros [= <-]. }
  destruct (f x) as [y|e] eqn:E; [|done]. cbn. destruct (scan_all f l) as [zs|e]; [|done]. cbn. intros [= <-].
  destruct (IH zs eq_refl) as [-> Hall]. split; [by rewrite (Hf x y E)|].
  constructor; [by rewrite E|done].
Qed.
Lemma restored_labels r ls :
  labels_keyed collate D r → scan_all scan_label (map_to_list (rr_labels r)).*2 = Ok ls →
  acc_labels (Restore (mkSnapshot ls [] [])) = labels_view r.
Proof using collate_inj.
  intros Hk Hscan. cbn [Restore acc_labels sn_Labels].
  destruct (scan_all_Ok scan_label (λ row, mkLabelProgress (lbr_label row) (lbr_samples row) (lbr_failed row)
    (default ∅ (lbr_latency row)) (default ∅ (lbr_codes row))) _ _
    ltac:(intros row y; unfold scan_label; case_match; by intros [= <-]) Hscan) as [-> Hin].
  apply fold_insert_map. unfold labels_view, view.
  rewrite map_to_list_to_map by (by apply (view_nodup collate D)). rewrite <- !list_fmap_compose.
  apply Permutation_refl', list_fmap_ext. intros i [w row] Hi%list_elem_of_lookup_2. cbn.
  rewrite Forall_fmap, Forall_forall in Hin. specialize (Hin _ Hi). cbn in Hin. unfold scan_label, i64 in Hin.
  do 2 case_bool_decide; try done. unfold label_val. rewrite !wrap64_small by done. f_equal. f_equal.
  unfold Histogram_Merge. by rewrite add_counts_empty_l.
Qed.
Lemma restored_seconds r :
  seconds_fit r →
  second_counts <$> acc_seconds (Restore (mkSnapshot [] (merge_sort second_le (scan_second <$> map_to_list (rr_seconds r))) [])) =
  second_val <$> rr_seconds r.
Proof using.
  intros Hf. cbn [Restore acc_seconds sn_Seconds].
  rewrite (fold_insert_map _ _ ((λ row, mkSecondState (scr_engine row) (scr_labels row) (scr_latency_sum row)
    (scr_latency_samples row) (default ∅ (scr_label_latency row))) <$> rr_seconds r)).
  - rewrite <- map_fmap_compose. apply map_fmap_ext. intros ts row Hr. destruct (Hf ts row Hr) as (? & ? & ?). cbn.
    unfold second_counts, second_val. cbn. by rewrite !wrap64_small.
  - rewrite merge_sort_Permutation, map_to_list_fmap, <- list_fmap_compose.
    apply Permutation_refl', list_fmap_ext. by intros i [ts row] _.
Qed.
Lemma restored_signatures r es :
  sigs_keyed collate D r → scan_all scan_signature (map_to_list (rr_signatures r)).*2 = Ok es →
  er_Count <$> acc_signatures (Restore (mkSnapshot [] [] es)) = sigs_view r.
Proof using collate_inj.
  intros Hk Hscan. cbn [Restore acc_signatures sn_Signatures].
  set (whole := λ row, mkErrorSignature (sgr_signature row) (sgr_count row) (default [] (sgr_exemplars row))).
  destruct (scan_all_Ok scan_signature whole _ _
    ltac:(intros row y; unfold scan_signature; case_match; by intros [= <-]) Hscan) as [-> Hin].
  rewrite (fold_insert_map er_Signature id (view sgr_signature whole (rr_signatures r))).
  - unfold sigs_view, view. rewrite <- list_to_map_fmap, <- list_fmap_compose. f_equal.
    apply list_fmap_ext. intros i [w row] Hi%list_elem_of_lookup_2. cbn.
    rewrite Forall_fmap, Forall_forall in Hin. specialize (Hin _ Hi). cbn in Hin. unfold scan_signature, i64 in Hin.
    case_bool_decide; [|done]. unfold sig_val. by rewrite wrap64_small.
  - unfold view. rewrite map_to_list_to_map by (by apply (view_nodup (sig_pk collate) (sig_D D))).
    rewrite <- !list_fmap_compose. apply Permutation_refl', list_fmap_ext. by intros i [w row] _.
Qed.

(** The report is built from what is read back, and that is what accumulated. *)
Theorem mysql_snapshot_counts db p runID s :
  related db p → mysql_Snapshot runID db = Ok s → counts (Restore s) = counts (pr_acc (a_run runID p)).
Proof using collate_inj.
  intros Hrel Hs. destruct (Hrel runID) as [[Kf Kl Kg Kh] _ <- _ _]. unfold mysql_Snapshot in Hs.
  destruct (scan_all scan_label _) as [ls|e] eqn:El; [|done]. cbn in Hs.
  destruct (scan_all scan_signature _) as [es|e] eqn:Ee; [|done]. cbn in Hs. injection Hs as <-.
  unfold counts, rows_counts. f_equal.
  - by apply restored_labels.
  - by apply restored_seconds.
  - by apply restored_signatures.
Qed.
(** The rows of the shards are the shards. *)
Theorem mysql_shards db p runID :
  related db p → mysql_ShardStates runID db ≡ₚ shard_state <$> map_to_list (pr_shards (a_run runID p)).
Proof using collate_inj.
  intros Hrel. destruct (Hrel runID) as [[_ _ _ Kh] _ _ <- _]. unfold mysql_ShardStates.
  rewrite merge_sort_Permutation. unfold shards_view, view.
  rewrite map_to_list_to_map by (by apply (view_nodup (shard_pk collate) (shard_D D))).
  rewrite <- !list_fmap_compose. apply Permutation_refl', list_fmap_ext. by intros i [w []] _.
Qed.
(** Discarding a run's working state keeps its series, in both. *)
Theorem mysql_discard_refines db p runID :
  related db p → DiscardErr p = None →
  related (mysql_Discard runID db) (Discard runID p).2 ∧ (Discard runID p).1 = Ok tt.
Proof using.
  intros Hrel Hd. unfold Discard. rewrite Hd. split; [|done]. intros r'. specialize (Hrel r') as Hr.
  unfold rows_of, a_run, a_series, mysql_Discard, DB in *. cbn [snd rp_runs rp_series].
  destruct (decide (runID = r')) as [<-|Hne].
  - rewrite lookup_alter_eq, lookup_delete_eq. cbn [from_option id]. destruct Hr as [_ _ _ _ Hs]. rewrite <- Hs.
    destruct (db !! runID) as [r|]; cbn [fmap option_fmap option_map from_option id];
      destruct related_run_empty as [E1 E2 E3 E4 E5]; by split; [destruct E1; split|..].
  - by rewrite lookup_alter_ne, lookup_delete_ne by done.
Qed.
End refine.

(** ** On concrete batches *)
Definition page_row (seq : Z) (label : string) (rt : float64) : Interval :=
  mkInterval seq 60 label 1 1 1 0 10 {[ rt := 1 ]} {[ "200" := 1 ]} [].
Definition page_batch (rows : list Interval) : ProgressBatch := mkProgressBatch 7 3 0 "eu" "stream" false None rows.
(** Names written in lower case, which a case-insensitive collation keeps apart. *)
Definition lower_case (s : string) : Prop := ToLower s = s.
Lemma lower_case_apart x y : lower_case x → lower_case y → ToLower x = ToLower y → x = y.
Proof. unfold lower_case. congruence. Qed.

Lemma mysql_absorb_refines_witness :
  let b := page_batch [page_row 1 "home" (of_int 1); page_row 2 "cart" (of_int 1)] in
  (mysql_Absorb ToLower b ∅).1 = Ok tt ∧
  match mysql_Absorb ToLower b ∅ with
  | (Ok _, db') => ∃ p', Absorb b NewReportProgress = (Ok tt, p') ∧ related ToLower lower_case db' p'
  | (Err e, db') => db' = ∅ ∧ (Absorb b NewReportProgress = (Err e, NewReportProgress) ∨
                               e = ErrStorage "value out of range for column")
  end.
Proof.
  split; [vm_compute; reflexivity|].
  apply (mysql_absorb_refines ToLower lower_case lower_case_apart).
  - apply related_empty.
  - reflexivity.
  - repeat constructor.
  - reflexivity.
  - repeat constructor; right; (split; [reflexivity|constructor]).
Defined.

(** Two labels that differ in case only share a row: the requests are added up,
    the response times of the first are gone. *)
Theorem case_variants_lose_buckets :
  let b := page_batch [page_row 1 "Home" (of_int 1); page_row 2 "home" fzero] in
  let '(answer, db) := mysql_Absorb ToLower b ∅ in
  answer = Ok tt ∧
  sn_Labels <$> match mysql_Snapshot 7 db with Ok s => Some s | Err _ => None end =
    Some [mkLabelProgress "Home" 2 0 {[ fzero := 1 ]} {[ "200" := 1 ]}].
Proof. vm_compute. split; reflexivity. Qed.
