(* ===== verification/CampaignVerdict.v ===== *)
(** * Campaign verdicts ([internal/app/campaignapp/verdict.go], [comparison.go])

    The go/no-go of a readiness event, the other load that ran beside it, and
    its comparison with an earlier event.  All of it reads the store [s] and
    the stored reports [rs]; [now] is the service's clock. *)
From S2P Require Import Prelude Errors GoFloat Scenario Execution Taurus Reservation Campaign.
From S2P Require Import Report Verdicts Store MetricsApp CampaignApp.
Import Project.

Record ServiceVerdict := mkServiceVerdict {
  sv_ProjectID : Z;
  sv_ExecutionID : Z;
  sv_HasReport : bool;
  sv_Outcome : option Outcome;  (* [None] is the zero value *)
  sv_FailingCriteria : list FailedCriterion;
  sv_ShortOfTargetQPS : bool;
  sv_RequestedThroughput : float64;
  sv_AchievedThroughput : float64
}.
Record OtherLoad := mkOtherLoad {
  ol_ExecutionID : Z; ol_Start : time; ol_End : time; ol_EngineCount : Z
}.
Record CampaignVerdict := mkVerdict {
  cv_CampaignID : Z; cv_Services : list ServiceVerdict; cv_Go : bool; cv_OtherLoad : list OtherLoad
}.

Section campaignapp.
Context (s : Store) (rs : ReportStore).

Definition serviceVerdict (svc : Service) : ServiceVerdict :=
  match ListReports (svc_ExecutionID svc) 1 rs with
  | [] => mkServiceVerdict (svc_ProjectID svc) (svc_ExecutionID svc) false None [] false fzero fzero
  | r :: _ =>
      mkServiceVerdict (svc_ProjectID svc) (svc_ExecutionID svc) true (Some (rep_Outcome r))
        (if bool_decide (rep_Outcome r = OutcomeFailed)
         then EvaluateCriteria r (CriteriaFor (svc_ExecutionID svc) s) else [])
        (ShortOfRequest r) (ld_Throughput (rep_Requested r)) (ld_Throughput (rep_Achieved r))
  end.

(** The condition a service fails the campaign's gate by, negated. *)
Definition go_signal (sv : ServiceVerdict) : bool :=
  sv_HasReport sv && bool_decide (sv_Outcome sv = Some OutcomePassed) && negb (sv_ShortOfTargetQPS sv).

(** The loop over the services, with the verdict so far. *)
Fixpoint verdict_loop (services : list Service) (acc : list ServiceVerdict * bool) :
    result error (list ServiceVerdict * bool) :=
  match services with
  | [] => Ok acc
  | svc :: rest =>
      exe ← GetExecution (svc_ExecutionID svc) s;
      if bool_decide (exe_Kind exe = KindCalibrateEngine) then verdict_loop rest acc
      else
        let sv := serviceVerdict svc in
        let go := if negb (sv_HasReport sv) || negb (bool_decide (sv_Outcome sv = Some OutcomePassed))
                     || sv_ShortOfTargetQPS sv then false else acc.2 in
        verdict_loop rest (acc.1 ++ [sv], go)
  end.

Definition merge_load (m : gmap Z OtherLoad) (ol : OtherLoad) : gmap Z OtherLoad :=
  match m !! ol_ExecutionID ol with
  | None => <[ol_ExecutionID ol := ol]> m
  | Some existing =>
      <[ol_ExecutionID ol := mkOtherLoad (ol_ExecutionID existing)
          (if Before (ol_Start ol) (ol_Start existing) then ol_Start ol else ol_Start existing)
          (if After (ol_End ol) (ol_End existing) then ol_End ol else ol_End existing)
          (if ol_EngineCount existing <? ol_EngineCount ol then ol_EngineCount ol
           else ol_EngineCount existing)]> m
  end.

(** One reservation or one launch, when it counts as other load. *)
Definition reserved_load (designated : gset Z) (r : Reservation) : option OtherLoad :=
  if bool_decide (res_ExecutionID r ∈ designated) then None
  else Some (mkOtherLoad (res_ExecutionID r) (res_Start r) (res_End r) (res_EngineCount r)).
Definition launched_load (designated : gset Z) (tenantID : Z) (l : LaunchRecord) : option OtherLoad :=
  match lr_EndTime l with
  | None => None
  | Some end_ =>
      if bool_decide (lr_ExecutionID l ∈ designated) then None
      else match GetExecution (lr_ExecutionID l) s with
           | Err _ => None
           | Ok exe =>
               match GetProject (exe_ProjectID exe) s with
               | Err _ => None
               | Ok proj =>
                   if bool_decide (prj_TenantID proj = Some tenantID)
                   then Some (mkOtherLoad (lr_ExecutionID l) (lr_StartedTime l) end_ (lr_Engines l))
                   else None
               end
           end
  end.

Definition ol_le (a b : OtherLoad) : Prop := ol_ExecutionID a <= ol_ExecutionID b.
#[global] Instance ol_le_dec a b : Decision (ol_le a b).
Proof. unfold ol_le. apply _. Defined.

Definition otherLoad (c : Campaign) : list OtherLoad :=
  let designated : gset Z := list_to_set (svc_ExecutionID <$> camp_Services c) in
  let '(mkWindow start end_) := camp_Window c in
  let reservations := ReservationsInWindow (camp_TenantID c) "" start end_ (st_ledger s) in
  let launches := LaunchHistory start end_ s in
  let byExecution := fold_left merge_load (omap (reserved_load designated) reservations) ∅ in
  let byExecution :=
    fold_left merge_load (omap (launched_load designated (camp_TenantID c)) launches) byExecution in
  merge_sort ol_le (map_to_list byExecution).*2.

Definition Verdict (campaignID : Z) : result error CampaignVerdict :=
  c ← GetCampaign campaignID (st_campaigns s);
  v ← verdict_loop (camp_Services c) ([], true);
  Ok (mkVerdict campaignID v.1 v.2 (otherLoad c)).

(** ** Comparison *)
Record CampaignComparison := mkCampaignComparison {
  cc_CampaignID : Z; cc_HasBaseline : bool; cc_BaselineCampaignID : Z;
  cc_Services : list ServiceComparison
}.

Definition hasEnded (c : Campaign) (now : time) : bool :=
  bool_decide (is_Some (camp_AbortedAt c)) || negb (Before now (win_End (camp_Window c))).

(** The loop of [resolveDefaultBaseline], with the baseline found so far. *)
Fixpoint baseline_loop (now : time) (c : Campaign) (found : option Campaign) (all : list Campaign) :
    option Campaign :=
  match all with
  | [] => found
  | other :: rest =>
      let start := win_Start (camp_Window other) in
      let found' :=
        if camp_ID other =? camp_ID c then found
        else if negb (hasEnded other now) then found
        else if negb (Before start (win_Start (camp_Window c))) then found
        else match found with
             | None => Some other
             | Some b => if After start (win_Start (camp_Window b)) then Some other else found
             end in
      baseline_loop now c found' rest
  end.
Definition resolveDefaultBaseline (now : time) (c : Campaign) : option Campaign :=
  baseline_loop now c None (ListCampaignsByTenant (camp_TenantID c) (st_campaigns s)).

Definition toSignals (services : list ServiceVerdict) : list ServiceSignal :=
  (λ sv, mkSignal (sv_ProjectID sv) (go_signal sv)) <$> services.

Definition CompareCampaigns (now : time) (campaignID baselineID : Z) :
    result error CampaignComparison :=
  c ← GetCampaign campaignID (st_campaigns s);
  baseline ← (if 0 <? baselineID
              then b ← GetCampaign baselineID (st_campaigns s); Ok (Some b)
              else Ok (resolveDefaultBaseline now c));
  match baseline with
  | None => Ok (mkCampaignComparison campaignID false 0 [])
  | Some b =>
      current ← Verdict campaignID;
      base ← Verdict (camp_ID b);
      Ok (mkCampaignComparison campaignID true (camp_ID b)
            (Compare (toSignals (cv_Services current)) (toSignals (cv_Services base))))
  end.
End campaignapp.

(** ** The latest report of an execution *)
#[global] Instance report_le_trans : Transitive report_le.
Proof. intros a b c. unfold report_le. lia. Qed.
#[global] Instance report_le_total : Total report_le.
Proof. intros a b. unfold report_le. lia. Qed.
#[global] Instance ol_le_trans : Transitive ol_le.
Proof. intros a b c. unfold ol_le. lia. Qed.
#[global] Instance ol_le_total : Total ol_le.
Proof. intros a b. unfold ol_le. lia. Qed.

(** Reports are stored under their run, as [SaveReport] stores them. *)
Definition reports_keyed (rs : ReportStore) : Prop := ∀ k r, reports rs !! k = Some r → rep_RunID r = k.
Definition report_of (e : Z) (rs : ReportStore) (r : Report) : Prop :=
  ∃ k, reports rs !! k = Some r ∧ rep_ExecutionID r = e.
Definition latest_report (e : Z) (rs : ReportStore) (r : Report) : Prop :=
  report_of e rs r ∧ ∀ r', report_of e rs r' → report_le r r'.

Lemma latest_unique e rs r r' :
  reports_keyed rs → latest_report e rs r → latest_report e rs r' → r = r'.
Proof.
  intros Hk [Hr Hle] [Hr' Hle']. pose proof (Hle _ Hr') as H1. pose proof (Hle' _ Hr) as H2.
  destruct Hr as (k & Hr & _), Hr' as (k' & Hr' & _).
  pose proof (Hk _ _ Hr). pose proof (Hk _ _ Hr'). unfold report_le in *.
  assert (k = k') as -> by lia. congruence.
Qed.

Lemma elem_of_reports e rs r :
  r ∈ filter (λ r, rep_ExecutionID r = e) (map_to_list (reports rs)).*2 ↔ report_of e rs r.
Proof.
  unfold report_of. rewrite list_elem_of_filter, list_elem_of_fmap. split.
  - intros (He & [k r'] & -> & Hin%elem_of_map_to_list). eauto.
  - intros (k & Hin%elem_of_map_to_list & He). split; [done|]. by exists (k, r).
Qed.

Lemma ListReports_latest e rs :
  match ListReports e 1 rs with
  | [] => ∀ r, ¬ report_of e rs r
  | r :: _ => latest_report e rs r
  end.
Proof.
  unfold ListReports, trim. set (l := filter _ _).
  assert (StronglySorted report_le (merge_sort report_le l)) as Hs
    by (apply StronglySorted_merge_sort; apply _).
  assert (∀ r, r ∈ merge_sort report_le l ↔ report_of e rs r) as Hin
    by (intros r; rewrite merge_sort_Permutation; apply elem_of_reports).
  destruct (merge_sort report_le l) as [|r sorted].
  - cbn. intros r Hr%Hin. by apply elem_of_nil in Hr.
  - assert (latest_report e rs r) as Hr.
    { split; [apply Hin; left|]. intros r' [->|Hr']%Hin%elem_of_cons; [unfold report_le; lia|].
      apply StronglySorted_inv in Hs as [_ Hs]. rewrite Forall_forall in Hs. auto. }
    destruct (_ && _); done.
Qed.

(** ** The verdict *)
Section verdict.
Context (s : Store) (rs : ReportStore).

(** Services whose execution measures the target: calibrations are left out. *)
Definition measures (svc : Service) : Prop :=
  ∃ exe, executions (st_catalog s) !! svc_ExecutionID svc = Some exe ∧ exe_Kind exe ≠ KindCalibrateEngine.
#[global] Instance measures_dec svc : Decision (measures svc).
Proof.
  unfold measures. destruct (executions _ !! _) as [exe|].
  - destruct (decide (exe_Kind exe = KindCalibrateEngine)); [right|left]; naive_solver.
  - right. naive_solver.
Defined.
Definition exists_in (svc : Service) : Prop :=
  is_Some (executions (st_catalog s) !! svc_ExecutionID svc).

Lemma go_signal_andb sv (acc : bool) :
  (if negb (sv_HasReport sv) || negb (bool_decide (sv_Outcome sv = Some OutcomePassed))
      || sv_ShortOfTargetQPS sv then false else acc) = acc && go_signal sv.
Proof.
  unfold go_signal. destruct (sv_HasReport sv), (bool_decide _), (sv_ShortOfTargetQPS sv), acc; done.
Qed.

Lemma verdict_loop_spec services acc :
  (Forall exists_in services →
   verdict_loop s rs services acc =
     Ok (acc.1 ++ (serviceVerdict s rs <$> filter measures services),
         acc.2 && forallb (go_signal ∘ serviceVerdict s rs) (filter measures services))) ∧
  (¬ Forall exists_in services → verdict_loop s rs services acc = Err ErrNotFound).
Proof.
  revert acc. induction services as [|svc services IH]; intros [svs go]; cbn [verdict_loop].
  { rewrite app_nil_r, andb_true_r. split; [done|]. intros []. constructor. }
  rewrite Forall_cons. unfold exists_in at 1 3, mbind, result_bind, GetExecution.
  destruct (executions _ !! _) as [exe|] eqn:He; [|split; [by intros [[] _]|done]].
  rewrite filter_cons. destruct (bool_decide_reflect (exe_Kind exe = KindCalibrateEngine)) as [Hk|Hk].
  - rewrite decide_False by (intros (? & ? & ?); congruence). destruct (IH (svs, go)) as [IH1 IH2].
    split; [intros [_ H]; by apply IH1|]. intros H. apply IH2. intros Hf. apply H. eauto.
  - rewrite decide_True by (exists exe; eauto). cbv zeta. cbn [fst snd]. rewrite go_signal_andb.
    destruct (IH (svs ++ [serviceVerdict s rs svc], go && go_signal (serviceVerdict s rs svc)))
      as [IH1 IH2]. split.
    + intros [_ H]. rewrite IH1 by done. cbn. by rewrite <-app_assoc, andb_assoc.
    + intros H. apply IH2. intros Hf. apply H. eauto.
Qed.

(** What a service's line says. *)
Definition verdict_of (svc : Service) (sv : ServiceVerdict) : Prop :=
  sv_ProjectID sv = svc_ProjectID svc ∧ sv_ExecutionID sv = svc_ExecutionID svc ∧
  if sv_HasReport sv then
    ∃ r, latest_report (svc_ExecutionID svc) rs r ∧ sv_Outcome sv = Some (rep_Outcome r) ∧
      sv_ShortOfTargetQPS sv = ShortOfRequest r ∧
      sv_FailingCriteria sv =
        (if decide (rep_Outcome r = OutcomeFailed)
         then EvaluateCriteria r (CriteriaFor (svc_ExecutionID svc) s) else [])
  else ∀ r, ¬ report_of (svc_ExecutionID svc) rs r.

Lemma serviceVerdict_of svc : verdict_of svc (serviceVerdict s rs svc).
Proof.
  unfold verdict_of, serviceVerdict. pose proof (ListReports_latest (svc_ExecutionID svc) rs) as H.
  destruct (ListReports _ _ _) as [|r l]; cbn; [done|]. split; [done|]. split; [done|].
  exists r. split; [done|]. split; [done|]. split; [done|].
  destruct (bool_decide_reflect (rep_Outcome r = OutcomeFailed)); by case_decide.
Qed.

(** A service is ready when its latest report passed under the load it was
    meant to carry. *)
Definition ready (svc : Service) : Prop :=
  ∃ r, latest_report (svc_ExecutionID svc) rs r ∧ rep_Outcome r = OutcomePassed ∧
    ShortOfRequest r = false.

Lemma go_signal_ready svc :
  reports_keyed rs → go_signal (serviceVerdict s rs svc) = true ↔ ready svc.
Proof.
  intros Hk. unfold go_signal, serviceVerdict, ready.
  pose proof (ListReports_latest (svc_ExecutionID svc) rs) as H.
  destruct (ListReports _ _ _) as [|r l]; cbn.
  - split; [done|]. intros (r & [Hr _] & _). by destruct (H r).
  - rewrite andb_true_iff, negb_true_iff, bool_decide_eq_true. split.
    + intros [[= Ho] Hs]. by exists r.
    + intros (r' & Hr' & Ho & Hs). assert (r = r') as -> by (by eapply latest_unique).
      split; [by f_equal|done].
Qed.

Lemma forallb_ready l :
  reports_keyed rs →
  forallb (go_signal ∘ serviceVerdict s rs) l = true ↔ ∀ svc, svc ∈ l → ready svc.
Proof.
  intros Hk. rewrite forallb_forall. split; intros H svc Hin.
  - apply go_signal_ready; [done|]. apply H. by apply list_elem_of_In.
  - apply go_signal_ready; [done|]. apply H. by apply list_elem_of_In.
Qed.

(** C37. A campaign's verdict exists exactly when the campaign and every execution
    it designates do.  It has one line per service, in order, that measures the
    target, which says what the latest report of the designated execution says;
    and it is a go exactly when for each of those services the latest report
    exists, passed, and was not short of the requested rate. *)
Theorem campaign_verdict_exact id :
  reports_keyed rs →
  ((∃ v, Verdict s rs id = Ok v) ↔
   ∃ c, campaigns (st_campaigns s) !! id = Some c ∧ Forall exists_in (camp_Services c)) ∧
  ∀ v, Verdict s rs id = Ok v →
    ∃ c, campaigns (st_campaigns s) !! id = Some c ∧
      Forall2 verdict_of (filter measures (camp_Services c)) (cv_Services v) ∧
      (cv_Go v = true ↔ ∀ svc, svc ∈ camp_Services c → measures svc → ready svc).
Proof.
  intros Hk. unfold Verdict, GetCampaign, mbind, result_bind.
  destruct (campaigns _ !! id) as [c|]; [|split; [split; [by intros []|naive_solver]|done]].
  destruct (verdict_loop_spec (camp_Services c) ([], true)) as [H1 H2].
  destruct (decide (Forall exists_in (camp_Services c))) as [Hf|Hf].
  - rewrite H1 by done. split; [split; eauto|]. intros v [= <-]. exists c. split; [done|]. cbn.
    split.
    + apply Forall2_fmap_r, Forall_Forall2_diag, Forall_forall. intros. apply serviceVerdict_of.
    + rewrite forallb_ready by done. setoid_rewrite list_elem_of_filter. naive_solver.
  - rewrite H2 by done. split; [split; [by intros []|naive_solver]|done].
Qed.
End verdict.

(** ** The other load *)

(** [ol] is the smallest span, with the largest engine count, over [l]. *)
Definition hull (l : list OtherLoad) (ol : OtherLoad) : Prop :=
  (∃ i, i ∈ l ∧ ol_Start i = ol_Start ol) ∧ (∃ i, i ∈ l ∧ ol_End i = ol_End ol) ∧
  (∃ i, i ∈ l ∧ ol_EngineCount i = ol_EngineCount ol) ∧
  ∀ i, i ∈ l → ol_Start ol <= ol_Start i ∧ ol_End i <= ol_End ol ∧
               ol_EngineCount i <= ol_EngineCount ol.

Lemma hull_merge l existing ol :
  hull l existing →
  hull (l ++ [ol]) (mkOtherLoad (ol_ExecutionID existing)
    (if Before (ol_Start ol) (ol_Start existing) then ol_Start ol else ol_Start existing)
    (if After (ol_End ol) (ol_End existing) then ol_End ol else ol_End existing)
    (if ol_EngineCount existing <? ol_EngineCount ol then ol_EngineCount ol
     else ol_EngineCount existing)).
Proof.
  intros (Hs & He & Hc & Hall). unfold hull, Before, After. cbn. setoid_rewrite elem_of_app.
  setoid_rewrite list_elem_of_singleton.
  destruct (bool_decide_reflect (ol_Start ol < ol_Start existing)),
    (bool_decide_reflect (ol_End existing < ol_End ol)),
    (Z.ltb_spec (ol_EngineCount existing) (ol_EngineCount ol));
    (split; [naive_solver|]; split; [naive_solver|]; split; [naive_solver|]);
    (intros i [Hi%Hall| ->]; lia).
Qed.

Definition same_execution (e : Z) (i : OtherLoad) : Prop := ol_ExecutionID i = e.
#[global] Instance same_execution_dec e i : Decision (same_execution e i).
Proof. unfold same_execution. apply _. Defined.

Lemma merge_loads_spec items e :
  match fold_left merge_load items ∅ !! e with
  | None => filter (same_execution e) items = []
  | Some ol => ol_ExecutionID ol = e ∧ hull (filter (same_execution e) items) ol
  end.
Proof.
  induction items as [|x items IH] using rev_ind; [cbn [fold_left]; by rewrite lookup_empty|].
  rewrite fold_left_app, filter_app, filter_cons, filter_nil. cbn [fold_left].
  unfold merge_load at 1. set (m := fold_left merge_load items ∅) in *.
  destruct (decide (same_execution e x)) as [<-|Hne].
  - destruct (m !! ol_ExecutionID x) as [ex|]; rewrite lookup_insert_eq.
    + destruct IH as [He Hh]. split; [done|]. by apply hull_merge.
    + rewrite IH. split; [done|]. unfold hull. setoid_rewrite list_elem_of_singleton.
      repeat split; naive_solver lia.
  - rewrite app_nil_r. destruct (m !! ol_ExecutionID x);
      rewrite lookup_insert_ne by (unfold same_execution in Hne; congruence); exact IH.
Qed.

(** The activity of an execution beside the campaign [c]. *)
Inductive activity (s : Store) (c : Campaign) : OtherLoad → Prop :=
| reserved_activity r :
    r ∈ rows (st_ledger s) → res_TenantID r = camp_TenantID c → res_Cluster r = "" →
    win_Start (camp_Window c) < res_End r → res_Start r < win_End (camp_Window c) →
    res_ExecutionID r ∉ svc_ExecutionID <$> camp_Services c →
    activity s c (mkOtherLoad (res_ExecutionID r) (res_Start r) (res_End r) (res_EngineCount r))
| launched_activity l end_ exe proj :
    l ∈ launchHistory (st_launches s) → lr_EndTime l = Some end_ →
    win_Start (camp_Window c) <= lr_StartedTime l → end_ <= win_End (camp_Window c) →
    lr_ExecutionID l ∉ svc_ExecutionID <$> camp_Services c →
    executions (st_catalog s) !! lr_ExecutionID l = Some exe →
    projects (st_catalog s) !! exe_ProjectID exe = Some proj →
    prj_TenantID proj = Some (camp_TenantID c) →
    activity s c (mkOtherLoad (lr_ExecutionID l) (lr_StartedTime l) end_ (lr_Engines l)).

Lemma elem_of_reserved s c i :
  i ∈ omap (reserved_load (list_to_set (svc_ExecutionID <$> camp_Services c)))
        (ReservationsInWindow (camp_TenantID c) "" (win_Start (camp_Window c))
           (win_End (camp_Window c)) (st_ledger s)) → activity s c i.
Proof.
  intros (r & Hin & Hr)%list_elem_of_omap. apply elem_of_in_window in Hin as (?&?&?&?&?).
  unfold reserved_load in Hr. case_bool_decide as Hd; [done|]. injection Hr as <-.
  rewrite elem_of_list_to_set in Hd. by constructor.
Qed.

Lemma elem_of_launched s c i :
  i ∈ omap (launched_load s (list_to_set (svc_ExecutionID <$> camp_Services c)) (camp_TenantID c))
        (LaunchHistory (win_Start (camp_Window c)) (win_End (camp_Window c)) s) → activity s c i.
Proof.
  intros (l & Hin & Hl)%list_elem_of_omap. unfold LaunchHistory in Hin.
  apply list_elem_of_filter in Hin as [Hw Hin]. unfold launched_load in Hl.
  destruct (lr_EndTime l) as [end_|] eqn:Hend; [|done]. case_bool_decide as Hd; [done|].
  unfold GetExecution, GetProject in Hl.
  destruct (executions _ !! _) as [exe|] eqn:He; [|done].
  destruct (projects _ !! _) as [proj|] eqn:Hp; [|done].
  case_bool_decide as Ht; [|done]. injection Hl as <-.
  rewrite negb_true_iff, orb_false_iff in Hw. unfold Before, After in Hw.
  rewrite !bool_decide_eq_false in Hw. rewrite elem_of_list_to_set in Hd.
  econstructor; eauto; lia.
Qed.

Definition loads (s : Store) (c : Campaign) : list OtherLoad :=
  let designated : gset Z := list_to_set (svc_ExecutionID <$> camp_Services c) in
  omap (reserved_load designated)
    (ReservationsInWindow (camp_TenantID c) "" (win_Start (camp_Window c))
       (win_End (camp_Window c)) (st_ledger s)) ++
  omap (launched_load s designated (camp_TenantID c))
    (LaunchHistory (win_Start (camp_Window c)) (win_End (camp_Window c)) s).

Lemma elem_of_loads s c i : i ∈ loads s c ↔ activity s c i.
Proof.
  unfold loads. rewrite elem_of_app. split.
  - intros [?%elem_of_reserved|?%elem_of_launched]; done.
  - intros [r Hr Ht Hc H1 H2 Hd|l end_ exe proj Hl Hend H1 H2 Hd He Hp Ht].
    + left. apply list_elem_of_omap. exists r. split; [by apply elem_of_in_window|].
      unfold reserved_load. by rewrite bool_decide_eq_false_2 by (by rewrite elem_of_list_to_set).
    + right. apply list_elem_of_omap. exists l. split.
      * unfold LaunchHistory. apply list_elem_of_filter. split; [|done]. rewrite Hend.
        unfold Before, After. rewrite !bool_decide_eq_false_2 by lia. done.
      * unfold launched_load, GetExecution, GetProject. rewrite Hend, He, Hp.
        rewrite bool_decide_eq_false_2 by (by rewrite elem_of_list_to_set).
        by rewrite bool_decide_eq_true_2.
Qed.

Lemma otherLoad_loads s c :
  otherLoad s c = merge_sort ol_le (map_to_list (fold_left merge_load (loads s c) ∅)).*2.
Proof. unfold otherLoad, loads. destruct (camp_Window c). by rewrite fold_left_app. Qed.

Lemma elem_of_otherLoad s c ol :
  ol ∈ otherLoad s c ↔ fold_left merge_load (loads s c) ∅ !! ol_ExecutionID ol = Some ol.
Proof.
  rewrite otherLoad_loads, merge_sort_Permutation, list_elem_of_fmap. split.
  - intros ([k o] & -> & Hin%elem_of_map_to_list). cbn.
    pose proof (merge_loads_spec (loads s c) k) as H. rewrite Hin in H. destruct H as [<- _]. done.
  - intros H. exists (ol_ExecutionID ol, ol). split; [done|]. by apply elem_of_map_to_list.
Qed.

Lemma otherLoad_sorted s c : StronglySorted (<) (ol_ExecutionID <$> otherLoad s c).
Proof.
  assert (NoDup (ol_ExecutionID <$> otherLoad s c)) as Hnd.
  { rewrite otherLoad_loads, merge_sort_Permutation, <-list_fmap_compose.
    set (m := fold_left merge_load (loads s c) ∅).
    erewrite list_fmap_ext; [apply (NoDup_fst_map_to_list m)|].
    intros j [k o] Hin%list_elem_of_lookup_2%elem_of_map_to_list. cbn.
    pose proof (merge_loads_spec (loads s c) k) as H. fold m in H. rewrite Hin in H. by destruct H. }
  assert (StronglySorted ol_le (otherLoad s c)) as Hs
    by (rewrite otherLoad_loads; apply StronglySorted_merge_sort; apply _).
  induction Hs as [|x l Hs IH Hx]; cbn; constructor.
  - apply IH. by apply NoDup_cons in Hnd as [_ ?].
  - apply NoDup_cons in Hnd as [Hni _]. rewrite Forall_forall in Hx.
    apply Forall_fmap, Forall_forall. intros y Hy. specialize (Hx y Hy). unfold ol_le in Hx. cbn.
    enough (ol_ExecutionID x ≠ ol_ExecutionID y) by lia. intros Heq. apply Hni. rewrite Heq.
    by apply list_elem_of_fmap_2.
Qed.

(** The other load of a campaign is exact: one line per execution, in strictly
    increasing order, for exactly the executions, other than the designated
    ones, that have a reservation of the campaign's tenant on the home cluster
    overlapping the window, or a finished launch inside the window for a
    project of that tenant; a line spans all of that activity and no more, with
    the largest engine count of any. *)
Theorem other_load_exact s c :
  StronglySorted (<) (ol_ExecutionID <$> otherLoad s c) ∧
  (∀ e, (∃ ol, ol ∈ otherLoad s c ∧ ol_ExecutionID ol = e) ↔
        (∃ i, activity s c i ∧ ol_ExecutionID i = e)) ∧
  ∀ ol, ol ∈ otherLoad s c →
    ∃ l, hull l ol ∧ ∀ i, i ∈ l ↔ activity s c i ∧ ol_ExecutionID i = ol_ExecutionID ol.
Proof.
  split; [apply otherLoad_sorted|]. split.
  - intros e. setoid_rewrite <-elem_of_loads. pose proof (merge_loads_spec (loads s c) e) as H.
    split.
    + intros (ol & Hol%elem_of_otherLoad & <-). rewrite Hol in H.
      destruct H as [_ ((i & [Hi Hin]%list_elem_of_filter & _) & _)]. eauto.
    + intros (i & Hi & <-). destruct (_ !! _) as [ol|] eqn:Hl.
      * destruct H as [He _]. exists ol. split; [|done]. apply elem_of_otherLoad. by rewrite He.
      * assert (i ∈ filter (same_execution (ol_ExecutionID i)) (loads s c)) as Hin
          by (by apply list_elem_of_filter). rewrite H in Hin. by apply elem_of_nil in Hin.
  - intros ol Hol%elem_of_otherLoad. pose proof (merge_loads_spec (loads s c) (ol_ExecutionID ol)) as H.
    rewrite Hol in H. destruct H as [_ Hh]. eexists. split; [done|]. intros i.
    rewrite list_elem_of_filter, elem_of_loads. unfold same_execution. naive_solver.
Qed.

(** ** The comparison with an earlier campaign *)

(** A campaign [c] can be compared with: of its tenant, over, and begun earlier. *)
Definition earlier (s : Store) (now : time) (c o : Campaign) : Prop :=
  (∃ k, campaigns (st_campaigns s) !! k = Some o) ∧ camp_TenantID o = camp_TenantID c ∧
  camp_ID o ≠ camp_ID c ∧ hasEnded o now = true ∧
  win_Start (camp_Window o) < win_Start (camp_Window c).
Definition begins (c : Campaign) : time := win_Start (camp_Window c).

Definition candidate (now : time) (c o : Campaign) : Prop :=
  camp_ID o ≠ camp_ID c ∧ hasEnded o now = true ∧ begins o < begins c.
#[global] Instance candidate_dec now c o : Decision (candidate now c o).
Proof. unfold candidate. apply _. Defined.

Lemma baseline_step now c found o :
  (if camp_ID o =? camp_ID c then found
   else if negb (hasEnded o now) then found
   else if negb (Before (begins o) (begins c)) then found
   else match found with
        | None => Some o
        | Some b => if After (begins o) (begins b) then Some o else found
        end) =
  if decide (candidate now c o)
  then match found with
       | Some b => if decide (begins b < begins o) then Some o else found
       | None => Some o
       end
  else found.
Proof.
  unfold Before, After. destruct (decide (candidate now c o)) as [(Hid & He & Hb)|Hn].
  - destruct (Z.eqb_spec (camp_ID o) (camp_ID c)); [done|]. rewrite He, (bool_decide_eq_true_2 _ Hb).
    cbn. destruct found as [b|]; [|done].
    by destruct (bool_decide_reflect (begins b < begins o)); case_decide.
  - destruct (Z.eqb_spec (camp_ID o) (camp_ID c)); [done|].
    destruct (hasEnded o now) eqn:He; [|done].
    by rewrite (bool_decide_eq_false_2 (begins o < begins c)) by (by intros ?; apply Hn).
Qed.

Lemma baseline_loop_spec now c found all :
  match baseline_loop now c found all with
  | None => found = None ∧ ∀ o, o ∈ all → ¬ candidate now c o
  | Some b => (found = Some b ∨ b ∈ all ∧ candidate now c b) ∧
      (∀ f, found = Some f → begins f <= begins b) ∧
      ∀ o, o ∈ all → candidate now c o → begins o <= begins b
  end.
Proof.
  revert found. induction all as [|o all IH]; intros found; cbn [baseline_loop].
  { destruct found as [b|]; [|split; [done|]; by intros ? ?%elem_of_nil].
    split; [by left|]. split; [naive_solver lia|]. by intros ? ?%elem_of_nil. }
  cbv zeta. fold (begins o) (begins c). rewrite baseline_step.
  set (found' := if decide _ then _ else _). specialize (IH found').
  destruct (baseline_loop now c found' all) as [b|].
  - destruct IH as (Hb & Hf & Hall). setoid_rewrite elem_of_cons. subst found'.
    destruct (decide (candidate now c o)) as [Hc|Hc]; [|naive_solver].
    destruct found as [f|]; [destruct (decide (begins f < begins o))|];
      (split; [naive_solver|]; split; [intros f' [= <-] || done|]);
      try (intros o' [->|?] ?); try (by eauto);
      try (specialize (Hf _ eq_refl); lia).
  - destruct IH as [Hn Hall]. subst found'. destruct (decide (candidate now c o)) as [Hc|Hc].
    { destruct found as [f|]; [case_decide|]; done. }
    split; [done|]. intros o' [->|?]%elem_of_cons; auto.
Qed.

(** The default baseline is the campaign of the tenant that began last among
    those that are over and began before the campaign; there is none only when
    no campaign qualifies. *)
Theorem default_baseline_exact s now c :
  match resolveDefaultBaseline s now c with
  | None => ∀ o, ¬ earlier s now c o
  | Some b => earlier s now c b ∧ ∀ o, earlier s now c o → begins o <= begins b
  end.
Proof.
  unfold resolveDefaultBaseline.
  pose proof (baseline_loop_spec now c None
    (ListCampaignsByTenant (camp_TenantID c) (st_campaigns s))) as H.
  assert (∀ o, o ∈ ListCampaignsByTenant (camp_TenantID c) (st_campaigns s) ∧ candidate now c o ↔
    earlier s now c o) as He.
  { intros o. unfold ListCampaignsByTenant, earlier, candidate, begins.
    rewrite merge_sort_Permutation, list_elem_of_filter, elem_of_all_campaigns. naive_solver. }
  destruct (baseline_loop _ _ _ _) as [b|]; setoid_rewrite <-He; naive_solver.
Qed.

Lemma signal_map_lookup l p g :
  NoDup (sig_ProjectID <$> l) → signal_map l !! p = Some g ↔ mkSignal p g ∈ l.
Proof.
  induction l as [|[q h] l IH] using rev_ind; intros Hnd.
  { unfold signal_map. cbn. rewrite lookup_empty. split; [done|]. by intros ?%elem_of_nil. }
  rewrite fmap_app in Hnd. apply NoDup_app in Hnd as (Hnd & Hni & _).
  unfold signal_map. rewrite fold_left_app. fold (signal_map l). cbn.
  rewrite elem_of_app, list_elem_of_singleton, lookup_insert_Some, IH by done.
  split; [naive_solver|]. intros [Hin|[= -> ->]]; [|by left]. right. split; [|done].
  intros ->. apply (Hni p); [|left]. by apply (list_elem_of_fmap_2 sig_ProjectID _ (mkSignal p g)).
Qed.

Section comparison.
Context (s : Store) (rs : ReportStore).

Definition takes_part (c : Campaign) (p : Z) : Prop :=
  ∃ svc, svc ∈ camp_Services c ∧ svc_ProjectID svc = p ∧ measures s svc.
Definition ready_in (c : Campaign) (p : Z) : Prop :=
  ∃ svc, svc ∈ camp_Services c ∧ svc_ProjectID svc = p ∧ measures s svc ∧ ready rs svc.

Definition signals_of (c : Campaign) : list ServiceSignal :=
  toSignals (serviceVerdict s rs <$> filter (measures s) (camp_Services c)).

Lemma verdict_signals id v :
  Verdict s rs id = Ok v →
  ∃ c, campaigns (st_campaigns s) !! id = Some c ∧ toSignals (cv_Services v) = signals_of c.
Proof.
  unfold Verdict, GetCampaign, mbind, result_bind. destruct (campaigns _ !! id) as [c|]; [|done].
  destruct (verdict_loop_spec s rs (camp_Services c) ([], true)) as [H1 H2].
  destruct (decide (Forall (exists_in s) (camp_Services c))); [|by rewrite H2].
  rewrite H1 by done. intros [= <-]. by exists c.
Qed.

Lemma serviceVerdict_project svc : sv_ProjectID (serviceVerdict s rs svc) = svc_ProjectID svc.
Proof. by destruct (serviceVerdict_of s rs svc). Qed.

Lemma elem_of_signals c p g :
  mkSignal p g ∈ signals_of c ↔
  ∃ svc, svc ∈ camp_Services c ∧ svc_ProjectID svc = p ∧ measures s svc ∧
         go_signal (serviceVerdict s rs svc) = g.
Proof.
  unfold signals_of, toSignals. rewrite <-list_fmap_compose, list_elem_of_fmap.
  setoid_rewrite list_elem_of_filter. cbn. setoid_rewrite serviceVerdict_project. split.
  - intros (svc & [= -> ->] & ? & ?). eauto.
  - intros (svc & ? & <- & ? & <-). eauto.
Qed.

Lemma signals_NoDup c : NoDup (svc_ProjectID <$> camp_Services c) → NoDup (sig_ProjectID <$> signals_of c).
Proof.
  intros Hnd. unfold signals_of, toSignals. rewrite <-!list_fmap_compose.
  erewrite (list_fmap_ext _ svc_ProjectID) by (intros; cbn; apply serviceVerdict_project).
  eapply sublist_NoDup; [exact Hnd|]. apply fmap_sublist, sublist_filter.
Qed.

Lemma signals_has c p :
  NoDup (svc_ProjectID <$> camp_Services c) →
  has (signal_map (signals_of c)) p = true ↔ takes_part c p.
Proof.
  intros Hnd%signals_NoDup. unfold has, is_Some, takes_part. rewrite bool_decide_eq_true.
  setoid_rewrite signal_map_lookup; [|done..]. setoid_rewrite elem_of_signals. naive_solver.
Qed.

Lemma signals_go c p :
  reports_keyed rs → NoDup (svc_ProjectID <$> camp_Services c) →
  go_of (signal_map (signals_of c)) p = true ↔ ready_in c p.
Proof.
  intros Hk Hnd%signals_NoDup. unfold go_of, ready_in. pose proof (signal_map_lookup _ p true Hnd) as H.
  rewrite elem_of_signals in H. setoid_rewrite go_signal_ready in H; [|done].
  rewrite <-H. destruct (signal_map _ !! p) as [[]|]; naive_solver.
Qed.

(** A comparison of two campaigns is made against the baseline asked for, or
    else against the tenant's latest earlier campaign.  It has one line, in
    increasing order, per project that takes part in either; the line says
    whether the project's designated execution is ready now and was ready then,
    and its status follows from those. *)
Theorem comparison_exact now id bid cc :
  campaigns_ok (st_campaigns s) → reports_keyed rs →
  CompareCampaigns s rs now id bid = Ok cc → cc_HasBaseline cc = true →
  ∃ c b, campaigns (st_campaigns s) !! id = Some c ∧
    campaigns (st_campaigns s) !! cc_BaselineCampaignID cc = Some b ∧
    (if decide (0 < bid) then cc_BaselineCampaignID cc = bid
     else earlier s now c b ∧ ∀ o, earlier s now c o → begins o <= begins b) ∧
    StronglySorted (<) (cmp_ProjectID <$> cc_Services cc) ∧
    (∀ p, p ∈ cmp_ProjectID <$> cc_Services cc ↔ takes_part c p ∨ takes_part b p) ∧
    ∀ row, row ∈ cc_Services cc → let p := cmp_ProjectID row in
      (cmp_HasCurrent row = true ↔ takes_part c p) ∧ (cmp_Go row = true ↔ ready_in c p) ∧
      (cmp_HasBaseline row = true ↔ takes_part b p) ∧ (cmp_BaselineGo row = true ↔ ready_in b p) ∧
      cmp_Status row = classify (cmp_HasCurrent row) (cmp_Go row) (cmp_HasBaseline row)
                         (cmp_BaselineGo row).
Proof.
  intros Hok Hk. unfold CompareCampaigns, mbind, result_bind.
  destruct (GetCampaign id _) as [c|] eqn:Hc; [|done].
  assert (∀ k c, campaigns (st_campaigns s) !! k = Some c → NoDup (svc_ProjectID <$> camp_Services c)) as Hnd.
  { intros k c' Hc'. destruct (Hok _ _ Hc') as (_ & _ & Hv).
    by apply Campaign_Validate_ok in Hv as (_ & _ & _ & _ & ?). }
  set (bl := if 0 <? bid then _ else _).
  assert (∀ b, bl = Ok (Some b) → campaigns (st_campaigns s) !! camp_ID b = Some b ∧
    if decide (0 < bid) then camp_ID b = bid
    else earlier s now c b ∧ ∀ o, earlier s now c o → begins o <= begins b) as Hbl.
  { intros b. unfold bl. destruct (Z.ltb_spec 0 bid); case_decide; try lia.
    - unfold GetCampaign. destruct (campaigns _ !! bid) as [b'|] eqn:Hb'; [|done]. intros [= <-].
      destruct (Hok _ _ Hb') as (Hid & _). by rewrite Hid.
    - intros [= Hb]. pose proof (default_baseline_exact s now c) as Hd. rewrite Hb in Hd.
      destruct Hd as [He Hmax]. pose proof He as ((k & Hk') & _).
      destruct (Hok _ _ Hk') as (Hid & _). by rewrite Hid. }
  destruct bl as [[b|]|]; [|intros [= <-]; done|done]. destruct (Hbl b eq_refl) as [Hb Hsel].
  destruct (Verdict s rs id) as [v|] eqn:Hv; [|done].
  destruct (Verdict s rs (camp_ID b)) as [v'|] eqn:Hv'; [|done]. intros [= <-] _. cbn.
  apply verdict_signals in Hv as (c0 & Hc0 & ->), Hv' as (b0 & Hb0 & ->).
  unfold GetCampaign in Hc. rewrite Hc0 in Hc. injection Hc as ->.
  rewrite Hb in Hb0. injection Hb0 as <-. exists c, b. split; [done|]. split; [done|].
  split; [done|]. split; [apply Compare_sorted|]. split.
  - intros p. rewrite Compare_ids, merge_sort_Permutation, elem_of_elements, elem_of_union.
    rewrite <-!signals_has by eauto. unfold has. by rewrite !bool_decide_eq_true, !elem_of_dom.
  - unfold Compare. intros row (p & -> & _)%list_elem_of_fmap. cbn.
    rewrite !signals_has, !signals_go by eauto. done.
Qed.
End comparison.

(** ** Examples *)
Definition v_report (e run : Z) (start : time) (o : Outcome) : Report :=
  mkReport e 1 run "jmeter" "" "" start (start + 1) o (mkLoad 1 fzero 0 [] 0 0) (mkLoad 1 fzero 0 [] 0 0)
    fzero ∅ (mkAttribution 0 0 0) [] [] [] None false "".
Definition v_launch (e : Z) (from to : time) : LaunchRecord := mkLaunch e "default" "o" 2 4 from (Some to).
Definition v_project : Project := mkProject 3 "p" "o" "" (Some 1) "" "" 0.

(** A finished campaign and the next one of the same tenant; execution 9 of
    the same project runs beside them, once across the start of the window. *)
Definition v_campaigns : CampaignTable :=
  (CreateCampaign (mkCampaign 0 "next" 1 (mkWindow 30 40) [mkService 3 7] None)
     (CreateCampaign (mkCampaign 0 "launch" 1 (mkWindow 10 20) [mkService 3 7] None)
        (mkCampaignTable 0 ∅)).2).2.
Definition v_store : Store :=
  set_launches (mkLaunches "default" ∅ [v_launch 9 31 35; v_launch 9 33 38; v_launch 8 28 39])
    (set_campaigns v_campaigns
       (set_catalog (put_projects 3 {[ 3 := v_project ]}
          (put_executions 9 {[ 7 := exe_of 7 3; 8 := exe_of 8 3; 9 := exe_of 9 3 ]} empty_catalog))
          NewStore)).
Definition v_reports : ReportStore :=
  mkReportStore {[ 1 := v_report 7 1 12 OutcomePassed; 2 := v_report 7 2 33 OutcomeFailed ]} None None.

Lemma v_campaigns_ok : campaigns_ok v_campaigns.
Proof.
  apply campaigns_ok_create; [apply campaigns_ok_create|]; [|vm_compute; reflexivity..].
  intros id c; simpl; by rewrite lookup_empty.
Qed.
Lemma v_reports_keyed : reports_keyed v_reports.
Proof.
  intros k r. unfold v_reports. cbn. rewrite lookup_insert_Some, lookup_singleton_Some. naive_solver.
Qed.

Lemma campaign_verdict_exact_witness :
  ∃ v c, Verdict v_store v_reports 2 = Ok v ∧ cv_Go v = false ∧
    campaigns (st_campaigns v_store) !! 2 = Some c ∧
    ¬ ∀ svc, svc ∈ camp_Services c → measures v_store svc → ready v_reports svc.
Proof.
  destruct (campaign_verdict_exact v_store v_reports 2 v_reports_keyed) as [_ H].
  assert (∃ v, Verdict v_store v_reports 2 = Ok v ∧ cv_Go v = false) as (v & Hv & Hgo)
    by (eexists; split; [vm_compute; reflexivity|reflexivity]).
  destruct (H v Hv) as (c & Hc & _ & Hiff). exists v, c. split; [done|]. split; [done|]. split; [done|].
  intros Hall%Hiff. congruence.
Defined.

Lemma comparison_exact_witness :
  ∃ cc, CompareCampaigns v_store v_reports 50 2 0 = Ok cc ∧ cc_HasBaseline cc = true ∧
    cc_BaselineCampaignID cc = 1 ∧ StronglySorted (<) (cmp_ProjectID <$> cc_Services cc).
Proof.
  assert (∃ cc, CompareCampaigns v_store v_reports 50 2 0 = Ok cc ∧ cc_HasBaseline cc = true ∧
    cc_BaselineCampaignID cc = 1) as (cc & Hcc & Hb & H1)
    by (eexists; split; [vm_compute; reflexivity|done]).
  destruct (comparison_exact v_store v_reports 50 2 0 cc v_campaigns_ok v_reports_keyed Hcc Hb)
    as (c & b & _ & _ & _ & Hs & _). eauto.
Defined.

(** A launch that overlaps the window but is not inside it is not reported:
    execution 8 ran beside the campaign and has no line. *)
Example straddling_launch_unreported :
  match GetCampaign 2 (st_campaigns v_store) with
  | Ok c => (ol_ExecutionID <$> otherLoad v_store c) = [9]
  | Err _ => False
  end.
Proof. vm_compute. reflexivity. Qed.

(** A campaign that designates nothing but calibrations is a go. *)
Example calibrations_alone_go :
  let calib := mkExecution 7 "x" 3 "" KindCalibrateEngine "" "" "" [] false None "" "" 0 in
  let s := set_catalog (put_executions 7 {[ 7 := calib ]} empty_catalog) v_store in
  match Verdict s (mkReportStore ∅ None None) 1 with
  | Ok v => cv_Go v = true ∧ cv_Services v = []
  | Err _ => False
  end.
Proof. vm_compute. done. Qed.
