(* ===== verification/Slo.v ===== *)
(** * Service-level objectives ([internal/domain/slo], [internal/app/sloapp])

    Objectives, the budget a window of reports leaves of them, and the use-cases
    over their table ([internal/ports/fake/slostore.go]). *)
From Stdlib Require Import SpecFloat.
From S2P Require Import Prelude Errors GoStrings GoFloat Execution Taurus Report Store MetricsApp.

Definition SLO_MaxNameLength : Z := 128.
Definition hour : duration := 3600 * second.

Record SLO := mkSLO {
  slo_ID : Z;
  slo_ProjectID : Z;
  slo_Name : string;
  slo_TargetP95MS : option float64;
  slo_TargetErrorRate : option float64;
  slo_TargetSuccessRatio : option float64;
  slo_CreatedTime : time
}.

Definition is_inf (x : float64) : bool := match x with S754_infinity _ => true | _ => false end.

Definition bad01 (v : float64) : bool := flt v fzero || flt (of_int 1) v || is_nan v || is_inf v.

Definition when {A} (o : option A) (f : A → bool) : bool :=
  match o with Some a => f a | None => false end.

Definition SLO_Validate (s : SLO) : result error unit :=
  if slo_ProjectID s <=? 0 then Err ErrSLOProjectRequired
  else if bool_decide (TrimSpace (slo_Name s) = "") then Err ErrSLONameRequired
  else if SLO_MaxNameLength <? go_len (slo_Name s) then Err ErrSLONameTooLong
  else match slo_TargetP95MS s, slo_TargetErrorRate s, slo_TargetSuccessRatio s with
       | None, None, None => Err ErrNoTargets
       | p95, rate, ratio =>
           if when p95 (λ v, fle v fzero || is_nan v || is_inf v) then Err ErrP95NotPositive
           else if when rate bad01 then Err ErrErrorRateRange
           else if when ratio bad01 then Err ErrSuccessRatioRange
           else Ok tt
       end.

Definition ParseWindow (raw : string) : result error duration :=
  if bool_decide (raw = "1d") then Ok (24 * hour)
  else if bool_decide (raw = "7d") then Ok (7 * 24 * hour)
  else if bool_decide (raw = "30d") then Ok (30 * 24 * hour)
  else Err ErrWindowInvalid.

Definition MetricP95MS : string := "p95_ms".
Definition MetricErrorRate : string := "error_rate".
Definition MetricSuccessRatio : string := "success_ratio".

Record Actual := mkActual {
  ac_P95MS : option float64; ac_ErrorRate : option float64; ac_SuccessRatio : option float64
}.
Record MetricBudget := mkMetricBudget {
  mb_Metric : string; mb_Target : float64; mb_Actual : option float64; mb_Compliant : bool;
  mb_BudgetRemainingPct : option float64
}.
Record Budget := mkBudget { bud_Metrics : list MetricBudget; bud_Compliant : bool }.

(** The loop of [Worst], with the line found so far. *)
Fixpoint worst_loop (worst : option (MetricBudget * float64)) (l : list MetricBudget) :
    option (MetricBudget * float64) :=
  match l with
  | [] => worst
  | m :: rest =>
      match mb_Actual m, mb_BudgetRemainingPct m with
      | Some _, Some pct =>
          match worst with
          | None => worst_loop (Some (m, pct)) rest
          | Some (_, w) => worst_loop (if flt pct w then Some (m, pct) else worst) rest
          end
      | _, _ => worst_loop worst rest
      end
  end.
Definition Worst (b : Budget) : option MetricBudget := fst <$> worst_loop None (bud_Metrics b).

Definition budget_line (metric : string) (target : float64) (got : option float64)
    (lowerIsBetter : bool) : MetricBudget :=
  match got with
  | None => mkMetricBudget metric target None true None
  | Some v =>
      if lowerIsBetter
      then mkMetricBudget metric target got (fle v target)
             (Some (fmul (fdiv (fsub target v) target) (of_int 100)))
      else mkMetricBudget metric target got (fle target v)
             (Some (fmul (fdiv (fsub v target) target) (of_int 100)))
  end.
Definition add_line (metric : string) (target got : option float64) (lowerIsBetter : bool)
    (b : Budget) : Budget :=
  match target with
  | None => b
  | Some t =>
      let mb := budget_line metric t got lowerIsBetter in
      mkBudget (bud_Metrics b ++ [mb]) (bud_Compliant b && mb_Compliant mb)
  end.
Definition SLO_Evaluate (s : SLO) (actual : Actual) : Budget :=
  add_line MetricSuccessRatio (slo_TargetSuccessRatio s) (ac_SuccessRatio actual) false
    (add_line MetricErrorRate (slo_TargetErrorRate s) (ac_ErrorRate actual) true
       (add_line MetricP95MS (slo_TargetP95MS s) (ac_P95MS actual) true (mkBudget [] true))).

Definition WindowMean (vals : list float64) : option float64 :=
  match vals with
  | [] => None
  | _ => Some (fdiv (fold_left fadd vals fzero) (of_int (Z.of_nat (length vals))))
  end.

(** ** The table *)
Record SLOStore := mkSLOStore {
  slos : gmap Z SLO; slo_seq : Z;
  slo_CreateErr : option error; slo_ListErr : option error; slo_GetErr : option error;
  slo_DeleteErr : option error
}.
Definition NewSLOStore : SLOStore := mkSLOStore ∅ 0 None None None None.
Definition put_slos (n : Z) (m : gmap Z SLO) (t : SLOStore) : SLOStore :=
  mkSLOStore m n (slo_CreateErr t) (slo_ListErr t) (slo_GetErr t) (slo_DeleteErr t).
Definition slo_with_ID (id : Z) (o : SLO) : SLO :=
  mkSLO id (slo_ProjectID o) (slo_Name o) (slo_TargetP95MS o) (slo_TargetErrorRate o)
    (slo_TargetSuccessRatio o) (slo_CreatedTime o).

Definition CreateSLO (now : time) (o : SLO) : M SLOStore error Z := λ t,
  match slo_CreateErr t with
  | Some e => (Err e, t)
  | None =>
      let id := slo_seq t + 1 in
      (Ok id, put_slos id (<[id := mkSLO id (slo_ProjectID o) (slo_Name o) (slo_TargetP95MS o)
                                     (slo_TargetErrorRate o) (slo_TargetSuccessRatio o) now]> (slos t)) t)
  end.
Definition slo_id_le (a b : SLO) : Prop := slo_ID a <= slo_ID b.
#[global] Instance slo_id_le_dec a b : Decision (slo_id_le a b).
Proof. unfold slo_id_le. apply _. Defined.
Definition ListSLOsByProject (projectID : Z) (t : SLOStore) : result error (list SLO) :=
  match slo_ListErr t with
  | Some e => Err e
  | None => Ok (merge_sort slo_id_le (filter (λ o, slo_ProjectID o = projectID) (map_to_list (slos t)).*2))
  end.
Definition GetSLO (projectID id : Z) (t : SLOStore) : result error SLO :=
  match slo_GetErr t with
  | Some e => Err e
  | None =>
      match slos t !! id with
      | Some o => if bool_decide (slo_ProjectID o = projectID) then Ok o else Err ErrNotFound
      | None => Err ErrNotFound
      end
  end.
Definition DeleteSLO (projectID id : Z) : M SLOStore error unit := λ t,
  match slo_DeleteErr t with
  | Some e => (Err e, t)
  | None =>
      match slos t !! id with
      | Some o => if bool_decide (slo_ProjectID o = projectID)
                  then (Ok tt, put_slos (slo_seq t) (delete id (slos t)) t) else (Err ErrNotFound, t)
      | None => (Err ErrNotFound, t)
      end
  end.

(** ** The use-cases *)
Record SLOOutcome := mkSLOOutcome {
  so_SLO : SLO; so_SLOID : Z; so_Window : string; so_WindowStart : time; so_WindowEnd : time;
  so_RunCount : Z; so_Budget : Budget
}.
Record WindowOutcome := mkWindowOutcome {
  wo_SLO : SLO; wo_SLOID : Z; wo_RunCount : Z; wo_Budget : Budget
}.

Definition SLO_Create (now : time) (obj : SLO) : M SLOStore error SLO :=
  _ ← lift (SLO_Validate obj);
  existing ← ask (ListSLOsByProject (slo_ProjectID obj));
  if existsb (λ e, bool_decide (slo_Name e = slo_Name obj)) existing then throw ErrDuplicateName
  else
    id ← CreateSLO now obj;
    mret (slo_with_ID id obj).
Definition SLO_List (projectID : Z) (t : SLOStore) : result error (list SLO) :=
  ListSLOsByProject projectID t.
Definition SLO_Get (projectID id : Z) (t : SLOStore) : result error SLO := GetSLO projectID id t.
Definition SLO_Delete (projectID id : Z) : M SLOStore error unit := DeleteSLO projectID id.

Definition in_span (start end_ : time) (rep : Report) : bool :=
  negb (Before (rep_StartedAt rep) start || negb (Before (rep_StartedAt rep) end_)).

(** What [aggregate] has collected after some reports. *)
Record tally := mkTally {
  ta_p95s : list float64; ta_errorRates : list float64; ta_passed : Z; ta_eligible : Z
}.
Definition tally_report (start end_ : time) (t : tally) (rep : Report) : tally :=
  if negb (in_span start end_ rep) then t
  else if bool_decide (rep_Outcome rep = OutcomeAborted) then t
  else
    mkTally (match rep_Latency rep !! of_int 95 with
             | Some p95 => ta_p95s t ++ [p95] | None => ta_p95s t end)
      (ta_errorRates t ++ [rep_ErrorRate rep])
      (if bool_decide (rep_Outcome rep = OutcomePassed) then ta_passed t + 1 else ta_passed t)
      (ta_eligible t + 1).

Definition ratio (part whole : Z) : option float64 :=
  if whole <=? 0 then None else Some (fdiv (of_int part) (of_int whole)).

Definition aggregate (projectID : Z) (start end_ : time) (s : Store) (rs : ReportStore) : Actual * Z :=
  let t := fold_left (λ t exe, fold_left (tally_report start end_) (ListReports (exe_ID exe) 0 rs) t)
             (ListExecutionsByProject projectID s) (mkTally [] [] 0 0) in
  if ta_eligible t =? 0 then (mkActual None None None, 0)
  else (mkActual (WindowMean ((λ secs, fmul secs (of_int 1000)) <$> ta_p95s t))
          (WindowMean (ta_errorRates t)) (ratio (ta_passed t) (ta_eligible t)), ta_eligible t).
Definition Aggregate := aggregate.

Definition BudgetFor (projectID sloID : Z) (window : string) (now : time) (t : SLOStore) (s : Store)
    (rs : ReportStore) : result error SLOOutcome :=
  duration ← ParseWindow window;
  obj ← GetSLO projectID sloID t;
  let start := time_Add now (- duration) in
  let '(actual, runCount) := Aggregate projectID start now s rs in
  Ok (mkSLOOutcome obj (slo_ID obj) window start now runCount (SLO_Evaluate obj actual)).

Definition ProjectWindowBudgets (projectID : Z) (start end_ : time) (t : SLOStore) (s : Store)
    (rs : ReportStore) : result error (list WindowOutcome) :=
  objs ← ListSLOsByProject projectID t;
  match objs with
  | [] => Ok []
  | _ =>
      let '(actual, runCount) := Aggregate projectID start end_ s rs in
      Ok ((λ obj, mkWindowOutcome obj (slo_ID obj) runCount (SLO_Evaluate obj actual)) <$> objs)
  end.

(** ** The registry *)
Record slos_ok (t : SLOStore) : Prop := {
  slo_row id o : slos t !! id = Some o → slo_ID o = id ∧ id <= slo_seq t ∧ SLO_Validate o = Ok tt;
  slo_unique id id' o o' : slos t !! id = Some o → slos t !! id' = Some o' →
    slo_ProjectID o = slo_ProjectID o' → slo_Name o = slo_Name o' → id = id'
}.

Lemma slos_ok_new : slos_ok NewSLOStore.
Proof. split; cbn; intros *; by rewrite lookup_empty. Qed.

Lemma elem_of_slos p t l o :
  ListSLOsByProject p t = Ok l → o ∈ l ↔ slo_ProjectID o = p ∧ ∃ id, slos t !! id = Some o.
Proof.
  unfold ListSLOsByProject. destruct (slo_ListErr t); [done|]. intros [= <-].
  rewrite merge_sort_Permutation, list_elem_of_filter, list_elem_of_fmap. split.
  - intros (? & [k o'] & -> & ?%elem_of_map_to_list). eauto.
  - intros (? & id & ?%elem_of_map_to_list). split; [done|]. by exists (id, o).
Qed.

Lemma SLO_Create_Ok now obj t o t' :
  SLO_Create now obj t = (Ok o, t') →
  SLO_Validate obj = Ok tt ∧
  (∀ id x, slos t !! id = Some x → slo_ProjectID x = slo_ProjectID obj → slo_Name x ≠ slo_Name obj) ∧
  o = slo_with_ID (slo_seq t + 1) obj ∧
  t' = put_slos (slo_seq t + 1)
         (<[slo_seq t + 1 := mkSLO (slo_seq t + 1) (slo_ProjectID obj) (slo_Name obj)
              (slo_TargetP95MS obj) (slo_TargetErrorRate obj) (slo_TargetSuccessRatio obj) now]> (slos t)) t.
Proof.
  unfold SLO_Create, mbind, M_bind, lift, ask. destruct (SLO_Validate obj) as [[]|]; [|done].
  destruct (ListSLOsByProject (slo_ProjectID obj) t) as [l|] eqn:Hl; [|done].
  destruct (existsb _ l) eqn:He; [done|]. unfold CreateSLO. destruct (slo_CreateErr t); [done|].
  intros [= <- <-]. split; [done|]. split; [|done]. intros id x Hx Hp Hn.
  assert (x ∈ l) as Hin by (eapply elem_of_slos; eauto).
  apply not_true_iff_false in He. apply He, existsb_exists. exists x.
  split; [by apply list_elem_of_In|]. by apply bool_decide_eq_true.
Qed.

Inductive slo_step : SLOStore → SLOStore → Prop :=
| slo_create now obj t : slo_step t (SLO_Create now obj t).2
| slo_delete p id t : slo_step t (SLO_Delete p id t).2.

Lemma Create_Err_same now obj t e t' : SLO_Create now obj t = (Err e, t') → t' = t.
Proof.
  unfold SLO_Create, mbind, M_bind, lift, ask. destruct (SLO_Validate obj) as [[]|]; [|by intros [= _ <-]].
  destruct (ListSLOsByProject _ t); [|by intros [= _ <-]]. destruct (existsb _ _); [by intros [= _ <-]|].
  unfold CreateSLO. destruct (slo_CreateErr t); [by intros [= _ <-]|done].
Qed.

Lemma slo_step_ok t t' : slo_step t t' → slos_ok t → slos_ok t' ∧ slo_seq t <= slo_seq t'.
Proof.
  intros [now obj t0|p id t0] Hok.
  - destruct (SLO_Create now obj t0) as [[o|e] t1] eqn:E; cbn;
      [|apply Create_Err_same in E; subst; split; [done|lia]].
    apply SLO_Create_Ok in E as (Hv & Hu & _ & ->). cbn. split; [|lia].
    assert (∀ id x, slos t0 !! id = Some x → id ≠ slo_seq t0 + 1) as Hf
      by (intros id x Hx; destruct (slo_row _ Hok _ _ Hx) as (_ & ? & _); lia).
    split; cbn; intros *.
    + intros [[<- <-]|[_ Hx]]%lookup_insert_Some; cbn; [repeat split; [lia|exact Hv]|].
      destruct (slo_row _ Hok _ _ Hx) as (? & ? & ?). repeat split; [done|lia|done].
    + intros [[<- <-]|[Hn1 H1]]%lookup_insert_Some [[<- <-]|[Hn2 H2]]%lookup_insert_Some; cbn; intros Hp Hnm.
      * done.
      * by destruct (Hu _ _ H2 (eq_sym Hp)).
      * by destruct (Hu _ _ H1 Hp).
      * by eapply (slo_unique _ Hok).
  - unfold SLO_Delete, DeleteSLO. destruct (slo_DeleteErr t0); [split; [done|cbn; lia]|].
    destruct (slos t0 !! id) as [o|]; [|split; [done|cbn; lia]].
    case_bool_decide; [|split; [done|cbn; lia]]. cbn. split; [|lia].
    split; cbn; intros *; rewrite ?lookup_delete_Some.
    + intros [_ ?]. by apply (slo_row _ Hok).
    + intros [_ ?] [_ ?]. by apply (slo_unique _ Hok).
Qed.


(** ** The budget *)

(** A tracked target that the window measured and that it missed. *)
Definition missed (s : SLO) (a : Actual) : Prop :=
  (∃ t v, slo_TargetP95MS s = Some t ∧ ac_P95MS a = Some v ∧ fle v t = false) ∨
  (∃ t v, slo_TargetErrorRate s = Some t ∧ ac_ErrorRate a = Some v ∧ fle v t = false) ∨
  (∃ t v, slo_TargetSuccessRatio s = Some t ∧ ac_SuccessRatio a = Some v ∧ fle t v = false).

Lemma line_Compliant m t got low :
  mb_Compliant (budget_line m t got low) =
  match got with None => true | Some v => if low then fle v t else fle t v end.
Proof. by destruct got, low. Qed.

Lemma add_line_missed m target got (low : bool) b :
  bud_Compliant (add_line m target got low b) = false ↔
  bud_Compliant b = false ∨
  ∃ t v, target = Some t ∧ got = Some v ∧ (if low then fle v t else fle t v) = false.
Proof.
  destruct target as [t|]; cbn -[budget_line]; [|naive_solver].
  rewrite andb_false_iff, line_Compliant. destruct got; naive_solver.
Qed.

Lemma budget_compliant_iff s a : bud_Compliant (SLO_Evaluate s a) = false ↔ missed s a.
Proof.
  unfold SLO_Evaluate, missed. rewrite !add_line_missed. cbn [bud_Compliant].
  assert (true = false ↔ False) as -> by done. tauto.
Qed.

Lemma aggregate_none p start end_ s rs actual :
  aggregate p start end_ s rs = (actual, 0) → actual = mkActual None None None.
Proof.
  unfold aggregate. set (t := fold_left _ _ _). destruct (Z.eqb_spec (ta_eligible t) 0) as [|Hn];
    [by intros [= <-]|]. intros [= _ ?]. lia.
Qed.

(** ** What a window measures *)
Definition eligible_report (p : Z) (start end_ : time) (s : Store) (rs : ReportStore) (r : Report) : Prop :=
  (∃ id exe, executions (st_catalog s) !! id = Some exe ∧ exe_ProjectID exe = p ∧
     ∃ k, reports rs !! k = Some r ∧ rep_ExecutionID r = exe_ID exe) ∧
  start <= rep_StartedAt r < end_ ∧ rep_Outcome r ≠ OutcomeAborted.

Definition counts (start end_ : time) (r : Report) : Prop :=
  start <= rep_StartedAt r < end_ ∧ rep_Outcome r ≠ OutcomeAborted.
#[global] Instance counts_dec start end_ r : Decision (counts start end_ r).
Proof. unfold counts. apply _. Defined.
Definition passes (r : Report) : Prop := rep_Outcome r = OutcomePassed.
#[global] Instance passes_dec r : Decision (passes r).
Proof. unfold passes. apply _. Defined.

Definition tally_of (reps : list Report) : tally :=
  mkTally (omap (λ r, rep_Latency r !! of_int 95) reps) (rep_ErrorRate <$> reps)
    (Z.of_nat (length (filter passes reps))) (Z.of_nat (length reps)).

Lemma tally_report_of start end_ reps r :
  tally_report start end_ (tally_of reps) r =
  tally_of (reps ++ filter (counts start end_) [r]).
Proof.
  unfold tally_report, in_span, Before. rewrite filter_cons, filter_nil.
  destruct (decide (counts start end_ r)) as [[Hw Ho]|Hn].
  - rewrite (bool_decide_eq_false_2 (rep_StartedAt r < start)), (bool_decide_eq_true_2 (_ < end_)),
      (bool_decide_eq_false_2 (_ = OutcomeAborted)) by (done || lia).
    unfold tally_of. cbn -[of_int Z.of_nat]. rewrite omap_app, fmap_app, filter_app, !length_app.
    rewrite filter_cons, filter_nil. cbn -[of_int Z.of_nat]. f_equal.
    + by destruct (_ !! _); rewrite ?app_nil_r.
    + case_decide; [rewrite bool_decide_eq_true_2 by done|rewrite bool_decide_eq_false_2 by done];
        cbn [length]; lia.
    + lia.
  - rewrite app_nil_r. destruct (bool_decide_reflect (rep_StartedAt r < start)); [done|].
    destruct (bool_decide_reflect (rep_StartedAt r < end_)); [|done].
    cbn. destruct (bool_decide_reflect (rep_Outcome r = OutcomeAborted)); [done|].
    destruct Hn. split; [lia|done].
Qed.

Lemma tally_fold start end_ l reps :
  fold_left (tally_report start end_) l (tally_of reps) = tally_of (reps ++ filter (counts start end_) l).
Proof.
  revert reps. induction l as [|r l IH]; intros reps; cbn [fold_left]; [by rewrite filter_nil, app_nil_r|].
  rewrite tally_report_of, IH, <-app_assoc, <-filter_app. done.
Qed.

Lemma tally_executions start end_ rs exes reps :
  fold_left (λ t exe, fold_left (tally_report start end_) (ListReports (exe_ID exe) 0 rs) t) exes
    (tally_of reps) =
  tally_of (reps ++ filter (counts start end_) (exes ≫= λ exe, ListReports (exe_ID exe) 0 rs)).
Proof.
  revert reps. induction exes as [|exe exes IH]; intros reps; cbn; [by rewrite app_nil_r|].
  by rewrite tally_fold, IH, filter_app, app_assoc.
Qed.

Definition window_reports (p : Z) (start end_ : time) (s : Store) (rs : ReportStore) : list Report :=
  filter (counts start end_) (ListExecutionsByProject p s ≫= λ exe, ListReports (exe_ID exe) 0 rs).

Lemma elem_of_all_reports e rs r :
  r ∈ ListReports e 0 rs ↔ ∃ k, reports rs !! k = Some r ∧ rep_ExecutionID r = e.
Proof.
  unfold ListReports, trim. cbn [Z.ltb Z.compare andb].
  rewrite merge_sort_Permutation, list_elem_of_filter, list_elem_of_fmap. split.
  - intros (He & [k r'] & -> & Hin%elem_of_map_to_list). eauto.
  - intros (k & Hin%elem_of_map_to_list & He). split; [done|]. by exists (k, r).
Qed.

Lemma elem_of_window p start end_ s rs r :
  r ∈ window_reports p start end_ s rs ↔ eligible_report p start end_ s rs r.
Proof.
  unfold window_reports, eligible_report, counts. rewrite list_elem_of_filter, list_elem_of_bind.
  setoid_rewrite elem_of_all_reports. unfold ListExecutionsByProject.
  setoid_rewrite merge_sort_Permutation. setoid_rewrite list_elem_of_filter.
  setoid_rewrite list_elem_of_fmap. split.
  - intros (Hc & exe & Hr & Hp & [id e'] & -> & Hin%elem_of_map_to_list). split; [|done].
    exists id, e'. naive_solver.
  - intros ((id & exe & He%elem_of_map_to_list & Hp & Hr) & Hc). split; [done|].
    exists exe. split; [done|]. split; [done|]. by exists (id, exe).
Qed.

(** A window's figures are those of exactly the project's runs that started in
    it and were not aborted: their number, the share of them that passed, the
    mean of their error rates and the mean of the p95s they have, in
    milliseconds; with no such run nothing is measured. *)
Theorem window_figures_exact p start end_ s rs :
  ∃ reps, (∀ r, r ∈ reps ↔ eligible_report p start end_ s rs r) ∧
    aggregate p start end_ s rs =
      match reps with
      | [] => (mkActual None None None, 0)
      | _ =>
          let n := Z.of_nat (length reps) in
          (mkActual
             (WindowMean ((λ v, fmul v (of_int 1000)) <$> omap (λ r, rep_Latency r !! of_int 95) reps))
             (WindowMean (rep_ErrorRate <$> reps))
             (Some (fdiv (of_int (Z.of_nat (length (filter passes reps)))) (of_int n))), n)
      end.
Proof.
  exists (window_reports p start end_ s rs). split; [apply elem_of_window|].
  unfold aggregate. change (mkTally [] [] 0 0) with (tally_of []). rewrite tally_executions, app_nil_l.
  fold (window_reports p start end_ s rs). set (reps := window_reports _ _ _ _ _).
  destruct reps as [|r reps']; [done|]. set (l := r :: reps'). cbn -[of_int l].
  destruct (Z.eqb_spec (Z.of_nat (length l)) 0); [done|]. unfold ratio.
  destruct (Z.leb_spec (Z.of_nat (length l)) 0); [cbn in *; lia|]. done.
Qed.

(** The names of the targets an objective tracks, in the order of its lines. *)
Definition tracked (s : SLO) : list string :=
  (if slo_TargetP95MS s is Some _ then [MetricP95MS] else []) ++
  (if slo_TargetErrorRate s is Some _ then [MetricErrorRate] else []) ++
  (if slo_TargetSuccessRatio s is Some _ then [MetricSuccessRatio] else []).

Lemma line_Metric m t got low : mb_Metric (budget_line m t got low) = m.
Proof. by destruct got, low. Qed.

Lemma Evaluate_tracked s a : mb_Metric <$> bud_Metrics (SLO_Evaluate s a) = tracked s.
Proof.
  unfold SLO_Evaluate, tracked. destruct s as [? ? ? [t1|] [t2|] [t3|] ?];
    cbn -[budget_line]; by rewrite ?line_Metric.
Qed.

Lemma Evaluate_vacuous s :
  bud_Compliant (SLO_Evaluate s (mkActual None None None)) = true ∧
  Worst (SLO_Evaluate s (mkActual None None None)) = None.
Proof. by destruct s as [? ? ? [t1|] [t2|] [t3|] ?]. Qed.

(** An objective's budget over a named window is read off the runs of its own
    project that the window counts: there is a line per tracked target in the
    fixed order, the verdict is negative exactly when a tracked target was
    measured and missed, and a window without runs never counts as a miss. *)
Theorem budget_exact p id window now t s rs o :
  BudgetFor p id window now t s rs = Ok o →
  ∃ d obj, ParseWindow window = Ok d ∧ slos t !! id = Some obj ∧ slo_ProjectID obj = p ∧
    so_WindowEnd o = now ∧ so_WindowStart o = time_Add now (- d) ∧
    let '(actual, n) := aggregate p (time_Add now (- d)) now s rs in
    so_RunCount o = n ∧ mb_Metric <$> bud_Metrics (so_Budget o) = tracked obj ∧
    (bud_Compliant (so_Budget o) = false ↔ missed obj actual) ∧
    (n = 0 → bud_Compliant (so_Budget o) = true ∧ Worst (so_Budget o) = None).
Proof.
  unfold BudgetFor, mbind, result_bind, GetSLO, Aggregate.
  destruct (ParseWindow window) as [d|]; [|done].
  destruct (slo_GetErr t); [done|]. destruct (slos t !! id) as [obj|] eqn:Ho; [|done].
  case_bool_decide as Hp; [|done].
  destruct (aggregate p (time_Add now (- d)) now s rs) as [actual n] eqn:Ha.
  intros [= <-]. exists d, obj. rewrite Ha. cbn.
  split; [done|]. split; [done|]. split; [done|]. split; [done|]. split; [done|]. split; [done|].
  split; [apply Evaluate_tracked|]. split; [apply budget_compliant_iff|].
  intros ->. apply aggregate_none in Ha as ->. apply Evaluate_vacuous.
Qed.

(** ** A target of zero

    An error-rate target of zero is accepted, but the budget that remains of it
    is not a number JSON can carry. *)
Definition finite (x : float64) : Prop :=
  match x with S754_zero _ | S754_finite _ _ _ => True | _ => False end.
#[global] Instance finite_dec x : Decision (finite x).
Proof. destruct x; unfold finite; apply _. Defined.

Lemma zero_target_remaining v :
  let pct := fmul (fdiv (fsub fzero v) fzero) (of_int 100) in
  flt v fzero = false → pct = S754_nan ∨ pct = S754_infinity true.
Proof.
  destruct v as [[]|[]| |[] m e]; cbn -[of_int]; intros Hlt; try discriminate;
    vm_compute (of_int 100); auto.
Qed.

Lemma zero_target_worst s v a :
  slo_TargetP95MS s = None → slo_TargetErrorRate s = Some fzero → ac_ErrorRate a = Some v →
  flt v fzero = false →
  ∃ m pct, Worst (SLO_Evaluate s a) = Some m ∧ mb_BudgetRemainingPct m = Some pct ∧ ¬ finite pct.
Proof.
  intros Hp He Ha Hv. pose proof (zero_target_remaining v Hv) as Hpct. cbv zeta in Hpct.
  unfold Worst, SLO_Evaluate. rewrite Hp, He, Ha. cbn -[of_int fmul fdiv fsub budget_line].
  set (pct := fmul (fdiv (fsub fzero v) fzero) (of_int 100)) in *.
  change (budget_line MetricErrorRate fzero (Some v) true)
    with (mkMetricBudget MetricErrorRate fzero (Some v) (fle v fzero) (Some pct)).
  clearbody pct. assert (¬ finite pct) as Hf by (destruct Hpct as [-> | ->]; cbn; tauto).
  destruct (slo_TargetSuccessRatio s) as [t|]; cbn -[budget_line]; [|eauto 10].
  destruct (ac_SuccessRatio a) as [g|]; cbn; [|eauto 10].
  assert (∀ x, flt x pct = false) as ->; [|eauto 10].
  intros x. destruct Hpct as [-> | ->]; destruct x as [[]|[]| |[] ? ?]; reflexivity.
Qed.

(** ** Examples *)
Definition a_slo : SLO := mkSLO 1 3 "p95" (Some (of_int 500)) None None 0.
Definition slo_table : SLOStore := (SLO_Create 7 a_slo NewSLOStore).2.


(** A second objective of the same name is refused. *)
Example second_name_refused :
  (SLO_Create 8 a_slo slo_table).1 = Err ErrDuplicateName.
Proof. vm_compute. reflexivity. Qed.

Lemma budget_exact_witness :
  ∃ o, BudgetFor 3 1 "7d" (30 * 24 * hour) slo_table NewStore NewReportStore = Ok o ∧
    so_RunCount o = 0 ∧ mb_Metric <$> bud_Metrics (so_Budget o) = [MetricP95MS].
Proof.
  destruct (BudgetFor 3 1 "7d" (30 * 24 * hour) slo_table NewStore NewReportStore) as [o|e] eqn:E;
    [|vm_compute in E; discriminate].
  exists o. split; [reflexivity|].
  destruct (budget_exact _ _ _ _ _ _ _ _ E) as (d & obj & Hd & Hobj & _ & _ & _ & H).
  vm_compute in Hd. injection Hd as <-. vm_compute in Hobj. injection Hobj as <-.
  vm_compute in H. destruct H as (? & ? & _). split; assumption.
Defined.
