(* ===== verification/Webhook.v ===== *)
(** * Notifications ([internal/domain/webhook], [internal/app/webhookapp])

    Receivers registered per project, the queue a finished run's event goes
    through, delivery with its retries, and the digest lane with its three
    transports.

    The network is whatever answers the requests: [http] gives the status a
    POST is answered with (or the transport's error) and [smtp] the relay's
    answer to a command, both depending on everything sent before.  What was
    sent is the state, oldest first.  Encodings ([json], [time.Format], the
    HMAC) are arguments; contexts are never cancelled and waiting between
    attempts has no effect of its own. *)
From Stdlib Require Import Ascii.
From S2P Require Import Prelude Errors GoStrings GoFloat Execution Taurus Report Verdicts Store.

Definition MaxURLLength : Z := 2048.
Definition MaxSecretLength : Z := 128.

Record Webhook := mkWebhook {
  wh_ID : Z;
  wh_ProjectID : Z;
  wh_URL : string;
  wh_Secret : string;
  wh_Enabled : bool;
  wh_CreatedBy : string;
  wh_CreatedTime : time
}.

(** [net/url]: the scheme and host of a URL that parses. *)
Class URLParser := url_Parse : string → option (string * string).

Definition Webhook_Validate `{!URLParser} (w : Webhook) : result error unit :=
  if wh_ProjectID w <=? 0 then Err ErrHookProjectRequired
  else
    let raw := TrimSpace (wh_URL w) in
    if bool_decide (raw = "") then Err ErrURLRequired
    else if MaxURLLength <? go_len raw then Err ErrURLTooLong
    else match url_Parse raw with
         | None => Err ErrURLNotHTTPS
         | Some (scheme, host) =>
             if bool_decide (host = "") then Err ErrURLNotHTTPS
             else if negb (bool_decide (scheme = "https")) then Err ErrURLNotHTTPS
             else if MaxSecretLength <? go_len (wh_Secret w) then Err ErrSecretTooLong
             else Ok tt
         end.

(** ** The registry ([ports/fake/webhookstore.go]) *)
Record WebhookStore := mkWebhookStore {
  webhooks : gmap Z Webhook; wh_seq : Z;
  wh_CreateErr : option error; wh_ListErr : option error; wh_DeleteErr : option error;
  wh_SetEnabledErr : option error
}.
Definition NewWebhookStore : WebhookStore := mkWebhookStore ∅ 0 None None None None.
Definition put_webhooks (n : Z) (m : gmap Z Webhook) (t : WebhookStore) : WebhookStore :=
  mkWebhookStore m n (wh_CreateErr t) (wh_ListErr t) (wh_DeleteErr t) (wh_SetEnabledErr t).

Definition CreateWebhook (now : time) (w : Webhook) : M WebhookStore error Z := λ t,
  match wh_CreateErr t with
  | Some e => (Err e, t)
  | None =>
      let id := wh_seq t + 1 in
      (Ok id, put_webhooks id (<[id := mkWebhook id (wh_ProjectID w) (wh_URL w) (wh_Secret w)
                                         (wh_Enabled w) (wh_CreatedBy w) now]> (webhooks t)) t)
  end.
Definition wh_id_le (a b : Webhook) : Prop := wh_ID a <= wh_ID b.
#[global] Instance wh_id_le_dec a b : Decision (wh_id_le a b).
Proof. unfold wh_id_le. apply _. Defined.
Definition ListWebhooksByProject (projectID : Z) (t : WebhookStore) : result error (list Webhook) :=
  match wh_ListErr t with
  | Some e => Err e
  | None => Ok (merge_sort wh_id_le (filter (λ w, wh_ProjectID w = projectID) (map_to_list (webhooks t)).*2))
  end.
Definition DeleteWebhook (projectID id : Z) : M WebhookStore error unit := λ t,
  match wh_DeleteErr t with
  | Some e => (Err e, t)
  | None =>
      match webhooks t !! id with
      | Some w => if bool_decide (wh_ProjectID w = projectID)
                  then (Ok tt, put_webhooks (wh_seq t) (delete id (webhooks t)) t) else (Err ErrNotFound, t)
      | None => (Err ErrNotFound, t)
      end
  end.
Definition SetWebhookEnabled (projectID id : Z) (enabled : bool) : M WebhookStore error unit := λ t,
  match wh_SetEnabledErr t with
  | Some e => (Err e, t)
  | None =>
      match webhooks t !! id with
      | Some w => if bool_decide (wh_ProjectID w = projectID)
                  then (Ok tt, put_webhooks (wh_seq t)
                          (<[id := mkWebhook (wh_ID w) (wh_ProjectID w) (wh_URL w) (wh_Secret w) enabled
                                     (wh_CreatedBy w) (wh_CreatedTime w)]> (webhooks t)) t)
                  else (Err ErrNotFound, t)
      | None => (Err ErrNotFound, t)
      end
  end.

Definition Webhook_Create `{!URLParser} (now : time) (projectID : Z) (url secret createdBy : string) :
    M WebhookStore error Webhook :=
  let w := mkWebhook 0 projectID url secret true createdBy 0 in
  _ ← lift (Webhook_Validate w);
  id ← CreateWebhook now w;
  mret (mkWebhook id projectID url secret true createdBy 0).

(** ** What is sent *)
Record HttpPost := mkHttpPost {
  post_URL : string; post_ContentType : string; post_UserAgent : string;
  post_Signature : option string; post_Body : string
}.
Inductive SmtpCommand :=
| Dial (hostport : string)
| NewClient (host : string)
| Hello (name : string)
| Extension (name : string)
| StartTLS (serverName : string)
| Auth_ (username password host : string)
| MailFrom (from : string)
| Rcpt (to : string)
| DataBegin
| DataWrite (msg : string)
| DataClose
| Quit_.
Inductive Sent := Posted (p : HttpPost) | Smtp (c : SmtpCommand).

Record emailSink := mkEmailSink {
  es_hostport : string; es_host : string; es_username : string; es_password : string;
  es_from : string; es_to : list string; es_insecure : bool
}.

Definition LF : string := String "010"%char "".
Definition CRLF : string := String "013"%char LF.
Definition deliverAttempts : nat := 3.
Definition EventRunCompleted : string := "run.completed".

Record runCompletedEvent := mkEvent {
  ev_Event : string; ev_RunID : Z; ev_ExecutionID : Z; ev_ProjectID : Z; ev_Engine : Executor;
  ev_Outcome : Outcome; ev_Samples : Z; ev_Throughput : float64; ev_ErrorRate : float64;
  ev_Criteria : list string; ev_Failing : list string; ev_StartedTime : time; ev_EndedTime : time;
  ev_ReportURL : string
}.

Record digestView := mkDigestView {
  dv_ProjectID : Z; dv_Period : string; dv_WindowStart : time; dv_WindowEnd : time;
  dv_RunsTotal : Z; dv_Passed : Z; dv_Failed : Z; dv_Aborted : Z; dv_ThresholdFailures : Z;
  dv_Thresholds : list string  (* the outcomes *)
}.

Record delivery := mkDelivery { dl_hook : Webhook; dl_body : string }.

(** The encodings and the network. *)
Class Outside := {
  http : list Sent → HttpPost → result error Z;
  smtp : list Sent → SmtpCommand → result error bool;
  mac_hex : string → string → string;
  MarshalEvent : runCompletedEvent → result error string;
  UnmarshalDigest : string → option digestView;
  MarshalText : string → option string;
  Indent : string → option string;
  FormatDate : time → string;
  FormatRFC1123Z : time → string
}.

Section webhookapp.
Context {HU : URLParser} {HO : Outside}.

Definition sign (secret body : string) : string := "sha256=" +:+ mac_hex secret body.

Definition send_post (p : HttpPost) : M (list Sent) error Z := λ log,
  (http log p, log ++ [Posted p]).
Definition command (c : SmtpCommand) : M (list Sent) error bool := λ log,
  (smtp log c, log ++ [Smtp c]).

Definition post_of (w : Webhook) (body : string) : HttpPost :=
  mkHttpPost (wh_URL w) "application/json" "honryu-webhook/1"
    (if bool_decide (wh_Secret w ≠ "") then Some (sign (wh_Secret w) body) else None) body.

(** [http.NewRequest] parses the URL. *)
Definition attempt_post (w : Webhook) (body : string) : M (list Sent) error unit :=
  match url_Parse (wh_URL w) with
  | None => throw ErrURLNotHTTPS
  | Some _ =>
      status ← send_post (post_of w body);
      if (status <? 200) || (299 <? status) then throw (ErrReceiverAnswered status) else mret tt
  end.

(** A try and up to [more] further ones, until one succeeds; the error is the
    last one's. *)
Fixpoint retry (more : nat) (try_ : M (list Sent) error unit) : M (list Sent) error unit := λ log,
  match try_ log with
  | (Ok _, log') => (Ok tt, log')
  | (Err e, log') => match more with O => (Err e, log') | S n => retry n try_ log' end
  end.
Definition deliverOne (w : Webhook) (body : string) : M (list Sent) error unit :=
  retry (pred deliverAttempts) (attempt_post w body).

Definition buildBody (projectID : Z) (rep : Report) (criteria : list string) : result error string :=
  MarshalEvent
    (mkEvent EventRunCompleted (rep_RunID rep) (rep_ExecutionID rep) projectID (rep_Engine rep)
       (rep_Outcome rep) (ld_Samples (rep_Achieved rep)) (ld_Throughput (rep_Achieved rep))
       (rep_ErrorRate rep) criteria (fc_Criterion <$> EvaluateCriteria rep criteria)
       (rep_StartedAt rep) (rep_EndedAt rep) ("/reports/" +:+ pretty (rep_RunID rep))).

(** The pending deliveries: a channel of [capacity] places, where sending to
    a full one drops. *)
Definition enqueue (capacity : nat) (queue : list delivery) (d : delivery) : list delivery :=
  if (length queue <? capacity)%nat then queue ++ [d] else queue.
Definition RunCompleted (capacity : nat) (hooks : WebhookStore) (s : Store) (projectID : Z)
    (rep : Report) (queue : list delivery) : list delivery :=
  match ListWebhooksByProject projectID hooks with
  | Err _ => queue
  | Ok l =>
      fold_left (λ q w,
        match buildBody (wh_ProjectID w) rep (CriteriaFor (rep_ExecutionID rep) s) with
        | Err _ => q
        | Ok body => enqueue capacity q (mkDelivery w body)
        end) (filter (λ w, wh_Enabled w = true) l) queue
  end.

(** ** The digest lane *)
Definition pluralSuffix (n : Z) : string := if n =? 1 then "" else "s".
Definition slackDigestBody (body : string) : option string :=
  v ← UnmarshalDigest body;
  let text :=
    "*honryu digest* -- " +:+ dv_Period v +:+ " window " +:+ FormatDate (dv_WindowStart v) +:+ " → " +:+
    FormatDate (dv_WindowEnd v) +:+ LF +:+ pretty (dv_RunsTotal v) +:+ " runs · " +:+
    pretty (dv_Passed v) +:+ " passed · " +:+ pretty (dv_Failed v) +:+ " failed · " +:+
    pretty (dv_Aborted v) +:+ " aborted · " +:+ pretty (dv_ThresholdFailures v) +:+
    " threshold failure" +:+ pluralSuffix (dv_ThresholdFailures v) in
  let count outcome := pretty (Z.of_nat (length (filter (λ o, o = outcome) (dv_Thresholds v)))) in
  let text :=
    match dv_Thresholds v with
    | [] => text
    | l => text +:+ LF +:+ "Thresholds: " +:+ pretty (Z.of_nat (length l)) +:+ " runs · " +:+
             count "all_met" +:+ " all-met · " +:+ count "missed" +:+ " missed"
    end in
  MarshalText (text +:+ LF +:+ "Details: /executions (project " +:+ pretty (dv_ProjectID v) +:+ ")").

Definition buildDigestEmail (sink : emailSink) (body : string) (now : time) : result error string :=
  match UnmarshalDigest body with
  | None => Err ErrDigestUnparsed
  | Some v =>
      Ok ("From: " +:+ es_from sink +:+ CRLF +:+ "To: " +:+ String.concat ", " (es_to sink) +:+ CRLF +:+
          "Subject: honryu digest " +:+ FormatDate (dv_WindowEnd v) +:+ CRLF +:+
          "Date: " +:+ FormatRFC1123Z now +:+ CRLF +:+ "MIME-Version: 1.0" +:+ CRLF +:+
          "Content-Type: text/plain; charset=utf-8" +:+ CRLF +:+ CRLF +:+
          default body (Indent body))
  end.

Definition unless (b : bool) (m : M (list Sent) error unit) : M (list Sent) error unit :=
  if b then mret tt else m.
Definition do_ (c : SmtpCommand) : M (list Sent) error unit := _ ← command c; mret tt.

(** One conversation with the relay; a server that cannot be asked for its
    extensions offers none. *)
Definition emailAttempt (sink : emailSink) (msg : string) : M (list Sent) error unit :=
  _ ← do_ (Dial (es_hostport sink));
  _ ← do_ (NewClient (es_host sink));
  _ ← do_ (Hello "honryu");
  _ ← unless (es_insecure sink)
        (offers ← (λ log, match command (Extension "STARTTLS") log with
                          | (Ok b, log') => (Ok b, log')
                          | (Err _, log') => (Ok false, log')
                          end);
         if negb offers then throw ErrNoSTARTTLS else do_ (StartTLS (es_host sink)));
  _ ← unless (bool_decide (es_username sink = ""))
        (do_ (Auth_ (es_username sink) (es_password sink) (es_host sink)));
  _ ← do_ (MailFrom (es_from sink));
  _ ← for_each (es_to sink) (λ rcpt, do_ (Rcpt rcpt));
  _ ← do_ DataBegin;
  _ ← (λ log, match command (DataWrite msg) log with
              | (Ok _, log') => (Ok tt, log')
              | (Err e, log') => (Err e, (command DataClose log').2)
              end);
  _ ← do_ DataClose;
  do_ Quit_.
Definition deliverDigestEmail (sink : emailSink) (msg : string) : M (list Sent) error unit :=
  retry (pred deliverAttempts) (emailAttempt sink msg).

(** The deploy-wide transports. *)
Record Sinks := mkSinks {
  sk_sink : option Webhook; sk_slack : option Webhook; sk_email : option emailSink
}.

(** The outcome so far: whether a receiver confirmed, and the first error. *)
Definition note (r : result error unit) (acc : bool * option error) : bool * option error :=
  match r with
  | Ok _ => (true, acc.2)
  | Err e => (acc.1, match acc.2 with None => Some e | Some f => Some f end)
  end.
Definition deliver_step (send : M (list Sent) error unit) (st : (bool * option error) * list Sent) :
    (bool * option error) * list Sent :=
  let '(r, log) := send st.2 in (note r st.1, log).

Definition DeliverDigest (hooks : WebhookStore) (sinks : Sinks) (now : time) (projectID : Z)
    (body : string) (log : list Sent) : result error bool * list Sent :=
  match ListWebhooksByProject projectID hooks with
  | Err e => (Err e, log)
  | Ok l =>
      let targets := filter (λ w, wh_Enabled w = true) l ++ option_list (sk_sink sinks) in
      match targets, sk_slack sinks, sk_email sinks with
      | [], None, None => (Ok false, log)
      | _, _, _ =>
          let st := fold_left (λ st w, deliver_step (deliverOne w body) st) targets
                      ((false, None), log) in
          let st := match sk_slack sinks with
                    | None => st
                    | Some w =>
                        match slackDigestBody body with
                        | Some b => deliver_step (deliverOne w b) st
                        | None => (note (Err ErrDigestUnparsed) st.1, st.2)
                        end
                    end in
          let st := match sk_email sinks with
                    | None => st
                    | Some sink =>
                        match buildDigestEmail sink body now with
                        | Ok msg => deliver_step (deliverDigestEmail sink msg) st
                        | Err e => (note (Err e) st.1, st.2)
                        end
                    end in
          let '((delivered, firstErr), log') := st in
          (if delivered then Ok true
           else match firstErr with None => Ok false | Some e => Err e end, log')
      end
  end.
End webhookapp.

(** ** Delivery to one receiver *)
Section delivery.
Context {HU : URLParser} {HO : Outside}.

(** The receiver confirms the post when it is sent after [log]. *)
Definition confirmed (log : list Sent) (p : HttpPost) : Prop :=
  ∃ status, http log p = Ok status ∧ 200 <= status <= 299.

Lemma attempt_post_spec w body log :
  is_Some (url_Parse (wh_URL w)) →
  ∃ r, attempt_post w body log = (r, log ++ [Posted (post_of w body)]) ∧
    (r = Ok tt ↔ confirmed log (post_of w body)).
Proof.
  intros [u Hu]. unfold attempt_post, mbind, M_bind, send_post, confirmed. rewrite Hu.
  destruct (http log (post_of w body)) as [status|e]; [|eexists; split; [done|naive_solver]].
  destruct (Z.ltb_spec status 200), (Z.ltb_spec 299 status); cbn;
    (eexists; split; [done|]); (split; [done || (intros _; exists status; split; [done|lia])
                                       |intros (st & [= <-] & ?); done || lia]).
Qed.

Definition posts (k : nat) (p : HttpPost) : list Sent := replicate k (Posted p).

Lemma posts_snoc (k : nat) p log : (log ++ posts k p) ++ [Posted p] = log ++ posts (S k) p.
Proof. unfold posts. rewrite <-app_assoc, replicate_S_end. done. Qed.

Lemma retry_post_spec w body log more tried :
  is_Some (url_Parse (wh_URL w)) →
  let p := post_of w body in
  (∀ j, (j < tried)%nat → ¬ confirmed (log ++ posts j p) p) →
  ∃ r k, retry more (attempt_post w body) (log ++ posts tried p) = (r, log ++ posts (S k) p) ∧
    (tried <= k <= tried + more)%nat ∧
    (∀ j, (j < k)%nat → ¬ confirmed (log ++ posts j p) p) ∧
    match r with
    | Ok _ => confirmed (log ++ posts k p) p
    | Err _ => k = (tried + more)%nat ∧ ¬ confirmed (log ++ posts k p) p
    end.
Proof.
  intros Hu p. revert tried. induction more as [|more IH]; intros tried Hno; cbn [retry];
    destruct (attempt_post_spec w body (log ++ posts tried p) Hu) as (r & -> & Hr);
    fold p in Hr |- *; rewrite posts_snoc.
  - destruct r as [[]|e].
    + exists (Ok tt), tried. repeat split; [lia..|done|by apply Hr].
    + exists (Err e), tried. repeat split; [lia..|done|lia|]. by intros ?%Hr.
  - destruct r as [[]|e].
    + exists (Ok tt), tried. repeat split; [lia..|done|by apply Hr].
    + destruct (IH (S tried)) as (r & k & -> & Hk & Hall & Hend).
      { intros j Hj. destruct (decide (j = tried)) as [->|]; [by intros ?%Hr|]. apply Hno. lia. }
      exists r, k. split; [done|]. split; [lia|]. split; [done|].
      destruct r; [done|]. destruct Hend. split; [lia|done].
Qed.

(** A delivery to a receiver is at least one and at most three posts, all of
    them the same: the stored bytes, signed exactly when the receiver has a
    secret.  It ends with the first post the receiver confirms, and fails only
    after three that it did not. *)
Theorem delivery_bounded w body log :
  is_Some (url_Parse (wh_URL w)) →
  let p := post_of w body in
  ∃ r k, deliverOne w body log = (r, log ++ posts k p) ∧ (1 <= k <= deliverAttempts)%nat ∧
    (∀ j, (j < pred k)%nat → ¬ confirmed (log ++ posts j p) p) ∧
    (match r with
     | Ok _ => confirmed (log ++ posts (pred k) p) p
     | Err _ => k = deliverAttempts ∧ ¬ confirmed (log ++ posts (pred k) p) p
     end) ∧
    post_Body p = body ∧
    post_Signature p = (if decide (wh_Secret w = "") then None
                        else Some ("sha256=" +:+ mac_hex (wh_Secret w) body)).
Proof.
  intros Hu p. destruct (retry_post_spec w body log (pred deliverAttempts) 0 Hu)
    as (r & k & Hr & Hk & Hall & Hend); [lia|]. cbn [posts replicate] in Hr. rewrite app_nil_r in Hr.
  exists r, (S k). split; [exact Hr|]. cbn [pred]. unfold deliverAttempts in *. cbn [pred] in Hk.
  split; [lia|]. split; [done|]. split.
  { destruct r; [done|]. destruct Hend as [-> Hn]. done. }
  split; [done|]. cbn. unfold sign. case_decide as Hs.
  - by rewrite bool_decide_eq_false_2 by naive_solver.
  - by rewrite bool_decide_eq_true_2.
Qed.

(** ** The queue *)
Definition completed (w : Webhook) (rep : Report) (s : Store) : option delivery :=
  match buildBody (wh_ProjectID w) rep (CriteriaFor (rep_ExecutionID rep) s) with
  | Ok body => Some (mkDelivery w body)
  | Err _ => None
  end.

Lemma enqueue_all capacity ds queue :
  fold_left (enqueue capacity) ds queue = queue ++ take (capacity - length queue) ds.
Proof.
  revert queue. induction ds as [|d ds IH]; intros queue; cbn [fold_left].
  { by rewrite take_nil, app_nil_r. }
  rewrite IH. unfold enqueue. destruct (Nat.ltb_spec (length queue) capacity).
  - rewrite length_app. cbn [length].
    replace (capacity - length queue)%nat with (S (capacity - (length queue + 1)))%nat by lia.
    cbn [take]. by rewrite <-app_assoc.
  - by replace (capacity - length queue)%nat with 0%nat by lia.
Qed.

Lemma elem_of_hooks p t l w :
  ListWebhooksByProject p t = Ok l → w ∈ l ↔ wh_ProjectID w = p ∧ ∃ id, webhooks t !! id = Some w.
Proof.
  unfold ListWebhooksByProject. destruct (wh_ListErr t); [done|]. intros [= <-].
  rewrite merge_sort_Permutation, list_elem_of_filter, list_elem_of_fmap. split.
  - intros (? & [k o'] & -> & ?%elem_of_map_to_list). eauto.
  - intros (? & id & ?%elem_of_map_to_list). split; [done|]. by exists (id, w).
Qed.

Lemma RunCompleted_queue capacity hooks s p rep queue l :
  ListWebhooksByProject p hooks = Ok l →
  RunCompleted capacity hooks s p rep queue =
    queue ++ take (capacity - length queue)
      (omap (λ w, completed w rep s) (filter (λ w, wh_Enabled w = true) l)).
Proof.
  intros Hl. unfold RunCompleted. rewrite Hl. rewrite <-enqueue_all. generalize (filter (λ w, wh_Enabled w = true) l).
  intros ws. revert queue. induction ws as [|w ws IH]; intros queue; [done|]. cbn. rewrite IH.
  unfold completed. destruct (buildBody _ _ _); done.
Qed.

(** Completing a run never waits for a receiver: what it changes is the queue
    of pending deliveries, which keeps what it holds and takes the run's events
    for the enabled receivers of the project, oldest registration first, as far
    as there is room; the queue never outgrows its capacity, and a receiver
    that is paused or of another project gets nothing. *)
Theorem run_completed_exact capacity hooks s p rep queue :
  let queue' := RunCompleted capacity hooks s p rep queue in
  (∃ new, queue' = queue ++ new ∧
     ((length queue <= capacity)%nat → (length queue' <= capacity)%nat) ∧
     ∀ d, d ∈ new → wh_ProjectID (dl_hook d) = p ∧ wh_Enabled (dl_hook d) = true ∧
       (∃ id, webhooks hooks !! id = Some (dl_hook d)) ∧
       buildBody p rep (CriteriaFor (rep_ExecutionID rep) s) = Ok (dl_body d)) ∧
  ∀ l, ListWebhooksByProject p hooks = Ok l →
    (length queue + length l <= capacity)%nat →
    (∃ body, buildBody p rep (CriteriaFor (rep_ExecutionID rep) s) = Ok body) →
    dl_hook <$> queue' = (dl_hook <$> queue) ++ filter (λ w, wh_Enabled w = true) l.
Proof.
  intros queue'. destruct (ListWebhooksByProject p hooks) as [l|e] eqn:Hl.
  - assert (queue' = _) as Hq by (by apply RunCompleted_queue). split.
    + eexists. split; [exact Hq|]. split; [rewrite Hq, length_app, length_take; lia|].
      intros d Hd%elem_of_take. destruct Hd as (i & Hd & _).
      apply list_elem_of_lookup_2, list_elem_of_omap in Hd as (w & Hw & Hc).
      apply list_elem_of_filter in Hw as [He Hw]. apply (elem_of_hooks _ _ _ _ Hl) in Hw as [Hp Hid].
      unfold completed in Hc. rewrite Hp in Hc. destruct (buildBody _ _ _) eqn:Hb; [|done].
      injection Hc as <-. done.
    + intros l' [= <-] Hcap [body Hb]. rewrite Hq, fmap_app. f_equal.
      rewrite firstn_all2.
      * assert (∀ w, w ∈ l → wh_ProjectID w = p) as Hp
          by (intros w Hw; by apply (elem_of_hooks _ _ _ _ Hl) in Hw as [? _]).
        clear Hl Hq Hcap. induction l as [|w l IH]; [done|]. rewrite filter_cons.
        assert (∀ w0, w0 ∈ l → wh_ProjectID w0 = p) by (intros; apply Hp; by right).
        case_decide; [|by apply IH]. cbn. unfold completed at 1. rewrite (Hp w) by left. rewrite Hb.
        cbn. f_equal. by apply IH.
      * etrans; [apply length_omap|]. pose proof (length_filter (λ w, wh_Enabled w = true) l). lia.
  - assert (queue' = queue) as -> by (unfold queue', RunCompleted; by rewrite Hl).
    split; [|done]. exists []. rewrite app_nil_r. split; [done|]. split; [done|].
    by intros d ?%elem_of_nil.
Qed.

(** ** The digest lane *)

(** What a digest is sent through, in order; a rendering that fails is a
    transport that fails without sending anything. *)
Definition transports (sinks : Sinks) (now : time) (body : string) (l : list Webhook) :
    list (M (list Sent) error unit) :=
  ((λ w, deliverOne w body) <$> (filter (λ w, wh_Enabled w = true) l ++ option_list (sk_sink sinks))) ++
  match sk_slack sinks with
  | None => []
  | Some w => [match slackDigestBody body with
               | Some b => deliverOne w b | None => throw ErrDigestUnparsed end]
  end ++
  match sk_email sinks with
  | None => []
  | Some sink => [match buildDigestEmail sink body now with
                  | Ok msg => deliverDigestEmail sink msg | Err e => throw e end]
  end.

(** Running them one after the other, each whatever became of the others. *)
Fixpoint run_all (ms : list (M (list Sent) error unit)) (log : list Sent) :
    list (result error unit) * list Sent :=
  match ms with
  | [] => ([], log)
  | m :: rest => let '(r, log1) := m log in
                 let '(rs, log2) := run_all rest log1 in (r :: rs, log2)
  end.

Definition deliver_all (ms : list (M (list Sent) error unit)) st :=
  fold_left (λ st m, deliver_step m st) ms st.

Lemma deliver_all_run ms acc log :
  deliver_all ms (acc, log) =
  (fold_left (λ a r, note r a) (run_all ms log).1 acc, (run_all ms log).2).
Proof.
  revert acc log. induction ms as [|m ms IH]; intros acc log; [done|].
  cbn. unfold deliver_step at 2. cbn. destruct (m log) as [r log1]. fold (deliver_all ms).
  rewrite IH. by destruct (run_all ms log1).
Qed.

Lemma note_all rs acc :
  let res := fold_left (λ a r, note r a) rs acc in
  (res.1 = true ↔ acc.1 = true ∨ Ok tt ∈ rs) ∧
  (res.2 = match acc.2 with
           | Some e => Some e
           | None => head (omap (λ r, match r with Err e => Some e | Ok _ => None end) rs)
           end).
Proof.
  revert acc. induction rs as [|[[]|e] rs IH]; intros [b o]; cbn.
  - split; [|by destruct o]. rewrite elem_of_nil. tauto.
  - destruct (IH (true, o)) as [H1 H2]. cbn in *. split; [|done]. rewrite H1, elem_of_cons. tauto.
  - destruct (IH (b, match o with None => Some e | Some f => Some f end)) as [H1 H2]. cbn in *.
    split; [|by destruct o]. rewrite H1, elem_of_cons. naive_solver.
Qed.

Lemma DeliverDigest_run hooks sinks now p body log l :
  ListWebhooksByProject p hooks = Ok l →
  let ms := transports sinks now body l in
  DeliverDigest hooks sinks now p body log =
    let '((delivered, firstErr), log') := deliver_all ms ((false, None), log) in
    (if (delivered : bool) then Ok true
     else match firstErr with None => Ok false | Some e => Err e end, log').
Proof.
  intros Hl ms. unfold DeliverDigest. rewrite Hl. subst ms. unfold deliver_all, transports.
  set (targets := filter _ l ++ _). clearbody targets. rewrite !fold_left_app.
  assert (∀ st, fold_left (λ st m, deliver_step m st) ((λ w, deliverOne w body) <$> targets) st =
    fold_left (λ st w, deliver_step (deliverOne w body) st) targets st) as ->.
  { induction targets as [|w targets IH]; intros st; [done|]. cbn. apply IH. }
  set (st := fold_left _ targets _).
  assert (∀ e (s0 : (bool * option error) * list Sent),
    deliver_step (throw e) s0 = (note (Err e) s0.1, s0.2)) as Hthrow by done.
  destruct (sk_slack sinks) as [w|] eqn:Hs, (sk_email sinks) as [sink|] eqn:He.
  - destruct targets; cbn [fold_left];
      (destruct (slackDigestBody body), (buildDigestEmail sink body now); rewrite ?Hthrow; done).
  - destruct targets; cbn [fold_left]; destruct (slackDigestBody body); rewrite ?Hthrow; done.
  - destruct targets; cbn [fold_left]; destruct (buildDigestEmail sink body now); rewrite ?Hthrow; done.
  - destruct targets; done.
Qed.

(** What delivering a digest answers: delivered exactly when some transport
    confirmed; nothing to do exactly when there is no transport; otherwise the
    error of the first transport, after every one of them was tried. *)
Theorem digest_answer_exact hooks sinks now p body log l :
  ListWebhooksByProject p hooks = Ok l →
  let ms := transports sinks now body l in
  let '(outcomes, log') := run_all ms log in
  ∃ r, DeliverDigest hooks sinks now p body log = (r, log') ∧ length outcomes = length ms ∧
    (r = Ok true ↔ Ok tt ∈ outcomes) ∧ (r = Ok false ↔ ms = []) ∧
    (∀ e, r = Err e → head outcomes = Some (Err e)).
Proof.
  intros Hl ms. rewrite (DeliverDigest_run _ _ _ _ _ _ _ Hl). fold ms. rewrite deliver_all_run.
  assert (length (run_all ms log).1 = length ms) as Hlen.
  { generalize log. induction ms as [|m ms0 IH]; intros lg; [done|]. cbn.
    destruct (m lg) as [r lg1]. specialize (IH lg1). destruct (run_all ms0 lg1). cbn in *. lia. }
  destruct (run_all ms log) as [outcomes log'] eqn:Hrun. cbn [fst snd] in *.
  destruct (note_all outcomes (false, None)) as [H1 H2]. cbn in H1, H2.
  destruct (fold_left _ outcomes _) as [d fe]. cbn in H1, H2. subst fe.
  eexists. split; [done|]. split; [done|].
  destruct d.
  - assert (Ok tt ∈ outcomes) as Hin by naive_solver. split; [done|]. split; [|done].
    split; [done|]. intros ->. destruct outcomes; [by apply elem_of_nil in Hin|done].
  - assert (Ok tt ∉ outcomes) as Hnin by naive_solver.
    destruct outcomes as [|[[]|e] outcomes]; cbn.
    + destruct ms; [|done]. split; [naive_solver|]. done.
    + destruct Hnin. left.
    + split; [split; [done|]; by intros ?|]. split; [split; [done|]; by intros ->|]. by intros e' [= ->].
Qed.

(** ** The e-mail transport *)

(** Commands that carry the digest or a password. *)
Definition sensitive (c : SmtpCommand) : bool :=
  match c with DataWrite _ | Auth_ _ _ _ => true | _ => false end.
Definition changes_channel (c : SmtpCommand) : bool :=
  match c with Dial _ | StartTLS _ => true | _ => false end.

(** [channel base log tls]: what was sent after [base] up to [log] sent
    sensitive commands on an encrypted connection only, and [tls] says whether
    the connection is encrypted now. *)
Inductive channel (base : list Sent) : list Sent → bool → Prop :=
| ch_base : channel base base false
| ch_dial log b h : channel base log b → channel base (log ++ [Smtp (Dial h)]) false
| ch_tls log b h : channel base log b → is_Ok (smtp log (StartTLS h)) = true →
    channel base (log ++ [Smtp (StartTLS h)]) true
| ch_tls_refused log b h : channel base log b → channel base (log ++ [Smtp (StartTLS h)]) false
| ch_plain log b c : sensitive c = false → changes_channel c = false →
    channel base log b → channel base (log ++ [Smtp c]) b
| ch_secret log c : sensitive c = true → channel base log true → channel base (log ++ [Smtp c]) true.

(** [m] takes a connection in state [b] to one in state [b'] when it succeeds. *)
Definition conv {A} (base : list Sent) (b : bool) (m : M (list Sent) error A) (b' : bool) : Prop :=
  ∀ log r log', channel base log b → m log = (r, log') →
    (∃ b1, channel base log' b1) ∧ (is_Ok r = true → channel base log' b').

Lemma conv_ret {A} base b (a : A) : conv base b (mret a) b.
Proof. intros log r log' H [= <- <-]. eauto. Qed.
Lemma conv_throw {A} base b b' e : conv base b (throw e : M (list Sent) error A) b'.
Proof. intros log r log' H [= <- <-]. split; [eauto|done]. Qed.
Lemma conv_bind {A B} base b b1 b2 (m : M (list Sent) error A) (k : A → M (list Sent) error B) :
  conv base b m b1 → (∀ a, conv base b1 (k a) b2) → conv base b (m ≫= k) b2.
Proof.
  intros Hm Hk log r log' H. unfold mbind, M_bind.
  destruct (m log) as [[a|e] log1] eqn:E; destruct (Hm _ _ _ H E) as [H1 H2].
  - intros E'. by eapply (Hk a); [apply H2|].
  - intros [= <- <-]. split; [done|]. done.
Qed.
Lemma conv_dial base b h : conv base b (do_ (Dial h)) false.
Proof.
  intros log r log' H. unfold do_, mbind, M_bind, command.
  destruct (smtp log (Dial h)); intros [= <- <-]; (split; [eexists|intros _]; by eapply ch_dial).
Qed.
Lemma conv_tls base b h : conv base b (do_ (StartTLS h)) true.
Proof.
  intros log r log' H. unfold do_, mbind, M_bind, command.
  destruct (smtp log (StartTLS h)) eqn:E; intros [= <- <-].
  - assert (channel base (log ++ [Smtp (StartTLS h)]) true) by (eapply ch_tls; [done|by rewrite E]).
    eauto.
  - split; [|done]. eexists. by eapply ch_tls_refused.
Qed.
Lemma conv_plain base b c :
  sensitive c = false → changes_channel c = false → conv base b (do_ c) b.
Proof.
  intros Hs Hc log r log' H. unfold do_, mbind, M_bind, command.
  destruct (smtp log c); intros [= <- <-]; (split; [eexists|intros _]; by apply ch_plain).
Qed.
Lemma conv_secret base c : sensitive c = true → conv base true (do_ c) true.
Proof.
  intros Hs log r log' H. unfold do_, mbind, M_bind, command.
  destruct (smtp log c); intros [= <- <-]; (split; [eexists|intros _]; by apply ch_secret).
Qed.
Lemma conv_each {A} base b (l : list A) (body : A → M (list Sent) error unit) :
  (∀ x, conv base b (body x) b) → conv base b (for_each l body) b.
Proof.
  intros Hb. induction l as [|x l IH]; [apply conv_ret|]. cbn. eapply conv_bind; [apply Hb|done].
Qed.

Lemma conv_email base b sink msg :
  es_insecure sink = false → conv base b (emailAttempt sink msg) true.
Proof.
  intros Hi. unfold emailAttempt, unless. rewrite Hi.
  eapply conv_bind; [apply conv_dial|intros _]. eapply conv_bind; [by apply conv_plain|intros _].
  eapply conv_bind; [by apply conv_plain|intros _]. eapply (conv_bind _ _ true); [|intros _].
  { eapply (conv_bind _ _ false); [|intros []; cbn; [apply conv_tls|apply conv_throw]].
    intros log r log' H. unfold command.
    assert (channel base (log ++ [Smtp (Extension "STARTTLS")]) false) by (by apply ch_plain).
    destruct (smtp log (Extension "STARTTLS")); intros [= <- <-]; eauto. }
  eapply (conv_bind _ _ true); [case_bool_decide; [apply conv_ret|by apply conv_secret]|intros _].
  eapply conv_bind; [by apply conv_plain|intros _].
  eapply conv_bind; [apply conv_each; intros x; by apply conv_plain|intros _].
  eapply conv_bind; [by apply conv_plain|intros _]. eapply (conv_bind _ _ true); [|intros _].
  { intros log r log' H. unfold command.
    assert (channel base (log ++ [Smtp (DataWrite msg)]) true) by (by apply ch_secret).
    destruct (smtp log (DataWrite msg)); intros [= <- <-]; [eauto|]. split; [|done].
    eexists. by apply ch_plain. }
  eapply conv_bind; [by apply conv_plain|intros _]. by apply conv_plain.
Qed.

Lemma conv_retry base b more sink msg :
  es_insecure sink = false → conv base b (retry more (emailAttempt sink msg)) true.
Proof.
  intros Hi. revert b. induction more as [|more IH]; intros b log r log' H; cbn [retry];
    destruct (emailAttempt sink msg log) as [[u|e] log1] eqn:E;
    destruct (conv_email base b sink msg Hi _ _ _ H E) as [[b1 H1] H2].
  - intros [= <- <-]. eauto.
  - intros [= <- <-]. split; [eauto|done].
  - intros [= <- <-]. eauto.
  - intros E'. by eapply IH.
Qed.

(** Before a sensitive command the connection was encrypted and has not been
    reopened since. *)
Lemma channel_secured base log tls :
  channel base log tls →
  ∃ sent, log = base ++ sent ∧
    (tls = true → ∃ p1 h p2, sent = p1 ++ [Smtp (StartTLS h)] ++ p2 ∧
       is_Ok (smtp (base ++ p1) (StartTLS h)) = true ∧ ∀ h', Smtp (Dial h') ∉ p2) ∧
    ∀ p c q, sent = p ++ [Smtp c] ++ q → sensitive c = true →
      ∃ p1 h p2, p = p1 ++ [Smtp (StartTLS h)] ++ p2 ∧
        is_Ok (smtp (base ++ p1) (StartTLS h)) = true ∧ ∀ h', Smtp (Dial h') ∉ p2.
Proof.
  assert (∀ (sent p q : list Sent) (x c : SmtpCommand), sent ++ [Smtp x] = p ++ [Smtp c] ++ q →
    (q = [] ∧ p = sent ∧ c = x) ∨ ∃ q', q = q' ++ [Smtp x] ∧ sent = p ++ [Smtp c] ++ q') as Hsplit.
  { intros sent p q x c Heq. destruct q as [|y q _] using rev_ind.
    - left. rewrite app_nil_r in Heq. apply app_inj_tail in Heq as [-> [= ->]]. done.
    - right. exists q. rewrite !app_assoc in Heq. apply app_inj_tail in Heq as [-> <-].
      by rewrite <-app_assoc. }
  induction 1 as [|log b h _ IH|log b h _ IH Hok|log b h _ IH|log b c Hs Hc _ IH|log c Hs _ IH].
  { exists []. rewrite app_nil_r. split; [done|]. split; [done|]. intros [|? ?] ? ?; done. }
  all: destruct IH as (sent & -> & Htls & Hall);
    eexists; (split; [by rewrite <-app_assoc|]); split.
  - done.
  - intros p c q [(_ & _ & ->)|(q' & -> & Hq)]%Hsplit Hs; [done|]. by eapply Hall.
  - intros _. exists sent, h, []. split; [by rewrite app_nil_r|]. split; [done|].
    by intros h' ?%elem_of_nil.
  - intros p c q [(_ & _ & ->)|(q' & -> & Hq)]%Hsplit Hs; [done|]. by eapply Hall.
  - done.
  - intros p c q [(_ & _ & ->)|(q' & -> & Hq)]%Hsplit Hs; [done|]. by eapply Hall.
  - intros Ht. destruct (Htls Ht) as (p1 & h & p2 & -> & Hk & Hd). exists p1, h, (p2 ++ [Smtp c]).
    split; [by rewrite <-!app_assoc|]. split; [done|]. intros h'.
    rewrite elem_of_app, list_elem_of_singleton. intros [?|[= <-]]; [by eapply Hd|done].
  - intros p c' q [(_ & _ & ->)|(q' & -> & Hq)]%Hsplit Hs'; [congruence|]. by eapply Hall.
  - intros _. destruct (Htls eq_refl) as (p1 & h & p2 & -> & Hk & Hd). exists p1, h, (p2 ++ [Smtp c]).
    split; [by rewrite <-!app_assoc|]. split; [done|]. intros h'.
    rewrite elem_of_app, list_elem_of_singleton. intros [?|[= <-]]; [by eapply Hd|done].
  - intros p c' q [(_ & -> & ->)|(q' & -> & Hq)]%Hsplit Hs'; [by apply Htls|]. by eapply Hall.
Qed.

(** Neither the digest nor the relay's password leaves in the clear: however
    the relay behaves and however often delivery is retried, unless the relay
    was marked insecure each of them is sent on a connection that was upgraded
    to TLS, with the relay's consent, since it was opened. *)
Theorem digest_mail_never_plaintext sink msg log r log' :
  es_insecure sink = false → deliverDigestEmail sink msg log = (r, log') →
  ∃ sent, log' = log ++ sent ∧
    ∀ p c q, sent = p ++ [Smtp c] ++ q → sensitive c = true →
      ∃ p1 h p2, p = p1 ++ [Smtp (StartTLS h)] ++ p2 ∧
        is_Ok (smtp (log ++ p1) (StartTLS h)) = true ∧ ∀ h', Smtp (Dial h') ∉ p2.
Proof.
  intros Hi Hd. destruct (conv_retry log false (pred deliverAttempts) sink msg Hi _ _ _ (ch_base log) Hd)
    as [[b Hb] _]. apply channel_secured in Hb as (sent & -> & _ & Hall). eauto.
Qed.
End delivery.

(** ** Examples: a receiver that answers the second post, an obliging relay *)
Definition w_url : URLParser := λ s, if bool_decide (s = "") then None else Some ("https", "h").
Definition w_view : digestView := mkDigestView 1 "daily" 0 10 2 1 1 0 1 ["missed"].
Definition w_outside : Outside := {|
  http log p := Ok (if (length log =? 1)%nat then 204 else 503);
  smtp log c := Ok true;
  mac_hex k b := k +:+ b;
  MarshalEvent _ := Ok "{}";
  UnmarshalDigest b := if bool_decide (b = "") then None else Some w_view;
  MarshalText t := Some t;
  Indent b := Some b;
  FormatDate _ := "2026-01-01";
  FormatRFC1123Z _ := "Thu, 01 Jan 2026 00:00:00 +0000"
|}.
Definition w_hook : Webhook := mkWebhook 1 3 "https://h/x" "k" true "" 0.
Definition w_hooks : WebhookStore := put_webhooks 1 {[ 1 := w_hook ]} NewWebhookStore.
Definition w_sink : emailSink := mkEmailSink "h:587" "h" "u" "p" "a@h" ["b@h"] false.

Lemma delivery_bounded_witness :
  ∃ k, deliverOne (HU := w_url) (HO := w_outside) w_hook "b" [] =
         (Ok tt, posts k (post_of (HO := w_outside) w_hook "b")) ∧ (1 <= k <= 3)%nat.
Proof.
  destruct (delivery_bounded (HU := w_url) (HO := w_outside) w_hook "b" [])
    as (r & k & Hd & Hk & _); [by eexists|].
  assert ((deliverOne (HU := w_url) (HO := w_outside) w_hook "b" []).1 = Ok tt) as Hr
    by reflexivity.
  rewrite Hd in Hr. cbn in Hr. subst r. exists k. split; [exact Hd|exact Hk].
Defined.

Lemma digest_answer_exact_witness :
  ∃ r log', DeliverDigest (HU := w_url) (HO := w_outside) w_hooks
              (mkSinks None None (Some w_sink)) 5 3 "d" [] = (r, log') ∧ r ≠ Ok false.
Proof.
  pose proof (digest_answer_exact (HU := w_url) (HO := w_outside) w_hooks
    (mkSinks None None (Some w_sink)) 5 3 "d" [] [w_hook] ltac:(vm_compute; reflexivity)) as Hx.
  cbv zeta in Hx. destruct (run_all _ _) as [outcomes log'].
  destruct Hx as (r & Hd & _ & _ & Hf & _). exists r, log'. split; [exact Hd|]. by intros ?%Hf.
Defined.

Lemma digest_mail_never_plaintext_witness :
  ∃ r log', deliverDigestEmail (HO := w_outside) w_sink "m" [] = (r, log') ∧
    ∃ sent, log' = [] ++ sent ∧ Smtp (DataWrite "m") ∈ sent.
Proof.
  destruct (deliverDigestEmail (HO := w_outside) w_sink "m" []) as [r log'] eqn:E.
  exists r, log'. split; [done|].
  destruct (digest_mail_never_plaintext (HO := w_outside) w_sink "m" [] r log' eq_refl E)
    as (sent & -> & _). exists sent. split; [done|].
  vm_compute in E. injection E as _ <-. apply list_elem_of_In. cbn. tauto.
Defined.
