(* ===== verification/Config.v ===== *)
(** * Configuration ([internal/config])

    The settings a process starts from: read from environment variables with
    defaults, then validated as a whole, so that a combination that would leave
    the service open or unusable refuses to start.

    Parameters: the JSON decoders of the two list-valued variables, the URL
    parser and the query of a URL.  An error is its message up to the values it
    quotes. *)
From Stdlib Require Import Ascii.
From S2P Require Import Prelude Errors GoStrings GoFloat ParseFloat GoDuration Taurus Rbac Webhook.

Definition cerror : Type := string.

Record HTTPConfig := mkHTTPConfig {
  hc_Port : Z; hc_ReadTimeout : duration; hc_WriteTimeout : duration; hc_IdleTimeout : duration;
  hc_TriggerReadyPoll : duration; hc_TriggerReadyTimeout : duration; hc_TriggerAbsentTimeout : duration
}.
Record DBConfig := mkDBConfig { db_Driver : string; db_DSN : string }.
Record LogConfig := mkLogConfig { lg_Level : string; lg_Format : string }.
Record StorageConfig := mkStorageConfig {
  sg_Driver : string; sg_Root : string; sg_BaseURL : string; sg_Repo : string; sg_Username : string; sg_Password : string
}.
Record ClusterConfig := mkClusterConfig {
  cc_Scheduler : string; cc_Namespace : string; cc_DefaultEngine : Executor; cc_EngineImages : gmap Executor string;
  cc_EnginePort : Z; cc_Context : string; cc_IngestToken : string; cc_SidecarImage : string; cc_IngestURL : string;
  cc_ReconcileInterval : duration; cc_RunReconcileAfter : duration; cc_EngineIdleTTL : duration; cc_CredentialKey : string
}.
Record OIDCConfig := mkOIDCConfig { oc_Issuer : string; oc_Audience : string; oc_JWKSURL : string }.
Record DemoProfile := mkDemoProfile {
  dp_ID : string; dp_Name : string; dp_Subject : string; dp_Email : string;
  dp_Global : list string; dp_Tenants : gmap Z (list string)
}.
Record DemoConfig := mkDemoConfig { dm_Enabled : bool; dm_SigningKey : string; dm_Profiles : list DemoProfile }.
Record AuthConfig := mkAuthConfig {
  auc_Mode : string; auc_EnableRBAC : bool; auc_OIDC : OIDCConfig; auc_Demo : DemoConfig
}.
Record SchedulerConfig := mkSchedulerConfig { sdc_TickInterval : duration; sdc_HorizonInterval : duration }.
Record CalibratorConfig := mkCalibratorConfig { cbc_TickInterval : duration; cbc_HostInScheduler : bool }.
Record APMLinkTemplate := mkAPMLinkTemplate { apm_Name : string; apm_URLTemplate : string }.
Record DigestConfig := mkDigestConfig {
  dgc_WebhookURL : string; dgc_WebhookSecret : string; dgc_SlackWebhookURL : string; dgc_SMTPURL : string
}.
Record Config := mkConfig {
  cfg_HTTP : HTTPConfig; cfg_DB : DBConfig; cfg_Log : LogConfig; cfg_Storage : StorageConfig;
  cfg_MaxEngines : Z; cfg_Cluster : ClusterConfig; cfg_Auth : AuthConfig; cfg_Scheduler : SchedulerConfig;
  cfg_Calibrator : CalibratorConfig; cfg_APM : list APMLinkTemplate; cfg_Digest : DigestConfig; cfg_LatencyHintMS : Z
}.

(** ** Engine images ([engines.go]) *)
Fixpoint parse_pairs (pairs : list string) (images : gmap Executor string) : result cerror (gmap Executor string) :=
  match pairs with
  | [] => Ok images
  | entry :: rest =>
      let entry := TrimSpace entry in
      if bool_decide (entry = "") then parse_pairs rest images
      else
        match CutBy entry "="%char with
        | None => Err "engine image must be written engine=image:tag"
        | Some (name, image) =>
            let name := TrimSpace name in
            let image := TrimSpace image in
            if bool_decide (image = "") then Err "engine image must be written engine=image:tag"
            else if negb (Known name) then Err "unknown engine in engine images"
            else if negb (Contains image ":") && negb (Contains image "@")
            then Err "engine image has no tag or digest"
            else parse_pairs rest (<[name := image]> images)
        end
  end.
Definition ParseEngineImages (raw : string) : result cerror (gmap Executor string) :=
  if bool_decide (TrimSpace raw = "") then Ok ∅ else parse_pairs (SplitBy raw ","%char) ∅.
Definition ValidateEngines (c : ClusterConfig) : result cerror unit :=
  if bool_decide (cc_EngineImages c = ∅) then Err "no engine images configured"
  else if negb (Known (cc_DefaultEngine c)) then Err "unknown default engine"
  else match cc_EngineImages c !! cc_DefaultEngine c with
       | None => Err "default engine has no image"
       | Some _ => Ok tt
       end.
Definition ImageFor (c : ClusterConfig) (engine : Executor) : result cerror string :=
  let engine := if bool_decide (engine = "") then cc_DefaultEngine c else engine in
  match cc_EngineImages c !! engine with
  | Some image => Ok image
  | None => Err "no image configured for engine"
  end.

(** ** Validation *)
Definition check (b : bool) (e : cerror) : result cerror unit := if b then Err e else Ok tt.
Definition oneOf (v : string) (allowed : list string) : bool := bool_decide (v ∈ allowed).
Definition role_known (role : string) : bool := bool_decide (is_Some (DefaultCatalog !! role)).
Definition none_nil {A} (l : list A) : bool := match l with [] => true | _ => false end.

(** Tenants in the order the map is iterated; only which of several errors is
    reported depends on it. *)
Definition profile_grants (p : DemoProfile) : result cerror unit :=
  _ ← check (negb (forallb role_known (dp_Global p))) "demo profile grants unknown global role";
  foldr (λ '(tenantID, roles) k,
      _ ← check (tenantID <? 1) "demo profile grants a role in a tenant whose id is not positive";
      _ ← check (negb (forallb role_known roles)) "demo profile grants unknown role in tenant";
      k) (Ok tt) (map_to_list (dp_Tenants p)).
Fixpoint check_profiles (seen : gset string) (profiles : list DemoProfile) : result cerror unit :=
  match profiles with
  | [] => Ok tt
  | p :: rest =>
      _ ← check (bool_decide (dp_ID p = "")) "demo profile has an empty id";
      _ ← check (bool_decide (dp_ID p ∈ seen)) "duplicate demo profile id";
      _ ← profile_grants p;
      check_profiles ({[ dp_ID p ]} ∪ seen) rest
  end.
Definition validateProfiles (d : DemoConfig) : result cerror unit :=
  if dm_Enabled d then check_profiles ∅ (dm_Profiles d) else Ok tt.

(** [\{\{([a-zA-Z_]+)\}\}]: the names of the matches, from left to right. *)
Definition name_char (a : ascii) : bool := in_range 97 122 a || in_range 65 90 a || in_range 95 95 a.
Fixpoint take_name (l : list ascii) : list ascii * list ascii :=
  match l with
  | a :: l' => if name_char a then let '(n, r) := take_name l' in (a :: n, r) else ([], l)
  | [] => ([], [])
  end.
Definition placeholder_at (l : list ascii) : option (list ascii * list ascii) :=
  match l with
  | a :: b :: l' =>
      if is_char 123 a && is_char 123 b then
        match take_name l' with
        | (_ :: _ as n, c :: d :: rest) => if is_char 125 c && is_char 125 d then Some (n, rest) else None
        | _ => None
        end
      else None
  | _ => None
  end.
Fixpoint placeholders_from (fuel : nat) (l : list ascii) : list string :=
  match fuel, l with
  | S fuel, _ :: l' =>
      match placeholder_at l with
      | Some (n, rest) => of_bytes n :: placeholders_from fuel rest
      | None => placeholders_from fuel l'
      end
  | _, _ => []
  end.
Definition placeholders (s : string) : list string := placeholders_from (String.length s) (bytes_of s).
Definition apmLinkPlaceholders : list string := ["correlation_id"; "execution_id"; "run_id"; "project_id"].
Fixpoint check_templates (seen : gset string) (ts : list APMLinkTemplate) : result cerror unit :=
  match ts with
  | [] => Ok tt
  | t :: rest =>
      _ ← check (bool_decide (apm_Name t = "")) "apm link template has an empty name";
      _ ← check (bool_decide (apm_Name t ∈ seen)) "duplicate apm link template name";
      _ ← check (bool_decide (apm_URLTemplate t = "")) "apm link template has an empty urlTemplate";
      _ ← check (negb (forallb (λ m, bool_decide (m ∈ apmLinkPlaceholders)) (placeholders (apm_URLTemplate t))))
            "apm link template uses unknown placeholder";
      check_templates ({[ apm_Name t ]} ∪ seen) rest
  end.
Definition validateLinkTemplates (ts : list APMLinkTemplate) : result cerror unit := check_templates ∅ ts.

Section config.
Context `{!URLParser} (Query : string → string → string).
Context (UnmarshalProfiles : string → option (list DemoProfile)).
Context (UnmarshalTemplates : string → option (list APMLinkTemplate)).

Definition check_https (raw : string) : result cerror unit :=
  if bool_decide (raw = "") then Ok tt
  else match url_Parse raw with
       | Some (scheme, host) =>
           check (bool_decide (host = "") || negb (bool_decide (scheme = "https"))) "must be an absolute https URL"
       | None => Err "must be an absolute https URL"
       end.
Definition check_smtp (raw : string) : result cerror unit :=
  if bool_decide (raw = "") then Ok tt
  else match url_Parse raw with
       | Some (scheme, host) =>
           _ ← check (negb (bool_decide (scheme = "smtp")) || bool_decide (host = "")) "DIGEST_SMTP_URL must be smtp://";
           check (bool_decide (Query raw "from" = "") || bool_decide (Query raw "to" = ""))
             "DIGEST_SMTP_URL needs from= and to= query parameters"
       | None => Err "DIGEST_SMTP_URL must be smtp://"
       end.
Definition port_bad (p : Z) : bool := (p <? 1) || (65535 <? p).

Definition validate (c : Config) : result cerror unit :=
  let cl := cfg_Cluster c in
  let st := cfg_Storage c in
  let au := cfg_Auth c in
  let dm := auc_Demo au in
  _ ← check (port_bad (hc_Port (cfg_HTTP c))) "HTTP port out of range 1-65535";
  _ ← check (negb (oneOf (lg_Level (cfg_Log c)) ["debug"; "info"; "warn"; "error"])) "invalid log level";
  _ ← check (negb (oneOf (lg_Format (cfg_Log c)) ["json"; "text"])) "invalid log format";
  _ ← check (negb (oneOf (db_Driver (cfg_DB c)) ["fake"; "mysql"])) "invalid db driver";
  _ ← check (bool_decide (db_Driver (cfg_DB c) = "mysql") && bool_decide (db_DSN (cfg_DB c) = ""))
        "db driver mysql requires DB_DSN";
  _ ← check (cfg_MaxEngines c <=? 0) "MAX_ENGINES must be positive";
  _ ← check (negb (oneOf (cc_Scheduler cl) ["fake"; "k8s"])) "invalid scheduler";
  _ ← check (bool_decide (cc_Scheduler cl = "k8s") && bool_decide (cc_SidecarImage cl = ""))
        "scheduler k8s requires SIDECAR_IMAGE";
  _ ← check (bool_decide (cc_Scheduler cl = "k8s") && bool_decide (cc_IngestURL cl = ""))
        "scheduler k8s requires INGEST_URL";
  _ ← ValidateEngines cl;
  _ ← check (negb (oneOf (sg_Driver st) ["local"; "nexus"])) "invalid storage driver";
  _ ← check (bool_decide (sg_Driver st = "nexus") && bool_decide (sg_BaseURL st = ""))
        "storage driver nexus requires STORAGE_BASE_URL";
  _ ← check (bool_decide (sg_Driver st = "nexus") && bool_decide (sg_Repo st = ""))
        "storage driver nexus requires NEXUS_REPO";
  _ ← check (port_bad (cc_EnginePort cl)) "ENGINE_PORT out of range 1-65535";
  _ ← check (negb (oneOf (auc_Mode au) ["none"; "oidc"; "demo"])) "invalid auth mode";
  _ ← check (bool_decide (auc_Mode au = "oidc") && bool_decide (oc_Issuer (auc_OIDC au) = ""))
        "auth mode oidc requires OIDC_ISSUER";
  _ ← check (bool_decide (auc_Mode au = "oidc") && bool_decide (oc_JWKSURL (auc_OIDC au) = ""))
        "auth mode oidc requires OIDC_JWKS_URL";
  _ ← check (dm_Enabled dm && negb (bool_decide (auc_Mode au = "demo"))) "demo.enabled requires AUTH_MODE=demo";
  _ ← check (bool_decide (auc_Mode au = "demo") && negb (dm_Enabled dm)) "auth mode demo requires DEMO_ENABLED=true";
  _ ← check (bool_decide (auc_Mode au = "demo") && negb (auc_EnableRBAC au)) "auth mode demo requires ENABLE_RBAC=true";
  _ ← check (bool_decide (auc_Mode au = "demo") && bool_decide (dm_SigningKey dm = ""))
        "auth mode demo requires DEMO_SIGNING_KEY";
  _ ← check (bool_decide (auc_Mode au = "demo") && none_nil (dm_Profiles dm))
        "auth mode demo requires DEMO_PROFILES with at least one persona";
  _ ← validateProfiles dm;
  _ ← validateLinkTemplates (cfg_APM c);
  _ ← check (sdc_TickInterval (cfg_Scheduler c) <=? 0) "SCHEDULER_TICK_INTERVAL must be positive";
  _ ← check (sdc_HorizonInterval (cfg_Scheduler c) <=? 0) "SCHEDULER_HORIZON_INTERVAL must be positive";
  _ ← check (cbc_TickInterval (cfg_Calibrator c) <=? 0) "CALIBRATOR_TICK_INTERVAL must be positive";
  _ ← check (cfg_LatencyHintMS c <=? 0) "MODE_LATENCY_HINT_MS must be positive";
  _ ← check_https (dgc_WebhookURL (cfg_Digest c));
  _ ← check_https (dgc_SlackWebhookURL (cfg_Digest c));
  check_smtp (dgc_SMTPURL (cfg_Digest c)).

(** ** Loading *)
Definition envPrefix : string := "HONRYU_".
Section load.
Context (getenv : string → string).
Definition strEnv (key def : string) : string :=
  let v := getenv (envPrefix +:+ key) in if bool_decide (v = "") then def else v.
Definition parsedEnv {A} (parse : string → option A) (what key : string) (def : A) : result cerror A :=
  let v := getenv (envPrefix +:+ key) in
  if bool_decide (v = "") then Ok def
  else match parse v with Some x => Ok x | None => Err (key +:+ " must be " +:+ what) end.
Definition intEnv : string → Z → result cerror Z := parsedEnv Atoi "an integer".
Definition durEnv : string → duration → result cerror duration := parsedEnv ParseDuration "a duration".
Definition boolEnv : string → bool → result cerror bool := parsedEnv ParseBool "a boolean".
(** A list-valued variable: its decoder when it is set, else the default. *)
Definition decodedEnv {A} (parse : string → result cerror A) (key : string) (def : A) : result cerror A :=
  let raw := strEnv key "" in if bool_decide (raw = "") then Ok def else parse raw.
Definition or_error {A} (e : cerror) (o : option A) : result cerror A :=
  match o with Some x => Ok x | None => Err e end.
Definition minute : duration := 60 * second.

Definition read_config : result cerror Config :=
  port ← intEnv "HTTP_PORT" 8080;
  readTimeout ← durEnv "HTTP_READ_TIMEOUT" (15 * second);
  writeTimeout ← durEnv "HTTP_WRITE_TIMEOUT" (15 * second);
  idleTimeout ← durEnv "HTTP_IDLE_TIMEOUT" (60 * second);
  poll ← durEnv "HTTP_TRIGGER_READY_POLL" (2 * second);
  ready ← durEnv "HTTP_TRIGGER_READY_TIMEOUT" (2 * minute);
  absent ← durEnv "TRIGGER_ABSENT_TIMEOUT" (30 * second);
  maxEngines ← intEnv "MAX_ENGINES" 500;
  images ← decodedEnv ParseEngineImages "ENGINE_IMAGES" {[ ExecutorJMeter := "honryu/engine-jmeter:5.6.3" ]};
  enginePort ← intEnv "ENGINE_PORT" 8080;
  reconcile ← durEnv "RECONCILE_INTERVAL" minute;
  after ← durEnv "RUN_RECONCILE_AFTER" (120 * minute);
  idleTTL ← durEnv "ENGINE_IDLE_TTL" 0;
  rbac ← boolEnv "ENABLE_RBAC" false;
  demo ← boolEnv "DEMO_ENABLED" false;
  profiles ← decodedEnv (λ raw, or_error "DEMO_PROFILES must be a JSON array of profiles" (UnmarshalProfiles raw))
               "DEMO_PROFILES" [];
  templates ← decodedEnv (λ raw, or_error "APM_LINK_TEMPLATES must be a JSON array" (UnmarshalTemplates raw))
                "APM_LINK_TEMPLATES" [];
  tick ← durEnv "SCHEDULER_TICK_INTERVAL" (30 * second);
  horizon ← durEnv "SCHEDULER_HORIZON_INTERVAL" (1440 * minute);
  calTick ← durEnv "CALIBRATOR_TICK_INTERVAL" (30 * second);
  host ← boolEnv "CALIBRATOR_HOST_IN_SCHEDULER" false;
  hint ← intEnv "MODE_LATENCY_HINT_MS" 250;
  Ok (mkConfig
    (mkHTTPConfig port readTimeout writeTimeout idleTimeout poll ready absent)
    (mkDBConfig (strEnv "DB_DRIVER" "fake") (strEnv "DB_DSN" ""))
    (mkLogConfig (strEnv "LOG_LEVEL" "info") (strEnv "LOG_FORMAT" "json"))
    (mkStorageConfig (strEnv "STORAGE_DRIVER" "local") (strEnv "STORAGE_ROOT" "storage-data")
       (strEnv "STORAGE_BASE_URL" "") (strEnv "NEXUS_REPO" "") (strEnv "NEXUS_USERNAME" "") (strEnv "NEXUS_PASSWORD" ""))
    maxEngines
    (mkClusterConfig (strEnv "SCHEDULER" "fake") (strEnv "K8S_NAMESPACE" "default")
       (strEnv "DEFAULT_ENGINE" ExecutorJMeter) images enginePort (strEnv "DEPLOY_CONTEXT" "default")
       (strEnv "INGEST_TOKEN" "") (strEnv "SIDECAR_IMAGE" "") (strEnv "INGEST_URL" "") reconcile after idleTTL
       (strEnv "CLUSTER_CREDENTIAL_KEY" ""))
    (mkAuthConfig (strEnv "AUTH_MODE" "none") rbac
       (mkOIDCConfig (strEnv "OIDC_ISSUER" "") (strEnv "OIDC_AUDIENCE" "") (strEnv "OIDC_JWKS_URL" ""))
       (mkDemoConfig demo (strEnv "DEMO_SIGNING_KEY" "") profiles))
    (mkSchedulerConfig tick horizon) (mkCalibratorConfig calTick host) templates
    (mkDigestConfig (strEnv "DIGEST_WEBHOOK_URL" "") (strEnv "DIGEST_WEBHOOK_SECRET" "")
       (strEnv "DIGEST_SLACK_WEBHOOK_URL" "") (strEnv "DIGEST_SMTP_URL" ""))
    hint).
Definition Load : result cerror Config :=
  c ← read_config; _ ← validate c; Ok c.
End load.
End config.

(** ** What a configuration that loads is *)
Lemma check_Ok b e u : check b e = Ok u ↔ b = false.
Proof. unfold check. destruct b, u; split; done. Qed.
Lemma bind_check {A} b e (k : result cerror A) x : (_ ← check b e; k) = Ok x ↔ b = false ∧ k = Ok x.
Proof. unfold check. destruct b; cbn; naive_solver. Qed.
Lemma bind_unit {A} (m : result cerror unit) (k : result cerror A) x : (_ ← m; k) = Ok x ↔ m = Ok tt ∧ k = Ok x.
Proof. destruct m as [[]|]; cbn; naive_solver. Qed.
Lemma forallb_false {A} (f : A → bool) l : negb (forallb f l) = false ↔ Forall (λ x, f x = true) l.
Proof. by rewrite negb_false_iff, forallb_forall, Forall_forall; setoid_rewrite list_elem_of_In. Qed.

(** Every role a persona is given exists, in tenants with proper ids. *)
Definition persona_ok (p : DemoProfile) : Prop :=
  dp_ID p ≠ "" ∧ Forall (λ r, is_Some (DefaultCatalog !! r)) (dp_Global p) ∧
  map_Forall (λ t rs, 1 <= t ∧ Forall (λ r, is_Some (DefaultCatalog !! r)) rs) (dp_Tenants p).
Lemma roles_known l : negb (forallb role_known l) = false ↔ Forall (λ r, is_Some (DefaultCatalog !! r)) l.
Proof.
  rewrite forallb_false. unfold role_known. apply Forall_iff. intros r. apply bool_decide_eq_true.
Qed.
Lemma profile_grants_Ok p :
  profile_grants p = Ok tt ↔ Forall (λ r, is_Some (DefaultCatalog !! r)) (dp_Global p) ∧
    map_Forall (λ t rs, 1 <= t ∧ Forall (λ r, is_Some (DefaultCatalog !! r)) rs) (dp_Tenants p).
Proof.
  unfold profile_grants. rewrite bind_check, roles_known, map_Forall_to_list. apply and_iff_compat_l.
  induction (map_to_list (dp_Tenants p)) as [|[t rs] l IH]; [split; [constructor|done]|].
  cbn [foldr]. rewrite !bind_check, IH, roles_known, Forall_cons, Z.ltb_ge. cbn. tauto.
Qed.
Lemma check_profiles_Ok seen ps :
  check_profiles seen ps = Ok tt ↔
  Forall persona_ok ps ∧ NoDup (dp_ID <$> ps) ∧ Forall (λ p, dp_ID p ∉ seen) ps.
Proof.
  revert seen. induction ps as [|p ps IH]; intros seen; cbn [check_profiles].
  { split; [intros _; split_and!; constructor|done]. }
  rewrite !bind_check, bind_unit, IH, profile_grants_Ok, !bool_decide_eq_false. csimpl.
  rewrite NoDup_cons, !Forall_cons. unfold persona_ok.
  assert (Forall (λ q, dp_ID q ∉ ({[dp_ID p]} ∪ seen : gset string)) ps ↔
    (dp_ID p ∉ (dp_ID <$> ps)) ∧ Forall (λ q, dp_ID q ∉ seen) ps) as ->; [|tauto].
  rewrite !Forall_forall. rewrite list_elem_of_fmap. set_solver.
Qed.
(** A link template names only what a report can fill in. *)
Definition template_ok (t : APMLinkTemplate) : Prop :=
  apm_Name t ≠ "" ∧ apm_URLTemplate t ≠ "" ∧
  Forall (λ m, m ∈ apmLinkPlaceholders) (placeholders (apm_URLTemplate t)).
Lemma check_templates_Ok seen ts :
  check_templates seen ts = Ok tt ↔
  Forall template_ok ts ∧ NoDup (apm_Name <$> ts) ∧ Forall (λ t, apm_Name t ∉ seen) ts.
Proof.
  revert seen. induction ts as [|t ts IH]; intros seen; cbn [check_templates].
  { split; [intros _; split_and!; constructor|done]. }
  rewrite !bind_check, IH, !bool_decide_eq_false, forallb_false. csimpl.
  setoid_rewrite bool_decide_eq_true. rewrite NoDup_cons, !Forall_cons. unfold template_ok.
  assert (Forall (λ q, apm_Name q ∉ ({[apm_Name t]} ∪ seen : gset string)) ts ↔
    (apm_Name t ∉ (apm_Name <$> ts)) ∧ Forall (λ q, apm_Name q ∉ seen) ts) as ->; [|tauto].
  rewrite !Forall_forall. rewrite list_elem_of_fmap. set_solver.
Qed.

Section valid.
Context `{!URLParser} (Query : string → string → string).

Definition https_ok (raw : string) : Prop :=
  raw ≠ "" → ∃ host, url_Parse raw = Some ("https", host) ∧ host ≠ "".
Definition smtp_ok (raw : string) : Prop :=
  raw ≠ "" → ∃ host, url_Parse raw = Some ("smtp", host) ∧ host ≠ "" ∧ Query raw "from" ≠ "" ∧ Query raw "to" ≠ "".

(** A configuration the process can run on. *)
Record valid (c : Config) : Prop := {
  v_port : 1 <= hc_Port (cfg_HTTP c) <= 65535;
  v_log : lg_Level (cfg_Log c) ∈ ["debug"; "info"; "warn"; "error"] ∧ lg_Format (cfg_Log c) ∈ ["json"; "text"];
  v_db : db_Driver (cfg_DB c) ∈ ["fake"; "mysql"] ∧ (db_Driver (cfg_DB c) = "mysql" → db_DSN (cfg_DB c) ≠ "");
  v_engines : 0 < cfg_MaxEngines c;
  v_scheduler : cc_Scheduler (cfg_Cluster c) ∈ ["fake"; "k8s"];
  v_k8s : cc_Scheduler (cfg_Cluster c) = "k8s" →
    cc_SidecarImage (cfg_Cluster c) ≠ "" ∧ cc_IngestURL (cfg_Cluster c) ≠ "";
  v_default : Known (cc_DefaultEngine (cfg_Cluster c)) = true ∧
    is_Some (cc_EngineImages (cfg_Cluster c) !! cc_DefaultEngine (cfg_Cluster c));
  v_storage : sg_Driver (cfg_Storage c) ∈ ["local"; "nexus"];
  v_nexus : sg_Driver (cfg_Storage c) = "nexus" → sg_BaseURL (cfg_Storage c) ≠ "" ∧ sg_Repo (cfg_Storage c) ≠ "";
  v_engine_port : 1 <= cc_EnginePort (cfg_Cluster c) <= 65535;
  v_mode : auc_Mode (cfg_Auth c) ∈ ["none"; "oidc"; "demo"];
  v_oidc : auc_Mode (cfg_Auth c) = "oidc" →
    oc_Issuer (auc_OIDC (cfg_Auth c)) ≠ "" ∧ oc_JWKSURL (auc_OIDC (cfg_Auth c)) ≠ "";
  v_demo : dm_Enabled (auc_Demo (cfg_Auth c)) = true ↔ auc_Mode (cfg_Auth c) = "demo";
  v_personas : auc_Mode (cfg_Auth c) = "demo" →
    auc_EnableRBAC (cfg_Auth c) = true ∧ dm_SigningKey (auc_Demo (cfg_Auth c)) ≠ "" ∧
    dm_Profiles (auc_Demo (cfg_Auth c)) ≠ [] ∧ Forall persona_ok (dm_Profiles (auc_Demo (cfg_Auth c))) ∧
    NoDup (dp_ID <$> dm_Profiles (auc_Demo (cfg_Auth c)));
  v_links : Forall template_ok (cfg_APM c) ∧ NoDup (apm_Name <$> cfg_APM c);
  v_ticks : 0 < sdc_TickInterval (cfg_Scheduler c) ∧ 0 < sdc_HorizonInterval (cfg_Scheduler c) ∧
    0 < cbc_TickInterval (cfg_Calibrator c) ∧ 0 < cfg_LatencyHintMS c;
  v_digest : https_ok (dgc_WebhookURL (cfg_Digest c)) ∧ https_ok (dgc_SlackWebhookURL (cfg_Digest c)) ∧
    smtp_ok (dgc_SMTPURL (cfg_Digest c))
}.

Lemma check_https_Ok raw : check_https raw = Ok tt ↔ https_ok raw.
Proof using.
  unfold check_https, https_ok. case_bool_decide as He; [split; done|].
  destruct (url_Parse raw) as [[scheme host]|]; [|split; [done|intros Hh; by destruct (Hh He) as (? & ? & _)]].
  rewrite check_Ok, orb_false_iff, negb_false_iff, bool_decide_eq_false, bool_decide_eq_true. split.
  - intros [? ->] _. by exists host.
  - intros Hh. destruct (Hh He) as (h & [= -> ->] & ?). done.
Qed.
Lemma check_smtp_Ok raw : check_smtp Query raw = Ok tt ↔ smtp_ok raw.
Proof using.
  unfold check_smtp, smtp_ok. case_bool_decide as He; [split; done|].
  destruct (url_Parse raw) as [[scheme host]|]; [|split; [done|intros Hh; by destruct (Hh He) as (? & ? & _)]].
  rewrite bind_check, check_Ok, !orb_false_iff, negb_false_iff, !bool_decide_eq_false, bool_decide_eq_true. split.
  - intros [[-> ?] [? ?]] _. by exists host.
  - intros Hh. destruct (Hh He) as (h & [= -> ->] & ? & ? & ?). done.
Qed.
Lemma oneOf_ok v l : negb (oneOf v l) = false ↔ v ∈ l.
Proof using. unfold oneOf. by rewrite negb_false_iff, bool_decide_eq_true. Qed.
Lemma needs (P Q : Prop) `{!Decision P, !Decision Q} : bool_decide P && bool_decide Q = false ↔ (P → ¬ Q).
Proof using. rewrite andb_false_iff, !bool_decide_eq_false. destruct (decide P); tauto. Qed.
Lemma port_ok p : port_bad p = false ↔ 1 <= p <= 65535.
Proof using. unfold port_bad. rewrite orb_false_iff, !Z.ltb_ge. done. Qed.
Lemma ValidateEngines_Ok c :
  ValidateEngines c = Ok tt ↔ Known (cc_DefaultEngine c) = true ∧ is_Some (cc_EngineImages c !! cc_DefaultEngine c).
Proof using.
  unfold ValidateEngines. case_bool_decide as He.
  { split; [done|]. rewrite He. intros [_ [? [=]]]. }
  destruct (Known (cc_DefaultEngine c)); cbn; [|split; [done|by intros [? _]]].
  destruct (cc_EngineImages c !! cc_DefaultEngine c); split; intros Hx; try done; by destruct Hx as [_ [? [=]]].
Qed.

(** Validation accepts exactly the valid configurations. *)
Lemma validate_Ok c : validate Query c = Ok tt ↔ valid c.
Proof using.
  assert (∀ l : list DemoProfile, bool_decide (auc_Mode (cfg_Auth c) = "demo") && none_nil l = false ↔
    (auc_Mode (cfg_Auth c) = "demo" → l ≠ [])) as Hnil.
  { intros l. destruct l; case_bool_decide; cbn; split; naive_solver. }
  assert (∀ b, bool_decide (auc_Mode (cfg_Auth c) = "demo") && negb b = false ↔
    (auc_Mode (cfg_Auth c) = "demo" → b = true)) as Hb.
  { intros b. destruct b; case_bool_decide; cbn; split; naive_solver. }
  assert (∀ b, b && negb (bool_decide (auc_Mode (cfg_Auth c) = "demo")) = false ↔
    (b = true → auc_Mode (cfg_Auth c) = "demo")) as Hen.
  { intros b. destruct b; case_bool_decide; cbn; split; naive_solver. }
  assert (∀ d, validateProfiles d = Ok tt ↔
    (dm_Enabled d = true → Forall persona_ok (dm_Profiles d) ∧ NoDup (dp_ID <$> dm_Profiles d))) as Hprof.
  { intros [[] k ps]; unfold validateProfiles; cbn; [|split; done]. rewrite check_profiles_Ok. split; [naive_solver|].
    intros H'. destruct (H' eq_refl) as [? ?]. split_and!; [done..|]. apply Forall_forall. set_solver. }
  assert (validateLinkTemplates (cfg_APM c) = Ok tt ↔ Forall template_ok (cfg_APM c) ∧ NoDup (apm_Name <$> cfg_APM c)) as Hlinks.
  { unfold validateLinkTemplates. rewrite check_templates_Ok. split; [naive_solver|]. intros [? ?].
    split_and!; [done..|]. apply Forall_forall. set_solver. }
  unfold validate. cbv zeta. split.
  - intros Hv. repeat (let H' := fresh in apply bind_unit in Hv as [H' Hv];
      rewrite ?check_Ok, ?check_https_Ok, ?ValidateEngines_Ok, ?oneOf_ok, ?port_ok, ?needs, ?Z.leb_gt, ?Hnil, ?Hb, ?Hen, ?Hprof, ?Hlinks in H').
    apply check_smtp_Ok in Hv. split; tauto.
  - intros []. repeat (apply bind_unit; split);
      rewrite ?check_Ok, ?check_https_Ok, ?check_smtp_Ok, ?ValidateEngines_Ok, ?oneOf_ok, ?port_ok, ?needs, ?Z.leb_gt, ?Hnil, ?Hb, ?Hen, ?Hprof, ?Hlinks; tauto.
Qed.
End valid.

(** Every engine of a parsed catalogue is a known one. *)
Lemma parse_pairs_known pairs images images' :
  parse_pairs pairs images = Ok images' → map_Forall (λ e _, Known e = true) images →
  map_Forall (λ e _, Known e = true) images'.
Proof.
  revert images. induction pairs as [|x pairs IH]; intros images; cbn [parse_pairs]; [by intros [= ->]|].
  case_bool_decide; [apply IH|]. destruct (CutBy _ _) as [[name image]|]; [|done].
  case_bool_decide; [done|]. destruct (Known (TrimSpace name)) eqn:Hk; [|done]. cbn. destruct (_ && _); [done|].
  intros Hp Hi. eapply IH; [exact Hp|]. by apply map_Forall_insert_2.
Qed.
Lemma decodedEnv_Ok {A} getenv (parse : string → result cerror A) key def x :
  decodedEnv getenv parse key def = Ok x → x = def ∨ ∃ raw, parse raw = Ok x.
Proof. unfold decodedEnv. case_bool_decide; [intros [= <-]; by left|]. intros Hp. right. by eexists. Qed.

(** C28. A process starts only on a sound configuration: what loads is exactly
    what was read and is valid (the credential-free demo login only
    under its own mode, with access control on, a signing key and personas of
    known roles; Kubernetes, MySQL, Nexus and OIDC only with what they need;
    ports and intervals in range; digests only to https and to complete mail
    addresses), a read configuration that is valid always loads, and then the
    default engine has an image, so an execution that names no engine can be
    deployed. *)
Theorem load_exact `{!URLParser} Query UnmarshalProfiles UnmarshalTemplates getenv c :
  Load Query UnmarshalProfiles UnmarshalTemplates getenv = Ok c ↔
  read_config UnmarshalProfiles UnmarshalTemplates getenv = Ok c ∧ valid Query c ∧
  is_Ok (ImageFor (cfg_Cluster c) "") = true ∧
  map_Forall (λ e _, Known e = true) (cc_EngineImages (cfg_Cluster c)).
Proof.
  unfold Load. destruct (read_config UnmarshalProfiles UnmarshalTemplates getenv) as [c'|] eqn:Hr;
    cbn [mbind result_bind]; [|naive_solver].
  rewrite bind_unit, validate_Ok. split.
  - intros [Hv [= ->]]. split_and!; [done..| |].
    + unfold ImageFor. rewrite bool_decide_true by done. by destruct (v_default _ _ Hv) as [_ [i ->]].
    + revert Hr. unfold read_config. cbv [mbind result_bind]. repeat (case_match; [|done]). intros [= <-]. cbn.
      match goal with H : decodedEnv _ ParseEngineImages _ _ = Ok _ |- _ => apply decodedEnv_Ok in H as [->|[raw Hp]] end.
      * apply map_Forall_singleton. done.
      * unfold ParseEngineImages in Hp. case_bool_decide; [injection Hp as <-; apply map_Forall_empty|].
        eapply parse_pairs_known; [exact Hp|apply map_Forall_empty].
  - intros ([= ->] & Hv & _). done.
Qed.

(** With nothing set the defaults load; a demo login without its mode does not;
    an image on a registry with a port passes for a tagged one. *)
Definition no_urls : URLParser := λ _, None.
Definition ex_load (env : gmap string string) : result cerror Config :=
  Load (H := no_urls) (λ _ _, "") (λ _, None) (λ _, None) (λ k, default "" (env !! k)).
Example defaults_load : is_Ok (ex_load ∅) = true.
Proof. vm_compute. reflexivity. Qed.
Example demo_needs_its_mode :
  ex_load {[ "HONRYU_DEMO_ENABLED" := "true" ]} = Err "demo.enabled requires AUTH_MODE=demo".
Proof. vm_compute. reflexivity. Qed.
Example port_passes_for_a_tag :
  ParseEngineImages "jmeter=registry:5000/engine, k6 = k6@sha256" =
    Ok (<["k6" := "k6@sha256"]> {[ "jmeter" := "registry:5000/engine" ]}) ∧
  ParseEngineImages "jmeter=engine" = Err "engine image has no tag or digest".
Proof. vm_compute. done. Qed.
