(* ===== verification/Digest.v ===== *)
(** * Report digests ([internal/domain/digest], [internal/app/digestapp])

    The periodic summary of a project's runs: what it aggregates, how its
    windows follow one another, who fires it, and what becomes of its delivery.
    The stored digests and schedules are the in-memory tables of
    [internal/ports/fake].  The JSON encoding of the payload, the objective
    grader ([SLOGrader]) and the delivery ([Deliverer]) are arguments. *)
From S2P Require Import Prelude Errors GoFloat Scenario Execution Taurus Calibration Report.
From S2P Require Import Store MetricsApp Threshold Slo Webhook.
Import Scenario.Scenario.

Inductive DeliveryStatus := DeliveryPending | DeliveryDelivered | DeliveryFailed.
#[global] Instance DeliveryStatus_eq_dec : EqDecision DeliveryStatus.
Proof. solve_decision. Defined.

Definition Period := string.
Definition PeriodDaily : Period := "daily".
Definition PeriodWeekly : Period := "weekly".
Definition ParsePeriod (raw : string) : result error Period :=
  if bool_decide (raw = PeriodDaily) || bool_decide (raw = PeriodWeekly) then Ok raw
  else Err ErrPeriodInvalid.
Definition Period_Duration (p : Period) : duration :=
  if bool_decide (p = PeriodWeekly) then 7 * 24 * hour else 24 * hour.

Record Digest := mkDigest {
  dg_ID : Z; dg_ProjectID : Z; dg_Period : Period; dg_WindowStart : time; dg_WindowEnd : time;
  dg_Payload : string; dg_DeliveryStatus : DeliveryStatus; dg_DeliveredAt : option time;
  dg_CreatedTime : time
}.
Record DigestSchedule := mkDigestSchedule {
  ds_ProjectID : Z; ds_Period : Period; ds_Enabled : bool; ds_LastFired : option time
}.

(** ** The stored digests *)
Record DigestStore := mkDigestStore {
  digests : gmap Z Digest; dg_seq : Z;
  dg_SaveErr : option error; dg_ListErr : option error; dg_LastWindowEndErr : option error;
  dg_MarkErr : option error
}.
Definition NewDigestStore : DigestStore := mkDigestStore ∅ 0 None None None None.
Definition put_digests (n : Z) (m : gmap Z Digest) (t : DigestStore) : DigestStore :=
  mkDigestStore m n (dg_SaveErr t) (dg_ListErr t) (dg_LastWindowEndErr t) (dg_MarkErr t).

Definition SaveDigest (at_ : time) (d : Digest) : M DigestStore error Z := λ t,
  match dg_SaveErr t with
  | Some e => (Err e, t)
  | None =>
      let id := dg_seq t + 1 in
      (Ok id, put_digests id (<[id := mkDigest id (dg_ProjectID d) (dg_Period d) (dg_WindowStart d)
                                        (dg_WindowEnd d) (dg_Payload d) DeliveryPending None at_]>
                                (digests t)) t)
  end.
Definition MarkDigestDelivery (id : Z) (status : DeliveryStatus) (deliveredAt : time) :
    M DigestStore error unit := λ t,
  match dg_MarkErr t with
  | Some e => (Err e, t)
  | None =>
      match digests t !! id with
      | None => (Err ErrNotFound, t)
      | Some d =>
          (Ok tt, put_digests (dg_seq t)
             (<[id := mkDigest (dg_ID d) (dg_ProjectID d) (dg_Period d) (dg_WindowStart d)
                        (dg_WindowEnd d) (dg_Payload d) status
                        (if bool_decide (status = DeliveryDelivered) then Some deliveredAt else None)
                        (dg_CreatedTime d)]> (digests t)) t)
      end
  end.
Definition dg_newest (a b : Digest) : Prop := dg_ID b <= dg_ID a.
#[global] Instance dg_newest_dec a b : Decision (dg_newest a b).
Proof. unfold dg_newest. apply _. Defined.
Definition ListDigestsByProject (projectID limit : Z) (t : DigestStore) : result error (list Digest) :=
  match dg_ListErr t with
  | Some e => Err e
  | None =>
      let out := merge_sort dg_newest (filter (λ d, dg_ProjectID d = projectID) (map_to_list (digests t)).*2) in
      Ok (if (0 <? limit) && (limit <? Z.of_nat (length out)) then take (Z.to_nat limit) out else out)
  end.

(** The loop of [LastDigestWindowEnd]: the row of the pair with the largest id. *)
Definition newer (projectID : Z) (period : Period) (best : option Digest) (d : Digest) : option Digest :=
  if bool_decide (dg_ProjectID d ≠ projectID) || bool_decide (dg_Period d ≠ period) then best
  else match best with
       | None => Some d
       | Some b => if dg_ID b <? dg_ID d then Some d else best
       end.
Definition LastDigestWindowEnd (projectID : Z) (period : Period) (t : DigestStore) :
    result error (option time) :=
  match dg_LastWindowEndErr t with
  | Some e => Err e
  | None => Ok (dg_WindowEnd <$> fold_left (newer projectID period) (map_to_list (digests t)).*2 None)
  end.

(** ** The schedules *)
Record DigestScheduleStore := mkDigestScheduleStore {
  dschedules : gmap Z DigestSchedule;
  ds_UpsertErr : option error; ds_GetErr : option error; ds_DeleteErr : option error;
  ds_ClaimErr : option error
}.
Definition NewDigestScheduleStore : DigestScheduleStore := mkDigestScheduleStore ∅ None None None None.
Definition put_dschedules (m : gmap Z DigestSchedule) (t : DigestScheduleStore) : DigestScheduleStore :=
  mkDigestScheduleStore m (ds_UpsertErr t) (ds_GetErr t) (ds_DeleteErr t) (ds_ClaimErr t).

Definition UpsertDigestSchedule (projectID : Z) (period : Period) (enabled : bool) :
    M DigestScheduleStore error unit := λ t,
  match ds_UpsertErr t with
  | Some e => (Err e, t)
  | None =>
      (Ok tt, put_dschedules
         (<[projectID := mkDigestSchedule projectID period enabled
                           (dschedules t !! projectID ≫= ds_LastFired)]> (dschedules t)) t)
  end.
Definition GetDigestSchedule (projectID : Z) (t : DigestScheduleStore) : result error DigestSchedule :=
  match ds_GetErr t with
  | Some e => Err e
  | None => match dschedules t !! projectID with Some r => Ok r | None => Err ErrNotFound end
  end.
Definition DeleteDigestSchedule (projectID : Z) : M DigestScheduleStore error unit := λ t,
  match ds_DeleteErr t with
  | Some e => (Err e, t)
  | None =>
      match dschedules t !! projectID with
      | None => (Err ErrNotFound, t)
      | Some _ => (Ok tt, put_dschedules (delete projectID (dschedules t)) t)
      end
  end.

Definition due (row : DigestSchedule) (now : time) : bool :=
  match ds_LastFired row with
  | None => true
  | Some last => negb (Before now (time_Add last (Period_Duration (ds_Period row))))
  end.
(** Never fired first, then the oldest; ids among the never fired. *)
Definition due_le (a b : Z * DigestSchedule) : Prop :=
  match ds_LastFired a.2, ds_LastFired b.2 with
  | None, Some _ => True
  | Some _, None => False
  | Some x, Some y => x <= y
  | None, None => a.1 <= b.1
  end.
#[global] Instance due_le_dec a b : Decision (due_le a b).
Proof. unfold due_le. destruct (ds_LastFired a.2), (ds_LastFired b.2); apply _. Defined.
Definition dueOrder (rows : gmap Z DigestSchedule) (now : time) : list Z :=
  (merge_sort due_le (filter (λ kr, ds_Enabled kr.2 && due kr.2 now = true) (map_to_list rows))).*1.

(** The loop over the candidates. *)
Fixpoint claim_due (now : time) (candidates : list Z) (t : DigestScheduleStore) :
    option DigestSchedule * DigestScheduleStore :=
  match candidates with
  | [] => (None, t)
  | c :: rest =>
      match dschedules t !! c with
      | Some row =>
          if due row now then
            let row' := mkDigestSchedule (ds_ProjectID row) (ds_Period row) (ds_Enabled row) (Some now) in
            (Some row', put_dschedules (<[c := row']> (dschedules t)) t)
          else claim_due now rest t
      | None => claim_due now rest t
      end
  end.
Definition ClaimDueDigestSchedule (now : time) : M DigestScheduleStore error (option DigestSchedule) := λ t,
  match ds_ClaimErr t with
  | Some e => (Err e, t)
  | None => let '(r, t') := claim_due now (dueOrder (dschedules t) now) t in (Ok r, t')
  end.

(** ** The payload *)
Record ByOutcome := mkByOutcome { bo_Passed : Z; bo_Failed : Z; bo_Aborted : Z }.
Record ExecutionSummary := mkExecutionSummary {
  xs_ExecutionID : Z; xs_Name : string; xs_Runs : Z; xs_WorstOutcome : option Outcome
}.
Record SLOBudgetLine := mkSLOBudgetLine {
  sl_SLOID : Z; sl_Name : string; sl_Compliant : bool; sl_WorstMetric : string;
  sl_WorstBudgetRemainingPct : option float64
}.
Inductive ThresholdOutcome := ThresholdOutcomeAllMet | ThresholdOutcomeMissed | ThresholdOutcomeUnknown.
Record CalibrationLine := mkCalibrationLine {
  cl_JobID : Z; cl_ScenarioID : Z; cl_ScenarioName : string; cl_Phase : Calibration.Phase;
  cl_PerPodQPS : option float64; cl_SaturatedBy : option SaturatedBy; cl_FailureReason : string;
  cl_CreatedTime : time
}.
Record ThresholdMiss := mkThresholdMiss {
  tm_Metric : Threshold.Metric; tm_Comparison : Threshold.Comparison; tm_Value : float64;
  tm_ObservedValue : option float64; tm_Reason : string
}.
Record ThresholdLine := mkThresholdLine {
  tl_RunID : Z; tl_ExecutionID : Z; tl_ScenarioName : string; tl_Outcome : ThresholdOutcome;
  tl_Missed : list ThresholdMiss
}.
Record Payload := mkPayload {
  py_ProjectID : Z; py_Period : Period; py_WindowStart : time; py_WindowEnd : time;
  py_RunsTotal : Z; py_ByOutcome : ByOutcome; py_ThresholdFailures : Z;
  py_Executions : list ExecutionSummary; py_SLOBudgets : list SLOBudgetLine;
  py_Calibrations : list CalibrationLine; py_Thresholds : list ThresholdLine
}.

Definition outcomeSeverity (o : option Outcome) : Z :=
  match o with
  | None => 0 | Some OutcomePassed => 1 | Some OutcomeAborted => 2 | Some OutcomeFailed => 3
  | Some OutcomeError => 4
  end.

Record windowRun := mkWindowRun { wr_executionID : Z; wr_scenarioID : Z; wr_runID : Z }.

(** What the loop over the reports has collected. *)
Record scan := mkScan {
  sc_total : Z; sc_by : ByOutcome; sc_runs : list windowRun; sc_summary : ExecutionSummary
}.
Definition count_outcome (o : Outcome) (b : ByOutcome) : ByOutcome :=
  match o with
  | OutcomePassed => mkByOutcome (bo_Passed b + 1) (bo_Failed b) (bo_Aborted b)
  | OutcomeFailed => mkByOutcome (bo_Passed b) (bo_Failed b + 1) (bo_Aborted b)
  | OutcomeAborted => mkByOutcome (bo_Passed b) (bo_Failed b) (bo_Aborted b + 1)
  | OutcomeError => b
  end.
Definition scan_report (start end_ : time) (a : scan) (rep : Report) : scan :=
  if negb (in_span start end_ rep) then a
  else
    let x := sc_summary a in
    mkScan (sc_total a + 1) (count_outcome (rep_Outcome rep) (sc_by a))
      (sc_runs a ++ [mkWindowRun (xs_ExecutionID x) (rep_ScenarioID rep) (rep_RunID rep)])
      (mkExecutionSummary (xs_ExecutionID x) (xs_Name x) (xs_Runs x + 1)
         (if outcomeSeverity (xs_WorstOutcome x) <? outcomeSeverity (Some (rep_Outcome rep))
          then Some (rep_Outcome rep) else xs_WorstOutcome x)).

Definition threshold_miss (r : ThresholdResult) : option ThresholdMiss :=
  if bool_decide (tr_Satisfied r = Some true) then None
  else Some (mkThresholdMiss (tr_Metric r) (tr_Comparison r) (tr_Value r) (tr_Observed r) (tr_Reason r)).
Definition threshold_outcome (results : list ThresholdResult) : ThresholdOutcome :=
  if existsb (λ r, bool_decide (tr_Satisfied r = Some false)) results then ThresholdOutcomeMissed
  else if existsb (λ r, bool_decide (tr_Satisfied r = None)) results then ThresholdOutcomeUnknown
  else ThresholdOutcomeAllMet.

Record CalibrationJobSummary := mkJobSummary {
  js_ID : Z; js_ScenarioID : Z; js_ScenarioName : string; js_Phase : Calibration.Phase;
  js_Result : option Calibration.Result; js_FailureReason : string; js_CreatedTime : time
}.
Definition js_newest (a b : CalibrationJobSummary) : Prop := js_ID b <= js_ID a.
#[global] Instance js_newest_dec a b : Decision (js_newest a b).
Proof. unfold js_newest. apply _. Defined.
Definition ListCalibrationJobsByProject (projectID : Z) (start end_ : time) (s : Store) :
    list CalibrationJobSummary :=
  let mine job := match executions (st_catalog s) !! cj_ExecutionID job with
                  | Some exe => bool_decide (exe_ProjectID exe = projectID) | None => false end in
  let within job := negb (Before (cj_CreatedTime job) start || negb (Before (cj_CreatedTime job) end_)) in
  merge_sort js_newest
    ((λ job, mkJobSummary (cj_ID job) (cj_ScenarioID job)
       (match scenarios (st_catalog s) !! cj_ScenarioID job with Some sc => scn_Name sc | None => "" end)
       (cj_Phase job) (cj_Result job) (cj_FailureReason job) (cj_CreatedTime job)) <$>
       filter (λ job, mine job && within job = true)
         (map_to_list (calibrationJobs (st_calibrations s))).*2).

Definition run_le (a b : windowRun) : Prop := wr_runID a <= wr_runID b.
#[global] Instance run_le_dec a b : Decision (run_le a b).
Proof. unfold run_le. apply _. Defined.

Section digestapp.
Context (s : Store) (rs : ReportStore) (ths : ThresholdStore).
Context (Marshal : Payload → result error string).
Context (grader : option (Z → time → time → result error (list WindowOutcome))).
Context (deliverer : option (Z → string → list Sent → result error bool * list Sent)).

(** The loop over the executions; an execution without a run has no line. *)
Fixpoint scan_executions (start end_ : time) (exes : list Execution)
    (acc : Z * ByOutcome * list windowRun * list ExecutionSummary) :
    Z * ByOutcome * list windowRun * list ExecutionSummary :=
  match exes with
  | [] => acc
  | exe :: rest =>
      let '(total, by_, runs, lines) := acc in
      let a := fold_left (scan_report start end_) (ListReports (exe_ID exe) 0 rs)
                 (mkScan total by_ runs (mkExecutionSummary (exe_ID exe) (exe_Name exe) 0 None)) in
      scan_executions start end_ rest
        (sc_total a, sc_by a, sc_runs a,
         if 0 <? xs_Runs (sc_summary a) then lines ++ [sc_summary a] else lines)
  end.

(** The threshold lines, in run order; [names[id]] is empty for a scenario
    that is gone. *)
Fixpoint threshold_lines (names : gmap Z string) (runs : list windowRun) : result error (list ThresholdLine) :=
  match runs with
  | [] => Ok []
  | wr :: rest =>
      results ← ThresholdResultsForRun (wr_runID wr) ths;
      lines ← threshold_lines names rest;
      Ok (match results with
          | [] => lines
          | _ => mkThresholdLine (wr_runID wr) (wr_executionID wr) (default "" (names !! wr_scenarioID wr))
                   (threshold_outcome results) (omap threshold_miss results) :: lines
          end)
  end.

Definition calibration_line (c : CalibrationJobSummary) : CalibrationLine :=
  mkCalibrationLine (js_ID c) (js_ScenarioID c) (js_ScenarioName c) (js_Phase c)
    (Calibration.rs_PerPodQPS <$> js_Result c) (Calibration.rs_SaturatedBy <$> js_Result c)
    (js_FailureReason c) (js_CreatedTime c).

Definition budget_of (g : WindowOutcome) : SLOBudgetLine :=
  match Worst (wo_Budget g) with
  | Some worst =>
      match mb_BudgetRemainingPct worst with
      | Some pct => mkSLOBudgetLine (wo_SLOID g) (slo_Name (wo_SLO g)) (bud_Compliant (wo_Budget g))
                      (mb_Metric worst) (Some pct)
      | None => mkSLOBudgetLine (wo_SLOID g) (slo_Name (wo_SLO g)) (bud_Compliant (wo_Budget g)) "" None
      end
  | None => mkSLOBudgetLine (wo_SLOID g) (slo_Name (wo_SLO g)) (bud_Compliant (wo_Budget g)) "" None
  end.

Definition budget_lines (projectID : Z) (start end_ : time) : result error (list SLOBudgetLine) :=
  match grader with
  | None => Ok []
  | Some grade =>
      match grade projectID start end_ with
      | Ok gs => Ok (budget_of <$> gs)
      | Err e => Err e
      end
  end.

Definition BuildPayload (projectID : Z) (period : Period) (start end_ : time) : result error Payload :=
  match ParsePeriod period with
  | Err e => Err e
  | Ok _ =>
      let '(total, by_, runs, lines) :=
        scan_executions start end_ (ListExecutionsByProject projectID s) (0, mkByOutcome 0 0 0, [], []) in
      let names := fold_left (λ m sc, <[scn_ID sc := scn_Name sc]> m)
                     (ListScenariosByProject projectID s) ∅ in
      match threshold_lines names (merge_sort run_le runs) with
      | Err e => Err e
      | Ok graded =>
          match budget_lines projectID start end_ with
          | Err e => Err e
          | Ok budgets =>
              Ok (mkPayload projectID period start end_ total by_ (bo_Failed by_) lines budgets
                    (calibration_line <$> ListCalibrationJobsByProject projectID start end_ s) graded)
          end
      end
  end.

Definition BuildDigest (projectID : Z) (period : Period) (start end_ : time) : result error Digest :=
  p ← BuildPayload projectID period start end_;
  body ← Marshal p;
  Ok (mkDigest 0 projectID period start end_ body DeliveryPending None 0).

(** [now] is the firing's clock; the state is the stored digests and what was
    sent.  Failing to record the outcome of the delivery is only logged. *)
Definition Fire (projectID : Z) (period : Period) (now : time) :
    M (DigestStore * list Sent) error Digest := λ '(t, log),
  match LastDigestWindowEnd projectID period t with
  | Err e => (Err e, (t, log))
  | Ok last =>
      let start := default (time_Add now (- Period_Duration period)) last in
      match BuildDigest projectID period start now with
      | Err e => (Err e, (t, log))
      | Ok d =>
          match SaveDigest now d t with
          | (Err e, t1) => (Err e, (t1, log))
          | (Ok id, t1) =>
              let outcome status at_ :=
                mkDigest id (dg_ProjectID d) (dg_Period d) (dg_WindowStart d) (dg_WindowEnd d)
                  (dg_Payload d) status at_ (dg_CreatedTime d) in
              match deliverer with
              | None => (Ok (outcome DeliveryPending None), (t1, log))
              | Some deliver =>
                  let '(r, log1) := deliver projectID (dg_Payload d) log in
                  match r with
                  | Ok true => (Ok (outcome DeliveryDelivered (Some now)),
                                ((MarkDigestDelivery id DeliveryDelivered now t1).2, log1))
                  | Err _ => (Ok (outcome DeliveryFailed None),
                              ((MarkDigestDelivery id DeliveryFailed 0 t1).2, log1))
                  | Ok false => (Ok (outcome DeliveryPending None), (t1, log1))
                  end
              end
          end
      end
  end.
End digestapp.

Definition SetSchedule (projectID : Z) (period : string) : M DigestScheduleStore error unit :=
  _ ← lift (ParsePeriod period);
  UpsertDigestSchedule projectID period true.
Definition Digest_ClaimDue (now : time) : M DigestScheduleStore error (option DigestSchedule) :=
  ClaimDueDigestSchedule now.

(** ** The windows tile the time line *)
Definition of_pair (p : Z) (period : Period) (d : Digest) : Prop :=
  dg_ProjectID d = p ∧ dg_Period d = period.
#[global] Instance of_pair_dec p period d : Decision (of_pair p period d).
Proof. unfold of_pair. apply _. Defined.

Lemma newer_eq p period best d :
  newer p period best d =
  if decide (of_pair p period d)
  then match best with Some b => if dg_ID b <? dg_ID d then Some d else best | None => Some d end
  else best.
Proof.
  unfold newer. destruct (decide (of_pair p period d)) as [[Hp Hq]|Hn].
  - rewrite !bool_decide_eq_false_2 by (intros Hne; by apply Hne). by destruct best.
  - destruct (bool_decide_reflect (dg_ProjectID d ≠ p)) as [|H1]; [done|].
    destruct (bool_decide_reflect (dg_Period d ≠ period)) as [|H2]; [done|].
    destruct Hn. split; by apply dec_stable.
Qed.

Lemma newer_fold p period l best :
  match fold_left (newer p period) l best with
  | None => best = None ∧ ∀ d, d ∈ l → ¬ of_pair p period d
  | Some b => (best = Some b ∨ b ∈ l ∧ of_pair p period b) ∧
      (∀ f, best = Some f → dg_ID f <= dg_ID b) ∧ ∀ d, d ∈ l → of_pair p period d → dg_ID d <= dg_ID b
  end.
Proof.
  revert best. induction l as [|x l IH]; intros best; cbn [fold_left].
  { destruct best as [b|]; [|split; [done|]; by intros ? ?%elem_of_nil].
    split; [by left|]. split; [naive_solver lia|]. by intros ? ?%elem_of_nil. }
  rewrite newer_eq. set (best' := if decide _ then _ else _). specialize (IH best').
  destruct (fold_left (newer p period) l best') as [b|]; setoid_rewrite elem_of_cons.
  - destruct IH as (Hb & Hf & Hall). subst best'.
    destruct (decide (of_pair p period x)) as [Hx|Hx].
    + destruct best as [f|]; [destruct (Z.ltb_spec (dg_ID f) (dg_ID x))|];
        specialize (Hf _ eq_refl); (split; [naive_solver|]); (split; [intros f' [= <-]; lia|]) || (split; [done|]);
        intros d [->|Hd] Hpd; auto; lia.
    + split; [naive_solver|]. split; [done|]. intros d [->|Hd] Hpd; [done|auto].
  - destruct IH as [Hn Hall]. subst best'. destruct (decide (of_pair p period x)) as [Hx|Hx].
    { destruct best as [f|]; [destruct (dg_ID f <? dg_ID x)|]; done. }
    split; [done|]. intros d [->|Hd]; auto.
Qed.

(** The stored digests at an instant: their ids, windows that lie in the past,
    and windows of a pair that follow one another. *)
Record digests_ok (now : time) (t : DigestStore) : Prop := {
  dg_row id d : digests t !! id = Some d →
    dg_ID d = id ∧ id <= dg_seq t ∧ dg_WindowStart d <= dg_WindowEnd d <= now;
  dg_after id id' d d' p period : digests t !! id = Some d → digests t !! id' = Some d' →
    of_pair p period d → of_pair p period d' → id < id' → dg_WindowEnd d <= dg_WindowStart d';
  dg_adjacent id id' d d' p period : digests t !! id = Some d → digests t !! id' = Some d' →
    of_pair p period d → of_pair p period d' → id < id' →
    (∀ k e, digests t !! k = Some e → of_pair p period e → ¬ id < k < id') →
    dg_WindowStart d' = dg_WindowEnd d
}.

Lemma LastDigestWindowEnd_spec now p period t last :
  digests_ok now t → LastDigestWindowEnd p period t = Ok last →
  match last with
  | None => ∀ id d, digests t !! id = Some d → ¬ of_pair p period d
  | Some end_ => ∃ id d, digests t !! id = Some d ∧ of_pair p period d ∧ dg_WindowEnd d = end_ ∧
      ∀ id' d', digests t !! id' = Some d' → of_pair p period d' → id' <= id
  end.
Proof.
  intros Hok. unfold LastDigestWindowEnd. destruct (dg_LastWindowEndErr t); [done|]. intros [= <-].
  assert (∀ d, d ∈ (map_to_list (digests t)).*2 ↔ ∃ id, digests t !! id = Some d) as Hin.
  { intros d. rewrite list_elem_of_fmap. split.
    - intros ([k d'] & -> & ?%elem_of_map_to_list). eauto.
    - intros [id ?%elem_of_map_to_list]. by exists (id, d). }
  pose proof (newer_fold p period (map_to_list (digests t)).*2 None) as H.
  destruct (fold_left _ _ None) as [b|]; cbn.
  - destruct H as ([|[[id Hb]%Hin Hp]] & _ & Hmax); [done|]. exists id, b.
    split; [done|]. split; [done|]. split; [done|]. intros id' d' Hd' Hp'.
    destruct (dg_row _ _ Hok _ _ Hb) as (<- & _), (dg_row _ _ Hok _ _ Hd') as (<- & _).
    apply Hmax; [|done]. apply Hin. eauto.
  - destruct H as [_ H]. intros id d Hd. apply H, Hin. eauto.
Qed.

(** Two rows that differ at most in what became of their delivery. *)
Definition same_row (d d' : Digest) : Prop :=
  dg_ID d' = dg_ID d ∧ dg_ProjectID d' = dg_ProjectID d ∧ dg_Period d' = dg_Period d ∧
  dg_WindowStart d' = dg_WindowStart d ∧ dg_WindowEnd d' = dg_WindowEnd d.
Definition same_rows (t t' : DigestStore) : Prop :=
  dg_seq t' = dg_seq t ∧ ∀ k, option_Forall2 same_row (digests t !! k) (digests t' !! k).

Lemma same_rows_refl t : same_rows t t.
Proof. split; [done|]. intros k. destruct (digests t !! k); by constructor. Qed.

Lemma same_rows_back t t' k d' :
  same_rows t t' → digests t' !! k = Some d' → ∃ d, digests t !! k = Some d ∧ same_row d d'.
Proof. intros [_ H] Hk. specialize (H k). rewrite Hk in H. inversion H; subst. eauto. Qed.
Lemma same_rows_forth t t' k d :
  same_rows t t' → digests t !! k = Some d → ∃ d', digests t' !! k = Some d' ∧ same_row d d'.
Proof. intros [_ H] Hk. specialize (H k). rewrite Hk in H. inversion H; subst. eauto. Qed.

Lemma same_row_pair p period d d' : same_row d d' → of_pair p period d' ↔ of_pair p period d.
Proof. unfold same_row, of_pair. naive_solver congruence. Qed.

Lemma same_rows_ok now t t' : same_rows t t' → digests_ok now t → digests_ok now t'.
Proof.
  intros Hs Hok. split.
  - intros id d' (d & Hd & -> & _ & _ & -> & ->)%(same_rows_back _ _ _ _ Hs).
    rewrite (proj1 Hs). by apply (dg_row _ _ Hok).
  - intros id id' d d' p per (e & He & Hed)%(same_rows_back _ _ _ _ Hs)
      (e' & He' & Hed')%(same_rows_back _ _ _ _ Hs).
    rewrite (same_row_pair _ _ _ _ Hed), (same_row_pair _ _ _ _ Hed').
    destruct Hed as (_ & _ & _ & _ & ->), Hed' as (_ & _ & _ & -> & _). by apply (dg_after _ _ Hok).
  - intros id id' d d' p per (e & He & Hed)%(same_rows_back _ _ _ _ Hs)
      (e' & He' & Hed')%(same_rows_back _ _ _ _ Hs).
    rewrite (same_row_pair _ _ _ _ Hed), (same_row_pair _ _ _ _ Hed'). intros Hp Hp' Hlt Hno.
    destruct Hed as (_ & _ & _ & _ & ->), Hed' as (_ & _ & _ & -> & _).
    eapply (dg_adjacent _ _ Hok id id'); eauto. intros k x Hx Hpx Hb.
    destruct (same_rows_forth _ _ _ _ Hs Hx) as (x' & Hx' & Hxx). eapply Hno; eauto.
    by apply (same_row_pair _ _ _ _ Hxx).
Qed.

Lemma MarkDigestDelivery_same id status at_ t : same_rows t (MarkDigestDelivery id status at_ t).2.
Proof.
  unfold MarkDigestDelivery. destruct (dg_MarkErr t); [apply same_rows_refl|].
  destruct (digests t !! id) as [d|] eqn:Hd; [|apply same_rows_refl]. split; [done|]. intros k. cbn.
  destruct (decide (id = k)) as [<-|].
  - rewrite Hd, lookup_insert_eq. by constructor.
  - rewrite lookup_insert_ne by done. apply same_rows_refl.
Qed.

(** What a firing stores: nothing, or one row for the pair from the end of its
    last window (or one period back) to now. *)
Lemma Fire_stores s rs ths Marshal grader deliverer p period now t log r t' log' :
  Fire s rs ths Marshal grader deliverer p period now (t, log) = (r, (t', log')) →
  t' = t ∨ ∃ last row, LastDigestWindowEnd p period t = Ok last ∧
    same_rows (put_digests (dg_seq t + 1) (<[dg_seq t + 1 := row]> (digests t)) t) t' ∧
    dg_ID row = dg_seq t + 1 ∧ of_pair p period row ∧ dg_WindowEnd row = now ∧
    dg_WindowStart row = default (time_Add now (- Period_Duration period)) last.
Proof.
  unfold Fire. destruct (LastDigestWindowEnd p period t) as [last|] eqn:Hl; [|intros [= _ <- _]; by left].
  unfold BuildDigest, mbind, result_bind.
  destruct (BuildPayload _ _ _ _ _ _ _ _) as [py|]; [|intros [= _ <- _]; by left].
  destruct (Marshal py) as [body|]; [|intros [= _ <- _]; by left].
  unfold SaveDigest. destruct (dg_SaveErr t); [intros [= _ <- _]; by left|]. cbn.
  set (start := default _ last). set (row := mkDigest (dg_seq t + 1) p period start now body DeliveryPending None now).
  set (t1 := put_digests _ _ _). intros H. right. exists last, row. split; [done|]. split; [|done].
  destruct deliverer as [deliver|]; [|injection H as _ <- _; apply same_rows_refl].
  destruct (deliver _ _ _) as [[[]|] log1]; injection H as _ <- _;
    (apply MarkDigestDelivery_same || apply same_rows_refl).
Qed.

Lemma digests_ok_insert now p period t last row :
  digests_ok now t → LastDigestWindowEnd p period t = Ok last →
  dg_ID row = dg_seq t + 1 → of_pair p period row → dg_WindowEnd row = now →
  dg_WindowStart row = default (time_Add now (- Period_Duration period)) last →
  digests_ok now (put_digests (dg_seq t + 1) (<[dg_seq t + 1 := row]> (digests t)) t).
Proof.
  intros Hok Hl Hid Hpair Hend Hstart.
  pose proof (LastDigestWindowEnd_spec now p period t last Hok Hl) as Hlast.
  assert (∀ k d, digests t !! k = Some d → k <= dg_seq t) as Hle
    by (intros k d Hk; by destruct (dg_row _ _ Hok _ _ Hk) as (_ & ? & _)).
  assert (∀ k d p0 per0, digests t !! k = Some d → of_pair p0 per0 d → of_pair p0 per0 row →
    ∃ kl dl, digests t !! kl = Some dl ∧ of_pair p0 per0 dl ∧ dg_WindowStart row = dg_WindowEnd dl ∧ k <= kl)
    as Hprev.
  { intros k d p0 per0 Hk Hd [H1 H2]. destruct Hpair as [H3 H4].
    assert (p0 = p ∧ per0 = period) as [-> ->] by (split; congruence).
    rewrite Hstart. destruct last as [end_|]; [|by destruct (Hlast _ _ Hk)].
    destruct Hlast as (kl & dl & Hkl & Hpl & <- & Hmax). exists kl, dl. cbn. eauto 10. }
  split; cbn.
  - intros id d [[<- <-]|[_ Hd]]%lookup_insert_Some.
    + split; [done|]. split; [lia|]. rewrite Hend, Hstart. split; [|lia]. destruct last as [end_|]; cbn.
      * destruct Hlast as (k & d1 & Hk & _ & <- & _). destruct (dg_row _ _ Hok _ _ Hk) as (_ & _ & ?). lia.
      * unfold time_Add, Period_Duration, hour, second. case_bool_decide; lia.
    + destruct (dg_row _ _ Hok _ _ Hd) as (? & ? & ?). repeat split; lia || done.
  - intros id id' d d' p0 per0 [[<- <-]|[_ Hd]]%lookup_insert_Some [[<- <-]|[_ Hd']]%lookup_insert_Some Hp Hp' Hlt.
    + lia.
    + specialize (Hle _ _ Hd'). lia.
    + destruct (Hprev _ _ _ _ Hd Hp Hp') as (kl & dl & Hkl & Hpl & -> & Hk).
      destruct (decide (id = kl)) as [->|]; [rewrite Hd in Hkl; injection Hkl as ->; lia|].
      destruct (dg_row _ _ Hok _ _ Hkl) as (_ & _ & ?).
      assert (dg_WindowEnd d <= dg_WindowStart dl) by (eapply (dg_after _ _ Hok id kl); eauto; lia). lia.
    + by eapply (dg_after _ _ Hok id id').
  - intros id id' d d' p0 per0 [[<- <-]|[_ Hd]]%lookup_insert_Some [[<- <-]|[_ Hd']]%lookup_insert_Some Hp Hp' Hlt Hno.
    + lia.
    + specialize (Hle _ _ Hd'). lia.
    + destruct (Hprev _ _ _ _ Hd Hp Hp') as (kl & dl & Hkl & Hpl & -> & Hk).
      destruct (decide (id = kl)) as [->|]; [rewrite Hd in Hkl; by injection Hkl as ->|].
      destruct (Hno kl dl); [|done|specialize (Hle _ _ Hkl); lia].
      rewrite lookup_insert_ne; [done|]. specialize (Hle _ _ Hkl). lia.
    + eapply (dg_adjacent _ _ Hok id id'); eauto. intros k e Hk. apply Hno.
      rewrite lookup_insert_ne; [done|]. specialize (Hle _ _ Hk). lia.
Qed.

(** Time passes and digests are fired for any project and period, whatever the
    rest of the system holds and answers. *)
Inductive digest_step : time * DigestStore → time * DigestStore → Prop :=
| dg_tick now now' t : now <= now' → digest_step (now, t) (now', t)
| dg_fire s rs ths Marshal grader deliverer p period now t log :
    digest_step (now, t)
      (now, (Fire s rs ths Marshal grader deliverer p period now (t, log)).2.1).

Lemma digest_step_ok a b : digest_step a b → digests_ok a.1 a.2 → digests_ok b.1 b.2.
Proof.
  intros [now now' t Hle|s rs ths Marshal grader deliverer p period now t log]; cbn [fst snd]; intros Hok.
  - split; [|apply (dg_after _ _ Hok)|apply (dg_adjacent _ _ Hok)].
    intros id d Hd. destruct (dg_row _ _ Hok _ _ Hd) as (? & ? & ?). repeat split; lia || done.
  - destruct (Fire _ _ _ _ _ _ _ _ _ _) as [r [t' log']] eqn:E. cbn [fst snd].
    apply Fire_stores in E as [->|(last & row & Hl & Hs & Hid & Hp & He & Hst)]; [done|].
    eapply same_rows_ok; [done|]. by eapply digests_ok_insert.
Qed.

Lemma digests_ok_new now : digests_ok now NewDigestStore.
Proof. split; cbn; intros *; by rewrite lookup_empty. Qed.

Lemma digest_steps_ok a b : rtc digest_step a b → digests_ok a.1 a.2 → digests_ok b.1 b.2.
Proof. induction 1 as [|x y z Hxy _ IH]; [done|]. intros H. apply IH. by eapply digest_step_ok. Qed.

(** C38. The windows of a project's digests of one period tile the time line: over
    any history of firings, whatever they were fired on and whether their
    delivery worked, each digest begins where the one before it ended, and no
    two overlap. *)
Theorem digests_tile now0 now t p period id id' d d' :
  rtc digest_step (now0, NewDigestStore) (now, t) →
  digests t !! id = Some d → digests t !! id' = Some d' → of_pair p period d → of_pair p period d' →
  id < id' →
  dg_WindowEnd d <= dg_WindowStart d' ∧ dg_WindowStart d' <= dg_WindowEnd d' ∧
  ((∀ k e, digests t !! k = Some e → of_pair p period e → ¬ id < k < id') →
   dg_WindowStart d' = dg_WindowEnd d).
Proof.
  intros Hsteps Hd Hd' Hp Hp' Hlt.
  pose proof (digest_steps_ok _ _ Hsteps (digests_ok_new now0)) as Hok. cbn in Hok.
  split; [by eapply (dg_after _ _ Hok)|]. split; [by destruct (dg_row _ _ Hok _ _ Hd') as (_ & _ & ? & ?)|].
  intros Hno. by eapply (dg_adjacent _ _ Hok id id').
Qed.

(** A run is counted by when it started, but can be counted only once it has
    ended: a run that starts before a digest is fired and is reported after it
    is in the window of no later digest of that period either. *)
Theorem straddling_run_never_counted now0 now t p period id id' d d' r :
  rtc digest_step (now0, NewDigestStore) (now, t) →
  digests t !! id = Some d → digests t !! id' = Some d' → of_pair p period d → of_pair p period d' →
  id < id' → rep_StartedAt r < dg_WindowEnd d →
  in_span (dg_WindowStart d') (dg_WindowEnd d') r = false.
Proof.
  intros Hsteps Hd Hd' Hp Hp' Hlt Hr.
  pose proof (digest_steps_ok _ _ Hsteps (digests_ok_new now0)) as Hok. cbn in Hok.
  assert (dg_WindowEnd d <= dg_WindowStart d') by (by eapply (dg_after _ _ Hok)).
  unfold in_span, Before. by rewrite bool_decide_eq_true_2 by lia.
Qed.

(** ** What a digest counts *)
Definition spanned (start end_ : time) (r : Report) : Prop := start <= rep_StartedAt r < end_.
#[global] Instance spanned_dec start end_ r : Decision (spanned start end_ r).
Proof. unfold spanned. apply _. Defined.

Lemma in_span_spanned start end_ r : in_span start end_ r = bool_decide (spanned start end_ r).
Proof.
  unfold in_span, Before, spanned. apply eq_true_iff_eq. rewrite negb_true_iff, orb_false_iff, negb_false_iff.
  rewrite bool_decide_eq_false, !bool_decide_eq_true. lia.
Qed.

Definition number (o : Outcome) (l : list Report) : Z :=
  Z.of_nat (length (filter (λ r, rep_Outcome r = o) l)).
Definition outcomes_of (l : list Report) : ByOutcome :=
  mkByOutcome (number OutcomePassed l) (number OutcomeFailed l) (number OutcomeAborted l).

Lemma number_snoc o l r : number o (l ++ [r]) = number o l + (if bool_decide (rep_Outcome r = o) then 1 else 0).
Proof.
  unfold number. rewrite filter_app, length_app, filter_cons, filter_nil.
  case_decide; [rewrite bool_decide_eq_true_2 by done|rewrite bool_decide_eq_false_2 by done];
    cbn [length]; lia.
Qed.

Lemma count_outcome_snoc l r : count_outcome (rep_Outcome r) (outcomes_of l) = outcomes_of (l ++ [r]).
Proof.
  unfold outcomes_of. rewrite !number_snoc. unfold count_outcome.
  destruct (rep_Outcome r); cbn -[number]; by rewrite ?Z.add_0_r.
Qed.

(** The worst outcome of some runs. *)
Definition worst_of (l : list Report) (w : option Outcome) : Prop :=
  (l = [] ∧ w = None) ∨ ∃ r, r ∈ l ∧ w = Some (rep_Outcome r) ∧
    ∀ r', r' ∈ l → outcomeSeverity (Some (rep_Outcome r')) <= outcomeSeverity w.

Lemma worst_of_snoc l w r :
  worst_of l w →
  worst_of (l ++ [r]) (if outcomeSeverity w <? outcomeSeverity (Some (rep_Outcome r))
                       then Some (rep_Outcome r) else w).
Proof.
  intros Hw. right. setoid_rewrite elem_of_app. setoid_rewrite list_elem_of_singleton.
  destruct (Z.ltb_spec (outcomeSeverity w) (outcomeSeverity (Some (rep_Outcome r)))) as [Hlt|Hge].
  - exists r. split; [by right|]. split; [done|]. intros r' [Hr'| ->]; [|lia].
    destruct Hw as [[-> _]|(r0 & _ & _ & Hmax)]; [by apply elem_of_nil in Hr'|]. specialize (Hmax _ Hr'). lia.
  - destruct Hw as [[-> ->]|(r0 & Hr0 & -> & Hmax)]; [by destruct (rep_Outcome r)|].
    exists r0. split; [by left|]. split; [done|]. intros r' [Hr'| ->]; [auto|lia].
Qed.

Section counting.
Context (s : Store) (rs : ReportStore) (start end_ : time).

Lemma scan_report_eq a r :
  scan_report start end_ a r =
  if decide (spanned start end_ r) then
    mkScan (sc_total a + 1) (count_outcome (rep_Outcome r) (sc_by a))
      (sc_runs a ++ [mkWindowRun (xs_ExecutionID (sc_summary a)) (rep_ScenarioID r) (rep_RunID r)])
      (mkExecutionSummary (xs_ExecutionID (sc_summary a)) (xs_Name (sc_summary a))
         (xs_Runs (sc_summary a) + 1)
         (if outcomeSeverity (xs_WorstOutcome (sc_summary a)) <? outcomeSeverity (Some (rep_Outcome r))
          then Some (rep_Outcome r) else xs_WorstOutcome (sc_summary a)))
  else a.
Proof.
  unfold scan_report. rewrite in_span_spanned.
  destruct (decide (spanned start end_ r)); [by rewrite bool_decide_eq_true_2|by rewrite bool_decide_eq_false_2].
Qed.

Lemma scan_fold l seen here a :
  sc_by a = outcomes_of seen → sc_total a = Z.of_nat (length seen) →
  xs_Runs (sc_summary a) = Z.of_nat (length here) → worst_of here (xs_WorstOutcome (sc_summary a)) →
  let a' := fold_left (scan_report start end_) l a in
  let l' := filter (spanned start end_) l in
  sc_by a' = outcomes_of (seen ++ l') ∧ sc_total a' = Z.of_nat (length (seen ++ l')) ∧
  xs_Runs (sc_summary a') = Z.of_nat (length (here ++ l')) ∧
  worst_of (here ++ l') (xs_WorstOutcome (sc_summary a')) ∧
  xs_ExecutionID (sc_summary a') = xs_ExecutionID (sc_summary a) ∧
  xs_Name (sc_summary a') = xs_Name (sc_summary a).
Proof.
  revert seen here a. induction l as [|r l IH]; intros seen here a Hby Ht Hr Hw; cbn [fold_left].
  { rewrite filter_nil, !app_nil_r. done. }
  rewrite filter_cons, scan_report_eq.
  destruct (decide (spanned start end_ r)) as [Hs|Hs]; [|by apply IH]. cbv zeta.
  rewrite (cons_middle r seen), (cons_middle r here), (app_assoc seen), (app_assoc here).
  set (a1 := mkScan _ _ _ _). apply (IH (seen ++ [r]) (here ++ [r]) a1); cbn.
  - rewrite Hby. apply count_outcome_snoc.
  - rewrite Ht, length_app. cbn. lia.
  - rewrite Hr, length_app. cbn. lia.
  - by apply worst_of_snoc.
Qed.

Definition runs_of (exe : Execution) : list Report := filter (spanned start end_) (ListReports (exe_ID exe) 0 rs).
Definition ran (exe : Execution) : Prop := runs_of exe ≠ [].
#[global] Instance ran_dec exe : Decision (ran exe).
Proof. unfold ran. destruct (runs_of exe); [right|left]; naive_solver. Defined.
Definition line_of (exe : Execution) (x : ExecutionSummary) : Prop :=
  xs_ExecutionID x = exe_ID exe ∧ xs_Name x = exe_Name exe ∧
  xs_Runs x = Z.of_nat (length (runs_of exe)) ∧ worst_of (runs_of exe) (xs_WorstOutcome x).

Lemma scan_executions_spec exes done_ seen runs lines :
  Forall2 line_of (filter ran done_) lines →
  let '(total, by_, _, lines') :=
    scan_executions rs start end_ exes (Z.of_nat (length seen), outcomes_of seen, runs, lines) in
  let seen' := seen ++ (exes ≫= runs_of) in
  total = Z.of_nat (length seen') ∧ by_ = outcomes_of seen' ∧
  Forall2 line_of (filter ran (done_ ++ exes)) lines'.
Proof.
  revert done_ seen runs lines. induction exes as [|exe exes IH]; intros done_ seen runs lines Hl;
    cbn [scan_executions].
  { cbn. by rewrite !app_nil_r. }
  set (a := fold_left _ _ _).
  destruct (scan_fold (ListReports (exe_ID exe) 0 rs) seen []
    (mkScan (Z.of_nat (length seen)) (outcomes_of seen) runs
       (mkExecutionSummary (exe_ID exe) (exe_Name exe) 0 None)))
    as (Hby & Ht & Hr & Hw & Hid & Hname); [done|done|done|by left|].
  fold a in Hby, Ht, Hr, Hw, Hid, Hname. fold (runs_of exe) in Hby, Ht, Hr, Hw.
  cbn [app] in Hr, Hw. clearbody a. cbn in Hid, Hname. rewrite Hby, Ht.
  change ((exe :: exes) ≫= runs_of) with (runs_of exe ++ (exes ≫= runs_of)).
  rewrite app_assoc, (cons_middle exe done_), (app_assoc done_). apply IH.
  rewrite filter_app, filter_cons, filter_nil. rewrite Hr.
  destruct (decide (ran exe)) as [Hn|Hn].
  - assert (0 < length (runs_of exe))%nat by (unfold ran in Hn; destruct (runs_of exe); [done|cbn; lia]).
    destruct (Z.ltb_spec 0 (Z.of_nat (length (runs_of exe)))); [|lia].
    apply Forall2_app; [done|]. constructor; [|constructor]. by unfold line_of.
  - assert (runs_of exe = []) as -> by (unfold ran in Hn; destruct (runs_of exe); [done|by destruct Hn]). cbn. by rewrite app_nil_r.
Qed.

(** A report of one of the project's executions that started in the window. *)
Definition project_run (p : Z) (r : Report) : Prop :=
  (∃ id exe, executions (st_catalog s) !! id = Some exe ∧ exe_ProjectID exe = p ∧
     ∃ k, reports rs !! k = Some r ∧ rep_ExecutionID r = exe_ID exe) ∧ spanned start end_ r.

Lemma elem_of_project_runs p r :
  r ∈ ListExecutionsByProject p s ≫= runs_of ↔ project_run p r.
Proof.
  unfold project_run, runs_of. rewrite list_elem_of_bind. setoid_rewrite list_elem_of_filter.
  setoid_rewrite elem_of_all_reports. unfold ListExecutionsByProject.
  setoid_rewrite merge_sort_Permutation. setoid_rewrite list_elem_of_filter.
  setoid_rewrite list_elem_of_fmap. split.
  - intros (exe & [Hsp Hr] & Hp & [id e'] & -> & Hin%elem_of_map_to_list). split; [|done].
    exists id, e'. naive_solver.
  - intros ((id & exe & He%elem_of_map_to_list & Hp & Hr) & Hsp).
    exists exe. split; [done|]. split; [done|]. by exists (id, exe).
Qed.

(** A digest counts exactly the reported runs of the project that started in
    its window: how many there are, how many of them passed, failed and were
    aborted; and it has a line for each execution with such a run, with their
    number and the worst outcome of any of them. *)
Theorem digest_counts_exact ths grader p period py :
  BuildPayload s rs ths grader p period start end_ = Ok py →
  ∃ runs, (∀ r, r ∈ runs ↔ project_run p r) ∧
    py_RunsTotal py = Z.of_nat (length runs) ∧ py_ByOutcome py = outcomes_of runs ∧
    py_ThresholdFailures py = number OutcomeFailed runs ∧
    Forall2 line_of (filter ran (ListExecutionsByProject p s)) (py_Executions py).
Proof.
  unfold BuildPayload. destruct (ParsePeriod period); [|done].
  pose proof (scan_executions_spec (ListExecutionsByProject p s) [] [] [] [] ltac:(constructor)) as H.
  change (Z.of_nat (length []), outcomes_of [], [], []) with
    (0, mkByOutcome 0 0 0, @nil windowRun, @nil ExecutionSummary) in H.
  destruct (scan_executions _ _ _ _ _) as [[[total by_] wruns] lines]. cbn zeta in H.
  rewrite !app_nil_l in H. destruct H as (-> & -> & Hl).
  destruct (threshold_lines _ _ _) as [graded|]; [|done].
  destruct (budget_lines _ _ _ _) as [budgets|]; [|done]. intros [= <-].
  exists (ListExecutionsByProject p s ≫= runs_of). split; [apply elem_of_project_runs|]. done.
Qed.
End counting.

(** ** A target of zero stops the digests *)

(** JSON has no infinities and no NaN: encoding one fails. *)
Definition payload_finite (py : Payload) : Prop :=
  Forall (λ l, ∀ pct, sl_WorstBudgetRemainingPct l = Some pct → finite pct) (py_SLOBudgets py).

Lemma budget_of_worst g m pct :
  Worst (wo_Budget g) = Some m → mb_BudgetRemainingPct m = Some pct →
  sl_WorstBudgetRemainingPct (budget_of g) = Some pct.
Proof. intros Hw Hp. unfold budget_of. by rewrite Hw, Hp. Qed.

(** A project with an objective that tolerates no errors, and no latency
    target, gets no digest: the budget of that objective is not a number as
    soon as the window has a run, so the payload cannot be encoded, nothing is
    stored, and the next firing, whose window starts at the same place, fails
    the same way. *)
Theorem zero_target_stops_digests s rs ths Marshal deliverer slos_ p period now t log last id o v n p95 sr :
  (∀ py b, Marshal py = Ok b → payload_finite py) →
  LastDigestWindowEnd p period t = Ok last →
  slos slos_ !! id = Some o → slo_ListErr slos_ = None → slo_ProjectID o = p →
  slo_TargetP95MS o = None → slo_TargetErrorRate o = Some fzero →
  aggregate p (default (time_Add now (- Period_Duration period)) last) now s rs =
    (mkActual p95 (Some v) sr, n) → flt v fzero = false →
  ∃ e, Fire s rs ths Marshal (Some (λ p a b, ProjectWindowBudgets p a b slos_ s rs)) deliverer p period now
         (t, log) = (Err e, (t, log)).
Proof.
  intros Hjson Hlast Ho Hle Hp Hp95 Her Hagg Hv. unfold Fire. rewrite Hlast.
  set (start := default _ last) in *. unfold BuildDigest, mbind, result_bind.
  destruct (BuildPayload _ _ _ _ _ _ _ _) as [py|e] eqn:Hpy; [|eauto].
  destruct (Marshal py) as [b|e] eqn:Hm; [|eauto]. exfalso. apply Hjson in Hm.
  unfold BuildPayload in Hpy. destruct (ParsePeriod period); [|done].
  destruct (scan_executions _ _ _ _ _) as [[[total by_] runs] lines].
  destruct (threshold_lines _ _ _) as [graded|]; [|done].
  unfold budget_lines, ProjectWindowBudgets, mbind, result_bind, Aggregate in Hpy. rewrite Hagg in Hpy.
  destruct (ListSLOsByProject p slos_) as [objs|] eqn:Hl; [|done].
  assert (o ∈ objs) as Hin by (eapply elem_of_slos; eauto).
  destruct objs as [|o0 objs]; [by apply elem_of_nil in Hin|].
  injection Hpy as <-. unfold payload_finite in Hm. cbn [py_SLOBudgets] in Hm.
  rewrite Forall_forall in Hm.
  specialize (Hm _ (list_elem_of_fmap_2 budget_of _ _ (list_elem_of_fmap_2 _ _ _ Hin))).
  destruct (zero_target_worst o v (mkActual p95 (Some v) sr)) as (m & pct & Hw & Hpct & Hnf); [done..|].
  apply Hnf, Hm. by apply (budget_of_worst _ m).
Qed.

(** ** Claiming a schedule *)
#[global] Instance due_le_trans : Transitive due_le.
Proof.
  intros a b c. unfold due_le. destruct (ds_LastFired a.2), (ds_LastFired b.2), (ds_LastFired c.2); lia || done.
Qed.
#[global] Instance due_le_total : Total due_le.
Proof. intros a b. unfold due_le. destruct (ds_LastFired a.2), (ds_LastFired b.2); lia || tauto. Qed.

Definition claimable (t : DigestScheduleStore) (now : time) (k : Z) (row : DigestSchedule) : Prop :=
  dschedules t !! k = Some row ∧ ds_Enabled row = true ∧ due row now = true.

Lemma elem_of_candidates t now kr :
  kr ∈ filter (λ kr : Z * DigestSchedule, ds_Enabled kr.2 && due kr.2 now = true) (map_to_list (dschedules t)) ↔
  claimable t now kr.1 kr.2.
Proof.
  destruct kr as [k row]. unfold claimable. cbn.
  rewrite list_elem_of_filter, elem_of_map_to_list, andb_true_iff. cbn. tauto.
Qed.

Lemma claim_spec now t r t' :
  ds_ClaimErr t = None → ClaimDueDigestSchedule now t = (r, t') →
  (r = Ok None ∧ t' = t ∧ ∀ k row, ¬ claimable t now k row) ∨
  ∃ k row, claimable t now k row ∧ (∀ k' row', claimable t now k' row' → due_le (k, row) (k', row')) ∧
    let row' := mkDigestSchedule (ds_ProjectID row) (ds_Period row) (ds_Enabled row) (Some now) in
    r = Ok (Some row') ∧ t' = put_dschedules (<[k := row']> (dschedules t)) t.
Proof.
  intros He. unfold ClaimDueDigestSchedule, dueOrder. rewrite He.
  set (l := filter _ _). assert (StronglySorted due_le (merge_sort due_le l)) as Hs
    by (apply StronglySorted_merge_sort; apply _).
  assert (∀ kr, kr ∈ merge_sort due_le l ↔ claimable t now kr.1 kr.2) as Hin
    by (intros kr; rewrite merge_sort_Permutation; apply elem_of_candidates).
  destruct (merge_sort due_le l) as [|[k row] rest].
  - intros [= <- <-]. left. split; [done|]. split; [done|]. intros k row Hc.
    apply (Hin (k, row)) in Hc. by apply elem_of_nil in Hc.
  - assert (claimable t now k row) as Hc by (apply (Hin (k, row)); left). cbn.
    destruct Hc as (Hk & Hen & Hd). rewrite Hk, Hd. intros [= <- <-]. right. exists k, row.
    split; [done|]. split; [|done]. intros k' row' Hc'. apply (Hin (k', row')) in Hc'.
    apply elem_of_cons in Hc' as [[= -> ->]|Hr]; [by destruct (total due_le (k, row) (k, row))|].
    apply StronglySorted_inv in Hs as [_ Hs]. rewrite Forall_forall in Hs. by apply Hs.
Qed.

(** A digest is fired at most once per period: a claim takes the enabled
    schedule that has waited longest among those due, stamps it, and changes
    nothing else; from then on, as long as its row is not edited, it is not due
    before a full period has passed.  A claim comes back empty only when no
    enabled schedule is due. *)
Theorem digest_claim_exclusive now t r t' :
  ds_ClaimErr t = None → ClaimDueDigestSchedule now t = (r, t') →
  (r = Ok None ∧ t' = t ∧ ∀ k row, ¬ claimable t now k row) ∨
  ∃ k row row', claimable t now k row ∧ r = Ok (Some row') ∧
    (∀ k' other, claimable t now k' other → due_le (k, row) (k', other)) ∧
    ds_Period row' = ds_Period row ∧ dschedules t' = <[k := row']> (dschedules t) ∧
    ∀ now' t2, dschedules t2 !! k = Some row' → now' < now + Period_Duration (ds_Period row) →
      ¬ claimable t2 now' k row'.
Proof.
  intros He [H|(k & row & Hc & Hmin & -> & ->)]%claim_spec; [by left| |done]. right.
  eexists k, row, _. split; [done|]. split; [done|]. split; [done|]. split; [done|]. split; [done|].
  intros now' t2 Ht2 Hlt (_ & _ & Hd). unfold due in Hd. cbn in Hd. unfold Before, time_Add in Hd.
  by rewrite bool_decide_eq_true_2 in Hd.
Qed.

(** ** Examples *)
Definition d_report : Report :=
  mkReport 7 1 1 "jmeter" "" "" 5 6 OutcomePassed (mkLoad 1 fzero 0 [] 0 0) (mkLoad 1 fzero 0 [] 0 0)
    fzero ∅ (mkAttribution 0 0 0) [] [] [] None false "".
Definition d_store : Store :=
  set_catalog (put_executions 7 {[ 7 := mkExecution 7 "x" 3 "" KindNormal "" "" "" [] false None "" "" 0 ]}
    empty_catalog) NewStore.
Definition d_reports : ReportStore := mkReportStore {[ 1 := d_report ]} None None.
Definition d_thresholds : ThresholdStore := NewThresholdStore.
Definition d_marshal (py : Payload) : result error string :=
  if forallb (λ l, match sl_WorstBudgetRemainingPct l with
                   | Some pct => bool_decide (finite pct) | None => true end) (py_SLOBudgets py)
  then Ok "{}" else Err ErrJSON.
Definition d_slos : SLOStore :=
  put_slos 1 {[ 1 := mkSLO 1 3 "no errors" None (Some fzero) None 0 ]} NewSLOStore.

Lemma d_marshal_finite py b : d_marshal py = Ok b → payload_finite py.
Proof.
  unfold d_marshal. destruct (forallb _ _) eqn:H; [|done]. intros _.
  rewrite forallb_forall in H. apply Forall_forall. intros l Hl pct Hpct.
  apply list_elem_of_In, H in Hl. rewrite Hpct in Hl. by apply bool_decide_eq_true in Hl.
Qed.

Lemma zero_target_stops_digests_witness :
  ∃ e, Fire d_store d_reports d_thresholds d_marshal
         (Some (λ p a b, ProjectWindowBudgets p a b d_slos d_store d_reports)) None 3 "daily" 10
         (NewDigestStore, []) = (Err e, (NewDigestStore, [])).
Proof.
  apply (zero_target_stops_digests d_store d_reports d_thresholds d_marshal None d_slos 3 "daily" 10
    NewDigestStore [] None 1 (mkSLO 1 3 "no errors" None (Some fzero) None 0) fzero 1 None
    (Some (of_int 1)) d_marshal_finite); vm_compute; reflexivity.
Defined.

(** Two digests of the same project, fired a day apart. *)
Definition d_fire (now : time) (t : DigestStore) : DigestStore :=
  (Fire d_store d_reports d_thresholds d_marshal None None 3 "daily" now (t, [])).2.1.
Definition day : duration := 24 * hour.
Lemma d_history : rtc digest_step (10, NewDigestStore) (10 + day, d_fire (10 + day) (d_fire 10 NewDigestStore)).
Proof.
  eapply rtc_l; [apply dg_fire|]. eapply rtc_l; [apply (dg_tick _ (10 + day)); unfold day, hour, second; lia|].
  apply rtc_once, dg_fire.
Qed.

Lemma digests_tile_witness :
  ∃ d d', digests (d_fire (10 + day) (d_fire 10 NewDigestStore)) !! 1 = Some d ∧
    digests (d_fire (10 + day) (d_fire 10 NewDigestStore)) !! 2 = Some d' ∧
    dg_WindowEnd d <= dg_WindowStart d'.
Proof.
  eexists _, _. split; [vm_compute; reflexivity|]. split; [vm_compute; reflexivity|].
  eapply (digests_tile _ _ _ 3 "daily" 1 2 _ _ d_history);
    [vm_compute; reflexivity|vm_compute; reflexivity|done|done|lia].
Defined.

Lemma straddling_run_never_counted_witness :
  in_span 10 (10 + day) d_report = false ∧ rep_StartedAt d_report < 10.
Proof.
  split; [|cbn; lia].
  refine (straddling_run_never_counted _ _ _ 3 "daily" 1 2
    (mkDigest 1 3 "daily" (10 - day) 10 "{}" DeliveryPending None 10)
    (mkDigest 2 3 "daily" 10 (10 + day) "{}" DeliveryPending None (10 + day)) d_report d_history _ _ _ _ _ _);
    [vm_compute; reflexivity|vm_compute; reflexivity|done|done|lia|cbn; lia].
Defined.

Lemma digest_counts_exact_witness :
  ∃ py, BuildPayload d_store d_reports d_thresholds None 3 "daily" 0 10 = Ok py ∧
    ∃ runs, py_RunsTotal py = Z.of_nat (length runs) ∧ ∀ r, r ∈ runs ↔ project_run d_store d_reports 0 10 3 r.
Proof.
  assert (∃ py, BuildPayload d_store d_reports d_thresholds None 3 "daily" 0 10 = Ok py) as [py Hpy]
    by (eexists; vm_compute; reflexivity).
  exists py. split; [done|].
  destruct (digest_counts_exact d_store d_reports 0 10 d_thresholds None 3 "daily" py Hpy)
    as (runs & Hin & Hn & _). eauto.
Defined.

Lemma digest_claim_exclusive_witness :
  ∃ r t', ClaimDueDigestSchedule 5 (put_dschedules {[ 3 := mkDigestSchedule 3 "daily" true None ]}
            NewDigestScheduleStore) = (r, t') ∧ r ≠ Ok None.
Proof.
  set (t := put_dschedules _ _). destruct (ClaimDueDigestSchedule 5 t) as [r t'] eqn:E.
  exists r, t'. split; [done|].
  destruct (digest_claim_exclusive 5 t r t' eq_refl E) as [(-> & _ & Hno)|(k & row & row' & _ & -> & _)]; [|done].
  by destruct (Hno 3 (mkDigestSchedule 3 "daily" true None)).
Defined.
