(* ===== verification/ClusterApp.v ===== *)
(** * The cluster registry ([internal/app/clusterapp], [internal/domain/clusterregistry])

    The Kubernetes clusters load can be generated from: the entry and its
    validation, the registry table ([ports/fake/clusterregistry.go]), the
    credentials kept as Secrets of the home cluster
    ([adapters/scheduler/k8s/credential.go]), and the service that registers,
    updates, rotates and removes entries.  The registry and the credential store
    are interfaces: the service is proved against their laws, and the in-memory
    table and the home-cluster Secrets satisfy them.

    Parameters: the kubeconfig parser, the prober, SHA-256, and what a draw of
    the cipher and of the token source returns. *)
From Stdlib Require Import Ascii.
From S2P Require Import Prelude Errors GoStrings Base64 Execution RunTable Store.

(** ** The entry *)
Definition Origin := string.
Definition OriginOperator : Origin := "operator".
Definition OriginBYOC : Origin := "byoc".
Definition DefaultName : string := "".
Definition IsDefaultName (ref : string) : bool := bool_decide (TrimSpace ref = DefaultName).
Definition MaxLabelLen : Z := 64.

Record Cluster := mkCluster {
  cl_Name : string; cl_APIURL : string; cl_CACert : string; cl_IngestURL : string;
  cl_SidecarImage : string; cl_Namespace : string; cl_SecretRef : string;
  cl_IngestTokenHash : string; cl_Origin : Origin; cl_Geo : string; cl_Zone : string;
  cl_CreatedBy : string; cl_CreatedTime : time
}.

(** [unicode.IsControl]: U+0000 to U+001F and U+007F to U+009F. *)
Definition IsControl (r : list ascii) : bool :=
  match r with
  | [a] => in_range 0 31 a || in_range 127 127 a
  | [a; b] => in_range 194 194 a && in_range 128 159 b
  | _ => false
  end.
Definition validateLabel (label : string) : result error unit :=
  if MaxLabelLen <? go_len label then Err ErrLabelTooLong
  else if existsb IsControl (runes label) then Err ErrLabelControl
  else Ok tt.

Definition blank (s : string) : bool := bool_decide (TrimSpace s = "").
Definition Cluster_Validate (c : Cluster) : result error unit :=
  if blank (cl_Name c) then Err ErrClusterNameRequired
  else if negb (bool_decide (cl_Origin c = OriginOperator) || bool_decide (cl_Origin c = OriginBYOC))
  then Err ErrOriginUnknown
  else if blank (cl_SecretRef c) then Err ErrSecretRefRequired
  else if blank (cl_Namespace c) then Err ErrNamespaceRequired
  else if blank (cl_IngestURL c) then Err ErrIngestURLRequired
  else if blank (cl_SidecarImage c) then Err ErrSidecarImageRequired
  else _ ← validateLabel (cl_Geo c); validateLabel (cl_Zone c).

Definition normalize (c : Cluster) : Cluster :=
  mkCluster (TrimSpace (cl_Name c)) (cl_APIURL c) (cl_CACert c) (TrimSpace (cl_IngestURL c))
    (TrimSpace (cl_SidecarImage c)) (TrimSpace (cl_Namespace c)) (TrimSpace (cl_SecretRef c))
    (cl_IngestTokenHash c) (cl_Origin c) (cl_Geo c) (cl_Zone c) (cl_CreatedBy c) (cl_CreatedTime c).

(** The fields the service fills in. *)
Definition with_origin (o : Origin) (c : Cluster) : Cluster :=
  mkCluster (cl_Name c) (cl_APIURL c) (cl_CACert c) (cl_IngestURL c) (cl_SidecarImage c) (cl_Namespace c)
    (cl_SecretRef c) (cl_IngestTokenHash c) o (cl_Geo c) (cl_Zone c) (cl_CreatedBy c) (cl_CreatedTime c).
Definition with_api (url ca : string) (c : Cluster) : Cluster :=
  mkCluster (cl_Name c) url ca (cl_IngestURL c) (cl_SidecarImage c) (cl_Namespace c)
    (cl_SecretRef c) (cl_IngestTokenHash c) (cl_Origin c) (cl_Geo c) (cl_Zone c) (cl_CreatedBy c) (cl_CreatedTime c).
Definition with_secret (ref : string) (c : Cluster) : Cluster :=
  mkCluster (cl_Name c) (cl_APIURL c) (cl_CACert c) (cl_IngestURL c) (cl_SidecarImage c) (cl_Namespace c)
    ref (cl_IngestTokenHash c) (cl_Origin c) (cl_Geo c) (cl_Zone c) (cl_CreatedBy c) (cl_CreatedTime c).
Definition with_hash (h : string) (c : Cluster) : Cluster :=
  mkCluster (cl_Name c) (cl_APIURL c) (cl_CACert c) (cl_IngestURL c) (cl_SidecarImage c) (cl_Namespace c)
    (cl_SecretRef c) h (cl_Origin c) (cl_Geo c) (cl_Zone c) (cl_CreatedBy c) (cl_CreatedTime c).
Definition with_created (old c : Cluster) : Cluster :=
  mkCluster (cl_Name c) (cl_APIURL c) (cl_CACert c) (cl_IngestURL c) (cl_SidecarImage c) (cl_Namespace c)
    (cl_SecretRef c) (cl_IngestTokenHash c) (cl_Origin c) (cl_Geo c) (cl_Zone c)
    (cl_CreatedBy old) (cl_CreatedTime old).

Definition EncodeToken (raw : string) : string := of_bytes (b64_encode (bytes_of raw)).

(** ** The registry *)
Class ClusterRegistry (R : Type) := {
  CreateCluster : Cluster → M R error unit;
  GetCluster : string → R → result error Cluster;
  ListClusters : R → result error (list Cluster);
  UpdateCluster : Cluster → M R error unit;
  DeleteCluster : string → M R error unit;
  SetClusterCredential : string → option string → M R error unit;
  SetClusterIngestTokenHash : string → string → M R error unit;
  ClusterByIngestTokenHash : string → R → result error Cluster
}.

(** What a registry promises.  A call that fails changes nothing. *)
Class RegistryLaws (R : Type) `{!ClusterRegistry R} := {
  entries : R → gmap string Cluster;
  create_law c r x r' : CreateCluster c r = (x, r') →
    match x with
    | Ok _ => entries r !! cl_Name c = None ∧ entries r' = <[cl_Name c := c]> (entries r)
    | Err _ => entries r' = entries r
    end;
  get_law n r c : GetCluster n r = Ok c → entries r !! n = Some c;
  list_law r l : ListClusters r = Ok l → ∀ c, c ∈ l ↔ ∃ n, entries r !! n = Some c;
  update_law c r x r' old : UpdateCluster c r = (x, r') → entries r !! cl_Name c = Some old →
    cl_IngestTokenHash c = cl_IngestTokenHash old →
    match x with
    | Ok _ => entries r' = <[cl_Name c := with_created old c]> (entries r)
    | Err _ => entries r' = entries r
    end;
  delete_law n r x r' : DeleteCluster n r = (x, r') →
    match x with
    | Ok _ => is_Some (entries r !! n) ∧ entries r' = delete n (entries r)
    | Err _ => entries r' = entries r
    end;
  credential_law n s r x r' : SetClusterCredential n s r = (x, r') → entries r' = entries r;
  hash_law n h r x r' : SetClusterIngestTokenHash n h r = (x, r') →
    match x with
    | Ok _ => ∃ c, entries r !! n = Some c ∧ entries r' = <[n := with_hash h c]> (entries r)
    | Err _ => entries r' = entries r
    end;
  by_hash_law h r c : ClusterByIngestTokenHash h r = Ok c →
    h ≠ "" ∧ cl_IngestTokenHash c = h ∧ ∃ n, entries r !! n = Some c
}.

(** The in-memory table. *)
Record ClusterTable := mkClusterTable {
  clusters : gmap string Cluster; clusterCredentials : gmap string string
}.
Definition NewClusterTable : ClusterTable := mkClusterTable ∅ ∅.
Definition put_clusters (m : gmap string Cluster) (t : ClusterTable) : ClusterTable :=
  mkClusterTable m (clusterCredentials t).

Definition fake_CreateCluster (c : Cluster) : M ClusterTable error unit := λ t,
  match clusters t !! cl_Name c with
  | Some _ => (Err ErrClusterExists, t)
  | None => (Ok tt, put_clusters (<[cl_Name c := c]> (clusters t)) t)
  end.
Definition fake_GetCluster (name : string) (t : ClusterTable) : result error Cluster :=
  match clusters t !! name with Some c => Ok c | None => Err ErrNotFound end.
Definition cl_le (a b : Cluster) : Prop := str_le (cl_Name a) (cl_Name b).
#[global] Instance cl_le_dec a b : Decision (cl_le a b).
Proof. unfold cl_le. apply _. Defined.
Definition fake_ListClusters (t : ClusterTable) : result error (list Cluster) :=
  Ok (merge_sort cl_le (map_to_list (clusters t)).*2).
Definition fake_UpdateCluster (c : Cluster) : M ClusterTable error unit := λ t,
  match clusters t !! cl_Name c with
  | None => (Err ErrNotFound, t)
  | Some existing => (Ok tt, put_clusters (<[cl_Name c := with_created existing c]> (clusters t)) t)
  end.
Definition fake_DeleteCluster (name : string) : M ClusterTable error unit := λ t,
  match clusters t !! name with
  | None => (Err ErrNotFound, t)
  | Some _ => (Ok tt, put_clusters (delete name (clusters t)) t)
  end.
Definition fake_SetClusterCredential (name : string) (ciphertext : option string) :
    M ClusterTable error unit := λ t,
  match clusters t !! name with
  | None => (Err ErrNotFound, t)
  | Some _ =>
      (Ok tt, mkClusterTable (clusters t)
                match ciphertext with
                | None => delete name (clusterCredentials t)
                | Some c => <[name := c]> (clusterCredentials t)
                end)
  end.
Definition fake_SetClusterIngestTokenHash (name hash : string) : M ClusterTable error unit := λ t,
  match clusters t !! name with
  | None => (Err ErrNotFound, t)
  | Some c => (Ok tt, put_clusters (<[name := with_hash hash c]> (clusters t)) t)
  end.
(** The first entry the iteration meets; the order of the iteration is not
    specified. *)
Definition fake_ClusterByIngestTokenHash (hash : string) (t : ClusterTable) : result error Cluster :=
  match List.find (λ c, negb (bool_decide (cl_IngestTokenHash c = "")) &&
                        bool_decide (cl_IngestTokenHash c = hash)) (map_to_list (clusters t)).*2 with
  | Some c => Ok c
  | None => Err ErrNotFound
  end.

#[global] Instance cluster_table : ClusterRegistry ClusterTable := {
  CreateCluster := fake_CreateCluster;
  GetCluster := fake_GetCluster;
  ListClusters := fake_ListClusters;
  UpdateCluster := fake_UpdateCluster;
  DeleteCluster := fake_DeleteCluster;
  SetClusterCredential := fake_SetClusterCredential;
  SetClusterIngestTokenHash := fake_SetClusterIngestTokenHash;
  ClusterByIngestTokenHash := fake_ClusterByIngestTokenHash
}.
#[global] Instance cluster_table_laws : RegistryLaws ClusterTable.
Proof.
  refine {| entries := clusters |}; cbn.
  - intros c r x r'. unfold fake_CreateCluster. destruct (clusters r !! cl_Name c) eqn:H; by intros [= <- <-].
  - intros n r c. unfold fake_GetCluster. destruct (clusters r !! n); [by intros [= ->]|done].
  - intros r l [= <-] c. rewrite merge_sort_Permutation, list_elem_of_fmap. split.
    + intros ([n c'] & -> & ?%elem_of_map_to_list). eauto.
    + intros (n & ?%elem_of_map_to_list). by exists (n, c).
  - intros c r x r' old. unfold fake_UpdateCluster. intros H Hold _. rewrite Hold in H. by injection H as <- <-.
  - intros n r x r'. unfold fake_DeleteCluster. destruct (clusters r !! n) eqn:H; intros [= <- <-]; [|done].
    split; [by eexists|done].
  - intros n s r x r'. unfold fake_SetClusterCredential. destruct (clusters r !! n); by intros [= <- <-].
  - intros n h r x r'. unfold fake_SetClusterIngestTokenHash. destruct (clusters r !! n); intros [= <- <-]; eauto.
  - intros h r c. unfold fake_ClusterByIngestTokenHash. destruct (List.find _ _) as [c'|] eqn:H; [|done].
    intros [= ->]. apply List.find_some in H as [Hin Hc].
    apply andb_prop in Hc as [Hne Hh%bool_decide_eq_true]. subst h.
    apply negb_true_iff, bool_decide_eq_false in Hne. split; [exact Hne|]. split; [reflexivity|].
    apply list_elem_of_In, list_elem_of_fmap in Hin as ([n c'] & -> & ?%elem_of_map_to_list). eauto.
Defined.

(** ** Credentials *)
Record ClusterCredential := mkCredential {
  cr_APIURL : string; cr_CACert : string; cr_Token : string;
  cr_ClientCert : string; cr_ClientKey : string
}.

Class CredentialStore (X : Type) := {
  Materialize : string → ClusterCredential → M X error unit;
  ReadSecret : string → X → result error ClusterCredential;
  DeleteSecret : string → M X error unit
}.
Class CredentialLaws (X : Type) `{!CredentialStore X} := {
  held : X → gmap string ClusterCredential;
  materialize_law n cred x a x' : Materialize n cred x = (a, x') →
    match a with
    | Ok _ => held x' = <[n := cred]> (held x)
    | Err _ => held x' = held x
    end;
  read_law n x cred : ReadSecret n x = Ok cred → held x !! n = Some cred;
  drop_law n x a x' : DeleteSecret n x = (a, x') →
    match a with
    | Ok _ => held x' = delete n (held x)
    | Err _ => held x' = held x
    end
}.

(** The Secrets of the home cluster's namespace, behind the API server: an
    object is its labels and its data. *)
Record Secret := mkSecret { sec_Labels : gmap string string; sec_Data : gmap string string }.
Class SecretsAPI (X : Type) := {
  SecretCreate : string → Secret → M X error unit;
  SecretGet : string → X → result error Secret;
  SecretUpdate : string → Secret → M X error unit;
  SecretDelete : string → M X error unit
}.
(** What the API server documents; a call that fails changes nothing. *)
Class SecretsLaws (X : Type) `{!SecretsAPI X} := {
  secrets : X → gmap string Secret;
  sec_create n o x a x' : SecretCreate n o x = (a, x') →
    match a with
    | Ok _ => secrets x' = <[n := o]> (secrets x)
    | Err e => secrets x' = secrets x
    end;
  sec_get n x o : SecretGet n x = Ok o → secrets x !! n = Some o;
  sec_update n o x a x' : SecretUpdate n o x = (a, x') →
    match a with
    | Ok _ => secrets x' = <[n := o]> (secrets x)
    | Err e => secrets x' = secrets x
    end;
  sec_delete n x a x' : SecretDelete n x = (a, x') →
    match a with
    | Ok _ => secrets x' = delete n (secrets x)
    | Err e => secrets x' = secrets x ∧ (e = ErrKubeNotFound → secrets x !! n = None)
    end
}.

Definition credentialSecretPrefix : string := "honryu-cluster-".
Definition CredentialSecretName (clusterName : string) : string := credentialSecretPrefix +:+ clusterName.
Definition managedByLabel : string := "managed-by".
Definition managedByValue : string := "honryu".

Definition put_unless_empty (k v : string) (m : gmap string string) : gmap string string :=
  if bool_decide (v = "") then m else <[k := v]> m.
Definition credentialToData (cred : ClusterCredential) : gmap string string :=
  put_unless_empty "client.key" (cr_ClientKey cred)
    (put_unless_empty "client.crt" (cr_ClientCert cred)
       (put_unless_empty "token" (cr_Token cred)
          (<["ca.crt" := cr_CACert cred]> {[ "api-url" := cr_APIURL cred ]}))).
Definition data_key (k : string) (m : gmap string string) : string := default "" (m !! k).
Definition credential_of (m : gmap string string) : ClusterCredential :=
  mkCredential (data_key "api-url" m) (data_key "ca.crt" m) (data_key "token" m)
    (data_key "client.crt" m) (data_key "client.key" m).

Section home.
Context {X : Type} `{!SecretsAPI X}.

Definition MaterializeCredential (secretName : string) (cred : ClusterCredential) : M X error unit :=
  let data := credentialToData cred in
  r ← attempt (SecretCreate secretName (mkSecret {[ managedByLabel := managedByValue ]} data));
  match r with
  | Ok _ => mret tt
  | Err e =>
      if bool_decide (e = ErrKubeAlreadyExists) then
        existing ← ask (SecretGet secretName);
        SecretUpdate secretName (mkSecret (<[managedByLabel := managedByValue]> (sec_Labels existing)) data)
      else throw e
  end.
Definition ReadCredential (secretName : string) (x : X) : result error ClusterCredential :=
  match SecretGet secretName x with
  | Err e => Err (if bool_decide (e = ErrKubeNotFound) then ErrCredentialSecretNotFound else e)
  | Ok secret => Ok (credential_of (sec_Data secret))
  end.
Definition HomeDelete (secretName : string) : M X error unit :=
  r ← attempt (SecretDelete secretName);
  match r with
  | Ok _ => mret tt
  | Err e => if bool_decide (e = ErrKubeNotFound) then mret tt else throw e
  end.

#[global] Instance home_credentials : CredentialStore X := {
  Materialize := MaterializeCredential; ReadSecret := ReadCredential; DeleteSecret := HomeDelete
}.

Context `{!SecretsLaws X}.
Lemma credential_round_trip cred : credential_of (credentialToData cred) = cred.
Proof.
  destruct cred as [url ca tok cert key]. unfold credential_of, credentialToData, put_unless_empty, data_key.
  cbn [cr_APIURL cr_CACert cr_Token cr_ClientCert cr_ClientKey].
  repeat case_bool_decide; subst; f_equal; by simplify_map_eq.
Qed.
#[global] Instance home_credentials_laws : CredentialLaws X.
Proof using SecretsLaws0.
  refine {| held x := (λ s, credential_of (sec_Data s)) <$> secrets x |}; cbn.
  - intros n cred x a x'. unfold MaterializeCredential, attempt, mbind, M_bind.
    destruct (SecretCreate _ _ x) as [r x1] eqn:H1. apply sec_create in H1. cbn.
    destruct r as [[]|e]; cbn.
    { intros [= <- <-]. rewrite H1, fmap_insert. cbn [sec_Data]. by rewrite credential_round_trip. }
    case_bool_decide as He; [|intros [= <- <-]; by rewrite H1].
    unfold ask. destruct (SecretGet n x1) as [o|e2]; [|intros [= <- <-]; by rewrite H1].
    intros H. apply sec_update in H. destruct a; rewrite H, H1; [|done].
    rewrite fmap_insert. cbn [sec_Data]. by rewrite credential_round_trip.
  - intros n x cred. unfold ReadCredential. destruct (SecretGet n x) as [o|e] eqn:H.
    + intros [= <-]. apply sec_get in H. by rewrite lookup_fmap, H.
    + done.
  - intros n x a x'. unfold HomeDelete, attempt, mbind, M_bind.
    destruct (SecretDelete n x) as [r x1] eqn:H1. apply sec_delete in H1. cbn.
    destruct r as [[]|e]; cbn; [intros [= <- <-]; by rewrite H1, fmap_delete|].
    destruct H1 as [H1 Hnf]. case_bool_decide as He; intros [= <- <-]; rewrite H1; [|done].
    rewrite delete_id; [done|]. by rewrite lookup_fmap, Hnf.
Defined.
End home.

(** ** The service *)
Record ClusterWorld (R X : Type) := mkCW { cw_registry : R; cw_credentials : X; cw_runs : Store }.
Arguments mkCW {R X}.
Arguments cw_registry {R X}.
Arguments cw_credentials {R X}.
Arguments cw_runs {R X}.

Record RegisterResult := mkRegisterResult { reg_Cluster : Cluster; reg_IngestToken : string }.

Section clusterapp.
Context {R X : Type} `{!ClusterRegistry R} `{!CredentialStore X}.
Local Abbreviation W := (ClusterWorld R X).

Definition on_registry {A} (m : M R error A) : M W error A := λ w,
  let '(a, r) := m (cw_registry w) in (a, mkCW r (cw_credentials w) (cw_runs w)).
Definition on_credentials {A} (m : M X error A) : M W error A := λ w,
  let '(a, x) := m (cw_credentials w) in (a, mkCW (cw_registry w) x (cw_runs w)).
Definition ask_registry {A} (f : R → result error A) : M W error A := ask (λ w, f (cw_registry w)).

Context (Parse : string → result error ClusterCredential).
Context (Probe : ClusterCredential → string → result error unit).
Context (HashToken : string → string).

Definition RegisterOperator (entry : Cluster) : M W error Cluster :=
  let entry := with_origin OriginOperator (normalize entry) in
  _ ← lift (Cluster_Validate entry);
  cred ← ask (λ w, ReadSecret (cl_SecretRef entry) (cw_credentials w));
  let entry := with_api (cr_APIURL cred) (cr_CACert cred) entry in
  _ ← lift (Probe cred (cl_Namespace entry));
  _ ← on_registry (CreateCluster entry);
  mret entry.

(** [mint]: the bytes the token source draws. *)
Definition mintToken (mint : result error string) : result error string :=
  raw ← mint; Ok (EncodeToken raw).

(** [rollback ms e m]: [if err := m(); err != nil { ms...; return e }]. *)
Definition or_rollback (m : M W error unit) (rollback : M W error unit) : M W error unit :=
  r ← attempt m;
  match r with
  | Ok _ => mret tt
  | Err e => _ ← ignore rollback; throw e
  end.

(** [sealed]: what sealing the kubeconfig with a fresh nonce gives. *)
Definition RegisterBYOC (entry : Cluster) (kubeconfig : string) (sealed mint : result error string) :
    M W error RegisterResult :=
  let entry := with_origin OriginBYOC (normalize entry) in
  cred ← lift match Parse kubeconfig with Ok c => Ok c | Err _ => Err ErrKubeconfigInvalid end;
  let entry := with_secret (CredentialSecretName (cl_Name entry))
                 (with_api (cr_APIURL cred) (cr_CACert cred) entry) in
  _ ← lift (Cluster_Validate entry);
  _ ← lift (Probe cred (cl_Namespace entry));
  ciphertext ← lift sealed;
  token ← lift (mintToken mint);
  _ ← on_registry (CreateCluster entry);
  _ ← or_rollback (on_registry (SetClusterIngestTokenHash (cl_Name entry) (HashToken token)))
        (on_registry (DeleteCluster (cl_Name entry)));
  _ ← or_rollback (on_credentials (Materialize (cl_SecretRef entry) cred))
        (on_registry (DeleteCluster (cl_Name entry)));
  _ ← or_rollback (on_registry (SetClusterCredential (cl_Name entry) (Some ciphertext)))
        (_ ← ignore (on_credentials (DeleteSecret (cl_SecretRef entry)));
         on_registry (DeleteCluster (cl_Name entry)));
  mret (mkRegisterResult entry token).

Definition RotateIngestToken (name : string) (mint : result error string) : M W error string :=
  _ ← ask_registry (GetCluster name);
  token ← lift (mintToken mint);
  _ ← on_registry (SetClusterIngestTokenHash name (HashToken token));
  mret token.

Definition Cluster_Get (name : string) : M W error Cluster := ask_registry (GetCluster name).
Definition Cluster_List : M W error (list Cluster) := ask_registry ListClusters.

Definition Cluster_Update (name ingestURL sidecarImage namespace geo zone : string) : M W error Cluster :=
  existing ← ask_registry (GetCluster name);
  let existing := mkCluster (cl_Name existing) (cl_APIURL existing) (cl_CACert existing)
    (TrimSpace ingestURL) (TrimSpace sidecarImage) (TrimSpace namespace) (cl_SecretRef existing)
    (cl_IngestTokenHash existing) (cl_Origin existing) (TrimSpace geo) (TrimSpace zone)
    (cl_CreatedBy existing) (cl_CreatedTime existing) in
  _ ← lift (Cluster_Validate existing);
  _ ← on_registry (UpdateCluster existing);
  mret existing.

Definition Cluster_Delete (name : string) : M W error unit :=
  entry ← ask_registry (GetCluster name);
  active ← gets (λ w, ExecutionsWithActiveRunOnCluster name (cw_runs w));
  _ ← guard (negb (bool_decide (active = []))) ErrClusterInUse;
  _ ← (if bool_decide (cl_Origin entry = OriginBYOC)
       then on_credentials (DeleteSecret (cl_SecretRef entry)) else mret tt);
  on_registry (DeleteCluster name).
End clusterapp.

(** ** Facts *)
Section registry.
Context {R X : Type} `{!ClusterRegistry R} `{!RegistryLaws R} `{!CredentialStore X} `{!CredentialLaws X}.
Local Abbreviation W := (ClusterWorld R X).
Implicit Types w : W.
Local Abbreviation rows w := (entries (cw_registry w)).
Local Abbreviation creds w := (held (cw_credentials w)).

(** The calls a rollback makes work: an entry that is there can be removed, and
    so can a Secret. *)
Class Reliable : Prop := {
  removes n (r : R) : is_Some (entries r !! n) → ∃ r', DeleteCluster n r = (Ok tt, r');
  drops n (x : X) : ∃ x', DeleteSecret n x = (Ok tt, x')
}.

Context (Parse : string → result error ClusterCredential).
Context (Probe : ClusterCredential → string → result error unit).
Context (HashToken : string → string).

Lemma reg_create c w a w' :
  on_registry (CreateCluster c) w = (a, w') →
  creds w' = creds w ∧ cw_runs w' = cw_runs w ∧
  match a with
  | Ok _ => rows w !! cl_Name c = None ∧ rows w' = <[cl_Name c := c]> (rows w)
  | Err _ => rows w' = rows w
  end.
Proof using.
  unfold on_registry. destruct (CreateCluster c (cw_registry w)) as [b r] eqn:H. intros [= <- <-].
  apply create_law in H. done.
Qed.
Lemma reg_hash n h w a w' :
  on_registry (SetClusterIngestTokenHash n h) w = (a, w') →
  creds w' = creds w ∧ cw_runs w' = cw_runs w ∧
  match a with
  | Ok _ => ∃ c, rows w !! n = Some c ∧ rows w' = <[n := with_hash h c]> (rows w)
  | Err _ => rows w' = rows w
  end.
Proof using.
  unfold on_registry. destruct (SetClusterIngestTokenHash n h (cw_registry w)) as [b r] eqn:H. intros [= <- <-].
  apply hash_law in H. done.
Qed.
Lemma reg_credential n s w a w' :
  on_registry (SetClusterCredential n s) w = (a, w') →
  creds w' = creds w ∧ cw_runs w' = cw_runs w ∧ rows w' = rows w.
Proof using.
  unfold on_registry. destruct (SetClusterCredential n s (cw_registry w)) as [b r] eqn:H. intros [= <- <-].
  apply credential_law in H. done.
Qed.
Lemma reg_delete n w a w' :
  on_registry (DeleteCluster n) w = (a, w') →
  creds w' = creds w ∧ cw_runs w' = cw_runs w ∧
  match a with
  | Ok _ => is_Some (rows w !! n) ∧ rows w' = delete n (rows w)
  | Err _ => rows w' = rows w
  end.
Proof using.
  unfold on_registry. destruct (DeleteCluster n (cw_registry w)) as [b r] eqn:H. intros [= <- <-].
  apply delete_law in H. done.
Qed.
Lemma cred_write n c w a w' :
  on_credentials (Materialize n c) w = (a, w') →
  rows w' = rows w ∧ cw_runs w' = cw_runs w ∧ creds w' = if is_Ok a then <[n := c]> (creds w) else creds w.
Proof using.
  unfold on_credentials. destruct (Materialize n c (cw_credentials w)) as [b x] eqn:H. intros [= <- <-].
  apply materialize_law in H. by destruct b.
Qed.
Lemma cred_drop n w a w' :
  on_credentials (DeleteSecret n) w = (a, w') →
  rows w' = rows w ∧ cw_runs w' = cw_runs w ∧ creds w' = if is_Ok a then delete n (creds w) else creds w.
Proof using.
  unfold on_credentials. destruct (DeleteSecret n (cw_credentials w)) as [b x] eqn:H. intros [= <- <-].
  apply drop_law in H. by destruct b.
Qed.

(** A step of the registration after the entry was created, undone. *)
Lemma undo_entry `{Hrel : !Reliable} n c w :
  rows w !! n = Some c →
  ∃ w', ignore (on_registry (DeleteCluster n)) w = (Ok tt, w') ∧
    rows w' = delete n (rows w) ∧ creds w' = creds w ∧ cw_runs w' = cw_runs w.
Proof using.
  intros Hc. unfold ignore. destruct (on_registry (DeleteCluster n) w) as [a w'] eqn:Hd.
  exists w'. split; [done|]. pose proof Hd as Hd'. apply reg_delete in Hd as (? & ? & Ha).
  destruct a as [[]|e]; [by destruct Ha|]. exfalso.
  unfold on_registry in Hd'. destruct (removes n (cw_registry w)) as [r Hr]; [by rewrite Hc|].
  by rewrite Hr in Hd'.
Qed.

Definition byoc_entry (entry : Cluster) (cred : ClusterCredential) : Cluster :=
  let entry := with_origin OriginBYOC (normalize entry) in
  with_secret (CredentialSecretName (cl_Name entry)) (with_api (cr_APIURL cred) (cr_CACert cred) entry).

(** Two states with the same entries, credentials and runs. *)
Definition same (w w' : W) : Prop := rows w' = rows w ∧ creds w' = creds w ∧ cw_runs w' = cw_runs w.

Lemma or_rollback_run (m rb : M W error unit) w :
  or_rollback m rb w = match m w with (Ok _, w1) => (Ok tt, w1) | (Err e, w1) => (Err e, (rb w1).2) end.
Proof using. unfold or_rollback, attempt, ignore, throw, mbind, M_bind. by destruct (m w) as [[]]. Qed.

(** The part of the registration after the entry was created: it completes, or
    takes back what it did. *)
Lemma byoc_tail `{Hrel : !Reliable} c cred ct token w a w' :
  rows w !! cl_Name c = Some c →
  (_ ← or_rollback (on_registry (SetClusterIngestTokenHash (cl_Name c) (HashToken token)))
         (on_registry (DeleteCluster (cl_Name c)));
   _ ← or_rollback (on_credentials (Materialize (cl_SecretRef c) cred))
         (on_registry (DeleteCluster (cl_Name c)));
   _ ← or_rollback (on_registry (SetClusterCredential (cl_Name c) (Some ct)))
         (_ ← ignore (on_credentials (DeleteSecret (cl_SecretRef c)));
          on_registry (DeleteCluster (cl_Name c)));
   mret (mkRegisterResult c token)) w = (a, w') →
  cw_runs w' = cw_runs w ∧
  match a with
  | Ok res =>
      res = mkRegisterResult c token ∧
      rows w' = <[cl_Name c := with_hash (HashToken token) c]> (rows w) ∧
      creds w' = <[cl_SecretRef c := cred]> (creds w)
  | Err _ =>
      rows w' = delete (cl_Name c) (rows w) ∧
      (creds w' = creds w ∨ creds w' = delete (cl_SecretRef c) (creds w))
  end.
Proof using.
  intros Hc. unfold mbind, M_bind, mret, M_ret, ignore. rewrite or_rollback_run.
  destruct (on_registry (SetClusterIngestTokenHash (cl_Name c) (HashToken token)) w) as [[[]|e] w1] eqn:H1;
    apply reg_hash in H1 as (Hk1 & Hr1 & H1).
  2: { destruct (undo_entry (cl_Name c) c w1) as (w2 & Hu & ? & ? & ?); [by rewrite H1|].
       unfold ignore in Hu. injection Hu as ->.
       intros [= <- <-]. split; [congruence|]. split; [congruence|]. left. congruence. }
  destruct H1 as (c0 & Hc0 & Hrow). rewrite Hc in Hc0. injection Hc0 as <-.
  assert (rows w1 !! cl_Name c = Some (with_hash (HashToken token) c)) as Hc1
    by (by rewrite Hrow, lookup_insert_eq).
  rewrite or_rollback_run.
  destruct (on_credentials (Materialize (cl_SecretRef c) cred) w1) as [[[]|e] w2] eqn:H2;
    apply cred_write in H2 as (Hw2 & Hr2 & Hk2); cbn [is_Ok] in Hk2.
  2: { destruct (undo_entry (cl_Name c) (with_hash (HashToken token) c) w2) as (w3 & Hu & Hd & ? & ?);
         [by rewrite Hw2|]. unfold ignore in Hu. injection Hu as ->.
       intros [= <- <-]. split; [congruence|]. split; [|left; congruence].
       by rewrite Hd, Hw2, Hrow, delete_insert_eq. }
  rewrite or_rollback_run.
  destruct (on_registry (SetClusterCredential (cl_Name c) (Some ct)) w2) as [[[]|e] w3] eqn:H3;
    apply reg_credential in H3 as (Hk3 & Hr3 & Hw3).
  { intros [= <- <-]. split; [congruence|]. split; [done|]. split; congruence. }
  destruct (on_credentials (DeleteSecret (cl_SecretRef c)) w3) as [b w4] eqn:H4. cbn [snd].
  assert (b = Ok tt) as ->.
  { unfold on_credentials in H4. destruct (drops (cl_SecretRef c) (cw_credentials w3)) as [x Hx].
    rewrite Hx in H4. by injection H4. }
  apply cred_drop in H4 as (Hw4 & Hr4 & Hk4). cbn [is_Ok] in Hk4.
  destruct (undo_entry (cl_Name c) (with_hash (HashToken token) c) w4) as (w5 & Hu & Hd & Hk5 & Hr5);
    [by rewrite Hw4, Hw3, Hw2|].
  unfold ignore in Hu. injection Hu as ->. intros [= <- <-]. split; [congruence|]. split.
  - by rewrite Hd, Hw4, Hw3, Hw2, Hrow, delete_insert_eq.
  - right. by rewrite Hk5, Hk4, Hk3, Hk2, Hk1, delete_insert_eq.
Qed.

Definition registered (c : Cluster) (cred : ClusterCredential) (token : string) (w w' : W) : Prop :=
  rows w !! cl_Name c = None ∧
  rows w' = <[cl_Name c := with_hash (HashToken token) c]> (rows w) ∧
  creds w' = <[cl_SecretRef c := cred]> (creds w).

(** Leaves a handler that has stopped with an error. *)
Ltac stop H Hstop :=
  apply Hstop in H as [? Hs]; split; [done|];
  match type of Hs with match ?x with _ => _ end => destruct x; [done|exact Hs] end.

Lemma byoc_spec `{Hrel : !Reliable} entry kc sealed mint w a w' :
  RegisterBYOC Parse Probe HashToken entry kc sealed mint w = (a, w') →
  cw_runs w' = cw_runs w ∧
  match a with
  | Ok res =>
      ∃ cred, let c := byoc_entry entry cred in
      reg_Cluster res = c ∧ Parse kc = Ok cred ∧ Probe cred (cl_Namespace c) = Ok tt ∧
      Cluster_Validate c = Ok tt ∧ mintToken mint = Ok (reg_IngestToken res) ∧
      registered c cred (reg_IngestToken res) w w'
  | Err _ =>
      rows w' = rows w ∧
      (creds w' = creds w ∨
       rows w !! TrimSpace (cl_Name entry) = None ∧
       creds w' = delete (CredentialSecretName (TrimSpace (cl_Name entry))) (creds w))
  end.
Proof using.
  intros H. cbv beta zeta delta [RegisterBYOC] in H.
  assert (∀ e : error, (Err e, w) = (a, w') →
    cw_runs w' = cw_runs w ∧ match a with
    | Ok _ => False
    | Err _ => rows w' = rows w ∧ (creds w' = creds w ∨
       rows w !! TrimSpace (cl_Name entry) = None ∧
       creds w' = delete (CredentialSecretName (TrimSpace (cl_Name entry))) (creds w)) end) as Hstop.
  { intros e [= <- <-]. auto. }
  unfold mbind at 1, M_bind at 1, lift at 1 in H.
  destruct (Parse kc) as [cred|e] eqn:Hp; [|stop H Hstop].
  fold (byoc_entry entry cred) in H. set (c := byoc_entry entry cred) in *.
  unfold mbind at 1, M_bind at 1, lift at 1 in H.
  destruct (Cluster_Validate c) as [[]|e] eqn:Hv; [|stop H Hstop].
  unfold mbind at 1, M_bind at 1, lift at 1 in H.
  destruct (Probe cred (cl_Namespace c)) as [[]|e] eqn:Hpr; [|stop H Hstop].
  unfold mbind at 1, M_bind at 1, lift at 1 in H. destruct sealed as [ct|e]; [|stop H Hstop].
  unfold mbind at 1, M_bind at 1, lift at 1 in H. destruct (mintToken mint) as [token|e] eqn:Ht; [|stop H Hstop].
  unfold mbind at 1, M_bind at 1 in H.
  destruct (on_registry (CreateCluster c) w) as [[[]|e] w1] eqn:Hc; apply reg_create in Hc as (Hk & Hr & Hc).
  2: { injection H as <- <-. split; [done|]. split; [done|]. by left. }
  destruct Hc as [Hnew Hrow]. apply byoc_tail in H as [Hr' H]; [|by rewrite Hrow, lookup_insert_eq].
  split; [congruence|]. destruct a as [res|e].
  - destruct H as (-> & Hrow' & Hk'). exists cred. cbn. split; [done|]. split; [done|]. split; [done|].
    split; [done|]. split; [done|]. split; [done|]. rewrite Hrow', Hrow, Hk', Hk. by rewrite insert_insert_eq.
  - destruct H as [Hrow' Hk']. rewrite Hrow', Hrow, Hk in *. rewrite delete_insert_id by done.
    split; [done|]. destruct Hk' as [Hk'|Hk']; [by left|]. right. split; [exact Hnew|exact Hk'].
Qed.

Lemma operator_spec entry w a w' :
  RegisterOperator Probe entry w = (a, w') →
  cw_runs w' = cw_runs w ∧ creds w' = creds w ∧
  match a with
  | Ok c => rows w !! cl_Name c = None ∧ rows w' = <[cl_Name c := c]> (rows w) ∧
            Cluster_Validate c = Ok tt ∧ cl_Origin c = OriginOperator
  | Err _ => rows w' = rows w
  end.
Proof using.
  unfold RegisterOperator, mbind, M_bind, lift, ask.
  set (c0 := with_origin OriginOperator (normalize entry)).
  destruct (Cluster_Validate c0) as [[]|] eqn:Hv; [|by intros [= <- <-]].
  destruct (ReadSecret (cl_SecretRef c0) (cw_credentials w)) as [cred|]; [|by intros [= <- <-]].
  destruct (Probe cred _) as [[]|]; [|by intros [= <- <-]].
  set (c := with_api (cr_APIURL cred) (cr_CACert cred) c0).
  destruct (on_registry (CreateCluster c) w) as [[[]|] w1] eqn:H; apply reg_create in H as (? & ? & H);
    intros [= <- <-]; [|done]. split; [done|]. split; [done|]. destruct H. done.
Qed.

Lemma rotate_spec name mint w a w' :
  RotateIngestToken HashToken name mint w = (a, w') →
  cw_runs w' = cw_runs w ∧ creds w' = creds w ∧
  match a with
  | Ok token => mintToken mint = Ok token ∧
      ∃ c, rows w !! name = Some c ∧ rows w' = <[name := with_hash (HashToken token) c]> (rows w)
  | Err _ => rows w' = rows w
  end.
Proof using.
  unfold RotateIngestToken, ask_registry, mbind, M_bind, lift, ask, mret, M_ret.
  destruct (GetCluster name (cw_registry w)); [|by intros [= <- <-]].
  destruct (mintToken mint) as [token|] eqn:Ht; [|by intros [= <- <-]].
  destruct (on_registry (SetClusterIngestTokenHash name (HashToken token)) w) as [[[]|] w1] eqn:H;
    apply reg_hash in H as (? & ? & H); by intros [= <- <-].
Qed.

Lemma cluster_delete_spec name w a w' :
  Cluster_Delete name w = (a, w') →
  cw_runs w' = cw_runs w ∧
  match a with
  | Ok _ => ∃ c, rows w !! name = Some c ∧ ExecutionsWithActiveRunOnCluster name (cw_runs w) = [] ∧
      rows w' = delete name (rows w) ∧
      creds w' = if bool_decide (cl_Origin c = OriginBYOC) then delete (cl_SecretRef c) (creds w) else creds w
  | Err e =>
      rows w' = rows w ∧
      (creds w' = creds w ∨ ∃ c, rows w !! name = Some c ∧ cl_Origin c = OriginBYOC ∧
         creds w' = delete (cl_SecretRef c) (creds w) ∧ ∃ r r', rows w = entries r ∧ DeleteCluster name r = (Err e, r'))
  end.
Proof using.
  unfold Cluster_Delete, ask_registry, gets, guard, throw, mbind, M_bind, ask, mret, M_ret.
  destruct (GetCluster name (cw_registry w)) as [c|] eqn:Hg; [|intros [= <- <-]; auto].
  apply get_law in Hg. case_bool_decide as Ha; cbn [negb]; [|intros [= <- <-]; auto].
  case_bool_decide as Ho.
  - destruct (on_credentials (DeleteSecret (cl_SecretRef c)) w) as [[[]|] w1] eqn:H1;
      apply cred_drop in H1 as (Hw1 & Hr1 & Hk1); cbn [is_Ok] in Hk1; [|intros [= <- <-]; auto].
    intros H2. pose proof H2 as H2'. apply reg_delete in H2 as (Hk2 & Hr2 & H2). split; [congruence|].
    destruct a as [[]|e].
    + exists c. rewrite bool_decide_eq_true_2 by done. destruct H2 as [_ H2]. rewrite H2, Hw1, Hk2, Hk1. done.
    + split; [congruence|]. right. exists c. split; [done|]. split; [done|]. split; [congruence|].
      unfold on_registry in H2'. exists (cw_registry w1). destruct (DeleteCluster name (cw_registry w1)).
      injection H2' as <- <-. eauto.
  - intros H2. apply reg_delete in H2 as (Hk2 & Hr2 & H2). split; [done|]. destruct a as [[]|e]; [|auto].
    exists c. rewrite bool_decide_eq_false_2 by done. destruct H2 as [_ ->]. done.
Qed.

Lemma update_spec name url img ns geo zone w a w' :
  (∀ c, rows w !! name = Some c → cl_Name c = name) →
  Cluster_Update name url img ns geo zone w = (a, w') →
  cw_runs w' = cw_runs w ∧ creds w' = creds w ∧
  match a with
  | Ok c => ∃ old, rows w !! name = Some old ∧ rows w' = <[name := with_created old c]> (rows w) ∧
      Cluster_Validate c = Ok tt ∧ cl_Name c = name ∧ cl_Origin c = cl_Origin old ∧
      cl_SecretRef c = cl_SecretRef old ∧ cl_IngestTokenHash c = cl_IngestTokenHash old
  | Err _ => rows w' = rows w
  end.
Proof using.
  intros Hkey. unfold Cluster_Update, ask_registry, mbind, M_bind, lift, ask, mret, M_ret.
  destruct (GetCluster name (cw_registry w)) as [old|] eqn:Hg; [|by intros [= <- <-]].
  apply get_law in Hg. pose proof (Hkey _ Hg) as Hn.
  set (c := mkCluster _ _ _ _ _ _ _ _ _ _ _ _ _).
  destruct (Cluster_Validate c) as [[]|] eqn:Hv; [|by intros [= <- <-]].
  unfold on_registry. destruct (UpdateCluster c (cw_registry w)) as [x r] eqn:Hu.
  apply (update_law _ _ _ _ old) in Hu; [|unfold c; cbn; by rewrite Hn|done].
  destruct x as [[]|]; intros [= <- <-]; [|done]. split; [done|]. split; [done|]. exists old.
  split; [done|]. split; [|done]. cbn. rewrite Hu. unfold c; cbn. by rewrite Hn.
Qed.

(** ** What holds of the registry *)
Record registry_ok (w : W) : Prop := {
  row_ok n c : rows w !! n = Some c →
    cl_Name c = n ∧ Cluster_Validate c = Ok tt ∧
    (cl_Origin c = OriginBYOC →
     cl_SecretRef c = CredentialSecretName n ∧ is_Some (creds w !! cl_SecretRef c))
}.

(** One request to the service; in between runs are started and stopped. *)
Inductive registry_step : W → W → Prop :=
| rs_operator entry w : registry_step w (RegisterOperator Probe entry w).2
| rs_byoc entry kc sealed mint w :
    registry_step w (RegisterBYOC Parse Probe HashToken entry kc sealed mint w).2
| rs_rotate name mint w : registry_step w (RotateIngestToken HashToken name mint w).2
| rs_update name url img ns geo zone w : registry_step w (Cluster_Update name url img ns geo zone w).2
| rs_delete name w : registry_step w (Cluster_Delete name w).2
| rs_runs s w : registry_step w (mkCW (cw_registry w) (cw_credentials w) s).

Lemma secret_name_inj n n' : CredentialSecretName n = CredentialSecretName n' → n = n'.
Proof using. unfold CredentialSecretName. apply (inj _). Qed.

Lemma same_ok w w' : rows w' = rows w → creds w' = creds w → registry_ok w → registry_ok w'.
Proof using. intros Hr Hk [Hok]. split. intros n c. rewrite Hr, Hk. apply Hok. Qed.

Lemma put_ok n c w w' :
  rows w' = <[n := c]> (rows w) → (∀ k, is_Some (creds w !! k) → is_Some (creds w' !! k)) →
  cl_Name c = n → Cluster_Validate c = Ok tt →
  (cl_Origin c = OriginBYOC → cl_SecretRef c = CredentialSecretName n ∧ is_Some (creds w' !! cl_SecretRef c)) →
  registry_ok w → registry_ok w'.
Proof using.
  intros Hr Hk Hn Hv Hb [Hok]. split. intros m d. rewrite Hr.
  intros [[<- <-]|[_ Hd]]%lookup_insert_Some; [done|].
  destruct (Hok _ _ Hd) as (? & ? & Hs). split; [done|]. split; [done|]. intros Ho.
  destruct (Hs Ho) as [? ?]. auto.
Qed.

Lemma drop_ok n c w w' :
  rows w !! n = Some c → rows w' = delete n (rows w) →
  creds w' = (if bool_decide (cl_Origin c = OriginBYOC) then delete (cl_SecretRef c) (creds w) else creds w) →
  registry_ok w → registry_ok w'.
Proof using.
  intros Hc Hr Hk [Hok]. split. intros m d. rewrite Hr. intros [Hne Hd]%lookup_delete_Some.
  destruct (Hok _ _ Hd) as (? & ? & Hs). split; [done|]. split; [done|]. intros Ho.
  destruct (Hs Ho) as [Href Hin]. split; [done|]. rewrite Hk. case_bool_decide as Hc'; [|done].
  rewrite lookup_delete_ne; [done|]. destruct (Hok _ _ Hc) as (_ & _ & Hsc).
  rewrite (proj1 (Hsc Hc')), Href. intros ?%secret_name_inj. done.
Qed.

Lemma free_ok n w w' :
  rows w !! n = None → rows w' = rows w → creds w' = delete (CredentialSecretName n) (creds w) →
  registry_ok w → registry_ok w'.
Proof using.
  intros Hfree Hr Hk [Hok]. split. intros m d. rewrite Hr, Hk. intros Hd.
  destruct (Hok _ _ Hd) as (? & ? & Hs). split; [done|]. split; [done|]. intros Ho.
  destruct (Hs Ho) as [Href Hin]. split; [done|]. rewrite lookup_delete_ne; [done|].
  rewrite Href. intros <-%secret_name_inj. congruence.
Qed.

Lemma registry_step_ok `{Hrel : !Reliable} w w' : registry_step w w' → registry_ok w → registry_ok w'.
Proof using.
  intros [entry w0|entry kc sealed mint w0|name mint w0|name url img ns geo zone w0|name w0|s w0] Hok.
  - destruct (RegisterOperator Probe entry w0) as [a w1] eqn:E. apply operator_spec in E as (_ & Hk & E). cbn.
    destruct a as [c|]; [|by eapply same_ok]. destruct E as (_ & Hr & Hv & Ho).
    eapply put_ok; [done| |done|done| |done]; [by rewrite Hk|]. by rewrite Ho.
  - destruct (RegisterBYOC Parse Probe HashToken entry kc sealed mint w0) as [a w1] eqn:E.
    apply byoc_spec in E as (_ & E). cbn. destruct a as [res|].
    + destruct E as (cred & _ & _ & _ & Hv & _ & _ & Hr & Hk).
      eapply put_ok; [exact Hr| |done|exact Hv| |done]; rewrite Hk.
      * intros k Hin. apply lookup_insert_is_Some. destruct (decide (cl_SecretRef (byoc_entry entry cred) = k)); auto.
      * intros _. split; [done|]. change (cl_SecretRef (with_hash _ ?c)) with (cl_SecretRef c).
        rewrite lookup_insert_eq. by eexists.
    + destruct E as [Hr [Hk|[Hfree Hk]]]; [by eapply same_ok|]. by eapply free_ok.
  - destruct (RotateIngestToken HashToken name mint w0) as [a w1] eqn:E. apply rotate_spec in E as (_ & Hk & E). cbn.
    destruct a as [token|]; [|by eapply same_ok]. destruct E as (_ & c & Hc & Hr).
    destruct (row_ok _ Hok _ _ Hc) as (? & ? & ?).
    eapply put_ok; [exact Hr|by rewrite Hk|done|done|by rewrite Hk|done].
  - destruct (Cluster_Update name url img ns geo zone w0) as [a w1] eqn:E.
    apply update_spec in E as (_ & Hk & E); [|intros c Hc; by apply (row_ok _ Hok)]. cbn.
    destruct a as [c|]; [|by eapply same_ok]. destruct E as (old & Hold & Hr & Hv & Hn & Ho & Hs & _).
    destruct (row_ok _ Hok _ _ Hold) as (? & ? & Hb).
    eapply put_ok; [exact Hr|by rewrite Hk|done|done| |done]. cbn. rewrite Ho, Hs, Hk. exact Hb.
  - destruct (Cluster_Delete name w0) as [a w1] eqn:E. apply cluster_delete_spec in E as (_ & E). cbn.
    destruct a as [[]|e].
    + destruct E as (c & Hc & _ & Hr & Hk). by eapply drop_ok.
    + destruct E as [Hr [Hk|(c & Hc & _ & _ & r & r' & Hrr & Hd)]]; [by eapply same_ok|]. exfalso.
      destruct (removes name r) as [r1 Hr1]; [by rewrite <-Hrr, Hc|]. by rewrite Hr1 in Hd.
  - by apply (same_ok w0).
Qed.

(** ** Claims *)

(** The registry stays sound: whatever is registered, rotated, updated and
    removed, and whatever of it fails, every entry is stored under its own name
    and is valid, and every customer cluster's entry names the Secret derived
    from its name, which is there. *)
Theorem clusters_well_formed `{Hrel : !Reliable} w w' :
  rtc registry_step w w' → rows w = ∅ → registry_ok w'.
Proof using.
  intros H He. assert (registry_ok w) as Hok by (split; intros n c; by rewrite He, lookup_empty).
  clear He. induction H as [|w1 w2 w3 H12 _ IH]; [done|]. apply IH. by eapply registry_step_ok.
Qed.


(** The deletion guard: a cluster is removed only while no execution that runs
    on it has an open run; the entry goes, its Secret goes if the registry made
    it, and every other entry stays.  A refusal changes no entry. *)
Theorem cluster_removed_only_when_idle name w a w' :
  Cluster_Delete name w = (a, w') →
  match a with
  | Ok _ =>
      (∀ e exe, executions (st_catalog (cw_runs w)) !! e = Some exe → runs_on name exe = true →
         currentRun (st_runs (cw_runs w)) !! e = None) ∧
      rows w' = delete name (rows w) ∧
      ∃ c, rows w !! name = Some c ∧
        creds w' = if bool_decide (cl_Origin c = OriginBYOC) then delete (cl_SecretRef c) (creds w) else creds w
  | Err _ => rows w' = rows w
  end.
Proof using.
  intros [_ H]%cluster_delete_spec. destruct a as [[]|]; [|by destruct H].
  destruct H as (c & Hc & Ha & Hr & Hk). split; [|eauto]. intros e exe He Hon.
  destruct (currentRun _ !! e) as [r|] eqn:Hrun; [exfalso|done].
  assert (e ∈ ExecutionsWithActiveRunOnCluster name (cw_runs w)) as Hin; [|rewrite Ha in Hin; by apply elem_of_nil in Hin].
  unfold ExecutionsWithActiveRunOnCluster. rewrite merge_sort_Permutation, list_elem_of_fmap.
  exists (e, exe). split; [done|]. rewrite list_elem_of_filter, elem_of_map_to_list. cbn. by rewrite Hrun.
Qed.

(** A rotated token replaces the old one: once a rotation has returned, the
    cluster is found by the new token, and a token whose hash is another one is
    never taken for the cluster. *)
Theorem rotated_token_only name mint w token w' :
  RotateIngestToken HashToken name mint w = (Ok token, w') →
  (∃ c, rows w' !! name = Some c ∧ cl_IngestTokenHash c = HashToken token) ∧
  ∀ presented c, HashToken presented ≠ HashToken token →
    ClusterByIngestTokenHash (HashToken presented) (cw_registry w') = Ok c →
    rows w' !! name ≠ Some c ∧ ∃ n, n ≠ name ∧ rows w !! n = Some c.
Proof using CredentialLaws0.
  intros (_ & _ & Ht & c & Hc & Hr)%rotate_spec. rewrite Hr. split.
  { rewrite lookup_insert_eq. by eexists. }
  intros presented d Hne (_ & Hh & n & Hn)%by_hash_law. rewrite Hr in Hn.
  assert (d ≠ with_hash (HashToken token) c) as Hd by (intros ->; by apply Hne).
  apply lookup_insert_Some in Hn as [[<- ?]|[? Hn]]; [done|].
  split; [rewrite lookup_insert_eq; congruence|]. by exists n.
Qed.
End registry.

(** ** Examples

    The Secrets of a namespace as a map, and a registry whose last write fails. *)
Definition KubeSecrets : Type := gmap string Secret.
#[global] Instance kube_secrets : SecretsAPI KubeSecrets := {
  SecretCreate n o x := match x !! n with Some _ => (Err ErrKubeAlreadyExists, x) | None => (Ok tt, <[n := o]> x) end;
  SecretGet n x := match x !! n with Some o => Ok o | None => Err ErrKubeNotFound end;
  SecretUpdate n o x := match x !! n with Some _ => (Ok tt, <[n := o]> x) | None => (Err ErrKubeNotFound, x) end;
  SecretDelete n x := match x !! n with Some _ => (Ok tt, delete n x) | None => (Err ErrKubeNotFound, x) end
}.
#[global] Instance kube_secrets_laws : SecretsLaws KubeSecrets.
Proof.
  refine {| secrets x := x |}; cbn.
  - intros n o x a x'. case_match; by intros [= <- <-].
  - intros n x o. case_match; by intros [= <-].
  - intros n o x a x'. case_match; by intros [= <- <-].
  - intros n x a x'. case_match eqn:E; intros [= <- <-]; [done|]. split; [done|]. intros _. exact E.
Defined.
#[global] Instance table_reliable : Reliable (R := ClusterTable) (X := KubeSecrets).
Proof.
  split.
  - intros n r [c Hc]. cbn in *. unfold fake_DeleteCluster. rewrite Hc. eauto.
  - intros n x. cbn. unfold HomeDelete, attempt, mbind, M_bind. cbn.
    match goal with |- context [match ?o with Some _ => _ | None => _ end] => destruct o end; cbn; [by eexists|].
    rewrite bool_decide_eq_true_2 by done. by eexists.
Qed.

Definition ex_cred : ClusterCredential := mkCredential "https://k8s" "ca" "tok" "" "".
Definition ex_parse (kc : string) : result error ClusterCredential :=
  if bool_decide (kc = "") then Err (ErrKube 0) else Ok ex_cred.
Definition ex_probe (c : ClusterCredential) (ns : string) : result error unit := Ok tt.
Definition ex_hash (t : string) : string := "h:" +:+ t.
Definition ex_entry (name ref : string) : Cluster :=
  mkCluster name "" "" "https://in" "img" "ns" ref "" "" "" "" "admin" 0.
Definition ex_world (x : KubeSecrets) : ClusterWorld ClusterTable KubeSecrets := mkCW NewClusterTable x NewStore.
Definition ex_byoc (name : string) (w : ClusterWorld ClusterTable KubeSecrets) :=
  RegisterBYOC ex_parse ex_probe ex_hash (ex_entry name "") "kc" (Ok "sealed") (Ok "raw") w.

Lemma clusters_well_formed_witness :
  is_Ok (ex_byoc " eu " (ex_world ∅)).1 = true ∧
  registry_ok (ex_byoc " eu " (ex_world ∅)).2.
Proof.
  split; [vm_compute; reflexivity|].
  apply (clusters_well_formed ex_parse ex_probe ex_hash (ex_world ∅)); [|reflexivity].
  apply rtc_once. unfold ex_byoc.
  exact (rs_byoc ex_parse ex_probe ex_hash (ex_entry " eu " "") "kc" (Ok "sealed") (Ok "raw") (ex_world ∅)).
Defined.


Lemma cluster_removed_only_when_idle_witness :
  let w := (ex_byoc "eu" (ex_world ∅)).2 in
  ∃ w', Cluster_Delete "eu" w = (Ok tt, w') ∧ clusters (cw_registry w') = delete "eu" (clusters (cw_registry w)).
Proof.
  cbv zeta. destruct (Cluster_Delete "eu" (ex_byoc "eu" (ex_world ∅)).2) as [[[]|e] w'] eqn:E;
    [|vm_compute in E; discriminate].
  exists w'. split; [reflexivity|]. exact (proj1 (proj2 (cluster_removed_only_when_idle _ _ _ _ E))).
Defined.

Lemma rotated_token_only_witness :
  let w := (ex_byoc "eu" (ex_world ∅)).2 in
  ∃ token w', RotateIngestToken ex_hash "eu" (Ok "other") w = (Ok token, w') ∧
    ∃ c, clusters (cw_registry w') !! "eu" = Some c ∧ cl_IngestTokenHash c = ex_hash token.
Proof.
  cbv zeta. destruct (RotateIngestToken ex_hash "eu" (Ok "other") (ex_byoc "eu" (ex_world ∅)).2)
    as [[token|e] w'] eqn:E; [|vm_compute in E; discriminate].
  exists token, w'. split; [reflexivity|]. exact (proj1 (rotated_token_only _ _ _ _ _ _ E)).
Defined.

(** An operator's own Secret can be lost: when it bears the name the registry
    derives for a customer cluster, registering and removing that cluster
    overwrites it and then deletes it, while the operator's entry still names
    it. *)
Example operator_secret_lost :
  let mine := mkSecret ∅ (credentialToData (mkCredential "https://mine" "ca" "t" "" "")) in
  let w0 := ex_world {[ CredentialSecretName "eu" := mine ]} in
  let '(r1, w1) := RegisterOperator ex_probe (ex_entry "ops" (CredentialSecretName "eu")) w0 in
  let '(r2, w2) := ex_byoc "eu" w1 in
  let '(r3, w3) := Cluster_Delete "eu" w2 in
  is_Ok r1 && is_Ok r2 && is_Ok r3 = true ∧
  cl_SecretRef <$> clusters (cw_registry w3) !! "ops" = Some (CredentialSecretName "eu") ∧
  cw_credentials w3 !! CredentialSecretName "eu" = None.
Proof. vm_compute. auto. Qed.
