(* ===== verification/Kube.v ===== *)
(** * The Kubernetes scheduler ([internal/adapters/scheduler/k8s/k8s.go])

    The implementation of the scheduler port over a Kubernetes API server: a
    scenario is a StatefulSet with one pod per shard and a ConfigMap that holds
    every shard's compiled configuration.  The API server is not this
    repository's code: it is a class of typed clients with what Kubernetes
    documents of them.  The adapter is shown to keep the promises of the port
    ([Cluster.SchedulerLaws]) on a cluster whose Honryu objects are labelled the
    way the adapter labels them, so everything proved of the services over
    the port holds over it. *)
From Stdlib Require Import Ascii.
From S2P Require Import Prelude Errors GoStrings GoFloat Taurus Cluster ClusterApp.

(** ** What the adapter uses of Go's library *)
Definition dquote : string := String (ascii_of_N 34) "".
(** [Duration.Seconds]. *)
Definition Duration_Seconds (d : duration) : float64 :=
  fadd (of_int (Z.quot d second)) (fdiv (of_int (Z.rem d second)) (of_int 1000000000)).
Definition HasSuffix (s suffix : string) : bool :=
  has_prefix (rev (bytes_of suffix)) (rev (bytes_of s)).
Fixpoint take_digits (l : list ascii) : list ascii :=
  match l with
  | a :: l' => if in_range 48 57 a then a :: take_digits l' else []
  | [] => []
  end.
Fixpoint skip_blanks (l : list ascii) : list ascii :=
  match l with
  | a :: l' => if space1 a && negb (bool_decide (byte_of a = 10)%N) then skip_blanks l' else l
  | [] => []
  end.
(** [fmt.Sscanf(s, "%d", &n)] of an ASCII text (a label value is one): leading
    blanks, a sign, and the digits it meets; what follows is left unread. *)
Definition Sscanf_d (s : string) : option Z :=
  let '(neg, rest) :=
    match skip_blanks (bytes_of s) with
    | a :: l => if bool_decide (byte_of a = 45)%N then (true, l)
                else if bool_decide (byte_of a = 43)%N then (false, l) else (false, a :: l)
    | [] => (false, [])
    end in
  match take_digits rest with
  | [] => None
  | digits =>
      match digits_value digits 0 with
      | Some v => let v := if (neg : bool) then - v else v in
                  if bool_decide (in_int64 v) then Some v else None
      | None => None
      end
  end.

(** ** The objects *)
Definition Labels : Type := gmap string string.

(** [domain/engine]: names and labels. *)
Definition ScenarioName (projectID executionID scenarioID : Z) : string :=
  "engine-" +:+ pretty projectID +:+ "-" +:+ pretty executionID +:+ "-" +:+ pretty scenarioID.
Definition BaseLabels (projectID executionID : Z) : Labels :=
  <["execution" := pretty executionID]> {[ "project" := pretty projectID ]}.
Definition ScenarioLabels (projectID executionID scenarioID : Z) : Labels :=
  <["kind" := "executor"]> (<["scenario" := pretty scenarioID]> (BaseLabels projectID executionID)).

Record ConfigMap := mkConfigMap { cm_Name : string; cm_Labels : Labels; cm_Data : gmap string string }.
Record KeyToPath := mkKeyToPath { kp_Key : string; kp_Path : string }.
Inductive VolumeSource :=
| ConfigMapVolume (name : string) (items : list KeyToPath)
| EmptyDir.
Record Volume := mkVolume { vol_Name : string; vol_Source : VolumeSource }.
Record VolumeMount := mkVolumeMount { vm_Name : string; vm_MountPath : string; vm_ReadOnly : bool }.
(** [SecretKeyRef] with [Optional] set. *)
Record EnvVar := mkEnvVar { env_Name : string; env_Secret : string; env_Key : string; env_Optional : bool }.
Record Container := mkContainer {
  ct_Name : string; ct_Image : string; ct_Command : list string; ct_VolumeMounts : list VolumeMount;
  ct_Requests : gmap string string; ct_Limits : gmap string string; ct_PreStop : list string;
  ct_Env : list EnvVar
}.
Record PodSpec := mkPodSpec {
  ps_TerminationGracePeriodSeconds : Z; ps_Volumes : list Volume; ps_Containers : list Container
}.
Record PodTemplate := mkPodTemplate {
  pt_Labels : Labels; pt_Annotations : gmap string string; pt_Spec : PodSpec
}.
Record StatefulSet := mkStatefulSet {
  sts_Name : string; sts_Labels : Labels; sts_CreationTimestamp : time;
  sts_ServiceName : string; sts_Replicas : Z; sts_Selector : Labels;
  sts_PodManagementPolicy : string; sts_Template : PodTemplate
}.
Record KubeService := mkKubeService { ksv_Name : string; ksv_Labels : Labels }.
Record Pod := mkPod {
  pod_Name : string; pod_Labels : Labels; pod_Annotations : gmap string string;
  pod_Phase : string; pod_Conditions : list (string * string); pod_CreationTimestamp : time
}.
Record Node := mkNode { nd_Labels : Labels; nd_CreationTimestamp : time }.

(** ** The API server *)

(** A label selector of equality requirements, as the adapter writes them:
    [k1=v1,k2=v2]. *)
Definition selector : Type := list (string * string).
Definition selects (sel : selector) (l : Labels) : bool :=
  forallb (λ kv, bool_decide (l !! kv.1 = Some kv.2)) sel.

Class KubeObject (O : Type) := {
  obj_Name : O → string;
  obj_Labels : O → Labels;
  (** what the server fills in on creation *)
  obj_stamp : time → O → O;
  stamp_Name : ∀ t o, obj_Name (obj_stamp t o) = obj_Name o;
  stamp_Labels : ∀ t o, obj_Labels (obj_stamp t o) = obj_Labels o
}.
#[global] Instance ConfigMap_object : KubeObject ConfigMap.
Proof. by refine {| obj_Name := cm_Name; obj_Labels := cm_Labels; obj_stamp _ o := o |}. Defined.
#[global] Instance KubeService_object : KubeObject KubeService.
Proof. by refine {| obj_Name := ksv_Name; obj_Labels := ksv_Labels; obj_stamp _ o := o |}. Defined.
Definition sts_stamp (t : time) (s : StatefulSet) : StatefulSet :=
  mkStatefulSet (sts_Name s) (sts_Labels s) t (sts_ServiceName s) (sts_Replicas s) (sts_Selector s)
    (sts_PodManagementPolicy s) (sts_Template s).
#[global] Instance StatefulSet_object : KubeObject StatefulSet.
Proof. by refine {| obj_Name := sts_Name; obj_Labels := sts_Labels; obj_stamp := sts_stamp |}. Defined.

(** The typed client of one kind of object; the first string is the
    namespace. *)
Class TypedClient (K O : Type) := {
  kCreate : time → string → O → M K error unit;
  kGet : string → string → K → result error O;
  kUpdate : string → O → M K error unit;
  kList : string → selector → K → result error (list O);
  kDelete : string → string → M K error unit
}.

(** What Kubernetes documents of it.  A call that fails may or may not have
    been carried out, except that [AlreadyExists] and [NotFound] say what was
    there. *)
Class TypedLaws (K O : Type) `{!KubeObject O} `{!TypedClient K O} := {
  kept : K → gmap (string * string) O;
  kept_name k ns n o : kept k !! (ns, n) = Some o → obj_Name o = n;
  k_create now ns o k a k' : kCreate now ns o k = (a, k') →
    let made := kept k !! (ns, obj_Name o) = None ∧
                kept k' = <[(ns, obj_Name o) := obj_stamp now o]> (kept k) in
    match a with
    | Ok _ => made
    | Err e => (kept k' = kept k ∨ made) ∧
               (e = ErrKubeAlreadyExists → kept k' = kept k ∧ is_Some (kept k !! (ns, obj_Name o)))
    end;
  k_get ns n k o : kGet ns n k = Ok o → kept k !! (ns, n) = Some o;
  k_update ns o k a k' : kUpdate ns o k = (a, k') →
    let made := is_Some (kept k !! (ns, obj_Name o)) ∧
                kept k' = <[(ns, obj_Name o) := o]> (kept k) in
    match a with
    | Ok _ => made
    | Err _ => kept k' = kept k ∨ made
    end;
  k_list ns sel k l : kList ns sel k = Ok l →
    l ≡ₚ (map_to_list (filter (λ x, x.1.1 = ns ∧ selects sel (obj_Labels x.2) = true) (kept k))).*2;
  k_delete ns n k a k' : kDelete ns n k = (a, k') →
    match a with
    | Ok _ => kept k' = delete (ns, n) (kept k)
    | Err e => (kept k' = kept k ∨ kept k' = delete (ns, n) (kept k)) ∧
               (e = ErrKubeNotFound → kept k' !! (ns, n) = None)
    end
}.
Definition same_kept {K} (O : Type) `{TypedLaws K O} (k k' : K) : Prop := kept k' = kept k.
#[global] Instance same_kept_po {K} O `{TypedLaws K O} : PreOrder (same_kept (K := K) O).
Proof. split; [done|]. intros x y z. unfold same_kept. congruence. Qed.
(** Calls on objects of kind [O] leave those of kind [O'] alone. *)
Class Apart (K O O' : Type) `{!TypedClient K O} `{TypedLaws K O'} := {
  apart_create now ns (o : O) : Keeps (same_kept O') (kCreate (K := K) now ns o);
  apart_update ns (o : O) : Keeps (same_kept O') (kUpdate (K := K) ns o);
  apart_delete ns n : Keeps (same_kept O') (kDelete (K := K) (O := O) ns n)
}.
#[export] Existing Instances apart_create apart_update apart_delete.

(** Pods and nodes, which the cluster itself creates. *)
Class PodAPI (K : Type) := {
  PodList : string → selector → K → result error (list Pod);
  PodDeleteCollection : string → selector → M K error unit;
  PodLogs : string → string → string → K → result error string;
  NodeList : K → result error (list Node)
}.

(** ** The adapter *)
Definition configHashAnnotation : string := "honryu.dev/config-hash".
Definition engineContainer : string := "engine".
Definition defaultPoolLabel : string := "cloud.google.com/gke-nodepool".
Definition defaultTerminationGrace : duration := 30 * second.
Definition configSourceMount : string := "/honryu/config-src".
Definition configMount : string := "/honryu/config".
Definition kpiMount : string := "/honryu/kpi".
Definition artifactsMount : string := "/honryu/artifacts".
Definition kpiStream : string := kpiMount +:+ "/stream.jsonl".
Definition kpiExitCode : string := kpiMount +:+ "/exit-code".

Record KubeConfig := mkKubeConfig {
  kc_Namespace : string; kc_EnginePort : Z; kc_PoolLabel : string; kc_SidecarImage : string;
  kc_IngestURL : string; kc_TerminationGrace : duration
}.
(** The bound scheduler: the configuration with its defaults filled in. *)
Record KubeScheduler := mkKubeScheduler {
  kb_ns : string; kb_port : Z; kb_poolLabel : string; kb_sidecarImage : string;
  kb_ingestURL : string; kb_grace : duration
}.
Definition or_default (v d : string) : string := if bool_decide (v = "") then d else v.
Definition NewKube (cfg : KubeConfig) : KubeScheduler :=
  mkKubeScheduler (or_default (kc_Namespace cfg) "default")
    (if bool_decide (kc_EnginePort cfg = 0) then 8080 else kc_EnginePort cfg)
    (or_default (kc_PoolLabel cfg) defaultPoolLabel)
    (kc_SidecarImage cfg) (kc_IngestURL cfg)
    (if kc_TerminationGrace cfg <=? 0 then defaultTerminationGrace else kc_TerminationGrace cfg).

Definition max_int32 : Z := 2 ^ 31 - 1.
Definition int32Bounded (n : Z) : Z :=
  if n <? 0 then 0 else if max_int32 <? n then max_int32 else n.

Definition shardConfigKey (index : Z) : string := "shard-" +:+ pretty index +:+ ".yml".
Definition scenarioFileKey (name : string) : string := "scenario--" +:+ name.

(** The data [ensureConfigMap] stores: the shards in order, then the scenario's
    files. *)
Definition config_data (spec : DeploySpec) : gmap string string :=
  map_fold (λ name content data, <[scenarioFileKey name := content]> data)
    (fold_left (λ data sh, <[shardConfigKey (ss_Index sh) := ss_Config sh]> data) (ds_Shards spec) ∅)
    (ds_ScenarioFiles spec).

Definition configItems (spec : DeploySpec) : list KeyToPath :=
  ((λ sh, mkKeyToPath (shardConfigKey (ss_Index sh)) (shardConfigKey (ss_Index sh))) <$> ds_Shards spec) ++
  ((λ name, mkKeyToPath (scenarioFileKey name) ("scenario/" +:+ name)) <$>
     merge_sort str_le (map_to_list (ds_ScenarioFiles spec)).*1).

Definition nl : string := String (ascii_of_N 10) "".
Definition engineScript : string :=
  let argv := Command (configMount +:+ "/shard-${ORDINAL}.yml") artifactsMount in
  "ORDINAL=" +:+ dquote +:+ "${HOSTNAME##*-}" +:+ dquote +:+ nl +:+
  "mkdir -p " +:+ kpiMount +:+ nl +:+
  "cp -r " +:+ configSourceMount +:+ "/. " +:+ configMount +:+ nl +:+
  String.concat " " argv +:+ nl +:+
  "code=$?" +:+ nl +:+
  "echo " +:+ dquote +:+ "$code" +:+ dquote +:+ " > " +:+ kpiExitCode +:+ nl +:+
  "exec tail -f /dev/null".

(** The cluster, and the process's count of deployments. *)
Record KubeState (K : Type) := mkKubeState { ks_kube : K; ks_redeploys : Z }.
Arguments mkKubeState {K}.
Arguments ks_kube {K}.
Arguments ks_redeploys {K}.

Section adapter.
(** [strconv.Quote], and the quantity parser of the Kubernetes API package with
    the canonical text of a quantity. *)
Context (Quote : string → string) (ParseQuantity : string → option string).

Definition sidecarScript (s : KubeScheduler) (spec : DeploySpec) : string :=
  "ORDINAL=" +:+ dquote +:+ "${HOSTNAME##*-}" +:+ dquote +:+ nl +:+
  "/honryu-sidecar -stream " +:+ kpiStream +:+ " -exit-code " +:+ kpiExitCode +:+
  " -ingest-url " +:+ Quote (kb_ingestURL s) +:+ " -execution-id " +:+ pretty (ds_ExecutionID spec) +:+
  " -scenario-id " +:+ pretty (ds_ScenarioID spec) +:+ " -shard-index " +:+
  dquote +:+ "${ORDINAL}" +:+ dquote +:+ nl +:+
  "code=$?" +:+ nl +:+
  "if [ " +:+ dquote +:+ "$code" +:+ dquote +:+ " -ne 0 ]; then echo " +:+
  dquote +:+ "honryu-sidecar exited $code" +:+ dquote +:+ " >&2; fi" +:+ nl +:+
  "exec tail -f /dev/null".

Definition quantity (resource text : string) (l : gmap string string) : gmap string string :=
  match ParseQuantity text with
  | Some q => if bool_decide (text = "") then l else <[resource := q]> l
  | None => l
  end.
(** Requests and limits alike; an empty list is no requirement. *)
Definition resourceRequirements (spec : DeploySpec) : gmap string string :=
  quantity "memory" (ds_Memory spec) (quantity "cpu" (ds_CPU spec) ∅).

Definition podSpec (s : KubeScheduler) (spec : DeploySpec) (name : string) : PodSpec :=
  let res := resourceRequirements spec in
  mkPodSpec (to_int (Duration_Seconds (kb_grace s)))
    [mkVolume "config-src" (ConfigMapVolume name (configItems spec));
     mkVolume "config" EmptyDir; mkVolume "kpi" EmptyDir; mkVolume "artifacts" EmptyDir]
    [mkContainer engineContainer (ds_Image spec) ["/bin/sh"; "-c"; engineScript]
       [mkVolumeMount "config-src" configSourceMount true; mkVolumeMount "config" configMount false;
        mkVolumeMount "kpi" kpiMount false; mkVolumeMount "artifacts" artifactsMount false]
       res res ["/bin/sh"; "-c"; "pkill -INT -f bzt || true"] [];
     mkContainer "sidecar" (kb_sidecarImage s) ["/bin/sh"; "-c"; sidecarScript s spec]
       [mkVolumeMount "kpi" kpiMount true] ∅ ∅
       ["/bin/sh"; "-c"; "pkill -TERM -f honryu-sidecar || true"]
       [mkEnvVar "HONRYU_INGEST_TOKEN" "honryu-ingest" "token" true]].

Definition podReady (p : Pod) : bool :=
  bool_decide (pod_Phase p = "Running") &&
  existsb (λ c, bool_decide (c.1 = "Ready") && bool_decide (c.2 = "True")) (pod_Conditions p).

Context {K : Type} `{!TypedClient K ConfigMap} `{!TypedClient K StatefulSet} `{!TypedClient K KubeService}
  `{!PodAPI K}.
Local Abbreviation KS := (KubeState K).
Definition on_kube {A} (m : M K error A) : M KS error A := λ k,
  let '(a, x) := m (ks_kube k) in (a, mkKubeState x (ks_redeploys k)).
Definition ask_kube {A} (f : K → result error A) : M KS error A := ask (λ k, f (ks_kube k)).

(** Create, or take what is there and put [change] of it. *)
Definition create_or_update {O} `{!TypedClient K O} (now : time) (ns name : string) (o : O) (change : O → O) :
    M K error unit :=
  r ← attempt (kCreate now ns o);
  match r with
  | Ok _ => mret tt
  | Err e =>
      if bool_decide (e = ErrKubeAlreadyExists) then
        existing ← ask (kGet ns name);
        kUpdate ns (change existing)
      else throw e
  end.

Definition ensureConfigMap (s : KubeScheduler) (now : time) (name : string) (labels : Labels) (spec : DeploySpec) :
    M KS error unit :=
  let data := config_data spec in
  on_kube (create_or_update now (kb_ns s) name (mkConfigMap name labels data)
    (λ existing, mkConfigMap (cm_Name existing) (cm_Labels existing) data)).

(** A [uint64] counter, printed. *)
Definition redeployNonce : M KS error string := λ k,
  let n := (ks_redeploys k + 1) mod 2 ^ 64 in (Ok (pretty n), mkKubeState (ks_kube k) n).

Definition pod_template (s : KubeScheduler) (name : string) (labels : Labels) (nonce : string) (spec : DeploySpec) :
    PodTemplate :=
  mkPodTemplate (<["app" := name]> labels) {[ configHashAnnotation := nonce ]} (podSpec s spec name).
Definition ensureStatefulSet (s : KubeScheduler) (now : time) (name : string) (labels : Labels) (spec : DeploySpec) :
    M KS error unit :=
  let replicas := int32Bounded (Z.of_nat (length (ds_Shards spec))) in
  nonce ← redeployNonce;
  let template := pod_template s name labels nonce spec in
  on_kube (create_or_update now (kb_ns s) name
    (mkStatefulSet name labels time_zero name replicas {[ "app" := name ]} "Parallel" template)
    (λ existing, mkStatefulSet (sts_Name existing) (sts_Labels existing) (sts_CreationTimestamp existing)
       (sts_ServiceName existing) replicas (sts_Selector existing) (sts_PodManagementPolicy existing) template)).

Definition deploy_labels (spec : DeploySpec) : Labels :=
  <[managedByLabel := managedByValue]>
    (ScenarioLabels (ds_ProjectID spec) (ds_ExecutionID spec) (ds_ScenarioID spec)).
Definition spec_name (spec : DeploySpec) : string :=
  ScenarioName (ds_ProjectID spec) (ds_ExecutionID spec) (ds_ScenarioID spec).
Definition kube_DeployScenario (s : KubeScheduler) (now : time) (spec : DeploySpec) : M KS error unit :=
  _ ← ensureConfigMap s now (spec_name spec) (deploy_labels spec) spec;
  ensureStatefulSet s now (spec_name spec) (deploy_labels spec) spec.

(** ** Reading the cluster *)
Definition scenario_selector (executionID scenarioID : Z) : selector :=
  [("execution", pretty executionID); ("scenario", pretty scenarioID)].

Definition currentRedeployNonce (s : KubeScheduler) (sel : selector) : M KS error string :=
  sets ← ask_kube (kList (O := StatefulSet) (kb_ns s) sel);
  mret match sets with
       | [] => ""
       | set :: _ => default "" (pt_Annotations (sts_Template set) !! configHashAnnotation)
       end.
Definition counted (nonce : string) (p : Pod) : bool :=
  podReady p && (bool_decide (nonce = "") ||
                 bool_decide (default "" (pod_Annotations p !! configHashAnnotation) = nonce)).
Definition readyPods (s : KubeScheduler) (executionID scenarioID : Z) : M KS error Z :=
  let sel := scenario_selector executionID scenarioID in
  nonce ← currentRedeployNonce s sel;
  pods ← ask_kube (PodList (kb_ns s) sel);
  mret (Z.of_nat (length (filter (λ p, counted nonce p = true) pods))).

Fixpoint status_of (s : KubeScheduler) (executionID : Z) (plans : list ScenarioRef) (status : ExecutionStatus) :
    M KS error ExecutionStatus :=
  match plans with
  | [] => mret status
  | ref :: rest =>
      ready ← readyPods s executionID (ref_ScenarioID ref);
      let pr := mkReadiness (ref_ScenarioID ref) (ref_Shards ref) ready
                  ((0 <? ref_Shards ref) && (ref_Shards ref <=? ready)) in
      status_of s executionID rest
        (mkExecutionStatus (es_Scenarios status ++ [pr]) (es_PoolSize status +w ready))
  end.
Definition kube_ExecutionStatus (s : KubeScheduler) (_ : string) (executionID : Z) (plans : list ScenarioRef) :
    M KS error ExecutionStatus :=
  status_of s executionID plans (mkExecutionStatus [] 0).

Definition pod_le (a b : Pod) : Prop := str_le (pod_Name a) (pod_Name b).
#[global] Instance pod_le_dec a b : Decision (pod_le a b).
Proof using. unfold pod_le. apply _. Defined.
Definition kube_EngineDetail (s : KubeScheduler) (_ : string) (projectID executionID : Z) :
    M KS error ExecutionDetail :=
  pods ← ask_kube (PodList (kb_ns s) [("project", pretty projectID); ("execution", pretty executionID)]);
  mret (mkExecutionDetail ""
    ((λ p, mkEngineDetail (pod_Name p) (pod_Phase p) (pod_CreationTimestamp p)) <$> merge_sort pod_le pods)).

(** [if err := Delete(...); err != nil && !IsNotFound(err) { return err }]. *)
Definition delete_unless_gone (O : Type) `{!TypedClient K O} (ns name : string) : M KS error unit :=
  r ← attempt (on_kube (kDelete (O := O) ns name));
  match r with
  | Ok _ => mret tt
  | Err e => if bool_decide (e = ErrKubeNotFound) then mret tt else throw e
  end.
Definition kube_PurgeExecution (s : KubeScheduler) (_ : string) (executionID : Z) : M KS error unit :=
  let sel := [("execution", pretty executionID); (managedByLabel, managedByValue)] in
  sets ← ask_kube (kList (O := StatefulSet) (kb_ns s) sel);
  _ ← for_each sets (λ set, delete_unless_gone StatefulSet (kb_ns s) (sts_Name set));
  svcs ← ask_kube (kList (O := KubeService) (kb_ns s) sel);
  _ ← for_each svcs (λ svc, delete_unless_gone KubeService (kb_ns s) (ksv_Name svc));
  on_kube (PodDeleteCollection (kb_ns s) [("execution", pretty executionID)]).

Definition kube_PodLog (s : KubeScheduler) (_ : string) (executionID scenarioID shard : Z) : M KS error string :=
  pods ← ask_kube (PodList (kb_ns s) (scenario_selector executionID scenarioID));
  match List.find (λ p, HasSuffix (pod_Name p) ("-" +:+ pretty shard)) pods with
  | None => throw ErrEnginesUnreachable
  | Some p => ask_kube (PodLogs (kb_ns s) (pod_Name p) engineContainer)
  end.

Definition deployed_step (out : gmap Z time) (set : StatefulSet) : gmap Z time :=
  match Sscanf_d (default "" (sts_Labels set !! "execution")) with
  | None => out
  | Some cid =>
      let created := sts_CreationTimestamp set in
      match out !! cid with
      | Some cur => if Before created cur then <[cid := created]> out else out
      | None => <[cid := created]> out
      end
  end.
Definition kube_DeployedExecutions (s : KubeScheduler) (_ : string) : M KS error (gmap Z time) :=
  sets ← ask_kube (kList (O := StatefulSet) (kb_ns s) [(managedByLabel, managedByValue)]);
  mret (fold_left deployed_step sets ∅).

(** *** Node pools *)
Record NodePool := mkNodePool { np_Name : string; np_Size : Z; np_LaunchTime : time }.
Definition pool_step (poolLabel : string) (byPool : gmap string NodePool) (n : Node) : gmap string NodePool :=
  let name := or_default (default "" (nd_Labels n !! poolLabel)) "default" in
  let created := nd_CreationTimestamp n in
  match byPool !! name with
  | Some pool =>
      <[name := mkNodePool (np_Name pool) (np_Size pool +w 1)
                  (if Before created (np_LaunchTime pool) then created else np_LaunchTime pool)]> byPool
  | None => <[name := mkNodePool name 1 created]> byPool
  end.
Definition pool_le (a b : NodePool) : Prop := str_le (np_Name a) (np_Name b).
#[global] Instance pool_le_dec a b : Decision (pool_le a b).
Proof using. unfold pool_le. apply _. Defined.
Definition kube_NodePools (s : KubeScheduler) (_ : string) : M KS error (list NodePool) :=
  nodes ← ask_kube NodeList;
  mret (merge_sort pool_le (map_to_list (fold_left (pool_step (kb_poolLabel s)) nodes ∅)).*2).
End adapter.
