(* ===== verification/KubeFacts.v ===== *)
(** * What the Kubernetes scheduler guarantees

    The promises of the scheduler port, the delivery of every shard's
    configuration to its pod, and what readiness counts. *)
From Stdlib Require Import Ascii.
From S2P Require Import Prelude Errors GoStrings GoFloat Taurus Cluster ClusterApp Kube.

(** ** Printed numbers, read back *)
Lemma take_digits_all l : Forall (λ a, in_range 48 57 a = true) l → take_digits l = l.
Proof. induction 1 as [|a l Ha _ IH]; simpl; [done|]. by rewrite Ha, IH. Qed.

Lemma digit_bytes a : in_range 48 57 a = true → (48 <= byte_of a <= 57)%N.
Proof. unfold in_range. by intros ?%bool_decide_eq_true. Qed.

Lemma Sscanf_d_digits l v :
  l ≠ [] → Forall (λ a, in_range 48 57 a = true) l → digits_value l 0 = Some v →
  Sscanf_d (of_bytes l) = (if bool_decide (in_int64 v) then Some v else None).
Proof.
  intros Hne Hl Hv. unfold Sscanf_d. rewrite bytes_of_of. destruct l as [|a l]; [done|].
  pose proof (digit_bytes a (Forall_inv Hl)) as Ha.
  assert (skip_blanks (a :: l) = a :: l) as ->.
  { simpl. unfold space1. rewrite bool_decide_false by lia. done. }
  rewrite !bool_decide_false by lia. rewrite (take_digits_all (a :: l)) by done. by rewrite Hv.
Qed.

(** A printed [int64] is read back; no other printed number gives it. *)
Lemma Sscanf_d_pretty (n : Z) : Sscanf_d (pretty n) = if bool_decide (in_int64 n) then Some n else None.
Proof.
  destruct (decide (0 <= n)) as [Hn|Hn].
  - rewrite <- (of_bytes_of (pretty n)). apply Sscanf_d_digits; [apply pretty_nonempty|by apply pretty_digits|].
    by apply pretty_value.
  - destruct n as [|p|p]; [lia..|]. change (pretty (Z.neg p)) with ("-" +:+ pretty (Z.pos p)).
    unfold Sscanf_d. rewrite bytes_of_app. cbn [app bytes_of Stdlib.Strings.String.list_ascii_of_string].
    assert (∀ l, skip_blanks ("-"%char :: l) = "-"%char :: l) as -> by done.
    rewrite bool_decide_true by done.
    rewrite take_digits_all by (by apply pretty_digits).
    pose proof (pretty_nonempty (Z.pos p)). pose proof (pretty_value (Z.pos p) ltac:(lia)) as Hv.
    destruct (bytes_of (pretty (Z.pos p))); [done|]. rewrite Hv. done.
Qed.

(** ** What is deployed, from the StatefulSets *)
Definition set_id (set : StatefulSet) : option Z := Sscanf_d (default "" (sts_Labels set !! "execution")).

(** The earliest of the instants met so far and the next. *)
Definition sooner (cur : option time) (t : time) : option time :=
  Some (match cur with Some c => Z.min c t | None => t end).
Lemma sooner_spec ts o t :
  fold_left sooner ts o = Some t ↔
  (t ∈ ts ∨ o = Some t) ∧ (∀ t', t' ∈ ts → t <= t') ∧ ∀ c, o = Some c → t <= c.
Proof.
  revert o. induction ts as [|x ts IH]; intros o; cbn [fold_left].
  { split; [intros ->|intros [[Hx%elem_of_nil|Hx] _]; done].
    split; [by right|]. split; [by intros ? ?%elem_of_nil|]. intros c [= ->]. lia. }
  rewrite IH. unfold sooner. setoid_rewrite elem_of_cons. split.
  - intros (Ht & Hall & Hc). specialize (Hc _ eq_refl). split_and!.
    + destruct Ht as [?|Ht]; [by left; right|]. injection Ht as Ht. destruct o as [c|]; [|by left; left].
      destruct (Z.min_spec c x) as [[_ E]|[_ E]]; rewrite E in Ht; subst; auto.
    + intros t' [->|?]; [destruct o; lia|auto].
    + intros c ->. lia.
  - intros (Ht & Hall & Hc). assert (t <= x) by (apply Hall; by left). split_and!.
    + destruct Ht as [[Ht|?]|Ht]; [subst x|by left|subst o]; right; f_equal; [destruct o as [c|]; [specialize (Hc c eq_refl)|]|]; lia.
    + auto.
    + intros c' [= <-]. destruct o as [c|]; [specialize (Hc c eq_refl)|]; lia.
Qed.
Lemma deployed_lookup l m e :
  fold_left deployed_step l m !! e =
    fold_left sooner (sts_CreationTimestamp <$> filter (λ set, set_id set = Some e) l) (m !! e).
Proof.
  revert m. induction l as [|x l IH]; intros m; [done|]. cbn [fold_left]. rewrite IH.
  unfold deployed_step. fold (set_id x). rewrite filter_cons. unfold Before.
  destruct (set_id x) as [cid|]; [|by rewrite decide_False]. destruct (decide (Some cid = Some e)) as [[= ->]|Hne].
  - csimpl. f_equal. unfold sooner. destruct (m !! e) as [cur|] eqn:Hm; [case_bool_decide|];
      rewrite ?lookup_insert_eq, ?Hm; f_equal; lia.
  - f_equal. destruct (m !! cid); [case_bool_decide|]; rewrite ?lookup_insert_ne by congruence; done.
Qed.

(** Each id is given the earliest creation among its sets. *)
Lemma deployed_spec l e t :
  fold_left deployed_step l ∅ !! e = Some t ↔
  (∃ set, set ∈ l ∧ set_id set = Some e ∧ sts_CreationTimestamp set = t) ∧
  ∀ set, set ∈ l → set_id set = Some e → t <= sts_CreationTimestamp set.
Proof.
  rewrite deployed_lookup, lookup_empty, sooner_spec.
  setoid_rewrite list_elem_of_fmap. setoid_rewrite list_elem_of_filter. naive_solver.
Qed.
Lemma deployed_same l l' e :
  (∀ set, set_id set = Some e → set ∈ l ↔ set ∈ l') →
  fold_left deployed_step l ∅ !! e = fold_left deployed_step l' ∅ !! e.
Proof. intros Hl. apply option_eq. intros t. rewrite !deployed_spec. naive_solver. Qed.
Lemma deployed_None l e :
  fold_left deployed_step l ∅ !! e = None ↔ ∀ set, set ∈ l → set_id set ≠ Some e.
Proof.
  rewrite deployed_lookup, lookup_empty. split.
  - intros Hf set Hin Hid.
    assert (sts_CreationTimestamp set ∈ sts_CreationTimestamp <$> filter (λ set, set_id set = Some e) l) as Ht
      by (apply list_elem_of_fmap; exists set; by rewrite list_elem_of_filter).
    destruct (sts_CreationTimestamp <$> _) as [|x ts]; [by apply elem_of_nil in Ht|]. cbn in Hf.
    clear -Hf. revert Hf. generalize x. induction ts as [|y ts IH]; intros z Hf; [done|]. by apply IH in Hf.
  - intros Hno. rewrite filter_none by done. done.
Qed.

(** ** The port's promises *)
Class PodLaws (K : Type) `{!TypedClient K StatefulSet} `{!TypedLaws K StatefulSet} `{!PodAPI K} : Prop :=
  pods_apart ns sel : Keeps (same_kept StatefulSet) (PodDeleteCollection (K := K) ns sel).
#[export] Existing Instance pods_apart.

Section laws.
Context (Quote : string → string) (ParseQuantity : string → option string).
Context {K : Type} `{!TypedClient K ConfigMap} `{!TypedClient K StatefulSet} `{!TypedClient K KubeService}.
Context `{!TypedLaws K StatefulSet} `{!PodAPI K} `{!PodLaws K}.
Context `{!Apart K ConfigMap StatefulSet} `{!Apart K KubeService StatefulSet}.
Context (s : KubeScheduler).
Implicit Types k : KubeState K.
Local Abbreviation sets k := (kept (O := StatefulSet) (ks_kube k)).
Local Abbreviation ns := (kb_ns s).

Definition managed (set : StatefulSet) : Prop := sts_Labels set !! managedByLabel = Some managedByValue.
(** Honryu's own sets in the namespace are labelled with a printed id. *)
Definition owned k : Prop :=
  ∀ n set, sets k !! (ns, n) = Some set → managed set → ∃ e : Z, sts_Labels set !! "execution" = Some (pretty e).

Definition deployed_by k : gmap Z time :=
  fold_left deployed_step
    (map_to_list (filter (λ x, x.1.1 = ns ∧ selects [(managedByLabel, managedByValue)] (sts_Labels x.2) = true)
                    (sets k))).*2 ∅.

Lemma listed_set k sel set :
  set ∈ (map_to_list (filter (λ x, x.1.1 = ns ∧ selects sel (obj_Labels x.2) = true) (sets k))).*2 ↔
  sets k !! (ns, sts_Name set) = Some set ∧ selects sel (sts_Labels set) = true.
Proof using.
  rewrite list_elem_of_fmap. split.
  - intros ([[ns' n] set'] & -> & Hin). apply elem_of_map_to_list, map_lookup_filter_Some in Hin.
    cbn in *. destruct Hin as (Hin & -> & Hsel). pose proof (kept_name _ _ _ _ Hin) as Hn. cbn in Hn. by subst.
  - intros [Hin Hsel]. exists ((ns, sts_Name set), set). split; [done|].
    by apply elem_of_map_to_list, map_lookup_filter_Some.
Qed.
Lemma selects_managed set : selects [(managedByLabel, managedByValue)] (sts_Labels set) = true ↔ managed set.
Proof using. unfold selects, managed. cbn. rewrite andb_true_r. apply bool_decide_eq_true. Qed.
Lemma selects_purge (e : Z) set :
  selects [("execution", pretty e); (managedByLabel, managedByValue)] (sts_Labels set) = true ↔
  sts_Labels set !! "execution" = Some (pretty e) ∧ managed set.
Proof using. unfold selects, managed. cbn. by rewrite andb_true_r, andb_true_iff, !bool_decide_eq_true. Qed.

(** Nothing but sets of [e] has been taken away. *)
Definition strips (e : Z) k k' : Prop :=
  sets k' ⊆ sets k ∧
  ∀ n set, sets k !! (ns, n) = Some set → sets k' !! (ns, n) = None →
    sts_Labels set !! "execution" = Some (pretty e) ∧ managed set.
#[global] Instance strips_po e : PreOrder (strips e).
Proof using.
  split; [intros k; split; [done|]; congruence|]. intros x y z [S1 D1] [S2 D2].
  split; [by etrans|]. intros n set Hx Hz. destruct (sets y !! (ns, n)) as [set'|] eqn:Hy; [|by eapply D1].
  assert (set' = set) as -> by (eapply lookup_weaken in S1; [|done]; congruence). by eapply D2.
Qed.
Definition same_sets k k' : Prop := sets k' = sets k.
#[global] Instance same_sets_po : PreOrder same_sets.
Proof using. split; [done|]. intros x y z. unfold same_sets. congruence. Qed.
Lemma same_strips e k k' : same_sets k k' → strips e k k'.
Proof using. intros E. unfold strips. rewrite E. split; [done|]. congruence. Qed.

#[global] Instance on_kube_same {A} (m : M K error A) :
  Keeps (same_kept StatefulSet) m → Keeps same_sets (on_kube m).
Proof using. intros Hm k. specialize (Hm (ks_kube k)). unfold on_kube. by destruct (m (ks_kube k)). Qed.
#[global] Instance ask_kube_keeps {A} (R : relation (KubeState K)) `{!PreOrder R} (f : K → result error A) :
  Keeps R (ask_kube f).
Proof using. unfold ask_kube. apply _. Qed.
Lemma strips_same e {A} (m : M (KubeState K) error A) : Keeps same_sets m → Keeps (strips e) m.
Proof using. intros Hm k. apply same_strips, Hm. Qed.

Lemma delete_set_spec e set k k' r :
  delete_unless_gone StatefulSet ns (sts_Name set) k = (r, k') →
  (sets k !! (ns, sts_Name set) = None ∨ sets k !! (ns, sts_Name set) = Some set) →
  sts_Labels set !! "execution" = Some (pretty e) → managed set →
  strips e k k' ∧ (r = Ok tt → sets k' !! (ns, sts_Name set) = None).
Proof using.
  intros Hd Hin He Hm. unfold delete_unless_gone, attempt, mbind, M_bind, on_kube in Hd.
  destruct (kDelete ns (sts_Name set) (ks_kube k)) as [a x] eqn:Hk. apply k_delete in Hk.
  assert (strips e k (mkKubeState x (ks_redeploys k)) ∧
    (a = Ok tt ∨ a = Err ErrKubeNotFound → kept (O := StatefulSet) x !! (ns, sts_Name set) = None)) as [Hs Hg].
  { assert (strips e k (mkKubeState x (ks_redeploys k))) as Hs.
    { assert (kept x = sets k ∨ kept x = delete (ns, sts_Name set) (sets k)) as [E|E]
        by (destruct a; [by right|by apply Hk]); [by apply same_strips|].
      unfold strips. cbn. rewrite E. split; [apply delete_subseteq|]. intros n y Hy.
      rewrite lookup_delete_None. intros [[= <-]|?]; [|congruence]. destruct Hin; [congruence|]. by simplify_eq. }
    split; [done|]. intros [->| ->]; [by rewrite Hk, lookup_delete_eq|]. by apply (proj2 Hk). }
  destruct a as [[]|err]; [injection Hd as <- <-; auto|]. cbn in Hd.
  case_bool_decide; injection Hd as <- <-; (split; [done|]); intros Hr; [subst; auto|done].
Qed.

Lemma delete_sets_spec e l k r k' :
  for_each l (λ set, delete_unless_gone StatefulSet ns (sts_Name set)) k = (r, k') →
  (∀ set, set ∈ l → sts_Labels set !! "execution" = Some (pretty e) ∧ managed set ∧
     (sets k !! (ns, sts_Name set) = None ∨ sets k !! (ns, sts_Name set) = Some set)) →
  strips e k k' ∧ (r = Ok tt → ∀ set, set ∈ l → sets k' !! (ns, sts_Name set) = None).
Proof using.
  revert k. induction l as [|x l IH]; intros k; cbn [for_each].
  { intros [= <- <-] _. split; [reflexivity|]. by intros _ ? ?%elem_of_nil. }
  intros Hf Hl. unfold mbind, M_bind in Hf. destruct (delete_unless_gone _ _ _ k) as [a k1] eqn:Hd.
  destruct (Hl x (list_elem_of_here _ _)) as (He & Hm & Hin).
  destruct (delete_set_spec e x k k1 a Hd Hin He Hm) as [Hs Hg].
  destruct a as [[]|err]; [|injection Hf as <- <-; split; [done|done]].
  destruct (IH k1 Hf) as [Hs2 Hg2].
  { intros y Hy. destruct (Hl y (list_elem_of_further _ _ _ Hy)) as (Hye & Hym & Hyin). split_and!; [done..|].
    destruct (sets k1 !! (ns, sts_Name y)) as [z|] eqn:Hz; [right|by left].
    eapply lookup_weaken in Hz; [|apply Hs]. destruct Hyin; congruence. }
  split; [by etrans|]. intros Hr y [->|Hy]%elem_of_cons; [|auto].
  destruct (sets k' !! (ns, sts_Name x)) as [z|] eqn:Hz; [|done].
  eapply lookup_weaken in Hz; [|apply Hs2]. rewrite Hg in Hz by done. done.
Qed.

#[global] Instance delete_service_same n : Keeps same_sets (delete_unless_gone (K := K) KubeService ns n).
Proof using Apart1. unfold delete_unless_gone. solve_keeps. Qed.

Lemma purge_spec e c k r k' :
  kube_PurgeExecution s c e k = (r, k') →
  strips e k k' ∧
  (r = Ok tt → ∀ n set, sets k' !! (ns, n) = Some set →
     sts_Labels set !! "execution" = Some (pretty e) → managed set → False).
Proof using PodLaws0 Apart1.
  unfold kube_PurgeExecution, ask_kube, ask. cbv [mbind M_bind].
  destruct (kList ns _ (ks_kube k)) as [l|err] eqn:Hl; [|intros [= <- <-]; by split].
  apply k_list in Hl.
  assert (∀ set, set ∈ l ↔ sets k !! (ns, sts_Name set) = Some set ∧
    sts_Labels set !! "execution" = Some (pretty e) ∧ managed set) as Hin
    by (intros set; by rewrite Hl, listed_set, selects_purge).
  destruct (for_each l _ k) as [a k1] eqn:Hf. apply (delete_sets_spec e) in Hf as [Hs Hg]; [|by intros set (? & ? & ?)%Hin; auto].
  destruct a as [[]|err]; [|intros [= <- <-]; by split]. specialize (Hg eq_refl).
  intros Hrest. assert (same_sets k1 k') as Hsame.
  { match type of Hrest with ?m = _ => assert (same_sets k1 m.2) as Hk end; [|by rewrite Hrest in Hk].
    destruct (kList ns _ (ks_kube k1)) as [svcs|]; [|done].
    assert (Keeps same_sets (for_each svcs (λ svc, delete_unless_gone (K := K) KubeService ns (ksv_Name svc)))) as Hsv by apply _.
    specialize (Hsv k1). destruct (for_each svcs _ k1) as [[[]|] k2]; cbn in *; [|done]. etrans; [done|].
    apply (on_kube_same (PodDeleteCollection ns [("execution", pretty e)]) _). }
  split; [etrans; [done|by apply same_strips]|]. intros _ n set Hset He Hm. rewrite Hsame in Hset.
  pose proof (kept_name _ _ _ _ Hset) as Hn. cbn in Hn. subst n.
  rewrite Hg in Hset; [done|]. apply Hin. eapply lookup_weaken in Hset; [|apply Hs]. done.
Qed.

Lemma strips_deployed_ne e k k' e' : strips e k k' → e' ≠ e → deployed_by k' !! e' = deployed_by k !! e'.
Proof using.
  intros [Hsub Hdrop] Hne. apply deployed_same. intros set Hid. rewrite !listed_set, !selects_managed.
  split; intros [Hin Hm]; (split; [|done]); [by eapply lookup_weaken|].
  destruct (sets k' !! (ns, sts_Name set)) as [set'|] eqn:Hs'.
  - eapply lookup_weaken in Hs' as Hs2; [|done]. congruence.
  - destruct (Hdrop _ _ Hin Hs') as [He _]. unfold set_id in Hid. rewrite He in Hid. cbn in Hid.
    rewrite Sscanf_d_pretty in Hid. case_bool_decide; congruence.
Qed.
Lemma strips_deployed_taken e k k' e' : strips e k k' → taken (deployed_by k !! e') (deployed_by k' !! e').
Proof using.
  intros [Hsub _]. unfold taken, deployed_by. rewrite !deployed_None. intros Hno set.
  rewrite listed_set, selects_managed. intros [Hin Hm]. apply Hno. rewrite listed_set, selects_managed.
  split; [by eapply lookup_weaken|done].
Qed.
Lemma strips_owned e k k' : strips e k k' → owned k → owned k'.
Proof using. intros [Hsub _] Ho n set Hin. by eapply Ho, lookup_weaken. Qed.
Lemma same_owned k k' : same_sets k k' → owned k → owned k'.
Proof using. unfold owned. by intros ->. Qed.

Lemma purge_deployed_None c e k k' :
  owned k → kube_PurgeExecution s c e k = (Ok tt, k') → deployed_by k' !! e = None.
Proof using PodLaws0 Apart1.
  intros Ho Hp. apply purge_spec in Hp as [Hs Hg]. apply deployed_None. intros set. rewrite listed_set, selects_managed.
  intros [Hin Hm] Hid. destruct (strips_owned e k k' Hs Ho _ _ Hin Hm) as [e' He].
  apply (Hg eq_refl _ _ Hin); [|done]. rewrite He. f_equal. f_equal. unfold set_id in Hid.
  rewrite He in Hid. cbn in Hid. rewrite Sscanf_d_pretty in Hid. case_bool_decide; congruence.
Qed.

(** Creating, or replacing the template of, a set labelled the adapter's way. *)
Lemma deploy_owned now spec k : owned k → owned (kube_DeployScenario Quote ParseQuantity s now spec k).2.
Proof using Apart0 TypedLaws0.
  intros Ho. unfold kube_DeployScenario, ensureConfigMap. cbv [mbind M_bind].
  assert (Keeps (same_kept StatefulSet) (create_or_update (K := K) now ns (spec_name spec)
    (mkConfigMap (spec_name spec) (deploy_labels spec) (config_data spec))
    (λ existing, mkConfigMap (cm_Name existing) (cm_Labels existing) (config_data spec)))) as Hcm
    by (unfold create_or_update; solve_keeps).
  pose proof (on_kube_same _ Hcm k) as Hs. destruct (on_kube _ k) as [[[]|] k1]; cbn [fst snd] in *;
    apply (same_owned k k1 Hs) in Ho; [|done].
  clear Hcm Hs k. unfold ensureStatefulSet. cbv [mbind M_bind redeployNonce].
  generalize (pod_template Quote ParseQuantity s (spec_name spec) (deploy_labels spec)
    (pretty ((ks_redeploys k1 + 1) mod 2 ^ 64)) spec). intros tpl.
  unfold on_kube. cbn [ks_kube ks_redeploys]. unfold create_or_update, attempt. cbv [mbind M_bind ask].
  set (new := mkStatefulSet (spec_name spec) (deploy_labels spec) _ _ _ _ _ _).
  assert (∃ e : Z, sts_Labels new !! "execution" = Some (pretty e)) as Hnew by (by exists (ds_ExecutionID spec)).
  destruct (kCreate now ns new (ks_kube k1)) as [r x] eqn:Hc. apply k_create in Hc.
  assert (owned (mkKubeState x ((ks_redeploys k1 + 1) mod 2 ^ 64))) as Ho1.
  { assert (kept x = sets k1 ∨ kept x = <[(ns, sts_Name new) := sts_stamp now new]> (sets k1)) as [E|E].
    { destruct r; [right; apply Hc|]. destruct Hc as [[?|[_ ?]] _]; auto. }
    - by apply (same_owned k1).
    - intros n set. cbn. rewrite E, lookup_insert_Some. intros [[_ <-]|[_ ?]] Hm; [done|by eapply Ho]. }
  clear Hc. destruct r as [[]|err]; [done|]. case_bool_decide; [|done].
  destruct (kGet ns (spec_name spec) x) as [old|] eqn:Hg; [|done]. apply k_get in Hg.
  match goal with |- context [kUpdate ns ?u x] => set (upd := u) end.
  destruct (kUpdate ns upd x) as [r y] eqn:Hu. apply k_update in Hu. cbn [fst snd].
  assert (kept y = kept x ∨ kept y = <[(ns, sts_Name upd) := upd]> (kept x)) as [E|E]
    by (destruct r; [right; apply Hu|]; destruct Hu as [?|[_ ?]]; auto).
  - intros n set. cbn. rewrite E. apply Ho1.
  - intros n set. cbn. rewrite E, lookup_insert_Some. intros [[_ <-]|[_ ?]] Hm; [|by eapply Ho1].
    exact (Ho1 _ _ Hg Hm).
Qed.

(** *** The adapter as an instance of the port

    A cluster on which Honryu's objects are its own: no operation of the
    adapter leaves that. *)
Record Owned := mkOwned { own_state : KubeState K; own_ok : owned own_state }.
Definition stays {A} (m : M (KubeState K) error A) : Prop := ∀ k, owned k → owned (m k).2.
Definition owning {A} (m : M (KubeState K) error A) (Hm : stays m) : M Owned error A := λ o,
  ((m (own_state o)).1, mkOwned (m (own_state o)).2 (Hm _ (own_ok o))).

Lemma stays_same {A} (m : M (KubeState K) error A) : Keeps same_sets m → stays m.
Proof using. intros Hm k. by apply same_owned. Qed.
#[global] Instance readyPods_same e sc : Keeps same_sets (readyPods s e sc).
Proof using. unfold readyPods, currentRedeployNonce. solve_keeps. Qed.
#[global] Instance status_same e plans st : Keeps same_sets (status_of s e plans st).
Proof using. revert st. induction plans as [|ref plans IH]; intros st; cbn [status_of]; apply _. Qed.
#[global] Instance detail_same c p e : Keeps same_sets (kube_EngineDetail s c p e).
Proof using. unfold kube_EngineDetail. solve_keeps. Qed.
#[global] Instance log_same c e sc i : Keeps same_sets (kube_PodLog s c e sc i).
Proof using. unfold kube_PodLog. solve_keeps. Qed.
#[global] Instance deployed_same_sets c : Keeps same_sets (kube_DeployedExecutions s c).
Proof using. unfold kube_DeployedExecutions. solve_keeps. Qed.
Lemma stays_purge c e : stays (kube_PurgeExecution s c e).
Proof using PodLaws0 Apart1.
  intros k. destruct (kube_PurgeExecution s c e k) as [r k'] eqn:Hp. eapply strips_owned, (purge_spec e c), Hp.
Qed.

#[global] Instance kube_scheduler : Scheduler Owned := {
  DeployScenario now spec := owning _ (deploy_owned now spec);
  ExecutionStatusOf c e plans := owning _ (stays_same (kube_ExecutionStatus s c e plans) (status_same _ _ _));
  EngineDetailOf c p e := owning _ (stays_same (kube_EngineDetail s c p e) (detail_same _ _ _));
  PurgeExecution c e := owning _ (stays_purge c e);
  PodLog c e sc i := owning _ (stays_same (kube_PodLog s c e sc i) (log_same _ _ _ _));
  DeployedExecutions c := owning _ (stays_same (kube_DeployedExecutions s c) (deployed_same_sets c))
}.

Lemma deployed_by_ext k k' : same_sets k k' → deployed_by k' = deployed_by k.
Proof using. unfold deployed_by. by intros ->. Qed.

#[global] Instance kube_scheduler_laws : SchedulerLaws Owned.
Proof using.
  refine {| deployed_on _ o := deployed_by (own_state o) |}; cbn.
  - intros c [k Ho] r o' [= Hr _]. revert Hr. cbn. unfold kube_DeployedExecutions, ask_kube, ask. cbv [mbind M_bind].
    destruct (kList ns _ (ks_kube k)) as [l|] eqn:Hl; [|done]. cbn. intros [= <-]. apply k_list in Hl.
    apply map_eq. intros e. apply deployed_same. intros set _. by rewrite Hl.
  - intros c [k Ho] _. cbn. apply deployed_by_ext, (deployed_same_sets c k).
  - intros c e [k Ho] o' [= Hr <-]. cbn in *. destruct (kube_PurgeExecution s c e k) as [r k'] eqn:Hp. cbn in *. subst r.
    by eapply purge_deployed_None.
  - intros c e [k Ho] _ e'. cbn. destruct (kube_PurgeExecution s c e k) as [r k'] eqn:Hp. cbn.
    apply purge_spec in Hp as [Hs _]. destruct (decide (e' = e)) as [->|Hne].
    + right. split; [done|]. by eapply strips_deployed_taken.
    + left. by eapply strips_deployed_ne.
  - intros c e sc i [k Ho] _. cbn. apply deployed_by_ext, (log_same c e sc i k).
Defined.

End laws.

(** ** Every pod finds its own shard's configuration *)
#[global] Instance shardConfigKey_inj : Inj (=) (=) shardConfigKey.
Proof.
  intros i j H. unfold shardConfigKey in H. apply (f_equal bytes_of) in H. rewrite !bytes_of_app in H.
  apply app_inv_head, app_inv_tail, bytes_of_inj in H. by apply (inj pretty).
Qed.
#[global] Instance scenarioFileKey_inj : Inj (=) (=) scenarioFileKey.
Proof.
  intros i j H. unfold scenarioFileKey in H. apply (f_equal bytes_of) in H. rewrite !bytes_of_app in H.
  by apply app_inv_head, bytes_of_inj in H.
Qed.
Lemma keys_apart i f : shardConfigKey i ≠ scenarioFileKey f.
Proof. done. Qed.

Lemma shard_data_lookup shards (m : gmap string string) sh :
  NoDup (ss_Index <$> shards) → sh ∈ shards →
  fold_left (λ data sh, <[shardConfigKey (ss_Index sh) := ss_Config sh]> data) shards m
    !! shardConfigKey (ss_Index sh) = Some (ss_Config sh).
Proof.
  assert (∀ l (m : gmap string string) i, i ∉ ss_Index <$> l →
    fold_left (λ data sh, <[shardConfigKey (ss_Index sh) := ss_Config sh]> data) l m !! shardConfigKey i =
    m !! shardConfigKey i) as Hskip.
  { induction l as [|x l IH]; intros m' i Hi; cbn [fold_left]; [done|]. csimpl in Hi.
    rewrite not_elem_of_cons in Hi. destruct Hi as [Hne Hi]. rewrite IH by done.
    apply lookup_insert_ne. intros E. by apply (inj shardConfigKey) in E. }
  revert m. induction shards as [|x l IH]; intros m Hnd Hin; [by apply elem_of_nil in Hin|].
  csimpl in Hnd. apply NoDup_cons in Hnd as [Hx Hnd]. cbn [fold_left].
  apply elem_of_cons in Hin as [->|Hin]; [|by apply IH]. rewrite Hskip by done. apply lookup_insert_eq.
Qed.
Lemma config_data_shard spec sh :
  NoDup (ss_Index <$> ds_Shards spec) → sh ∈ ds_Shards spec →
  config_data spec !! shardConfigKey (ss_Index sh) = Some (ss_Config sh).
Proof.
  intros Hnd Hin. unfold config_data. set (base := fold_left _ _ _).
  assert (base !! shardConfigKey (ss_Index sh) = Some (ss_Config sh)) as Hb by (by apply shard_data_lookup).
  clearbody base. induction (ds_ScenarioFiles spec) as [|f c files Hf _ IH] using map_first_key_ind.
  { by rewrite map_fold_empty. }
  rewrite map_fold_insert_L; [|intros; apply insert_insert_ne; by intros ?%(inj scenarioFileKey)|done].
  rewrite lookup_insert_ne by (intros E; by apply (keys_apart _ _ (eq_sym E))). done.
Qed.
Lemma config_data_file spec f c :
  ds_ScenarioFiles spec !! f = Some c → config_data spec !! scenarioFileKey f = Some c.
Proof.
  unfold config_data. set (base := fold_left _ _ _). clearbody base.
  induction (ds_ScenarioFiles spec) as [|f' c' files Hf _ IH] using map_first_key_ind; [done|].
  intros Hin. rewrite map_fold_insert_L; [|intros; apply insert_insert_ne; by intros ?%(inj scenarioFileKey)|done].
  destruct (decide (f' = f)) as [->|Hne].
  - rewrite lookup_insert_eq in Hin |- *. done.
  - rewrite lookup_insert_ne in Hin |- * by (first [done|by intros ?%(inj scenarioFileKey)]). auto.
Qed.

(** The files of a ConfigMap volume with these items: each item's key at its
    path; a key the ConfigMap does not hold keeps the pod from starting. *)
Definition project (data : gmap string string) (items : list KeyToPath) : option (gmap string string) :=
  list_to_map <$> mapM (λ it, (λ c, (kp_Path it, c)) <$> data !! kp_Key it) items.
(** The name of pod [i] of a StatefulSet, and what the shell makes of
    [${HOSTNAME##*-}]: the text after the last hyphen. *)
Definition pod_hostname (set : string) (i : nat) : string := set +:+ "-" +:+ pretty (Z.of_nat i).
Definition after_last_hyphen (s : string) : string :=
  of_bytes (fold_left (λ part a, if bool_decide (a = "-"%char) then [] else part ++ [a]) (bytes_of s) []).

Lemma ordinal_of_hostname set i : after_last_hyphen (pod_hostname set i) = pretty (Z.of_nat i).
Proof.
  assert (∀ d part, "-"%char ∉ d →
    fold_left (λ part a, if bool_decide (a = "-"%char) then [] else part ++ [a]) d part = part ++ d) as Hd.
  { induction d as [|a d IH]; intros part Hn; cbn; [by rewrite app_nil_r|].
    apply not_elem_of_cons in Hn as [Ha Hn]. rewrite bool_decide_false by done. rewrite IH by done.
    by rewrite <- app_assoc. }
  unfold after_last_hyphen, pod_hostname. rewrite !bytes_of_app, fold_left_app.
  cbn [app bytes_of Stdlib.Strings.String.list_ascii_of_string fold_left].
  rewrite bool_decide_true by done. rewrite Hd by (apply pretty_avoids; [lia|done]). apply of_bytes_of.
Qed.

Lemma project_Some data items :
  (∀ it, it ∈ items → is_Some (data !! kp_Key it)) → NoDup (kp_Path <$> items) →
  ∃ files, project data items = Some files ∧
    ∀ it, it ∈ items → files !! kp_Path it = data !! kp_Key it.
Proof.
  intros Hall Hnd. unfold project.
  destruct (mapM (λ it, (λ c, (kp_Path it, c)) <$> data !! kp_Key it) items) as [l|] eqn:Hm.
  2:{ exfalso. apply eq_None_not_Some in Hm. apply Hm, mapM_is_Some, Forall_forall. intros it Hin.
      destruct (Hall it Hin) as [c Hc]. eexists. cbn. by rewrite Hc. }
  eexists. split; [reflexivity|]. apply mapM_Some in Hm.
  assert (l.*1 = kp_Path <$> items) as Hl.
  { clear -Hm. induction Hm as [|it [p c] items l Hc _ IH]; csimpl; [done|].
    rewrite IH. apply fmap_Some in Hc as (x & _ & [= -> ->]). done. }
  intros it Hin. apply list_elem_of_lookup in Hin as [j Hj].
  destruct (Forall2_lookup_l _ _ _ _ _ Hm Hj) as ([p c] & Hlj & Hc).
  apply fmap_Some in Hc as (x & Hx & [= -> ->]). rewrite Hx. apply elem_of_list_to_map_1.
  - by rewrite Hl.
  - by eapply list_elem_of_lookup_2.
Qed.

(** The volume of the engine's configuration, as the pods of [spec] see it. *)
Lemma config_volume spec :
  NoDup (ss_Index <$> ds_Shards spec) →
  ∃ files, project (config_data spec) (configItems spec) = Some files ∧
    (∀ sh, sh ∈ ds_Shards spec → files !! shardConfigKey (ss_Index sh) = Some (ss_Config sh)) ∧
    ∀ f c, ds_ScenarioFiles spec !! f = Some c → files !! ("scenario/" +:+ f) = Some c.
Proof.
  intros Hnd.
  assert (∀ f, f ∈ merge_sort str_le (map_to_list (ds_ScenarioFiles spec)).*1 ↔
    is_Some (ds_ScenarioFiles spec !! f)) as Hf.
  { intros f. rewrite merge_sort_Permutation, list_elem_of_fmap. split.
    - intros ([f' c] & -> & ?%elem_of_map_to_list). by eexists.
    - intros [c Hc%elem_of_map_to_list]. by exists (f, c). }
  destruct (project_Some (config_data spec) (configItems spec)) as (files & Hp & Hfiles).
  - intros it [(sh & -> & Hin)%list_elem_of_fmap|(f & -> & [c Hc]%Hf)%list_elem_of_fmap]%elem_of_app; cbn.
    + rewrite config_data_shard by done. by eexists.
    + rewrite (config_data_file spec f c) by done. by eexists.
  - unfold configItems. rewrite fmap_app, <- !list_fmap_compose. unfold compose. cbn.
    apply NoDup_app. split_and!.
    + change (λ x, shardConfigKey (ss_Index x)) with (shardConfigKey ∘ ss_Index). rewrite list_fmap_compose.
      apply (NoDup_fmap_2 _), Hnd.
    + intros p (sh & -> & _)%list_elem_of_fmap (f & E & _)%list_elem_of_fmap. done.
    + apply NoDup_fmap_2_strong; [|rewrite merge_sort_Permutation; apply NoDup_fst_map_to_list].
      intros f g _ _ E. apply (f_equal bytes_of) in E. rewrite !bytes_of_app in E.
      by apply app_inv_head, bytes_of_inj in E.
  - exists files. split; [done|]. split.
    + intros sh Hin. rewrite <- (config_data_shard spec sh) by done.
      apply (Hfiles (mkKeyToPath (shardConfigKey (ss_Index sh)) (shardConfigKey (ss_Index sh)))).
      apply elem_of_app. left. apply list_elem_of_fmap. by exists sh.
    + intros f c Hc. rewrite <- (config_data_file spec f c) by done.
      apply (Hfiles (mkKeyToPath (scenarioFileKey f) ("scenario/" +:+ f))).
      apply elem_of_app. right. apply list_elem_of_fmap. exists f. split; [done|]. apply Hf. by eexists.
Qed.

Section delivery.
Context (Quote : string → string) (ParseQuantity : string → option string).
Context {K : Type} `{!TypedClient K ConfigMap} `{!TypedClient K StatefulSet} `{!TypedClient K KubeService}.
Context `{!TypedLaws K ConfigMap} `{!TypedLaws K StatefulSet} `{!PodAPI K} `{!PodLaws K}.
Context `{!Apart K ConfigMap StatefulSet} `{!Apart K StatefulSet ConfigMap} `{!Apart K KubeService StatefulSet}.
Context (s : KubeScheduler).
Implicit Types k : KubeState K.
Local Abbreviation sets k := (kept (O := StatefulSet) (ks_kube k)).
Local Abbreviation maps k := (kept (O := ConfigMap) (ks_kube k)).
Local Abbreviation ns := (kb_ns s).

Lemma create_or_update_Ok {O} `{!KubeObject O, !TypedClient K O, !TypedLaws K O} now name (o : O) change (x x' : K) :
  obj_Name o = name → (∀ y, obj_Name (change y) = obj_Name y) →
  create_or_update now ns name o change x = (Ok tt, x') →
  kept x' = <[(ns, name) := match kept x !! (ns, name) with Some old => change old | None => obj_stamp now o end]> (kept x).
Proof using.
  intros Hn Hch. unfold create_or_update, attempt. cbv [mbind M_bind ask].
  destruct (kCreate now ns o x) as [r x1] eqn:Hc. apply k_create in Hc. rewrite Hn in Hc.
  destruct r as [[]|e]; [intros [= <-]; destruct Hc as [-> ->]; done|].
  case_bool_decide as He; [|done]. destruct Hc as [_ Hc]. destruct (Hc He) as [E [old Hold]].
  destruct (kGet ns name x1) as [old'|] eqn:Hg; [|done]. apply k_get in Hg.
  rewrite E, Hold in Hg. injection Hg as <-.
  intros [Hi Hu]%k_update. rewrite Hch, (kept_name _ _ _ _ Hold) in Hu. by rewrite Hu, E, Hold.
Qed.

(** What a deployment that succeeds has written. *)
Lemma deploy_Ok now spec k k' :
  kube_DeployScenario Quote ParseQuantity s now spec k = (Ok tt, k') →
  let nonce := (ks_redeploys k + 1) mod 2 ^ 64 in
  let tpl := pod_template Quote ParseQuantity s (spec_name spec) (deploy_labels spec) (pretty nonce) spec in
  let replicas := int32Bounded (Z.of_nat (length (ds_Shards spec))) in
  ks_redeploys k' = nonce ∧
  (∃ cm, maps k' !! (ns, spec_name spec) = Some cm ∧ cm_Data cm = config_data spec) ∧
  sets k' = <[(ns, spec_name spec) :=
    match sets k !! (ns, spec_name spec) with
    | Some old => mkStatefulSet (sts_Name old) (sts_Labels old) (sts_CreationTimestamp old) (sts_ServiceName old)
                    replicas (sts_Selector old) (sts_PodManagementPolicy old) tpl
    | None => mkStatefulSet (spec_name spec) (deploy_labels spec) now (spec_name spec) replicas
                {[ "app" := spec_name spec ]} "Parallel" tpl
    end]> (sets k).
Proof using TypedLaws0 TypedLaws1 Apart0 Apart1.
  unfold kube_DeployScenario. intros ([] & k1 & Hcm & Hset)%bind_Ok.
  unfold ensureConfigMap, on_kube in Hcm.
  match type of Hcm with context [create_or_update now ns ?n ?o ?c ?x] =>
    assert (Keeps (same_kept StatefulSet) (create_or_update (K := K) now ns n o c)) as Hk
      by (unfold create_or_update; solve_keeps);
    specialize (Hk x); destruct (create_or_update now ns n o c x) as [r x1] eqn:E1 end.
  cbn [snd] in Hk. unfold same_kept in Hk. injection Hcm as -> <-. apply create_or_update_Ok in E1; [|done..].
  unfold ensureStatefulSet in Hset. cbv [mbind M_bind redeployNonce on_kube] in Hset. cbn [ks_kube ks_redeploys] in Hset.
  match type of Hset with context [create_or_update now ns ?n ?o ?c ?x] =>
    assert (Keeps (same_kept ConfigMap) (create_or_update (K := K) now ns n o c)) as Hk2
      by (unfold create_or_update; solve_keeps);
    specialize (Hk2 x); destruct (create_or_update now ns n o c x) as [r2 x2] eqn:E2 end.
  cbn [snd] in Hk2. unfold same_kept in Hk2. injection Hset as -> <-. apply create_or_update_Ok in E2; [|done..].
  cbn [ks_kube ks_redeploys]. split; [done|]. split.
  - rewrite Hk2, E1, lookup_insert_eq. eexists. split; [reflexivity|]. by destruct (maps k !! _).
  - rewrite E2, Hk. done.
Qed.

(** C20. A deployment to Kubernetes delivers: when it succeeds, the StatefulSet
    asks for one pod per shard, and pod [i], which finds its configuration by
    the number at the end of its host name, reads exactly the configuration
    compiled for shard [i]; the scenario's files are under their own names. *)
Theorem deploy_delivers now spec k k' :
  (∀ i sh, ds_Shards spec !! i = Some sh → ss_Index sh = Z.of_nat i) →
  Z.of_nat (length (ds_Shards spec)) <= max_int32 →
  kube_DeployScenario Quote ParseQuantity s now spec k = (Ok tt, k') →
  ∃ cm set files,
    maps k' !! (ns, spec_name spec) = Some cm ∧ cm_Data cm = config_data spec ∧
    sets k' !! (ns, spec_name spec) = Some set ∧ sts_Replicas set = Z.of_nat (length (ds_Shards spec)) ∧
    head (ps_Volumes (pt_Spec (sts_Template set))) =
      Some (mkVolume "config-src" (ConfigMapVolume (cm_Name cm) (configItems spec))) ∧
    project (cm_Data cm) (configItems spec) = Some files ∧
    (∀ i sh, ds_Shards spec !! i = Some sh →
       files !! ("shard-" +:+ after_last_hyphen (pod_hostname (sts_Name set) i) +:+ ".yml") = Some (ss_Config sh)) ∧
    ∀ f c, ds_ScenarioFiles spec !! f = Some c → files !! ("scenario/" +:+ f) = Some c.
Proof using TypedLaws0 TypedLaws1 Apart0 Apart1.
  intros Hidx Hlen Hd. apply deploy_Ok in Hd as (_ & (cm & Hcm & Hdata) & Hsets).
  pose proof (kept_name _ _ _ _ Hcm) as Hcn. cbn in Hcn.
  assert (ss_Index <$> ds_Shards spec = Z.of_nat <$> seq 0 (length (ds_Shards spec))) as Hi.
  { apply list_eq. intros i. rewrite !list_lookup_fmap. destruct (ds_Shards spec !! i) as [sh|] eqn:Hsh.
    - rewrite lookup_seq_lt by (by eapply lookup_lt_Some). cbn. f_equal. by apply Hidx.
    - rewrite lookup_seq_ge; [done|]. by apply lookup_ge_None_1. }
  destruct (config_volume spec) as (files & Hp & Hsh & Hf).
  { rewrite Hi. apply NoDup_fmap_2; [apply _|apply NoDup_seq]. }
  assert (is_Some (sets k' !! (ns, spec_name spec))) as [set Hset] by (rewrite Hsets, lookup_insert_eq; by eexists).
  exists cm, set, files. rewrite Hdata.
  assert (sts_Replicas set = Z.of_nat (length (ds_Shards spec)) ∧
    head (ps_Volumes (pt_Spec (sts_Template set))) =
      Some (mkVolume "config-src" (ConfigMapVolume (spec_name spec) (configItems spec)))) as [Hr Hv].
  { assert (int32Bounded (Z.of_nat (length (ds_Shards spec))) = Z.of_nat (length (ds_Shards spec))) as Hb.
    { unfold int32Bounded. destruct (Z.ltb_spec (Z.of_nat (length (ds_Shards spec))) 0); [lia|].
      destruct (Z.ltb_spec max_int32 (Z.of_nat (length (ds_Shards spec)))); [lia|done]. }
    rewrite Hsets, lookup_insert_eq in Hset. destruct (sets k !! (ns, spec_name spec));
      injection Hset as <-; cbn [sts_Replicas]; by rewrite Hb. }
  rewrite Hcn. split_and!; [done..| |done]. intros i sh Hin. rewrite ordinal_of_hostname, <- (Hidx i sh Hin).
  apply Hsh. by eapply list_elem_of_lookup_2.
Qed.

(** ** Readiness *)
Lemma readyPods_nonce e sc k set pods :
  (∀ n set', sets k !! (ns, n) = Some set' → selects (scenario_selector e sc) (sts_Labels set') = true → set' = set) →
  sets k !! (ns, sts_Name set) = Some set → selects (scenario_selector e sc) (sts_Labels set) = true →
  is_Ok (kList (O := StatefulSet) ns (scenario_selector e sc) (ks_kube k)) = true →
  PodList ns (scenario_selector e sc) (ks_kube k) = Ok pods →
  let nonce := default "" (pt_Annotations (sts_Template set) !! configHashAnnotation) in
  readyPods s e sc k = (Ok (Z.of_nat (length (filter (λ p, counted nonce p = true) pods))), k).
Proof using TypedLaws1.
  intros Hone Hin Hsel Hok Hpods. unfold readyPods, currentRedeployNonce, ask_kube, ask. cbv [mbind M_bind].
  destruct (kList ns _ (ks_kube k)) as [l|] eqn:Hl; [|done]. apply k_list in Hl.
  assert (∀ x, x ∈ l ↔ x = set) as Hm.
  { intros x. rewrite Hl, (listed_set s k). split; [intros [? ?]; eauto|intros ->; done]. }
  destruct l as [|x l]; [by pose proof (proj2 (Hm set) eq_refl) as ?%elem_of_nil|].
  assert (x = set) as -> by (apply Hm; left). cbn. by rewrite Hpods.
Qed.


(** The mark is a count that every process starts from nothing: when another
    process (or the same one after a restart) makes as many deployments and then
    deploys the scenario again, with the same pods but any new configuration,
    the StatefulSet is left exactly as it was, so no pod is replaced. *)
Theorem mark_repeats_across_processes now now' spec spec' k k1 kB k2 :
  kube_DeployScenario Quote ParseQuantity s now spec k = (Ok tt, k1) →
  ks_kube kB = ks_kube k1 → ks_redeploys kB = ks_redeploys k →
  spec_name spec' = spec_name spec → deploy_labels spec' = deploy_labels spec →
  length (ds_Shards spec') = length (ds_Shards spec) →
  podSpec Quote ParseQuantity s spec' (spec_name spec) = podSpec Quote ParseQuantity s spec (spec_name spec) →
  kube_DeployScenario Quote ParseQuantity s now' spec' kB = (Ok tt, k2) →
  sets k2 = sets k1.
Proof using TypedLaws0 TypedLaws1 Apart0 Apart1.
  intros H1 Hk Hc Hn Hl Hlen Hps H2. apply deploy_Ok in H1 as (_ & _ & H1). apply deploy_Ok in H2 as (_ & _ & H2).
  rewrite Hk, Hc, Hn, Hl, Hlen, H1, lookup_insert_eq, insert_insert_eq in H2. rewrite H2, H1. f_equal.
  unfold pod_template in *. rewrite Hps. destruct (sets k !! (ns, spec_name spec)); done.
Qed.

(** ** Logs *)
Lemma HasSuffix_hostname set i j :
  HasSuffix (pod_hostname set i) ("-" +:+ pretty (Z.of_nat j)) = true ↔ i = j.
Proof using.
  assert (∀ p l, has_prefix p l = true ↔ ∃ m, l = p ++ m) as Hpre.
  { induction p as [|a p IH]; intros l; cbn; [split; [by exists l|done]|]. destruct l as [|b l]; cbn.
    - split; [done|]. by intros [m ?].
    - rewrite andb_true_iff, bool_decide_eq_true, IH. split; [intros [-> [m ->]]; by exists m|].
      intros [m [= -> ->]]. split; [done|]. by exists m. }
  unfold HasSuffix. rewrite Hpre. unfold pod_hostname. rewrite !bytes_of_app. split; [|intros ->].
  - intros [m E]. apply (f_equal (@rev ascii)) in E. rewrite rev_involutive, rev_app_distr, rev_involutive in E.
    cbn [app bytes_of Stdlib.Strings.String.list_ascii_of_string] in E.
    apply last_part_inj in E as [_ E]; [|apply pretty_avoids; [lia|done]..].
    apply bytes_of_inj in E. apply (inj pretty) in E. lia.
  - exists (rev (bytes_of set)). by rewrite rev_app_distr.
Qed.
Lemma podlog_of_shard c e sc (j : nat) k name pods :
  PodList ns (scenario_selector e sc) (ks_kube k) = Ok pods →
  (∀ p, p ∈ pods → ∃ i, pod_Name p = pod_hostname name i) →
  kube_PodLog s c e sc (Z.of_nat j) k =
    (if bool_decide (pod_hostname name j ∈ pod_Name <$> pods)
     then PodLogs ns (pod_hostname name j) engineContainer (ks_kube k) else Err ErrEnginesUnreachable, k).
Proof using.
  intros Hp Hnames. unfold kube_PodLog, ask_kube, ask. cbv [mbind M_bind]. rewrite Hp.
  assert (∀ p, p ∈ pods → HasSuffix (pod_Name p) ("-" +:+ pretty (Z.of_nat j)) = true ↔
    pod_Name p = pod_hostname name j) as Hiff.
  { intros p Hin. destruct (Hnames p Hin) as [i ->]. rewrite HasSuffix_hostname. split; [by intros ->|].
    intros E. apply HasSuffix_hostname with (set := name). rewrite E. by apply HasSuffix_hostname. }
  destruct (List.find _ pods) as [p|] eqn:Hf.
  - apply List.find_some in Hf as [Hin Hs]. apply list_elem_of_In in Hin. apply Hiff in Hs; [|done].
    rewrite bool_decide_true by (apply list_elem_of_fmap; eauto). by rewrite Hs.
  - rewrite bool_decide_false; [done|]. intros (p & Hn & Hin)%list_elem_of_fmap.
    apply List.find_none with (x := p) in Hf; [|by apply list_elem_of_In].
    symmetry in Hn. apply Hiff in Hn; [|done]. congruence.
Qed.
End delivery.

(** * A Kubernetes API server in memory

    An instance of the typed clients that keeps their documented promises, so
    the theorems about the adapter can be evaluated; the adapter's properties. *)

Record KubeMem := mkKubeMem {
  mem_maps : gmap (string * string) ConfigMap;
  mem_sets : gmap (string * string) StatefulSet;
  mem_svcs : gmap (string * string) KubeService;
  mem_pods : list (string * Pod);
  mem_nodes : list Node
}.
Definition NewKubeMem : KubeMem := mkKubeMem ∅ ∅ ∅ [] [].

Section mem_client.
Context {O : Type} `{!KubeObject O}.
Context (get : KubeMem → gmap (string * string) O) (put : gmap (string * string) O → KubeMem → KubeMem).
Context (get_put : ∀ m k, get (put m k) = m).

(** An object is stored under its own name. *)
Definition filed (m : gmap (string * string) O) : gmap (string * string) O :=
  filter (λ x, obj_Name x.2 = x.1.2) m.
Definition mem_client : TypedClient KubeMem O := {|
  kCreate now ns o k :=
    match filed (get k) !! (ns, obj_Name o) with
    | Some _ => (Err ErrKubeAlreadyExists, k)
    | None => (Ok tt, put (<[(ns, obj_Name o) := obj_stamp now o]> (get k)) k)
    end;
  kGet ns n k := match filed (get k) !! (ns, n) with Some o => Ok o | None => Err ErrKubeNotFound end;
  kUpdate ns o k :=
    match filed (get k) !! (ns, obj_Name o) with
    | Some _ => (Ok tt, put (<[(ns, obj_Name o) := o]> (get k)) k)
    | None => (Err ErrKubeNotFound, k)
    end;
  kList ns sel k :=
    Ok (map_to_list (filter (λ x, x.1.1 = ns ∧ selects sel (obj_Labels x.2) = true) (filed (get k)))).*2;
  kDelete ns n k :=
    match filed (get k) !! (ns, n) with
    | Some _ => (Ok tt, put (delete (ns, n) (get k)) k)
    | None => (Err ErrKubeNotFound, k)
    end
|}.
Definition mem_laws : TypedLaws (TypedClient0 := mem_client) KubeMem O.
Proof using get_put.
  refine {| kept k := filed (get k) |}.
  - intros k ns n o. unfold filed. by intros [_ ?]%map_lookup_filter_Some.
  - intros now ns o k a k'. cbn. destruct (filed (get k) !! _) eqn:E; intros [= <- <-].
    + split; [by left|]. intros _. split; [done|]. by eexists.
    + split; [done|]. rewrite get_put. unfold filed. by rewrite map_filter_insert_True by apply stamp_Name.
  - intros ns n k o. cbn. destruct (filed (get k) !! _); [by intros [= ->]|done].
  - intros ns o k a k'. cbn. destruct (filed (get k) !! _) eqn:E; intros [= <- <-]; [|by left].
    split; [by eexists|]. rewrite get_put. unfold filed. by rewrite map_filter_insert_True.
  - intros ns sel k l. cbn. by intros [= <-].
  - intros ns n k a k'. cbn. destruct (filed (get k) !! _) eqn:E; intros [= <- <-].
    + rewrite get_put. apply map_filter_delete.
    + split; [by left|]. by intros _.
Defined.
End mem_client.

Definition put_maps m k := mkKubeMem m (mem_sets k) (mem_svcs k) (mem_pods k) (mem_nodes k).
Definition put_sets m k := mkKubeMem (mem_maps k) m (mem_svcs k) (mem_pods k) (mem_nodes k).
Definition put_svcs m k := mkKubeMem (mem_maps k) (mem_sets k) m (mem_pods k) (mem_nodes k).
#[global] Instance mem_maps_client : TypedClient KubeMem ConfigMap := mem_client mem_maps put_maps.
#[global] Instance mem_sets_client : TypedClient KubeMem StatefulSet := mem_client mem_sets put_sets.
#[global] Instance mem_svcs_client : TypedClient KubeMem KubeService := mem_client mem_svcs put_svcs.
#[global] Instance mem_maps_laws : TypedLaws KubeMem ConfigMap := mem_laws mem_maps put_maps (λ _ _, eq_refl).
#[global] Instance mem_sets_laws : TypedLaws KubeMem StatefulSet := mem_laws mem_sets put_sets (λ _ _, eq_refl).
Ltac solve_apart :=
  split; intros; intros k; unfold same_kept, kCreate, kUpdate, kDelete; cbn; by case_match.
#[global] Instance mem_maps_sets : Apart KubeMem ConfigMap StatefulSet.
Proof. solve_apart. Qed.
#[global] Instance mem_sets_maps : Apart KubeMem StatefulSet ConfigMap.
Proof. solve_apart. Qed.
#[global] Instance mem_svcs_sets : Apart KubeMem KubeService StatefulSet.
Proof. solve_apart. Qed.

Definition pod_matches (ns : string) (sel : selector) (x : string * Pod) : Prop :=
  x.1 = ns ∧ selects sel (pod_Labels x.2) = true.
#[global] Instance pod_matches_dec ns sel x : Decision (pod_matches ns sel x).
Proof. unfold pod_matches. apply _. Defined.
#[global] Instance mem_pod_api : PodAPI KubeMem := {|
  PodList ns sel k := Ok (filter (pod_matches ns sel) (mem_pods k)).*2;
  PodDeleteCollection ns sel k :=
    (Ok tt, mkKubeMem (mem_maps k) (mem_sets k) (mem_svcs k)
              (filter (λ x, ¬ pod_matches ns sel x) (mem_pods k)) (mem_nodes k));
  PodLogs ns name container k :=
    if bool_decide ((ns, name) ∈ (λ x, (x.1, pod_Name x.2)) <$> mem_pods k)
    then Ok (name +:+ "/" +:+ container) else Err ErrKubeNotFound;
  NodeList k := Ok (mem_nodes k)
|}.
#[global] Instance mem_pods_laws : PodLaws KubeMem.
Proof. intros ns sel k. done. Qed.

(** What the StatefulSet controller does when it gets to it: the pods of a set
    whose mark is not the template's are replaced. *)
Definition roll_out (ns name : string) (ready : bool) (now : time) (k : KubeMem) : KubeMem :=
  match mem_sets k !! (ns, name) with
  | None => k
  | Some set =>
      let fresh i := mkPod (pod_hostname name i) (pt_Labels (sts_Template set)) (pt_Annotations (sts_Template set))
                       "Running" (if ready then [("Ready", "True")] else []) now in
      let has i := bool_decide (Exists (λ x, x.1 = ns ∧ pod_Name x.2 = pod_hostname name i ∧
                       pod_Annotations x.2 = pt_Annotations (sts_Template set)) (mem_pods k)) in
      let missing := filter (λ i, has i = false) (seq 0 (Z.to_nat (sts_Replicas set))) in
      mkKubeMem (mem_maps k) (mem_sets k) (mem_svcs k)
        (filter (λ x, ¬ (x.1 = ns ∧ pod_Name x.2 ∈ pod_hostname name <$> missing)) (mem_pods k) ++
         ((λ i, (ns, fresh i)) <$> missing)) (mem_nodes k)
  end.

(** ** The properties at work *)
Definition ex_kube : KubeScheduler := NewKube (mkKubeConfig "" 0 "" "honryu/sidecar:1" "http://api/ingest" 0).
Definition ex_spec (e : Z) (config : string) : DeploySpec :=
  mkDeploySpec "" 7 e 3 "honryu/engine-jmeter:5.6.3" "1" "1Gi"
    [mkShardSpec 0 (config +:+ " 0") 5; mkShardSpec 1 (config +:+ " 1") 5] {[ "plan.jmx" := "<plan/>" ]}.
Definition ex_quote (x : string) : string := x.
Definition ex_quantity (x : string) : option string := Some x.
Definition ex_deploy (now : time) (spec : DeploySpec) (k : KubeState KubeMem) : KubeState KubeMem :=
  (kube_DeployScenario ex_quote ex_quantity ex_kube now spec k).2.
Definition ex_k0 : KubeState KubeMem := mkKubeState NewKubeMem 0.
Definition ex_k2 : KubeState KubeMem := ex_deploy 20 (ex_spec 11 "b") (ex_deploy 10 (ex_spec 5 "a") ex_k0).

Lemma ex_owned : owned ex_kube ex_k2.
Proof.
  unfold ex_k2, ex_deploy. apply (deploy_owned ex_quote ex_quantity ex_kube), (deploy_owned ex_quote ex_quantity ex_kube).
  intros n set H. exfalso. revert H.
  cbn. unfold filed. by rewrite map_filter_empty, lookup_empty.
Defined.

(** An operation that answered [Ok a], by its answer alone. *)
Lemma answered {E A S} (p : result E A * S) a : p.1 = Ok a → p = (Ok a, p.2).
Proof. destruct p. by intros [= ->]. Defined.


Lemma deploy_delivers_witness :
  ∃ files, project (config_data (ex_spec 5 "a")) (configItems (ex_spec 5 "a")) = Some files ∧
    files !! "shard-1.yml" = Some "a 1" ∧ files !! "scenario/plan.jmx" = Some "<plan/>".
Proof.
  assert (∀ i sh, ds_Shards (ex_spec 5 "a") !! i = Some sh → ss_Index sh = Z.of_nat i) as Hidx
    by (intros [|[|i]] sh [= <-]; reflexivity).
  assert (Z.of_nat (length (ds_Shards (ex_spec 5 "a"))) <= max_int32) as Hlen by (vm_compute; discriminate).
  assert ((kube_DeployScenario ex_quote ex_quantity ex_kube 10 (ex_spec 5 "a") ex_k0).1 = Ok tt) as Hok
    by (vm_compute; reflexivity).
  destruct (deploy_delivers ex_quote ex_quantity ex_kube 10 (ex_spec 5 "a") ex_k0 _ Hidx Hlen (answered _ _ Hok))
    as (cm & set & files & _ & Hd & _ & _ & _ & Hp & Hs & Hf).
  exists files. rewrite <- Hd. split; [exact Hp|]. split; [|exact (Hf "plan.jmx" "<plan/>" eq_refl)].
  pose proof (Hs 1%nat (mkShardSpec 1 "a 1" 5) eq_refl) as H1. rewrite ordinal_of_hostname in H1. exact H1.
Defined.

(** A second deployment of the same scenario, while the first's pods are still
    there and ready: none of them counts. *)
Definition ex_k1 : KubeState KubeMem :=
  let k := ex_deploy 10 (ex_spec 5 "a") ex_k0 in
  mkKubeState (roll_out "default" "engine-7-5-3" true 15 (ks_kube k)) (ks_redeploys k).
Definition ex_k3 : KubeState KubeMem := ex_deploy 20 (ex_spec 5 "b") ex_k1.
Definition ex_pods : list Pod :=
  match PodList (kb_ns ex_kube) (scenario_selector 5 3) (ks_kube ex_k3) with Ok l => l | Err _ => [] end.

(** A process that has just started deploys the same scenario with a new
    configuration: the pods that ran the old one are reported as the engines of
    the new one. *)
Example restart_keeps_old_pods :
  let k2 := ex_deploy 30 (ex_spec 5 "b") (mkKubeState (ks_kube ex_k1) 0) in
  (λ x, pod_CreationTimestamp x.2) <$> mem_pods (roll_out "default" "engine-7-5-3" true 35 (ks_kube k2)) = [15; 15] ∧
  (kube_ExecutionStatus ex_kube "" 5 [mkScenarioRef 3 2] k2).1 = Ok (mkExecutionStatus [mkReadiness 3 2 2 true] 2).
Proof. vm_compute. split; reflexivity. Qed.
