(* ===== verification/KubeRouter.v ===== *)
(** * Reaching registered clusters ([internal/adapters/scheduler/k8s])

    [kubeconfig.go]: what a kubeconfig must hold to be accepted; [credential.go]:
    the client configuration made from a credential; [prober.go]: the checks a
    cluster passes before it is registered; [factory.go]: the client per cluster,
    cached, and the router that rebuilds it once when it is refused.

    Parameters: the kubeconfig loader and the client constructor of the
    Kubernetes client library, and what the API server answers. *)
From Stdlib Require Import Ascii.
From S2P Require Import Prelude Errors GoStrings GoFloat Cluster ClusterApp Kube KubeFacts.

(** ** Kubeconfigs *)
Record KConfContext := mkKConfContext { kx_Cluster : string; kx_AuthInfo : string }.
Record KConfCluster := mkKConfCluster {
  kcs_Server : string; kcs_CertificateAuthority : string; kcs_CertificateAuthorityData : string
}.
(** [au_Exec] and [au_AuthProvider]: whether there is one. *)
Record KConfUser := mkKConfUser {
  au_Exec : bool; au_AuthProvider : bool; au_TokenFile : string; au_ClientCertificate : string;
  au_ClientKey : string; au_Token : string; au_ClientCertificateData : string; au_ClientKeyData : string
}.
Record KConf := mkKConf {
  kf_CurrentContext : string; kf_Contexts : gmap string KConfContext;
  kf_Clusters : gmap string KConfCluster; kf_AuthInfos : gmap string KConfUser
}.
Definition is_empty (s : string) : bool := bool_decide (s = "").

Section kubeconfig.
Context (clientcmd_Load : string → option KConf).

Definition extract (cluster : KConfCluster) (user : KConfUser) : result error ClusterCredential :=
  if au_Exec user then Err ErrExecAuthUnsupported
  else if au_AuthProvider user then Err ErrAuthProviderUnsupported
  else if negb (is_empty (kcs_CertificateAuthority cluster) && is_empty (au_TokenFile user) &&
                is_empty (au_ClientCertificate user) && is_empty (au_ClientKey user))
  then Err ErrExternalFileReference
  else if is_empty (kcs_Server cluster) then Err ErrNoServer
  else if is_empty (kcs_CertificateAuthorityData cluster) then Err ErrNoCA
  else
    let cred := mkCredential (kcs_Server cluster) (kcs_CertificateAuthorityData cluster) (au_Token user)
                  (au_ClientCertificateData user) (au_ClientKeyData user) in
    if is_empty (cr_Token cred) && (is_empty (cr_ClientCert cred) || is_empty (cr_ClientKey cred))
    then Err ErrNoCredential else Ok cred.
Definition ParseSelfContainedKubeconfig (raw : string) : result error ClusterCredential :=
  match clientcmd_Load raw with
  | None => Err ErrKubeconfigParse
  | Some cfg =>
      if is_empty (kf_CurrentContext cfg) then Err ErrNoCurrentContext
      else match kf_Contexts cfg !! kf_CurrentContext cfg with
           | None => Err ErrContextIncomplete
           | Some kctx =>
               if is_empty (kx_Cluster kctx) || is_empty (kx_AuthInfo kctx) then Err ErrContextIncomplete
               else match kf_Clusters cfg !! kx_Cluster kctx, kf_AuthInfos cfg !! kx_AuthInfo kctx with
                    | Some cluster, Some user => extract cluster user
                    | _, _ => Err ErrContextIncomplete
                    end
           end
  end.

(** What a credential can authenticate with. *)
Definition authenticates (cred : ClusterCredential) : Prop :=
  cr_Token cred ≠ "" ∨ cr_ClientCert cred ≠ "" ∧ cr_ClientKey cred ≠ "".

(** A kubeconfig is accepted exactly when its current context names a cluster
    and a user that are there, the user authenticates by embedded material
    alone, nothing refers to a file, and the server and its CA are given; the
    credential is that material. *)
Lemma kubeconfig_accepted raw cred :
  ParseSelfContainedKubeconfig raw = Ok cred ↔
  ∃ cfg kctx cluster user, clientcmd_Load raw = Some cfg ∧ kf_CurrentContext cfg ≠ "" ∧
    kf_Contexts cfg !! kf_CurrentContext cfg = Some kctx ∧ kx_Cluster kctx ≠ "" ∧ kx_AuthInfo kctx ≠ "" ∧
    kf_Clusters cfg !! kx_Cluster kctx = Some cluster ∧ kf_AuthInfos cfg !! kx_AuthInfo kctx = Some user ∧
    au_Exec user = false ∧ au_AuthProvider user = false ∧
    (kcs_CertificateAuthority cluster = "" ∧ au_TokenFile user = "" ∧ au_ClientCertificate user = "" ∧
     au_ClientKey user = "") ∧
    cred = mkCredential (kcs_Server cluster) (kcs_CertificateAuthorityData cluster) (au_Token user)
             (au_ClientCertificateData user) (au_ClientKeyData user) ∧
    cr_APIURL cred ≠ "" ∧ cr_CACert cred ≠ "" ∧ authenticates cred.
Proof using.
  unfold ParseSelfContainedKubeconfig, extract, is_empty, authenticates. split.
  - intros H. destruct (clientcmd_Load raw) as [cfg|]; [|done]. case_bool_decide as H1; [done|].
    destruct (kf_Contexts cfg !! _) as [kctx|] eqn:H2; [|done].
    case_bool_decide as H3; [done|]. case_bool_decide as H4; [done|]. cbn [orb] in H.
    destruct (kf_Clusters cfg !! _) as [cluster|] eqn:H5; [|done].
    destruct (kf_AuthInfos cfg !! _) as [user|] eqn:H6; [|done].
    destruct (au_Exec user) eqn:H7; [done|]. destruct (au_AuthProvider user) eqn:H8; [done|].
    do 4 (case_bool_decide; [|done]). cbn [andb negb] in H. do 2 (case_bool_decide; [done|]). cbn in H.
    exists cfg, kctx, cluster, user. destruct (bool_decide_reflect (au_Token user = "")); cbn [andb] in H.
    + do 2 (case_bool_decide; [done|]). cbn in H. injection H as <-. split_and!; auto.
    + injection H as <-. split_and!; auto.
  - intros (cfg & kctx & cluster & user & -> & H1 & H2 & H3 & H4 & H5 & H6 & H7 & H8 & (H9 & H10 & H11 & H12) & -> & H13 & H14 & H15).
    rewrite (bool_decide_false _ H1), H2, (bool_decide_false _ H3), (bool_decide_false _ H4), H5, H6, H7, H8.
    rewrite !bool_decide_true by done. cbn in *. rewrite (bool_decide_false _ H13), (bool_decide_false _ H14).
    cbn. destruct H15 as [Ht|[Hc Hk]]; [by rewrite (bool_decide_false _ Ht)|].
    rewrite (bool_decide_false _ Hc), (bool_decide_false _ Hk). by rewrite andb_false_r.
Qed.
End kubeconfig.

(** ** Client configurations *)
Record RestConfig := mkRestConfig {
  rc_Host : string; rc_CAData : string; rc_BearerToken : string; rc_CertData : string; rc_KeyData : string
}.
Definition RestConfigFromCredential (cred : ClusterCredential) : result error RestConfig :=
  if is_empty (cr_APIURL cred) then Err ErrCredentialIncomplete
  else if negb (is_empty (cr_Token cred))
  then Ok (mkRestConfig (cr_APIURL cred) (cr_CACert cred) (cr_Token cred) "" "")
  else if negb (is_empty (cr_ClientCert cred)) && negb (is_empty (cr_ClientKey cred))
  then Ok (mkRestConfig (cr_APIURL cred) (cr_CACert cred) "" (cr_ClientCert cred) (cr_ClientKey cred))
  else Err ErrNoCredential.
Definition RestConfigFromSecret {X} `{!SecretsAPI X} (secretName : string) (x : X) : result error RestConfig :=
  cred ← ReadCredential secretName x; RestConfigFromCredential cred.

(** A credential taken from a kubeconfig always gives a client configuration,
    also after it has been through its Secret. *)
Lemma accepted_connects Load raw cred :
  ParseSelfContainedKubeconfig Load raw = Ok cred →
  is_Ok (RestConfigFromCredential (credential_of (credentialToData cred))) = true.
Proof.
  rewrite credential_round_trip. intros (cfg & kctx & cl & u & _ & _ & _ & _ & _ & _ & _ & _ & _ & _ & _ & Hu & _ & Ha)%kubeconfig_accepted.
  unfold RestConfigFromCredential, is_empty. rewrite (bool_decide_false _ Hu).
  destruct Ha as [Ht|[Hc Hk]]; [by rewrite (bool_decide_false _ Ht)|].
  destruct (bool_decide (cr_Token cred = "")); [|done].
  by rewrite (bool_decide_false _ Hc), (bool_decide_false _ Hk).
Qed.

(** ** Probing *)
Definition ProbeUnreachable : string := "unreachable".
Definition ProbeUnauthorized : string := "unauthorized".
Definition ProbeUnderPrivileged : string := "under_privileged".
Record accessCheck := mkAccessCheck { ac_verb : string; ac_group : string; ac_resource : string; ac_subresource : string }.
Definition leastPrivilegeChecks : list accessCheck :=
  [mkAccessCheck "create" "apps" "statefulsets" ""; mkAccessCheck "list" "apps" "statefulsets" "";
   mkAccessCheck "create" "" "configmaps" ""; mkAccessCheck "list" "" "configmaps" "";
   mkAccessCheck "list" "" "pods" ""; mkAccessCheck "get" "" "pods" "log"].
Definition classifyServerError (err : error) : error :=
  if bool_decide (err = ErrKubeUnauthorized) then ProbeError ProbeUnauthorized
  else if bool_decide (err = ErrKubeForbidden) then ProbeError ProbeUnderPrivileged
  else ProbeError ProbeUnreachable.

Section prober.
(** A client: what discovery and an access review answer. *)
Context {L : Type} (NewForConfig : RestConfig → result error L).
Context (ServerVersion : L → result error unit) (AccessReview : L → string → accessCheck → result error bool).

Fixpoint run_checks (client : L) (namespace : string) (checks : list accessCheck) : result error unit :=
  match checks with
  | [] => Ok tt
  | c :: rest =>
      match AccessReview client namespace c with
      | Err e => Err (classifyServerError e)
      | Ok false => Err (ProbeError ProbeUnderPrivileged)
      | Ok true => run_checks client namespace rest
      end
  end.
Definition probeClient (client : L) (namespace : string) : result error unit :=
  match ServerVersion client with
  | Err e => Err (classifyServerError e)
  | Ok _ => run_checks client namespace leastPrivilegeChecks
  end.
Definition Prober_Probe (cred : ClusterCredential) (namespace : string) : result error unit :=
  match RestConfigFromCredential cred with
  | Err _ => Err (ProbeError ProbeUnreachable)
  | Ok cfg =>
      match NewForConfig cfg with
      | Err _ => Err (ProbeError ProbeUnreachable)
      | Ok client => probeClient client namespace
      end
  end.

(** A probe passes exactly when the cluster answers and grants every one of the
    checked permissions; whatever else happens is one of three kinds. *)
Lemma probe_exact cred namespace :
  match Prober_Probe cred namespace with
  | Ok _ => ∃ cfg client, RestConfigFromCredential cred = Ok cfg ∧ NewForConfig cfg = Ok client ∧
      ServerVersion client = Ok tt ∧
      Forall (λ c, AccessReview client namespace c = Ok true) leastPrivilegeChecks
  | Err e => e = ProbeError ProbeUnreachable ∨ e = ProbeError ProbeUnauthorized ∨ e = ProbeError ProbeUnderPrivileged
  end.
Proof using.
  assert (∀ e, classifyServerError e = ProbeError ProbeUnreachable ∨ classifyServerError e = ProbeError ProbeUnauthorized ∨
    classifyServerError e = ProbeError ProbeUnderPrivileged) as Hcl
    by (intros e; unfold classifyServerError; repeat case_bool_decide; auto).
  unfold Prober_Probe, probeClient. destruct (RestConfigFromCredential cred) as [cfg|]; [|by left].
  destruct (NewForConfig cfg) as [client|] eqn:Hn; [|by left].
  destruct (ServerVersion client) as [[]|e] eqn:Hv; [|by apply Hcl].
  generalize leastPrivilegeChecks. intros l. assert (match run_checks client namespace l with
    | Ok _ => Forall (λ c, AccessReview client namespace c = Ok true) l
    | Err e => e = ProbeError ProbeUnreachable ∨ e = ProbeError ProbeUnauthorized ∨ e = ProbeError ProbeUnderPrivileged
    end) as Hl; [|destruct (run_checks _ _ _); [by eexists _, _|done]].
  induction l as [|c l IH]; cbn; [done|]. destruct (AccessReview client namespace c) as [[]|e] eqn:Hc; [|auto|apply Hcl].
  destruct (run_checks client namespace l); [by constructor|done].
Qed.
End prober.

(** ** The client factory and the router *)

(** A client is the typed clients it offers over the state [N] of all clusters
    it could talk to; a refused credential answers [ErrKubeUnauthorized]. *)
Record KubeClient (N : Type) := mkKubeClient {
  kcl_maps : TypedClient N ConfigMap; kcl_sets : TypedClient N StatefulSet;
  kcl_svcs : TypedClient N KubeService; kcl_pods : PodAPI N
}.
Arguments mkKubeClient {N}.
Arguments kcl_maps {N}.
Arguments kcl_sets {N}.
Arguments kcl_svcs {N}.
Arguments kcl_pods {N}.
Record Resolved (N : Type) := mkResolved {
  res_client : KubeClient N; res_namespace : string; res_sidecarImage : string; res_ingestURL : string
}.
Arguments mkResolved {N}.
Arguments res_client {N}.
Arguments res_namespace {N}.
Arguments res_sidecarImage {N}.
Arguments res_ingestURL {N}.
(** The registry, the home cluster's Secrets, the clusters with the process's
    count of deployments, and the cache. *)
Record RouterState (R X N : Type) := mkRouterState {
  rt_registry : R; rt_secrets : X; rt_kube : KubeState N; rt_cache : gmap string (Resolved N)
}.
Arguments mkRouterState {R X N}.
Arguments rt_registry {R X N}.
Arguments rt_secrets {R X N}.
Arguments rt_kube {R X N}.
Arguments rt_cache {R X N}.

Section router.
Context {R X N : Type} `{!ClusterRegistry R} `{!SecretsAPI X}.
Context (build : RestConfig → result error (KubeClient N)) (def : Resolved N) (cfg : KubeConfig).
Context (Quote : string → string) (ParseQuantity : string → option string).
Local Abbreviation RS := (RouterState R X N).

Definition set_cache (c : gmap string (Resolved N)) (r : RS) : RS :=
  mkRouterState (rt_registry r) (rt_secrets r) (rt_kube r) c.
Definition rebuild (ref : string) (r : RS) : result error (Resolved N) :=
  entry ← GetCluster ref (rt_registry r);
  rest ← RestConfigFromSecret (cl_SecretRef entry) (rt_secrets r);
  client ← build rest;
  Ok (mkResolved client (cl_Namespace entry) (cl_SidecarImage entry) (cl_IngestURL entry)).
Definition Resolve (ref : string) : M RS error (Resolved N) := λ r,
  if IsDefaultName ref then (Ok def, r)
  else match rt_cache r !! ref with
       | Some x => (Ok x, r)
       | None =>
           match rebuild ref r with
           | Err e => (Err e, r)
           | Ok x => (Ok x, set_cache (<[ref := x]> (rt_cache r)) r)
           end
       end.
Definition ClientOf (ref : string) : M RS error (KubeClient N) :=
  r ← Resolve ref; mret (res_client r).
Definition Invalidate (ref : string) : M RS error unit :=
  modify (λ r, set_cache (delete ref (rt_cache r)) r).

Definition bind_scheduler (res : Resolved N) : KubeScheduler :=
  NewKube (mkKubeConfig (res_namespace res) (kc_EnginePort cfg) (kc_PoolLabel cfg) (res_sidecarImage res)
             (res_ingestURL res) (kc_TerminationGrace cfg)).
Definition bound (cluster : string) : M RS error (KubeClient N * KubeScheduler) :=
  res ← Resolve cluster; mret (res_client res, bind_scheduler res).
Definition on_clusters {A} (m : M (KubeState N) error A) : M RS error A := λ r,
  let '(a, k) := m (rt_kube r) in (a, mkRouterState (rt_registry r) (rt_secrets r) k (rt_cache r)).

(** An operation of a scheduler bound to a client. *)
Definition bound_op (A : Type) : Type := KubeClient N → KubeScheduler → M (KubeState N) error A.
Definition routed {A} (cluster : string) (fn : bound_op A) : M RS error A :=
  b ← bound cluster;
  out ← attempt (on_clusters (fn b.1 b.2));
  match out with
  | Err e =>
      if bool_decide (e = ErrKubeUnauthorized) then
        _ ← Invalidate cluster;
        b ← bound cluster;
        on_clusters (fn b.1 b.2)
      else throw e
  | Ok a => mret a
  end.

Definition router_DeployScenario (now : time) (spec : DeploySpec) : M RS error unit :=
  routed (ds_Cluster spec) (λ c s,
    kube_DeployScenario Quote ParseQuantity (TypedClient0 := kcl_maps c) (TypedClient1 := kcl_sets c) s now spec).
Definition router_ExecutionStatus (cluster : string) (e : Z) (plans : list ScenarioRef) : M RS error ExecutionStatus :=
  routed cluster (λ c s, kube_ExecutionStatus (TypedClient1 := kcl_sets c) (PodAPI0 := kcl_pods c) s cluster e plans).
Definition router_EngineDetail (cluster : string) (p e : Z) : M RS error ExecutionDetail :=
  routed cluster (λ c s, kube_EngineDetail (PodAPI0 := kcl_pods c) s cluster p e).
Definition router_PurgeExecution (cluster : string) (e : Z) : M RS error unit :=
  routed cluster (λ c s, kube_PurgeExecution (TypedClient1 := kcl_sets c) (TypedClient2 := kcl_svcs c)
                           (PodAPI0 := kcl_pods c) s cluster e).
Definition router_PodLog (cluster : string) (e sc shard : Z) : M RS error string :=
  routed cluster (λ c s, kube_PodLog (PodAPI0 := kcl_pods c) s cluster e sc shard).
Definition router_DeployedExecutions (cluster : string) : M RS error (gmap Z time) :=
  routed cluster (λ c s, kube_DeployedExecutions (TypedClient1 := kcl_sets c) s cluster).
Definition router_NodePools (cluster : string) : M RS error (list NodePool) :=
  routed cluster (λ c s, kube_NodePools (PodAPI0 := kcl_pods c) s cluster).

#[global] Instance router_scheduler : Scheduler RS := {
  DeployScenario := router_DeployScenario;
  ExecutionStatusOf := router_ExecutionStatus;
  EngineDetailOf := router_EngineDetail;
  PurgeExecution := router_PurgeExecution;
  PodLog := router_PodLog;
  DeployedExecutions := router_DeployedExecutions
}.

(** ** What routing guarantees *)

(** The client and settings a call uses, and the cache it leaves. *)
Definition uses (ref : string) (r : RS) (x : Resolved N) (cache : gmap string (Resolved N)) : Prop :=
  if IsDefaultName ref then x = def ∧ cache = rt_cache r
  else match rt_cache r !! ref with
       | Some y => x = y ∧ cache = rt_cache r
       | None => rebuild ref r = Ok x ∧ cache = <[ref := x]> (rt_cache r)
       end.
Lemma Resolve_uses ref r :
  match Resolve ref r with
  | (Ok x, r') => ∃ cache, uses ref r x cache ∧ r' = set_cache cache r
  | (Err e, r') => r' = r ∧ IsDefaultName ref = false ∧ rt_cache r !! ref = None ∧ rebuild ref r = Err e
  end.
Proof using.
  unfold Resolve, uses. destruct (IsDefaultName ref); [by exists (rt_cache r); destruct r|].
  destruct (rt_cache r !! ref) as [y|]; [by exists (rt_cache r); destruct r|].
  destruct (rebuild ref r) as [x|e]; [by eexists|done].
Qed.

(** Any answer but a refused credential is the answer of a single attempt. *)
Lemma routed_once {A} ref (fn : bound_op A) r x cache a k :
  uses ref r x cache → fn (res_client x) (bind_scheduler x) (rt_kube r) = (a, k) → a ≠ Err ErrKubeUnauthorized →
  routed ref fn r = (a, mkRouterState (rt_registry r) (rt_secrets r) k cache).
Proof using.
  clear Quote ParseQuantity. intros Hu Hf Ha. pose proof (Resolve_uses ref r) as Hr. unfold routed, bound, on_clusters, attempt.
  cbv [mbind M_bind mret M_ret]. destruct (Resolve ref r) as [[y|e] r'] eqn:E.
  - destruct Hr as (c2 & Hu2 & ->). assert (y = x ∧ c2 = cache) as [-> ->].
    { unfold uses in *. destruct (IsDefaultName ref); [naive_solver|]. destruct (rt_cache r !! ref); [naive_solver|].
      destruct Hu as [Hb ->], Hu2 as [Hb2 ->]. rewrite Hb in Hb2. by injection Hb2 as ->. }
    cbn [fst snd set_cache rt_kube rt_registry rt_secrets rt_cache]. rewrite Hf.
    destruct a as [a|e]; [done|]. rewrite bool_decide_false by congruence. done.
  - exfalso. destruct Hr as (_ & H1 & H2 & H3). unfold uses in Hu. rewrite H1, H2, H3 in Hu. by destruct Hu.
Qed.

(** C27. Routing to a cluster costs one attempt unless its credential is
    refused: any other answer, error included, is returned from a single
    attempt.  A refused credential is read again from its Secret, once: the
    second attempt runs, from where the first left the cluster, on the rebuilt
    client with the entry's present settings, which replaces the refused one in
    the cache; when it cannot be rebuilt that error is returned and the refused
    client is gone from the cache. *)
Theorem routed_exact {A} ref (fn : bound_op A) r x cache a k1 :
  uses ref r x cache → fn (res_client x) (bind_scheduler x) (rt_kube r) = (a, k1) →
  let after k cache := mkRouterState (rt_registry r) (rt_secrets r) k cache in
  (a ≠ Err ErrKubeUnauthorized → routed ref fn r = (a, after k1 cache)) ∧
  (a = Err ErrKubeUnauthorized → IsDefaultName ref = false →
   match rebuild ref r with
   | Ok y => routed ref fn r =
       ((fn (res_client y) (bind_scheduler y) k1).1,
        after (fn (res_client y) (bind_scheduler y) k1).2 (<[ref := y]> cache))
   | Err e => routed ref fn r = (Err e, after k1 (delete ref cache))
   end).
Proof using.
  clear Quote ParseQuantity. intros Hu Hf. split; [intros Ha; by apply (routed_once ref fn r x cache a k1)|]. intros -> Hd.
  assert (Resolve ref r = (Ok x, set_cache cache r)) as E.
  { unfold Resolve. unfold uses in Hu. rewrite Hd in Hu |- *. destruct (rt_cache r !! ref).
    - destruct Hu as [-> ->]. by destruct r.
    - by destruct Hu as [-> ->]. }
  assert (routed ref fn r = (b ← bound ref; on_clusters (fn b.1 b.2))
    (mkRouterState (rt_registry r) (rt_secrets r) k1 (delete ref cache))) as ->.
  { unfold routed, bound, attempt. cbv [mbind M_bind mret M_ret]. rewrite E. unfold on_clusters.
    cbn [fst snd set_cache rt_kube rt_registry rt_secrets rt_cache]. rewrite Hf. by rewrite bool_decide_true. }
  unfold bound, Resolve. cbv [mbind M_bind mret M_ret]. rewrite Hd. cbn [rt_cache]. rewrite lookup_delete_eq.
  assert (∀ k c, rebuild ref (mkRouterState (rt_registry r) (rt_secrets r) k c) = rebuild ref r) as -> by done.
  destruct (rebuild ref r) as [y|e]; [|done]. unfold on_clusters, set_cache. cbn. rewrite insert_delete_eq.
  by destruct (fn _ _ k1).
Qed.

(** Only a refused credential refreshes what is cached: while the client still
    authenticates, an entry that has been updated, removed or registered anew
    since goes on being served with its old namespace, image and addresses. *)
Theorem cache_hides_registry {A} ref (fn : bound_op A) (r : RS) x reg a k :
  IsDefaultName ref = false → rt_cache r !! ref = Some x →
  fn (res_client x) (bind_scheduler x) (rt_kube r) = (a, k) → a ≠ Err ErrKubeUnauthorized →
  routed ref fn (mkRouterState reg (rt_secrets r) (rt_kube r) (rt_cache r)) =
    (a, mkRouterState reg (rt_secrets r) k (rt_cache r)).
Proof using.
  clear Quote ParseQuantity. intros Hd Hc Hf Ha.
  apply (routed_once ref fn (mkRouterState reg (rt_secrets r) (rt_kube r) (rt_cache r)) x (rt_cache r) a k); [|done..].
  unfold uses. cbn. by rewrite Hd, Hc.
Qed.
End router.

(** ** A rotated credential *)
Definition mem_kube_client (token : string) (valid : string) : KubeClient KubeMem :=
  let auth {A} (m : M KubeMem error A) : M KubeMem error A :=
    if bool_decide (token = valid) then m else throw ErrKubeUnauthorized in
  let read {A} (f : KubeMem → result error A) : KubeMem → result error A :=
    if bool_decide (token = valid) then f else (λ _, Err ErrKubeUnauthorized) in
  let guarded {O} (c : TypedClient KubeMem O) : TypedClient KubeMem O := {|
    kCreate now ns o := auth (kCreate now ns o); kGet ns n := read (kGet ns n);
    kUpdate ns o := auth (kUpdate ns o); kList ns sel := read (kList ns sel);
    kDelete ns n := auth (kDelete ns n) |} in
  mkKubeClient (guarded mem_maps_client) (guarded mem_sets_client) (guarded mem_svcs_client)
    {| PodList ns sel := read (PodList ns sel); PodDeleteCollection ns sel := auth (PodDeleteCollection ns sel);
       PodLogs ns n c := read (PodLogs ns n c); NodeList := read NodeList |}.

Definition ex_entry : ClusterApp.Cluster :=
  ClusterApp.mkCluster "eu" "https://eu" "ca" "http://ingest" "sidecar:2" "honryu-eu" "honryu-cluster-eu" "" OriginBYOC "" "" "" 0.
Definition ex_build (rest : RestConfig) : result error (KubeClient KubeMem) := Ok (mem_kube_client (rc_BearerToken rest) "new").
Definition ex_def : Resolved KubeMem := mkResolved (mem_kube_client "" "") "" "" "".
Definition ex_stale : Resolved KubeMem := mkResolved (mem_kube_client "old" "new") "honryu-eu" "sidecar:2" "http://ingest".
Definition ex_router : RouterState ClusterTable KubeSecrets KubeMem :=
  mkRouterState (mkClusterTable {[ "eu" := ex_entry ]} ∅)
    {[ "honryu-cluster-eu" := mkSecret ∅ (credentialToData (mkCredential "https://eu" "ca" "new" "" "")) ]}
    (mkKubeState NewKubeMem 0) {[ "eu" := ex_stale ]}.
Definition ex_list : bound_op (N := KubeMem) (gmap Z time) :=
  λ c s, kube_DeployedExecutions (TypedClient1 := kcl_sets c) s "eu".
Definition ex_cfg : KubeConfig := mkKubeConfig "" 0 "" "" "" 0.

Lemma routed_exact_witness :
  (routed ex_build ex_def ex_cfg "eu" ex_list ex_router).1 = Ok ∅ ∧
  IsDefaultName "eu" = false.
Proof.
  assert (IsDefaultName "eu" = false) as Hd by (vm_compute; reflexivity).
  assert (uses ex_build ex_def "eu" ex_router ex_stale (rt_cache ex_router)) as Hu.
  { unfold uses. rewrite Hd. cbn [ex_router rt_cache]. rewrite lookup_singleton_eq. split; reflexivity. }
  assert (ex_list (res_client ex_stale) (bind_scheduler ex_cfg ex_stale) (rt_kube ex_router) =
    (Err ErrKubeUnauthorized, rt_kube ex_router)) as Hf by (vm_compute; reflexivity).
  destruct (routed_exact ex_build ex_def ex_cfg "eu" ex_list ex_router ex_stale _ _ _ Hu Hf) as [_ Hr].
  specialize (Hr eq_refl Hd). split; [|exact Hd].
  assert (GetCluster "eu" (rt_registry ex_router) = Ok ex_entry) as E1 by (vm_compute; reflexivity).
  assert (RestConfigFromSecret (cl_SecretRef ex_entry) (rt_secrets ex_router) =
    Ok (mkRestConfig "https://eu" "ca" "new" "" "")) as E2 by (vm_compute; reflexivity).
  assert (rebuild ex_build "eu" ex_router =
    Ok (mkResolved (mem_kube_client "new" "new") "honryu-eu" "sidecar:2" "http://ingest")) as E.
  { unfold rebuild. cbv [mbind result_bind]. rewrite E1, E2. reflexivity. }
  rewrite E in Hr. rewrite Hr. cbn [fst]. vm_compute. reflexivity.
Defined.
