(* ===== verification/ProjectApp.v ===== *)
(** * Projects and their dashboard ([internal/app/projectapp], [internal/domain/report/trend.go])

    The project use-cases, the run-over-run trend of an execution with its
    regression flags, and the summary a project's dashboard reads, which is
    composed from the trends of the project's executions. *)
From S2P Require Import Prelude Errors GoFloat Taurus Scenario Execution Report Store MetricsApp.
Import Project Scenario.Scenario.

(** ** The trend *)
Record TrendPoint := mkTrendPoint {
  tp_RunID : Z; tp_StartedAt : time; tp_Outcome : Outcome;
  tp_AchievedThroughput : float64; tp_RequestedThroughput : float64; tp_ErrorRate : float64;
  tp_P50 : float64; tp_P90 : float64; tp_P95 : float64; tp_P99 : float64;
  tp_HitTargetQPS : bool; tp_HasComparablePredecessor : bool; tp_Regressed : bool
}.
Record Trend := mkTrend { tr_ExecutionID : Z; tr_Points : list TrendPoint }.

Definition Comparable (a b : Report) : bool :=
  (rep_ExecutionID a =? rep_ExecutionID b) &&
  bool_decide (rep_Engine a = rep_Engine b) &&
  bool_decide (rep_Cluster a = rep_Cluster b) &&
  (ld_Concurrency (rep_Requested a) =? ld_Concurrency (rep_Requested b)) &&
  SFeqb (ld_Throughput (rep_Requested a)) (ld_Throughput (rep_Requested b)) &&
  (ld_DurationSeconds (rep_Requested a) =? ld_DurationSeconds (rep_Requested b)).

Definition latency_at (p : Z) (r : Report) : float64 := default fzero (rep_Latency r !! of_int p).

(** The nearest comparable predecessor is the first one in the rest of the
    list. *)
Definition trend_point (r : Report) (rest : list Report) : TrendPoint :=
  let hit := negb (ShortOfRequest r) in
  let baseline := List.find (Comparable r) rest in
  mkTrendPoint (rep_RunID r) (rep_StartedAt r) (rep_Outcome r)
    (ld_Throughput (rep_Achieved r)) (ld_Throughput (rep_Requested r)) (rep_ErrorRate r)
    (latency_at 50 r) (latency_at 90 r) (latency_at 95 r) (latency_at 99 r) hit
    (match baseline with Some _ => true | None => false end)
    (match baseline with Some other => negb hit && negb (ShortOfRequest other) | None => false end).
Fixpoint trend_points (reports : list Report) : list TrendPoint :=
  match reports with
  | [] => []
  | r :: rest => trend_point r rest :: trend_points rest
  end.
Definition BuildTrend (reports : list Report) : Trend :=
  mkTrend (match reports with [] => 0 | r :: _ => rep_ExecutionID r end) (trend_points reports).

(** ** The service *)
Definition Project_List (owners : list string) (s : Store) : list Project := ListProjectsByOwners owners s.
Definition Project_ListAll (s : Store) : list Project := all_projects s.
Definition Project_ListByTenants (tenantIDs : list Z) (s : Store) : list Project :=
  ListProjectsByTenants tenantIDs s.
Definition Project_Get (id : Z) : M Store error Project := ask (GetProject id).

Definition prj_in_tenant (tenantID : option Z) (p : Project) : Project :=
  mkProject (prj_ID p) (prj_Name p) (prj_Owner p) (prj_SID p) tenantID (prj_CreatedBy p)
    (prj_UpdatedBy p) (prj_CreatedTime p).
Definition prj_with_ID (id : Z) (p : Project) : Project :=
  mkProject id (prj_Name p) (prj_Owner p) (prj_SID p) (prj_TenantID p) (prj_CreatedBy p)
    (prj_UpdatedBy p) (prj_CreatedTime p).
Definition create_project (now : time) (p : Project) : M Store error Z := λ s,
  let '(id, s') := CreateProject now p s in (Ok id, s').
Definition CreateInTenant (now : time) (name owner sid : string) (tenantID : option Z) :
    M Store error Project :=
  p ← lift (Project.New name owner sid);
  let p := prj_in_tenant tenantID p in
  id ← create_project now p;
  mret (prj_with_ID id p).
Definition Project_Create (now : time) (name owner sid : string) : M Store error Project :=
  CreateInTenant now name owner sid None.
Definition Project_Delete (id : Z) : M Store error unit :=
  _ ← ask (GetProject id);
  scenarios ← gets (ListScenariosByProject id);
  _ ← guard (negb (bool_decide (scenarios = []))) ErrProjectHasScenarios;
  executions ← gets (ListExecutionsByProject id);
  _ ← guard (negb (bool_decide (executions = []))) ErrProjectHasExecutions;
  DeleteProject id.

(** ** The summary *)
Definition DefaultSummarySeries : Z := 20.
Definition MaxSummarySeries : Z := 100.
Record ThroughputPoint := mkThroughputPoint {
  th_RunID : Z; th_StartedAt : time; th_AchievedThroughput : float64; th_RequestedThroughput : float64;
  th_Regressed : bool
}.
Record LastRun := mkLastRun { la_RunID : Z; la_Outcome : Outcome; la_StartedAt : time }.
Record Summary := mkSummary {
  su_ProjectID : Z; su_TotalExecutions : Z; su_LastExecutionTime : time; su_ScenarioCount : Z;
  su_TemplateCount : Z; su_RegressedCount : Z; su_LastRun : option LastRun;
  su_ThroughputSeries : list ThroughputPoint
}.

Definition latest_time (execs : list Execution) : time :=
  fold_left (λ t exe, if After (exe_CreatedTime exe) t then exe_CreatedTime exe else t) execs time_zero.

(** What the loop over the executions has gathered. *)
Record gathered := mkGathered { ga_regressed : gset Z; ga_count : Z; ga_all : list Report }.
Definition gather (rs : ReportStore) (g : gathered) (exe : Execution) : gathered :=
  let reps := merge_sort report_le (ListReports (exe_ID exe) 0 rs) in
  let bad := filter (λ p, tp_Regressed p = true) (tr_Points (BuildTrend reps)) in
  mkGathered (ga_regressed g ∪ list_to_set (tp_RunID <$> bad)) (ga_count g + Z.of_nat (length bad))
    (ga_all g ++ reps).

Definition chrono_le (a b : Report) : Prop :=
  rep_StartedAt a < rep_StartedAt b ∨ rep_StartedAt a = rep_StartedAt b ∧ rep_RunID a <= rep_RunID b.
#[global] Instance chrono_le_dec a b : Decision (chrono_le a b).
Proof. unfold chrono_le. apply _. Defined.

Definition series_limit (limit : Z) : Z :=
  let limit := if limit <=? 0 then DefaultSummarySeries else limit in
  if MaxSummarySeries <? limit then MaxSummarySeries else limit.
Definition throughput_point (regressed : gset Z) (rep : Report) : ThroughputPoint :=
  mkThroughputPoint (rep_RunID rep) (rep_StartedAt rep) (ld_Throughput (rep_Achieved rep))
    (ld_Throughput (rep_Requested rep)) (bool_decide (rep_RunID rep ∈ regressed)).

(** [reports]: the report store, when one is wired. *)
Definition Project_Summary (reports : option ReportStore) (projectID seriesLimit : Z) (s : Store) :
    result error Summary :=
  match GetProject projectID s with
  | Err e => Err e
  | Ok _ =>
      let scenarioCount := Z.of_nat (length (filter (λ sc, scn_IsTemplate sc = false)
                                              (ListScenariosByProject projectID s))) in
      let templateCount := Z.of_nat (length (ListTemplates s)) in
      let execs := ListExecutionsByProject projectID s in
      let out := mkSummary projectID (Z.of_nat (length execs)) (latest_time execs) scenarioCount templateCount in
      match reports with
      | None => Ok (out 0 None [])
      | Some rs =>
          let g := fold_left (gather rs) execs (mkGathered ∅ 0 []) in
          let all := merge_sort chrono_le (ga_all g) in
          match last all with
          | None => Ok (out (ga_count g) None [])
          | Some newest =>
              let limit := series_limit seriesLimit in
              let start := if limit <? Z.of_nat (length all) then Z.of_nat (length all) - limit else 0 in
              Ok (out (ga_count g)
                    (Some (mkLastRun (rep_RunID newest) (rep_Outcome newest) (rep_StartedAt newest)))
                    (throughput_point (ga_regressed g) <$> drop (Z.to_nat start) all))
          end
      end
  end.

(** ** The trend, exactly *)
Lemma find_first {A} (f : A → bool) l x :
  List.find f l = Some x ↔
  ∃ j, l !! j = Some x ∧ f x = true ∧ ∀ k y, (k < j)%nat → l !! k = Some y → f y = false.
Proof.
  induction l as [|a l IH]; cbn.
  - split; [done|]. by intros (j & ? & _).
  - destruct (f a) eqn:Ha.
    + split.
      * intros [= ->]. exists 0%nat. split; [done|]. split; [done|]. intros; lia.
      * intros ([|j] & Hj & Hx & Hk); [done|]. specialize (Hk 0%nat a ltac:(lia) eq_refl). congruence.
    + rewrite IH. split.
      * intros (j & Hj & Hx & Hk). exists (S j). split; [done|]. split; [done|].
        intros [|k] y Hlt Hy; [by injection Hy as <-|]. apply (Hk k); [lia|done].
      * intros ([|j] & Hj & Hx & Hk); [cbn in Hj; congruence|]. exists j. split; [done|]. split; [done|].
        intros k y Hlt Hy. apply (Hk (S k)); [lia|done].
Qed.

Lemma trend_points_lookup l i :
  trend_points l !! i = (λ r, trend_point r (drop (S i) l)) <$> l !! i.
Proof. revert i. induction l as [|r l IH]; intros [|i]; cbn; [done..|]. apply IH. Qed.

(** The run [r] at place [i] has [other] as its baseline: the nearest earlier
    run that can be compared to it. *)
Definition baseline (l : list Report) (i : nat) (r other : Report) : Prop :=
  ∃ j, (i < j)%nat ∧ l !! j = Some other ∧ Comparable r other = true ∧
    ∀ k x, (i < k < j)%nat → l !! k = Some x → Comparable r x = false.

Lemma find_baseline l i r other :
  List.find (Comparable r) (drop (S i) l) = Some other ↔ baseline l i r other.
Proof.
  rewrite find_first. unfold baseline. split.
  - intros (j & Hj & Hc & Hk). rewrite lookup_drop in Hj. exists (S i + j)%nat. split; [lia|].
    split; [done|]. split; [done|]. intros k x Hlt Hx. apply (Hk (k - S i)%nat); [lia|].
    rewrite lookup_drop. by replace (S i + (k - S i))%nat with k by lia.
  - intros (j & Hlt & Hj & Hc & Hk). exists (j - S i)%nat. rewrite lookup_drop.
    replace (S i + (j - S i))%nat with j by lia. split; [done|]. split; [done|].
    intros k y Hlt' Hy. rewrite lookup_drop in Hy. apply (Hk (S i + k)%nat); [lia|done].
Qed.

(** A run is flagged as a regression exactly when it fell short of its target
    rate while its baseline, the nearest earlier run of the same execution with
    the same engine, cluster and requested load, did not; it has a baseline
    exactly when there is such a run. The points follow the runs one to one. *)
Theorem trend_exact l i :
  match tr_Points (BuildTrend l) !! i with
  | None => l !! i = None
  | Some p =>
      ∃ r, l !! i = Some r ∧ tp_RunID p = rep_RunID r ∧ tp_HitTargetQPS p = negb (ShortOfRequest r) ∧
        (tp_HasComparablePredecessor p = true ↔ ∃ other, baseline l i r other) ∧
        (tp_Regressed p = true ↔
         ShortOfRequest r = true ∧ ∃ other, baseline l i r other ∧ ShortOfRequest other = false)
  end.
Proof.
  cbn. rewrite trend_points_lookup. destruct (l !! i) as [r|] eqn:Hr; [|done]. cbn [fmap option_fmap option_map].
  exists r. split; [done|]. split; [done|]. split; [done|]. unfold trend_point. cbn zeta.
  destruct (List.find (Comparable r) (drop (S i) l)) as [other|] eqn:Hf; cbn [tp_HasComparablePredecessor tp_Regressed].
  - apply find_baseline in Hf as Hb. split; [naive_solver|].
    rewrite andb_true_iff, !negb_true_iff, negb_false_iff. split; [naive_solver|].
    intros (? & o & Ho%find_baseline & ?). rewrite Hf in Ho. injection Ho as <-. done.
  - split; (split; [done|]).
    + intros (o & Ho%find_baseline). congruence.
    + intros (_ & o & Ho%find_baseline & _). congruence.
Qed.

(** ** The summary, exactly *)
#[global] Instance chrono_total : Total chrono_le.
Proof. intros a b. unfold chrono_le. lia. Qed.
#[global] Instance chrono_trans : Transitive chrono_le.
Proof. intros a b c. unfold chrono_le. lia. Qed.
#[global] Instance report_le_total : Total report_le.
Proof. intros a b. unfold report_le. lia. Qed.
#[global] Instance report_le_trans : Transitive report_le.
Proof. intros a b c. unfold report_le. lia. Qed.

Section summary.
Context (rs : ReportStore).

(** Every report is stored under its own run. *)
Definition keyed : Prop := ∀ k r, reports rs !! k = Some r → rep_RunID r = k.

Definition runs_of (exe : Execution) : list Report := ListReports (exe_ID exe) 0 rs.
Definition flagged (exe : Execution) : list TrendPoint :=
  filter (λ p, tp_Regressed p = true) (tr_Points (BuildTrend (runs_of exe))).

Lemma elem_of_runs e r : r ∈ ListReports e 0 rs ↔ rep_ExecutionID r = e ∧ ∃ k, reports rs !! k = Some r.
Proof using.
  unfold ListReports, trim. cbn [Z.ltb Z.compare andb].
  rewrite merge_sort_Permutation, list_elem_of_filter, list_elem_of_fmap. split.
  - intros (? & [k r'] & -> & ?%elem_of_map_to_list). eauto.
  - intros (? & k & ?%elem_of_map_to_list). split; [done|]. by exists (k, r).
Qed.
Lemma keyed_same r r' k k' : keyed →
  reports rs !! k = Some r → reports rs !! k' = Some r' → rep_RunID r = rep_RunID r' → r = r'.
Proof using. intros Hk H1 H2 He. pose proof (Hk _ _ H1). pose proof (Hk _ _ H2). congruence. Qed.

(** The listing is already in the order the summary sorts it into. *)
Lemma runs_sorted exe : keyed → merge_sort report_le (runs_of exe) = runs_of exe.
Proof using.
  intros Hk. eapply (StronglySorted_unique_strong report_le).
  - intros r1 r2 H1 H2. rewrite merge_sort_Permutation in H1.
    apply elem_of_runs in H1 as (_ & k1 & H1). apply elem_of_runs in H2 as (_ & k2 & H2).
    intros Ha Hb. eapply keyed_same; eauto. unfold report_le in *. lia.
  - apply StronglySorted_merge_sort; apply _.
  - unfold runs_of, ListReports, trim. cbn [Z.ltb Z.compare andb]. apply StronglySorted_merge_sort; apply _.
  - apply merge_sort_Permutation.
Qed.

Lemma gather_all g execs : keyed →
  fold_left (gather rs) execs g =
  mkGathered (ga_regressed g ∪ list_to_set (tp_RunID <$> (execs ≫= flagged)))
    (ga_count g + Z.of_nat (length (execs ≫= flagged))) (ga_all g ++ (execs ≫= runs_of)).
Proof using.
  intros Hk. revert g. induction execs as [|exe execs IH]; intros g; cbn [fold_left].
  { destruct g. cbn. rewrite app_nil_r, Z.add_0_r. f_equal. set_solver. }
  rewrite IH. unfold gather. cbn [ga_regressed ga_count ga_all]. fold (runs_of exe).
  rewrite runs_sorted by done. fold (flagged exe). rewrite !bind_cons, fmap_app, length_app, <-app_assoc.
  f_equal; [|lia]. rewrite list_to_set_app_L. by rewrite (assoc_L _).
Qed.

(** The trend of its execution flags the run. *)
Definition regressed (r : Report) : Prop :=
  ∃ p, p ∈ tr_Points (BuildTrend (ListReports (rep_ExecutionID r) 0 rs)) ∧
    tp_RunID p = rep_RunID r ∧ tp_Regressed p = true.

Lemma elem_of_flagged exe p :
  p ∈ flagged exe → ∃ r, r ∈ runs_of exe ∧ tp_RunID p = rep_RunID r.
Proof using.
  unfold flagged. intros [_ Hp]%list_elem_of_filter.
  change (tr_Points (BuildTrend (runs_of exe))) with (trend_points (runs_of exe)) in Hp.
  apply list_elem_of_lookup in Hp as [i Hi]. rewrite trend_points_lookup in Hi.
  destruct (runs_of exe !! i) as [r|] eqn:Hr; [|done]. apply (inj Some) in Hi as <-.
  exists r. split; [by eapply list_elem_of_lookup_2|done].
Qed.

Lemma flagged_iff execs r : keyed →
  r ∈ execs ≫= runs_of →
  rep_RunID r ∈ (list_to_set (tp_RunID <$> (execs ≫= flagged)) : gset Z) ↔ regressed r.
Proof using.
  intros Hk (exe & Hr & He)%list_elem_of_bind. rewrite elem_of_list_to_set, list_elem_of_fmap.
  pose proof Hr as Hr0. apply elem_of_runs in Hr0 as (Hx & k & Hkr). split.
  - intros (p & Hid & (exe' & Hp & _)%list_elem_of_bind).
    destruct (elem_of_flagged _ _ Hp) as (r' & Hr' & Hid').
    apply elem_of_runs in Hr' as (Hx' & k' & Hk').
    assert (r' = r) as -> by (eapply keyed_same; eauto; congruence).
    unfold flagged in Hp. apply list_elem_of_filter in Hp as [Hreg Hp]. exists p.
    split; [|done]. rewrite Hx'. exact Hp.
  - intros (p & Hp & Hid & Hreg). exists p. split; [done|]. apply list_elem_of_bind. exists exe.
    split; [|done]. unfold flagged. apply list_elem_of_filter. split; [done|]. unfold runs_of. by rewrite <-Hx.
Qed.
End summary.

(** A dashboard agrees with the trends it is composed of: its regression count
    is the number of flagged points over the trends of the project's executions;
    its last run is the latest of the project's runs; its series is the tail of
    all the project's runs in chronological order, as long as asked for within 1
    and 100 (20 by default), and a point of it is marked exactly when the trend
    of that run's execution flags the run. *)
Theorem summary_agrees_with_trends rs p limit s su :
  keyed rs → Project_Summary (Some rs) p limit s = Ok su →
  let execs := ListExecutionsByProject p s in
  ∃ all, all ≡ₚ execs ≫= runs_of rs ∧ StronglySorted chrono_le all ∧
    su_RegressedCount su = Z.of_nat (length (execs ≫= flagged rs)) ∧
    su_LastRun su = (λ r, mkLastRun (rep_RunID r) (rep_Outcome r) (rep_StartedAt r)) <$> last all ∧
    (0 < series_limit limit <= MaxSummarySeries) ∧
    th_RunID <$> su_ThroughputSeries su =
      rep_RunID <$> drop (length all - Z.to_nat (series_limit limit)) all ∧
    ∀ i pt r, su_ThroughputSeries su !! i = Some pt →
      drop (length all - Z.to_nat (series_limit limit)) all !! i = Some r →
      (th_Regressed pt = true ↔ regressed rs r).
Proof.
  intros Hk. unfold Project_Summary. destruct (GetProject p s); [|done]. cbv zeta.
  set (execs := ListExecutionsByProject p s). rewrite gather_all by done. cbn [ga_all ga_count ga_regressed].
  rewrite app_nil_l, Z.add_0_l, left_id_L by apply _. set (all := merge_sort chrono_le _).
  assert (all ≡ₚ execs ≫= runs_of rs) as Hperm by apply merge_sort_Permutation.
  assert (0 < series_limit limit <= MaxSummarySeries) as Hlim.
  { unfold series_limit, MaxSummarySeries, DefaultSummarySeries. repeat case_match; lia. }
  assert (∀ r, r ∈ all → r ∈ execs ≫= runs_of rs) as Hin by (intros r; by rewrite Hperm).
  assert (StronglySorted chrono_le all) as Hs by (apply StronglySorted_merge_sort; apply _).
  intros H. exists all. split; [done|]. split; [done|].
  destruct (last all) as [newest|] eqn:Hl.
  2: { apply last_None in Hl. injection H as <-. cbn [su_RegressedCount su_LastRun su_ThroughputSeries].
       rewrite Hl. done. }
  injection H as <-. cbn [su_RegressedCount su_LastRun su_ThroughputSeries].
  split; [done|]. split; [done|]. split; [done|].
  assert (Z.to_nat (if series_limit limit <? Z.of_nat (length all)
                    then Z.of_nat (length all) - series_limit limit else 0) =
          (length all - Z.to_nat (series_limit limit))%nat) as -> by (destruct (Z.ltb_spec (series_limit limit) (Z.of_nat (length all))); lia).
  split; [by rewrite <-list_fmap_compose|]. intros i pt r Hpt Hr.
  rewrite list_lookup_fmap, Hr in Hpt. injection Hpt as <-. cbn [th_Regressed throughput_point].
  rewrite bool_decide_eq_true. apply flagged_iff; [done|]. apply Hin.
  rewrite lookup_drop in Hr. by eapply list_elem_of_lookup_2.
Qed.

(** A project is deleted exactly when it exists and nothing belongs to it; only
    its own row goes. *)
Theorem project_deleted_only_empty id s :
  let '(r, s') := Project_Delete id s in
  match r with
  | Ok _ =>
      is_Some (projects (st_catalog s) !! id) ∧
      (∀ k sc, scenarios (st_catalog s) !! k = Some sc → scn_ProjectID sc ≠ id) ∧
      (∀ k exe, executions (st_catalog s) !! k = Some exe → exe_ProjectID exe ≠ id) ∧
      projects (st_catalog s') = delete id (projects (st_catalog s)) ∧
      scenarios (st_catalog s') = scenarios (st_catalog s) ∧
      executions (st_catalog s') = executions (st_catalog s)
  | Err e =>
      s' = s ∧
      match e with
      | ErrNotFound => projects (st_catalog s) !! id = None
      | ErrProjectHasScenarios => ∃ k sc, scenarios (st_catalog s) !! k = Some sc ∧ scn_ProjectID sc = id
      | ErrProjectHasExecutions => ∃ k exe, executions (st_catalog s) !! k = Some exe ∧ exe_ProjectID exe = id
      | _ => False
      end
  end.
Proof.
  unfold Project_Delete, guard, gets, ask, mbind, M_bind, mret, M_ret, throw, GetProject.
  destruct (projects (st_catalog s) !! id) as [p|] eqn:Hp; [|done].
  case_bool_decide as Hsc; cbn [negb].
  2: { split; [done|]. destruct (ListScenariosByProject id s) as [|sc l] eqn:Hl; [done|].
       assert (sc ∈ ListScenariosByProject id s) as Hin by (rewrite Hl; left).
       unfold ListScenariosByProject in Hin. apply list_elem_of_filter in Hin as [? Hin].
       apply list_elem_of_fmap in Hin as ([k ?] & -> & ?%elem_of_map_to_list). eauto. }
  case_bool_decide as Hex; cbn [negb].
  2: { split; [done|]. destruct (ListExecutionsByProject id s) as [|exe l] eqn:Hl; [done|].
       assert (exe ∈ ListExecutionsByProject id s) as Hin by (rewrite Hl; left).
       unfold ListExecutionsByProject in Hin. rewrite merge_sort_Permutation in Hin.
       apply list_elem_of_filter in Hin as [? Hin].
       apply list_elem_of_fmap in Hin as ([k ?] & -> & ?%elem_of_map_to_list). eauto. }
  unfold DeleteProject. rewrite Hp. split; [by eexists|]. split; [|split; [|done]].
  - intros k sc Hk Heq. assert (sc ∈ ListScenariosByProject id s) as Hin; [|rewrite Hsc in Hin; by apply elem_of_nil in Hin].
    apply list_elem_of_filter. split; [done|]. apply list_elem_of_fmap. exists (k, sc). by rewrite elem_of_map_to_list.
  - intros k exe Hk Heq. assert (exe ∈ ListExecutionsByProject id s) as Hin; [|rewrite Hex in Hin; by apply elem_of_nil in Hin].
    unfold ListExecutionsByProject. rewrite merge_sort_Permutation. apply list_elem_of_filter. split; [done|].
    apply list_elem_of_fmap. exists (k, exe). by rewrite elem_of_map_to_list.
Qed.

(** ** Examples

    One execution whose second run fell short of the rate the first one held. *)
Definition p_report (run : Z) (start : time) (achieved : Z) : Report :=
  mkReport 7 1 run "jmeter" "" "" start (start + 60) OutcomePassed (mkLoad 1 (of_int 100) 60 [] 0 0)
    (mkLoad 1 (of_int achieved) 60 [] 0 0) fzero ∅ (mkAttribution 0 0 0) [] [] [] None false "".
Definition p_reports : ReportStore :=
  mkReportStore {[ 1 := p_report 1 10 100; 2 := p_report 2 200 50 ]} None None.
Definition p_store : Store :=
  set_catalog (put_executions 7 {[ 7 := mkExecution 7 "x" 3 "" KindNormal "" "" "" [] false None "" "" 5 ]}
    (put_projects 3 {[ 3 := mkProject 3 "p" "o" "" None "" "" 1 ]} empty_catalog)) NewStore.

Lemma p_keyed : keyed p_reports.
Proof.
  intros k r. unfold p_reports. cbn [reports].
  intros [[<- <-]|[_ [<- <-]%lookup_singleton_Some]]%lookup_insert_Some; done.
Qed.

Lemma summary_agrees_with_trends_witness :
  ∃ su, Project_Summary (Some p_reports) 3 1 p_store = Ok su ∧
    su_RegressedCount su = 1 ∧ (th_RunID <$> su_ThroughputSeries su) = [2].
Proof.
  destruct (Project_Summary (Some p_reports) 3 1 p_store) as [su|e] eqn:E; [|vm_compute in E; discriminate].
  exists su. split; [reflexivity|].
  destruct (summary_agrees_with_trends _ _ _ _ _ p_keyed E) as (all & Hp & Hs & Hc & _ & _ & Hser & _).
  split; [rewrite Hc; vm_compute; reflexivity|].
  assert (su_ThroughputSeries su = default [] (match Project_Summary (Some p_reports) 3 1 p_store with
    Ok x => Some (su_ThroughputSeries x) | Err _ => None end)) as -> by (rewrite E; reflexivity).
  vm_compute. reflexivity.
Defined.

(** Without a report store a summary has the counts only. *)
Example summary_of_nothing :
  Project_Summary None 3 0 p_store = Ok (mkSummary 3 1 5 0 0 0 None []).
Proof. vm_compute. reflexivity. Qed.
