(* ===== verification/Daemon.v ===== *)
(** * The background processes ([cmd/scheduler], [cmd/calibrator], the sweep of [cmd/api])

    What one tick of each loop does to the shared state: firing a due occurrence,
    firing a due digest, extending horizons, draining bystanders of active
    campaigns, reaping idle engines, advancing a calibration job, reconciling
    runs whose engines are gone.  The lifecycle service of the scheduler and of
    the calibrator is wired without the metrics service and without usage
    accounting. *)
From S2P Require Import Prelude Errors GoStrings GoFloat LoadProfile Taurus Run Scenario Execution Reservation Quota Campaign RunTable Schedule Calibration Report Store Cluster CalibrationApp CampaignApp ScheduleApp Lifecycle LifecycleFacts Compile Deploy MetricsApp Threshold Slo Webhook Digest ClusterApp.

(** [noopMetrics], the service's default, over any state; [HasReport] reads the
    report table for the sweep of abandoned runs, which these processes do not run. *)
Definition unwired {H} : Metrics H := {|
  Lifecycle.MetricsPurge _ h := h;
  Lifecycle.Finalize _ _ _ := mret tt;
  Lifecycle.FinalizeOrphaned _ _ _ _ := mret tt;
  Lifecycle.HasReport _ _ := Err ErrNotFound
|}.
#[local] Existing Instance unwired.
#[local] Instance unwired_laws {H} : MetricsLaws H.
Proof. split; intros; apply finalize_frame_refl. Qed.

(** [noopUsage]: the launches are left as they were. *)
Definition without_usage {C H A} (m : M (World C H) error A) : M (World C H) error A := λ w,
  let '(r, w') := m w in (r, set_store (set_launches (st_launches (w_store w)) (w_store w')) w').

(** ** Firing a due occurrence *)
Definition triggerReadyPollInterval : duration := 2 * second.
Definition triggerReadyTimeout : duration := 120 * second.

Section fire.
Context {C H : Type} `{!Scheduler C} `{!Unicode}.
Local Abbreviation W := (World C H).
Context (Marshal : Conf.Config → option string) (Unmarshal : string → option Conf.Scenario).
Context (image : Executor → result error string) (tc : result error Telemetry.TraceContext).
Context (defaultEngine : Executor) (ParseQuantity : string → option Quantity).
(** When the process wakes up and what it finds; whether it is shutting down. *)
Context (sleep : duration → time → W → time * W) (done : time → bool).

(** One turn of the wait for the engines. *)
Definition ready_step (e : Z) (deadline : time) (x : time * duration * W) :
    (time * duration * W) + (result error unit * W) :=
  let '(clock, poll, w) := x in
  match without_usage (Trigger clock ParseQuantity e) w with
  | (Ok _, w') => inr (Ok tt, w')
  | (Err err, w') =>
      if negb (bool_decide (err = ErrNotDeployed)) && negb (bool_decide (err = ErrEnginesNotReady))
      then inr (Err err, w')
      else if After clock deadline || done clock then inr (Err err, w')
      else
        let remaining := time_Sub deadline clock in
        let poll := if remaining <? poll then remaining else poll in
        let '(clock', w'') := sleep poll clock w' in
        inl (clock', poll, w'')
  end.
(** A turn of fuel per nanosecond of the wait. *)
Definition triggerWhenReady (now : time) (e : Z) (poll timeout : duration) : M W error unit := λ w,
  match loop_upto (ready_step e (time_Add now timeout)) (Z.to_pos (timeout + 2)) (now, poll, w) with
  | inr out => out
  | inl (_, _, w') => (Err ErrEnginesNotReady, w')
  end.

(** [claimed], [deployed]: the instants of the claim and of the deployment. *)
Definition fireOnce (claimed deployed : time) : M W error unit :=
  claim ← attempt (ClaimDue claimed);
  match claim with
  | Err _ => mret tt
  | Ok None => mret tt
  | Ok (Some c) =>
      let e := Schedule.sch_ExecutionID (cl_Schedule c) in
      d ← attempt (without_usage (Deploy deployed Marshal Unmarshal image tc defaultEngine e));
      match d with
      | Err _ => mret tt
      | Ok _ => ignore (triggerWhenReady deployed e triggerReadyPollInterval triggerReadyTimeout)
      end
  end.

(** The wait for the engines ends by itself, with the answer of one attempt: the
    fuel is never used up as long as the clock moves while the process sleeps. *)
Definition last_attempt (now : time) (e : Z) (timeout : duration) (out : result error unit * W) : Prop :=
  ∃ clock w, without_usage (Trigger clock ParseQuantity e) w = out ∧
    ∀ err, out.1 = Err err → err = ErrNotDeployed ∨ err = ErrEnginesNotReady →
      now + timeout < clock ∨ done clock = true.
Lemma ready_step_spec e deadline clock poll w :
  (∀ p t w, t < (sleep p t w).1) →
  match ready_step e deadline (clock, poll, w) with
  | inl (clock', _, _) => clock <= deadline ∧ clock < clock'
  | inr out => last_attempt deadline e 0 out
  end.
Proof using.
  clear Marshal Unmarshal image tc defaultEngine.
  intros Hclock. unfold ready_step, last_attempt. rewrite Z.add_0_r.
  destruct (without_usage _ w) as [[[]|err] w1] eqn:E; [by exists clock, w|].
  destruct (negb _ && negb _) eqn:Hn.
  { exists clock, w. split; [done|]. intros err' [= <-] Hr. exfalso.
    apply andb_true_iff in Hn as [H1 H2]. apply negb_true_iff, bool_decide_eq_false in H1, H2. tauto. }
  destruct (After clock deadline || done clock) eqn:Ha.
  { exists clock, w. split; [done|]. intros _ _ _.
    apply orb_true_iff in Ha as [Ha|Ha]; [left|by right]. by apply bool_decide_eq_true in Ha. }
  apply orb_false_iff in Ha as [Ha _]. apply bool_decide_eq_false in Ha.
  match goal with |- context [sleep ?p clock w1] => pose proof (Hclock p clock w1) as Hc;
    destruct (sleep p clock w1) as [clock' w2] end.
  cbn in Hc. lia.
Qed.
Theorem fire_wait_ends now e poll timeout w :
  0 <= timeout → (∀ p t w, t < (sleep p t w).1) →
  last_attempt now e timeout (triggerWhenReady now e poll timeout w).
Proof using.
  clear Marshal Unmarshal image tc defaultEngine.
  intros Ht Hclock. unfold triggerWhenReady.
  destruct (loop_upto_total (ready_step e (time_Add now timeout)) (λ _, True)
    (last_attempt (time_Add now timeout) e 0)
    (λ '(clock, _, _), Z.max 0 (time_Add now timeout + 1 - clock))) with
    (p := Z.to_pos (timeout + 2)) (s := (now, poll, w)) as (out & -> & Hf).
  - intros [[clock p] w1] _. pose proof (ready_step_spec e (time_Add now timeout) clock p w1 Hclock) as Hs.
    destruct (ready_step _ _ _) as [[[clock' ?] ?]|]; [|done]. split; [done|]. lia.
  - intros [[clock p] w1] _. lia.
  - done.
  - unfold time_Add. rewrite Z2Pos.id by lia. lia.
  - unfold last_attempt, time_Add in *. by rewrite Z.add_0_r in Hf.
Qed.
End fire.

(** ** Horizons *)
Section horizon.
Context {C H : Type} `{!Scheduler C}.
Definition extendHorizonsOnce (ParseStandard : string → option Schedule.CronSchedule) (now : time) :
    M (World C H) error unit :=
  ignore (ExtendHorizons ParseStandard (without_usage ∘ Stop now) now).
End horizon.

(** ** Draining *)
Section drain.
Context {C H : Type} `{!Scheduler C}.
Local Abbreviation W := (World C H).
Context (now : time).

Definition drain_one (executionID : Z) : M W error unit :=
  run ← currentRunOf executionID;
  match run with
  | None => mret tt
  | Some _ => ignore (without_usage (Stop now executionID))
  end.
Definition drain_campaign (c : Campaign) : M W error unit :=
  inScope ← attempt (InScopeExecutions (camp_ID c));
  match inScope with
  | Err _ => mret tt
  | Ok ids => for_each ids drain_one
  end.
Definition drainOnce : M W error unit :=
  active ← read_store (ActiveCampaigns now);
  for_each active drain_campaign.
End drain.

(** ** Reaping *)
Definition sweepClusters {R} `{!ClusterRegistry R} (r : R) : result error (list string) :=
  match ListClusters r with
  | Err e => Err e
  | Ok registered => Ok ("" :: (cl_Name <$> filter (λ c, IsDefaultName (cl_Name c) = false) registered))
  end.
Section reap.
Context {C H R : Type} `{!Scheduler C} `{!ClusterRegistry R}.
Definition reapIdleOnce (now : time) (ttl : duration) (r : R) : M (World C H) error unit :=
  match sweepClusters r with
  | Err _ => mret tt
  | Ok clusters => ignore (ReapIdle now ttl clusters)
  end.
End reap.

(** ** Digests *)
Section digest.
Context (s : Store) (rs : ReportStore) (ths : ThresholdStore).
Context (Marshal : Payload → result error string).
Context (deliver : Z → string → list Sent → result error bool * list Sent).
(** The process wires no objective grader. *)
Definition fireDigestOnce (claimed fired : time) :
    DigestScheduleStore * (DigestStore * list Sent) → DigestScheduleStore * (DigestStore * list Sent) :=
  λ '(sch, t),
  match Digest_ClaimDue claimed sch with
  | (Ok (Some c), sch') =>
      (sch', (Fire s rs ths Marshal None (Some deliver) (ds_ProjectID c) (ds_Period c) fired t).2)
  | (_, sch') => (sch', t)
  end.
End digest.

(** ** Calibration ticks, in this process or in [cmd/calibrator] *)
Section calibrate.
Context {C H : Type} `{!Scheduler C} `{!Unicode}.
Local Abbreviation W := (World C H).
Context (Marshal : Conf.Config → option string) (Unmarshal : string → option Conf.Scenario).
Context (image : Executor → result error string) (tc : result error Telemetry.TraceContext).
Context (defaultEngine : Executor) (ParseQuantity : string → option Quantity).
Context (clock : W → time) (sleep : duration → W → W) (get_report : Z → W → result error Report).
Context (ErrorText : error → string) (fingerprint : Z → W → result error string).

(** The process's lifecycle service, as the step runner calls it. *)
Definition process_ops : LifecycleOps (C := C) (H := H) := {|
  lc_Deploy e := λ w,
    without_usage (Deploy (clock w) Marshal Unmarshal image tc defaultEngine e) w;
  lc_Trigger e := λ w, without_usage (Trigger (clock w) ParseQuantity e) w;
  lc_Stop e := λ w, without_usage (Stop (clock w) e) w
|}.
Definition advanceCalibrationOnce (now : time) : M W error unit :=
  ignore (AdvanceOne now (RunStep process_ops get_report clock sleep) fingerprint ErrorText).
End calibrate.

(** ** The reconciliation sweep of [cmd/api], wired with the metrics service *)
Definition reconcileOnce {C H} `{!Scheduler C} `{!Metrics H} (now : time) (after : duration) :
    M (World C H) error unit :=
  _ ← ignore (Reconcile now);
  ignore (ReconcileAbandoned now after).

(** ** What a drain does *)
Section drain_facts.
Context {C H : Type} `{!Scheduler C} `{!SchedulerLaws C}.
Local Abbreviation W := (World C H).
Implicit Types w : W.
Context (now : time).
Local Abbreviation runs w := (st_runs (w_store w)).
Context (reach : C → Prop).

(** The executions of [L] have been stopped, and nothing else has changed that
    a later turn of the sweep looks at. *)
Record drained (L : list Z) (w w' : W) : Prop := {
  dr_current : ∀ e, CurrentRun e (runs w') = if decide (e ∈ L) then None else CurrentRun e (runs w);
  dr_catalog : st_catalog (w_store w') = st_catalog (w_store w);
  dr_campaigns : st_campaigns (w_store w') = st_campaigns (w_store w);
  dr_deployed : ∀ c, deployed_on c (w_cluster w') = deployed_on c (w_cluster w);
  dr_reach : reach (w_cluster w) → reach (w_cluster w');
  dr_runs_ok : runs_ok (runs w) → runs_ok (runs w');
  dr_metrics : w_metrics w' = w_metrics w
}.
Lemma drained_refl w : drained [] w w.
Proof using. by split. Qed.
Lemma drained_trans L1 L2 w1 w2 w3 : drained L1 w1 w2 → drained L2 w2 w3 → drained (L1 ++ L2) w1 w3.
Proof using.
  intros [A1 A2 A3 A4 A5 A6 A7] [B1 B2 B3 B4 B5 B6 B7].
  split; [|congruence|congruence|intros c; by rewrite B4, A4|tauto|tauto|congruence].
  intros e. rewrite B1, A1. repeat case_decide; try done; set_solver.
Qed.
(** A loop that drains a list's worth at each turn. *)
Lemma drained_loop {A} (ids : A → list Z) (body : A → M W error unit) l w :
  (∀ x w0, ∃ w1, body x w0 = (Ok tt, w1) ∧ drained (ids x) w0 w1) →
  ∃ w', for_each l body w = (Ok tt, w') ∧ drained (l ≫= ids) w w'.
Proof using.
  intros Hb. revert w. induction l as [|x l IH]; intros w; simpl.
  { exists w. split; [done|apply drained_refl]. }
  destruct (Hb x w) as (w1 & E & Hd). unfold mbind at 1, M_bind. rewrite E.
  destruct (IH w1) as (w' & -> & Hd'). exists w'. split; [done|]. by eapply drained_trans.
Qed.

(** Stopping without a metrics service writes no report. *)
Definition same_metrics (w w' : W) : Prop := w_metrics w' = w_metrics w.
#[local] Instance same_metrics_po : PreOrder same_metrics.
Proof using. unfold same_metrics. split; [done|]. intros w1 w2 w3 ? ?. congruence. Qed.
#[local] Instance metrics_upd f : Keeps same_metrics (upd_store (C := C) (H := H) f).
Proof using. by intros w. Qed.
#[local] Instance metrics_runs f : Keeps same_metrics (upd_runs (C := C) (H := H) f).
Proof using. by intros w. Qed.
#[local] Instance metrics_release e : Keeps same_metrics (Release (S := W) e).
Proof using. by intros w. Qed.
#[local] Instance metrics_finalize e r : Keeps same_metrics (on_metrics (C := C) (H := H) (Lifecycle.Finalize now e r)).
Proof using. by intros w. Qed.
Lemma Stop_metrics e : Keeps same_metrics (Stop (C := C) (H := H) now e).
Proof using Scheduler0. unfold Stop, teardown, currentRunOf. solve_keeps. Qed.

Lemma drain_one_spec e w : ∃ w', drain_one now e w = (Ok tt, w') ∧ drained [e] w w'.
Proof using Scheduler0.
  unfold drain_one, mbind, M_bind, currentRunOf, read_store.
  pose proof (Stop_spec now e w) as Hs. destruct (CurrentRun e (runs w)) as [r|] eqn:Hc.
  - destruct Hs as (w' & E & Ht). unfold ignore, without_usage. rewrite E.
    eexists. split; [done|]. pose proof Ht as []. split; cbn [w_store w_cluster w_metrics set_store]; try done.
    + intros e'. unfold CurrentRun. cbn. rewrite (torn_current now e w w') by done.
      repeat case_decide; set_solver.
    + intros c. by rewrite <- td_cluster.
    + by rewrite <- td_cluster.
    + by eapply torn_runs_ok.
    + pose proof (Stop_metrics e w) as Hm. by rewrite E in Hm.
  - exists w. split; [done|]. split; try done. intros e'. case_decide; set_solver.
Qed.

(** While the cluster can be reached it says what it runs, and stays in reach. *)
Context (lists : ∀ s, reach s → ∃ r s', DeployedExecutions "" s = (Ok r, s') ∧ reach s').

(** An execution that some campaign in force drains: deployed, of a project that
    takes part, and not one of that campaign's own tests. *)
Definition bystander_of (c : Campaign) w (e : Z) : Prop :=
  is_Some (deployed_on "" (w_cluster w) !! e) ∧ (e ∉ svc_ExecutionID <$> camp_Services c) ∧
  ∃ exe, executions (st_catalog (w_store w)) !! e = Some exe ∧
    exe_ProjectID exe ∈ svc_ProjectID <$> camp_Services c.

Lemma InScopeExecutions_answers w c :
  reach (w_cluster w) → campaigns (st_campaigns (w_store w)) !! camp_ID c = Some c →
  ∃ ids w', InScopeExecutions (camp_ID c) w = (Ok ids, w') ∧ w_store w' = w_store w ∧
    reach (w_cluster w') ∧ w_metrics w' = w_metrics w ∧ (∀ k, deployed_on k (w_cluster w') = deployed_on k (w_cluster w)) ∧
    ∀ e, e ∈ ids ↔ bystander_of c w e.
Proof using lists.
  intros Hre Hc. destruct (lists (w_cluster w) Hre) as (r & cl & Hl & Hre').
  assert (∃ ids, InScopeExecutions (camp_ID c) w =
    (Ok ids, mkWorld (w_store w) cl (w_objects w) (w_metrics w))) as [ids E].
  { unfold InScopeExecutions, mbind, M_bind, try_store, ask, CampaignApp.Get, GetCampaign, on_cluster, read_store.
    rewrite Hc, Hl. by eexists. }
  exists ids. eexists. split; [exact E|]. cbn [w_store w_metrics w_cluster]. do 3 (split; [done|]).
  split; [intros k; by rewrite <- (list_reads "" (w_cluster w) k), Hl|].
  apply in_scope_exact in E as (c' & Hc' & _ & _ & _ & Hids). rewrite Hc in Hc'. injection Hc' as <-.
  exact Hids.
Qed.

Lemma drain_campaign_spec w c :
  reach (w_cluster w) → campaigns (st_campaigns (w_store w)) !! camp_ID c = Some c →
  ∃ ids w', drain_campaign now c w = (Ok tt, w') ∧ drained ids w w' ∧ ∀ e, e ∈ ids ↔ bystander_of c w e.
Proof using lists.
  intros Hre Hc. destruct (InScopeExecutions_answers w c Hre Hc) as (ids & w1 & E & Hst & Hre1 & Hm & Hdep & Hids).
  destruct (drained_loop (λ e, [e]) (drain_one now) ids w1) as (w' & Hl & Hd).
  { apply drain_one_spec. }
  exists ids, w'. split; [|split; [|done]].
  - unfold drain_campaign, mbind, M_bind, attempt. by rewrite E.
  - assert (ids ≫= (λ e, [e]) = ids) as Hid by (clear; induction ids; csimpl; congruence).
    rewrite Hid in Hd. destruct Hd. split; rewrite <- ?Hst, <- ?Hm; try done; [|auto].
    intros k. by rewrite <- Hdep.
Qed.

(** A sweep that ends, having stopped the bystanders of every campaign of the list. *)
Lemma drain_list_spec l w :
  reach (w_cluster w) → (∀ c, c ∈ l → campaigns (st_campaigns (w_store w)) !! camp_ID c = Some c) →
  ∃ ids w', for_each l (drain_campaign now) w = (Ok tt, w') ∧ drained ids w w' ∧
    ∀ e, e ∈ ids ↔ ∃ c, c ∈ l ∧ bystander_of c w e.
Proof using lists.
  revert w. induction l as [|c l IH]; intros w Hre Hl; simpl.
  { exists [], w. split; [done|]. split; [apply drained_refl|]. set_solver. }
  destruct (drain_campaign_spec w c) as (ids1 & w1 & E & Hd & H1); [done|apply Hl; left|].
  unfold mbind, M_bind. rewrite E. pose proof Hd as [_ Dc Dp Dd Dr _ _].
  destruct (IH w1) as (ids2 & w' & -> & Hd' & H2); [auto| |].
  { intros x Hx. rewrite Dp. apply Hl. by right. }
  exists (ids1 ++ ids2), w'. split; [done|]. split; [by eapply drained_trans|].
  assert (∀ x e, bystander_of x w1 e ↔ bystander_of x w e) as Hsame.
  { intros x e. unfold bystander_of. by rewrite Dd, Dc. }
  intros e. rewrite elem_of_app, H1, H2. setoid_rewrite Hsame. setoid_rewrite elem_of_cons. naive_solver.
Qed.

(** C36. A drain is exact: with the home cluster in reach it always completes, and afterwards an execution has
    no run open if it was a bystander of some campaign in force (deployed on the
    home cluster, of a project that takes part, and not one of that campaign's
    designated tests), while every other execution's run is as it was; no
    deployment is removed and nothing is written for the runs it closes to be
    reported on. *)
Theorem drain_exact w :
  reach (w_cluster w) → campaigns_ok (st_campaigns (w_store w)) → runs_ok (runs w) →
  ∃ w', drainOnce now w = (Ok tt, w') ∧ runs_ok (runs w') ∧
    (∀ e, (∃ c, c ∈ ActiveCampaigns now (w_store w) ∧ bystander_of c w e) → CurrentRun e (runs w') = None) ∧
    (∀ e, ¬ (∃ c, c ∈ ActiveCampaigns now (w_store w) ∧ bystander_of c w e) →
       CurrentRun e (runs w') = CurrentRun e (runs w)) ∧
    (∀ c, deployed_on c (w_cluster w') = deployed_on c (w_cluster w)) ∧ w_metrics w' = w_metrics w.
Proof using lists.
  intros Hre Hc Hr. destruct (drain_list_spec (ActiveCampaigns now (w_store w)) w) as (ids & w' & E & Hd & Hids); [done| |].
  - intros c. unfold ActiveCampaigns, ListActiveCampaigns. rewrite list_elem_of_filter, elem_of_all_campaigns.
    intros [_ [id Hid]]. by destruct (Hc _ _ Hid) as (-> & _).
  - exists w'. destruct Hd as [D1 _ _ D4 _ D5 D6]. split; [exact E|]. split; [auto|].
    split; [|split; [|done]]; intros e; rewrite <- Hids, D1; by case_decide.
Qed.
End drain_facts.

(** Both executions of [drain_world] run when the campaign's window opens. *)
Definition drain_runs (w : World FakeScheduler unit) : World FakeScheduler unit :=
  set_store (set_runs (StartRun 11 8 "" (StartRun 10 7 "" (st_runs (w_store w))).2).2 (w_store w)) w.
Definition busy_world : World FakeScheduler unit := drain_runs drain_world.
Lemma busy_runs_ok : runs_ok (st_runs (w_store busy_world)).
Proof. apply StartRun_ok, StartRun_ok, runs_ok_empty. Qed.
Lemma fake_lists (s : FakeScheduler) :
  True → ∃ r s', DeployedExecutions "" s = (Ok r, s') ∧ True.
Proof. intros _. by eexists _, _. Qed.

Lemma drain_exact_witness :
  let w' := (drainOnce 15 busy_world).2 in
  CurrentRun 8 (st_runs (w_store busy_world)) = Some 2 ∧
  CurrentRun 8 (st_runs (w_store w')) = None ∧ CurrentRun 7 (st_runs (w_store w')) = Some 1.
Proof.
  destruct (drain_exact 15 (λ _, True) fake_lists busy_world I one_campaign_ok busy_runs_ok)
    as (w' & E & _ & Hin & Hout & _). cbv zeta. rewrite E. cbn [snd].
  split; [reflexivity|]. split.
  - apply Hin. exists (camp_with_ID (mkCampaign 0 "launch" 1 (mkWindow 10 20) [mkService 3 7] None) 1).
    split; [vm_compute; left|]. split; [by eexists|]. split; [by vm_compute; set_solver|].
    exists (exe_of 8 3). split; [reflexivity|]. vm_compute. left.
  - rewrite Hout; [reflexivity|]. intros (c & Hc & _ & Hnot & _). vm_compute in Hc.
    apply list_elem_of_singleton in Hc as ->. apply Hnot. vm_compute. left.
Defined.

(** Two campaigns over one project: the second designates execution 8. *)
Definition contested : World FakeScheduler unit :=
  drain_runs (set_store (set_campaigns (CreateCampaign
    (mkCampaign 0 "rehearsal" 1 (mkWindow 10 20) [mkService 3 8] None) one_campaign).2
    (w_store drain_world)) drain_world).
(** The drain stops a readiness test that the freeze lets start: an execution
    designated by one campaign and a bystander of another is not frozen, and its
    run is closed at the next sweep. *)
Theorem drain_stops_exempt_test :
  IsFrozen 15 3 8 (w_store contested) = None ∧ IsFrozen 15 3 7 (w_store contested) = None ∧
  CurrentRun 8 (st_runs (w_store contested)) = Some 2 ∧ CurrentRun 7 (st_runs (w_store contested)) = Some 1 ∧
  let w' := (drainOnce 15 contested).2 in
  CurrentRun 8 (st_runs (w_store w')) = None ∧ CurrentRun 7 (st_runs (w_store w')) = None.
Proof. vm_compute. done. Qed.
