(* ===== verification/Http.v ===== *)
(** * The HTTP API: requests, answers and authorisation ([internal/adapters/httpapi])

    What every handler shares: the wiring ([router.go], [Deps]), the state all
    services act on, the mapping of errors to answers ([errors.go],
    [response.go]) and the authorisation helpers ([ownership.go] and the
    [authorize...] methods of the handler files).

    A handler is a function of a request in the monad [M], whose error is the
    answer of an early return: [writeError(...); return] is [reject], and
    [respondError(w, err); return] after a call is [call].  The text of an error
    is the error itself ([JErr]); a time is encoded as itself ([JTime]).  A nil
    service of [Deps] is a [false] flag. *)
From S2P Require Import Prelude Errors GoStrings GoFloat Taurus LoadProfile Histogram Scenario Execution Rbac Auth Campaign RunTable Schedule Calibration Directory Report Store TenantApp AuthApp Threshold Cluster ExecutionApp ScenarioApp CalibrationApp CampaignApp ScheduleApp Lifecycle Deploy AdminApp MetricsApp Compile Slo Webhook Digest ClusterApp ProjectApp.
Import Account.

(** ** Answers *)
Inductive json :=
| JNull
| JBool (b : bool)
| JInt (z : Z)
| JFloat (f : float64)
| JStr (s : string)
| JTime (t : time)
| JErr (e : error)
| JArr (l : list json)
| JObj (l : list (string * json)).

(** [omitempty]. *)
Definition omit_str (k v : string) : list (string * json) :=
  if bool_decide (v = "") then [] else [(k, JStr v)].
Definition omit_opt {A} (k : string) (f : A → json) (o : option A) : list (string * json) :=
  match o with Some a => [(k, f a)] | None => [] end.
Definition omit_bool (k : string) (b : bool) : list (string * json) :=
  if b then [(k, JBool true)] else [].
Definition omit_list {A} (k : string) (f : A → json) (l : list A) : list (string * json) :=
  match l with [] => [] | _ => [(k, JArr (f <$> l))] end.
Definition omit_int (k : string) (z : Z) : list (string * json) :=
  if bool_decide (z = 0) then [] else [(k, JInt z)].
Definition omit_float (k : string) (f : float64) : list (string * json) :=
  if SpecFloat.SFeqb f fzero then [] else [(k, JFloat f)].
(** A pointer without [omitempty]. *)
Definition null_or {A} (f : A → json) (o : option A) : json := from_option f JNull o.

Inductive body :=
| NoBody
| Json (j : json)
| Bytes (contentType data : string)
| SetCookie (value : string) (maxAge : Z). (** no content, and the session cookie *)
Record Response := mkResponse { rs_Status : Z; rs_Body : body }.

Definition writeJSON (status : Z) (v : json) : Response := mkResponse status (Json v).
Definition writeErrorDetails (status : Z) (message : json) (details : option json) : Response :=
  writeJSON status
    (JObj (("message", message) :: match details with Some d => [("details", d)] | None => [] end)).
Definition writeError (status : Z) (message : json) : Response := writeErrorDetails status message None.
Definition message_ (status : Z) (text : string) : Response :=
  writeJSON status (JObj [("message", JStr text)]).

(** ** Errors ([errors.go]) *)
Definition badRequestErrors : list error :=
  [ErrProjNameRequired; ErrProjNameTooLong; ErrProjOwnerRequired;
   ErrProjOwnerTooLong; ErrSIDInvalid; ErrSIDTooLong;
   ErrScenNameRequired; ErrScenNameTooLong; ErrScenProjectRequired;
   ErrExecNameRequired; ErrExecNameTooLong; ErrExecProjectRequired;
   ErrLPScenarioRequired; ErrLPEnginesInvalid; ErrLPConcurrencyInvalid;
   ErrLPDurationInvalid; ErrLPNoScenarios;
   ErrLPModeInvalid; ErrLPModeThroughput;
   ErrLPStepsInvalid; ErrLPStaircaseDuration;
   ErrScenInvalidFilename; ErrRequestsInvalid;
   ErrMalformed; ErrNotJMX; ErrNoTestPlan;
   ErrExecInvalidFilename; ErrExecutionMismatch;
   ErrScenarioNotInProject; ErrEngineLimit;
   ErrNoScenarios; ErrNoTestFile;
   ErrRequestsRequired;
   ErrEngineNeedsScript; ErrEnginePinned;
   ErrTenantNameRequired; ErrTenantNameTooLong; ErrTenantNameInvalid;
   ErrDisplayNameRequired; ErrStatusInvalid;
   ErrCeilingInvalid;
   ErrUnsequencedBatch;
   ErrUnknownRole; ErrGlobalRoleScoped;
   ErrSchedExecutionRequired; ErrSchedKindInvalid; ErrFireAtRequired;
   ErrRecurrenceRequired; ErrRecurrenceInvalid; ErrSchedWindowInvalid;
   ErrScopeInvalid;
   ErrCampNameRequired; ErrCampWindowInvalid; ErrServicesRequired;
   ErrDuplicateService; ErrCampProjectRequired; ErrServiceExecutionInvalid;
   ErrServiceExecutionMismatch; ErrServiceProjectTenantMismatch;
   ErrExecEngineUnknown;
   ErrFanOutTargetDuplicate;
   ErrCriterionRequired; ErrPodSizeRequired; ErrSeedQPSInvalid;
   ErrMaxQPSInvalid; ErrMaxStepsInvalid; ErrHoldInvalid;
   ErrExecutionNotCalibration; ErrCalibrationEngineRequired;
   ErrSourceScenarioNotBound; ErrScenarioNotConfigured;
   ErrNoCalibrationExecution;
   ErrCriterionInvalid;
   ErrPeriodInvalid;
   ErrClusterNameRequired; ErrOriginUnknown;
   ErrSecretRefRequired; ErrNamespaceRequired;
   ErrIngestURLRequired; ErrSidecarImageRequired;
   ErrLabelTooLong; ErrLabelControl;
   ErrKubeconfigInvalid;
   ErrHookProjectRequired; ErrURLRequired; ErrURLNotHTTPS;
   ErrURLTooLong; ErrSecretTooLong;
   ErrSLOProjectRequired; ErrSLONameRequired; ErrSLONameTooLong;
   ErrNoTargets; ErrP95NotPositive; ErrErrorRateRange;
   ErrSuccessRatioRange; ErrWindowInvalid].

Definition conflictErrors : list error :=
  [ErrFileExists;
   ErrScenarioInUse; ErrScenarioNotPortable;
   ErrScenarioNotTemplate;
   ErrProjectHasScenarios; ErrProjectHasExecutions;
   ErrNotDeployed; ErrEnginesNotReady; ErrAlreadyRunning; ErrNotRunning;
   ErrEnginesFinished;
   ErrEnginesUnreachable; ErrRunActive;
   ErrNoActiveRun; ErrStaleRun;
   ErrCampaignStarted;
   ErrClusterExists; ErrClusterInUse;
   ErrDuplicateName].

(** The sentinel a typed error stands for is in the list: [ErrCampaignFrozen]
    carries the campaign's name. *)
Definition is_conflict (e : error) : bool :=
  match e with ErrCampaignFrozen _ => true | _ => bool_decide (e ∈ conflictErrors) end.
Definition is_bad_request (e : error) : bool := bool_decide (e ∈ badRequestErrors).

Definition modeRemediation (status : string) : string :=
  if bool_decide (status = "no_profile") then
    "calibrate this scenario first (Execution page → Calibrate scenario), or configure it in Advanced mode"
  else if bool_decide (status = "stale") then
    "the scenario changed since its calibration; recalibrate it (Execution page → Calibrate scenario), or configure it in Advanced mode"
  else if bool_decide (status = "target_limited") then
    "one engine pod already overloaded the target during calibration; lower the target rate, or set engines yourself in Advanced mode"
  else if bool_decide (status = "inconclusive") then
    "the calibration found no ceiling (budget exhausted with both sides healthy); recalibrate with a higher max QPS, or set engines yourself in Advanced mode"
  else if bool_decide (status = "engine_floor") then
    "even the lowest calibrated rate saturated the engine; the scenario or its criterion is too heavy for one pod -- use Advanced mode"
  else "calibrate this scenario, or configure it in Advanced mode".

Definition quota_hint (ceiling : Z) (zero : bool) : string :=
  ("PUT /api/tenants/{tenant_id}/quota ceiling=" +:+ pretty ceiling) +:+
  (if zero then "; ceiling is set to 0 for this tenant+cluster" else "").

Definition respondError (err : error) : Response :=
  match err with
  | ErrNotFound | ErrObjectNotFound => writeError 404 (JErr err)
  | ProbeError _ => writeError 422 (JErr err)
  | errForbidden => writeError 403 (JStr "forbidden")
  | OverQuotaError tenantID cluster requested used ceiling zero =>
      writeErrorDetails 429 (JStr "reservation would exceed tenant quota")
        (Some (JObj [("tenant_id", JInt tenantID); ("cluster", JStr cluster);
                     ("requested", JInt requested); ("used", JInt used); ("ceiling", JInt ceiling);
                     ("hint", JStr (quota_hint ceiling zero))]))
  | ModeResolutionError status scenarioID engine cpu memory =>
      writeErrorDetails 409 (JErr err)
        (Some (JObj [("fanout_status", JStr status); ("scenario_id", JInt scenarioID);
                     ("engine", JStr engine); ("cpu", JStr cpu); ("memory", JStr memory);
                     ("hint", JStr (modeRemediation status))]))
  | EnginesFinishedError orphaned =>
      writeErrorDetails 409 (JErr err)
        (Some (JObj [("orphaned_completions", JInt orphaned);
                     ("hint", JStr "purge the execution and redeploy before triggering")]))
  | ErrNotDeployed =>
      writeErrorDetails 409 (JErr err)
        (Some (JObj [("hint", JStr "no engine pods exist for this execution (never deployed, or removed by the idle reaper); (re)deploy before triggering")]))
  | _ =>
      if is_conflict err then writeError 409 (JErr err)
      else if is_bad_request err then writeError 400 (JErr err)
      else writeError 500 (JStr "internal server error")
  end.

(** ** Requests *)
Record WebRequest := mkWebRequest {
  r_http : HttpRequest;
  r_path : string → string;               (** [r.PathValue] *)
  r_query : string → list string;         (** [r.URL.Query()] *)
  r_form : option (string → list string); (** [r.PostForm]; [None]: [ParseForm] fails *)
  r_mediaType : string;                   (** the bare type of Content-Type *)
  r_body : option string;                 (** [None]: reading it fails or it is over the limit *)
  r_upload : option (string * string);    (** file name and content; [None]: [parseUpload] fails *)
  r_account : Account                     (** of the request's context *)
}.
Definition with_account (acct : Account) (r : WebRequest) : WebRequest :=
  mkWebRequest (r_http r) (r_path r) (r_query r) (r_form r) (r_mediaType r) (r_body r) (r_upload r)
    acct.
(** [url.Values.Get]. *)
Definition Get_ (vs : string → list string) (k : string) : string := default "" (head (vs k)).
Definition query (r : WebRequest) (k : string) : string := Get_ (r_query r) k.
(** [strconv.ParseInt(s, 10, 64)] reads what [Atoi] reads. *)
Definition ParseInt (s : string) : option Z := Atoi s.
Definition pathInt (r : WebRequest) (name : string) : option Z := ParseInt (r_path r name).
Definition parseOptionalInt (s : string) : option (option Z) :=
  if bool_decide (s = "") then Some None else Some <$> ParseInt s.

(** ** The wiring ([Deps]) and the state behind it *)
Record Deps := mkDeps {
  d_Auth : option AuthService;
  d_DefaultOwners : list string;
  d_IngestToken : string;
  d_IngestTokens : bool;
  d_ExecutionCluster : bool;
  d_Tenants : bool;
  d_Campaigns : bool;
  d_Calibrations : bool;
  d_Clusters : bool;
  d_Quota : bool;
  d_FanOutRuns : bool;
  d_Digests : bool;
  d_Webhooks : bool;
  d_SLOs : bool;
  d_Thresholds : bool;
  d_Versions : bool;
  d_Reservations : bool;
  d_Shares : bool;
  d_Audit : bool;
  d_Sessions : option SessionProvider;
  d_TriggerReadyPoll : duration;
  d_TriggerReadyTimeout : duration;
  d_TriggerAbsentTimeout : duration;
  d_Series : bool;
  d_APMLinks : list (string * string)                       (** names and URL templates *)
}.

Record AuditEvent := mkAudit { au_Actor : string; au_Action : string; au_Target : string; au_Detail : string }.

(** [domain/report/share.go] and [ports/fake/sharestore.go]. *)
Record ShareToken := mkShare {
  sh_ID : Z; sh_RunID : Z; sh_Token : string; sh_CreatedBy : string; sh_CreatedTime : time;
  sh_Expires : option time
}.
Definition ExpiredAt (s : ShareToken) (now : time) : bool :=
  match sh_Expires s with Some e => negb (Before now e) | None => false end.
Record ShareStore := mkShareStore {
  shares : gmap string ShareToken; sh_seq : Z;
  sh_CreateErr : option error; sh_GetErr : option error; sh_ListErr : option error;
  sh_DeleteErr : option error
}.
Definition NewShareStore : ShareStore := mkShareStore ∅ 0 None None None None.
Definition put_shares (m : gmap string ShareToken) (seq : Z) (s : ShareStore) : ShareStore :=
  mkShareStore m seq (sh_CreateErr s) (sh_GetErr s) (sh_ListErr s) (sh_DeleteErr s).
Definition CreateShare (now : time) (runID : Z) (token createdBy : string) (expires : option time) :
    M ShareStore error unit := λ s,
  match sh_CreateErr s with
  | Some e => (Err e, s)
  | None =>
      let seq := sh_seq s + 1 in
      (Ok tt, put_shares (<[token := mkShare seq runID token createdBy now expires]> (shares s)) seq s)
  end.
Definition GetShareByToken (token : string) (s : ShareStore) : result error ShareToken :=
  match sh_GetErr s with
  | Some e => Err e
  | None => match shares s !! token with Some sh => Ok sh | None => Err ErrNotFound end
  end.
Definition share_le (a b : ShareToken) : Prop := sh_ID a <= sh_ID b.
#[global] Instance share_le_dec a b : Decision (share_le a b).
Proof. unfold share_le. apply _. Defined.
Definition ListSharesByRun (runID : Z) (s : ShareStore) : result error (list ShareToken) :=
  match sh_ListErr s with
  | Some e => Err e
  | None => Ok (merge_sort share_le (filter (λ sh, sh_RunID sh = runID) (map_to_list (shares s)).*2))
  end.
Definition DeleteShare (runID : Z) (token : string) : M ShareStore error unit := λ s,
  match sh_DeleteErr s with
  | Some e => (Err e, s)
  | None =>
      match shares s !! token with
      | Some sh =>
          if bool_decide (sh_RunID sh = runID)
          then (Ok tt, put_shares (delete token (shares s)) (sh_seq s) s)
          else (Err ErrNotFound, s)
      | None => (Err ErrNotFound, s)
      end
  end.

Abbreviation H_ := (MetricsState ThresholdStore).

(** What the services act on: the identity provider, the store with clusters,
    objects and measurements, the version history, the stores of objectives,
    webhooks and digests, the cluster registry with its Secrets, the share
    links and the audit log. *)
Record Api (P C R X : Type) := mkApi {
  a_provider : P;
  a_world : World C H_;
  a_versions : VersionStore;
  a_slos : SLOStore;
  a_webhooks : WebhookStore;
  a_digestSchedules : DigestScheduleStore;
  a_digests : DigestStore;
  a_registry : R;
  a_credentials : X;
  a_shares : ShareStore;
  a_audit : list AuditEvent
}.
Arguments mkApi {P C R X}.
Arguments a_provider {P C R X}.
Arguments a_world {P C R X}.
Arguments a_versions {P C R X}.
Arguments a_slos {P C R X}.
Arguments a_webhooks {P C R X}.
Arguments a_digestSchedules {P C R X}.
Arguments a_digests {P C R X}.
Arguments a_registry {P C R X}.
Arguments a_credentials {P C R X}.
Arguments a_shares {P C R X}.
Arguments a_audit {P C R X}.

(** A part of the state with its update. *)
Record lens (S T : Type) := mkLens { l_get : S → T; l_set : T → S → S }.
Arguments mkLens {S T}.
Arguments l_get {S T}.
Arguments l_set {S T}.
Class LensLaw {S T} (l : lens S T) : Prop := lens_same : ∀ s, l_set l (l_get l s) s = s.

(** A method of a part, as a handler calls it. *)
Definition on {S T A} (l : lens S T) (m : M T error A) : M S error A := λ s,
  let '(r, t) := m (l_get l s) in (r, l_set l t s).
(** [v, err := f(); if err != nil { respondError(w, err); return }]. *)
Definition call {S A} (m : M S error A) : M S Response A := λ s,
  match m s with
  | (Ok a, s') => (Ok a, s')
  | (Err e, s') => (Err (respondError e), s')
  end.
Definition reject {S A} (status : Z) (message : string) : M S Response A :=
  throw (writeError status (JStr message)).
Definition need {S A} (o : option A) (status : Z) (message : string) : M S Response A :=
  match o with Some a => mret a | None => reject status message end.

(** What the handlers take from outside: the clock, encoders and decoders, the
    parameters of the services they call, and what the rest of the system does
    while a handler sleeps ([e_sleep d t s] is the instant the handler wakes up
    and the state it finds). *)
Record Env (P C R X : Type) := mkEnv {
  e_now : time;
  e_ParseTime : string → option time;                       (** RFC 3339 *)
  e_Targets : string → option (list string);                (** a JSON array of strings *)
  e_Profile : string → option LoadProfile.Profile;                      (** a JSON load profile *)
  e_Wrapper : string → option LoadProfile.Profile;                      (** a YAML one *)
  e_Batch : string → option Batch;
  e_Instantiate : string → option (string * Z * string);    (** name, project, target url *)
  e_Thresholds : string → option (list (string * string * float64));
  e_Session : string → option string;
  e_Star : string → option (option bool);
  e_Note : string → option (option string);
  e_Expiry : string → option (option Z);                    (** hours of a share link *)
  e_DecodePayload : string → option Payload;
  e_MarshalConf : Conf.Config → option string;
  e_UnmarshalScen : string → option Conf.Scenario;
  e_MarshalScen : Conf.Scenario → option string;
  e_YAMLDiagnostics : string → list Diagnostic;
  e_Image : Executor → result error string;
  e_Trace : result error Telemetry.TraceContext;
  e_DefaultEngine : Executor;
  e_MaxEngines : Z;
  e_Modes : ModeSources C H_;
  e_ParseQuantity : string → option Quantity;
  e_ParseCron : string → option Schedule.CronSchedule;
  e_Fingerprint : Z → World C H_ → result error string;
  e_ParseKubeconfig : string → result error ClusterCredential;
  e_Probe : ClusterCredential → string → result error unit;
  e_HashToken : string → string;
  e_Seal : result error string;
  e_Mint : result error string;
  e_Mac : string → string → string;
  e_MarshalPayload : Auth.payload → option string;
  e_Random : result error string;                           (** 32 bytes in hexadecimal *)
  e_Cancelled : time → bool;                                (** the client has gone by then *)
  e_ReportFields : Report → list (string * json);           (** the report's own JSON fields *)
  e_sleep : duration → time → Api P C R X → time * Api P C R X
}.
Arguments e_now {P C R X}.
Arguments e_ParseTime {P C R X}.
Arguments e_Targets {P C R X}.
Arguments e_Profile {P C R X}.
Arguments e_Wrapper {P C R X}.
Arguments e_Batch {P C R X}.
Arguments e_Instantiate {P C R X}.
Arguments e_Thresholds {P C R X}.
Arguments e_Session {P C R X}.
Arguments e_Star {P C R X}.
Arguments e_Note {P C R X}.
Arguments e_Expiry {P C R X}.
Arguments e_DecodePayload {P C R X}.
Arguments e_MarshalConf {P C R X}.
Arguments e_UnmarshalScen {P C R X}.
Arguments e_MarshalScen {P C R X}.
Arguments e_YAMLDiagnostics {P C R X}.
Arguments e_Image {P C R X}.
Arguments e_Trace {P C R X}.
Arguments e_DefaultEngine {P C R X}.
Arguments e_MaxEngines {P C R X}.
Arguments e_Modes {P C R X}.
Arguments e_ParseQuantity {P C R X}.
Arguments e_ParseCron {P C R X}.
Arguments e_Fingerprint {P C R X}.
Arguments e_ParseKubeconfig {P C R X}.
Arguments e_Probe {P C R X}.
Arguments e_HashToken {P C R X}.
Arguments e_Seal {P C R X}.
Arguments e_Mint {P C R X}.
Arguments e_Mac {P C R X}.
Arguments e_MarshalPayload {P C R X}.
Arguments e_Random {P C R X}.
Arguments e_Cancelled {P C R X}.
Arguments e_ReportFields {P C R X}.
Arguments e_sleep {P C R X}.

Section api.
Context {P C R X : Type}.
Let S : Type := Api P C R X.

Definition the_world : lens S (World C H_) :=
  mkLens a_world (λ w s, mkApi (a_provider s) w (a_versions s) (a_slos s) (a_webhooks s) (a_digestSchedules s) (a_digests s) (a_registry s) (a_credentials s) (a_shares s) (a_audit s)).
Definition the_store : lens S Store :=
  mkLens (λ s, w_store (a_world s)) (λ st s, l_set the_world (set_store st (a_world s)) s).
Definition the_scenarios : lens S ScenWorld :=
  mkLens (λ s, mkScenWorld (w_store (a_world s)) (w_objects (a_world s)) (a_versions s))
    (λ sw s,
      mkApi (a_provider s) (mkWorld (sw_store sw) (w_cluster (a_world s)) (sw_objects sw) (w_metrics (a_world s))) (sw_versions sw) (a_slos s) (a_webhooks s) (a_digestSchedules s) (a_digests s) (a_registry s) (a_credentials s) (a_shares s) (a_audit s)).
Definition the_metrics : lens S (Store * H_) :=
  mkLens (λ s, (w_store (a_world s), w_metrics (a_world s)))
    (λ sh s, l_set the_world (mkWorld sh.1 (w_cluster (a_world s)) (w_objects (a_world s)) sh.2) s).
Definition set_thresholds (t : ThresholdStore) (h : H_) : H_ :=
  mkMetricsState (ms_progress h) (ms_reports h) (ms_seen h) (ms_tally h) (ms_sink h) (ms_bus h)
    (ms_notified h) t.
Definition set_reports (rs : ReportStore) (h : H_) : H_ :=
  mkMetricsState (ms_progress h) rs (ms_seen h) (ms_tally h) (ms_sink h) (ms_bus h)
    (ms_notified h) (ms_thresholds h).
Definition the_thresholds : lens S (Store * ThresholdStore) :=
  mkLens (λ s, (w_store (a_world s), ms_thresholds (w_metrics (a_world s))))
    (λ st s, l_set the_metrics (st.1, set_thresholds st.2 (w_metrics (a_world s))) s).
Definition the_reports : lens S ReportStore :=
  mkLens (λ s, ms_reports (w_metrics (a_world s)))
    (λ rs s, l_set the_metrics (w_store (a_world s), set_reports rs (w_metrics (a_world s))) s).
Definition the_slos : lens S SLOStore := mkLens a_slos (λ x s, mkApi (a_provider s) (a_world s) (a_versions s) x (a_webhooks s) (a_digestSchedules s) (a_digests s) (a_registry s) (a_credentials s) (a_shares s) (a_audit s)).
Definition the_webhooks : lens S WebhookStore := mkLens a_webhooks (λ x s, mkApi (a_provider s) (a_world s) (a_versions s) (a_slos s) x (a_digestSchedules s) (a_digests s) (a_registry s) (a_credentials s) (a_shares s) (a_audit s)).
Definition the_digests : lens S DigestScheduleStore := mkLens a_digestSchedules (λ x s, mkApi (a_provider s) (a_world s) (a_versions s) (a_slos s) (a_webhooks s) x (a_digests s) (a_registry s) (a_credentials s) (a_shares s) (a_audit s)).
Definition the_registry : lens S (ClusterWorld R X) :=
  mkLens (λ s, mkCW (a_registry s) (a_credentials s) (w_store (a_world s)))
    (λ cw s, l_set the_store (cw_runs cw) (mkApi (a_provider s) (a_world s) (a_versions s) (a_slos s) (a_webhooks s) (a_digestSchedules s) (a_digests s) (cw_registry cw) (cw_credentials cw) (a_shares s) (a_audit s))).
Definition the_shares : lens S ShareStore := mkLens a_shares (λ x s, mkApi (a_provider s) (a_world s) (a_versions s) (a_slos s) (a_webhooks s) (a_digestSchedules s) (a_digests s) (a_registry s) (a_credentials s) x (a_audit s)).
Definition the_identity : lens S (P * Store) :=
  mkLens (λ s, (a_provider s, w_store (a_world s)))
    (λ ps s, l_set the_store ps.2 (mkApi ps.1 (a_world s) (a_versions s) (a_slos s) (a_webhooks s) (a_digestSchedules s) (a_digests s) (a_registry s) (a_credentials s) (a_shares s) (a_audit s))).

#[global] Instance world_law : LensLaw the_world.
Proof using. by intros []. Qed.
#[global] Instance store_law : LensLaw the_store.
Proof using. by intros [? [] ? ? ? ? ? ? ? ? ?]. Qed.
#[global] Instance scenarios_law : LensLaw the_scenarios.
Proof using. by intros [? [] ? ? ? ? ? ? ? ? ?]. Qed.
#[global] Instance metrics_law : LensLaw the_metrics.
Proof using. by intros [? [] ? ? ? ? ? ? ? ? ?]. Qed.
#[global] Instance thresholds_law : LensLaw the_thresholds.
Proof using. by intros [? [? ? ? []] ? ? ? ? ? ? ? ? ?]. Qed.
#[global] Instance reports_law : LensLaw the_reports.
Proof using. by intros [? [? ? ? []] ? ? ? ? ? ? ? ? ?]. Qed.
#[global] Instance slos_law : LensLaw the_slos.
Proof using. by intros []. Qed.
#[global] Instance webhooks_law : LensLaw the_webhooks.
Proof using. by intros []. Qed.
#[global] Instance digests_law : LensLaw the_digests.
Proof using. by intros []. Qed.
#[global] Instance registry_law : LensLaw the_registry.
Proof using. by intros [? [] ? ? ? ? ? ? ? ? ?]. Qed.
#[global] Instance shares_law : LensLaw the_shares.
Proof using. by intros []. Qed.
#[global] Instance identity_law : LensLaw the_identity.
Proof using. by intros [? [] ? ? ? ? ? ? ? ? ?]. Qed.

(** Reading a part of the state. *)
Definition fetch {A} (f : S → result error A) : M S Response A := call (ask f).
Definition store_of (s : S) : Store := w_store (a_world s).
Definition reports_of (s : S) : ReportStore := ms_reports (w_metrics (a_world s)).

Section authorisation.
Context (d : Deps).

(** ** Authorisation ([ownership.go]) *)
Definition rbacEnabled : bool :=
  match d_Auth d with Some svc => enabled svc | None => false end.
Definition owns (owner : string) : bool := bool_decide (owner ∈ d_DefaultOwners d).
(** [h.deps.Auth.Authorize(accountFrom(ctx), ...)]; reached only under RBAC. *)
Definition allowed (acct : Account) (resource : string) (action : Rbac.Action) (tenantID : option Z) : bool :=
  match d_Auth d with
  | Some svc => Allowed (AuthApp.Authorize svc acct (mkRequest resource action tenantID))
  | None => false
  end.
Definition forbid_unless (b : bool) : M S error unit := guard (negb b) errForbidden.

Definition authorize (acct : Account) (owner : string) (tenantID : option Z) (resource : string)
    (action : Rbac.Action) : M S error unit :=
  if negb rbacEnabled then forbid_unless (owns owner)
  else forbid_unless (allowed acct resource action tenantID).

Definition authorizeInProject (acct : Account) (projectID : Z) (resource : string) (action : Rbac.Action) :
    M S error unit :=
  p ← ask (λ s, GetProject projectID (store_of s));
  authorize acct (Project.prj_Owner p) (Project.prj_TenantID p) resource action.
Definition authorizeProject (acct : Account) (projectID : Z) (action : Rbac.Action) : M S error unit :=
  authorizeInProject acct projectID ResourceProject action.
Definition authorizeCreateExecution (acct : Account) (projectID : Z) : M S error unit :=
  authorizeInProject acct projectID ResourceExecution ActionCreate.
Definition authorizeCreateScenario (acct : Account) (projectID : Z) : M S error unit :=
  authorizeInProject acct projectID ResourceScenario ActionCreate.

Definition authorizeExecution (acct : Account) (executionID : Z) (action : Rbac.Action) : M S error unit :=
  c ← ask (λ s, GetExecution executionID (store_of s));
  if negb rbacEnabled then authorizeProject acct (exe_ProjectID c) action
  else authorize acct "" (exe_TenantID c) ResourceExecution action.
Definition authorizeRun (acct : Account) (executionID : Z) (action : Rbac.Action) : M S error unit :=
  c ← ask (λ s, GetExecution executionID (store_of s));
  if negb rbacEnabled then authorizeProject acct (exe_ProjectID c) action
  else authorize acct "" (exe_TenantID c) ResourceRun action.
Definition authorizeScenario (acct : Account) (scenarioID : Z) (action : Rbac.Action) : M S error unit :=
  p ← ask (λ s, GetScenario scenarioID (store_of s));
  if negb rbacEnabled then authorizeProject acct (Scenario.scn_ProjectID p) action
  else authorize acct "" (Scenario.scn_TenantID p) ResourceScenario action.
Definition authorizeReport (acct : Account) (executionID : Z) : M S error unit :=
  if negb rbacEnabled then mret tt
  else
    c ← ask (λ s, GetExecution executionID (store_of s));
    authorize acct "" (exe_TenantID c) ResourceReport ActionRead.

Definition when_rbac (acct : Account) (resource : string) (action : Rbac.Action) (tenantID : option Z) :
    M S error unit :=
  if negb rbacEnabled then mret tt else forbid_unless (allowed acct resource action tenantID).
Definition authorizeAdmin (acct : Account) (tenantID : option Z) : M S error unit :=
  when_rbac acct ResourceTenant ActionAdmin tenantID.
Definition authorizeSystemAdmin (acct : Account) : M S error unit :=
  when_rbac acct ResourceSystem ActionAdmin None.
Definition authorizeKillSwitch (acct : Account) : M S error unit := authorizeSystemAdmin acct.
Definition authorizeCampaignTenant (acct : Account) (tenantID : Z) (action : Rbac.Action) : M S error unit :=
  when_rbac acct ResourceCampaign action (Some tenantID).
Definition authorizeScheduleList (acct : Account) (tenantID : Z) : M S error unit :=
  when_rbac acct ResourceSchedule ActionList (Some tenantID).
Definition authorizeScheduleTenant (acct : Account) (tenantID : Z) : M S error unit :=
  when_rbac acct ResourceSchedule ActionCreate (Some tenantID).

Definition gate (configured : bool) (message : string) : M S Response unit :=
  if configured then mret tt else reject 404 message.
Definition tenantAdminGate (r : WebRequest) : M S Response unit :=
  _ ← gate (d_Tenants d) "tenants not configured";
  call (authorizeAdmin (r_account r) (pathInt r "tenant_id")).
Definition clusterAdminGate (r : WebRequest) : M S Response unit :=
  _ ← gate (d_Clusters d) "cluster registry not configured";
  call (when_rbac (r_account r) ResourceSystem ActionAdmin None).

Definition audit (r : WebRequest) (action target detail : string) : M S Response unit :=
  if d_Audit d
  then modify (λ s, mkApi (a_provider s) (a_world s) (a_versions s) (a_slos s) (a_webhooks s) (a_digestSchedules s) (a_digests s) (a_registry s) (a_credentials s) (a_shares s) (a_audit s ++ [mkAudit (Subject (r_account r)) action target detail]))
  else mret tt.
End authorisation.
End api.
