(* ===== verification/HttpAdmin.v ===== *)
(** * The HTTP API: projects, tenants, clusters and what a project announces

    The handlers of [project_handlers.go], [tenant_handlers.go],
    [cluster_handlers.go], [admin_handlers.go], [webhook_handlers.go],
    [slo_handlers.go], [digest_handlers.go], [reservation_handlers.go] and
    [session_handlers.go]. *)
From S2P Require Import Prelude Errors GoStrings GoFloat ParseFloat GoDuration Taurus Scenario Execution Rbac Auth Reservation Quota Directory Report Store TenantApp AuthApp Cluster AdminApp MetricsApp Slo Webhook Digest ClusterApp ProjectApp Http.
Import Account.

Section handlers.
Context {P C R X : Type} `{!Unicode} `{!URLParser} `{!Scheduler C} `{!AuthProvider P}.
Context `{!ClusterRegistry R} `{!CredentialStore X}.
Local Abbreviation S := (Api P C R X).
Context (env : Env P C R X) (d : Deps) (r : WebRequest).
Local Abbreviation now := (e_now env).
Local Abbreviation acct := (r_account r).
Local Abbreviation Handler := (M S Response Response).

#[local] Instance evaluator : ThresholdEvaluator Threshold.ThresholdStore :=
  {| EvaluateRun := Threshold.Threshold_EvaluateRun now |}.

Definition form : M S Response (string → list string) :=
  need (r_form r) 400 "failed to parse form".
Definition path_id (name message : string) : M S Response Z := need (pathInt r name) 400 message.
Definition queryInt : Z := default 0 (Atoi (query r "limit")).

(** ** Projects ([project_handlers.go]) *)
Definition toProjectResponse (p : Project.Project) : json :=
  JObj ([("id", JInt (Project.prj_ID p)); ("name", JStr (Project.prj_Name p));
         ("owner", JStr (Project.prj_Owner p))] ++
        omit_str "sid" (Project.prj_SID p) ++ omit_opt "tenant_id" JInt (Project.prj_TenantID p) ++
        omit_str "created_by" (Project.prj_CreatedBy p) ++
        omit_str "updated_by" (Project.prj_UpdatedBy p) ++
        [("created_time", JTime (Project.prj_CreatedTime p))]).

Definition visibleProjects : M S Response (list Project.Project) :=
  if negb (rbacEnabled d) then gets (λ s : S, Project_List (d_DefaultOwners d) (store_of s))
  else if HasGlobalRole acct RoleServiceProviderAdmin
  then gets (λ s : S, Project_ListAll (store_of s))
  else gets (λ s : S, Project_ListByTenants (TenantIDs acct) (store_of s)).

Definition listProjects : Handler :=
  projects ← visibleProjects;
  mret (writeJSON 200 (JArr (toProjectResponse <$> projects))).

Definition getProject : Handler :=
  id ← path_id "project_id" "invalid project id";
  p ← fetch (λ s : S, GetProject id (store_of s));
  _ ← call (authorize d acct (Project.prj_Owner p) (Project.prj_TenantID p) ResourceProject ActionRead);
  mret (writeJSON 200 (toProjectResponse p)).

Definition createProject : Handler :=
  f ← form;
  let owner := Get_ f "owner" in
  tenantID ← need (parseOptionalInt (Get_ f "tenant_id")) 400 "invalid tenant_id";
  _ ← (if rbacEnabled d
       then call (authorize d acct owner tenantID ResourceProject ActionCreate)
       else if negb (owns d owner) then reject 403 ("you are not a member of " +:+ owner)
       else mret tt);
  p ← call (on the_store (CreateInTenant now (Get_ f "name") owner (Get_ f "sid") tenantID));
  mret (writeJSON 201 (toProjectResponse p)).

Definition toThroughputPoint (p : ThroughputPoint) : json :=
  JObj ([("run_id", JInt (th_RunID p)); ("started_at", JTime (th_StartedAt p));
         ("achieved_throughput", JFloat (th_AchievedThroughput p));
         ("requested_throughput", JFloat (th_RequestedThroughput p))] ++
        omit_bool "regressed" (th_Regressed p)).
Definition toProjectSummaryResponse (s : Summary) : json :=
  JObj ([("project_id", JInt (su_ProjectID s)); ("total_executions", JInt (su_TotalExecutions s))] ++
        (if Prelude.IsZero (su_LastExecutionTime s) then []
         else [("last_execution_time", JTime (su_LastExecutionTime s))]) ++
        [("scenario_count", JInt (su_ScenarioCount s)); ("template_count", JInt (su_TemplateCount s));
         ("regressed_count", JInt (su_RegressedCount s));
         ("last_run", null_or (λ l, JObj [("run_id", JInt (la_RunID l));
            ("outcome", JStr (outcome_str (la_Outcome l))); ("started_at", JTime (la_StartedAt l))])
            (su_LastRun s));
         ("throughput_series", JArr (toThroughputPoint <$> su_ThroughputSeries s))]).

Definition projectSummary : Handler :=
  projectID ← path_id "project_id" "invalid project id";
  _ ← call (authorizeProject d acct projectID ActionRead);
  s ← fetch (λ s : S, Project_Summary (Some (reports_of s)) projectID queryInt (store_of s));
  mret (writeJSON 200 (toProjectSummaryResponse s)).

Definition deleteProject : Handler :=
  id ← path_id "project_id" "invalid project id";
  _ ← call (authorizeProject d acct id ActionDelete);
  _ ← call (on the_store (Project_Delete id));
  mret (message_ 200 "project deleted").

(** ** Tenants and roles ([tenant_handlers.go]) *)
Definition toTenantResponse (t : Tenant.Tenant) : json :=
  JObj [("id", JInt (Tenant.ID t)); ("name", JStr (Tenant.Name t));
        ("display_name", JStr (Tenant.DisplayName t)); ("status", JStr (Tenant.Status t));
        ("created_time", JTime (Tenant.CreatedTime t))].

Definition createTenant : Handler :=
  _ ← tenantAdminGate d r;
  f ← form;
  t ← call (on the_store (TenantApp.Create now (Get_ f "name") (Get_ f "display_name")));
  _ ← audit d r "tenant.create" (Tenant.Name t) "";
  mret (writeJSON 201 (toTenantResponse t)).

Definition listTenants : Handler :=
  _ ← tenantAdminGate d r;
  tenants ← call (on the_store TenantApp.List);
  mret (writeJSON 200 (JArr (toTenantResponse <$> tenants))).

Definition getTenant : Handler :=
  _ ← tenantAdminGate d r;
  id ← path_id "tenant_id" "invalid tenant id";
  t ← call (on the_store (TenantApp.Get id));
  mret (writeJSON 200 (toTenantResponse t)).

Definition setTenantStatus : Handler :=
  _ ← tenantAdminGate d r;
  id ← path_id "tenant_id" "invalid tenant id";
  f ← form;
  let status := Get_ f "status" in
  _ ← call (on the_store (SetStatus id status));
  _ ← audit d r "tenant.status" (pretty id) status;
  mret (message_ 200 "status updated").

Definition setTenantQuota : Handler :=
  _ ← tenantAdminGate d r;
  id ← path_id "tenant_id" "invalid tenant id";
  f ← form;
  ceiling ← need (Atoi (Get_ f "ceiling")) 400 "invalid ceiling";
  let cluster := Get_ f "cluster" in
  _ ← call (on the_store (SetQuota id cluster ceiling));
  _ ← audit d r "tenant.quota" (pretty id) cluster;
  mret (message_ 200 "quota updated").

Definition getTenantQuota : Handler :=
  _ ← tenantAdminGate d r;
  id ← path_id "tenant_id" "invalid tenant id";
  let cluster := query r "cluster" in
  quota ← call (on the_store (TenantApp.GetQuota id cluster));
  mret (writeJSON 200 (JObj [("cluster", JStr cluster); ("ceiling", JInt (eq_Ceiling quota));
                             ("defaulted", JBool (eq_Defaulted quota))])).

Definition assignRole (tenantID : option Z) : Handler :=
  f ← form;
  let g := mkGrant (Get_ f "subject") (Get_ f "email") (Get_ f "role") tenantID (Subject acct) in
  _ ← (if bool_decide (g_Subject g = "") then reject 400 "subject is required" else mret tt);
  _ ← call (on the_store (AssignRole now g));
  _ ← audit d r "role.assign" (g_Subject g) (g_RoleName g);
  mret (message_ 201 "role assigned").
Definition assignTenantRole : Handler :=
  _ ← tenantAdminGate d r;
  id ← path_id "tenant_id" "invalid tenant id";
  assignRole (Some id).
Definition assignGlobalRole : Handler := _ ← tenantAdminGate d r; assignRole None.

Definition listTenantRoles : Handler :=
  _ ← tenantAdminGate d r;
  id ← path_id "tenant_id" "invalid tenant id";
  entries ← call (on the_store (ListTenantRoles id));
  mret (writeJSON 200 (JArr ((λ e, JObj
    [("subject", JStr (ge_Subject e)); ("email", JStr (ge_Email e)); ("role", JStr (ge_RoleName e));
     ("granted_by", JStr (ge_GrantedBy e)); ("granted_time", JTime (ge_GrantedTime e))]) <$> entries))).

Definition revokeRole (tenantID : option Z) : Handler :=
  let subject := query r "subject" in
  let roleName := query r "role" in
  _ ← (if bool_decide (subject = "") || bool_decide (roleName = "")
       then reject 400 "subject and role are required" else mret tt);
  _ ← call (on the_store (RevokeRole subject roleName tenantID));
  _ ← audit d r "role.revoke" subject roleName;
  mret (message_ 200 "role revoked").
Definition revokeTenantRole : Handler :=
  _ ← tenantAdminGate d r;
  id ← path_id "tenant_id" "invalid tenant id";
  revokeRole (Some id).
Definition revokeGlobalRole : Handler := _ ← tenantAdminGate d r; revokeRole None.

(** ** The reservation calendar ([reservation_handlers.go]) *)
Definition defaultReservationWindow : duration := 7 * 24 * 3600 * second.
Definition query_time (k : string) (default_ : time) : M S Response time :=
  if bool_decide (query r k = "") then mret default_
  else need (e_ParseTime env (query r k)) 400 ("invalid " +:+ k +:+ " time; use RFC3339").
Definition reservationWindow : M S Response (time * time) :=
  from ← query_time "from" now;
  to ← query_time "to" (time_Add now defaultReservationWindow);
  mret (from, to).
Definition toReservationResponse (x : Reservation.Reservation) : json :=
  JObj ([("id", JInt (res_ID x)); ("tenant_id", JInt (res_TenantID x))] ++
        omit_str "cluster" (res_Cluster x) ++
        [("engine_count", JInt (res_EngineCount x)); ("start", JTime (res_Start x));
         ("end", JTime (res_End x)); ("execution_id", JInt (res_ExecutionID x))]).
Definition tenantReservations : Handler :=
  _ ← gate (d_Tenants d) "tenants not configured";
  tenantID ← path_id "tenant_id" "invalid tenant id";
  _ ← call (authorizeScheduleList d acct tenantID);
  w ← reservationWindow;
  _ ← gate (d_Reservations d) "reservations not configured";
  l ← gets (λ s : S, ReservationsInWindow tenantID (query r "cluster") w.1 w.2 (st_ledger (store_of s)));
  mret (writeJSON 200 (JArr (toReservationResponse <$> l))).

(** ** Clusters ([cluster_handlers.go]) *)
Definition cluster_fields (c : Cluster) : list (string * json) :=
  [("name", JStr (cl_Name c)); ("api_url", JStr (cl_APIURL c)); ("ingest_url", JStr (cl_IngestURL c));
   ("sidecar_image", JStr (cl_SidecarImage c)); ("namespace", JStr (cl_Namespace c));
   ("secret_ref", JStr (cl_SecretRef c)); ("origin", JStr (cl_Origin c))] ++
  omit_str "geo" (cl_Geo c) ++ omit_str "zone" (cl_Zone c) ++ omit_str "created_by" (cl_CreatedBy c) ++
  [("created_time", JTime (cl_CreatedTime c))].
Definition toClusterResponse (c : Cluster) : json := JObj (cluster_fields c).

Definition withCapacity (s : S) (c : Cluster) : list (string * json) :=
  if d_Quota d then
    let '(used, ceiling) := ClusterCapacity now (cl_Name c) (a_world s) in
    [("engines_used", JInt used); ("engines_ceiling", JInt ceiling)]
  else [].
Definition fanOutRunning (s : S) (id : Z) : option json :=
  match GetExecution id (store_of s) with
  | Ok exe =>
      if IsFanOut exe
      then Some (JObj [("execution_id", JInt id); ("name", JStr (exe_Name exe))]) else None
  | Err _ => None
  end.
Definition withFanOutRunning (s : S) (c : Cluster) : list (string * json) :=
  if d_FanOutRuns d
  then [("fanout_running",
         JArr (omap (fanOutRunning s) (ExecutionsWithActiveRunOnCluster (cl_Name c) (store_of s))))]
  else [].

Definition new_cluster (f : string → list string) (secretRef : string) : Cluster :=
  mkCluster (Get_ f "name") "" "" (Get_ f "ingest_url") (Get_ f "sidecar_image") (Get_ f "namespace")
    secretRef "" "" (Get_ f "geo") (Get_ f "zone") (Subject acct) now.
Definition createCluster : Handler :=
  _ ← clusterAdminGate d r;
  f ← form;
  let kubeconfig := Get_ f "kubeconfig" in
  if negb (bool_decide (kubeconfig = "")) then
    res ← call (on the_registry (RegisterBYOC (e_ParseKubeconfig env) (e_Probe env) (e_HashToken env)
                  (new_cluster f "") kubeconfig (e_Seal env) (e_Mint env)));
    let out := reg_Cluster res in
    _ ← audit d r "cluster.register" (cl_Name out) (cl_Origin out);
    mret (writeJSON 201 (JObj (cluster_fields out ++ [("ingest_token", JStr (reg_IngestToken res))])))
  else
    out ← call (on the_registry (RegisterOperator (e_Probe env) (new_cluster f (Get_ f "secret_ref"))));
    _ ← audit d r "cluster.register" (cl_Name out) (cl_Origin out);
    mret (writeJSON 201 (toClusterResponse out)).

Definition rotateIngestToken : Handler :=
  _ ← clusterAdminGate d r;
  let name := r_path r "name" in
  _ ← (if bool_decide (name = "") then reject 400 "invalid cluster name" else mret tt);
  token ← call (on the_registry (RotateIngestToken (e_HashToken env) name (e_Mint env)));
  _ ← audit d r "cluster.rotate_ingest_token" name "";
  mret (writeJSON 200 (JObj [("ingest_token", JStr token)])).

Definition listClusters : Handler :=
  _ ← clusterAdminGate d r;
  clusters ← call (on the_registry Cluster_List);
  out ← gets (λ s : S, (λ c, JObj (cluster_fields c ++ withCapacity s c ++ withFanOutRunning s c)) <$> clusters);
  mret (writeJSON 200 (JArr out)).

Definition getCluster : Handler :=
  _ ← clusterAdminGate d r;
  c ← call (on the_registry (Cluster_Get (r_path r "name")));
  mret (writeJSON 200 (toClusterResponse c)).

Definition updateCluster : Handler :=
  _ ← clusterAdminGate d r;
  f ← form;
  c ← call (on the_registry (Cluster_Update (r_path r "name") (Get_ f "ingest_url")
              (Get_ f "sidecar_image") (Get_ f "namespace") (Get_ f "geo") (Get_ f "zone")));
  _ ← audit d r "cluster.update" (cl_Name c) "";
  mret (writeJSON 200 (toClusterResponse c)).

Definition deleteCluster : Handler :=
  _ ← clusterAdminGate d r;
  let name := r_path r "name" in
  _ ← call (on the_registry (Cluster_Delete name));
  _ ← audit d r "cluster.delete" name "";
  mret (mkResponse 204 NoBody).

(** ** Administration ([admin_handlers.go]) *)
Definition adminExecutions : Handler :=
  _ ← call (authorizeSystemAdmin d acct);
  running ← call (on the_world RunningExecutions);
  mret (writeJSON 200 (JArr ((λ e, JObj
    [("execution_id", JInt (re_ExecutionID e)); ("name", JStr (re_Name e));
     ("project_id", JInt (re_ProjectID e)); ("deployed_at", JTime (re_DeployedAt e));
     ("running", JBool (re_Running e))]) <$> running))).

Definition abortExecutions : Handler :=
  _ ← call (authorizeKillSwitch d acct);
  f ← form;
  let scope := Get_ f "scope" in
  let value := Get_ f "value" in
  res ← call (on the_world (AdminApp.Abort now scope value));
  _ ← call (lift res.2);
  _ ← audit d r "admin.abort" scope value;
  mret (writeJSON 200 (JObj [("aborted", JArr (JInt <$> res.1))])).

(** ** Webhooks ([webhook_handlers.go]) *)
Definition toWebhookResponse (w : Webhook) : json :=
  JObj ([("id", JInt (wh_ID w)); ("url", JStr (wh_URL w));
         ("has_secret", JBool (negb (bool_decide (wh_Secret w = ""))));
         ("enabled", JBool (wh_Enabled w))] ++ omit_str "created_by" (wh_CreatedBy w) ++
        [("created_time", JTime (wh_CreatedTime w))]).
Definition webhookGate : M S Response unit := gate (d_Webhooks d) "webhooks not configured".

Definition createWebhook : Handler :=
  _ ← webhookGate;
  projectID ← path_id "project_id" "invalid project id";
  _ ← call (authorizeProject d acct projectID ActionCreate);
  f ← form;
  let rawURL := TrimSpace (Get_ f "url") in
  _ ← (if bool_decide (rawURL = "") then reject 400 "url is required" else mret tt);
  _ ← (if bool_decide (CutPrefix rawURL "https://" = None) then reject 400 "url must be https" else mret tt);
  created ← call (on the_webhooks (Webhook_Create now projectID rawURL (Get_ f "secret") (Subject acct)));
  mret (writeJSON 201 (toWebhookResponse created)).

Definition listWebhooks : Handler :=
  _ ← webhookGate;
  projectID ← path_id "project_id" "invalid project id";
  _ ← call (authorizeProject d acct projectID ActionRead);
  hooks ← fetch (λ s : S, ListWebhooksByProject projectID (a_webhooks s));
  mret (writeJSON 200 (JArr (toWebhookResponse <$> hooks))).

Definition deleteWebhook : Handler :=
  _ ← webhookGate;
  projectID ← path_id "project_id" "invalid project id";
  id ← path_id "webhook_id" "invalid webhook id";
  _ ← call (authorizeProject d acct projectID ActionDelete);
  _ ← call (on the_webhooks (DeleteWebhook projectID id));
  mret (mkResponse 204 NoBody).

Definition setWebhookEnabled : Handler :=
  _ ← webhookGate;
  projectID ← path_id "project_id" "invalid project id";
  id ← path_id "webhook_id" "invalid webhook id";
  _ ← call (authorizeProject d acct projectID ActionUpdate);
  f ← form;
  enabled ← need (ParseBool (Get_ f "enabled")) 400 "invalid enabled";
  _ ← call (on the_webhooks (SetWebhookEnabled projectID id enabled));
  mret (message_ 200 "updated").

(** ** Objectives ([slo_handlers.go]) *)
Definition toSLOResponse (o : SLO) : json :=
  JObj [("id", JInt (slo_ID o)); ("project_id", JInt (slo_ProjectID o)); ("name", JStr (slo_Name o));
        ("target_p95_ms", null_or JFloat (slo_TargetP95MS o));
        ("target_error_rate", null_or JFloat (slo_TargetErrorRate o));
        ("target_success_ratio", null_or JFloat (slo_TargetSuccessRatio o));
        ("created_time", JTime (slo_CreatedTime o))].
Definition sloGate : M S Response unit := gate (d_SLOs d) "slos not configured".

(** [formFloat]: absent, or a number, or an error. *)
Definition formFloat (f : string → list string) (key message : string) : M S Response (option float64) :=
  let v := Get_ f key in
  if bool_decide (v = "") then mret None
  else v ← need (ParseFloat v) 400 message; mret (Some v).

Definition createSLO : Handler :=
  _ ← sloGate;
  projectID ← path_id "project_id" "invalid project id";
  _ ← call (authorizeProject d acct projectID ActionCreate);
  f ← form;
  p95 ← formFloat f "target_p95_ms" "invalid target_p95_ms";
  rate ← formFloat f "target_error_rate" "invalid target_error_rate";
  ratio_ ← formFloat f "target_success_ratio" "invalid target_success_ratio";
  created ← call (on the_slos
    (SLO_Create now (mkSLO 0 projectID (Get_ f "name") p95 rate ratio_ time_zero)));
  mret (writeJSON 201 (toSLOResponse created)).

Definition listSLOs : Handler :=
  _ ← sloGate;
  projectID ← path_id "project_id" "invalid project id";
  _ ← call (authorizeProject d acct projectID ActionRead);
  objs ← fetch (λ s : S, SLO_List projectID (a_slos s));
  mret (writeJSON 200 (JArr (toSLOResponse <$> objs))).

Definition deleteSLO : Handler :=
  _ ← sloGate;
  projectID ← path_id "project_id" "invalid project id";
  id ← path_id "slo_id" "invalid slo id";
  _ ← call (authorizeProject d acct projectID ActionDelete);
  _ ← call (on the_slos (SLO_Delete projectID id));
  mret (mkResponse 204 NoBody).

Definition sloMetricResponse (m : MetricBudget) : json :=
  JObj [("metric", JStr (mb_Metric m)); ("target", JFloat (mb_Target m));
        ("actual", null_or JFloat (mb_Actual m)); ("compliant", JBool (mb_Compliant m));
        ("budget_remaining_pct", null_or JFloat (mb_BudgetRemainingPct m))].
Definition sloBudgetResponse (o : SLOOutcome) : json :=
  JObj [("slo_id", JInt (so_SLOID o)); ("name", JStr (slo_Name (so_SLO o)));
        ("window", JStr (so_Window o)); ("window_start", JTime (so_WindowStart o));
        ("window_end", JTime (so_WindowEnd o)); ("run_count", JInt (so_RunCount o));
        ("compliant", JBool (bud_Compliant (so_Budget o)));
        ("metrics", JArr (sloMetricResponse <$> bud_Metrics (so_Budget o)))].
Definition sloBudget : Handler :=
  _ ← sloGate;
  projectID ← path_id "project_id" "invalid project id";
  id ← path_id "slo_id" "invalid slo id";
  _ ← call (authorizeProject d acct projectID ActionRead);
  let window := if bool_decide (query r "window" = "") then "7d" else query r "window" in
  out ← fetch (λ s : S, BudgetFor projectID id window now (a_slos s) (store_of s) (reports_of s));
  mret (writeJSON 200 (sloBudgetResponse out)).

(** ** Digests ([digest_handlers.go]) *)
Definition defaultDigestLimit : Z := 10.
Definition maxDigestLimit : Z := 100.
Definition digestGate : M S Response unit := gate (d_Digests d) "digests not configured".
Definition parseDigestPeriod (raw : string) : M S Response Period :=
  match ParsePeriod raw with
  | Ok p => mret p
  | Err _ => reject 400 "period must be daily or weekly"
  end.

(** A missing schedule is answered in the resource's own words. *)
Definition or_no_schedule {A} (m : M S error A) : M S Response A := λ s,
  match m s with
  | (Ok a, s') => (Ok a, s')
  | (Err e, s') =>
      (Err (if bool_decide (e = ErrNotFound)
            then writeError 404 (JStr "no digest schedule for this project") else respondError e), s')
  end.
Definition writeDigestConfig (projectID : Z) : Handler :=
  sched ← or_no_schedule (ask (λ s : S, GetDigestSchedule projectID (a_digestSchedules s)));
  mret (writeJSON 200
    (JObj ([("project_id", JInt (ds_ProjectID sched)); ("period", JStr (ds_Period sched));
            ("enabled", JBool (ds_Enabled sched))] ++ omit_opt "last_fired" JTime (ds_LastFired sched)))).

Definition setDigestConfig : Handler :=
  _ ← digestGate;
  projectID ← path_id "project_id" "invalid project id";
  _ ← call (authorizeProject d acct projectID ActionUpdate);
  f ← form;
  period ← parseDigestPeriod (Get_ f "period");
  _ ← call (on the_digests (SetSchedule projectID period));
  writeDigestConfig projectID.

Definition getDigestConfig : Handler :=
  _ ← digestGate;
  projectID ← path_id "project_id" "invalid project id";
  _ ← call (authorizeProject d acct projectID ActionRead);
  writeDigestConfig projectID.

Definition deleteDigestConfig : Handler :=
  _ ← digestGate;
  projectID ← path_id "project_id" "invalid project id";
  _ ← call (authorizeProject d acct projectID ActionUpdate);
  _ ← or_no_schedule (on the_digests (DeleteDigestSchedule projectID));
  mret (mkResponse 204 NoBody).

Definition byOutcome_json (b : ByOutcome) : json :=
  JObj [("passed", JInt (bo_Passed b)); ("failed", JInt (bo_Failed b)); ("aborted", JInt (bo_Aborted b))].
Definition execution_summary_json (x : ExecutionSummary) : json :=
  JObj [("execution_id", JInt (xs_ExecutionID x)); ("name", JStr (xs_Name x));
        ("runs", JInt (xs_Runs x));
        ("worst_outcome", JStr (from_option outcome_str "" (xs_WorstOutcome x)))].
Definition delivery_str (st : DeliveryStatus) : string :=
  match st with
  | DeliveryPending => "pending" | DeliveryDelivered => "delivered" | DeliveryFailed => "failed"
  end.
Definition digestRow (x : Digest) : json :=
  let verdict :=
    match e_DecodePayload env (dg_Payload x) with
    | Some p => (py_RunsTotal p, py_ByOutcome p, py_ThresholdFailures p,
                 JArr (execution_summary_json <$> py_Executions p))
    | None => (0, mkByOutcome 0 0 0, 0, JNull)
    end in
  let '(runs, by_outcome, failures, executions) := verdict in
  JObj ([("id", JInt (dg_ID x)); ("period", JStr (dg_Period x));
         ("window_start", JTime (dg_WindowStart x)); ("window_end", JTime (dg_WindowEnd x));
         ("runs_total", JInt runs); ("by_outcome", byOutcome_json by_outcome);
         ("threshold_failures", JInt failures); ("executions", executions);
         ("delivery_status", JStr (delivery_str (dg_DeliveryStatus x)))] ++
        omit_opt "delivered_at" JTime (dg_DeliveredAt x)).
Definition digest_limit (limit : Z) : Z :=
  let limit := if limit <=? 0 then defaultDigestLimit else limit in
  if maxDigestLimit <? limit then maxDigestLimit else limit.
Definition listDigests : Handler :=
  _ ← digestGate;
  projectID ← path_id "project_id" "invalid project id";
  _ ← call (authorizeProject d acct projectID ActionRead);
  rows ← fetch (λ s : S, ListDigestsByProject projectID (digest_limit queryInt) (a_digests s));
  mret (writeJSON 200 (JArr (digestRow <$> rows))).

(** ** The caller ([session_handlers.go], [me]) *)
Definition strings_json (l : list string) : json := JArr (JStr <$> l).
Definition authenticated (svc : AuthService) : M S Response Account := λ s : S,
  match on the_identity (AuthApp.Authenticate svc now (r_http r)) s with
  | (Ok a, s') => (Ok a, s')
  | (Err _, s') => (Err (writeError 401 (JStr "unauthenticated")), s')
  end.
Definition me : Handler :=
  match d_Auth d with
  | None => reject 404 "auth not configured"
  | Some svc =>
      caller ← (if rbacEnabled d then mret acct else authenticated svc);
      mret (writeJSON 200 (JObj
        [("subject", JStr (Subject caller)); ("name", JStr (Name caller)); ("email", JStr (Email caller));
         ("global_roles", strings_json (Global caller));
         ("tenants", null_or (λ m, JObj ((λ tr : Z * list string, (pretty tr.1, strings_json tr.2)) <$> map_to_list m))
            (Tenants caller));
         ("permissions", JObj ((λ pr : string * list string, (pr.1, strings_json pr.2)) <$>
            map_to_list (AuthApp.Permissions svc caller)));
         ("demo", JBool (bool_decide (is_Some (d_Sessions d))))]))
  end.

(** ** Demo sessions ([session_handlers.go]) *)
Definition no_sessions : string := "demo sessions not configured".
Definition createSession : Handler :=
  p ← need (d_Sessions d) 404 no_sessions;
  profile ← need (r_body r ≫= e_Session env) 400 "body must be JSON {profile: id}";
  match Issue (e_Mac env) (e_MarshalPayload env) now profile p with
  | Ok value => mret (mkResponse 204 (SetCookie value (go_div TTL second)))
  | Err e =>
      if bool_decide (e = ErrUnknownProfile) then reject 404 "unknown profile"
      else reject 500 "issue session"
  end.
Definition deleteSession : Handler :=
  _ ← need (d_Sessions d) 404 no_sessions;
  mret (mkResponse 204 (SetCookie "" (-1))).
Definition listSessionProfiles : Handler :=
  p ← need (d_Sessions d) 404 no_sessions;
  mret (writeJSON 200 (JObj [("profiles",
    JArr ((λ x, JObj [("id", JStr (prof_ID x)); ("name", JStr (prof_Name x))]) <$> Profiles p))])).
End handlers.
