(* ===== verification/HttpExec.v ===== *)
(** * The HTTP API: executions, runs, measurements and schedules

    The handlers of [execution_handlers.go], [lifecycle_handlers.go],
    [ingest_handlers.go], [schedule_handlers.go] and [files_handlers.go]. *)
From S2P Require Import Prelude Errors GoStrings GoFloat Taurus LoadProfile Histogram Scenario Execution Rbac Auth Schedule Calibration Run Report Store Cluster ExecutionApp CalibrationApp ScheduleApp Lifecycle Deploy MetricsApp ClusterApp ProjectApp Http HttpAdmin.
Import Account.

Section handlers.
Context {P C R X : Type} `{!Unicode} `{!Scheduler C} `{!ClusterRegistry R}.
Local Abbreviation S := (Api P C R X).
Context (env : Env P C R X) (d : Deps) (r : WebRequest).
Local Abbreviation now := (e_now env).
Local Abbreviation acct := (r_account r).
Local Abbreviation Handler := (M S Response Response).
#[local] Instance ev : ThresholdEvaluator Threshold.ThresholdStore := evaluator env.

(** ** Executions ([execution_handlers.go]) *)
Definition entry_json (e : LoadProfile.Entry) : json :=
  JObj ([("name", JStr (LoadProfile.Name e)); ("scenario_id", JInt (LoadProfile.ScenarioID e));
         ("concurrency", JInt (LoadProfile.Concurrency e)); ("rampup", JInt (LoadProfile.Rampup e));
         ("engines", JInt (LoadProfile.Engines e))] ++ omit_int "throughput" (LoadProfile.Throughput e) ++
        [("duration", JInt (LoadProfile.Duration e)); ("csv_split", JBool (LoadProfile.CSVSplit e))] ++
        omit_str "mode" (LoadProfile.Mode e) ++ omit_int "steps" (LoadProfile.Steps e)).
Definition fileRef_json (f : FileRef) : json :=
  JObj [("filename", JStr (fl_Filename f)); ("url", JStr (fl_URL f))].

Definition execution_head (c : Execution.Execution) : list (string * json) :=
  [("id", JInt (exe_ID c)); ("name", JStr (exe_Name c)); ("project_id", JInt (exe_ProjectID c))] ++
  omit_str "engine" (exe_Engine c) ++ [("kind", JStr (exe_Kind c))] ++
  omit_str "cluster" (exe_Cluster c) ++ omit_list "fanout_targets" JStr (exe_FanOutTargets c).
Definition toExecutionSummary (c : Execution.Execution) : json :=
  JObj (execution_head c ++ [("created_time", JTime (exe_CreatedTime c))]).
Definition executionResponse (c : Execution.Execution) (profile : list LoadProfile.Entry)
    (files : list FileRef) (calibration : option Spec) : json :=
  JObj (execution_head c ++
        [("csv_split", JBool (exe_CSVSplit c)); ("created_time", JTime (exe_CreatedTime c));
         ("load_profile", JArr (entry_json <$> profile)); ("data", JArr (fileRef_json <$> files))] ++
        omit_opt "calibration" (λ spec, JObj
          [("criterion", JStr (sp_Criterion spec)); ("seed_qps", JFloat (sp_SeedQPS spec));
           ("max_qps", JFloat (sp_MaxQPS spec)); ("max_steps", JInt (sp_MaxSteps spec));
           ("hold_seconds", JInt (sp_HoldSeconds spec)); ("cpu", JStr (sp_CPU spec));
           ("memory", JStr (sp_Memory spec))]) calibration).
Definition toExecutionResponse (c : Execution.Execution) : json := executionResponse c [] [] None.

Definition listExecutions : Handler :=
  projects ← visibleProjects d r;
  executions ← call (on the_world (ListForProjects (Project.prj_ID <$> projects)));
  mret (writeJSON 200 (JArr (toExecutionSummary <$> executions))).

(** The search a calibration execution was configured with; one without
    recorded bounds is served without it. *)
Definition calibration_section (c : Execution.Execution) (id : Z) : M S Response (option Spec) :=
  if bool_decide (exe_Kind c = KindCalibrateEngine) && d_Calibrations d then
    spec ← call (attempt (on the_world (SpecFor id)));
    match spec with
    | Ok spec => mret (Some spec)
    | Err e => if bool_decide (e = ErrNotFound) then mret None else throw (respondError e)
    end
  else mret None.
Definition getExecution : Handler :=
  id ← path_id r "execution_id" "invalid execution id";
  _ ← call (authorizeExecution d acct id ActionRead);
  c ← call (on the_world (ExecutionApp.Get id));
  cfg ← call (on the_world (GetConfig id));
  files ← call (on the_world (Files id));
  spec ← calibration_section c id;
  mret (writeJSON 200 (executionResponse c (Tests cfg) files spec)).

Definition parseFanOutTargets (raw : string) : option (list string) :=
  if bool_decide (TrimSpace raw = "") then Some [] else e_Targets env raw.
Definition createExecution : Handler :=
  f ← form r;
  projectID ← need (ParseInt (Get_ f "project_id")) 400 "invalid project_id";
  _ ← call (authorizeCreateExecution d acct projectID);
  targets ← need (parseFanOutTargets (Get_ f "fanout_targets")) 400
              "invalid fanout_targets: expected a JSON array of cluster names";
  c ← call (on the_world (ExecutionApp.Create now (Get_ f "name") projectID (Get_ f "engine")
              (Get_ f "cluster") targets));
  mret (writeJSON 201 (toExecutionResponse c)).

Definition deleteExecution : Handler :=
  id ← path_id r "execution_id" "invalid execution id";
  _ ← call (authorizeExecution d acct id ActionDelete);
  _ ← call (on the_world (ExecutionApp.Delete id));
  mret (message_ 200 "execution deleted").

Definition listExecutionFiles : Handler :=
  id ← path_id r "execution_id" "invalid execution id";
  _ ← call (authorizeExecution d acct id ActionRead);
  files ← call (on the_world (Files id));
  mret (writeJSON 200 (JArr (fileRef_json <$> files))).

Definition uploadExecutionFile : Handler :=
  id ← path_id r "execution_id" "invalid execution id";
  _ ← call (authorizeExecution d acct id ActionUpdate);
  up ← need (r_upload r) 400 "invalid file upload";
  _ ← call (on the_world (UploadFile id up.1 up.2));
  mret (message_ 200 "uploaded").

Definition deleteExecutionFile : Handler :=
  id ← path_id r "execution_id" "invalid execution id";
  _ ← call (authorizeExecution d acct id ActionDelete);
  _ ← call (on the_world (DeleteFile id (query r "filename")));
  mret (message_ 200 "deleted").

Definition uploadExecutionConfig : Handler :=
  id ← path_id r "execution_id" "invalid execution id";
  _ ← call (authorizeExecution d acct id ActionUpdate);
  if bool_decide (r_mediaType r = "application/json") then
    profile ← need (r_body r ≫= e_Profile env) 400 "invalid JSON: ";
    _ ← call (on the_world (StoreConfig (e_MaxEngines env) (e_Modes env) id profile));
    mret (message_ 200 "config stored")
  else
    up ← need (r_upload r) 400 "invalid file upload";
    profile ← need (e_Wrapper env up.2) 400 "invalid YAML: ";
    _ ← call (on the_world (StoreConfig (e_MaxEngines env) (e_Modes env) id profile));
    mret (message_ 200 "config stored").

Definition profile_json (p : LoadProfile.Profile) : json :=
  JObj ([("name", JStr (LoadProfile.ProfileName p)); ("project_id", JInt (LoadProfile.ProfileProjectID p));
         ("execution_id", JInt (LoadProfile.ProfileExecutionID p));
         ("tests", JArr (entry_json <$> LoadProfile.Tests p));
         ("csv_split", JBool (LoadProfile.ProfileCSVSplit p))] ++
        omit_list "criteria" JStr (LoadProfile.Criteria p)).
Definition getExecutionConfig : Handler :=
  id ← path_id r "execution_id" "invalid execution id";
  _ ← call (authorizeExecution d acct id ActionRead);
  cfg ← call (on the_world (GetConfig id));
  mret (writeJSON 200 (JObj [("multi-test", profile_json cfg)])).

Definition diff_json (x : ResolvedDiff) : json :=
  JObj [("engines", JInt (rd_Engines x)); ("concurrency", JInt (rd_Concurrency x));
        ("rampup", JInt (rd_Rampup x)); ("throughput", JInt (rd_Throughput x))].
Definition reResolveExecutionConfig : Handler :=
  id ← path_id r "execution_id" "invalid execution id";
  _ ← call (authorizeExecution d acct id ActionUpdate);
  entries ← call (on the_world (ReResolveConfig (e_MaxEngines env) (e_Modes env) id));
  mret (writeJSON 200 (JObj [("message", JStr "config re-resolved"); ("entries", JArr ((λ e, JObj
    ([("scenario_id", JInt (re_ScenarioID e)); ("name", JStr (re_Name e))] ++
     omit_str "mode" (re_Mode e) ++
     [("before", diff_json (re_Before e)); ("after", diff_json (re_After e));
      ("changed", JBool (re_Changed e))])) <$> entries))])).

(** ** Runs ([lifecycle_handlers.go]) *)
Definition lifecycleMutation (msg : string) (action : Rbac.Action) (op : Z → M (World C H_) error unit) :
    Handler :=
  id ← path_id r "execution_id" "invalid execution id";
  _ ← call (authorizeRun d acct id action);
  _ ← call (on the_world (op id));
  mret (message_ 200 msg).
Definition deployExecution : Handler :=
  lifecycleMutation "engines deploying" ActionCreate
    (Deploy now (e_MarshalConf env) (e_UnmarshalScen env) (e_Image env) (e_Trace env)
       (e_DefaultEngine env)).
Definition stopExecution : Handler := lifecycleMutation "run stopped" ActionUpdate (Stop now).
Definition purgeExecution : Handler := lifecycleMutation "execution purged" ActionDelete (Lifecycle.Purge now).

Definition defaultTriggerReadyPoll : duration := 2 * second.
Definition defaultTriggerReadyTimeout : duration := 120 * second.
Definition defaultTriggerAbsentTimeout : duration := 30 * second.
Definition positive_or (x default_ : duration) : duration := if x <=? 0 then default_ else x.
Definition trigger_poll : duration := positive_or (d_TriggerReadyPoll d) defaultTriggerReadyPoll.
Definition trigger_timeout : duration := positive_or (d_TriggerReadyTimeout d) defaultTriggerReadyTimeout.
Definition trigger_absent : duration :=
  let absentWait := positive_or (d_TriggerAbsentTimeout d) defaultTriggerAbsentTimeout in
  if trigger_timeout <? absentWait then trigger_timeout else absentWait.

(** One turn of the wait: the clock, the poll interval and the state. *)
Definition trigger_step (id : Z) (x : time * duration * S) : (time * duration * S) + (Response * S) :=
  let '(clock, poll, s) := x in
  match on the_world (Trigger clock (e_ParseQuantity env) id) s with
  | (Ok _, s') => inr (message_ 200 "run triggered", s')
  | (Err err, s') =>
      if negb (bool_decide (err = ErrNotDeployed)) && negb (bool_decide (err = ErrEnginesNotReady))
      then inr (respondError err, s')
      else
        let waitUntil :=
          if bool_decide (err = ErrNotDeployed) then time_Add now trigger_absent
          else time_Add now trigger_timeout in
        if After clock waitUntil || e_Cancelled env clock then inr (respondError err, s')
        else
          let remaining := time_Sub waitUntil clock in
          let poll := if remaining <? poll then remaining else poll in
          let '(clock', s'') := e_sleep env poll clock s' in
          inl (clock', poll, s'')
  end.
(** The loop has one turn of fuel per nanosecond of the wait; [inl] is a loop
    whose clock stands still. *)
Definition trigger_fuel : positive := Z.to_pos (trigger_timeout + 2).
Definition trigger_wait (id : Z) : Handler := λ s : S,
  match loop_upto (trigger_step id) trigger_fuel (now, trigger_poll, s) with
  | inr (resp, s') => (Ok resp, s')
  | inl (_, _, s') => (Ok (mkResponse 0 NoBody), s')
  end.
Definition triggerExecution : Handler :=
  id ← path_id r "execution_id" "invalid execution id";
  _ ← call (authorizeRun d acct id ActionCreate);
  trigger_wait id.

Definition phase_str (p : Run.Phase) : string :=
  match p with
  | Run.PhaseIdle => "idle" | Run.PhaseDeployed => "deployed" | Run.PhaseRunning => "running"
  end.
Definition status_json (st : Lifecycle.Status) : json :=
  JObj [("phase", JStr (phase_str (stt_Phase st))); ("pool_size", JInt (stt_PoolSize st));
        ("status", JArr ((λ x, JObj
           [("scenario_id", JInt (sst_ScenarioID x)); ("engines", JInt (sst_EnginesWanted x));
            ("engines_deployed", JInt (sst_EnginesDeployed x)); ("engines_reachable", JBool (sst_Reachable x));
            ("in_progress", JBool (sst_InProgress x)); ("started_time", JTime (sst_StartedTime x))])
           <$> stt_Scenarios st))].
Definition executionStatus : Handler :=
  id ← path_id r "execution_id" "invalid execution id";
  _ ← call (authorizeExecution d acct id ActionRead);
  let cluster := query r "cluster" in
  status ← (if bool_decide (cluster = "") then call (on the_world (StatusOf id))
            else _ ← call (ignore (on the_world (StatusOf id)));
                 call (on the_world (ClusterStatus id cluster)));
  mret (writeJSON 200 (status_json status)).

Definition executionEngines : Handler :=
  id ← path_id r "execution_id" "invalid execution id";
  _ ← call (authorizeExecution d acct id ActionRead);
  c ← call (on the_world (ExecutionApp.Get id));
  detail ← call (on the_world (EnginesDetail (exe_ProjectID c) id));
  mret (writeJSON 200 (JObj [("ingress_ip", JStr (xd_IngressIP detail));
    ("engines", JArr ((λ e, JObj [("name", JStr (ed_Name e)); ("status", JStr (ed_Status e));
       ("created_time", JTime (ed_CreatedTime e))]) <$> xd_Engines detail))])).

Definition scenarioPodLog : Handler :=
  executionID ← path_id r "execution_id" "invalid execution id";
  _ ← call (authorizeExecution d acct executionID ActionRead);
  scenarioID ← path_id r "scenario_id" "invalid scenario id";
  log ← call (on the_world (PodLogFor executionID scenarioID (query r "cluster")));
  mret (mkResponse 200 (Bytes "text/plain; charset=utf-8" log)).

(** ** Measurements ([ingest_handlers.go]) *)
Definition with_cluster (cluster : string) (b : Batch) : Batch :=
  mkBatch (b_ExecutionID b) (b_ScenarioID b) (b_RunID b) (b_ShardIndex b) (b_StreamID b)
    (b_Intervals b) cluster (b_Final b) (b_ExitCode b).
Definition not_for_execution : Response :=
  writeError 403 (JStr "ingest token is not valid for this execution").
Definition bad_credentials : Response := writeError 401 (JStr "invalid ingest credentials").

(** The batch with its cluster stamped, or the refusal. *)
Definition checkIngestCredentials (batch : Batch) (s : S) : result Response Batch :=
  match CutPrefix (Authorization (r_http r)) "Bearer " with
  | None => Err bad_credentials
  | Some presented =>
      if negb (bool_decide (d_IngestToken d = "")) && bool_decide (presented = d_IngestToken d)
      then Ok (with_cluster "" batch)
      else if negb (d_IngestTokens d) || negb (d_ExecutionCluster d) then Err bad_credentials
      else
        match ClusterByIngestTokenHash (e_HashToken env presented) (a_registry s) with
        | Err _ => Err bad_credentials
        | Ok cluster =>
            match GetExecution (b_ExecutionID batch) (store_of s) with
            | Err _ => Err not_for_execution
            | Ok exe =>
                if negb (bool_decide (exe_Cluster exe = cl_Name cluster)) &&
                   negb (bool_decide (cl_Name cluster ∈ exe_FanOutTargets exe))
                then Err not_for_execution
                else Ok (with_cluster (cl_Name cluster) batch)
            end
        end
  end.
Definition ingest : Handler :=
  batch ← need (r_body r ≫= e_Batch env) 400 "malformed batch";
  _ ← (if b_ExecutionID batch <=? 0 then reject 400 "batch does not name an execution" else mret tt);
  batch ← ask (checkIngestCredentials batch);
  _ ← call (on the_metrics (Ingest now batch));
  mret (mkResponse 202 NoBody).

(** ** Schedules ([schedule_handlers.go]) *)
Definition occurrence_status_str (st : OccurrenceStatus) : string :=
  match st with
  | OccurrenceReserved => "reserved" | OccurrenceRejected => "rejected" | OccurrenceFired => "fired"
  | OccurrenceCompleted => "completed"
  end.
Definition toScheduleResponse (v : ScheduleView) : json :=
  let sc := sv_Schedule v in
  JObj ([("id", JInt (Schedule.sch_ID sc)); ("execution_id", JInt (Schedule.sch_ExecutionID sc));
         ("tenant_id", JInt (Schedule.sch_TenantID sc)); ("kind", JStr (Schedule.sch_Kind sc))] ++
        omit_opt "fire_at" JTime (Schedule.sch_FireAt sc) ++
        omit_str "recurrence" (Schedule.sch_Recurrence sc) ++
        [("active", JBool (Schedule.sch_Active sc));
         ("occurrences", JArr ((λ o, JObj
            ([("id", JInt (occ_ID o)); ("fire_time", JTime (occ_FireTime o));
              ("status", JStr (occurrence_status_str (occ_Status o)))] ++
             omit_opt "reservation_id" JInt (occ_ReservationID o))) <$> sv_Occurrences v))]).

(** Admission may reclaim capacity by stopping a run that overran its
    reservation. *)
Definition createSchedule : Handler :=
  executionID ← path_id r "execution_id" "invalid execution id";
  _ ← call (authorizeExecution d acct executionID ActionCreate);
  f ← form r;
  tenantID ← need (ParseInt (Get_ f "tenant_id")) 400 "invalid tenant_id";
  _ ← call (authorizeScheduleTenant d acct tenantID);
  let raw := Get_ f "fire_at" in
  fireAt ← (if bool_decide (raw = "") then mret None
            else t ← need (e_ParseTime env raw) 400 "invalid fire_at: "; mret (Some t));
  let sc := Schedule.mkSchedule 0 executionID tenantID (Get_ f "kind") fireAt (Get_ f "recurrence") true in
  view ← call (on the_world (ScheduleApp.Create (e_ParseCron env) (Stop now) now sc));
  mret (writeJSON 201 (toScheduleResponse view)).

Definition listSchedules : Handler :=
  executionID ← path_id r "execution_id" "invalid execution id";
  _ ← call (authorizeExecution d acct executionID ActionRead);
  views ← call (on the_world (ScheduleApp.List executionID));
  mret (writeJSON 200 (JArr (toScheduleResponse <$> views))).

Definition authorizeSchedule (scheduleID : Z) : M S error unit :=
  sc ← on the_world (ScheduleApp.Get scheduleID);
  authorizeExecution d acct (Schedule.sch_ExecutionID sc) ActionDelete.
Definition deleteSchedule : Handler :=
  id ← path_id r "schedule_id" "invalid schedule id";
  _ ← call (authorizeSchedule id);
  _ ← call (on the_world (ScheduleApp.Delete id));
  mret (message_ 200 "schedule deleted").

(** ** Artefacts ([files_handlers.go]) *)
Definition file_key (kind id name : string) : string := kind +:+ "/" +:+ id +:+ "/" +:+ name.
Definition downloadFile : Handler :=
  let kind := r_path r "kind" in
  _ ← (if negb (bool_decide (kind = "scenario")) && negb (bool_decide (kind = "execution"))
       then reject 400 "invalid kind" else mret tt);
  id ← path_id r "id" "invalid id";
  _ ← call (if bool_decide (kind = "scenario") then authorizeScenario d acct id ActionRead
            else authorizeExecution d acct id ActionRead);
  data ← call (on the_world (on_objects (Download (file_key kind (r_path r "id") (r_path r "name")))));
  mret (mkResponse 200 (Bytes "" data)).
End handlers.
