(* ===== verification/HttpScen.v ===== *)
(** * The HTTP API: scenarios, their history and thresholds, calibrations

    The handlers of [scenario_handlers.go], [scenario_version_handlers.go],
    [template_handlers.go], [threshold_handlers.go] and
    [calibration_handlers.go].  Importing a JMeter plan and the flat list of
    scenarios with their last runs are not modelled; of a diagnostic the
    message and the path are kept. *)
From S2P Require Import Prelude Errors GoStrings GoFloat ParseFloat Taurus Scenario Execution Rbac Auth Calibration Capacity Report Store Threshold Cluster ExecutionApp ScenarioApp CalibrationApp Lifecycle MetricsApp ProjectApp Http HttpAdmin HttpExec.
Import Account.

Section handlers.
Context {P C R X : Type} `{!Unicode}.
Local Abbreviation S := (Api P C R X).
Context (env : Env P C R X) (d : Deps) (r : WebRequest).
Local Abbreviation now := (e_now env).
Local Abbreviation acct := (r_account r).
Local Abbreviation actor := (Subject acct).
Local Abbreviation versioned := (d_Versions d).
Local Abbreviation Handler := (M S Response Response).

(** ** Scenarios ([scenario_handlers.go]) *)
Definition scenario_fields (p : Scenario.Scenario) (testFile : json) (data : list json) : list (string * json) :=
  [("id", JInt (Scenario.scn_ID p)); ("name", JStr (Scenario.scn_Name p));
   ("project_id", JInt (Scenario.scn_ProjectID p)); ("kind", JStr (Scenario.scn_Kind p));
   ("created_time", JTime (Scenario.scn_CreatedTime p)); ("is_template", JBool (Scenario.scn_IsTemplate p))] ++
  omit_str "template_name" (Scenario.scn_TemplateName p) ++
  [("test_file", testFile); ("data", JArr data)].
Definition toScenarioResponse (p : Scenario.Scenario) : json := JObj (scenario_fields p JNull []).
Definition scenario_file (id : Z) (name : string) : json :=
  fileRef_json (mkFileRef name (ObjectURL (scenarioFileKey id name))).
Definition scenario_files (id : Z) (pf : ScenarioFiles) : json * list json :=
  (if bool_decide (sf_TestFile pf = "") then JNull else scenario_file id (sf_TestFile pf),
   scenario_file id <$> sf_Data pf).

Definition getScenario : Handler :=
  id ← path_id r "scenario_id" "invalid scenario id";
  _ ← call (authorizeScenario d acct id ActionRead);
  p ← fetch (λ s : S, GetScenario id (store_of s));
  files ← gets (λ s : S, scenario_files id (ScenarioFilesFor id (store_of s)));
  mret (writeJSON 200 (JObj (scenario_fields p files.1 files.2))).

Definition createScenario : Handler :=
  f ← form r;
  projectID ← need (ParseInt (Get_ f "project_id")) 400 "invalid project_id";
  _ ← call (authorizeCreateScenario d acct projectID);
  p ← call (on the_scenarios (Scenario_Create now actor versioned (Get_ f "name") projectID));
  mret (writeJSON 201 (toScenarioResponse p)).

Definition deleteScenario : Handler :=
  id ← path_id r "scenario_id" "invalid scenario id";
  _ ← call (authorizeScenario d acct id ActionDelete);
  _ ← call (on the_scenarios (Scenario_Delete id));
  mret (message_ 200 "scenario deleted").

Definition listScenarioFiles : Handler :=
  id ← path_id r "scenario_id" "invalid scenario id";
  _ ← call (authorizeScenario d acct id ActionRead);
  files ← gets (λ s : S, scenario_files id (ScenarioFilesFor id (store_of s)));
  mret (writeJSON 200 (JObj [("test_file", files.1); ("data", JArr files.2)])).

Definition uploadScenarioFile : Handler :=
  id ← path_id r "scenario_id" "invalid scenario id";
  _ ← call (authorizeScenario d acct id ActionUpdate);
  up ← need (r_upload r) 400 "invalid file upload";
  _ ← call (on the_scenarios (Scenario_UploadFile now actor versioned id up.1 up.2));
  mret (message_ 200 "uploaded").

Definition deleteScenarioFile : Handler :=
  id ← path_id r "scenario_id" "invalid scenario id";
  _ ← call (authorizeScenario d acct id ActionDelete);
  _ ← call (on the_scenarios (Scenario_DeleteFile now actor versioned id (query r "filename")));
  mret (message_ 200 "deleted").

Definition readRequestsBody : option string :=
  if bool_decide (r_mediaType r ∈ ["text/yaml"; "application/x-yaml"; "text/x-yaml"]) then r_body r
  else snd <$> r_upload r.
Definition diagnostics_json (l : list Diagnostic) : json :=
  JArr ((λ x, JObj ([("message", JStr (dg_Message x))] ++ omit_str "path" (dg_Path x))) <$> l).
Definition writeDiagnostics (status : Z) (message : json) (diags : list Diagnostic) : Response :=
  writeJSON status (JObj [("message", message); ("diagnostics", diagnostics_json diags)]).
(** A rejected fragment is answered with its diagnostics. *)
Definition or_diagnostics {A} (raw : string) (m : M S error A) : M S Response A := λ s,
  match m s with
  | (Ok a, s') => (Ok a, s')
  | (Err e, s') =>
      (Err (if bool_decide (e = ErrRequestsInvalid)
            then writeDiagnostics 400 (JErr e)
                   (requestDiagnostics (e_UnmarshalScen env) (e_YAMLDiagnostics env) raw)
            else respondError e), s')
  end.

Definition setScenarioRequests : Handler :=
  id ← path_id r "scenario_id" "invalid scenario id";
  _ ← call (authorizeScenario d acct id ActionUpdate);
  raw ← need readRequestsBody 400 "failed to read requests";
  _ ← or_diagnostics raw (on the_scenarios
        (SetRequests (e_UnmarshalScen env) (e_YAMLDiagnostics env) now actor versioned id raw));
  mret (message_ 200 "requests stored").

Definition getScenarioRequests : Handler :=
  id ← path_id r "scenario_id" "invalid scenario id";
  _ ← call (authorizeScenario d acct id ActionRead);
  raw ← call (on the_scenarios (Requests id));
  mret (mkResponse 200 (Bytes "text/yaml; charset=utf-8" raw)).

Definition listScenarioExecutions : Handler :=
  id ← path_id r "scenario_id" "invalid scenario id";
  _ ← call (authorizeScenario d acct id ActionRead);
  l ← gets (λ s : S, ListExecutionsByScenario id (store_of s));
  mret (writeJSON 200 (JArr (toExecutionSummary <$> l))).

(** ** Templates ([template_handlers.go]) *)
Definition listTemplates : Handler :=
  _ ← (if rbacEnabled d then call (authorize d acct "" None ResourceScenario ActionList) else mret tt);
  tpls ← gets (λ s : S, ListTemplates (store_of s));
  mret (writeJSON 200 (JArr (toScenarioResponse <$> tpls))).

Definition instantiateTemplate : Handler :=
  id ← path_id r "scenario_id" "invalid scenario id";
  tpl ← fetch (λ s : S, GetScenario id (store_of s));
  _ ← (if rbacEnabled d
       then call (authorize d acct "" (Scenario.scn_TenantID tpl) ResourceScenario ActionRead) else mret tt);
  b ← need (r_body r ≫= e_Instantiate env) 400
        "body must be JSON {name, project_id, overrides:{target_url}}";
  let '(name, projectID, targetURL) := b in
  _ ← call (authorizeCreateScenario d acct projectID);
  sc ← call (on the_scenarios (Instantiate (e_UnmarshalScen env) (e_MarshalScen env)
               (e_YAMLDiagnostics env) now actor versioned id name projectID targetURL));
  mret (writeJSON 201 (toScenarioResponse sc)).

(** ** The version history ([scenario_version_handlers.go]) *)
Definition version_fields (m : ScenarioVersionMeta) : list (string * json) :=
  [("id", JInt (vm_ID m)); ("scenario_id", JInt (vm_ScenarioID m)); ("version", JInt (vm_Version m));
   ("created_time", JTime (vm_CreatedTime m)); ("created_by", null_or JStr (vm_CreatedBy m))].
Definition snapshot_json (sn : ScenarioSnapshot) : json :=
  JObj [("id", JInt (sn_ID sn)); ("name", JStr (sn_Name sn)); ("project_id", JInt (sn_ProjectID sn));
        ("kind", JStr (sn_Kind sn)); ("engine", JStr (sn_Engine sn));
        ("tenant_id", null_or JInt (sn_TenantID sn)); ("created_by", JStr (sn_CreatedBy sn));
        ("updated_by", JStr (sn_UpdatedBy sn)); ("created_time", JTime (sn_CreatedTime sn));
        ("is_template", JBool (sn_IsTemplate sn)); ("template_name", JStr (sn_TemplateName sn));
        ("test_file", JStr (sn_TestFile sn)); ("data", JArr (JStr <$> sn_Data sn));
        ("requests", JStr (sn_Requests sn))].
Definition versionsGate : M S Response unit := gate (d_Versions d) "version history not configured".
Definition versionPath : M S Response (Z * Z) :=
  id ← path_id r "scenario_id" "invalid scenario id";
  version ← need (Atoi (r_path r "version")) 400 "invalid version";
  mret (id, version).
Definition respondScenarioVersionError (e : error) : Response :=
  if bool_decide (e = ErrScenarioVersionNotFound) then writeError 404 (JStr "version not found")
  else respondError e.
Definition or_no_version {A} (m : M S error A) : M S Response A := λ s,
  match m s with
  | (Ok a, s') => (Ok a, s')
  | (Err e, s') => (Err (respondScenarioVersionError e), s')
  end.

Definition listScenarioVersions : Handler :=
  _ ← versionsGate;
  id ← path_id r "scenario_id" "invalid scenario id";
  _ ← call (authorizeScenario d acct id ActionRead);
  l ← call (on the_scenarios (ListVersions versioned id));
  mret (writeJSON 200 (JArr ((λ m, JObj (version_fields m)) <$> l))).

Definition getScenarioVersion : Handler :=
  _ ← versionsGate;
  iv ← versionPath;
  _ ← call (authorizeScenario d acct iv.1 ActionRead);
  v ← or_no_version (on the_scenarios (ScenarioVersionOf versioned iv.1 iv.2));
  mret (writeJSON 200 (JObj (version_fields (sv_Meta v) ++ [("snapshot", snapshot_json (sv_Snapshot v))]))).

Definition restoreScenarioVersion : Handler :=
  _ ← versionsGate;
  iv ← versionPath;
  _ ← call (authorizeScenario d acct iv.1 ActionUpdate);
  res ← or_no_version (on the_scenarios (ScenarioApp.Restore now actor versioned iv.1 iv.2));
  mret (writeJSON 200 (JObj [("message", JStr "restored"); ("restored_from", JInt (rr_RestoredFrom res));
                             ("version", JInt (rr_Version res))])).

(** ** Thresholds ([threshold_handlers.go]) *)
Definition toThresholdResponse (t : Threshold) : json :=
  JObj [("id", JInt (th_ID t)); ("scenario_id", JInt (th_ScenarioID t)); ("metric", JStr (th_Metric t));
        ("comparison", JStr (th_Comparison t)); ("value", JFloat (th_Value t));
        ("created_time", JTime (th_CreatedTime t))].
Definition thresholdsGate : M S Response unit := gate (d_Thresholds d) "thresholds not configured".
Definition listScenarioThresholds : Handler :=
  _ ← thresholdsGate;
  id ← path_id r "scenario_id" "invalid scenario id";
  _ ← call (authorizeScenario d acct id ActionRead);
  l ← call (on the_thresholds (ListFor id));
  mret (writeJSON 200 (JArr (toThresholdResponse <$> l))).

(** A rejected definition is the caller's mistake. *)
Definition or_invalid_threshold {A} (m : M S error A) : M S Response A := λ s,
  match m s with
  | (Ok a, s') => (Ok a, s')
  | (Err e, s') =>
      (Err (if bool_decide (e ∈ [ErrMetricUnknown; ErrComparisonUnknown; ErrValueNotPositive; ErrValueOutOfRange])
            then writeError 400 (JErr e) else respondError e), s')
  end.
(** An empty body is the empty list. *)
Definition replaceScenarioThresholds : Handler :=
  _ ← thresholdsGate;
  id ← path_id r "scenario_id" "invalid scenario id";
  _ ← call (authorizeScenario d acct id ActionUpdate);
  rows ← (if bool_decide (r_body r = Some "") then mret []
          else need (r_body r ≫= e_Thresholds env) 400
                 "body must be JSON: {thresholds: [{metric, comparison, value}]}");
  stored ← or_invalid_threshold (on the_thresholds (Threshold.Replace now id
    ((λ '(metric, comparison, value), mkThreshold 0 0 metric comparison value time_zero) <$> rows)));
  mret (writeJSON 200 (JArr (toThresholdResponse <$> stored))).

(** ** Calibrations ([calibration_handlers.go]) *)
Definition calibrationsConfigured : M S Response unit := gate (d_Calibrations d) "calibrations not configured".
Definition classification_str (c : Classification) : string :=
  match c with
  | ClassificationEngineSaturated => "engine_saturated" | ClassificationTargetSaturated => "target_saturated"
  | ClassificationClean => "clean"
  end.
Definition saturatedBy_str (x : SaturatedBy) : string :=
  match x with
  | SaturatedByEngine => "engine" | SaturatedByTarget => "target" | SaturatedByNeither => "neither"
  end.
Definition calibration_phase_str (p : Calibration.Phase) : string :=
  match p with
  | PhasePending => "pending" | PhaseBracketing => "bracketing" | PhaseBisecting => "bisecting"
  | PhaseDone => "done" | PhaseFailed => "failed"
  end.
Definition toCalibrationJobResponse (js : CalibrationJob * list Step) : json :=
  let '(job, steps) := js in
  JObj ([("id", JInt (cj_ID job)); ("execution_id", JInt (cj_ExecutionID job));
         ("phase", JStr (calibration_phase_str (cj_Phase job))); ("step_count", JInt (cj_StepCount job))] ++
        omit_float "next_requested_qps" (cj_NextRequestedQPS job) ++
        omit_opt "result" (λ x, JObj [("saturated_by", JStr (saturatedBy_str (rs_SaturatedBy x)));
                                      ("per_pod_qps", JFloat (rs_PerPodQPS x))]) (cj_Result job) ++
        omit_str "failure_reason" (cj_FailureReason job) ++
        [("created_time", JTime (cj_CreatedTime job));
         ("steps", JArr ((λ x, JObj
            [("requested_qps", JFloat (stp_RequestedQPS x)); ("achieved_qps", JFloat (stp_AchievedQPS x));
             ("classification", JStr (classification_str (stp_Classification x)))]) <$> steps))]).

(** [formInt]: absent, or a number, or an error. *)
Definition formInt (f : string → list string) (key : string) : M S Response (option Z) :=
  let v := Get_ f key in
  if bool_decide (v = "") then mret None
  else v ← need (Atoi v) 400 ("invalid " +:+ key); mret (Some v).

Definition createCalibration : Handler :=
  _ ← calibrationsConfigured;
  f ← form r;
  projectID ← need (ParseInt (Get_ f "project_id")) 400 "invalid project_id";
  _ ← call (authorizeCreateExecution d acct projectID);
  seed ← formFloat f "seed_qps" "invalid seed_qps";
  max ← formFloat f "max_qps" "invalid max_qps";
  steps ← formInt f "max_steps";
  hold ← formInt f "hold_seconds";
  let spec := mkSpec (Get_ f "criterion") (Get_ f "cpu") (Get_ f "memory") (default fzero seed)
                (default fzero max) (default 0 steps) (default 0 hold) in
  let name := Get_ f "name" in
  let engine := Get_ f "engine" in
  scenarioID ← need (ParseInt (Get_ f "scenario_id")) 400 "invalid scenario_id";
  sourceExecutionID ← need (ParseInt (Get_ f "source_execution_id")) 400 "invalid source_execution_id";
  _ ← call (authorizeExecution d acct sourceExecutionID ActionRead);
  executionID ← call (on the_world
    (Calibration_Create now name projectID engine spec sourceExecutionID scenarioID));
  resolved ← call (on the_world (SpecFor executionID));
  mret (writeJSON 201 (JObj
    ([("execution_id", JInt executionID); ("name", JStr name); ("project_id", JInt projectID)] ++
     omit_str "engine" engine ++
     [("cpu", JStr (sp_CPU resolved)); ("memory", JStr (sp_Memory resolved));
      ("criterion", JStr (sp_Criterion resolved)); ("seed_qps", JFloat (sp_SeedQPS resolved));
      ("max_qps", JFloat (sp_MaxQPS resolved)); ("max_steps", JInt (sp_MaxSteps resolved));
      ("hold_seconds", JInt (sp_HoldSeconds resolved))]))).

Definition triggerCalibration : Handler :=
  _ ← calibrationsConfigured;
  executionID ← path_id r "execution_id" "invalid execution id";
  _ ← call (authorizeExecution d acct executionID ActionCreate);
  jobID ← call (on the_world (Calibration_Trigger now executionID));
  job ← call (on the_world (Calibration_Get jobID));
  mret (writeJSON 201 (toCalibrationJobResponse job)).

Definition triggerScenarioCalibration : Handler :=
  _ ← calibrationsConfigured;
  scenarioID ← path_id r "scenario_id" "invalid scenario id";
  _ ← call (authorizeScenario d acct scenarioID ActionCreate);
  jobID ← call (on the_world (TriggerForScenario now scenarioID));
  job ← call (on the_world (Calibration_Get jobID));
  mret (writeJSON 201 (toCalibrationJobResponse job)).

Definition getCalibrationJob : Handler :=
  _ ← calibrationsConfigured;
  jobID ← path_id r "job_id" "invalid job id";
  job ← call (on the_world (Calibration_Get jobID));
  _ ← call (authorizeExecution d acct (cj_ExecutionID job.1) ActionRead);
  mret (writeJSON 200 (toCalibrationJobResponse job)).

Definition parseCapacityProfileKey (scenarioID : Z) : option Key :=
  let engine := query r "engine" in
  let cpu := query r "cpu" in
  let memory := query r "memory" in
  if bool_decide (engine = "") || bool_decide (cpu = "") || bool_decide (memory = "") then None
  else Some (mkKey scenarioID engine cpu memory).
Definition key_required : string := "engine, cpu, and memory query parameters are required".
Definition profile_head (p : CapacityProfile) : list (string * json) :=
  [("scenario_id", JInt (k_ScenarioID (cp_Key p))); ("engine", JStr (k_Engine (cp_Key p)));
   ("cpu", JStr (k_CPU (cp_Key p))); ("memory", JStr (k_Memory (cp_Key p)));
   ("per_pod_qps", JFloat (cp_PerPodQPS p)); ("saturated_by", JStr (saturatedBy_str (cp_SaturatedBy p)))].
Definition toCapacityProfileResponse (p : CapacityProfile) : json :=
  JObj (profile_head p ++ [("scenario_fingerprint", JStr (cp_ScenarioFingerprint p));
                           ("calibrated_at", JTime (cp_CalibratedAt p)); ("job_id", JInt (cp_JobID p))]).
Definition toCapacityProfileSummaryResponse (p : CapacityProfile) : json :=
  JObj (profile_head p ++ [("calibrated_at", JTime (cp_CalibratedAt p))]).

Definition getCapacityProfile : Handler :=
  _ ← calibrationsConfigured;
  scenarioID ← path_id r "scenario_id" "invalid scenario id";
  _ ← call (authorizeScenario d acct scenarioID ActionRead);
  key ← need (parseCapacityProfileKey scenarioID) 400 key_required;
  profile ← fetch (λ s : S, ProfileFor key (a_world s));
  mret (writeJSON 200 (toCapacityProfileResponse profile)).

(** *** [calibrationapp.Profiles] *)
Definition cpuMilliPair (a b : string) : option (Z * Z) :=
  match e_ParseQuantity env a, e_ParseQuantity env b with
  | Some qa, Some qb => Some (MilliValue qa, MilliValue qb)
  | _, _ => None
  end.
Definition str_lt (a b : string) : bool := bool_decide (str_le a b) && negb (bool_decide (a = b)).
Definition profile_tie (a b : Key) : bool :=
  if negb (bool_decide (k_Engine a = k_Engine b)) then str_lt (k_Engine a) (k_Engine b)
  else if negb (bool_decide (k_Memory a = k_Memory b)) then str_lt (k_Memory a) (k_Memory b)
  else str_lt (k_CPU a) (k_CPU b).
Definition profile_less (a b : Key) : bool :=
  if negb (bool_decide (k_ScenarioID a = k_ScenarioID b)) then k_ScenarioID a <? k_ScenarioID b
  else match cpuMilliPair (k_CPU a) (k_CPU b) with
       | Some (av, bv) => if negb (av =? bv) then bv <? av else profile_tie a b
       | None => profile_tie a b
       end.
Definition size_le (a b : CapacityProfile) : Prop := profile_less (cp_Key b) (cp_Key a) = false.
#[global] Instance size_le_dec a b : Decision (size_le a b).
Proof using. unfold size_le. apply _. Defined.
Definition sortProfiles (l : list CapacityProfile) : list CapacityProfile := merge_sort size_le l.
Definition Profiles (st : Store) : list CapacityProfile :=
  sortProfiles (ListCapacityProfiles (st_capacity st)).

(** A profile whose scenario is gone, or lies in a project the caller may not
    see, is left out. *)
Definition visible_profile (projects : list Project.Project) (st : Store) (p : CapacityProfile) : bool :=
  match GetScenario (k_ScenarioID (cp_Key p)) st with
  | Ok sc => bool_decide (Scenario.scn_ProjectID sc ∈ Project.prj_ID <$> projects)
  | Err _ => false
  end.
Definition listCapacityProfiles : Handler :=
  _ ← calibrationsConfigured;
  projects ← visibleProjects d r;
  l ← gets (λ s : S, filter (λ p, visible_profile projects (store_of s) p = true)
                       (Profiles (store_of s)));
  mret (writeJSON 200 (JArr (toCapacityProfileSummaryResponse <$> l))).

Definition fanOutCapacity : Handler :=
  _ ← calibrationsConfigured;
  scenarioID ← path_id r "scenario_id" "invalid scenario id";
  _ ← call (authorizeScenario d acct scenarioID ActionRead);
  key ← need (parseCapacityProfileKey scenarioID) 400 key_required;
  targetQPS ← need (ParseFloat (query r "target_qps")) 400 "invalid target_qps";
  res ← fetch (λ s : S, FanOutFor (e_Fingerprint env) key targetQPS (a_world s));
  mret (writeJSON 200 (JObj ([("status", JStr (status_string (fr_Status res)))] ++
                             omit_int "engines" (fr_Engines res)))).
End handlers.
