(* ===== verification/HttpCampaign.v ===== *)
(** * The HTTP API: campaigns, reports and share links

    The handlers of [campaign_handlers.go] and, of [report_handlers.go], the
    stored report, the comparison of runs, trends, shard objects, the share
    links and the annotations; then the per-second series, the downloads, the
    error signature history and the recommendations, with [usage_handlers.go]
    and [apm_handlers.go]. *)
From Stdlib Require Import Ascii.
From S2P Require Import Prelude Errors GoStrings GoFloat ParseFloat FormatFloat Taurus Scenario Execution Rbac Auth Compile Report Verdicts Progress Campaign Calibration Capacity Store Threshold Recs Cluster ExecutionApp CalibrationApp CampaignApp Lifecycle MetricsApp Series Export CampaignVerdict ProjectApp Http HttpAdmin HttpExec.
Import Account.

Section handlers.
Context {P C R X : Type}.
Local Abbreviation S := (Api P C R X).
Context (env : Env P C R X) (d : Deps) (r : WebRequest).
Local Abbreviation now := (e_now env).
Local Abbreviation acct := (r_account r).
Local Abbreviation Handler := (M S Response Response).

(** ** Campaigns ([campaign_handlers.go]) *)
Definition toCampaignResponse (c : Campaign.Campaign) : json :=
  JObj ([("id", JInt (camp_ID c)); ("name", JStr (camp_Name c)); ("tenant_id", JInt (camp_TenantID c));
         ("window_start", JTime (win_Start (camp_Window c))); ("window_end", JTime (win_End (camp_Window c)));
         ("services", JArr ((λ x, JObj [("project_id", JInt (svc_ProjectID x));
                                        ("execution_id", JInt (svc_ExecutionID x))]) <$> camp_Services c));
         ("active", JBool (IsActive c now))] ++ omit_opt "aborted_at" JTime (camp_AbortedAt c)).

Fixpoint pair_services (projectIDs executionIDs : list string) : result string (list Campaign.Service) :=
  match projectIDs, executionIDs with
  | p :: ps, e :: es =>
      match ParseInt p with
      | None => Err "invalid service_project_id"
      | Some projectID =>
          match ParseInt e with
          | None => Err "invalid service_execution_id"
          | Some executionID =>
              match pair_services ps es with
              | Ok l => Ok (mkService projectID executionID :: l)
              | Err m => Err m
              end
          end
      end
  | _, _ => Ok []
  end.
Definition parseCampaignServices (f : string → list string) : result string (list Campaign.Service) :=
  let projectIDs := f "service_project_id" in
  let executionIDs := f "service_execution_id" in
  if negb (bool_decide (length projectIDs = length executionIDs))
  then Err "service_project_id and service_execution_id must have the same number of values"
  else pair_services projectIDs executionIDs.
(** The window and the services of a campaign's form. *)
Definition campaign_form (f : string → list string) : M S Response (Campaign.Window * list Campaign.Service) :=
  start ← need (e_ParseTime env (Get_ f "window_start")) 400 "invalid window_start: ";
  end_ ← need (e_ParseTime env (Get_ f "window_end")) 400 "invalid window_end: ";
  match parseCampaignServices f with
  | Ok services => mret (mkWindow start end_, services)
  | Err m => reject 400 m
  end.

Definition campaignsConfigured : M S Response unit := gate (d_Campaigns d) "campaigns not configured".

Definition createCampaign : Handler :=
  _ ← campaignsConfigured;
  tenantID ← path_id r "tenant_id" "invalid tenant id";
  _ ← call (authorizeCampaignTenant d acct tenantID ActionCreate);
  f ← form r;
  ws ← campaign_form f;
  created ← call (on the_store
    (CampaignApp.Create (mkCampaign 0 (Get_ f "name") tenantID ws.1 ws.2 None)));
  mret (writeJSON 201 (toCampaignResponse created)).

Definition listCampaigns : Handler :=
  _ ← campaignsConfigured;
  tenantID ← path_id r "tenant_id" "invalid tenant id";
  _ ← call (authorizeCampaignTenant d acct tenantID ActionList);
  l ← gets (λ s : S, CampaignApp.List tenantID (store_of s));
  mret (writeJSON 200 (JArr (toCampaignResponse <$> l))).

Definition campaign_of (id : Z) : M S Response Campaign.Campaign :=
  fetch (λ s : S, CampaignApp.Get id (store_of s)).
Definition getCampaign : Handler :=
  _ ← campaignsConfigured;
  id ← path_id r "campaign_id" "invalid campaign id";
  c ← campaign_of id;
  _ ← call (authorizeCampaignTenant d acct (camp_TenantID c) ActionRead);
  mret (writeJSON 200 (toCampaignResponse c)).

Definition updateCampaign : Handler :=
  _ ← campaignsConfigured;
  id ← path_id r "campaign_id" "invalid campaign id";
  c ← campaign_of id;
  _ ← call (authorizeCampaignTenant d acct (camp_TenantID c) ActionUpdate);
  f ← form r;
  ws ← campaign_form f;
  updated ← call (on the_store
    (CampaignApp.Update now id (mkCampaign 0 (Get_ f "name") 0 ws.1 ws.2 None)));
  mret (writeJSON 200 (toCampaignResponse updated)).

Definition abortCampaign : Handler :=
  _ ← campaignsConfigured;
  id ← path_id r "campaign_id" "invalid campaign id";
  c ← campaign_of id;
  _ ← call (authorizeCampaignTenant d acct (camp_TenantID c) ActionDelete);
  _ ← call (on the_store (CampaignApp.Abort now id));
  aborted ← campaign_of id;
  _ ← audit d r "campaign.abort" "campaign" (pretty id);
  mret (writeJSON 200 (toCampaignResponse aborted)).

Definition listAllCampaigns : Handler :=
  _ ← campaignsConfigured;
  l ← gets (λ s : S, if HasGlobalRole acct RoleServiceProviderAdmin then CampaignApp.ListAll (store_of s)
                     else CampaignApp.ListByTenants (TenantIDs acct) (store_of s));
  mret (writeJSON 200 (JArr (toCampaignResponse <$> l))).

Definition failing_json (fc : FailedCriterion) : json :=
  JObj ([("criterion", JStr (fc_Criterion fc))] ++ omit_bool "unparsed" (fc_Unparsed fc)).
Definition toVerdictResponse (v : CampaignVerdict.CampaignVerdict) : json :=
  JObj ([("campaign_id", JInt (cv_CampaignID v));
         ("services", JArr ((λ x, JObj
            ([("project_id", JInt (sv_ProjectID x)); ("execution_id", JInt (sv_ExecutionID x));
              ("has_report", JBool (sv_HasReport x))] ++
             omit_str "outcome" (from_option outcome_str "" (sv_Outcome x)) ++
             omit_list "failing_criteria" failing_json (sv_FailingCriteria x) ++
             omit_bool "short_of_target_qps" (sv_ShortOfTargetQPS x) ++
             omit_float "requested_throughput" (sv_RequestedThroughput x) ++
             omit_float "achieved_throughput" (sv_AchievedThroughput x))) <$> cv_Services v));
         ("go", JBool (cv_Go v))] ++
        omit_list "other_load" (λ o, JObj
          [("execution_id", JInt (ol_ExecutionID o)); ("start", JTime (ol_Start o));
           ("end", JTime (ol_End o)); ("engine_count", JInt (ol_EngineCount o))]) (cv_OtherLoad v)).

(** The loop over participating projects: the first one the caller may read. *)
Fixpoint any_project (services : list Campaign.Service) : M S error unit :=
  match services with
  | [] => throw errForbidden
  | svc :: rest =>
      ok ← attempt (authorizeProject d acct (svc_ProjectID svc) ActionRead);
      if is_Ok ok then mret tt else any_project rest
  end.
Definition authorizeAnyParticipatingProject (c : Campaign.Campaign) : M S error unit :=
  ok ← (if rbacEnabled d then attempt (authorizeCampaignTenant d acct (camp_TenantID c) ActionRead)
        else mret (Err errForbidden));
  if is_Ok ok then mret tt else any_project (camp_Services c).

Definition getCampaignVerdict : Handler :=
  _ ← campaignsConfigured;
  id ← path_id r "campaign_id" "invalid campaign id";
  c ← campaign_of id;
  _ ← call (authorizeAnyParticipatingProject c);
  v ← fetch (λ s : S, CampaignVerdict.Verdict (store_of s) (reports_of s) id);
  mret (writeJSON 200 (toVerdictResponse v)).

Definition comparison_str (st : ComparisonStatus) : string :=
  match st with
  | ComparisonImproved => "improved" | ComparisonRegressed => "regressed"
  | ComparisonNewlyAtRisk => "newly_at_risk" | ComparisonStillAtRisk => "still_at_risk"
  | ComparisonSteady => "steady" | ComparisonNew => "new" | ComparisonDropped => "dropped"
  end.
Definition toComparisonResponse (c : CampaignComparison) : json :=
  JObj ([("campaign_id", JInt (cc_CampaignID c)); ("has_baseline", JBool (cc_HasBaseline c))] ++
        omit_int "baseline_campaign_id" (cc_BaselineCampaignID c) ++
        [("services", JArr ((λ x, JObj
           ([("project_id", JInt (cmp_ProjectID x)); ("status", JStr (comparison_str (cmp_Status x)));
             ("has_current", JBool (cmp_HasCurrent x))] ++ omit_bool "go" (cmp_Go x) ++
            [("has_baseline", JBool (cmp_HasBaseline x))] ++ omit_bool "baseline_go" (cmp_BaselineGo x)))
           <$> cc_Services c))]).
Definition getCampaignComparison : Handler :=
  _ ← campaignsConfigured;
  id ← path_id r "campaign_id" "invalid campaign id";
  c ← campaign_of id;
  _ ← call (authorizeAnyParticipatingProject c);
  baselineID ← (if bool_decide (query r "baseline" = "") then mret 0
                else need (ParseInt (query r "baseline")) 400 "invalid baseline campaign id");
  comparison ← fetch (λ s : S, CompareCampaigns (store_of s) (reports_of s) now id baselineID);
  mret (writeJSON 200 (toComparisonResponse comparison)).

(** ** Reports ([report_handlers.go]) *)
Definition threshold_result_json (x : ThresholdResult) : json :=
  JObj ([("threshold_id", JInt (tr_ThresholdID x)); ("metric", JStr (tr_Metric x));
         ("comparison", JStr (tr_Comparison x)); ("value", JFloat (tr_Value x));
         ("observed_value", null_or JFloat (tr_Observed x)); ("satisfied", null_or JBool (tr_Satisfied x))] ++
        omit_str "reason" (tr_Reason x)).
Definition thresholdResultsForRun (runID : Z) (s : S) : list json :=
  if d_Thresholds d then
    match (ResultsForRun runID (ms_thresholds (w_metrics (a_world s)))).1 with
    | Ok l => threshold_result_json <$> l
    | Err _ => []
    end
  else [].

(** The report, the execution's criteria and which of them it trips, the
    threshold results, and the identity the run's load carried. *)
Definition withCriteriaVerdict (rep : Report) (s : S) : json :=
  let crits := CriteriaFor (rep_ExecutionID rep) (store_of s) in
  let identity :=
    match GetExecution (rep_ExecutionID rep) (store_of s) with
    | Ok c =>
        omit_int "project_id" (exe_ProjectID c) ++
        (if bool_decide (rep_CorrelationID rep = "") then []
         else omit_str "baggage" (Telemetry.Baggage (Telemetry.mkIdentity (exe_TenantID c)
                (exe_ProjectID c) (rep_ExecutionID rep) (rep_CorrelationID rep))))
    | Err _ => []
    end in
  JObj (e_ReportFields env rep ++
        [("criteria", JArr (JStr <$> crits));
         ("failing_criteria", JArr (failing_json <$> EvaluateCriteria rep crits));
         ("threshold_results", JArr (thresholdResultsForRun (rep_RunID rep) s))] ++ identity).

Definition report_of (runID : Z) : M S Response Report := fetch (λ s : S, GetReport runID (reports_of s)).
Definition runReport : Handler :=
  runID ← path_id r "run_id" "invalid run id";
  rep ← report_of runID;
  _ ← call (authorizeReport d acct (rep_ExecutionID rep));
  out ← gets (withCriteriaVerdict rep);
  mret (writeJSON 200 out).

Definition compareMaxRuns : Z := 20.
Fixpoint parse_run_ids (pieces : list string) : option (list Z) :=
  match pieces with
  | [] => Some []
  | piece :: rest =>
      let piece := TrimSpace piece in
      if bool_decide (piece = "") then parse_run_ids rest
      else match ParseInt piece with
           | Some id => if id <=? 0 then None else (id ::.) <$> parse_run_ids rest
           | None => None
           end
  end.
Definition no_runs : string :=
  "no runs to compare: pass run_ids[] (repeated or comma-separated), or run_a and run_b".
Definition parseCompareRunIDs : result string (list Z) :=
  let parts := r_query r "run_ids[]" ++ r_query r "run_ids" in
  let a := query r "run_a" in
  let b := query r "run_b" in
  if bool_decide (parts = []) && bool_decide (a = "") && bool_decide (b = "") then Err no_runs
  else
    let parts := match parts with [] => [a; b] | _ => parts end in
    match parse_run_ids (parts ≫= λ part, SplitBy part ","%char) with
    | None => Err "invalid run id"
    | Some [] => Err no_runs
    | Some ids => if compareMaxRuns <? Z.of_nat (length ids) then Err "too many runs to compare" else Ok ids
    end.
Definition parseBaselineRunID : option Z :=
  let raw := TrimSpace (query r "baseline_run_id") in
  if bool_decide (raw = "") then Some 0
  else match ParseInt raw with
       | Some id => if id <=? 0 then None else Some id
       | None => None
       end.
(** Every run is authorised through its own execution; the first failure ends
    the comparison. *)
Fixpoint compare_reports (ids : list Z) : M S Response (list json) :=
  match ids with
  | [] => mret []
  | id :: rest =>
      rep ← report_of id;
      _ ← call (authorizeReport d acct (rep_ExecutionID rep));
      out ← gets (withCriteriaVerdict rep);
      more ← compare_reports rest;
      mret (out :: more)
  end.
Fixpoint index_of (id : Z) (ids : list Z) : option nat :=
  match ids with
  | [] => None
  | x :: rest => if bool_decide (x = id) then Some 0%nat else Nat.succ <$> index_of id rest
  end.
Definition runsCompare : Handler :=
  match parseCompareRunIDs with
  | Err m => reject 400 m
  | Ok ids =>
      baselineID ← need parseBaselineRunID 400 "invalid baseline_run_id";
      out ← compare_reports ids;
      out ← (if baselineID <=? 0 then mret out
             else i ← need (index_of baselineID ids) 400 "baseline_run_id is not among the compared runs";
                  mret (match out !! i with Some x => [x] | None => [] end ++ take i out ++ drop (i + 1) out));
      mret (writeJSON 200 (JArr out))
  end.

Definition executionReports : Handler :=
  executionID ← path_id r "execution_id" "invalid execution id";
  _ ← call (authorizeReport d acct executionID);
  reps ← gets (λ s : S, ListReports executionID (queryInt r) (reports_of s));
  mret (writeJSON 200 (JArr ((λ rep, JObj (e_ReportFields env rep)) <$> reps))).

Definition toTrendResponse (executionID : Z) (t : Trend) : json :=
  JObj [("execution_id", JInt executionID); ("points", JArr ((λ p, JObj
    ([("run_id", JInt (tp_RunID p)); ("outcome", JStr (outcome_str (tp_Outcome p)));
      ("achieved_throughput", JFloat (tp_AchievedThroughput p));
      ("requested_throughput", JFloat (tp_RequestedThroughput p)); ("error_rate", JFloat (tp_ErrorRate p));
      ("p50", JFloat (tp_P50 p)); ("p90", JFloat (tp_P90 p)); ("p95", JFloat (tp_P95 p));
      ("p99", JFloat (tp_P99 p)); ("hit_target_qps", JBool (tp_HitTargetQPS p));
      ("has_comparable_predecessor", JBool (tp_HasComparablePredecessor p))] ++
     omit_bool "regressed" (tp_Regressed p))) <$> tr_Points t))].
Definition executionTrend : Handler :=
  executionID ← path_id r "execution_id" "invalid execution id";
  _ ← call (authorizeReport d acct executionID);
  reps ← gets (λ s : S, ListReports executionID (queryInt r) (reports_of s));
  mret (writeJSON 200 (toTrendResponse executionID (BuildTrend reps))).

Definition authorizeRunShard (runID : Z) : M S error unit :=
  if negb (rbacEnabled d) then mret tt
  else
    executionID ← on the_world (RunExecutionID runID);
    authorizeReport d acct executionID.
Definition runShardObject (kind contentType : string) : Handler :=
  runID ← path_id r "run_id" "invalid run id";
  scenarioID ← path_id r "scenario_id" "invalid scenario id";
  shard ← path_id r "shard" "invalid shard";
  _ ← (if (shard <? 0) || (2147483647 <? shard) then reject 400 "invalid shard" else mret tt);
  _ ← call (authorizeRunShard runID);
  let cluster := query r "cluster" in
  let key := if bool_decide (cluster = "") then RunShardKey runID scenarioID shard kind
             else RunShardClusterKey runID scenarioID shard cluster kind in
  data ← call (on the_world (on_objects (Download key)));
  mret (mkResponse 200 (Bytes contentType data)).
Definition runShardLog : Handler := runShardObject "log" "text/plain; charset=utf-8".
Definition runShardConfig : Handler := runShardObject "yml" "text/plain; charset=utf-8".

(** ** Share links *)
Definition shareMaxExpiryHours : Z := 720.
Definition sharesConfigured : M S Response unit := gate (d_Shares d) "share links not configured".
Definition authorizeShareGate (runID : Z) : M S error unit :=
  rep ← ask (λ s : S, GetReport runID (reports_of s));
  authorizeReport d acct (rep_ExecutionID rep).

(** [None]: the link never expires. *)
Definition share_expiry (hours : option Z) : option time :=
  (λ h, time_Add now (Z.min h shareMaxExpiryHours * (3600 * second))) <$> hours.
Definition createRunShare : Handler :=
  _ ← sharesConfigured;
  runID ← path_id r "run_id" "invalid run id";
  hours ← (if bool_decide (r_body r = Some "") then mret None
           else need (r_body r ≫= e_Expiry env) 400 "body must be JSON with an optional expires_in_hours");
  _ ← (if from_option (λ h, h <=? 0) false hours then reject 400 "expires_in_hours must be positive"
       else mret tt);
  _ ← call (authorizeShareGate runID);
  token ← (match e_Random env with
           | Ok t => mret t
           | Err _ => reject 500 "internal server error"
           end);
  _ ← call (on the_shares (CreateShare now runID token (Name acct) (share_expiry hours)));
  mret (writeJSON 201 (JObj [("token", JStr token); ("url", JStr ("/share/" +:+ token));
                             ("expires_at", null_or JTime (share_expiry hours))])).

Definition listRunShares : Handler :=
  _ ← sharesConfigured;
  runID ← path_id r "run_id" "invalid run id";
  _ ← call (authorizeShareGate runID);
  l ← fetch (λ s : S, ListSharesByRun runID (a_shares s));
  mret (writeJSON 200 (JArr ((λ x, JObj
    [("token", JStr (sh_Token x)); ("created_by", JStr (sh_CreatedBy x));
     ("created_time", JTime (sh_CreatedTime x)); ("expires_at", null_or JTime (sh_Expires x))]) <$> l))).

Definition deleteRunShare : Handler :=
  _ ← sharesConfigured;
  runID ← path_id r "run_id" "invalid run id";
  _ ← call (authorizeShareGate runID);
  _ ← call (on the_shares (DeleteShare runID (r_path r "token")));
  mret (mkResponse 204 NoBody).

Definition sharedReport : Handler :=
  _ ← sharesConfigured;
  share ← fetch (λ s : S, GetShareByToken (r_path r "token") (a_shares s));
  _ ← (if ExpiredAt share now then reject 404 "share link expired" else mret tt);
  rep ← report_of (sh_RunID share);
  out ← gets (withCriteriaVerdict rep);
  mret (writeJSON 200 out).

(** ** Annotations *)
Definition noteMaxRunes : Z := 2000.
Definition runStar : Handler :=
  runID ← path_id r "run_id" "invalid run id";
  b ← need (r_body r ≫= e_Star env) 400 "body must be JSON: {starred: bool}";
  starred ← need b 400 "starred is required";
  rep ← report_of runID;
  _ ← call (authorizeReport d acct (rep_ExecutionID rep));
  _ ← call (on the_reports (SetStarred runID starred));
  mret (writeJSON 200 (JObj [("run_id", JInt runID); ("starred", JBool starred)])).
Definition runNote : Handler :=
  runID ← path_id r "run_id" "invalid run id";
  b ← need (r_body r ≫= e_Note env) 400 "body must be JSON: {note: string}";
  note ← need b 400 "note is required";
  _ ← (if noteMaxRunes <? Z.of_nat (length (runes note)) then reject 400 "note too long" else mret tt);
  rep ← report_of runID;
  _ ← call (authorizeReport d acct (rep_ExecutionID rep));
  _ ← call (on the_reports (SetNote runID note));
  mret (writeJSON 200 (JObj [("run_id", JInt runID); ("note", JStr note)])).
End handlers.

(** * A run's data read out

    Of [report_handlers.go] the per-second series, the downloads, the
    recommendations and the error history; [usage_handlers.go] and
    [apm_handlers.go]. *)

(** ** Maps of floats on the wire *)
Definition by_name (a b : string * float64) : Prop := str_le a.1 b.1.
#[global] Instance by_name_dec a b : Decision (by_name a b).
Proof. unfold by_name. apply _. Defined.
Definition floats_json (m : gmap string float64) : json :=
  JObj ((λ kv, (kv.1, JFloat kv.2)) <$> merge_sort by_name (map_to_list m)).
Definition percentiles_json (p : gmap float64 float64) : json := floats_json (percentiles_raw p).

Section handlers.
Context {P C R X : Type}.
Local Abbreviation S := (Api P C R X).
Context (env : Env P C R X) (d : Deps) (r : WebRequest).
Local Abbreviation now := (e_now env).
Local Abbreviation acct := (r_account r).
Local Abbreviation Handler := (M S Response Response).

(** ** The series and the downloads *)
Definition point_json (p : SeriesPoint) : json :=
  JObj ([("ts", JInt (sp_Ts p)); ("vus", JFloat (sp_VUs p)); ("rps", JFloat (sp_RPS p)); ("err_pct", JFloat (sp_ErrPct p))] ++
        (if bool_decide (sp_Latency p = ∅) then [] else [("latency", percentiles_json (sp_Latency p))])).
Definition series_json (points : list SeriesPoint) : json := JObj [("points", JArr (point_json <$> points))].
Definition seriesConfigured : M S Response unit := gate (d_Series d) "series not configured".
Definition run_points (runID : Z) : M S Response (list SeriesPoint) :=
  gets (λ s : S, BuildSeries (ListIntervalsByRun runID (ms_progress (w_metrics (a_world s)))) SeriesPercentiles).

Definition runSeries : Handler :=
  _ ← seriesConfigured;
  runID ← path_id r "run_id" "invalid run id";
  rep ← report_of runID;
  _ ← call (authorizeReport d acct (rep_ExecutionID rep));
  points ← run_points runID;
  mret (writeJSON 200 (series_json points)).

(** The download's file name goes into a header, which is not part of the
    answer here. *)
Definition runExport : Handler :=
  let format := query r "format" in
  _ ← (if bool_decide (format ∈ ["json"; "csv"; "pdf"]) then mret tt
       else reject 400 "format must be json, csv or pdf");
  _ ← seriesConfigured;
  runID ← path_id r "run_id" "invalid run id";
  rep ← report_of runID;
  _ ← call (authorizeReport d acct (rep_ExecutionID rep));
  points ← run_points runID;
  mret (if bool_decide (format = "json")
        then writeJSON 200 (JObj [("report", JObj (e_ReportFields env rep)); ("series", series_json points)])
        else if bool_decide (format = "pdf")
        then mkResponse 200 (Bytes "application/pdf" (of_bytes (runExportPDF runID rep points)))
        else mkResponse 200 (Bytes "text/csv; charset=utf-8" (of_bytes (runExportCSV runID rep points)))).

(** ** Recommendations *)
Definition gatherCapacityEvidence (rep : Report) (s : S) : option CapacityProfile :=
  if d_Calibrations d then
    match GetExecution (rep_ExecutionID rep) (store_of s) with
    | Err _ => None
    | Ok exe =>
        match ProfileFor (mkKey (rep_ScenarioID rep) (exe_Engine exe) (exe_CPU exe) (exe_Memory exe)) (a_world s) with
        | Ok profile => Some profile
        | Err _ => None
        end
    end
  else None.
Definition recommendation_input (runID : Z) (rep : Report) (s : S) : RecInput :=
  let th := ms_thresholds (w_metrics (a_world s)) in
  let defined := if d_Thresholds d then (ListFor (rep_ScenarioID rep) (store_of s, th)).1 else Err ErrNotFound in
  let results := if d_Thresholds d then (ResultsForRun runID th).1 else Err ErrNotFound in
  let profile := gatherCapacityEvidence rep s in
  mkRecInput rep (match defined with Ok _ => true | Err _ => false end)
    (match defined with Ok l => l | Err _ => [] end) (match results with Ok l => l | Err _ => [] end)
    (cp_PerPodQPS <$> profile) ((λ p, time_Sub now (cp_CalibratedAt p)) <$> profile).
Definition recommendation_json (x : Recommendation) : json :=
  JObj [("id", JStr (rcm_ID x)); ("title", JStr (rcm_Title x)); ("detail", JStr (rcm_Detail x));
        ("severity", JStr (rcm_Severity x))].
Definition runRecommendations : Handler :=
  runID ← path_id r "run_id" "invalid run id";
  rep ← report_of runID;
  _ ← call (authorizeReport d acct (rep_ExecutionID rep));
  inp ← gets (recommendation_input runID rep);
  mret (writeJSON 200 (JObj [("recommendations", JArr (recommendation_json <$> Analyze inp))])).

(** ** The error history *)
Definition history_row_json (x : SignatureHistoryRow) : json :=
  JObj ([("label", JStr (sg_Label (shr_Signature x)))] ++ omit_str "response_code" (sg_ResponseCode (shr_Signature x)) ++
        [("side", JStr (side_string (sg_Side (shr_Signature x)))); ("total_count", JInt (shr_TotalCount x));
         ("run_count", JInt (shr_RunCount x))]).
Definition group_by_string (by_ : SignatureGroupBy) : string :=
  match by_ with GroupByLabel => "label" | GroupByResponseCode => "response_code" end.
Definition toErrorSignatureHistoryResponse (executionID : Z) (by_ : SignatureGroupBy) (groups : list SignatureBreakdown) : json :=
  JObj [("execution_id", JInt executionID); ("grouped_by", JStr (group_by_string by_));
        ("groups", JArr ((λ g, JObj [("key", JStr (bd_Key g)); ("total_count", JInt (bd_TotalCount g));
                                     ("rows", JArr (history_row_json <$> bd_Rows g))]) <$> groups))].
Definition executionErrorSignatureHistory : Handler :=
  executionID ← path_id r "execution_id" "invalid execution id";
  _ ← call (authorizeReport d acct executionID);
  let by_ := if bool_decide (query r "by" = "code") then GroupByResponseCode else GroupByLabel in
  rows ← gets (λ s : S, ErrorSignatureHistory executionID (reports_of s));
  mret (writeJSON 200 (toErrorSignatureHistoryResponse executionID by_ (GroupSignatureHistory rows by_))).

(** ** Usage ([usage_handlers.go]) *)
Definition defaultUsageWindow : duration := 30 * 24 * 3600 * second.
Definition usageWindow : M S Response (time * time) :=
  from ← query_time env r "from" (time_Add now (- defaultUsageWindow));
  to ← query_time env r "to" now;
  mret (from, to).
Definition launch_json (x : LaunchRecord) : json :=
  JObj [("ExecutionID", JInt (lr_ExecutionID x)); ("Context", JStr (lr_Context x)); ("Owner", JStr (lr_Owner x));
        ("Engines", JInt (lr_Engines x)); ("VU", JInt (lr_VU x)); ("StartedTime", JTime (lr_StartedTime x));
        ("EndTime", null_or JTime (lr_EndTime x))].
(** No launches at all are written as [null]. *)
Definition usageHistory : Handler :=
  _ ← call (authorizeSystemAdmin d acct);
  w ← usageWindow;
  l ← gets (λ s : S, LaunchHistory w.1 w.2 (store_of s));
  mret (writeJSON 200 (match l with [] => JNull | _ => JArr (launch_json <$> l) end)).
Definition owner_le (a b : string * gmap string float64) : Prop := str_le a.1 b.1.
#[local] Instance owner_le_dec a b : Decision (owner_le a b).
Proof. unfold owner_le. apply _. Defined.
Definition usageSummary : Handler :=
  _ ← call (authorizeSystemAdmin d acct);
  w ← usageWindow;
  sm ← gets (λ s : S, Usage_Summary w.1 w.2 (store_of s));
  mret (writeJSON 200 (JObj
    [("total_vuh", floats_json (us_TotalVUH sm));
     ("vuh_by_owner", JObj ((λ kv, (kv.1, floats_json kv.2)) <$> merge_sort owner_le (map_to_list (us_VUHByOwner sm))))])).

(** ** Link-outs ([apm_handlers.go]) *)
Definition apmLinks : Handler :=
  mret (writeJSON 200 (JArr ((λ t, JObj [("name", JStr t.1); ("url_template", JStr t.2)]) <$> d_APMLinks d))).
End handlers.
