(* ===== verification/HttpRouter.v ===== *)
(** * The HTTP API: the routes and who may call them ([router.go])

    The route table, the dispatch to the handlers behind the authentication
    middleware, and, route by route, the permission the API demands.  Of the
    routes, [/healthz], [/metrics], [/api/admin/nodes], the event stream, the
    flat list of scenarios, the JMeter import and the validation of requests
    are not modelled. *)
From S2P Require Import Prelude Errors GoStrings Taurus Scenario Execution Rbac Auth Campaign Schedule Calibration Report Histogram Store AuthApp Cluster CalibrationApp CampaignApp ScheduleApp Lifecycle MetricsApp Webhook ClusterApp ProjectApp Http HttpAdmin HttpExec HttpScen HttpCampaign.
Import Account.

(** ** The route table *)
Inductive Route :=
| ListSessionProfiles | CreateSession | DeleteSession | Me | ListProjects | CreateProject
| GetProject_ | DeleteProject_ | ProjectSummary | CreateWebhook_ | ListWebhooks | DeleteWebhook_
| SetWebhook | CreateSLO_ | ListSLOs | DeleteSLO_ | SLOBudget | SetDigest | GetDigest
| DeleteDigest | ListDigests | CreateScenario_ | GetScenario_ | DeleteScenario_
| ListScenarioFiles | UploadScenarioFile | DeleteScenarioFile_ | SetScenarioRequests_
| GetScenarioRequests_ | ListScenarioExecutions | ListVersions_ | GetVersion | RestoreVersion
| ListThresholds | ReplaceThresholds_ | ListTemplates_ | InstantiateTemplate | CreateExecution_
| ListExecutions | GetExecution_ | DeleteExecution_ | ListExecutionFiles | UploadExecutionFile
| DeleteExecutionFile_ | UploadConfig | GetConfig_ | ReResolve | Deploy_ | Trigger_ | Stop_
| Purge_ | ExecutionStatus_ | ExecutionEngines | ScenarioPodLog | CreateSchedule_ | ListSchedules
| DeleteSchedule_ | ExecutionReports | ExecutionTrend | RunsCompare | RunReport | ErrorSignatures
| RunRecommendations | RunSeries | RunExport | RunShardLog | RunShardConfig | RunStar | RunNote
| CreateRunShare | ListRunShares | DeleteRunShare | SharedReport | UsageHistory | UsageSummary_
| APMLinks | AdminExecutions | AbortExecutions | CreateTenant_ | ListTenants_ | GetTenant_
| SetTenantStatus_ | SetTenantQuota | GetTenantQuota | TenantReservations | AssignTenantRole
| ListTenantRoles_ | RevokeTenantRole | AssignGlobalRole | RevokeGlobalRole | CreateCluster_
| ListClusters_ | RotateIngestToken_ | GetCluster_ | UpdateCluster_ | DeleteCluster_
| CreateCampaign_ | ListCampaigns | ListAllCampaigns_ | GetCampaign_ | UpdateCampaign_
| AbortCampaign_ | GetCampaignVerdict | GetCampaignComparison | CreateCalibration
| TriggerCalibration | TriggerScenarioCalibration | GetCalibrationJob_ | GetCapacityProfile_
| FanOutCapacity | ListCapacityProfiles_ | DownloadFile_ | Ingest_.

(** A pattern: literal text and path parameters. *)
Inductive segment := Lit (s : string) | Val (name : string).
Definition render (value : string → string) (p : list segment) : string :=
  foldr (λ seg acc, match seg with Lit s => s +:+ acc | Val n => value n +:+ acc end) "" p.
Definition route (rt : Route) : string * list segment * string :=
  match rt with
  | ListSessionProfiles => ("GET", [Lit "/api/session/profiles"], "session")
  | CreateSession => ("POST", [Lit "/api/session"], "session")
  | DeleteSession => ("DELETE", [Lit "/api/session"], "session")
  | Me => ("GET", [Lit "/api/me"], "session")
  | ListProjects => ("GET", [Lit "/api/projects"], "projects")
  | CreateProject => ("POST", [Lit "/api/projects"], "projects")
  | GetProject_ => ("GET", [Lit "/api/projects/"; Val "project_id"], "projects")
  | DeleteProject_ => ("DELETE", [Lit "/api/projects/"; Val "project_id"], "projects")
  | ProjectSummary => ("GET", [Lit "/api/projects/"; Val "project_id"; Lit "/summary"], "projects")
  | CreateWebhook_ => ("POST", [Lit "/api/projects/"; Val "project_id"; Lit "/webhooks"], "webhooks")
  | ListWebhooks => ("GET", [Lit "/api/projects/"; Val "project_id"; Lit "/webhooks"], "webhooks")
  | DeleteWebhook_ => ("DELETE", [Lit "/api/projects/"; Val "project_id"; Lit "/webhooks/"; Val "webhook_id"], "webhooks")
  | SetWebhook => ("PUT", [Lit "/api/projects/"; Val "project_id"; Lit "/webhooks/"; Val "webhook_id"; Lit "/enabled"], "webhooks")
  | CreateSLO_ => ("POST", [Lit "/api/projects/"; Val "project_id"; Lit "/slos"], "slos")
  | ListSLOs => ("GET", [Lit "/api/projects/"; Val "project_id"; Lit "/slos"], "slos")
  | DeleteSLO_ => ("DELETE", [Lit "/api/projects/"; Val "project_id"; Lit "/slos/"; Val "slo_id"], "slos")
  | SLOBudget => ("GET", [Lit "/api/projects/"; Val "project_id"; Lit "/slos/"; Val "slo_id"; Lit "/budget"], "slos")
  | SetDigest => ("PUT", [Lit "/api/projects/"; Val "project_id"; Lit "/digest"], "digests")
  | GetDigest => ("GET", [Lit "/api/projects/"; Val "project_id"; Lit "/digest"], "digests")
  | DeleteDigest => ("DELETE", [Lit "/api/projects/"; Val "project_id"; Lit "/digest"], "digests")
  | ListDigests => ("GET", [Lit "/api/projects/"; Val "project_id"; Lit "/digests"], "digests")
  | CreateScenario_ => ("POST", [Lit "/api/scenarios"], "scenarios")
  | GetScenario_ => ("GET", [Lit "/api/scenarios/"; Val "scenario_id"], "scenarios")
  | DeleteScenario_ => ("DELETE", [Lit "/api/scenarios/"; Val "scenario_id"], "scenarios")
  | ListScenarioFiles => ("GET", [Lit "/api/scenarios/"; Val "scenario_id"; Lit "/files"], "scenarios")
  | UploadScenarioFile => ("PUT", [Lit "/api/scenarios/"; Val "scenario_id"; Lit "/files"], "scenarios")
  | DeleteScenarioFile_ => ("DELETE", [Lit "/api/scenarios/"; Val "scenario_id"; Lit "/files"], "scenarios")
  | SetScenarioRequests_ => ("PUT", [Lit "/api/scenarios/"; Val "scenario_id"; Lit "/requests"], "scenarios")
  | GetScenarioRequests_ => ("GET", [Lit "/api/scenarios/"; Val "scenario_id"; Lit "/requests"], "scenarios")
  | ListScenarioExecutions => ("GET", [Lit "/api/scenarios/"; Val "scenario_id"; Lit "/executions"], "scenarios")
  | ListVersions_ => ("GET", [Lit "/api/scenarios/"; Val "scenario_id"; Lit "/versions"], "scenarios")
  | GetVersion => ("GET", [Lit "/api/scenarios/"; Val "scenario_id"; Lit "/versions/"; Val "version"], "scenarios")
  | RestoreVersion => ("POST", [Lit "/api/scenarios/"; Val "scenario_id"; Lit "/versions/"; Val "version"; Lit "/restore"], "scenarios")
  | ListThresholds => ("GET", [Lit "/api/scenarios/"; Val "scenario_id"; Lit "/thresholds"], "scenarios")
  | ReplaceThresholds_ => ("PUT", [Lit "/api/scenarios/"; Val "scenario_id"; Lit "/thresholds"], "scenarios")
  | ListTemplates_ => ("GET", [Lit "/api/templates"], "scenarios")
  | InstantiateTemplate => ("POST", [Lit "/api/scenarios/"; Val "scenario_id"; Lit "/instantiate"], "scenarios")
  | CreateExecution_ => ("POST", [Lit "/api/executions"], "executions")
  | ListExecutions => ("GET", [Lit "/api/executions"], "executions")
  | GetExecution_ => ("GET", [Lit "/api/executions/"; Val "execution_id"], "executions")
  | DeleteExecution_ => ("DELETE", [Lit "/api/executions/"; Val "execution_id"], "executions")
  | ListExecutionFiles => ("GET", [Lit "/api/executions/"; Val "execution_id"; Lit "/files"], "executions")
  | UploadExecutionFile => ("PUT", [Lit "/api/executions/"; Val "execution_id"; Lit "/files"], "executions")
  | DeleteExecutionFile_ => ("DELETE", [Lit "/api/executions/"; Val "execution_id"; Lit "/files"], "executions")
  | UploadConfig => ("PUT", [Lit "/api/executions/"; Val "execution_id"; Lit "/config"], "executions")
  | GetConfig_ => ("GET", [Lit "/api/executions/"; Val "execution_id"; Lit "/config"], "executions")
  | ReResolve => ("POST", [Lit "/api/executions/"; Val "execution_id"; Lit "/config/re-resolve"], "executions")
  | Deploy_ => ("POST", [Lit "/api/executions/"; Val "execution_id"; Lit "/deploy"], "lifecycle")
  | Trigger_ => ("POST", [Lit "/api/executions/"; Val "execution_id"; Lit "/trigger"], "lifecycle")
  | Stop_ => ("POST", [Lit "/api/executions/"; Val "execution_id"; Lit "/stop"], "lifecycle")
  | Purge_ => ("POST", [Lit "/api/executions/"; Val "execution_id"; Lit "/purge"], "lifecycle")
  | ExecutionStatus_ => ("GET", [Lit "/api/executions/"; Val "execution_id"; Lit "/status"], "lifecycle")
  | ExecutionEngines => ("GET", [Lit "/api/executions/"; Val "execution_id"; Lit "/engines"], "lifecycle")
  | ScenarioPodLog => ("GET", [Lit "/api/executions/"; Val "execution_id"; Lit "/scenarios/"; Val "scenario_id"; Lit "/logs"], "lifecycle")
  | CreateSchedule_ => ("POST", [Lit "/api/executions/"; Val "execution_id"; Lit "/schedules"], "schedules")
  | ListSchedules => ("GET", [Lit "/api/executions/"; Val "execution_id"; Lit "/schedules"], "schedules")
  | DeleteSchedule_ => ("DELETE", [Lit "/api/executions/"; Val "execution_id"; Lit "/schedules/"; Val "schedule_id"], "schedules")
  | ExecutionReports => ("GET", [Lit "/api/executions/"; Val "execution_id"; Lit "/reports"], "reports")
  | ExecutionTrend => ("GET", [Lit "/api/executions/"; Val "execution_id"; Lit "/trend"], "reports")
  | RunsCompare => ("GET", [Lit "/api/runs/compare"], "reports")
  | RunReport => ("GET", [Lit "/api/runs/"; Val "run_id"; Lit "/report"], "reports")
  | ErrorSignatures => ("GET", [Lit "/api/executions/"; Val "execution_id"; Lit "/error-signatures"], "reports")
  | RunRecommendations => ("GET", [Lit "/api/runs/"; Val "run_id"; Lit "/recommendations"], "reports")
  | RunSeries => ("GET", [Lit "/api/runs/"; Val "run_id"; Lit "/series"], "reports")
  | RunExport => ("GET", [Lit "/api/runs/"; Val "run_id"; Lit "/export"], "reports")
  | RunShardLog => ("GET", [Lit "/api/runs/"; Val "run_id"; Lit "/scenarios/"; Val "scenario_id"; Lit "/shards/"; Val "shard"; Lit "/log"], "reports")
  | RunShardConfig => ("GET", [Lit "/api/runs/"; Val "run_id"; Lit "/scenarios/"; Val "scenario_id"; Lit "/shards/"; Val "shard"; Lit "/config"], "reports")
  | RunStar => ("PUT", [Lit "/api/runs/"; Val "run_id"; Lit "/star"], "reports")
  | RunNote => ("PUT", [Lit "/api/runs/"; Val "run_id"; Lit "/note"], "reports")
  | CreateRunShare => ("POST", [Lit "/api/runs/"; Val "run_id"; Lit "/share"], "reports")
  | ListRunShares => ("GET", [Lit "/api/runs/"; Val "run_id"; Lit "/share"], "reports")
  | DeleteRunShare => ("DELETE", [Lit "/api/runs/"; Val "run_id"; Lit "/share/"; Val "token"], "reports")
  | SharedReport => ("GET", [Lit "/api/share/"; Val "token"], "reports")
  | UsageHistory => ("GET", [Lit "/api/usage/history"], "usage")
  | UsageSummary_ => ("GET", [Lit "/api/usage/summary"], "usage")
  | APMLinks => ("GET", [Lit "/api/apm-links"], "apm")
  | AdminExecutions => ("GET", [Lit "/api/admin/executions"], "admin")
  | AbortExecutions => ("POST", [Lit "/api/admin/abort"], "admin")
  | CreateTenant_ => ("POST", [Lit "/api/tenants"], "tenants")
  | ListTenants_ => ("GET", [Lit "/api/tenants"], "tenants")
  | GetTenant_ => ("GET", [Lit "/api/tenants/"; Val "tenant_id"], "tenants")
  | SetTenantStatus_ => ("PATCH", [Lit "/api/tenants/"; Val "tenant_id"], "tenants")
  | SetTenantQuota => ("PUT", [Lit "/api/tenants/"; Val "tenant_id"; Lit "/quota"], "tenants")
  | GetTenantQuota => ("GET", [Lit "/api/tenants/"; Val "tenant_id"; Lit "/quota"], "tenants")
  | TenantReservations => ("GET", [Lit "/api/tenants/"; Val "tenant_id"; Lit "/reservations"], "tenants")
  | AssignTenantRole => ("POST", [Lit "/api/tenants/"; Val "tenant_id"; Lit "/roles"], "tenants")
  | ListTenantRoles_ => ("GET", [Lit "/api/tenants/"; Val "tenant_id"; Lit "/roles"], "tenants")
  | RevokeTenantRole => ("DELETE", [Lit "/api/tenants/"; Val "tenant_id"; Lit "/roles"], "tenants")
  | AssignGlobalRole => ("POST", [Lit "/api/roles"], "tenants")
  | RevokeGlobalRole => ("DELETE", [Lit "/api/roles"], "tenants")
  | CreateCluster_ => ("POST", [Lit "/api/clusters"], "clusters")
  | ListClusters_ => ("GET", [Lit "/api/clusters"], "clusters")
  | RotateIngestToken_ => ("POST", [Lit "/api/clusters/"; Val "name"; Lit "/rotate-ingest-token"], "clusters")
  | GetCluster_ => ("GET", [Lit "/api/clusters/"; Val "name"], "clusters")
  | UpdateCluster_ => ("PUT", [Lit "/api/clusters/"; Val "name"], "clusters")
  | DeleteCluster_ => ("DELETE", [Lit "/api/clusters/"; Val "name"], "clusters")
  | CreateCampaign_ => ("POST", [Lit "/api/tenants/"; Val "tenant_id"; Lit "/campaigns"], "campaigns")
  | ListCampaigns => ("GET", [Lit "/api/tenants/"; Val "tenant_id"; Lit "/campaigns"], "campaigns")
  | ListAllCampaigns_ => ("GET", [Lit "/api/campaigns"], "campaigns")
  | GetCampaign_ => ("GET", [Lit "/api/campaigns/"; Val "campaign_id"], "campaigns")
  | UpdateCampaign_ => ("PUT", [Lit "/api/campaigns/"; Val "campaign_id"], "campaigns")
  | AbortCampaign_ => ("POST", [Lit "/api/campaigns/"; Val "campaign_id"; Lit "/abort"], "campaigns")
  | GetCampaignVerdict => ("GET", [Lit "/api/campaigns/"; Val "campaign_id"; Lit "/verdict"], "campaigns")
  | GetCampaignComparison => ("GET", [Lit "/api/campaigns/"; Val "campaign_id"; Lit "/comparison"], "campaigns")
  | CreateCalibration => ("POST", [Lit "/api/calibrations"], "calibration")
  | TriggerCalibration => ("POST", [Lit "/api/executions/"; Val "execution_id"; Lit "/calibration/trigger"], "calibration")
  | TriggerScenarioCalibration => ("POST", [Lit "/api/scenarios/"; Val "scenario_id"; Lit "/calibration/trigger"], "calibration")
  | GetCalibrationJob_ => ("GET", [Lit "/api/calibrations/"; Val "job_id"], "calibration")
  | GetCapacityProfile_ => ("GET", [Lit "/api/scenarios/"; Val "scenario_id"; Lit "/capacity-profile"], "calibration")
  | FanOutCapacity => ("GET", [Lit "/api/scenarios/"; Val "scenario_id"; Lit "/capacity-profile/fanout"], "calibration")
  | ListCapacityProfiles_ => ("GET", [Lit "/api/capacity-profiles"], "calibration")
  | DownloadFile_ => ("GET", [Lit "/api/files/"; Val "kind"; Lit "/"; Val "id"; Lit "/"; Val "name"], "files")
  | Ingest_ => ("POST", [Lit "/api/ingest"], "ingest")
  end.

(** The path of a request the route matches. *)
Definition route_path (rt : Route) (r : WebRequest) : string := render (r_path r) (route rt).1.2.

Definition ingestPath : string := "/api/ingest".
Definition sessionPath : string := "/api/session".
Definition sessionProfilesPath : string := "/api/session/profiles".
Definition shareFetchPrefix : string := "/api/share/".
Definition HasPrefix (s prefix : string) : bool := bool_decide (is_Some (CutPrefix s prefix)).
Definition publicAPIPath (path : string) : bool :=
  bool_decide (path = ingestPath) || bool_decide (path = sessionPath) ||
  bool_decide (path = sessionProfilesPath) || HasPrefix path shareFetchPrefix.

Section router.
Context {P C R X : Type} `{!Unicode} `{!URLParser} `{!Scheduler C} `{!AuthProvider P}.
Context `{!ClusterRegistry R} `{!CredentialStore X}.
Local Abbreviation S := (Api P C R X).
Context (env : Env P C R X) (d : Deps).

Definition handle (rt : Route) (r : WebRequest) : M S Response Response :=
  match rt with
  | ListSessionProfiles => listSessionProfiles d
  | CreateSession => createSession env d r
  | DeleteSession => deleteSession d
  | Me => me env d r
  | ListProjects => listProjects d r
  | CreateProject => createProject env d r
  | GetProject_ => getProject d r
  | DeleteProject_ => deleteProject d r
  | ProjectSummary => projectSummary d r
  | CreateWebhook_ => createWebhook env d r
  | ListWebhooks => listWebhooks d r
  | DeleteWebhook_ => deleteWebhook d r
  | SetWebhook => setWebhookEnabled d r
  | CreateSLO_ => createSLO env d r
  | ListSLOs => listSLOs d r
  | DeleteSLO_ => deleteSLO d r
  | SLOBudget => sloBudget env d r
  | SetDigest => setDigestConfig d r
  | GetDigest => getDigestConfig d r
  | DeleteDigest => deleteDigestConfig d r
  | ListDigests => listDigests env d r
  | CreateScenario_ => createScenario env d r
  | GetScenario_ => getScenario d r
  | DeleteScenario_ => deleteScenario d r
  | ListScenarioFiles => listScenarioFiles d r
  | UploadScenarioFile => uploadScenarioFile env d r
  | DeleteScenarioFile_ => deleteScenarioFile env d r
  | SetScenarioRequests_ => setScenarioRequests env d r
  | GetScenarioRequests_ => getScenarioRequests d r
  | ListScenarioExecutions => listScenarioExecutions d r
  | ListVersions_ => listScenarioVersions d r
  | GetVersion => getScenarioVersion d r
  | RestoreVersion => restoreScenarioVersion env d r
  | ListThresholds => listScenarioThresholds d r
  | ReplaceThresholds_ => replaceScenarioThresholds env d r
  | ListTemplates_ => listTemplates d r
  | InstantiateTemplate => instantiateTemplate env d r
  | CreateExecution_ => createExecution env d r
  | ListExecutions => listExecutions d r
  | GetExecution_ => getExecution d r
  | DeleteExecution_ => deleteExecution d r
  | ListExecutionFiles => listExecutionFiles d r
  | UploadExecutionFile => uploadExecutionFile d r
  | DeleteExecutionFile_ => deleteExecutionFile d r
  | UploadConfig => uploadExecutionConfig env d r
  | GetConfig_ => getExecutionConfig d r
  | ReResolve => reResolveExecutionConfig env d r
  | Deploy_ => deployExecution env d r
  | Trigger_ => triggerExecution env d r
  | Stop_ => stopExecution env d r
  | Purge_ => purgeExecution env d r
  | ExecutionStatus_ => executionStatus d r
  | ExecutionEngines => executionEngines d r
  | ScenarioPodLog => scenarioPodLog d r
  | CreateSchedule_ => createSchedule env d r
  | ListSchedules => listSchedules d r
  | DeleteSchedule_ => deleteSchedule d r
  | ExecutionReports => executionReports env d r
  | ExecutionTrend => executionTrend d r
  | RunsCompare => runsCompare env d r
  | RunReport => runReport env d r
  | ErrorSignatures => executionErrorSignatureHistory d r
  | RunRecommendations => runRecommendations env d r
  | RunSeries => runSeries d r
  | RunExport => runExport env d r
  | RunShardLog => runShardLog d r
  | RunShardConfig => runShardConfig d r
  | RunStar => runStar env d r
  | RunNote => runNote env d r
  | CreateRunShare => createRunShare env d r
  | ListRunShares => listRunShares d r
  | DeleteRunShare => deleteRunShare d r
  | SharedReport => sharedReport env d r
  | UsageHistory => usageHistory env d r
  | UsageSummary_ => usageSummary env d r
  | APMLinks => apmLinks d
  | AdminExecutions => adminExecutions d r
  | AbortExecutions => abortExecutions env d r
  | CreateTenant_ => createTenant env d r
  | ListTenants_ => listTenants d r
  | GetTenant_ => getTenant d r
  | SetTenantStatus_ => setTenantStatus d r
  | SetTenantQuota => setTenantQuota d r
  | GetTenantQuota => getTenantQuota d r
  | TenantReservations => tenantReservations env d r
  | AssignTenantRole => assignTenantRole env d r
  | ListTenantRoles_ => listTenantRoles d r
  | RevokeTenantRole => revokeTenantRole d r
  | AssignGlobalRole => assignGlobalRole env d r
  | RevokeGlobalRole => revokeGlobalRole d r
  | CreateCluster_ => createCluster env d r
  | ListClusters_ => listClusters env d r
  | RotateIngestToken_ => rotateIngestToken env d r
  | GetCluster_ => getCluster d r
  | UpdateCluster_ => updateCluster d r
  | DeleteCluster_ => deleteCluster d r
  | CreateCampaign_ => createCampaign env d r
  | ListCampaigns => listCampaigns env d r
  | ListAllCampaigns_ => listAllCampaigns env d r
  | GetCampaign_ => getCampaign env d r
  | UpdateCampaign_ => updateCampaign env d r
  | AbortCampaign_ => abortCampaign env d r
  | GetCampaignVerdict => getCampaignVerdict d r
  | GetCampaignComparison => getCampaignComparison env d r
  | CreateCalibration => createCalibration env d r
  | TriggerCalibration => triggerCalibration env d r
  | TriggerScenarioCalibration => triggerScenarioCalibration env d r
  | GetCalibrationJob_ => getCalibrationJob d r
  | GetCapacityProfile_ => getCapacityProfile d r
  | FanOutCapacity => fanOutCapacity env d r
  | ListCapacityProfiles_ => listCapacityProfiles env d r
  | DownloadFile_ => downloadFile d r
  | Ingest_ => ingest env d r
  end.

Definition answer (m : M S Response Response) (s : S) : Response * S :=
  match m s with (Ok resp, s') | (Err resp, s') => (resp, s') end.
(** The middleware [authenticate]: what happens to a request of a route. *)
Definition serve (rt : Route) (r : WebRequest) (s : S) : Response * S :=
  let r := with_account zero_account r in
  if publicAPIPath (route_path rt r) then answer (handle rt r) s
  else
    match d_Auth d with
    | Some svc =>
        if enabled svc && HasPrefix (route_path rt r) "/api/" then
          match authenticated env r svc s with
          | (Ok acct, s') => answer (handle rt (with_account acct r)) s'
          | (Err resp, s') => (resp, s')
          end
        else answer (handle rt r) s
    | None => answer (handle rt r) s
    end.

(** Who a request speaks for: nobody where no authentication is asked for,
    otherwise whom the provider names; [None] is a caller it does not know. *)
Definition caller (rt : Route) (r : WebRequest) (s : S) : option Account :=
  if publicAPIPath (route_path rt r) then Some zero_account
  else
    match d_Auth d with
    | Some svc =>
        if enabled svc && HasPrefix (route_path rt r) "/api/" then
          match (Authenticate svc (e_now env) (r_http r) (a_provider s, store_of s)).1 with
          | Ok acct => Some acct
          | Err _ => None
          end
        else Some zero_account
    | None => Some zero_account
    end.
End router.

(** ** What the API demands of a caller *)
Definition with_opt {A} (o : option A) (φ : A → Prop) : Prop := from_option φ False o.
Definition with_id (r : WebRequest) (name : string) (φ : Z → Prop) : Prop := with_opt (pathInt r name) φ.
Definition with_form (r : WebRequest) (φ : (string → list string) → Prop) : Prop := with_opt (r_form r) φ.

Section demands.
Context {P C R X : Type} `{!ClusterRegistry R}.
Local Abbreviation S := (Api P C R X).
Implicit Types (d : Deps) (acct : Account) (s : S).

(** Under RBAC a role of the caller in the tenant, or a global one, grants the
    action; without it the owner must be one of the configured owners. *)
Definition permitted d acct (owner : string) (tenantID : option Z) (resource : string) (action : Rbac.Action) : Prop :=
  if rbacEnabled d then allowed d acct resource action tenantID = true else owns d owner = true.
Definition may_tenant d acct (resource : string) (action : Rbac.Action) (tenantID : option Z) : Prop :=
  rbacEnabled d = true → allowed d acct resource action tenantID = true.
Definition may_project d acct s (id : Z) (resource : string) (action : Rbac.Action) : Prop :=
  ∃ p, GetProject id (store_of s) = Ok p ∧
    permitted d acct (Project.prj_Owner p) (Project.prj_TenantID p) resource action.
Definition may_execution d acct s (id : Z) (resource : string) (action : Rbac.Action) : Prop :=
  ∃ c, GetExecution id (store_of s) = Ok c ∧
    if rbacEnabled d then allowed d acct resource action (exe_TenantID c) = true
    else may_project d acct s (exe_ProjectID c) ResourceProject action.
Definition may_scenario d acct s (id : Z) (action : Rbac.Action) : Prop :=
  ∃ c, GetScenario id (store_of s) = Ok c ∧
    if rbacEnabled d then allowed d acct ResourceScenario action (Scenario.scn_TenantID c) = true
    else may_project d acct s (Scenario.scn_ProjectID c) ResourceProject action.
Definition may_template d acct s (id : Z) : Prop :=
  ∃ c, GetScenario id (store_of s) = Ok c ∧
    may_tenant d acct ResourceScenario ActionRead (Scenario.scn_TenantID c).
Definition may_read_reports d acct s (executionID : Z) : Prop :=
  rbacEnabled d = true → ∃ c, GetExecution executionID (store_of s) = Ok c ∧
    allowed d acct ResourceReport ActionRead (exe_TenantID c) = true.
Definition may_report d acct s (runID : Z) : Prop :=
  ∃ rep, GetReport runID (reports_of s) = Ok rep ∧ may_read_reports d acct s (rep_ExecutionID rep).
Definition may_run_shard d acct s (runID : Z) : Prop :=
  rbacEnabled d = true → ∃ executionID, (RunExecutionID runID (a_world s)).1 = Ok executionID ∧
    may_read_reports d acct s executionID.
Definition may_schedule d acct s (id : Z) : Prop :=
  ∃ sc, (ScheduleApp.Get id (a_world s)).1 = Ok sc ∧
    may_execution d acct s (Schedule.sch_ExecutionID sc) ResourceExecution ActionDelete.
Definition may_job d acct s (id : Z) : Prop :=
  ∃ job, (Calibration_Get id (a_world s)).1 = Ok job ∧
    may_execution d acct s (cj_ExecutionID job.1) ResourceExecution ActionRead.
Definition may_campaign d acct s (id : Z) (action : Rbac.Action) : Prop :=
  ∃ c, CampaignApp.Get id (store_of s) = Ok c ∧
    may_tenant d acct ResourceCampaign action (Some (camp_TenantID c)).
Definition may_see_campaign d acct s (id : Z) : Prop :=
  ∃ c, CampaignApp.Get id (store_of s) = Ok c ∧
    ((rbacEnabled d = true ∧ allowed d acct ResourceCampaign ActionRead (Some (camp_TenantID c)) = true) ∨
     ∃ svc, svc ∈ camp_Services c ∧ may_project d acct s (svc_ProjectID svc) ResourceProject ActionRead).
Definition live_share (env : Env P C R X) s (token : string) : Prop :=
  ∃ sh, GetShareByToken token (a_shares s) = Ok sh ∧ ExpiredAt sh (e_now env) = false.
Definition may_ingest (env : Env P C R X) d (r : WebRequest) s (b : Batch) : Prop :=
  ∃ b', checkIngestCredentials env d r b s = Ok b'.
Definition runs_asked (r : WebRequest) : list Z :=
  match parseCompareRunIDs r with Ok ids => ids | Err _ => [] end.

(** The demand of each route, for a request of the account it carries. *)
Definition granted (env : Env P C R X) d (rt : Route) (r : WebRequest) s : Prop :=
  let acct := r_account r in
  match rt with
  | ListSessionProfiles => True
  | CreateSession => True
  | DeleteSession => True
  | Me => True
  | ListProjects => True
  | CreateProject => with_form r (λ f, with_opt (parseOptionalInt (Get_ f "tenant_id")) (λ t, permitted d acct (Get_ f "owner") t ResourceProject ActionCreate))
  | GetProject_ => with_id r "project_id" (λ id, may_project d acct s id ResourceProject ActionRead)
  | DeleteProject_ => with_id r "project_id" (λ id, may_project d acct s id ResourceProject ActionDelete)
  | ProjectSummary => with_id r "project_id" (λ id, may_project d acct s id ResourceProject ActionRead)
  | CreateWebhook_ => with_id r "project_id" (λ id, may_project d acct s id ResourceProject ActionCreate)
  | ListWebhooks => with_id r "project_id" (λ id, may_project d acct s id ResourceProject ActionRead)
  | DeleteWebhook_ => with_id r "project_id" (λ id, may_project d acct s id ResourceProject ActionDelete)
  | SetWebhook => with_id r "project_id" (λ id, may_project d acct s id ResourceProject ActionUpdate)
  | CreateSLO_ => with_id r "project_id" (λ id, may_project d acct s id ResourceProject ActionCreate)
  | ListSLOs => with_id r "project_id" (λ id, may_project d acct s id ResourceProject ActionRead)
  | DeleteSLO_ => with_id r "project_id" (λ id, may_project d acct s id ResourceProject ActionDelete)
  | SLOBudget => with_id r "project_id" (λ id, may_project d acct s id ResourceProject ActionRead)
  | SetDigest => with_id r "project_id" (λ id, may_project d acct s id ResourceProject ActionUpdate)
  | GetDigest => with_id r "project_id" (λ id, may_project d acct s id ResourceProject ActionRead)
  | DeleteDigest => with_id r "project_id" (λ id, may_project d acct s id ResourceProject ActionUpdate)
  | ListDigests => with_id r "project_id" (λ id, may_project d acct s id ResourceProject ActionRead)
  | CreateScenario_ => with_form r (λ f, with_opt (ParseInt (Get_ f "project_id")) (λ id, may_project d acct s id ResourceScenario ActionCreate))
  | GetScenario_ => with_id r "scenario_id" (λ id, may_scenario d acct s id ActionRead)
  | DeleteScenario_ => with_id r "scenario_id" (λ id, may_scenario d acct s id ActionDelete)
  | ListScenarioFiles => with_id r "scenario_id" (λ id, may_scenario d acct s id ActionRead)
  | UploadScenarioFile => with_id r "scenario_id" (λ id, may_scenario d acct s id ActionUpdate)
  | DeleteScenarioFile_ => with_id r "scenario_id" (λ id, may_scenario d acct s id ActionDelete)
  | SetScenarioRequests_ => with_id r "scenario_id" (λ id, may_scenario d acct s id ActionUpdate)
  | GetScenarioRequests_ => with_id r "scenario_id" (λ id, may_scenario d acct s id ActionRead)
  | ListScenarioExecutions => with_id r "scenario_id" (λ id, may_scenario d acct s id ActionRead)
  | ListVersions_ => with_id r "scenario_id" (λ id, may_scenario d acct s id ActionRead)
  | GetVersion => with_id r "scenario_id" (λ id, may_scenario d acct s id ActionRead)
  | RestoreVersion => with_id r "scenario_id" (λ id, may_scenario d acct s id ActionUpdate)
  | ListThresholds => with_id r "scenario_id" (λ id, may_scenario d acct s id ActionRead)
  | ReplaceThresholds_ => with_id r "scenario_id" (λ id, may_scenario d acct s id ActionUpdate)
  | ListTemplates_ => rbacEnabled d = true → allowed d acct ResourceScenario ActionList None = true
  | InstantiateTemplate => with_id r "scenario_id" (λ id, may_template d acct s id) ∧ with_opt (r_body r ≫= e_Instantiate env) (λ b, may_project d acct s b.1.2 ResourceScenario ActionCreate)
  | CreateExecution_ => with_form r (λ f, with_opt (ParseInt (Get_ f "project_id")) (λ id, may_project d acct s id ResourceExecution ActionCreate))
  | ListExecutions => True
  | GetExecution_ => with_id r "execution_id" (λ id, may_execution d acct s id ResourceExecution ActionRead)
  | DeleteExecution_ => with_id r "execution_id" (λ id, may_execution d acct s id ResourceExecution ActionDelete)
  | ListExecutionFiles => with_id r "execution_id" (λ id, may_execution d acct s id ResourceExecution ActionRead)
  | UploadExecutionFile => with_id r "execution_id" (λ id, may_execution d acct s id ResourceExecution ActionUpdate)
  | DeleteExecutionFile_ => with_id r "execution_id" (λ id, may_execution d acct s id ResourceExecution ActionDelete)
  | UploadConfig => with_id r "execution_id" (λ id, may_execution d acct s id ResourceExecution ActionUpdate)
  | GetConfig_ => with_id r "execution_id" (λ id, may_execution d acct s id ResourceExecution ActionRead)
  | ReResolve => with_id r "execution_id" (λ id, may_execution d acct s id ResourceExecution ActionUpdate)
  | Deploy_ => with_id r "execution_id" (λ id, may_execution d acct s id ResourceRun ActionCreate)
  | Trigger_ => with_id r "execution_id" (λ id, may_execution d acct s id ResourceRun ActionCreate)
  | Stop_ => with_id r "execution_id" (λ id, may_execution d acct s id ResourceRun ActionUpdate)
  | Purge_ => with_id r "execution_id" (λ id, may_execution d acct s id ResourceRun ActionDelete)
  | ExecutionStatus_ => with_id r "execution_id" (λ id, may_execution d acct s id ResourceExecution ActionRead)
  | ExecutionEngines => with_id r "execution_id" (λ id, may_execution d acct s id ResourceExecution ActionRead)
  | ScenarioPodLog => with_id r "execution_id" (λ id, may_execution d acct s id ResourceExecution ActionRead)
  | CreateSchedule_ => with_id r "execution_id" (λ id, may_execution d acct s id ResourceExecution ActionCreate) ∧ with_form r (λ f, with_opt (ParseInt (Get_ f "tenant_id")) (λ t, may_tenant d acct ResourceSchedule ActionCreate (Some t)))
  | ListSchedules => with_id r "execution_id" (λ id, may_execution d acct s id ResourceExecution ActionRead)
  | DeleteSchedule_ => with_id r "schedule_id" (λ id, may_schedule d acct s id)
  | ExecutionReports => with_id r "execution_id" (λ id, may_read_reports d acct s id)
  | ExecutionTrend => with_id r "execution_id" (λ id, may_read_reports d acct s id)
  | RunsCompare => ∀ id, id ∈ runs_asked r → may_report d acct s id
  | RunReport => with_id r "run_id" (λ id, may_report d acct s id)
  | ErrorSignatures => with_id r "execution_id" (λ id, may_read_reports d acct s id)
  | RunRecommendations => with_id r "run_id" (λ id, may_report d acct s id)
  | RunSeries => with_id r "run_id" (λ id, may_report d acct s id)
  | RunExport => with_id r "run_id" (λ id, may_report d acct s id)
  | RunShardLog => with_id r "run_id" (λ id, may_run_shard d acct s id)
  | RunShardConfig => with_id r "run_id" (λ id, may_run_shard d acct s id)
  | RunStar => with_id r "run_id" (λ id, may_report d acct s id)
  | RunNote => with_id r "run_id" (λ id, may_report d acct s id)
  | CreateRunShare => with_id r "run_id" (λ id, may_report d acct s id)
  | ListRunShares => with_id r "run_id" (λ id, may_report d acct s id)
  | DeleteRunShare => with_id r "run_id" (λ id, may_report d acct s id)
  | SharedReport => live_share env s (r_path r "token")
  | UsageHistory => may_tenant d acct ResourceSystem ActionAdmin None
  | UsageSummary_ => may_tenant d acct ResourceSystem ActionAdmin None
  | APMLinks => True
  | AdminExecutions => may_tenant d acct ResourceSystem ActionAdmin None
  | AbortExecutions => may_tenant d acct ResourceSystem ActionAdmin None
  | CreateTenant_ => may_tenant d acct ResourceTenant ActionAdmin (pathInt r "tenant_id")
  | ListTenants_ => may_tenant d acct ResourceTenant ActionAdmin (pathInt r "tenant_id")
  | GetTenant_ => may_tenant d acct ResourceTenant ActionAdmin (pathInt r "tenant_id")
  | SetTenantStatus_ => may_tenant d acct ResourceTenant ActionAdmin (pathInt r "tenant_id")
  | SetTenantQuota => may_tenant d acct ResourceTenant ActionAdmin (pathInt r "tenant_id")
  | GetTenantQuota => may_tenant d acct ResourceTenant ActionAdmin (pathInt r "tenant_id")
  | TenantReservations => with_id r "tenant_id" (λ id, may_tenant d acct ResourceSchedule ActionList (Some id))
  | AssignTenantRole => may_tenant d acct ResourceTenant ActionAdmin (pathInt r "tenant_id")
  | ListTenantRoles_ => may_tenant d acct ResourceTenant ActionAdmin (pathInt r "tenant_id")
  | RevokeTenantRole => may_tenant d acct ResourceTenant ActionAdmin (pathInt r "tenant_id")
  | AssignGlobalRole => may_tenant d acct ResourceTenant ActionAdmin (pathInt r "tenant_id")
  | RevokeGlobalRole => may_tenant d acct ResourceTenant ActionAdmin (pathInt r "tenant_id")
  | CreateCluster_ => may_tenant d acct ResourceSystem ActionAdmin None
  | ListClusters_ => may_tenant d acct ResourceSystem ActionAdmin None
  | RotateIngestToken_ => may_tenant d acct ResourceSystem ActionAdmin None
  | GetCluster_ => may_tenant d acct ResourceSystem ActionAdmin None
  | UpdateCluster_ => may_tenant d acct ResourceSystem ActionAdmin None
  | DeleteCluster_ => may_tenant d acct ResourceSystem ActionAdmin None
  | CreateCampaign_ => with_id r "tenant_id" (λ id, may_tenant d acct ResourceCampaign ActionCreate (Some id))
  | ListCampaigns => with_id r "tenant_id" (λ id, may_tenant d acct ResourceCampaign ActionList (Some id))
  | ListAllCampaigns_ => True
  | GetCampaign_ => with_id r "campaign_id" (λ id, may_campaign d acct s id ActionRead)
  | UpdateCampaign_ => with_id r "campaign_id" (λ id, may_campaign d acct s id ActionUpdate)
  | AbortCampaign_ => with_id r "campaign_id" (λ id, may_campaign d acct s id ActionDelete)
  | GetCampaignVerdict => with_id r "campaign_id" (λ id, may_see_campaign d acct s id)
  | GetCampaignComparison => with_id r "campaign_id" (λ id, may_see_campaign d acct s id)
  | CreateCalibration => with_form r (λ f, with_opt (ParseInt (Get_ f "project_id")) (λ id, may_project d acct s id ResourceExecution ActionCreate) ∧ with_opt (ParseInt (Get_ f "source_execution_id")) (λ id, may_execution d acct s id ResourceExecution ActionRead))
  | TriggerCalibration => with_id r "execution_id" (λ id, may_execution d acct s id ResourceExecution ActionCreate)
  | TriggerScenarioCalibration => with_id r "scenario_id" (λ id, may_scenario d acct s id ActionCreate)
  | GetCalibrationJob_ => with_id r "job_id" (λ id, may_job d acct s id)
  | GetCapacityProfile_ => with_id r "scenario_id" (λ id, may_scenario d acct s id ActionRead)
  | FanOutCapacity => with_id r "scenario_id" (λ id, may_scenario d acct s id ActionRead)
  | ListCapacityProfiles_ => True
  | DownloadFile_ => with_id r "id" (λ id, (r_path r "kind" = "scenario" ∧ may_scenario d acct s id ActionRead) ∨ (r_path r "kind" = "execution" ∧ may_execution d acct s id ResourceExecution ActionRead))
  | Ingest_ => with_opt (r_body r ≫= e_Batch env) (λ b, may_ingest env d r s b)
  end.
End demands.
