(* ===== verification/HttpFacts.v ===== *)
(** * What holds of the HTTP API

    A request is refused, and leaves everything as it was, unless its caller
    holds the permission its route demands ([HttpRouter.granted]). *)
From S2P Require Import Prelude Errors GoStrings GoFloat ParseFloat Run Taurus Scenario Execution Rbac Auth Histogram Report Progress Campaign RunTable Schedule Calibration Store AuthApp Threshold Cluster ExecutionApp ScenarioApp CalibrationApp CampaignApp ScheduleApp Lifecycle MetricsApp Slo Webhook Digest ClusterApp ProjectApp Http HttpAdmin HttpExec HttpScen HttpCampaign HttpRouter.
Import Account.

Lemma respondError_status e : 400 <= rs_Status (respondError e).
Proof.
  assert (∀ (a b : bool) (m : json), 400 <= rs_Status
    (if a then writeError 409 m else if b then writeError 400 m else writeError 500 (JStr "internal server error"))) as Hd.
  { intros [] [] m; vm_compute; discriminate. }
  destruct e; try (vm_compute; discriminate); apply Hd.
Qed.

(** ** Steps that only look *)
Section quiet.
Context {S : Type}.
Implicit Types (s : S).

(** A step that changes nothing: it fails with a refusal or yields a value for
    which [Q] holds. *)
Definition looks {A} (m : M S Response A) s (Q : A → Prop) : Prop :=
  match m s with
  | (Ok a, s') => s' = s ∧ Q a
  | (Err resp, s') => s' = s ∧ 400 <= rs_Status resp
  end.
(** The rest of a handler: it is refused without effect, or [G] holds. *)
Definition guarded (G : Prop) (m : M S Response Response) s : Prop :=
  G ∨ ∃ resp, (m s = (Ok resp, s) ∨ m s = (Err resp, s)) ∧ 400 <= rs_Status resp.

Lemma guarded_bind {A} (m : M S Response A) (k : A → M S Response Response) Q G s :
  looks m s Q → (∀ a, Q a → guarded G (k a) s) → guarded G (m ≫= k) s.
Proof using.
  unfold looks, guarded, mbind, M_bind. intros Hm Hk.
  destruct (m s) as [[a|resp] s'] eqn:E; destruct Hm as [-> Hm].
  - destruct (Hk a Hm) as [?|(resp&Hr&Hst)]; [by left|]. right. exists resp. done.
  - right. exists resp. split; [by right|done].
Qed.
Lemma guarded_granted (G : Prop) (m : M S Response Response) s : G → guarded G m s.
Proof using. by left. Qed.

Lemma looks_need {A} (o : option A) status msg s :
  400 <= status → looks (need o status msg) s (λ a, o = Some a).
Proof using. intros H. destruct o; by split. Qed.
Lemma looks_call {A} (m : M S error A) s (Q : A → Prop) :
  (m s).2 = s → (∀ a, (m s).1 = Ok a → Q a) → looks (call m) s Q.
Proof using.
  unfold looks, call. destruct (m s) as [[a|e] s'] eqn:E; cbn; intros -> HQ; split; auto using respondError_status.
Qed.
Lemma looks_gets {A} (f : S → A) s : looks (gets f) s (λ a, a = f s).
Proof using. done. Qed.
Lemma looks_ret {A} (a : A) s : looks (mret a) s (λ x, x = a).
Proof using. done. Qed.
Lemma looks_weaken {A} (m : M S Response A) s (Q Q' : A → Prop) :
  looks m s Q → (∀ a, Q a → Q' a) → looks m s Q'.
Proof using. unfold looks. destruct (m s) as [[a|e] s']; naive_solver. Qed.
Lemma looks_bind {A B} (m : M S Response A) (k : A → M S Response B) s (Q : A → Prop) (Q' : B → Prop) :
  looks m s Q → (∀ a, Q a → looks (k a) s Q') → looks (m ≫= k) s Q'.
Proof using.
  unfold looks, mbind, M_bind. intros Hm Hk. destruct (m s) as [[a|e] s'] eqn:E; destruct Hm as [-> Hm]; [|done].
  by apply Hk.
Qed.
Lemma looks_reject {A} status msg s : 400 <= status → looks (A := A) (reject status msg) s (λ _, False).
Proof using. done. Qed.
End quiet.

(** A read through a lens. *)
Lemma on_ask {S T A} (l : lens S T) `{!LensLaw l} (m : M T error A) s :
  (m (l_get l s)).2 = l_get l s → (on l m s).2 = s ∧ (on l m s).1 = (m (l_get l s)).1.
Proof. unfold on. destruct (m (l_get l s)) as [r t]. cbn. intros ->. by rewrite lens_same. Qed.

(** ** What the authorisation helpers establish *)
Section access.
Context {P C R X : Type} `{!Unicode} `{!URLParser} `{!Scheduler C} `{!AuthProvider P}.
Context `{!ClusterRegistry R} `{!CredentialStore X}.
Local Abbreviation S := (Api P C R X).
Context (env : Env P C R X) (d : Deps).
Implicit Types (acct : Account) (s : S) (r : WebRequest).

(** An authorisation helper reads only, and succeeds exactly when [φ] holds. *)
Definition decides (m : M S error unit) s (φ : Prop) : Prop :=
  (m s).2 = s ∧ ((m s).1 = Ok tt → φ).
Lemma decides_looks (m : M S error unit) s φ : decides m s φ → looks (call m) s (λ _, φ).
Proof using. intros [H1 H2]. apply looks_call; [done|]. by intros []. Qed.

Lemma decides_authorize acct owner t res act s :
  decides (authorize d acct owner t res act) s (permitted d acct owner t res act).
Proof using.
  unfold decides, authorize, permitted, forbid_unless, guard.
  destruct (rbacEnabled d); cbn [negb];
    [destruct (allowed d acct res act t) eqn:E|destruct (owns d owner) eqn:E]; cbn; split; done.
Qed.
Lemma decides_when_rbac acct res act t s :
  decides (when_rbac d acct res act t) s (may_tenant d acct res act t).
Proof using.
  unfold decides, when_rbac, may_tenant, forbid_unless, guard.
  destruct (rbacEnabled d); cbn [negb]; [|by split].
  destruct (allowed d acct res act t) eqn:E; cbn; split; done.
Qed.
(** A row is read, then decided on. *)
Lemma decides_row {A} (f : S → result error A) (k : A → M S error unit) (ψ : A → Prop) s :
  (∀ a, f s = Ok a → decides (k a) s (ψ a)) →
  decides (ask f ≫= k) s (∃ a, f s = Ok a ∧ ψ a).
Proof using.
  intros Hk. unfold decides, mbind, M_bind, ask. destruct (f s) as [a|e] eqn:E; [|by split].
  destruct (Hk a eq_refl) as [H1 H2]. split; [done|]. eauto.
Qed.
Lemma decides_InProject acct id res act s :
  decides (authorizeInProject d acct id res act) s (may_project d acct s id res act).
Proof using.
  apply (decides_row (λ s, GetProject id (store_of s))). intros p _. apply decides_authorize.
Qed.
Lemma decides_Execution acct id act s :
  decides (authorizeExecution d acct id act) s (may_execution d acct s id ResourceExecution act).
Proof using.
  apply (decides_row (λ s, GetExecution id (store_of s))). intros c _.
  pose proof (decides_authorize acct "" (exe_TenantID c) ResourceExecution act s) as Hd. unfold permitted in Hd.
  destruct (rbacEnabled d); cbn [negb]; [done|apply decides_InProject].
Qed.
Lemma decides_Run acct id act s :
  decides (authorizeRun d acct id act) s (may_execution d acct s id ResourceRun act).
Proof using.
  apply (decides_row (λ s, GetExecution id (store_of s))). intros c _.
  pose proof (decides_authorize acct "" (exe_TenantID c) ResourceRun act s) as Hd. unfold permitted in Hd.
  destruct (rbacEnabled d); cbn [negb]; [done|apply decides_InProject].
Qed.
Lemma decides_Scenario acct id act s :
  decides (authorizeScenario d acct id act) s (may_scenario d acct s id act).
Proof using.
  apply (decides_row (λ s, GetScenario id (store_of s))). intros c _.
  pose proof (decides_authorize acct "" (Scenario.scn_TenantID c) ResourceScenario act s) as Hd. unfold permitted in Hd.
  destruct (rbacEnabled d); cbn [negb]; [done|apply decides_InProject].
Qed.
Lemma decides_Report acct id s :
  decides (authorizeReport d acct id) s (may_read_reports d acct s id).
Proof using.
  unfold authorizeReport, may_read_reports.
  pose proof (decides_row (λ s, GetExecution id (store_of s))
    (λ c, authorize d acct "" (exe_TenantID c) ResourceReport ActionRead)
    (λ c, permitted d acct "" (exe_TenantID c) ResourceReport ActionRead) s
    (λ c _, decides_authorize acct "" _ _ _ s)) as [H1 H2]. unfold permitted in H2.
  destruct (rbacEnabled d); cbn [negb]; [|by split]. split; [exact H1|]. intros Hok _. exact (H2 Hok).
Qed.
Lemma decides_ShareGate r id s :
  decides (authorizeShareGate d r id) s (may_report d (r_account r) s id).
Proof using.
  apply (decides_row (λ s, GetReport id (reports_of s))). intros rep _. apply decides_Report.
Qed.
Lemma ScheduleGet_quiet id s :
  on the_world (ScheduleApp.Get id) s = ((ScheduleApp.Get id (a_world s)).1, s).
Proof using.
  destruct (on_ask the_world (ScheduleApp.Get id) s eq_refl) as [H1 H2].
  by destruct (on the_world (ScheduleApp.Get id) s); cbn in *; subst.
Qed.
Lemma decides_Schedule r id s :
  decides (authorizeSchedule d r id) s (may_schedule d (r_account r) s id).
Proof using.
  unfold decides, authorizeSchedule, may_schedule, mbind, M_bind. rewrite ScheduleGet_quiet.
  destruct ((ScheduleApp.Get id (a_world s)).1) as [sc|e]; [|by split].
  destruct (decides_Execution (r_account r) (Schedule.sch_ExecutionID sc) ActionDelete s) as [H1 H2].
  split; [done|]. eauto.
Qed.
Lemma decides_RunShard r id s :
  decides (authorizeRunShard d r id) s (may_run_shard d (r_account r) s id).
Proof using.
  unfold decides, authorizeRunShard, may_run_shard. destruct (rbacEnabled d); cbn [negb]; [|by split].
  unfold mbind, M_bind.
  assert ((RunExecutionID id (a_world s)).2 = a_world s) as Hq.
  { unfold RunExecutionID, mbind, M_bind, try_store, ask. by destruct (RunHistory id _). }
  destruct (on_ask the_world (RunExecutionID id) s Hq) as [H1 H2].
  destruct (on the_world (RunExecutionID id) s) as [[e|err] s']; cbn in H1, H2; subst s'; [|by split].
  destruct (decides_Report (r_account r) e s) as [H3 H4].
  split; [done|]. intros Hok _. exists e. split; [done|]. by apply H4.
Qed.
Lemma decides_any_project r services s :
  decides (any_project d r services) s
    (∃ svc, svc ∈ services ∧ may_project d (r_account r) s (svc_ProjectID svc) ResourceProject ActionRead).
Proof using.
  induction services as [|svc rest IH]; [by split|].
  unfold decides. cbn [any_project]. unfold mbind, M_bind, attempt.
  destruct (decides_InProject (r_account r) (svc_ProjectID svc) ResourceProject ActionRead s) as [H1 H2].
  unfold authorizeProject. destruct (authorizeInProject d _ _ _ _ s) as [[[]|e] s']; cbn in H1, H2; subst s'; cbn [is_Ok].
  - split; [done|]. intros _. exists svc. split; [by left|auto].
  - destruct IH as [H3 H4]. split; [done|]. intros Hok. destruct (H4 Hok) as (x&Hx&?). exists x. split; [by right|done].
Qed.
Lemma decides_AnyParticipating r c s :
  decides (authorizeAnyParticipatingProject d r c) s
    ((rbacEnabled d = true ∧ allowed d (r_account r) ResourceCampaign ActionRead (Some (camp_TenantID c)) = true) ∨
     ∃ svc, svc ∈ camp_Services c ∧ may_project d (r_account r) s (svc_ProjectID svc) ResourceProject ActionRead).
Proof using.
  unfold decides, authorizeAnyParticipatingProject, mbind, M_bind.
  destruct (decides_any_project r (camp_Services c) s) as [H1 H2].
  destruct (rbacEnabled d) eqn:Er.
  - unfold attempt.
    destruct (decides_when_rbac (r_account r) ResourceCampaign ActionRead (Some (camp_TenantID c)) s) as [H3 H4].
    unfold authorizeCampaignTenant. destruct (when_rbac d _ _ _ _ s) as [[[]|e] s']; cbn in H3, H4; subst s'; cbn [is_Ok].
    + split; [done|]. intros _. left. split; [done|]. by apply H4.
    + split; [done|]. intros Hok. right. by apply H2.
  - cbn. split; [done|]. intros Hok. right. by apply H2.
Qed.

Lemma looks_gate b msg s : looks (gate b msg) s (λ _, b = true).
Proof using. by destruct b. Qed.
Lemma looks_fetch {A} (f : S → result error A) s : looks (fetch f) s (λ a, f s = Ok a).
Proof using. by apply looks_call. Qed.
Lemma looks_tenant r s :
  looks (tenantAdminGate d r) s
    (λ _, may_tenant d (r_account r) ResourceTenant ActionAdmin (pathInt r "tenant_id")).
Proof using.
  eapply looks_bind; [apply looks_gate|]. intros _ _. apply decides_looks, decides_when_rbac.
Qed.
Lemma looks_cluster r s :
  looks (clusterAdminGate d r) s (λ _, may_tenant d (r_account r) ResourceSystem ActionAdmin None).
Proof using.
  eapply looks_bind; [apply looks_gate|]. intros _ _. apply decides_looks, decides_when_rbac.
Qed.
Lemma looks_job jobID s :
  looks (call (on the_world (Calibration_Get jobID))) s
    (λ job, (Calibration_Get jobID (a_world s)).1 = Ok job).
Proof using.
  assert ((Calibration_Get jobID (a_world s)).2 = a_world s) as Hq.
  { unfold Calibration_Get, mbind, M_bind, try_store, read_store, ask. by destruct (GetCalibrationJob _ _). }
  destruct (on_ask the_world (Calibration_Get jobID) s Hq) as [H1 H2].
  apply looks_call; [done|]. intros job Hj. cbn in H2. by rewrite <- H2.
Qed.
Lemma looks_compare r ids s :
  looks (compare_reports env d r ids) s (λ _, ∀ id, id ∈ ids → may_report d (r_account r) s id).
Proof using.
  induction ids as [|i rest IH]; cbn [compare_reports]; [split; [done|]; set_solver|].
  eapply looks_bind; [apply looks_fetch|]. intros rep Hrep. cbn beta in Hrep.
  eapply looks_bind; [apply decides_looks, decides_Report|]. intros [] Hmay. cbn beta in Hmay.
  eapply looks_bind; [apply looks_gets|]. intros out _.
  eapply looks_bind; [exact IH|]. intros more Hmore. split; [done|].
  intros id [->|Hin]%elem_of_cons; [|by apply Hmore]. exists rep. done.
Qed.

(** A check of the request, and the steps that read it. *)
Lemma looks_unless (b : bool) status msg s :
  400 <= status → looks (S := S) (if b then reject status msg else mret tt) s (λ _, b = false).
Proof using. by destruct b. Qed.
Lemma looks_versionPath r s : looks (S := S) (versionPath r) s (λ iv, pathInt r "scenario_id" = Some iv.1).
Proof using.
  unfold versionPath, path_id. eapply looks_bind; [apply looks_need; lia|]. intros id Hid. cbn beta in Hid.
  eapply looks_bind; [apply looks_need; lia|]. intros v _. by split.
Qed.
Lemma looks_credentials r b s :
  looks (ask (checkIngestCredentials env d r b)) s (λ b', checkIngestCredentials env d r b s = Ok b').
Proof using.
  unfold looks, ask, checkIngestCredentials. repeat case_match; simplify_eq; split; done.
Qed.
Lemma looks_formFloat f k msg s : looks (S := S) (formFloat f k msg) s (λ _, True).
Proof using. unfold formFloat. case_match; [done|]. by destruct (ParseFloat _). Qed.
Lemma looks_formInt f k s : looks (S := S) (formInt f k) s (λ _, True).
Proof using. unfold formInt. case_match; [done|]. by destruct (Atoi _). Qed.
Lemma looks_campaign_form f s : looks (S := S) (campaign_form env f) s (λ _, True).
Proof using.
  unfold campaign_form. destruct (e_ParseTime env (Get_ f "window_start")); [|done].
  destruct (e_ParseTime env (Get_ f "window_end")); [|done]. by destruct (parseCampaignServices f).
Qed.
Lemma decides_if (b : bool) m1 m2 s φ1 φ2 :
  decides m1 s φ1 → decides m2 s φ2 → decides (if b then m1 else m2) s (if b then φ1 else φ2).
Proof using. by destruct b. Qed.
Lemma looks_rbac m s φ :
  decides m s φ → looks (if rbacEnabled d then call m else mret tt) s (λ _, rbacEnabled d = true → φ).
Proof using.
  intros Hm. destruct (rbacEnabled d); [|done].
  eapply looks_weaken; [by apply decides_looks|]. auto.
Qed.

(** The known lookups of a request, put into the demand. *)
Ltac lookups :=
  cbn [granted]; unfold with_id, with_form, with_opt, form, path_id in *;
  repeat match goal with Hs : ?o = Some _ |- context [from_option _ False ?o] => rewrite Hs; cbn [from_option] end;
  cbn [from_option fst snd].
Ltac demand :=
  apply guarded_granted; lookups;
  lazymatch goal with |- context [from_option _ False _] => fail | |- _ => idtac end;
  first [ done | eassumption | eexists; eassumption | eexists; split; eassumption | split; eassumption ].

(** One step of a handler that only looks. *)
Ltac decision :=
  first
    [ apply decides_InProject | apply decides_Execution | apply decides_Run | apply decides_Scenario
    | apply decides_Report | apply decides_ShareGate | apply decides_Schedule | apply decides_RunShard
    | apply decides_AnyParticipating | apply decides_authorize | apply decides_when_rbac
    | apply decides_if; decision ].
Ltac look :=
  lazymatch goal with
  | |- looks (need _ _ _) _ _ => apply looks_need; lia
  | |- looks (gate _ _) _ _ => apply looks_gate
  | |- looks (fetch _) _ _ => apply looks_fetch
  | |- looks (gets _) _ _ => apply looks_gets
  | |- looks (mret _) _ _ => apply looks_ret
  | |- looks (tenantAdminGate _ _) _ _ => apply looks_tenant
  | |- looks (clusterAdminGate _ _) _ _ => apply looks_cluster
  | |- looks (versionPath _) _ _ => apply looks_versionPath
  | |- looks (compare_reports _ _ _ _) _ _ => apply looks_compare
  | |- looks (formFloat _ _ _) _ _ => apply looks_formFloat
  | |- looks (formInt _ _) _ _ => apply looks_formInt
  | |- looks (campaign_form _ _) _ _ => apply looks_campaign_form
  | |- looks (ask (checkIngestCredentials _ _ _ _)) _ _ => apply looks_credentials
  | |- looks (if rbacEnabled _ then call _ else _) _ _ => apply looks_rbac; decision
  | |- looks (if _ then reject _ _ else mret tt) _ _ => apply looks_unless; lia
  | |- looks (call (on the_world (Calibration_Get _))) _ _ => apply looks_job
  | |- looks (call _) _ _ => apply decides_looks; decision
  end.
(** A step that only looks and whose answer the demand does not need. *)
Ltac quiet :=
  repeat
    match goal with
    | |- looks (mret _) _ _ => exact (conj eq_refl I)
    | |- looks (reject _ _) _ _ => split; done
    | |- looks (need _ _ _) _ _ => eapply looks_weaken; [apply looks_need; lia|done]
    | |- looks (if ?b then _ else _) _ _ => destruct b
    | |- looks (match ?x with _ => _ end) _ _ => destruct x
    | |- looks (mbind _ _) _ _ => apply looks_bind with (Q := λ _, True); [|intros ? _]
    end.
Ltac guard_step :=
  cbv zeta;
  first
    [ demand
    | eapply guarded_bind; [solve [look]|intros ? ?; cbn beta in *]
    | apply guarded_bind with (Q := λ _, True); [solve [quiet]|intros ? _] ].
(** A group of routes: the handlers are given by unfolding. *)
Ltac each_route Hin :=
  repeat (apply elem_of_cons in Hin as [->|Hin]); [..|by apply elem_of_nil in Hin]; cbn [handle].

Lemma handle_projects rt r s :
  rt ∈ [GetProject_; DeleteProject_; ProjectSummary; CreateWebhook_; ListWebhooks; DeleteWebhook_; SetWebhook;
        CreateSLO_; ListSLOs; DeleteSLO_; SLOBudget; SetDigest; GetDigest; DeleteDigest; ListDigests] →
  guarded (granted env d rt r s) (handle env d rt r) s.
Proof using.
  intros Hin. each_route Hin;
    unfold getProject, deleteProject, projectSummary, createWebhook, listWebhooks, deleteWebhook,
      setWebhookEnabled, createSLO, listSLOs, deleteSLO, sloBudget, setDigestConfig, getDigestConfig,
      deleteDigestConfig, listDigests, webhookGate, sloGate, digestGate, path_id, form, authorizeProject.
  all: repeat guard_step.
Qed.
Lemma handle_scenarios rt r s :
  rt ∈ [CreateScenario_; GetScenario_; DeleteScenario_; ListScenarioFiles; UploadScenarioFile; DeleteScenarioFile_;
        SetScenarioRequests_; GetScenarioRequests_; ListScenarioExecutions; ListVersions_; GetVersion; RestoreVersion;
        ListThresholds; ReplaceThresholds_] →
  guarded (granted env d rt r s) (handle env d rt r) s.
Proof using.
  intros Hin. each_route Hin;
    unfold createScenario, getScenario, deleteScenario, listScenarioFiles, uploadScenarioFile, deleteScenarioFile,
      setScenarioRequests, getScenarioRequests, listScenarioExecutions, listScenarioVersions, getScenarioVersion,
      restoreScenarioVersion, listScenarioThresholds, replaceScenarioThresholds, versionsGate, thresholdsGate,
      path_id, form, authorizeCreateScenario.
  all: repeat guard_step.
Qed.
Lemma handle_executions rt r s :
  rt ∈ [CreateExecution_; GetExecution_; DeleteExecution_; ListExecutionFiles; UploadExecutionFile;
        DeleteExecutionFile_; UploadConfig; GetConfig_; ReResolve; Deploy_; Trigger_; Stop_; Purge_; ExecutionStatus_;
        ExecutionEngines; ScenarioPodLog; CreateSchedule_; ListSchedules; DeleteSchedule_; Ingest_] →
  guarded (granted env d rt r s) (handle env d rt r) s.
Proof using.
  intros Hin. each_route Hin;
    unfold createExecution, getExecution, deleteExecution, listExecutionFiles, uploadExecutionFile, deleteExecutionFile,
      uploadExecutionConfig, getExecutionConfig, reResolveExecutionConfig, deployExecution, triggerExecution,
      stopExecution, purgeExecution, lifecycleMutation, executionStatus, executionEngines, scenarioPodLog,
      createSchedule, listSchedules, deleteSchedule, ingest, path_id, form, authorizeCreateExecution,
      authorizeScheduleTenant.
  all: repeat guard_step.
Qed.
Lemma handle_tenants rt r s :
  rt ∈ [AdminExecutions; AbortExecutions; CreateTenant_; ListTenants_; GetTenant_; SetTenantStatus_; SetTenantQuota;
        GetTenantQuota; TenantReservations; AssignTenantRole; ListTenantRoles_; RevokeTenantRole; AssignGlobalRole;
        RevokeGlobalRole; CreateCluster_; ListClusters_; RotateIngestToken_; GetCluster_; UpdateCluster_;
        DeleteCluster_; UsageHistory; UsageSummary_] →
  guarded (granted env d rt r s) (handle env d rt r) s.
Proof using.
  intros Hin. each_route Hin;
    unfold adminExecutions, abortExecutions, createTenant, listTenants, getTenant, setTenantStatus, setTenantQuota,
      getTenantQuota, tenantReservations, assignTenantRole, listTenantRoles, revokeTenantRole, assignGlobalRole,
      revokeGlobalRole, createCluster, listClusters, rotateIngestToken, getCluster, updateCluster, deleteCluster,
      usageHistory, usageSummary, path_id, form, authorizeSystemAdmin, authorizeKillSwitch, authorizeScheduleList, authorizeAdmin.
  all: repeat guard_step.
Qed.
Lemma handle_campaigns rt r s :
  rt ∈ [CreateCampaign_; ListCampaigns; GetCampaign_; UpdateCampaign_; AbortCampaign_; GetCampaignVerdict;
        GetCampaignComparison; CreateCalibration; TriggerCalibration; TriggerScenarioCalibration; GetCalibrationJob_;
        GetCapacityProfile_; FanOutCapacity] →
  guarded (granted env d rt r s) (handle env d rt r) s.
Proof using.
  intros Hin. each_route Hin;
    unfold createCampaign, listCampaigns, getCampaign, updateCampaign, abortCampaign, getCampaignVerdict,
      getCampaignComparison, createCalibration, triggerCalibration, triggerScenarioCalibration, getCalibrationJob,
      getCapacityProfile, fanOutCapacity, campaignsConfigured, calibrationsConfigured, campaign_of, path_id, form,
      authorizeCampaignTenant, authorizeCreateExecution.
  all: repeat guard_step.
Qed.
Lemma handle_reports rt r s :
  rt ∈ [ExecutionReports; ExecutionTrend; RunReport; RunShardLog; RunShardConfig; RunStar; RunNote; CreateRunShare;
        ListRunShares; DeleteRunShare; SharedReport; ErrorSignatures; RunRecommendations; RunSeries; RunExport] →
  guarded (granted env d rt r s) (handle env d rt r) s.
Proof using.
  intros Hin. each_route Hin;
    unfold executionReports, executionTrend, runReport, runShardLog, runShardConfig, runShardObject, runStar, runNote,
      createRunShare, listRunShares, deleteRunShare, sharedReport, sharesConfigured,
      executionErrorSignatureHistory, runRecommendations, runSeries, runExport, seriesConfigured, run_points,
      report_of, path_id.
  all: repeat guard_step.
Qed.
Lemma handle_create_project r s : guarded (granted env d CreateProject r s) (handle env d CreateProject r) s.
Proof using.
  cbn [handle]. unfold createProject, form. do 2 guard_step.
  apply guarded_bind with (Q := λ _, permitted d (r_account r) (Get_ a "owner") a0 ResourceProject ActionCreate).
  - pose proof (decides_authorize (r_account r) (Get_ a "owner") a0 ResourceProject ActionCreate s) as Hd.
    unfold permitted in *. destruct (rbacEnabled d); [by apply decides_looks|]. by destruct (owns d _).
  - intros [] Hp. guard_step.
Qed.
Lemma handle_runs_compare r s : guarded (granted env d RunsCompare r s) (handle env d RunsCompare r) s.
Proof using.
  cbn [handle granted]. unfold runsCompare, runs_asked. destruct (parseCompareRunIDs r) as [ids|m].
  - do 2 guard_step. by apply guarded_granted.
  - apply guarded_granted. set_solver.
Qed.
Lemma handle_download r s : guarded (granted env d DownloadFile_ r s) (handle env d DownloadFile_ r) s.
Proof using.
  cbn [handle]. unfold downloadFile, path_id. do 3 guard_step. apply guarded_granted. lookups.
  destruct (bool_decide_reflect (r_path r "kind" = "scenario")); [by left|].
  destruct (bool_decide_reflect (r_path r "kind" = "execution")); [by right|done].
Qed.
Lemma handle_templates rt r s :
  rt ∈ [ListTemplates_; InstantiateTemplate] → guarded (granted env d rt r s) (handle env d rt r) s.
Proof using.
  intros Hin. each_route Hin; unfold listTemplates, instantiateTemplate, path_id, authorizeCreateScenario.
  - guard_step. apply guarded_granted. cbn [granted]. intros Hr. unfold permitted in *. rewrite Hr in *. auto.
  - do 4 guard_step. destruct a2 as [[name projectID] targetURL]. guard_step.
    apply guarded_granted. lookups. split; [|done]. exists a0. split; [done|].
    unfold may_tenant, permitted in *. intros Hr. rewrite Hr in *. auto.
Qed.

Ltac member := solve [repeat first [apply list_elem_of_here | apply list_elem_of_further]].
(** Every handler of the API is refused, without effect, or has been granted
    what its route demands. *)
Lemma handle_guarded rt r s : guarded (granted env d rt r s) (handle env d rt r) s.
Proof using.
  destruct rt;
    first
      [ apply guarded_granted; exact I
      | apply handle_projects; member | apply handle_scenarios; member
      | apply handle_executions; member | apply handle_tenants; member
      | apply handle_campaigns; member | apply handle_reports; member
      | apply handle_templates; member | apply handle_create_project
      | apply handle_runs_compare | apply handle_download ].
Qed.
End access.

(** * A small installation of the HTTP API

    The concrete state and environment the examples of [HttpAccess] and
    [HttpFlows] run on: one tenant's project with an execution, a finished run
    and a registered cluster. *)

Definition lab_time : time := 1000 * second.
Abbreviation Lab := (Api NoAuth FakeScheduler ClusterTable KubeSecrets).
#[global] Instance lab_url : URLParser := λ s, if bool_decide (s = "") then None else Some ("https", "h").
Definition lab_batch : Batch := mkBatch 1 1 1 0 "" [] "elsewhere" false None.

Definition lab_env_at {P} (now : time) : Env P FakeScheduler ClusterTable KubeSecrets := {|
  e_now := now;
  e_ParseTime _ := None;
  e_Targets _ := None;
  e_Profile _ := None;
  e_Wrapper _ := None;
  e_Batch body := if bool_decide (body = "batch") then Some lab_batch else None;
  e_Instantiate _ := None;
  e_Thresholds _ := None;
  e_Session _ := None;
  e_Star _ := None;
  e_Note _ := None;
  e_Expiry body := if bool_decide (body = "{}") then Some None else Some (Some 1000);
  e_DecodePayload _ := None;
  e_MarshalConf _ := Some "conf";
  e_UnmarshalScen _ := None;
  e_MarshalScen _ := None;
  e_YAMLDiagnostics _ := [];
  e_Image _ := Ok "image";
  e_Trace := Err ErrNotFound;
  e_DefaultEngine := ExecutorJMeter;
  e_MaxEngines := 50;
  e_Modes := mkModeSources None None None 0 ExecutorJMeter;
  e_ParseQuantity _ := None;
  e_ParseCron _ := None;
  e_Fingerprint _ _ := Err ErrNotFound;
  e_ParseKubeconfig := ex_parse;
  e_Probe := ex_probe;
  e_HashToken := ex_hash;
  e_Seal := Ok "sealed";
  e_Mint := Ok "raw";
  e_Mac k v := k +:+ v;
  e_MarshalPayload _ := None;
  e_Random := Ok "0123";
  e_Cancelled _ := false;
  e_ReportFields rep := [("run_id", JInt (rep_RunID rep))];
  e_sleep p c s := (c + Z.max 1 p, s)
|}.
Definition lab_env : Env NoAuth FakeScheduler ClusterTable KubeSecrets := lab_env_at lab_time.

(** Role-based access control, every component wired. *)
Definition lab_deps : Deps :=
  mkDeps (Some (AuthApp.NewService true true)) [] "platform" true true true true true true true true true true true
    true true true true true None 0 0 0 true [].

Definition nobody : Account := mkAccount "mallory" "" "mallory" [] None.
Definition editor : Account := mkAccount "erin" "" "erin" [] (Some {[ 1 := [RoleTenantEditor] ]}).
Definition lab_project : Project.Project := Project.mkProject 1 "shop" "team" "" (Some 1) "" "" 5.
Definition lab_execution : Execution := mkExecution 1 "nightly" 1 "" KindNormal "" "" "eu" [] false (Some 1) "" "" 5.
Definition lab_scenario : Scenario.Scenario := w_scn.
Definition lab_report : Report :=
  mkReport 1 1 7 "jmeter" "" "" 5 6 OutcomePassed (mkLoad 1 fzero 0 [] 0 0) (mkLoad 1 fzero 0 [] 0 0)
    fzero ∅ (mkAttribution 0 0 0) [] [] [] None false "".
Definition lab_store : Store :=
  set_runs (StartRun 6 1 "" empty_runs).2
    (CreateExecution 5 lab_execution (CreateScenario 5 lab_scenario (Store.CreateProject 5 lab_project NewStore).2).2).2.
Definition lab_metrics : H_ :=
  mkMetricsState NewReportProgress (mkReportStore {[ 7 := lab_report ]} None None) ∅ ∅ [] [] [] NewThresholdStore.
Definition lab_state_of {P} (provider : P) : Api P FakeScheduler ClusterTable KubeSecrets :=
  mkApi provider (mkWorld lab_store NewScheduler NewObjectStore lab_metrics) NewVersionStore NewSLOStore
    NewWebhookStore NewDigestScheduleStore NewDigestStore (cw_registry (ex_byoc "eu" (ex_world ∅)).2) ∅
    NewShareStore [].
Definition lab_state (caller : Account) : Lab := lab_state_of (mkNoAuth caller).
(** A request with the given path values, body and bearer token. *)
Definition lab_request (path : string → string) (body token : string) : WebRequest :=
  mkWebRequest (mkHttpRequest token None) path (λ _, []) None "" (Some body) None zero_account.
