(* ===== verification/HttpAccess.v ===== *)
(** * Who the HTTP API serves

    The access-control theorems of the API: a request is served only when its
    route's demand is met, which routes ask for no login, that a tenant's data
    is out of reach for callers without a role in it, and what the two
    credentials outside the login, share links and ingest tokens, open. *)
From S2P Require Import Prelude Errors GoStrings Taurus Scenario Execution Rbac Auth Campaign RunTable Schedule Calibration Report Histogram Store AuthApp Cluster ExecutionApp CalibrationApp CampaignApp ScheduleApp Lifecycle MetricsApp Threshold ScenarioApp Slo Webhook Digest ClusterApp ProjectApp Http HttpAdmin HttpExec HttpScen HttpCampaign HttpRouter HttpFacts.
Import Account.

Section access.
Context {P C R X : Type} `{!Unicode} `{!URLParser} `{!Scheduler C} `{!AuthProvider P}.
Context `{!ClusterRegistry R} `{!CredentialStore X}.
Local Abbreviation S := (Api P C R X).
Context (env : Env P C R X) (d : Deps).
Implicit Types (acct : Account) (s : S) (r : WebRequest).

Lemma answer_guarded G (m : M S Response Response) s :
  guarded G m s → G ∨ (400 <= rs_Status (answer m s).1 ∧ (answer m s).2 = s).
Proof using.
  intros [HG|(resp & [Hm|Hm] & Hst)]; [by left|right..]; unfold answer; by rewrite Hm.
Qed.
Lemma authenticated_quiet `{!Unshared P} r svc s :
  authenticated env r svc s =
  (match (Authenticate svc (e_now env) (r_http r) (a_provider s, store_of s)).1 with
   | Ok acct => Ok acct
   | Err _ => Err (writeError 401 (JStr "unauthenticated"))
   end, s).
Proof using.
  unfold authenticated.
  pose proof (Authenticate_unshared svc (e_now env) (r_http r) (a_provider s) (store_of s)) as Hu.
  destruct (on_ask the_identity (Authenticate svc (e_now env) (r_http r)) s Hu) as [H1 H2].
  change (l_get the_identity s) with (a_provider s, store_of s) in H2.
  destruct (on the_identity _ s) as [res s'] eqn:E. cbn [fst snd] in H1, H2. subst s' res.
  by destruct (Authenticate _ _ _ _).1.
Qed.

(** A request and the handler it reaches. *)
Lemma serve_answer `{!Unshared P} rt r s :
  match caller env d rt r s with
  | Some acct => serve env d rt r s = answer (handle env d rt (with_account acct r)) s
  | None => 400 <= rs_Status (serve env d rt r s).1 ∧ (serve env d rt r s).2 = s
  end.
Proof using.
  unfold serve, caller. change (route_path rt (with_account zero_account r)) with (route_path rt r).
  destruct (publicAPIPath (route_path rt r)); [done|]. destruct (d_Auth d) as [svc|]; [|done].
  destruct (enabled svc && _); [|done]. rewrite authenticated_quiet. cbn [r_http with_account].
  by destruct (Authenticate _ _ _ _).1.
Qed.

(** C3. Whatever a request asks of any of the routes, either its caller is
    known and holds what the route demands in the state the request finds, or
    the answer is an error and nothing has changed: not the stores, not the
    clusters, not the audit log. *)
Theorem served_only_if_granted `{!Unshared P} rt r s :
  (∃ acct, caller env d rt r s = Some acct ∧ granted env d rt (with_account acct r) s) ∨
  (400 <= rs_Status (serve env d rt r s).1 ∧ (serve env d rt r s).2 = s).
Proof using.
  pose proof (serve_answer rt r s) as Hs. destruct (caller env d rt r s) as [acct|]; [|by right].
  rewrite Hs. destruct (answer_guarded _ _ s (handle_guarded env d rt (with_account acct r) s)) as [HG|Hr].
  - left. by exists acct.
  - by right.
Qed.

(** ** Tenants *)
(** The object a request names first in its path, and its tenant. *)
Definition first_value (rt : Route) : option string :=
  head (omap (λ seg, match seg with Val n => Some n | Lit _ => None end) (route rt).1.2).
Definition project_in s (t id : Z) : Prop :=
  ∃ p, GetProject id (store_of s) = Ok p ∧ Project.prj_TenantID p = Some t.
Definition execution_in s (t id : Z) : Prop :=
  ∃ c, GetExecution id (store_of s) = Ok c ∧ exe_TenantID c = Some t.
Definition scenario_in s (t id : Z) : Prop :=
  ∃ c, GetScenario id (store_of s) = Ok c ∧ Scenario.scn_TenantID c = Some t.
Definition run_in s (t id : Z) : Prop :=
  ∃ executionID, execution_in s t executionID ∧
    (∀ rep, GetReport id (reports_of s) = Ok rep → rep_ExecutionID rep = executionID) ∧
    (∀ e, (RunExecutionID id (a_world s)).1 = Ok e → e = executionID).
Definition campaign_in s (t id : Z) : Prop :=
  ∃ c, CampaignApp.Get id (store_of s) = Ok c ∧ camp_TenantID c = t ∧
    ∀ svc, svc ∈ camp_Services c → project_in s t (svc_ProjectID svc).
Definition job_in s (t id : Z) : Prop :=
  ∃ job, (Calibration_Get id (a_world s)).1 = Ok job ∧ execution_in s t (cj_ExecutionID job.1).
Definition belongs (rt : Route) r s (t : Z) : Prop :=
  ∃ name id, first_value rt = Some name ∧
    pathInt r (if bool_decide (name = "kind") then "id" else name) = Some id ∧
    if bool_decide (name = "project_id") then project_in s t id
    else if bool_decide (name = "execution_id") then execution_in s t id
    else if bool_decide (name = "scenario_id") then scenario_in s t id
    else if bool_decide (name = "run_id") then run_in s t id
    else if bool_decide (name = "campaign_id") then campaign_in s t id
    else if bool_decide (name = "job_id") then job_in s t id
    else if bool_decide (name = "tenant_id") then id = t
    else if bool_decide (name = "kind") then
      (r_path r "kind" = "scenario" → scenario_in s t id) ∧ (r_path r "kind" = "execution" → execution_in s t id)
    else False.
(** No role everywhere, none in the tenant. *)
Definition outsider acct (t : Z) : Prop := Global acct = [] ∧ RolesInTenant acct t = [].

Lemma outsider_refused acct t res act :
  rbacEnabled d = true → outsider acct t → allowed d acct res act (Some t) = false.
Proof using.
  unfold rbacEnabled, allowed. intros Hr [Hg Ht]. destruct (d_Auth d) as [svc|]; [|done].
  unfold AuthApp.Authorize, Rbac.Authorize. rewrite Hr, Hg. cbn. by rewrite Ht.
Qed.

(** Two reads of one row. *)
Ltac same H1 H2 := rewrite H1 in H2; injection H2 as <-.
Section outside.
Context (acct : Account) (t : Z) (Hr : rbacEnabled d = true) (Ho : outsider acct t).
Lemma may_tenant_out res act : ¬ may_tenant d acct res act (Some t).
Proof using Hr Ho. intros Hm. specialize (Hm Hr). by rewrite outsider_refused in Hm. Qed.
Lemma may_project_out s id res act : project_in s t id → ¬ may_project d acct s id res act.
Proof using Hr Ho.
  intros (p & Hp & Ht) (p' & Hp' & Hm). same Hp Hp'. unfold permitted in Hm. rewrite Hr, Ht in Hm.
  by rewrite outsider_refused in Hm.
Qed.
Lemma may_execution_out s id res act : execution_in s t id → ¬ may_execution d acct s id res act.
Proof using Hr Ho.
  intros (p & Hp & Ht) (p' & Hp' & Hm). same Hp Hp'. rewrite Hr, Ht in Hm. by rewrite outsider_refused in Hm.
Qed.
Lemma may_scenario_out s id act : scenario_in s t id → ¬ may_scenario d acct s id act.
Proof using Hr Ho.
  intros (p & Hp & Ht) (p' & Hp' & Hm). same Hp Hp'. rewrite Hr, Ht in Hm. by rewrite outsider_refused in Hm.
Qed.
Lemma may_template_out s id : scenario_in s t id → ¬ may_template d acct s id.
Proof using Hr Ho.
  intros (p & Hp & Ht) (p' & Hp' & Hm). same Hp Hp'. rewrite Ht in Hm. by apply may_tenant_out in Hm.
Qed.
Lemma may_read_reports_out s id : execution_in s t id → ¬ may_read_reports d acct s id.
Proof using Hr Ho.
  intros (p & Hp & Ht) Hm. destruct (Hm Hr) as (p' & Hp' & Ha). same Hp Hp'. rewrite Ht in Ha.
  by rewrite outsider_refused in Ha.
Qed.
Lemma may_report_out s id : run_in s t id → ¬ may_report d acct s id.
Proof using Hr Ho.
  intros (e & He & Hrep & _) (rep & Hg & Hm). rewrite (Hrep _ Hg) in Hm. by apply may_read_reports_out in Hm.
Qed.
Lemma may_run_shard_out s id : run_in s t id → ¬ may_run_shard d acct s id.
Proof using Hr Ho.
  intros (e & He & _ & Hrun) Hm. destruct (Hm Hr) as (e' & He' & Ha). apply Hrun in He' as ->.
  by apply may_read_reports_out in Ha.
Qed.
Lemma may_campaign_out s id act : campaign_in s t id → ¬ may_campaign d acct s id act.
Proof using Hr Ho.
  intros (c & Hc & Ht & _) (c' & Hc' & Hm). same Hc Hc'. rewrite Ht in Hm. by apply may_tenant_out in Hm.
Qed.
Lemma may_see_campaign_out s id : campaign_in s t id → ¬ may_see_campaign d acct s id.
Proof using Hr Ho.
  intros (c & Hc & Ht & Hsvc) (c' & Hc' & [[_ Hm]|(svc & Hin & Hm)]); same Hc Hc'.
  - rewrite Ht in Hm. by rewrite outsider_refused in Hm.
  - by eapply may_project_out in Hm; [|apply Hsvc].
Qed.
Lemma may_job_out s id : job_in s t id → ¬ may_job d acct s id.
Proof using Hr Ho.
  intros (j & Hj & Hin) (j' & Hj' & Hm). same Hj Hj'. by apply may_execution_out in Hm.
Qed.
End outside.
(** Comparisons of literal names. *)
Ltac compare_names H :=
  repeat match type of H with
  | context [bool_decide (?a = ?b)] =>
      let v := eval vm_compute in (bool_decide (a = b)) in
      change (bool_decide (a = b)) with v in H; cbv iota in H
  end.
Ltac outside :=
  repeat match goal with Hg : _ ∧ _ |- _ => destruct Hg end;
  first
    [ eapply may_tenant_out; eassumption | eapply may_project_out; eassumption
    | eapply may_execution_out; eassumption | eapply may_scenario_out; eassumption
    | eapply may_template_out; eassumption | eapply may_read_reports_out; eassumption
    | eapply may_report_out; eassumption | eapply may_run_shard_out; eassumption
    | eapply may_campaign_out; eassumption | eapply may_see_campaign_out; eassumption
    | eapply may_job_out; eassumption ].
Lemma granted_outside rt acct r s t :
  rbacEnabled d = true → outsider acct t → belongs rt r s t → rt ≠ DeleteSchedule_ →
  ¬ granted env d rt (with_account acct r) s.
Proof using.
  intros Hr Ho (name & id & Hf & Hid & Hin) Hne Hg.
  change (pathInt r) with (pathInt (with_account acct r)) in Hid.
  destruct rt; cbn in Hf; try discriminate Hf; try done; injection Hf as <-;
    compare_names Hid; compare_names Hin; try done;
    cbn [granted] in Hg; unfold with_id, with_opt in Hg; change (r_account (with_account acct r)) with acct in Hg;
    try rewrite Hid in Hg; cbn [from_option] in Hg; try subst t.
  all: try solve [outside].
  destruct Hin as [Hscn Hexe]. destruct Hg as [[Hk Hg]|[Hk Hg]]; [specialize (Hscn Hk)|specialize (Hexe Hk)]; outside.
Qed.

(** C4. Tenant isolation.  Under role-based access control, a caller who holds
    no role everywhere and none in a tenant gets nothing of it: a request whose
    path names a project, execution, scenario, run, campaign, calibration job
    or file of the tenant, or the tenant itself, is answered by an error and
    changes nothing.  (Deleting a schedule is decided by the schedule's own
    execution, not by the one in the path.) *)
Theorem tenant_isolation `{!Unshared P} rt r s t acct :
  rbacEnabled d = true → caller env d rt r s = Some acct → outsider acct t →
  belongs rt r s t → rt ≠ DeleteSchedule_ →
  400 <= rs_Status (serve env d rt r s).1 ∧ (serve env d rt r s).2 = s.
Proof using.
  intros Hr Hc Ho Hb Hne. pose proof (serve_answer rt r s) as Hs. rewrite Hc in Hs. rewrite Hs.
  destruct (answer_guarded _ _ s (handle_guarded env d rt (with_account acct r) s)) as [HG|]; [|done].
  by apply (granted_outside rt acct r s t) in HG.
Qed.

(** The path of a route, whatever the values in it. *)
Lemma public_path rt r :
  publicAPIPath (route_path rt r) = true ↔
  rt ∈ [ListSessionProfiles; CreateSession; DeleteSession; SharedReport; Ingest_].
Proof using.
  split.
  - destruct rt; intros Hp; vm_compute in Hp; try discriminate Hp;
      solve [repeat first [apply list_elem_of_here | apply list_elem_of_further]].
  - intros Hin. repeat (apply elem_of_cons in Hin as [->|Hin]; [reflexivity|]). by apply elem_of_nil in Hin.
Qed.
Lemma api_path rt r : HasPrefix (route_path rt r) "/api/" = true.
Proof using. by destruct rt. Qed.

(** Only the session routes, the report of a share link and the ingest of
    measurements ask for no login: on every other route, whatever the values in
    its path, a caller the identity provider does not know is answered by 401
    and changes nothing while access control is on. *)
Theorem login_required `{!Unshared P} rt r s svc e :
  d_Auth d = Some svc → enabled svc = true →
  (Authenticate svc (e_now env) (r_http r) (a_provider s, store_of s)).1 = Err e →
  serve env d rt r s = (writeError 401 (JStr "unauthenticated"), s) ∨
  rt ∈ [ListSessionProfiles; CreateSession; DeleteSession; SharedReport; Ingest_].
Proof using.
  intros Hd He Ha. unfold serve. change (route_path rt (with_account zero_account r)) with (route_path rt r).
  destruct (publicAPIPath (route_path rt r)) eqn:Hp; [right; by apply (public_path rt r)|left].
  rewrite Hd, He, api_path. cbn [andb]. rewrite authenticated_quiet. cbn [r_http with_account]. by rewrite Ha.
Qed.
End access.

(** ** Examples *)
Definition path_of (name value : string) : string → string := λ n, if bool_decide (n = name) then value else "".
Definition deploy_1 : WebRequest := lab_request (path_of "execution_id" "1") "" "".

Lemma served_only_if_granted_witness :
  (serve lab_env lab_deps Stop_ deploy_1 (lab_state nobody)).2 = lab_state nobody ∧
  ∃ acct, caller lab_env lab_deps GetExecution_ deploy_1 (lab_state editor) = Some acct ∧
    granted lab_env lab_deps GetExecution_ (with_account acct deploy_1) (lab_state editor).
Proof.
  split.
  - destruct (served_only_if_granted lab_env lab_deps Stop_ deploy_1 (lab_state nobody)) as [(a & Ha & Hg)|[_ Hs]];
      [|exact Hs].
    vm_compute in Ha. injection Ha as <-. destruct Hg as (c & Hc & Hall). vm_compute in Hc. injection Hc as <-.
    vm_compute in Hall. discriminate Hall.
  - destruct (served_only_if_granted lab_env lab_deps GetExecution_ deploy_1 (lab_state editor)) as [H|[Hst _]]; [exact H|].
    vm_compute in Hst. exfalso. by apply Hst.
Defined.

Lemma tenant_isolation_witness :
  400 <= rs_Status (serve lab_env lab_deps Deploy_ deploy_1 (lab_state nobody)).1 ∧
  (serve lab_env lab_deps Deploy_ deploy_1 (lab_state nobody)).2 = lab_state nobody.
Proof.
  apply (tenant_isolation lab_env lab_deps Deploy_ deploy_1 (lab_state nobody) 1 nobody).
  - reflexivity.
  - vm_compute. reflexivity.
  - split; reflexivity.
  - exists "execution_id", 1. split; [reflexivity|]. split; [vm_compute; reflexivity|].
    exists lab_execution. split; vm_compute; reflexivity.
  - discriminate.
Defined.

#[local] Existing Instance AuthApp.demo_provider.
#[local] Existing Instance AuthApp.demo_unshared.
Lemma login_required_witness :
  serve (lab_env_at 5) lab_deps Purge_ deploy_1 (lab_state_of demo_oidc) =
  (writeError 401 (JStr "unauthenticated"), lab_state_of demo_oidc).
Proof.
  destruct (login_required (lab_env_at 5) lab_deps Purge_ deploy_1 (lab_state_of demo_oidc)
    (AuthApp.NewService true true) ErrUnauthenticated) as [H|H].
  - reflexivity.
  - reflexivity.
  - vm_compute. reflexivity.
  - exact H.
  - exfalso. repeat (apply elem_of_cons in H as [H|H]; [discriminate H|]). by apply elem_of_nil in H.
Defined.
