(* ===== verification/HttpFlows.v ===== *)
(** * What the HTTP API does for a caller it serves

    The trigger's wait, the life of a share link, the ingest of measurements,
    and the files of the local object store. *)
From S2P Require Import Prelude Errors GoStrings Taurus Scenario Execution Rbac Auth Run RunTable Report Histogram Store AuthApp Cluster ExecutionApp Lifecycle MetricsApp Threshold ScenarioApp Slo Webhook Digest ClusterApp ProjectApp Http HttpAdmin HttpExec HttpScen HttpCampaign HttpRouter HttpFacts.
Import Account.

Section flows.
Context {P C R X : Type} `{!Unicode} `{!URLParser} `{!Scheduler C} `{!AuthProvider P}.
Context `{!ClusterRegistry R} `{!CredentialStore X}.
Local Abbreviation S := (Api P C R X).
Implicit Types (s : S) (r : WebRequest).
Context (env : Env P C R X) (d : Deps).
#[local] Hint Extern 0 (ThresholdEvaluator _) => exact (HttpExec.ev env) : typeclass_instances.

(** ** Triggering a run *)
(** An answer of the wait: that of an attempt, which is the last one because it
    succeeded, cannot be helped by waiting, or came after its deadline or after
    the client had gone. *)
Definition final_attempt (id : Z) (out : Response * S) : Prop :=
  ∃ clock s1,
    match on the_world (Trigger clock (e_ParseQuantity env) id) s1 with
    | (Ok _, s2) => out = (message_ 200 "run triggered", s2)
    | (Err e, s2) => out = (respondError e, s2) ∧
        (e = ErrNotDeployed → e_now env + trigger_absent d < clock ∨ e_Cancelled env clock = true) ∧
        (e = ErrEnginesNotReady → e_now env + trigger_timeout d < clock ∨ e_Cancelled env clock = true)
    end.
Lemma trigger_absent_le : trigger_absent d <= trigger_timeout d.
Proof using. unfold trigger_absent. destruct (Z.ltb_spec (trigger_timeout d)
  (positive_or (d_TriggerAbsentTimeout d) defaultTriggerAbsentTimeout)); lia. Qed.
Lemma trigger_timeout_pos : 0 < trigger_timeout d.
Proof using. unfold trigger_timeout, positive_or. destruct (Z.leb_spec (d_TriggerReadyTimeout d) 0); [done|lia]. Qed.

Lemma trigger_step_spec id clock poll s :
  (∀ p c s, c < (e_sleep env p c s).1) →
  match trigger_step env d id (clock, poll, s) with
  | inl (clock', _, _) => clock <= e_now env + trigger_timeout d ∧ clock < clock'
  | inr out => final_attempt id out
  end.
Proof using.
  intros Hclock. unfold trigger_step. pose proof trigger_absent_le as Habs.
  destruct (on the_world _ s) as [[[]|e] s2] eqn:E; [by exists clock, s; rewrite E|].
  destruct (bool_decide_reflect (e = ErrNotDeployed)) as [->|H1]; cbn [negb andb].
  - destruct (After clock _ || _) eqn:Ha.
    + exists clock, s. rewrite E. split; [done|]. split; [|done]. intros _.
      apply orb_true_iff in Ha as [Ha|Ha]; [left|by right]. by apply bool_decide_eq_true in Ha.
    + apply orb_false_iff in Ha as [Ha _]. apply bool_decide_eq_false in Ha. unfold time_Add in *.
      pose proof (Hclock (if time_Sub (e_now env + trigger_absent d) clock <? poll
        then time_Sub (e_now env + trigger_absent d) clock else poll) clock s2) as Hc.
      destruct (e_sleep env _ clock s2) as [c' s']. cbn in Hc. lia.
  - destruct (bool_decide_reflect (e = ErrEnginesNotReady)) as [->|H2]; cbn [negb].
    + destruct (After clock _ || _) eqn:Ha.
      * exists clock, s. rewrite E. split; [done|]. split; [done|]. intros _.
        apply orb_true_iff in Ha as [Ha|Ha]; [left|by right]. by apply bool_decide_eq_true in Ha.
      * apply orb_false_iff in Ha as [Ha _]. apply bool_decide_eq_false in Ha. unfold time_Add in *.
        pose proof (Hclock (if time_Sub (e_now env + trigger_timeout d) clock <? poll
          then time_Sub (e_now env + trigger_timeout d) clock else poll) clock s2) as Hc.
        destruct (e_sleep env _ clock s2) as [c' s']. cbn in Hc. lia.
    + exists clock, s. rewrite E. done.
Qed.


(** ** Share links *)
(** What other callers do to the links meanwhile: new ones under other tokens,
    and the removal of others. *)
Inductive share_step (token : string) : relation ShareStore :=
| share_created now run t by_ expires st :
    t ≠ token → share_step token st (CreateShare now run t by_ expires st).2
| share_deleted run t st : t ≠ token → share_step token st (DeleteShare run t st).2.
Lemma share_steps_keep token st st' :
  rtc (share_step token) st st' →
  shares st' !! token = shares st !! token ∧ sh_GetErr st' = sh_GetErr st.
Proof using.
  induction 1 as [|st1 st2 st3 Hstep _ [IH1 IH2]]; [done|]. rewrite IH1, IH2.
  destruct Hstep as [now run t by_ expires st Hne|run t st Hne].
  - unfold CreateShare. destruct (sh_CreateErr st); [done|]. cbn. by rewrite lookup_insert_ne.
  - unfold DeleteShare. destruct (sh_DeleteErr st); [done|]. destruct (shares st !! t); [|done].
    case_bool_decide; [|done]. cbn. by rewrite lookup_delete_ne.
Qed.

(** What a link answers, from the links and the reports of the moment. *)
Definition link_answer (now : time) (link : option ShareToken) s : Response :=
  match link with
  | None => respondError ErrNotFound
  | Some sh =>
      if ExpiredAt sh now then writeError 404 (JStr "share link expired")
      else match GetReport (sh_RunID sh) (reports_of s) with
           | Ok rep => writeJSON 200 (withCriteriaVerdict env d rep s)
           | Err e => respondError e
           end
  end.
Lemma sharedReport_answer r s :
  d_Shares d = true → sh_GetErr (a_shares s) = None →
  answer (handle env d SharedReport r) s =
  (link_answer (e_now env) (shares (a_shares s) !! r_path r "token") s, s).
Proof using.
  intros Hd Hg. unfold answer. cbn [handle]. unfold sharedReport, sharesConfigured, gate. rewrite Hd.
  unfold mbind, M_bind, fetch, call, ask, report_of. cbn. unfold GetShareByToken. rewrite Hg.
  destruct (shares (a_shares s) !! r_path r "token") as [sh|]; [|done]. cbn.
  destruct (ExpiredAt sh (e_now env)); [done|]. unfold fetch, call, ask. cbn.
  destruct (GetReport _ _); [|done]. done.
Qed.

Lemma createRunShare_ok r s resp s1 :
  handle env d CreateRunShare r s = (Ok resp, s1) →
  ∃ runID token hours, d_Shares d = true ∧ pathInt r "run_id" = Some runID ∧ e_Random env = Ok token ∧
    (∀ h, hours = Some h → 0 < h) ∧ may_report d (r_account r) s runID ∧
    call (on the_shares (CreateShare (e_now env) runID token (Name (r_account r)) (share_expiry env hours))) s
    = (Ok tt, s1).
Proof using.
  cbn [handle]. unfold createRunShare, sharesConfigured, path_id.
  intros ([] & s2 & H1 & Hk)%bind_Ok. unfold gate in H1. destruct (d_Shares d) eqn:Hd; [|done].
  injection H1 as <-. apply bind_Ok in Hk as (runID & s2 & H1 & Hk).
  destruct (pathInt r "run_id") as [id|] eqn:Hid; [|done]. injection H1 as <- <-.
  apply bind_Ok in Hk as (hours & s2 & H1 & Hk).
  assert (s2 = s) as -> by (destruct (bool_decide _); [by injection H1|]; destruct (r_body r ≫= _); by injection H1).
  clear H1. apply bind_Ok in Hk as ([] & s2 & H1 & Hk).
  destruct (from_option (λ h, h <=? 0) false hours) eqn:Hh; [done|]. injection H1 as <-.
  apply bind_Ok in Hk as ([] & s2 & H1 & Hk). unfold call in H1.
  destruct (decides_ShareGate d r id s) as [Hq Hm].
  destruct (authorizeShareGate d r id s) as [[[]|e] s3]; [|done]. injection H1 as <-. cbn in Hq, Hm. subst s3.
  apply bind_Ok in Hk as (token & s2 & H1 & Hk).
  destruct (e_Random env) as [t|] eqn:Ht; [|done]. injection H1 as <- <-.
  apply bind_Ok in Hk as ([] & s2 & H1 & Hk). injection Hk as _ <-.
  exists id, t, hours. repeat split; auto. intros h ->. cbn in Hh. apply Z.leb_gt in Hh. lia.
Qed.
End flows.

Section links.
Context {P C R X : Type} `{!Unicode} `{!URLParser} `{!Scheduler C} `{!AuthProvider P}.
Context `{!ClusterRegistry R} `{!CredentialStore X}.
Local Abbreviation S := (Api P C R X).
Implicit Types (s : S) (r : WebRequest) (env : Env P C R X) (d : Deps).

End links.

(** ** Ingest *)
Section ingest.
Context {P C R X : Type} `{!Unicode} `{!URLParser} `{!Scheduler C} `{!AuthProvider P}.
Context `{!ClusterRegistry R} `{!CredentialStore X}.
Local Abbreviation S := (Api P C R X).
Implicit Types (s : S) (r : WebRequest).
Context (env : Env P C R X) (d : Deps).
#[local] Hint Extern 0 (ThresholdEvaluator _) => exact (HttpExec.ev env) : typeclass_instances.

(** The cluster a credential speaks for in a batch: the platform's own token
    for the home cluster, a registered cluster's token for that cluster, and
    only where the execution runs there. *)
Definition speaks_for r s (b : Batch) (cluster : string) : Prop :=
  ∃ presented, CutPrefix (Authorization (r_http r)) "Bearer " = Some presented ∧
    ((d_IngestToken d ≠ "" ∧ presented = d_IngestToken d ∧ cluster = "") ∨
     ∃ c exe, ClusterByIngestTokenHash (e_HashToken env presented) (a_registry s) = Ok c ∧
       GetExecution (b_ExecutionID b) (store_of s) = Ok exe ∧ cluster = cl_Name c ∧
       (exe_Cluster exe = cluster ∨ cluster ∈ exe_FanOutTargets exe)).

Lemma checkIngestCredentials_ok r b s b' :
  checkIngestCredentials env d r b s = Ok b' →
  ∃ cluster, speaks_for r s b cluster ∧ b' = with_cluster cluster b.
Proof using.
  unfold checkIngestCredentials, speaks_for.
  destruct (CutPrefix _ _) as [presented|]; [|done].
  destruct (_ && bool_decide (presented = d_IngestToken d)) eqn:Hp.
  { intros [= <-]. apply andb_true_iff in Hp as [H1 H2%bool_decide_eq_true].
    apply negb_true_iff, bool_decide_eq_false in H1. exists "". eauto 10. }
  destruct (_ || _); [done|]. destruct (ClusterByIngestTokenHash _ _) as [c|] eqn:Hc; [|done].
  destruct (GetExecution _ _) as [exe|] eqn:He; [|done].
  destruct (negb (bool_decide (exe_Cluster exe = cl_Name c)) && _) eqn:Hr; [done|]. intros [= <-]. exists (cl_Name c). split; [|done].
  exists presented. split; [done|]. right. exists c, exe. do 3 (split; [done|]).
  apply andb_false_iff in Hr as [Hr|Hr]; apply negb_false_iff, bool_decide_eq_true in Hr; auto.
Qed.

(** C13. Measurements are accepted only from the engines they can come from: a
    batch that is taken names an execution, its sender holds the platform's
    token or the token of a cluster that execution is routed to, and what is
    recorded is the batch under the credential's own cluster, whatever cluster
    the sender wrote into it. *)
Theorem ingest_is_scoped r s resp s' :
  handle env d Ingest_ r s = (Ok resp, s') →
  ∃ b cluster, (r_body r ≫= e_Batch env) = Some b ∧ 0 < b_ExecutionID b ∧ speaks_for r s b cluster ∧
    on the_metrics (Ingest (e_now env) (with_cluster cluster b)) s = (Ok tt, s') ∧ rs_Status resp = 202.
Proof using.
  cbn [handle]. unfold ingest. intros (b & s1 & H1 & Hk)%bind_Ok.
  destruct (r_body r ≫= e_Batch env) as [b0|] eqn:Hb; [|done]. injection H1 as <- <-.
  apply bind_Ok in Hk as ([] & s1 & H1 & Hk). destruct (b_ExecutionID b0 <=? 0) eqn:Hpos; [done|].
  injection H1 as <-. apply bind_Ok in Hk as (b' & s1 & H1 & Hk). unfold ask in H1.
  destruct (checkIngestCredentials env d r b0 s) as [b1|] eqn:Hchk; [|done]. injection H1 as <- <-.
  apply checkIngestCredentials_ok in Hchk as (cluster & Hspeaks & ->).
  apply bind_Ok in Hk as ([] & s1 & H1 & Hk). injection Hk as <- <-. unfold call in H1.
  destruct (on the_metrics _ s) as [[[]|e] s2] eqn:Ho; [|done]. injection H1 as <-.
  exists b0, cluster. apply Z.leb_gt in Hpos. done.
Qed.
End ingest.


Definition share_request : WebRequest :=
  with_account editor (lab_request (λ n, if bool_decide (n = "run_id") then "7" else "0123") "{1000}" "").

Lemma ingest_is_scoped_witness :
  let r := lab_request (λ _, "") "batch" "Bearer cmF3" in
  ∃ resp s', handle lab_env lab_deps Ingest_ r (lab_state nobody) = (Ok resp, s') ∧
    ∃ b cluster, speaks_for lab_env lab_deps r (lab_state nobody) b cluster ∧ b_Cluster b = "elsewhere".
Proof.
  cbv zeta.
  destruct (handle lab_env lab_deps Ingest_ (lab_request (λ _, "") "batch" "Bearer cmF3") (lab_state nobody))
    as [[resp|e] s'] eqn:E; [|exfalso; vm_compute in E; discriminate E].
  exists resp, s'. split; [reflexivity|].
  destruct (ingest_is_scoped lab_env lab_deps _ _ _ _ E) as (b & cluster & Hb & _ & Hs & _).
  exists b, cluster. split; [exact Hs|]. vm_compute in Hb. injection Hb as <-. reflexivity.
Defined.
