(* ===== verification/Upkeep.v ===== *)
(** * What every operation keeps

    The run tables and the campaigns stay well-formed ([RunTable.runs_ok],
    [CampaignApp.campaigns_ok]) under every operation of the services, whether it
    succeeds or fails: one [Keeps] instance per operation, composed along the
    code.  [System] uses them for the HTTP handlers and the scheduler process. *)
From S2P Require Import Prelude Errors GoStrings GoFloat LoadProfile Taurus Run Scenario Execution Rbac Auth Reservation Quota Campaign RunTable Schedule Calibration Directory Report Store TenantApp AuthApp Threshold Cluster ExecutionApp ScenarioApp CalibrationApp CampaignApp ScheduleApp Lifecycle Compile Deploy LifecycleFacts AdminApp MetricsApp MetricsFacts Slo Webhook Digest ClusterApp ProjectApp Daemon Http HttpAdmin HttpExec HttpScen HttpCampaign HttpRouter.

(** ** What every operation keeps *)
Definition tables_ok (s : Store) : Prop := runs_ok (st_runs s) ∧ campaigns_ok (st_campaigns s).

(** A change after which the tables of the store behind [f] are as well-formed
    as they were before. *)
Definition kept {S} (f : S → Store) (s s' : S) : Prop :=
  (runs_ok (st_runs (f s)) → runs_ok (st_runs (f s'))) ∧
  (campaigns_ok (st_campaigns (f s)) → campaigns_ok (st_campaigns (f s'))).
#[global] Instance kept_po {S} (f : S → Store) : PreOrder (kept f).
Proof. unfold kept. split; [by intros s|]. intros s1 s2 s3 [] []. split; auto. Qed.
Lemma kept_same {S} (f : S → Store) s s' :
  st_runs (f s') = st_runs (f s) → st_campaigns (f s') = st_campaigns (f s) → kept f s s'.
Proof. unfold kept. by intros -> ->. Qed.
(** Composes the instances; what is left changes neither table. *)
Ltac solve_kept :=
  solve_keeps; try (let s := fresh "s" in intros s; apply kept_same; reflexivity).

(** ** The store's own services *)
Section store.
Context `{!Unicode} (now : time).
Local Abbreviation K := (kept (λ s : Store, s)).

Ltac same_tables m :=
  let s := fresh "s" in intros s; apply kept_same; unfold m; repeat case_match; reflexivity.
#[global] Instance K_DeleteProject id : Keeps K (DeleteProject id).
Proof using. same_tables DeleteProject. Qed.
#[global] Instance K_DeleteScenario id : Keeps K (DeleteScenario id).
Proof using. same_tables DeleteScenario. Qed.
#[global] Instance K_AddScenarioFile id n b : Keeps K (AddScenarioFile id n b).
Proof using. same_tables AddScenarioFile. Qed.
#[global] Instance K_DeleteScenarioFile id n b : Keeps K (DeleteScenarioFile id n b).
Proof using. same_tables DeleteScenarioFile. Qed.
#[global] Instance K_SetScenarioKind id k e : Keeps K (SetScenarioKind id k e).
Proof using. same_tables SetScenarioKind. Qed.
#[global] Instance K_UpdateScenario p : Keeps K (UpdateScenario p).
Proof using. same_tables UpdateScenario. Qed.
#[global] Instance K_DeleteExecution id : Keeps K (DeleteExecution id).
Proof using. same_tables DeleteExecution. Qed.
#[global] Instance K_AddExecutionFile id n : Keeps K (AddExecutionFile id n).
Proof using. same_tables AddExecutionFile. Qed.
#[global] Instance K_DeleteExecutionFile id n : Keeps K (DeleteExecutionFile id n).
Proof using. same_tables DeleteExecutionFile. Qed.
#[global] Instance K_StoreLoadProfile id b l : Keeps K (StoreLoadProfile id b l).
Proof using. same_tables StoreLoadProfile. Qed.
#[global] Instance K_StoreExecutionConfig id b l cr : Keeps K (StoreExecutionConfig id b l cr).
Proof using. same_tables StoreExecutionConfig. Qed.
#[global] Instance K_StartLaunch t e o n vu : Keeps K (StartLaunch t e o n vu).
Proof using. same_tables StartLaunch. Qed.
#[global] Instance K_SetPending e id : Keeps K (SetPendingCorrelationID e id).
Proof using. same_tables SetPendingCorrelationID. Qed.

#[local] Instance K_directory {A} (f : Directory → result error A * Directory) : Keeps K (on_directory f).
Proof using. intros s. unfold on_directory. by destruct (f (st_directory s)). Qed.
#[local] Instance K_get_tenant id : Keeps K (get_tenant id).
Proof using. unfold get_tenant. apply _. Qed.
#[global] Instance K_tenant_Create name display : Keeps K (TenantApp.Create now name display).
Proof using. unfold TenantApp.Create. solve_kept. Qed.
#[global] Instance K_SetStatus id st : Keeps K (SetStatus id st).
Proof using. unfold SetStatus. solve_kept. Qed.
#[global] Instance K_SetQuota t c n : Keeps K (SetQuota t c n).
Proof using. unfold SetQuota. solve_kept. Qed.
#[global] Instance K_GetQuota t c : Keeps K (TenantApp.GetQuota t c).
Proof using. unfold TenantApp.GetQuota. solve_kept. Qed.
#[global] Instance K_AssignRole g : Keeps K (AssignRole now g).
Proof using. unfold AssignRole, validateGrant. solve_kept. Qed.
#[global] Instance K_RevokeRole a b c : Keeps K (RevokeRole a b c).
Proof using. unfold RevokeRole. solve_kept. Qed.
#[global] Instance K_ListTenantRoles t : Keeps K (ListTenantRoles t).
Proof using. unfold ListTenantRoles. solve_kept. Qed.
#[global] Instance K_CreateInTenant a b c d : Keeps K (CreateInTenant now a b c d).
Proof using. unfold CreateInTenant. solve_kept. Qed.
#[global] Instance K_Project_Delete id : Keeps K (Project_Delete id).
Proof using. unfold Project_Delete. solve_kept. Qed.

(** *** Campaigns *)
Definition same_runs (s s' : Store) : Prop := st_runs s' = st_runs s.
#[local] Instance same_runs_po : PreOrder same_runs.
Proof using. unfold same_runs. split; [done|]. intros s1 s2 s3 ? ?. congruence. Qed.
#[local] Instance runs_campaigns {A} (f : CampaignTable → result error A * CampaignTable) :
  Keeps same_runs (with_campaigns f).
Proof using. intros s. unfold with_campaigns. by destruct (f (st_campaigns s)). Qed.
Lemma K_campaign_step {A} (t : time) (m : M Store error A) :
  Keeps same_runs m → (∀ s, campaign_step (t, s) (t, (m s).2)) → Keeps K m.
Proof using.
  intros Hm Hstep s. split; [by rewrite (Hm s)|]. exact (campaigns_ok_step _ _ (Hstep s)).
Qed.
#[global] Instance K_campaign_Create c : Keeps K (CampaignApp.Create c).
Proof using. apply (K_campaign_step 0); [unfold CampaignApp.Create; solve_keeps|intros; constructor]. Qed.
#[global] Instance K_campaign_Update id c : Keeps K (CampaignApp.Update now id c).
Proof using. apply (K_campaign_step now); [unfold CampaignApp.Update; solve_keeps|intros; constructor]. Qed.
#[global] Instance K_campaign_Abort id : Keeps K (CampaignApp.Abort now id).
Proof using. apply (K_campaign_step now); [unfold CampaignApp.Abort; solve_keeps|intros; constructor]. Qed.
End store.

(** ** The world's services *)
Section world.
Context {C H : Type} `{!Scheduler C} `{!Metrics H} `{!MetricsLaws H}.
Local Abbreviation W := (World C H).
Local Abbreviation K := (kept (λ w : W, w_store w)).
Context `{!Unicode} (now : time).

#[global] Instance K_on_store {A} (f : Store → result error A * Store) :
  Keeps (E := error) (kept (λ s, s)) (f : M Store error A) → Keeps K (on_store f).
Proof using. intros Hf w. unfold on_store. specialize (Hf (w_store w)). by destruct (f (w_store w)). Qed.
Lemma K_calm {A} (m : M W error A) : Keeps calm m → Keeps K m.
Proof using. intros Hm w. destruct (Hm w) as [_ ? _ Hc _ _]. split; [done|]. by rewrite Hc. Qed.
#[global] Instance K_cluster {A} (m : M C error A) : Keeps K (on_cluster m).
Proof using. apply K_calm, _. Qed.
#[global] Instance K_objects {A} (m : M ObjectStore error A) : Keeps K (on_objects m).
Proof using. apply K_calm, _. Qed.
#[global] Instance K_Stop e : Keeps K (Stop now e).
Proof using MetricsLaws0 Scheduler0. apply K_calm, _. Qed.
#[global] Instance K_Purge e : Keeps K (Lifecycle.Purge now e).
Proof using MetricsLaws0 Scheduler0. apply K_calm, _. Qed.
#[global] Instance K_ReapIdle ttl l : Keeps K (ReapIdle now ttl l).
Proof using MetricsLaws0 Scheduler0. apply K_calm, _. Qed.
#[global] Instance K_Deploy Marshal Unmarshal image tc eng e :
  Keeps K (Deploy now Marshal Unmarshal image tc eng e).
Proof using MetricsLaws0 Scheduler0. apply K_calm, _. Qed.
#[global] Instance K_trigger_checks e : Keeps K (trigger_checks now e).
Proof using. apply K_calm, _. Qed.
#[global] Instance K_snapshotConfigs r l : Keeps K (snapshotConfigs r l).
Proof using. apply K_calm, _. Qed.
Lemma K_upd_runs f : (∀ t, runs_ok t → runs_ok (f t)) → Keeps K (upd_runs f).
Proof using. intros Hf w. split; [apply Hf|done]. Qed.
Lemma K_on_runs {A} (f : RunTables → result error A * RunTables) :
  (∀ t, runs_ok t → runs_ok (f t).2) → Keeps K (on_runs f).
Proof using.
  intros Hf w. unfold on_runs, on_store. specialize (Hf (st_runs (w_store w))).
  destruct (f (st_runs (w_store w))). by split.
Qed.
(** Reserving may stop runs of the tenant that overrun; [stop] is how. *)
Class KStopper (stop : Z → M W error unit) := K_stopper : ∀ e, Keeps K (stop e).
#[global] Instance K_lifecycle_stop : KStopper (Stop now).
Proof using MetricsLaws0 Scheduler0. intros e. apply _. Qed.
#[global] Instance K_Reserve stop `{!KStopper stop} tenant cluster count start end_ exec :
  Keeps K (Reserve stop now tenant cluster count start end_ exec).
Proof using.
  intros w. apply (Reserve_preserves (S := W) stop K).
  - intros l w0. by apply kept_same.
  - intros e w0. apply (K_stopper e).
Qed.
#[global] Instance K_Release e : Keeps K (Release (S := W) e).
Proof using. apply K_calm, _. Qed.
#[local] Instance K_StartRun e cid : Keeps K (on_runs (StartRun now e cid)).
Proof using. apply K_on_runs. intros t. apply StartRun_ok. Qed.
#[local] Instance K_StopRun e : Keeps K (upd_runs (StopRun now e)).
Proof using. apply K_upd_runs. intros t. apply StopRun_ok. Qed.
#[local] Instance K_mark e sc : Keeps K (on_runs (MarkScenarioRunning now e sc)).
Proof using. apply K_on_runs. intros t. apply run_step_ok, run_mark. Qed.
#[local] Instance K_mark_all e l n : Keeps K (mark_all now e l n).
Proof using. revert n. induction l as [|ep l IH]; intros n; cbn [mark_all]; solve_kept. Qed.
#[global] Instance K_Trigger pq e : Keeps K (Trigger now pq e).
Proof using MetricsLaws0 Scheduler0.
  unfold Trigger, trigger_reserve, reserve_clusters, trigger_start. solve_kept.
Qed.

(** *** Schedules *)
#[global] Instance K_on_schedules {A} (f : ScheduleTable → result error A * ScheduleTable) :
  Keeps K (on_schedules f).
Proof using. intros w. unfold on_schedules, on_store. by destruct (f (st_schedules (w_store w))). Qed.
#[global] Instance K_drop rid : Keeps K (drop_reservation rid).
Proof using. intros w. rewrite drop_reservation_spec. by apply kept_same. Qed.
#[global] Instance K_ClaimDue t : Keeps K (ClaimDue t).
Proof using. unfold ClaimDue, ScheduleApp.Get. solve_kept. Qed.
#[global] Instance K_schedule_Delete id : Keeps K (ScheduleApp.Delete id).
Proof using. unfold ScheduleApp.Delete, read_schedules. solve_kept. Qed.
#[local] Instance K_reserve_loop stop `{!KStopper stop} sc cluster profile window times :
  Keeps K (reserve_loop stop now sc cluster profile window times).
Proof using. induction times as [|x times IH]; cbn [reserve_loop]; unfold reserve_one; solve_kept. Qed.
#[local] Instance K_reserveOccurrences stop `{!KStopper stop} sc times profile window :
  Keeps K (reserveOccurrences stop now sc times profile window).
Proof using. unfold reserveOccurrences. solve_kept. Qed.
#[global] Instance K_schedule_Create ParseStandard stop `{!KStopper stop} sc :
  Keeps K (ScheduleApp.Create ParseStandard stop now sc).
Proof using. unfold ScheduleApp.Create. solve_kept. Qed.
#[local] Instance K_extend_all ParseStandard stop `{!KStopper stop} scs to n :
  Keeps K (extend_all ParseStandard stop now scs to n).
Proof using.
  revert n. induction scs as [|sc scs IH]; intros n; cbn [extend_all];
    unfold extendOne, read_schedules; solve_kept.
Qed.
#[global] Instance K_ExtendHorizons ParseStandard stop `{!KStopper stop} :
  Keeps K (ExtendHorizons ParseStandard stop now).
Proof using. unfold ExtendHorizons, read_schedules. solve_kept. Qed.

(** *** Executions *)
#[global] Instance K_StoreConfig n md id ec : Keeps K (StoreConfig n md id ec).
Proof using. unfold StoreConfig. solve_kept. Qed.
#[global] Instance K_GetConfig id : Keeps K (GetConfig id).
Proof using. unfold GetConfig. solve_kept. Qed.
#[global] Instance K_ReResolveConfig n md id : Keeps K (ReResolveConfig n md id).
Proof using. unfold ReResolveConfig. solve_kept. Qed.
#[global] Instance K_project_tenant id t : Keeps K (project_tenant id t).
Proof using.
  intros w. unfold project_tenant, mbind, M_bind, attempt, try_store, ask.
  destruct (GetProject id (w_store w)) as [p|e]; [reflexivity|]. destruct e; reflexivity.
Qed.
#[global] Instance K_exe_Create a b c d e : Keeps K (ExecutionApp.Create now a b c d e).
Proof using. unfold ExecutionApp.Create. solve_kept. Qed.
#[global] Instance K_exe_Delete id : Keeps K (ExecutionApp.Delete id).
Proof using. unfold ExecutionApp.Delete. solve_kept. Qed.
#[global] Instance K_UploadFile id n c : Keeps K (UploadFile id n c).
Proof using. unfold UploadFile. solve_kept. Qed.
#[global] Instance K_DeleteFile id n : Keeps K (DeleteFile id n).
Proof using. unfold DeleteFile. solve_kept. Qed.
#[global] Instance K_DownloadFile id n : Keeps K (ExecutionApp.DownloadFile id n).
Proof using. unfold ExecutionApp.DownloadFile. solve_kept. Qed.
#[global] Instance K_ListForProjects ids : Keeps K (ListForProjects ids).
Proof using. unfold ListForProjects. solve_kept. Qed.
#[global] Instance K_Files id : Keeps K (Files id).
Proof using. unfold Files. solve_kept. Qed.

(** *** Calibration jobs *)
#[global] Instance K_on_calibrations {A} (f : CalibrationTable → result error A * CalibrationTable) :
  Keeps K (on_calibrations f).
Proof using. intros w. unfold on_calibrations, on_store. by destruct (f (st_calibrations (w_store w))). Qed.
#[global] Instance K_Calibration_Create n p eng spec src sc :
  Keeps K (Calibration_Create now n p eng spec src sc).
Proof using. unfold Calibration_Create, boundEntry, upd_capacity. solve_kept. Qed.
#[global] Instance K_SpecFor id : Keeps K (SpecFor id).
Proof using. unfold SpecFor. solve_kept. Qed.
#[global] Instance K_Calibration_Trigger id : Keeps K (Calibration_Trigger now id).
Proof using. unfold Calibration_Trigger. solve_kept. Qed.
#[global] Instance K_TriggerForScenario id : Keeps K (TriggerForScenario now id).
Proof using. unfold TriggerForScenario. solve_kept. Qed.
#[global] Instance K_Calibration_Get id : Keeps K (Calibration_Get id).
Proof using. unfold Calibration_Get. solve_kept. Qed.

(** *** Administration and reads *)
#[global] Instance K_InScope id : Keeps K (InScopeExecutions id).
Proof using. unfold InScopeExecutions. solve_kept. Qed.
#[global] Instance K_deployedExecutionIDs v : Keeps K (deployedExecutionIDs v).
Proof using. unfold deployedExecutionIDs. solve_kept. Qed.
#[global] Instance K_matching scope v : Keeps K (matchingExecutions scope v).
Proof using.
  unfold matchingExecutions, campaignExecutionIDs, deployedExecutionsForTenant. solve_kept.
Qed.
#[global] Instance K_purge_targets l : Keeps K (purge_targets now l).
Proof using MetricsLaws0 Scheduler0. induction l; cbn [purge_targets]; solve_kept. Qed.
#[global] Instance K_admin_Abort e c : Keeps K (AdminApp.Abort now e c).
Proof using MetricsLaws0 Scheduler0. unfold AdminApp.Abort. solve_kept. Qed.
#[global] Instance K_RunningExecutions : Keeps K RunningExecutions.
Proof using. unfold RunningExecutions. solve_kept. Qed.
#[global] Instance K_ClusterStatus id c : Keeps K (ClusterStatus id c).
Proof using. unfold ClusterStatus, currentRunOf, runningByScenario. solve_kept. Qed.
#[local] Instance K_detail_loop p id l out : Keeps K (detail_loop p id l out).
Proof using. revert out. induction l; intros out; cbn [detail_loop]; solve_kept. Qed.
#[local] Instance K_statusAcross exe id refs : Keeps K (executionStatusAcross exe id refs).
Proof using. apply K_calm, _. Qed.
#[global] Instance K_EnginesDetail p id : Keeps K (EnginesDetail p id).
Proof using. unfold EnginesDetail. solve_kept. Qed.
#[global] Instance K_StatusOf id : Keeps K (StatusOf id).
Proof using. unfold StatusOf, currentRunOf, runningByScenario. solve_kept. Qed.
#[global] Instance K_PodLogFor a b c : Keeps K (PodLogFor a b c).
Proof using. unfold PodLogFor, clusterFor. solve_kept. Qed.
#[global] Instance K_RunExecutionID r : Keeps K (RunExecutionID r).
Proof using. unfold RunExecutionID. solve_kept. Qed.
End world.

(** ** The scenario service *)
Section scenarios.
Local Abbreviation K := (kept sw_store).
Context `{!Unicode} (now : time) (versioned : bool) (actor : string).

#[global] Instance K_sw_read {A} (f : Store → A) : Keeps K (sw_read f).
Proof using. by intros w. Qed.
#[global] Instance K_sw_try {A} (f : Store → result error A) : Keeps K (sw_try f).
Proof using. by intros w. Qed.
#[global] Instance K_sw_on_store {A} (f : Store → result error A * Store) :
  Keeps (E := error) (kept (λ s, s)) (f : M Store error A) → Keeps K (sw_on_store f).
Proof using. intros Hf w. unfold sw_on_store. specialize (Hf (sw_store w)). by destruct (f (sw_store w)). Qed.
#[global] Instance K_sw_objects {A} (m : M ObjectStore error A) : Keeps K (sw_on_objects m).
Proof using. intros w. unfold sw_on_objects. by destruct (m (sw_objects w)). Qed.
#[global] Instance K_sw_versions {A} (m : M VersionStore error A) : Keeps K (sw_on_versions m).
Proof using. intros w. unfold sw_on_versions. by destruct (m (sw_versions w)). Qed.
#[local] Instance K_capture id : Keeps K (captureVersion now actor versioned id).
Proof using. unfold captureVersion, captureVersionOf. solve_kept. Qed.
#[local] Instance K_resolveTenant id : Keeps K (resolveTenant id).
Proof using.
  intros w. unfold resolveTenant, mbind, M_bind, attempt, sw_try, ask.
  destruct (GetProject id (sw_store w)) as [p|e]; [reflexivity|]. destruct e; reflexivity.
Qed.
#[global] Instance K_ListVersions id : Keeps K (ListVersions versioned id).
Proof using. unfold ListVersions. solve_kept. Qed.
#[global] Instance K_ScenarioVersionOf id v : Keeps K (ScenarioVersionOf versioned id v).
Proof using. unfold ScenarioVersionOf. solve_kept. Qed.
#[global] Instance K_Restore id v : Keeps K (ScenarioApp.Restore now actor versioned id v).
Proof using. unfold ScenarioApp.Restore, captureVersionOf, restoreFiles. solve_kept. Qed.
#[global] Instance K_Scenario_Create n p : Keeps K (Scenario_Create now actor versioned n p).
Proof using. unfold Scenario_Create, create_scenario, captureVersionOf. solve_kept. Qed.
#[global] Instance K_Scenario_Delete id : Keeps K (Scenario_Delete id).
Proof using. unfold Scenario_Delete. solve_kept. Qed.
#[global] Instance K_Scenario_UploadFile id n c : Keeps K (Scenario_UploadFile now actor versioned id n c).
Proof using. unfold Scenario_UploadFile. solve_kept. Qed.
#[global] Instance K_Scenario_DownloadFile id n : Keeps K (Scenario_DownloadFile id n).
Proof using. unfold Scenario_DownloadFile. solve_kept. Qed.
#[global] Instance K_Scenario_DeleteFile id n : Keeps K (Scenario_DeleteFile now actor versioned id n).
Proof using. unfold Scenario_DeleteFile. solve_kept. Qed.
#[global] Instance K_Requests id : Keeps K (Requests id).
Proof using. unfold Requests. solve_kept. Qed.
#[global] Instance K_SetRequests U D id raw : Keeps K (SetRequests U D now actor versioned id raw).
Proof using. unfold SetRequests. solve_kept. Qed.
#[global] Instance K_Instantiate U Mar D t n p url :
  Keeps K (Instantiate U Mar D now actor versioned t n p url).
Proof using. unfold Instantiate, create_scenario, captureVersionOf. solve_kept. Qed.
End scenarios.

(** ** The cluster registry *)
Section clusters.
Context {R X : Type} `{!ClusterRegistry R} `{!CredentialStore X}.
Local Abbreviation K := (kept (λ w : ClusterWorld R X, cw_runs w)).
Context (Parse : string → result error ClusterCredential).
Context (Probe : ClusterCredential → string → result error unit) (Hash : string → string).

#[local] Instance K_registry {A} (m : M R error A) : Keeps K (on_registry m).
Proof using. intros w. unfold on_registry. by destruct (m (cw_registry w)). Qed.
#[local] Instance K_credentials {A} (m : M X error A) : Keeps K (on_credentials m).
Proof using. intros w. unfold on_credentials. by destruct (m (cw_credentials w)). Qed.
#[local] Instance K_ask_registry {A} (f : R → result error A) : Keeps K (ask_registry f).
Proof using. by intros w. Qed.
#[global] Instance K_RegisterOperator c : Keeps K (RegisterOperator Probe c).
Proof using. unfold RegisterOperator. solve_kept. Qed.
#[global] Instance K_RegisterBYOC c kc sealed mint : Keeps K (RegisterBYOC Parse Probe Hash c kc sealed mint).
Proof using. unfold RegisterBYOC, or_rollback. solve_kept. Qed.
#[global] Instance K_RotateIngestToken n mint : Keeps K (RotateIngestToken Hash n mint).
Proof using. unfold RotateIngestToken. solve_kept. Qed.
#[global] Instance K_Cluster_Get n : Keeps K (Cluster_Get n).
Proof using. unfold Cluster_Get. solve_kept. Qed.
#[global] Instance K_Cluster_List : Keeps K Cluster_List.
Proof using. unfold Cluster_List. solve_kept. Qed.
#[global] Instance K_Cluster_Update a b c d e f : Keeps K (Cluster_Update a b c d e f).
Proof using. unfold Cluster_Update. solve_kept. Qed.
#[global] Instance K_Cluster_Delete n : Keeps K (Cluster_Delete n).
Proof using. unfold Cluster_Delete. solve_kept. Qed.
End clusters.

(** ** Thresholds, accounts and measurements *)
Section rest.
Context {P X : Type} `{!AuthProvider P} `{!ThresholdEvaluator X} (now : time).
#[global] Instance K_Authenticate svc r :
  Keeps (kept (λ ps : P * Store, ps.2)) (AuthApp.Authenticate svc now r).
Proof using.
  intros [p s]. apply kept_same; unfold AuthApp.Authenticate; destruct (p_authenticate now r p); cbn;
    try done; by destruct (_ || _).
Qed.
#[global] Instance K_ListFor id : Keeps (kept (λ st : Store * ThresholdStore, st.1)) (ListFor id).
Proof using. by intros st. Qed.
#[global] Instance K_Replace id defs :
  Keeps (kept (λ st : Store * ThresholdStore, st.1)) (Threshold.Replace now id defs).
Proof using.
  unfold Threshold.Replace. solve_kept. intros st. unfold Threshold.on_thresholds.
  by destruct (ReplaceThresholds _ _ _ _).
Qed.

Local Abbreviation K := (kept (λ sh : Store * MetricsState X, sh.1)).
#[local] Instance K_repo_read {A} (f : Store → A) : Keeps K (repo_read f).
Proof using. by intros sh. Qed.
#[local] Instance K_repo_try {A} (f : Store → result error A) : Keeps K (repo_try f).
Proof using. by intros sh. Qed.
#[local] Instance K_own_read {A} (f : MetricsState X → A) : Keeps K (own_read f).
Proof using. by intros sh. Qed.
#[local] Instance K_own_upd f : Keeps K (own_upd f).
Proof using. by intros sh. Qed.
#[local] Instance K_on_progress f : Keeps K (on_progress f).
Proof using. intros sh. unfold on_progress. by destruct (f _). Qed.
#[local] Instance K_on_reports f : Keeps K (on_reports f).
Proof using. intros sh. unfold on_reports. by destruct (f _). Qed.
#[local] Instance K_on_thresholds f : Keeps K (MetricsApp.on_thresholds f).
Proof using. intros sh. unfold MetricsApp.on_thresholds. by destruct (f _). Qed.
Lemma K_repo_runs (f : RunTables → RunTables) :
  (∀ t, runs_ok t → runs_ok (f t)) → Keeps K (repo_upd (λ s, set_runs (f (st_runs s)) s)).
Proof using. intros Hf sh. split; [apply Hf|done]. Qed.
#[local] Instance K_close e r : Keeps K (closeRun now e r).
Proof using.
  unfold closeRun. solve_keeps. apply K_repo_runs. intros t. apply StopRun_ok.
Qed.
#[local] Instance K_finalize e r o : Keeps K (finalize now e r o).
Proof using. unfold finalize. solve_kept. Qed.
#[local] Instance K_orphan o : Keeps K (repo_upd (λ s, set_runs (RecordOrphanCompletion o (st_runs s)) s)).
Proof using. apply K_repo_runs. intros t. by apply runs_ok_same_runs. Qed.
#[local] Instance K_finalizeCompleted e r : Keeps K (finalizeCompleted now e r).
Proof using.
  unfold finalizeCompleted. apply keeps_bind.
  - apply _.
  - apply K_own_read.
  - intros states. apply K_finalize.
Qed.
#[local] Instance K_allShardsFinished e r : Keeps K (allShardsFinished e r).
Proof using. unfold allShardsFinished. solve_keeps. Qed.
#[global] Instance K_Ingest b : Keeps K (Ingest now b).
Proof using. unfold Ingest. solve_keeps. Qed.
End rest.

(** ** The background processes

    They run with the no-op metrics service over the same state. *)
Section daemon.
Context {C H : Type} `{!Scheduler C} `{!Unicode}.
Local Abbreviation W := (World C H).
Local Abbreviation K := (kept (λ w : W, w_store w)).
#[local] Existing Instance unwired.
#[local] Existing Instance unwired_laws.

#[local] Instance K_without_usage {A} (m : M W error A) : Keeps K m → Keeps K (without_usage m).
Proof using. intros Hm w. unfold without_usage. specialize (Hm w). by destruct (m w). Qed.

Section fire.
Context (Marshal : Conf.Config → option string) (Unmarshal : string → option Conf.Scenario).
Context (image : Executor → result error string) (tc : result error Telemetry.TraceContext).
Context (defaultEngine : Executor) (pq : string → option Quantity).
Context (sleep : duration → time → W → time * W) (done : time → bool).
Context (sleeps : ∀ p t w, K w (sleep p t w).2).

Lemma K_ready_step e deadline (x : time * duration * W) :
  match ready_step pq sleep done e deadline x with inl x' => K x.2 x'.2 | inr r => K x.2 r.2 end.
Proof using sleeps.
  destruct x as [[clock poll] w]. unfold ready_step.
  pose proof (K_without_usage _ (K_Trigger clock pq e) w) as Hm.
  destruct (without_usage _ w) as [[[]|err] w1]; [exact Hm|]. destruct (negb _ && negb _); [exact Hm|].
  destruct (After _ _ || _); [exact Hm|].
  match goal with |- context [sleep ?p clock w1] => pose proof (sleeps p clock w1) as Hs;
    destruct (sleep p clock w1) as [clock' w2] end.
  cbn in Hs. by etrans.
Qed.
#[local] Instance K_daemon_wait now e poll timeout :
  Keeps K (Daemon.triggerWhenReady pq sleep done now e poll timeout).
Proof using sleeps.
  intros w. unfold Daemon.triggerWhenReady.
  pose proof (loop_upto_relates K (ready_step pq sleep done e (time_Add now timeout)) snd snd) as Hl.
  specialize (Hl (λ x, K_ready_step e _ x) (Z.to_pos (timeout + 2)) (now, poll, w)).
  by destruct (loop_upto _ _ _) as [[[? ?] ?]|[? ?]].
Qed.
Lemma K_fireOnce claimed deployed :
  Keeps K (fireOnce Marshal Unmarshal image tc defaultEngine pq sleep done claimed deployed).
Proof using sleeps. unfold fireOnce. solve_keeps. Qed.
End fire.

Section ticks.
Context (now : time).
#[local] Instance K_process_stop : KStopper (C := C) (H := H) (without_usage ∘ Stop now).
Proof using Scheduler0. intros e. unfold compose. apply _. Qed.
Lemma K_extendHorizonsOnce ParseStandard : Keeps K (extendHorizonsOnce ParseStandard now).
Proof using Scheduler0. unfold extendHorizonsOnce. solve_keeps. Qed.
Lemma K_drainOnce : Keeps K (drainOnce now).
Proof using. unfold drainOnce, drain_campaign, drain_one, currentRunOf. solve_keeps. Qed.
Lemma K_reapIdleOnce {R} `{!ClusterRegistry R} ttl (r : R) : Keeps K (reapIdleOnce now ttl r).
Proof using. unfold reapIdleOnce. solve_keeps. Qed.
End ticks.

Section calibrate.
Context (Marshal : Conf.Config → option string) (Unmarshal : string → option Conf.Scenario).
Context (image : Executor → result error string) (tc : result error Telemetry.TraceContext).
Context (defaultEngine : Executor) (pq : string → option Quantity).
Context (clock : W → time) (sleep : duration → W → W) (get_report : Z → W → result error Report).
Context (ErrorText : error → string) (fingerprint : Z → W → result error string).
Context (sleeps : ∀ p w, K w (sleep p w)).
Local Abbreviation ops := (process_ops Marshal Unmarshal image tc defaultEngine pq clock).

(** An operation reads the clock as it starts. *)
#[local] Instance K_lc_Deploy e : Keeps K (lc_Deploy ops e).
Proof using.
  intros w. change (lc_Deploy ops e w) with
    (without_usage (Deploy (clock w) Marshal Unmarshal image tc defaultEngine e) w).
  apply K_without_usage, K_Deploy.
Qed.
#[local] Instance K_lc_Trigger e : Keeps K (lc_Trigger ops e).
Proof using.
  intros w. change (lc_Trigger ops e w) with (without_usage (Trigger (clock w) pq e) w).
  apply K_without_usage, K_Trigger.
Qed.
#[local] Instance K_lc_Stop e : Keeps K (lc_Stop ops e).
Proof using.
  intros w. change (lc_Stop ops e w) with (without_usage (Stop (clock w) e) w).
  apply K_without_usage, K_Stop.
Qed.

Lemma K_loop_result {A} (step : W → W + result error A * W) p w :
  (∀ w, match step w with inl w' => K w w' | inr r => K w r.2 end) → K w (loop_result (loop_upto step p w)).2.
Proof using.
  intros Hstep. pose proof (loop_upto_relates K step id snd Hstep p w) as Hl. unfold loop_result.
  by destruct (loop_upto step p w).
Qed.
#[local] Instance K_awaitReport r : Keeps K (awaitReport get_report clock sleep r).
Proof using sleeps.
  intros w. apply K_loop_result. intros w0. unfold await_poll. destruct (get_report r w0) as [|e]; [done|].
  destruct e; try reflexivity. destruct (After _ _); [reflexivity|apply sleeps].
Qed.
#[local] Instance K_wait e : Keeps K (CalibrationApp.triggerWhenReady ops clock sleep e).
Proof using sleeps.
  intros w. apply K_loop_result. intros w0. unfold CalibrationApp.trigger_poll.
  pose proof (K_lc_Trigger e w0) as Hm. destruct (lc_Trigger ops e w0) as [[[]|err] w1]; [exact Hm|].
  destruct (negb _ && negb _); [exact Hm|]. destruct (After _ _); [exact Hm|]. etrans; [exact Hm|apply sleeps].
Qed.
(** Stopping a step's run that has already ended is not an error. *)
Lemma K_stopped (r : result error unit) :
  Keeps (S := W) K (match r with Ok _ => mret tt | Err ErrNotRunning => mret tt | Err e => throw e end).
Proof using. intros w. destruct r as [|e]; [reflexivity|]. destruct e; reflexivity. Qed.
#[local] Instance K_RunStep e qps hold hint :
  Keeps K (RunStep ops get_report clock sleep e qps hold hint).
Proof using sleeps.
  unfold RunStep. destruct (fle qps fzero); [apply _|]. apply keeps_bind; [apply _..|].
  intros [|base [|? ?]]; [apply _| |apply _]. cbv zeta.
  do 4 (apply keeps_bind; [apply _..|intros []]). apply keeps_bind; [apply _..|].
  intros [run|]; [|apply _]. apply keeps_bind; [apply _..|]. intros rpt.
  apply keeps_bind; [apply _..|]. intros stopped. apply keeps_bind; [apply _|apply K_stopped|]. intros _.
  apply keeps_bind; [apply _|by intros w|]. intros _. destruct rpt; apply _.
Qed.
Lemma K_advanceCalibrationOnce now :
  Keeps K (advanceCalibrationOnce Marshal Unmarshal image tc defaultEngine pq clock sleep get_report
             ErrorText fingerprint now).
Proof using sleeps.
  unfold advanceCalibrationOnce, AdvanceOne, measure_step, runClassifiedStep, environmentImpaired, writeProfile,
    or_fail, fail, upd_capacity. solve_kept.
Qed.
End calibrate.
End daemon.

Section reconcile.
Context {C H : Type} `{!Scheduler C} `{!Metrics H} `{!MetricsLaws H}.
Lemma K_reconcileOnce now after :
  Keeps (kept (λ w : World C H, w_store w)) (reconcileOnce now after).
Proof using MetricsLaws0.
  unfold reconcileOnce. apply keeps_bind; [apply _|apply keeps_ignore, K_calm, _|].
  intros _. apply keeps_ignore, K_calm, _.
Qed.
End reconcile.
