(* ===== verification/System.v ===== *)
(** * The whole system

    The API server, the scheduler process and the calibrator act on one store.
    [handle_keeps] shows that every route keeps the run tables and the campaigns
    well-formed; [step] is the system's history: requests of any route from any
    caller, under any wiring and at any instant, and ticks of every background
    loop.  A handler or a tick that waits is suspended while others step. *)
From S2P Require Import Prelude Errors GoStrings GoFloat LoadProfile Taurus Run Scenario Execution Rbac Auth Reservation Quota Campaign RunTable Schedule Calibration Directory Report Store TenantApp AuthApp Threshold Cluster ExecutionApp ScenarioApp CalibrationApp CampaignApp ScheduleApp Lifecycle Compile Deploy LifecycleFacts AdminApp MetricsApp MetricsFacts Slo Webhook Digest ClusterApp ProjectApp Daemon Http HttpAdmin HttpExec HttpScen HttpCampaign HttpRouter Upkeep HttpFacts.

Section handlers.
Context {P C R X : Type} `{!Unicode} `{!URLParser} `{!Scheduler C} `{!AuthProvider P}.
Context `{!ClusterRegistry R} `{!CredentialStore X}.
Local Abbreviation S := (Api P C R X).
Local Abbreviation K := (kept (store_of (P := P) (C := C) (R := R) (X := X))).
Context (env : Env P C R X) (d : Deps).
Implicit Types (s : S) (r : WebRequest).

(** ** Lifting *)
Lemma keeps_call {A} (m : M S error A) : Keeps K m → Keeps K (call m).
Proof using. intros Hm s. unfold call. specialize (Hm s). destruct (m s) as [[a|e] s']; exact Hm. Qed.
Lemma keeps_on {T A} (l : lens S T) (g : T → Store) (m : M T error A) :
  (∀ s, g (l_get l s) = store_of s) → (∀ t s, store_of (l_set l t s) = g t) →
  Keeps (kept g) m → Keeps K (on l m).
Proof using.
  intros Hget Hset Hm s. unfold on. specialize (Hm (l_get l s)). destruct (m (l_get l s)) as [a t].
  unfold kept in *. cbn [snd] in *. by rewrite Hset, <- Hget.
Qed.
Lemma keeps_world {A} (m : M (World C H_) error A) : Keeps (kept (λ w, w_store w)) m → Keeps K (on the_world m).
Proof using. by apply keeps_on. Qed.
Lemma keeps_store {A} (m : M Store error A) : Keeps (kept (λ st : Store, st)) m → Keeps K (on the_store m).
Proof using. by apply keeps_on. Qed.
Lemma keeps_scenarios {A} (m : M ScenWorld error A) : Keeps (kept sw_store) m → Keeps K (on the_scenarios m).
Proof using. by apply keeps_on. Qed.
Lemma keeps_metrics {A} (m : M (Store * H_) error A) : Keeps (kept (λ sh, sh.1)) m → Keeps K (on the_metrics m).
Proof using. by apply keeps_on. Qed.
Lemma keeps_thresholds {A} (m : M (Store * ThresholdStore) error A) : Keeps (kept (λ sh, sh.1)) m → Keeps K (on the_thresholds m).
Proof using. by apply keeps_on. Qed.
Lemma keeps_registry {A} (m : M (ClusterWorld R X) error A) : Keeps (kept (λ w, cw_runs w)) m → Keeps K (on the_registry m).
Proof using. by apply keeps_on. Qed.
Lemma keeps_identity {A} (m : M (P * Store) error A) : Keeps (kept (λ ps, ps.2)) m → Keeps K (on the_identity m).
Proof using. by apply keeps_on. Qed.
(** The parts that are not the store. *)
Lemma keeps_aside {T A} (l : lens S T) (m : M T error A) :
  (∀ t s, store_of (l_set l t s) = store_of s) → Keeps K (on l m).
Proof using. intros Hl s. apply kept_same; unfold on; destruct (m (l_get l s)); cbn; by rewrite Hl. Qed.

(** ** One handler at a time *)
Context (sleeps : ∀ p t s, K s (e_sleep env p t s).2).
#[local] Instance ev : ThresholdEvaluator ThresholdStore := {| EvaluateRun := Threshold_EvaluateRun (e_now env) |}.

Ltac answered Hm := let s := fresh "s" in intros Hm s; specialize (Hm s);
  lazymatch type of Hm with kept _ _ (?m s).2 => destruct (m s) as [[]]; exact Hm end.
Lemma K_or_no_schedule {A} (m : M S error A) : Keeps K m → Keeps K (or_no_schedule  m).
Proof using. unfold or_no_schedule. answered Hm. Qed.
Lemma K_or_diagnostics {A} raw (m : M S error A) : Keeps K m → Keeps K (or_diagnostics env raw m).
Proof using. unfold or_diagnostics. answered Hm. Qed.
Lemma K_or_no_version {A} (m : M S error A) : Keeps K m → Keeps K (or_no_version  m).
Proof using. unfold or_no_version. answered Hm. Qed.
Lemma K_or_invalid_threshold {A} (m : M S error A) : Keeps K m → Keeps K (or_invalid_threshold  m).
Proof using. unfold or_invalid_threshold. answered Hm. Qed.
Lemma K_authenticated r svc : Keeps K (authenticated env r svc).
Proof using.
  intros s. unfold authenticated. pose proof (keeps_identity _ (K_Authenticate (e_now env) svc (r_http r)) s) as Hm.
  destruct (on the_identity _ s) as [[]]; exact Hm.
Qed.
Lemma K_audit r a t e : Keeps K (audit d r a t e).
Proof using. unfold audit. destruct (d_Audit d); [|apply keeps_ret, _]. intros s. by apply kept_same. Qed.
(** The wait for engines: whatever the others do in between keeps the tables. *)
Lemma K_trigger_step id (x : time * duration * S) :
  match trigger_step env d id x with inl x' => K x.2 x'.2 | inr r => K x.2 r.2 end.
Proof using sleeps.
  destruct x as [[clock poll] s]. unfold trigger_step.
  pose proof (keeps_world _ (K_Trigger clock (e_ParseQuantity env) id) s) as Hm.
  destruct (on the_world _ s) as [[[]|e] s1]; [exact Hm|]. destruct (negb _ && negb _); [exact Hm|].
  destruct (After _ _ || _); [exact Hm|].
  match goal with |- context [e_sleep env ?p clock s1] => pose proof (sleeps p clock s1) as Hs;
    destruct (e_sleep env p clock s1) as [clock' s2] end.
  cbn in Hs. by etrans.
Qed.
Lemma K_trigger_wait id : Keeps K (trigger_wait env d id).
Proof using sleeps.
  intros s. unfold trigger_wait.
  pose proof (loop_upto_relates K (trigger_step env d id) snd snd) as Hl.
  specialize (Hl (λ x, K_trigger_step id x) (trigger_fuel d) (e_now env, trigger_poll d, s)).
  by destruct (loop_upto _ _ _) as [[[? ?] ?]|[? ?]].
Qed.

(** Composes along the code; [extra] deals with what is not a plain
    composition. *)
Ltac head_of t := lazymatch t with ?f _ => head_of f | _ => t end.
Ltac handler_with extra :=
  repeat (intros; cbv zeta;
    lazymatch goal with
    | |- Keeps _ (mret _) => apply keeps_ret; apply _
    | |- Keeps _ (throw _) => apply keeps_throw; apply _
    | |- Keeps _ (ask _) => apply keeps_ask; apply _
    | |- Keeps _ (gets _) => apply keeps_gets; apply _
    | |- Keeps _ (lift _) => apply keeps_lift; apply _
    | |- Keeps _ (guard _ _) => apply keeps_guard; apply _
    | |- Keeps _ (_ ≫= _) => apply keeps_bind; [apply _| |]
    | |- Keeps _ (call _) => apply keeps_call
    | |- Keeps _ (ignore _) => apply keeps_ignore
    | |- Keeps _ (attempt _) => apply keeps_attempt
    | |- Keeps _ (on the_world _) => apply keeps_world; apply _
    | |- Keeps _ (on the_store _) => apply keeps_store; apply _
    | |- Keeps _ (on the_scenarios _) => apply keeps_scenarios; apply _
    | |- Keeps _ (on the_metrics _) => apply keeps_metrics; apply _
    | |- Keeps _ (on the_thresholds _) => apply keeps_thresholds; apply _
    | |- Keeps _ (on the_registry _) => apply keeps_registry; apply _
    | |- Keeps _ (on the_identity _) => apply keeps_identity; apply _
    | |- Keeps _ (on _ _) => apply keeps_aside; reflexivity
    | |- Keeps _ (match ?x with _ => _ end) => destruct x
    | |- Keeps _ (or_no_schedule _) => apply K_or_no_schedule
    | |- Keeps _ (or_diagnostics _ _ _) => apply K_or_diagnostics
    | |- Keeps _ (or_no_version _) => apply K_or_no_version
    | |- Keeps _ (or_invalid_threshold _) => apply K_or_invalid_threshold
    | |- Keeps _ (authenticated _ _ _) => apply K_authenticated
    | |- Keeps _ (audit _ _ _ _ _) => apply K_audit
    | |- Keeps _ (trigger_wait _ _ _) => apply K_trigger_wait
    | |- Keeps _ ?m => first [solve [extra] | let h := head_of m in unfold h]
    end).

Ltac handler := handler_with fail.
Lemma K_compare r ids : Keeps K (compare_reports env d r ids).
Proof using.
  induction ids as [|id ids IH]; cbn [compare_reports]; [handler|].
  apply keeps_bind; [apply _|handler|]. intros rep. apply keeps_bind; [apply _|handler|]. intros _.
  apply keeps_bind; [apply _|handler|]. intros out. apply keeps_bind; [apply _|exact IH|]. handler.
Qed.
Lemma K_any_project r l : Keeps K (any_project d r l).
Proof using.
  induction l as [|svc l IH]; cbn [any_project]; [handler|].
  apply keeps_bind; [apply _|handler|]. intros ok. destruct (is_Ok ok); [handler|exact IH].
Qed.

(** Every route keeps the tables well-formed, whoever calls it. *)
Lemma handle_keeps rt r : Keeps K (handle env d rt r).
Proof using sleeps.
  destruct rt; cbn [handle];
    handler_with ltac:(first [simple apply K_compare | simple apply K_any_project]).
Qed.
Lemma serve_kept rt r s : K s (serve env d rt r s).2.
Proof using sleeps.
  assert (∀ r s, K s (answer (handle env d rt r) s).2) as Ha.
  { intros r0 s0. pose proof (handle_keeps rt r0 s0) as Hk. unfold answer.
    destruct (handle env d rt r0 s0) as [[]]; exact Hk. }
  unfold serve. destruct (publicAPIPath _); [apply Ha|]. destruct (d_Auth d) as [svc|]; [|apply Ha].
  destruct (enabled svc && _); [|apply Ha].
  pose proof (K_authenticated (with_account Account.zero_account r) svc s) as Hm.
  destruct (authenticated _ _ _ s) as [[acct|resp] s1]; [|exact Hm]. etrans; [exact Hm|apply Ha].
Qed.
End handlers.

(** ** Histories *)
Section system.
Context {P C R X : Type} `{!Unicode} `{!URLParser} `{!Scheduler C} `{!AuthProvider P}.
Context `{!ClusterRegistry R} `{!CredentialStore X}.
Local Abbreviation S := (Api P C R X).
Local Abbreviation W := (World C H_).

(** A tick names the store it leaves; the parts of the state it does not use may
    have moved on meanwhile. *)
Inductive step : S → S → Prop :=
| step_request env d rt r s :
    (∀ p t s0, steps s0 (e_sleep env p t s0).2) →
    step s (serve env d rt r s).2
| step_fire Marshal Unmarshal image tc eng pq sleep done claimed deployed asleep awake s s' :
    (∀ p t w, a_world (asleep p t w) = w) → (∀ p t w, a_world (awake p t w) = (sleep p t w).2) →
    (∀ p t w, steps (asleep p t w) (awake p t w)) →
    a_world s' = (fireOnce Marshal Unmarshal image tc eng pq sleep done claimed deployed (a_world s)).2 →
    step s s'
| step_calibrate Marshal Unmarshal image tc eng pq clock sleep get text fp now asleep awake s s' :
    (∀ p w, a_world (asleep p w) = w) → (∀ p w, a_world (awake p w) = sleep p w) →
    (∀ p w, steps (asleep p w) (awake p w)) →
    a_world s' = (advanceCalibrationOnce Marshal Unmarshal image tc eng pq clock sleep get text fp now
                    (a_world s)).2 →
    step s s'
| step_extend ParseStandard now s s' :
    a_world s' = (extendHorizonsOnce ParseStandard now (a_world s)).2 → step s s'
| step_drain now s s' : a_world s' = (drainOnce now (a_world s)).2 → step s s'
| step_reap now ttl s s' :
    a_world s' = (reapIdleOnce now ttl (a_registry s) (a_world s)).2 → step s s'
| step_digest Marshal deliver claimed fired sent sent' s s' :
    a_world s' = a_world s →
    fireDigestOnce (store_of s) (reports_of s) (ms_thresholds (w_metrics (a_world s))) Marshal deliver
      claimed fired (a_digestSchedules s, (a_digests s, sent)) =
      (a_digestSchedules s', (a_digests s', sent')) →
    step s s'
| step_reconcile (ev : ThresholdEvaluator ThresholdStore) now after s s' :
    a_world s' = (reconcileOnce now after (a_world s)).2 → step s s'
with steps : S → S → Prop :=
| steps_refl s : steps s s
| steps_l s1 s2 s3 : step s1 s2 → steps s2 s3 → steps s1 s3.

Scheme step_ind_ := Minimality for step Sort Prop
with steps_ind_ := Minimality for steps Sort Prop.
Combined Scheme system_ind from step_ind_, steps_ind_.

Local Abbreviation K := (kept (store_of (P := P) (C := C) (R := R) (X := X))).
(** A tick whose store [m] leaves. *)
Lemma tick_kept {A} (m : M W error A) s s' :
  Keeps (kept (λ w : W, w_store w)) m → a_world s' = (m (a_world s)).2 → K s s'.
Proof using. intros Hm E. specialize (Hm (a_world s)). unfold kept, store_of in *. by rewrite E. Qed.
(** While a tick sleeps, the others step. *)
Lemma sleep_kept s0 s1 w w' :
  a_world s0 = w → a_world s1 = w' → K s0 s1 → kept (λ w : W, w_store w) w w'.
Proof using. by intros <- <-. Qed.

Lemma system_kept :
  (∀ s s', step s s' → K s s') ∧ (∀ s s', steps s s' → K s s').
Proof using.
  apply system_ind.
  - intros env d rt r s _ Hsleep. by apply serve_kept.
  - intros * Ha Hw _ Hsleep E. eapply tick_kept; [|exact E]. apply K_fireOnce.
    intros p t w. exact (sleep_kept _ _ _ _ (Ha p t w) (Hw p t w) (Hsleep p t w)).
  - intros * Ha Hw _ Hsleep E. eapply tick_kept; [|exact E]. apply K_advanceCalibrationOnce.
    intros p w. exact (sleep_kept _ _ _ _ (Ha p w) (Hw p w) (Hsleep p w)).
  - intros ps now s s' E. eapply tick_kept; [apply K_extendHorizonsOnce|exact E].
  - intros now s s' E. eapply tick_kept; [apply K_drainOnce|exact E].
  - intros now ttl s s' E. eapply tick_kept; [apply K_reapIdleOnce|exact E].
  - intros * E _. apply kept_same; unfold store_of; by rewrite E.
  - intros ev now after s s' E. eapply tick_kept; [apply K_reconcileOnce|exact E].
  - reflexivity.
  - intros s1 s2 s3 _ H12 _ H23. by etrans.
Qed.

(** C1. The whole system keeps its promise over any history: whatever requests
    come in, from whomever and on whatever route, and however they interleave
    with the ticks of the background loops, no execution ever has two open runs,
    the run an execution is said to be in is open and is the only one, and every
    stored campaign is valid. *)
Theorem system_history_sound s s' :
  tables_ok (store_of s) → steps s s' →
  (∀ r1 r2 rec1 rec2,
     runHistory (st_runs (store_of s')) !! r1 = Some rec1 → runHistory (st_runs (store_of s')) !! r2 = Some rec2 →
     rr_EndTime rec1 = None → rr_EndTime rec2 = None → rr_ExecutionID rec1 = rr_ExecutionID rec2 → r1 = r2) ∧
  (∀ e r, CurrentRun e (st_runs (store_of s')) = Some r ↔
     ∃ rec, runHistory (st_runs (store_of s')) !! r = Some rec ∧ rr_ExecutionID rec = e ∧ rr_EndTime rec = None) ∧
  (∀ id c, campaigns (st_campaigns (store_of s')) !! id = Some c → Campaign_Validate c = Ok tt).
Proof using.
  intros [Hr Hc] Hsteps. destruct (proj2 system_kept _ _ Hsteps) as [Kr Kc].
  specialize (Kr Hr). specialize (Kc Hc). split; [|split].
  - intros r1 r2 rec1 rec2 H1 H2 E1 E2 E. pose proof (open_current _ Kr _ _ H1 E1).
    pose proof (open_current _ Kr _ _ H2 E2). congruence.
  - intros e r. split; [apply (current_open _ Kr)|]. intros (rec & Hrec & <- & Hend).
    exact (open_current _ Kr _ _ Hrec Hend).
  - intros id c Hid. by destruct (Kc _ _ Hid) as (_ & _ & ?).
Qed.
End system.

(** The editor stops the run that is going on, and a drain follows. *)
Definition stop_request : WebRequest := lab_request (λ _, "1") "" "".
Definition lab_stopped : Lab := (serve lab_env lab_deps Stop_ stop_request (lab_state editor)).2.
Definition lab_drained : Lab := l_set the_world (drainOnce lab_time (a_world lab_stopped)).2 lab_stopped.
Lemma a_world_set {P C R X} w (s : Api P C R X) : a_world (l_set the_world w s) = w.
Proof. done. Qed.
Lemma system_history_sound_witness :
  CurrentRun 1 (st_runs (store_of (lab_state editor))) = Some 1 ∧
  (∀ r, CurrentRun 1 (st_runs (store_of lab_drained)) = Some r ↔
     ∃ rec, runHistory (st_runs (store_of lab_drained)) !! r = Some rec ∧ rr_ExecutionID rec = 1 ∧
       rr_EndTime rec = None) ∧
  (rr_EndTime <$> runHistory (st_runs (store_of lab_drained)) !! 1) = Some (Some lab_time).
Proof.
  split; [reflexivity|]. split; [|vm_compute; reflexivity].
  intros r. apply (system_history_sound (lab_state editor) lab_drained).
  - split; [apply StartRun_ok, runs_ok_empty|]. intros id c. cbn. by rewrite lookup_empty.
  - refine (steps_l _ lab_stopped _ (step_request lab_env lab_deps Stop_ stop_request _ _) _).
    { intros p t s0. apply steps_refl. }
    refine (steps_l _ lab_drained _ (step_drain lab_time _ _ _) (steps_refl _)). apply a_world_set.
Defined.
